(* ===== verification/_CoqProject ===== *)
-Q . S2P
Prelude.v
GoStd.v
Netip.v
Model.v
Db.v
Wf.v
Sample.v
RulesStore.v
TunnelsStore.v
PeersStore.v
SettingsStore.v
AuthStore.v
RealityStore.v
StoreSpec.v
Migrate.v
Throttle.v
Base64.v
Password.v
Login.v
GoURL.v
PoolFilter.v
PoolMerge.v
PoolRefresh.v
IPPolicy.v
GoJson.v
JsonText.v
SingBox.v
Generate.v
GenerateSpec.v
GenerateRefs.v
RouteSpec.v
Reality.v
RealitySpec.v
Apply.v
ApplySpec.v
Nft.v
NftExpr.v
NftPolicy.v
TunnelEvents.v
TunnelWatch.v
WgPeers.v
Qr.v
QrField.v
QrStream.v
QrMatrix.v
QrSpec.v
Ingress.v
IngressSpec.v
Lists.v
Generation.v
Barrier.v
Admission.v
Gate.v
GateSpec.v
GateRun.v
GoText.v
PoolFilterSpec.v
Links.v
LinksSpec.v
WgConf.v
WgConfSpec.v
Import.v
ImportSpec.v
NativeRegex.v
Native.v
NativeSpec.v
