(* ===== verification/Prelude.v ===== *)
(** * Verification of the razdacha gateway daemon

    razdacha is a selective VPN gateway: WireGuard and REALITY clients connect
    to a server, and the rules of its panel decide which of their connections
    leave directly, which go through an upstream tunnel and which are refused.
    The daemon keeps its state in SQLite ([src/internal/store]), generates a
    sing-box configuration from it ([src/internal/singbox]), steers traffic with
    nftables and a WireGuard interface ([src/internal/netstack]), fills its free
    pools from public catalogues ([src/internal/lists]) and serves a panel
    ([src/internal/api]).

    This library is a shallow embedding of those parts: Go structs are records,
    Go functions are Rocq functions, [(value, error)] is [result] (the sentinel
    that callers test and a label; message texts are not modelled), a mutation
    of the database is a transaction [Tx] on the record [db].  Every definition
    is executable.  Values the code draws (identifiers, times, keys, random
    bytes) are arguments; code that is not in the repository is a class whose
    laws are its documented behaviour ([WGKeys] for [wgtypes], [IPSets] for
    [netipx], [Unicode] and [RuneClass] for [unicode], function arguments for
    argon2, SHA-256 and X25519), and the witnesses instantiate it.

    ** The parts

    Shared: [Prelude] (results, tactics, lists), [GoStd] (the parts of Go's
    standard library in use: [strings], [strconv], [time], [net/netip],
    [encoding/json.Valid]), [Base64] ([encoding/base64]), [GoURL] ([net/url]),
    [GoJson] (decoding of JSON values), [JsonText] (their encoding, and that
    decoding takes it back), [Netip] (addresses printed and parsed), [Sample] (a concrete database for the
    witnesses).

    The store: [Model] is [model.go] (records and their [validate] methods);
    [Db] the tables of [migrate.go] at schema version 13 with their constraints,
    one SQL statement a function, and [run], which is [Store.tx]; [Wf] the
    invariant.  Handlers: [RulesStore] ([rules.go]), [TunnelsStore]
    ([tunnels.go], [tunnels_warp.go], [tunnel_checks.go]), [PeersStore]
    ([peers.go] and the credentials of [reality.go]), [SettingsStore]
    ([settings.go], [install.go], [notify.go], [wgkeys.go]), [AuthStore]
    ([auth.go], [auth_restore.go]), [RealityStore] ([reality.go], [snapshot.go],
    [reality_inventory.go], [route_explain.go]), [Migrate] ([migrate.go]).
    [StoreSpec] puts the handlers together as a step relation.

    The panel: [Throttle] ([throttle.go], [clientip.go]), [Password]
    ([password.go]), [Login] ([session.go] and the handlers of [handlers.go]),
    [TunnelEvents] ([notify_events.go]) and [TunnelWatch] ([tunnels_watch.go]
    and the cache of [tunnels_check.go]).

    The pools: [PoolFilter] ([poolfilter.go]; its rules, stated on links and
    titles, are in [PoolFilterSpec]) implements the interface [PoolPolicy],
    against which [PoolMerge] and [PoolRefresh] ([lists/pool.go])
    and the generator are proved.

    The generator: [SingBox] (tunnels, pools, DNS, rule sets, aliases), with
    what it asks of its neighbours as the classes [Platform] and [PoolSource];
    [Generate] ([generate.go], [dns.go], [ruleset.go], [peer_egress.go]);
    [GenerateSpec] reads the generated rules on a connection and a name and
    gives their decisions as functions; [GenerateRefs] is about names inside the
    configuration; [RouteSpec] states the routing policy on the rows of the
    snapshot, without the functions of the generator.  [Reality] ([reality.go], [reality_denial.go],
    [reality_client.go]) rewrites the generated rules for the public entrance,
    and [RealitySpec] reads the result.  [IPPolicy] is the boundary of local addresses, shared with
    the packet filter.

    The network: [Nft] ([nft_rules.go], [rule_subnets.go], [peer_egress.go]),
    [NftExpr] (the compilation of [nft.go], on a model of the registers of
    nftables), [NftPolicy] ([Apply], [Clear] and packets through the whole
    table), [WgPeers] ([wg.go], [wg_config.go], [wg_peers.go], [wg_keys.go]).

    The application of a configuration: [Apply] ([apply.go], [apply_exec.go],
    [pool_reject.go]) with the disk, the runtime and the service as answers, and
    [ApplySpec].

    The entrance: [Ingress] is [ingressguard] (the compiled configurations, the
    manifest, the start of sing-box behind the guard), the public and the client
    guard of the packet filter ([public_guard.go], [guard_linux.go]) and what
    the installer does with them ([packaging/ingress.go]); [IngressSpec] is what
    a started sing-box is closed by.

    The daemon: [Lists] ([lists/lists.go], [lists/manager.go]: which lists a
    policy needs, who owns them, a round of downloads), [Generation]
    ([networkstate/state.go] and the parts of [cmd/razdachad] that compare, copy
    and validate generations), [Gate]: the publication gate ([network_generation.go],
    [reality.go], [apply.go], [wg_sync.go], the start of [main.go]).  An operation
    of the gate is a program of single actions on a [World] (database, files,
    barriers, sing-box, interface, route, packet filter, records, memory of the
    daemon).  [exec] runs it against a list of turns: before each action the
    service manager may stop, guard or start sing-box, the panel may write to
    the store and the lists may change; the turn answers the action (it may
    fail, or have worked and be reported as failed); when the turns end the
    daemon is dead, wherever it was.  [Barrier] and [Admission] are the laws of
    the barriers and of the store the proof needs (what a controlled write of
    the manifest leaves alone; which handlers of the panel cannot withdraw
    access behind the gate's back).  [GateSpec] has the invariant, a logic of
    triples for the programs, and sessions ([session_step]: calls, deaths,
    restarts of the daemon, reboots); [GateRun] a concrete machine.

    The import of tunnels: [Links] ([parse_url.go]: proxy links) and [WgConf]
    ([parse_wireguard.go]: files of wg-quick), with [GoText] for the string
    functions they use; [LinksSpec] and [WgConfSpec] write links and files and
    read them back; [Import] ([parse.go], [parse_catalog.go]) chooses the parser
    and is the instance of [PoolSource] the generator asks for; [ImportSpec] puts
    it together with the filter and the generator of the pools, and with the
    configuration file of a client ([WgPeers]).

    The rule sets: [NativeRegex] ([native_regex.go]) and [Native] ([native.go])
    compile a set of sing-box to what the packet filter and the resolver can
    intercept; [NativeSpec] gives the meaning of a set and compares.

    The QR encoder of the installer: [Qr] ([qr.go], [terminal.go]); [QrField] is
    its Reed-Solomon algebra, [QrStream] and [QrMatrix] a reader of the standard
    for the bits and for the modules, [QrSpec] the round trip.

    ** What the theorems show

    - Store: every state reachable by the handlers is well formed
      ([store_invariant]); each handler answers and changes what it should on
      every branch (the theorems [..._correct] of the store files); snapshots are
      closed under references and never readmit a rotated, disabled or deleted
      client; settings survive a round trip; migrations resume.
    - Panel: the rate of wrong passwords since the last successful login is
      bounded for an address whose requests come one after another; logins and sessions are exact under
      interleaving; a password change revokes; stored hashes verify exactly the
      passwords they were made of.
    - Pools: the filter refuses exactly what it lists, the merged list keeps its
      window, a repeated crawl changes nothing, a round isolates failures.
    - Generator: routes and DNS answers refine the policy of the rows; traffic
      assigned to a tunnel never leaves directly; everything named is defined; a
      live REALITY client is decided as its WireGuard address would be, a
      stranger is refused, and the entrance changes nothing for others.
    - Network: a compiled rule does to a packet what the rule means, for both
      byte orders and for packets cut short; the table carries out the policy of
      the documentation; the WireGuard device converges to the stored clients.
    - Application: preparation ends for every answer of the disk and the
      runtime and takes from a pool exactly the servers with the link the
      runtime named; only
      accepted bytes are published, and the service restarts exactly when it
      has to.
    - Gate: from a machine where nothing runs, through any sequence of calls,
      failures, service restarts, panel writes, deaths of the daemon at any
      action and reboots, either the barriers are closed around everything
      sing-box runs or may read, or one committed policy is served as a whole
      ([gate_never_exposed]); a successful Apply has published the database as it
      stood at its transaction ([ApplyCurrent_publishes]).  They assume what the installation
      provides: the configuration is neither the manifest, its lock nor one of
      the manifest's parent directories; [panel] lists the store handlers that the
      panel calls beside the gate.  A late download leaves no trace; an
      interrupted restore never falls back to an older record.
    - Import: every outbound the importer can produce has a link that is read
      back as it is; what is read is well formed; a pool whose keys have the
      schemes of the catalogues gives the configuration only encrypted members
      with checked certificates; the file issued to a client imports as the
      endpoint of that client.
    - Rule sets: every connection a compiled set matches is intercepted by its
      name or its address, none is taken that it does not match, except that
      the address sets for TCP and UDP are envelopes; the address sets never
      become everything; the budget of regular expressions is exact.
    - Entrance: whatever configuration the disk holds, a sing-box that starts is
      behind rules that drop every connection to its public endpoint, until the
      daemon opens it; the manifest survives its round trip.
    - QR: a reader takes back every text of at most 2953 bytes, from the modules
      and from the picture in the terminal, for all forty versions.
    - Notifications: confirmation and bounds per hour of the messages, convergence
      of the recorded state, and when that state changes in silence;
      a round of checks never reports a fall (see the manifest's findings).

    ** Numbers, fuel and time

    Go's [int], [int64] and [time.Duration] are [Z]; where the code can leave the
    64-bit range ([fail_delay]'s shift, [time.Sub]) the wrap or the saturation is
    written out.  Addresses are [Z] below 2^32 or 2^128.  Times are Unix
    nanoseconds.  Recursions are structural; the few with fuel take the length
    of their input (texts: one unit per byte, JSON two per byte, IPv6 one per
    group), and every call below them has read at least one byte.

    ** What is not modelled

    Of the modelled files: the JSON text of list columns (a column holds the
    list; writer and reader are the same pair of functions in the source, and
    rows older than schema 13 are not represented), texts of errors and log
    lines, the texts of the plan the generator reports for the route explanation and
    [Marshal], HTTP framing, cookies, contexts and cancellation, locks and
    goroutines (a round of checks of the tunnels that a cancelled context or a
    failed read of the store ends early is one of these; handlers are atomic, and interleavings are explicit where they
    matter: [Login], [TunnelWatch], [Lists], [Gate]), netlink failures other than those of the
    listing and of the flush.

    Of the gate: the views of a client's REALITY state, the reset command, the
    observation epoch's readers; the daemon always has a store, so the branches
    for a gate without one are left out.

    Of the import and of the rule sets: the JSON the encoders of sing-box write,
    [url.Parse], and the checks on the text of a rule set before it is decoded
    ([checkNativeJSON], [native_srs.go]).

    Of the repository: the command line and the rest of the daemon's wiring ([cmd]),
    installation ([packaging] but for [ingress.go], [tools]), backups, the diagnosis
    pages and probes of the panel, the HTTP clients (Clash, catalogues,
    Telegram, WARP registration) and the web assets.  They are I/O around the
    parts above, or are listed as not yet modelled in the manifest. *)

From stdpp Require Export prelude strings gmap sorting.
From Stdlib Require Export ZArith Lia.

(** ** Errors and results

    Go functions return [(value, error)].  A Go error is modelled by the
    sentinel it wraps (what callers test with [errors.Is]) and a short label
    naming the failing check; the human-readable message text is not
    modelled. *)
Inductive errkind :=
  | ErrConflict | ErrNotFound | ErrInUse | ErrInvalid
  | ErrNoPassword | ErrPasswordChanged
  (** driver errors: a violated UNIQUE constraint (with its column) and a
      violated foreign key *)
  | ErrUnique (column : string)
  | ErrForeignKey
  (** an error that wraps no sentinel *)
  | ErrOther.

#[export] Instance errkind_eq_dec : EqDecision errkind.
Proof. solve_decision. Defined.

Record error := MkError { err_kind : errkind; err_label : string }.

#[export] Instance error_eq_dec : EqDecision error.
Proof. solve_decision. Defined.

Inductive result (A : Type) :=
  | Ok (a : A)
  | Err (e : error).
Arguments Ok {A} a.
Arguments Err {A} e.

Definition fail {A} (k : errkind) (label : string) : result A := Err (MkError k label).

#[export] Instance result_ret : MRet result := fun _ a => Ok a.
#[export] Instance result_bind : MBind result := fun _ _ f m =>
  match m with Ok a => f a | Err e => Err e end.

Definition is_ok {A} (r : result A) : bool :=
  match r with Ok _ => true | Err _ => false end.

(** [guard_err c k label]: Go's [if c { return fmt.Errorf("%w: ...", k) }]. *)
Definition guard_err (c : bool) (k : errkind) (label : string) : result unit :=
  if c then fail k label else Ok tt.

Section result.
Context {A B : Type}.

Lemma result_bind_Ok (m : result A) (f : A -> result B) b :
  m ≫= f = Ok b <-> exists a, m = Ok a /\ f a = Ok b.
Proof. destruct m; simpl; naive_solver. Qed.

Lemma result_bind_Err (m : result A) (f : A -> result B) e :
  m ≫= f = Err e <-> m = Err e \/ exists a, m = Ok a /\ f a = Err e.
Proof. destruct m; simpl; naive_solver. Qed.

Lemma guard_err_Ok c k l u : guard_err c k l = Ok u <-> c = false.
Proof. destruct c, u; unfold guard_err, fail; naive_solver. Qed.

Lemma is_ok_Ok (m : result A) : is_ok m = true <-> exists a, m = Ok a.
Proof. destruct m; naive_solver. Qed.
End result.

(** ** Tactics shared by the development *)

(** Split every hypothesis that says a monadic computation succeeded. *)
Ltac inv_result :=
  repeat match goal with
  | H : _ ≫= _ = Ok _ |- _ => apply result_bind_Ok in H as (? & ? & ?)
  | H : guard_err _ _ _ = Ok _ |- _ => apply guard_err_Ok in H
  | H : Ok _ = Ok _ |- _ => injection H as H
  | H : Err _ = Ok _ |- _ => discriminate H
  | H : Ok _ = Err _ |- _ => discriminate H
  | H : fail _ _ = Ok _ |- _ => discriminate H
  | H : mret _ = Ok _ |- _ => injection H as H
  end; simplify_eq.

(** Case analysis on every [match]/[if] of the goal and the hypotheses. *)
Ltac split_matches := repeat (case_match; simplify_eq/=).

(** Turn boolean tests into propositions. *)
Ltac reflect_bools :=
  repeat match goal with
  | H : bool_decide _ = true |- _ => apply bool_decide_eq_true_1 in H
  | H : bool_decide _ = false |- _ => apply bool_decide_eq_false_1 in H
  | H : _ && _ = true |- _ => apply andb_true_iff in H as [? ?]
  | H : _ || _ = false |- _ => apply orb_false_iff in H as [? ?]
  | H : negb _ = true |- _ => apply negb_true_iff in H
  | H : negb _ = false |- _ => apply negb_false_iff in H
  | H : ~ ~ _ |- _ => apply dec_stable in H
  end.

(** ** Lists *)
Section lists.
Context {A : Type}.

(** Order-preserving removal of later duplicates: the [seen] map idiom of
    the source ([if seen[x] { continue }; seen[x] = true; append]). *)
Fixpoint dedup_from `{EqDecision A} (seen l : list A) : list A :=
  match l with
  | [] => []
  | x :: l =>
      if decide (x ∈ seen) then dedup_from seen l else x :: dedup_from (x :: seen) l
  end.

Lemma elem_of_dedup_from `{EqDecision A} seen l x :
  x ∈ dedup_from seen l <-> x ∈ l /\ x ∉ seen.
Proof.
  revert seen. induction l as [|y l IH]; intros seen; simpl; [set_solver|].
  case_decide as Hy; rewrite ?elem_of_cons, ?IH, ?not_elem_of_cons.
  - naive_solver.
  - destruct (decide (x = y)); naive_solver.
Qed.

Lemma NoDup_dedup_from `{EqDecision A} seen l : NoDup (dedup_from seen l).
Proof.
  revert seen. induction l as [|y l IH]; intros seen; simpl; [constructor|].
  case_decide; [apply IH|constructor; [|apply IH]].
  rewrite elem_of_dedup_from. set_solver.
Qed.

Lemma dedup_from_id `{EqDecision A} seen l :
  NoDup l -> (forall x, x ∈ l -> x ∉ seen) -> dedup_from seen l = l.
Proof.
  revert seen. induction l as [|y l IH]; intros seen Hnd Hs; [done|].
  apply NoDup_cons in Hnd as [Hy Hnd]. simpl.
  case_decide as Hc; [exfalso; apply (Hs y); [apply list_elem_of_here|done]|].
  f_equal. apply IH; [done|]. intros x Hx. rewrite not_elem_of_cons.
  split; [congruence|]. apply Hs. by apply list_elem_of_further.
Qed.

(** Go's [for i, x := range l], counting from [k]. *)
Fixpoint enum (k : nat) (l : list A) : list (nat * A) :=
  match l with
  | [] => []
  | x :: l => (k, x) :: enum (S k) l
  end.

Lemma elem_of_enum k l i x : (i, x) ∈ enum k l <-> k <= i /\ l !! (i - k) = Some x.
Proof.
  revert k. induction l as [|y l IH]; intros k; simpl.
  { rewrite elem_of_nil. naive_solver. }
  rewrite elem_of_cons, IH. split.
  - intros [[= -> ->]|[Hle Hl]].
    + by rewrite Nat.sub_diag.
    + split; [lia|]. by replace (i - k) with (S (i - S k)) by lia.
  - intros [Hle Hl]. destruct (decide (i = k)) as [->|Hne].
    + rewrite Nat.sub_diag in Hl. simplify_eq/=. by left.
    + right. split; [lia|]. by replace (i - k) with (S (i - S k)) in Hl by lia.
Qed.

Lemma fmap_nil_iff {B} (f : A -> B) (l : list A) : f <$> l = [] <-> l = [].
Proof. by destruct l. Qed.

Lemma filter_nil_iff (P : A -> Prop) `{forall x, Decision (P x)} (l : list A) :
  filter P l = [] <-> forall x, x ∈ l -> ~ P x.
Proof.
  induction l as [|y l IH]; simpl; [set_solver|].
  rewrite filter_cons. case_decide; set_solver.
Qed.

Lemma filter_iff_in (P Q : A -> Prop) `{forall x, Decision (P x)} `{forall x, Decision (Q x)}
  (l : list A) : (forall x, x ∈ l -> P x <-> Q x) -> filter P l = filter Q l.
Proof.
  induction l as [|y l IH]; intros Hpq; [done|]. rewrite !filter_cons.
  rewrite IH by (intros; apply Hpq; by apply list_elem_of_further).
  assert (P y <-> Q y) by (apply Hpq, list_elem_of_here).
  do 2 case_decide; naive_solver.
Qed.

Lemma filter_all (P : A -> Prop) `{forall x, Decision (P x)} (l : list A) :
  (forall x, x ∈ l -> P x) -> filter P l = l.
Proof.
  induction l as [|y l IH]; intros HP; [done|]. rewrite filter_cons.
  rewrite decide_True by apply HP, list_elem_of_here.
  f_equal. apply IH. intros; apply HP. by apply list_elem_of_further.
Qed.
End lists.

(** ** Finite maps *)
Section maps.
Context `{Countable K} {A : Type}.
Implicit Types m : gmap K A.

(** Does some row of the table satisfy the test? *)
Definition map_any (p : K -> A -> bool) m : bool :=
  existsb (fun kv => p kv.1 kv.2) (map_to_list m).

Lemma map_any_true p m :
  map_any p m = true <-> exists k x, m !! k = Some x /\ p k x = true.
Proof.
  unfold map_any. rewrite existsb_exists. split.
  - intros ([k x] & Hin & Hp). exists k, x. split; [|done].
    by apply elem_of_map_to_list, list_elem_of_In.
  - intros (k & x & Hk & Hp). exists (k, x). split; [|done].
    by apply list_elem_of_In, elem_of_map_to_list.
Qed.

Lemma map_any_false p m :
  map_any p m = false <-> forall k x, m !! k = Some x -> p k x = false.
Proof.
  rewrite <- not_true_iff_false, map_any_true. split.
  - intros Hn k x Hk. apply not_true_iff_false. naive_solver.
  - intros Hn (k & x & Hk & Hp). specialize (Hn k x Hk). congruence.
Qed.

(** The rows of a table, without their keys. *)
Definition map_rows m : list A := (map_to_list m).*2.

Lemma elem_of_map_rows m x : x ∈ map_rows m <-> exists k, m !! k = Some x.
Proof.
  unfold map_rows. rewrite list_elem_of_fmap. split.
  - intros ([k y] & -> & Hin). exists k. by apply elem_of_map_to_list.
  - intros [k Hk]. exists (k, x). split; [done|]. by apply elem_of_map_to_list.
Qed.

Lemma length_map_rows m : length (map_rows m) = size m.
Proof. unfold map_rows. by rewrite length_fmap, length_map_to_list. Qed.

(** If a column determines the key, it is duplicate-free over the rows. *)
Lemma NoDup_map_rows_fmap {B} (f : A -> B) m :
  (forall k1 k2 x1 x2, m !! k1 = Some x1 -> m !! k2 = Some x2 -> f x1 = f x2 -> k1 = k2) ->
  NoDup (f <$> map_rows m).
Proof.
  intros Hinj. unfold map_rows. rewrite <- list_fmap_compose.
  apply NoDup_fmap_2_strong; [|apply NoDup_map_to_list].
  intros [k1 x1] [k2 x2] H1%elem_of_map_to_list H2%elem_of_map_to_list Hf. simpl in Hf.
  assert (k1 = k2) as <- by eauto. congruence.
Qed.
End maps.

Create HintDb razdacha.
#[export] Hint Resolve NoDup_dedup_from : razdacha.

Lemma NoDup_map_inj {A B} (f : A -> B) l x y : NoDup (map f l) -> x ∈ l -> y ∈ l -> f x = f y -> x = y.
Proof.
  induction l as [|z l IH]; [by intros _ ?%elem_of_nil|]. simpl. intros [Hz Hnd]%NoDup_cons.
  intros [->|Hx]%elem_of_cons [->|Hy]%elem_of_cons Hf; [done|..|by apply IH]; exfalso; apply Hz.
  - rewrite Hf. by apply list_elem_of_fmap_2.
  - rewrite <- Hf. by apply list_elem_of_fmap_2.
Qed.

Lemma take_In {A} n (l : list A) x : x ∈ take n l -> x ∈ l.
Proof. intros (i & Hi & _)%elem_of_take. by eapply list_elem_of_lookup_2. Qed.
Lemma drop_In {A} n (l : list A) x : x ∈ drop n l -> x ∈ l.
Proof. intros [i Hi]%list_elem_of_lookup. rewrite lookup_drop in Hi. by eapply list_elem_of_lookup_2. Qed.

Lemma existsb_ext {A} (f g : A -> bool) l : (forall x, f x = g x) -> existsb f l = existsb g l.
Proof. intros Hfg. induction l as [|x l IH]; simpl; [done|]. by rewrite Hfg, IH. Qed.

Section fold_once.
Context {A B : Type} (F : B -> A -> B) (G : B -> B).

Lemma foldl_same l b : (forall x, x ∈ l -> forall b, F b x = b) -> foldl F b l = b.
Proof.
  induction l as [|x l IH]; intros Hl; [done|]. cbn [foldl]. rewrite (Hl x) by by left.
  apply IH. intros; apply Hl. by right.
Qed.

(** A fold of steps that each do nothing or the same idempotent update. *)
Lemma foldl_once l b :
  (forall b, G (G b) = G b) -> (forall x, x ∈ l -> (forall b, F b x = b) \/ (forall b, F b x = G b)) ->
  (exists x, x ∈ l /\ forall b, F b x = G b) -> foldl F b l = G b.
Proof.
  intros HG. assert (Hafter : forall l b, (forall x, x ∈ l -> (forall b, F b x = b) \/ (forall b, F b x = G b)) ->
    foldl F (G b) l = G b).
  { clear l b. intros l b. induction l as [|x l IH]; intros Hl; [done|]. cbn [foldl].
    destruct (Hl x) as [->| ->]; [by left|..]; rewrite ?HG; apply IH; intros; apply Hl; by right. }
  induction l as [|x l IH]; intros Hl (y & Hy & HFy); [by apply elem_of_nil in Hy|]. cbn [foldl].
  assert (Hl' : forall x, x ∈ l -> (forall b, F b x = b) \/ (forall b, F b x = G b)) by (intros; apply Hl; by right).
  apply elem_of_cons in Hy as [->|Hy]; [rewrite HFy; by apply Hafter|].
  destruct (Hl x) as [->| ->]; [by left| |by apply Hafter]. apply IH; [done|by exists y].
Qed.
End fold_once.
