(* ===== verification/GoStd.v ===== *)
(** * The parts of Go's standard library the daemon relies on

    Go strings are byte strings, modelled by [String.string].  Integers of Go
    type [int]/[int64] are [Z] with their range written out where the source
    can leave it.  Modelled here: the [strings] functions used by the store
    ([TrimSpace], [Split], [Join], [ToUpper] on ASCII, [Cut], [Contains]),
    [strconv] ([Itoa], [Atoi], [ParseBool], [FormatBool]), [time.Time] at
    second granularity, [encoding/json.Valid] and the [net/netip] address and
    prefix parsers. *)

From Stdlib Require Import Ascii DecimalString DecimalZ.
From S2P Require Import Prelude.
#[local] Open Scope Z_scope.

(** ** [strings] *)

Definition byte_of (a : ascii) : Z := Z.of_N (N_of_ascii a).

Fixpoint str_rev_app (s acc : string) : string :=
  match s with
  | EmptyString => acc
  | String c s => str_rev_app s (String c acc)
  end.
Definition str_rev (s : string) : string := str_rev_app s EmptyString.

(** Remove one of the given prefixes, if [s] starts with it. *)
Fixpoint strip_prefix (p s : string) : option string :=
  match p, s with
  | EmptyString, _ => Some s
  | String a p, String b s => if decide (a = b) then strip_prefix p s else None
  | _, _ => None
  end.

Definition HasPrefix (s p : string) : bool :=
  match strip_prefix p s with Some _ => true | None => false end.

Definition byte_string (l : list Z) : string :=
  foldr (fun b s => String (ascii_of_N (Z.to_N b)) s) EmptyString l.

(** UTF-8 encodings of the code points for which [unicode.IsSpace] holds. *)
Definition space_runes : list string :=
  map byte_string
    ([[9]; [10]; [11]; [12]; [13]; [32]; [0xC2; 0x85]; [0xC2; 0xA0]; [0xE1; 0x9A; 0x80];
      [0xE2; 0x80; 0xA8]; [0xE2; 0x80; 0xA9]; [0xE2; 0x80; 0xAF]; [0xE2; 0x81; 0x9F];
      [0xE3; 0x80; 0x80]] ++ map (fun k => [0xE2; 0x80; 0x80 + k]) (seqZ 0 11)).

Fixpoint strip_any (ps : list string) (s : string) : option string :=
  match ps with
  | [] => None
  | p :: ps => match strip_prefix p s with Some r => Some r | None => strip_any ps s end
  end.

Fixpoint trim_left_runes (runes : list string) (fuel : nat) (s : string) : string :=
  match fuel with
  | O => s
  | S fuel => match strip_any runes s with
              | Some r => trim_left_runes runes fuel r
              | None => s
              end
  end.

(** [strings.TrimSpace]; every step removes at least one byte, so the length
    is enough fuel. *)
Definition TrimSpace (s : string) : string :=
  let s1 := trim_left_runes space_runes (String.length s) s in
  str_rev (trim_left_runes (map str_rev space_runes) (String.length s1) (str_rev s1)).

(** [strings.Split] on a one-byte separator. *)
Fixpoint Split (s : string) (sep : ascii) : list string :=
  match s with
  | EmptyString => [EmptyString]
  | String c s =>
      if decide (c = sep) then EmptyString :: Split s sep
      else match Split s sep with
           | [] => [String c EmptyString]
           | w :: ws => String c w :: ws
           end
  end.

Fixpoint Join (l : list string) (sep : string) : string :=
  match l with
  | [] => EmptyString
  | [x] => x
  | x :: l => x +:+ sep +:+ Join l sep
  end.

(** [strings.Cut] at the first occurrence of a byte. *)
Fixpoint Cut (s : string) (sep : ascii) : option (string * string) :=
  match s with
  | EmptyString => None
  | String c s =>
      if decide (c = sep) then Some (EmptyString, s)
      else match Cut s sep with
           | Some (a, b) => Some (String c a, b)
           | None => None
           end
  end.

Definition ContainsByte (s : string) (sep : ascii) : bool :=
  match Cut s sep with Some _ => true | None => false end.

Lemma Split_app_sep a b c : Split (a +:+ String c b) c = Split a c ++ Split b c.
Proof.
  induction a as [|x a IH]; simpl; [by rewrite decide_True|].
  destruct (decide (x = c)); [by rewrite IH|]. rewrite IH.
  destruct (Split a c) as [|w ws] eqn:E; [|done].
  exfalso. destruct a as [|y a]; simpl in E; [done|].
  destruct (decide (y = c)); [done|]. by destruct (Split a c).
Qed.

Lemma Split_none s c : ContainsByte s c = false -> Split s c = [s].
Proof.
  unfold ContainsByte. induction s as [|x s IH]; simpl; [done|].
  destruct (decide (x = c)); [done|]. intros H. rewrite IH; [done|].
  by destruct (Cut s c) as [[]|].
Qed.

(** Split at the last occurrence of a byte ([strings.LastIndexByte]). *)
Definition CutLast (s : string) (sep : ascii) : option (string * string) :=
  match Cut (str_rev s) sep with
  | Some (b, a) => Some (str_rev a, str_rev b)
  | None => None
  end.

Fixpoint map_string (f : ascii -> ascii) (s : string) : string :=
  match s with
  | EmptyString => EmptyString
  | String c s => String (f c) (map_string f s)
  end.

Definition upper_ascii (c : ascii) : ascii :=
  let b := byte_of c in
  if decide (97 <= b <= 122) then ascii_of_N (Z.to_N (b - 32)) else c.

(** [strings.ToUpper] on a string of ASCII bytes. *)
Definition ToUpperASCII (s : string) : string := map_string upper_ascii s.

Definition lower_ascii (c : ascii) : ascii :=
  let b := byte_of c in
  if decide (65 <= b <= 90) then ascii_of_N (Z.to_N (b + 32)) else c.
Definition ToLowerASCII (s : string) : string := map_string lower_ascii s.

Fixpoint all_bytes (p : Z -> bool) (s : string) : bool :=
  match s with
  | EmptyString => true
  | String c s => p (byte_of c) && all_bytes p s
  end.

(** The Unicode tables are not reproduced: what the daemon asks of them is a
    class, whose laws are the documented behaviour on ASCII text. *)
Class Unicode := {
  ToUpper : string -> string;
  ToLower : string -> string;
  ToUpper_ascii s : all_bytes (fun b => b <? 128) s = true -> ToUpper s = ToUpperASCII s;
  ToLower_ascii s : all_bytes (fun b => b <? 128) s = true -> ToLower s = ToLowerASCII s
}.

(** [utf8.RuneCountInString]: an ill-formed byte counts as one rune. *)
Definition rune_size (s : string) : nat :=
  let cont c := 128 <=? byte_of c in let cont c := cont c && (byte_of c <=? 191) in
  let within lo hi c := (lo <=? byte_of c) && (byte_of c <=? hi) in
  match s with
  | EmptyString => O
  | String a s1 =>
      let b := byte_of a in
      match s1 with
      | String c1 s2 =>
          if (194 <=? b) && (b <=? 223) then if cont c1 then 2%nat else 1%nat
          else match s2 with
               | String c2 s3 =>
                   let lo := if b =? 224 then 160 else if b =? 240 then 144 else 128 in
                   let hi := if b =? 237 then 159 else if b =? 244 then 143 else 191 in
                   if (224 <=? b) && (b <=? 239) then if within lo hi c1 && cont c2 then 3%nat else 1%nat
                   else match s3 with
                        | String c3 _ =>
                            if (240 <=? b) && (b <=? 244) && within lo hi c1 && cont c2 && cont c3
                            then 4%nat else 1%nat
                        | EmptyString => 1%nat
                        end
               | EmptyString => 1%nat
               end
      | EmptyString => 1%nat
      end
  end.
Fixpoint drop_string (n : nat) (s : string) : string :=
  match n, s with S n, String _ s => drop_string n s | _, _ => s end.
Fixpoint rune_count (fuel : nat) (s : string) : Z :=
  match fuel, s with
  | S fuel, String _ _ => 1 + rune_count fuel (drop_string (rune_size s) s)
  | _, _ => 0
  end.
Definition RuneCount (s : string) : Z := rune_count (String.length s) s.

Example RuneCount_ex : RuneCount "пароль" = 6 /\ RuneCount (byte_string [0xE2; 0x82; 0x41; 0xFF]) = 4.
Proof. split; vm_compute; reflexivity. Qed.

(** ** [strconv] *)
Definition max_int : Z := 2 ^ 63 - 1.
Definition min_int : Z := - 2 ^ 63.
Definition in_int64 (z : Z) : bool := (min_int <=? z) && (z <=? max_int).

(** Two's complement wrap-around of a Go [int64]. *)
Definition wrap64 (z : Z) : Z := (z + 2 ^ 63) mod 2 ^ 64 - 2 ^ 63.

Definition Itoa (z : Z) : string := NilZero.string_of_int (Z.to_int z).

(** [strconv.Atoi]: an optional sign, at least one decimal digit, 64-bit range. *)
Definition Atoi (s : string) : option Z :=
  let parse s := option_map Z.of_int (NilZero.int_of_string s) in
  let v := match s with
           | String "+" (String "-" _) => None
           | String "+" s => parse s
           | _ => parse s
           end in
  match v with
  | Some z => if in_int64 z then Some z else None
  | None => None
  end.

(** [strconv.ParseUint(s, 10, bits)]: decimal digits only. *)
Definition ParseUint (s : string) (bits : Z) : option Z :=
  if all_bytes (fun b => (48 <=? b) && (b <=? 57)) s then
    v ← option_map Z.of_int (NilZero.int_of_string s);
    if decide (v < 2 ^ bits) then Some v else None
  else None.

(** [path.Ext]: from the last dot of the last path element. *)
Definition Ext (p : string) : string :=
  let last := match CutLast p "/" with Some (_, l) => l | None => p end in
  match CutLast last "." with Some (_, e) => "." +:+ e | None => EmptyString end.

Definition FormatBool (b : bool) : string := if b then "true" else "false".

Definition ParseBool (s : string) : option bool :=
  if decide (s ∈ ["1"; "t"; "T"; "TRUE"; "true"; "True"]) then Some true
  else if decide (s ∈ ["0"; "f"; "F"; "FALSE"; "false"; "False"]) then Some false
  else None.

Lemma Atoi_Itoa z : min_int <= z <= max_int -> Atoi (Itoa z) = Some z.
Proof.
  intros Hz.
  assert (Hp : option_map Z.of_int (NilZero.int_of_string (Itoa z)) = Some z).
  { unfold Itoa. rewrite NilZero.isi.
    - simpl. by rewrite DecimalZ.of_to.
    - destruct z as [|p|p]; simpl; try done.
      intros [=]. pose proof (DecimalPos.Unsigned.to_uint_nonnil p). done.
    - destruct z as [|p|p]; simpl; try done.
      intros [=]. pose proof (DecimalPos.Unsigned.to_uint_nonnil p). done. }
  assert (Hplus : forall r, Itoa z <> String "+" r).
  { intros r Hr. rewrite Hr in Hp.
    assert (Hnone : NilZero.int_of_string (String "+" r) = None).
    { destruct r as [|c r]; [done|]. simpl.
      by destruct (NilEmpty.uint_of_string r), c as [[] [] [] [] [] [] [] []]. }
    rewrite Hnone in Hp. done. }
  unfold Atoi. destruct (Itoa z) as [|c r] eqn:Hi; [done|].
  assert (c <> "+"%char) by (intros ->; by apply (Hplus r)).
  assert (Hrange : in_int64 z = true).
  { unfold in_int64. apply andb_true_iff. rewrite !Z.leb_le. lia. }
  destruct c as [[] [] [] [] [] [] [] []]; try (rewrite Hp; rewrite Hrange; done).
  congruence.
Qed.

Lemma ParseBool_FormatBool b : ParseBool (FormatBool b) = Some b.
Proof. by destruct b. Qed.

(** A concrete instance, on which witnesses are evaluated. *)
Definition ascii_unicode : Unicode :=
  Build_Unicode ToUpperASCII ToLowerASCII (fun _ _ => eq_refl) (fun _ _ => eq_refl).

(** ** [time.Time]: nanoseconds since the Unix epoch *)
Definition second : Z := 10 ^ 9.
Definition minute : Z := 60 * second.
Definition hour : Z := 60 * minute.
(** The zero [time.Time], 1 January of year 1. *)
Definition zero_time : Z := - 62135596800 * second.
Definition IsZero (t : Z) : bool := bool_decide (t = zero_time).
Definition Unix (t : Z) : Z := t / second.
Definition time_of_unix (s : Z) : Z := s * second.

(** [Time.Sub]: the difference saturates at the bounds of [time.Duration]. *)
Definition time_Sub (t u : Z) : Z := Z.max min_int (Z.min max_int (t - u)).

Lemma Unix_time_of_unix s : Unix (time_of_unix s) = s.
Proof. unfold Unix, time_of_unix. by rewrite Z.div_mul. Qed.

(** ** [net/netip] *)
Inductive Addr :=
  | V4 (ip : Z)                  (** 32-bit value *)
  | V6 (ip : Z) (zone : string). (** 128-bit value *)

#[export] Instance addr_eq_dec : EqDecision Addr.
Proof. solve_decision. Defined.

Definition Is4 (a : Addr) : bool := match a with V4 _ => true | V6 _ _ => false end.
Definition BitLen (a : Addr) : Z := if Is4 a then 32 else 128.

(** [parseIPv4Fields]: [acc] holds the octets already read, [val] the octet
    being read, [digLen] its number of digits and [pos] the octets before it. *)
Fixpoint ipv4_fields (s : string) (acc val : Z) (digLen pos : nat) : option Z :=
  match s with
  | EmptyString => if decide (pos < 3)%nat then None else Some (acc * 256 + val)
  | String c s' =>
      let b := byte_of c in
      if decide (48 <= b <= 57) then
        if decide (digLen = 1%nat /\ val = 0) then None
        else let val := val * 10 + (b - 48) in
             if decide (255 < val) then None
             else ipv4_fields s' acc val (S digLen) pos
      else if decide (b = 46) then
        if decide (digLen = O \/ s' = EmptyString) then None
        else if decide (pos = 3%nat) then None
        else ipv4_fields s' (acc * 256 + val) 0 O (S pos)
      else None
  end.

Definition hex_digit (c : ascii) : option Z :=
  let b := byte_of c in
  if decide (48 <= b <= 57) then Some (b - 48)
  else if decide (97 <= b <= 102) then Some (b - 97 + 10)
  else if decide (65 <= b <= 70) then Some (b - 65 + 10)
  else None.

(** Reads one hexadecimal group: its value, its digits and the rest of the
    string; [None] after a fifth digit. *)
Fixpoint hex_group (s : string) (acc : Z) (n : nat) : option (Z * nat * string) :=
  match s with
  | EmptyString => Some (acc, n, s)
  | String c s' =>
      match hex_digit c with
      | None => Some (acc, n, s)
      | Some d => if decide (3 < n)%nat then None else hex_group s' (acc * 16 + d) (S n)
      end
  end.

(** The group loop of [parseIPv6]: [groups] are the 16-bit groups read so far
    (reversed), [ell] the position of the [::].  At most eight rounds. *)
Fixpoint ipv6_groups (fuel : nat) (s : string) (groups : list Z) (ell : option nat)
  : option (list Z * option nat) :=
  match fuel with
  | O => if decide (s = EmptyString) then Some (rev groups, ell) else None
  | S fuel =>
      match hex_group s 0 0 with
      | None | Some (_, O, _) => None
      | Some (_, _, String "." _) =>
          if decide (ell = None /\ length groups <> 6%nat) then None
          else if decide (6 < length groups)%nat then None
          else match ipv4_fields s 0 0 0 0 with
               | None => None
               | Some v => Some (rev (v mod 65536 :: v / 65536 :: groups), ell)
               end
      | Some (acc, _, EmptyString) => Some (rev (acc :: groups), ell)
      | Some (acc, _, String ":" EmptyString) => None
      | Some (acc, _, String ":" (String ":" s')) =>
          if decide (ell <> None) then None
          else if decide (s' = EmptyString)
          then Some (rev (acc :: groups), Some (S (length groups)))
          else ipv6_groups fuel s' (acc :: groups) (Some (S (length groups)))
      | Some (acc, _, String ":" s') => ipv6_groups fuel s' (acc :: groups) ell
      | Some (_, _, _) => None
      end
  end.

Definition value_of_groups (l : list Z) : Z := foldl (fun acc g => acc * 65536 + g) 0 l.

Definition expand_groups (groups : list Z) (ell : option nat) : option Z :=
  match ell with
  | None => if decide (length groups = 8%nat) then Some (value_of_groups groups) else None
  | Some e =>
      if decide (length groups < 8)%nat then
        Some (value_of_groups (take e groups ++ replicate (8 - length groups) 0 ++ drop e groups))
      else None
  end.

Definition ipv6_value (s : string) : option Z :=
  let finish r := '(g, ell) ← r; expand_groups g ell in
  match s with
  | String ":" (String ":" EmptyString) => Some 0
  | String ":" (String ":" s') => finish (ipv6_groups 8 s' [] (Some O))
  | _ => finish (ipv6_groups 8 s [] None)
  end.

Definition parseIPv6 (s : string) : option Addr :=
  match Cut s "%" with
  | Some (s', zone) =>
      if decide (zone = EmptyString) then None
      else (fun ip => V6 ip zone) <$> ipv6_value s'
  | None => (fun ip => V6 ip EmptyString) <$> ipv6_value s
  end.

(** The first of ['.'], [':'], ['%'] decides the address family. *)
Fixpoint addr_family (s : string) : option ascii :=
  match s with
  | EmptyString => None
  | String c s => if decide (c = "." \/ c = ":" \/ c = "%")%char then Some c else addr_family s
  end.

Definition ParseAddr (s : string) : option Addr :=
  match addr_family s with
  | Some "."%char => V4 <$> ipv4_fields s 0 0 0 0
  | Some ":"%char => parseIPv6 s
  | _ => None
  end.

(** [Addr.Unmap], [Addr.WithZone("")] and, since Go 1.22.4 of the unmapped
    address, [Addr.IsLoopback]. *)
Definition Unmap (a : Addr) : Addr :=
  match a with
  | V6 ip _ => if decide (ip / 2 ^ 32 = 0xffff) then V4 (ip mod 2 ^ 32) else a
  | V4 _ => a
  end.
Definition WithoutZone (a : Addr) : Addr :=
  match a with V6 ip _ => V6 ip EmptyString | V4 _ => a end.
Definition IsLoopback (a : Addr) : bool :=
  match Unmap a with V4 ip => bool_decide (ip / 2 ^ 24 = 127) | V6 ip _ => bool_decide (ip = 1) end.

(** [Addr.String]: dotted decimal, or the groups in lower-case hexadecimal
    with the first longest run of two or more zero groups written [::]. *)
Definition ipv4_string (ip : Z) : string :=
  Join (map (fun k => Itoa (ip / 2 ^ k mod 256)) [24; 16; 8; 0]) ".".
Definition hex_char (d : Z) : ascii :=
  ascii_of_N (Z.to_N (if decide (d < 10) then 48 + d else 87 + d)).
(** [hex.EncodeToString], [%x]. *)
Fixpoint EncodeToHex (s : string) : string :=
  match s with
  | EmptyString => EmptyString
  | String c s => String (hex_char (byte_of c / 16)) (String (hex_char (byte_of c mod 16)) (EncodeToHex s))
  end.
Definition hex_string (g : Z) : string :=
  let ds := map (fun k => g / 2 ^ k mod 16) [12; 8; 4; 0] in
  let fix trim l := match l with 0 :: ((_ :: _) as l') => trim l' | _ => l end in
  foldr (fun d s => String (hex_char d) s) EmptyString (trim ds).
Fixpoint zero_prefix (l : list Z) : nat :=
  match l with 0 :: l => S (zero_prefix l) | _ => O end.
(** Start and length of the run chosen by [appendTo6]. *)
Fixpoint longest_zeros (i : nat) (l : list Z) (best : nat * nat) : nat * nat :=
  match l with
  | [] => best
  | _ :: l' =>
      let n := zero_prefix l in
      longest_zeros (S i) l' (if decide (2 <= n /\ best.2 < n)%nat then (i, n) else best)
  end.
Definition ipv6_string (ip : Z) : string :=
  let gs := map (fun k => ip / 2 ^ k mod 2 ^ 16) [112; 96; 80; 64; 48; 32; 16; 0] in
  let '(start, n) := longest_zeros 0 gs (O, O) in
  if decide (n = O) then Join (map hex_string gs) ":"
  else Join (map hex_string (take start gs)) ":" +:+ "::" +:+ Join (map hex_string (drop (start + n) gs)) ":".
Definition AddrString (a : Addr) : string :=
  match a with
  | V4 ip => ipv4_string ip
  | V6 ip zone =>
      (if decide (ip / 2 ^ 32 = 0xffff) then "::ffff:" +:+ ipv4_string (ip mod 2 ^ 32)
       else ipv6_string ip) +:+
      (if decide (zone = EmptyString) then EmptyString else "%" +:+ zone)
  end.

Example AddrString_ex :
  map (fun s => default EmptyString (AddrString <$> ParseAddr s)) ["10.8.0.1"; "2001:db8:0:0:1:0:0:0"; "::1"; "1:0:0:2::"; "::ffff:1.2.3.4%e"]
  = ["10.8.0.1"; "2001:db8:0:0:1::"; "::1"; "1:0:0:2::"; "::ffff:1.2.3.4%e"]%string.
Proof. vm_compute. reflexivity. Qed.

Record Prefix := MkPrefix { prefix_addr : Addr; prefix_bits : Z }.

#[export] Instance prefix_eq_dec : EqDecision Prefix.
Proof. solve_decision. Defined.

Definition ParsePrefix (s : string) : option Prefix :=
  match CutLast s "/" with
  | None => None
  | Some (ip, bits_str) =>
      match ParseAddr ip with
      | None => None
      | Some a =>
          let zoned := match a with V6 _ z => bool_decide (z <> EmptyString) | V4 _ => false end in
          let signed := match bits_str with
                        | String c (String _ _) => bool_decide (~ (49 <= byte_of c <= 57))
                        | _ => false
                        end in
          if zoned || signed then None
          else match Atoi bits_str with
               | None => None
               | Some bits => if decide (0 <= bits <= BitLen a) then Some (MkPrefix a bits)
                              else None
               end
      end
  end.

(** [Prefix.String] and [PrefixFrom(a, a.BitLen())], which drops the zone. *)
Definition PrefixString (p : Prefix) : string := AddrString (prefix_addr p) +:+ "/" +:+ Itoa (prefix_bits p).
Definition host_prefix (a : Addr) : Prefix := MkPrefix (WithoutZone a) (BitLen a).

(** [Prefix.Masked], [Prefix.Contains] (zones never match). *)
Definition mask_value (a : Addr) (bits ip : Z) : Z :=
  let n := 2 ^ (BitLen a - bits) in ip / n * n.

Definition Contains (p : Prefix) (a : Addr) : bool :=
  match prefix_addr p, a with
  | V4 ip, V4 x =>
      bool_decide (mask_value a (prefix_bits p) ip = mask_value a (prefix_bits p) x)
  | V6 ip _, V6 x z =>
      bool_decide (z = EmptyString) &&
      bool_decide (mask_value a (prefix_bits p) ip = mask_value a (prefix_bits p) x)
  | _, _ => false
  end.

(** [net.SplitHostPort] *)
Definition SplitHostPort (hostport : string) : option (string * string) :=
  '(before, port) ← CutLast hostport ":";
  match hostport with
  | String "[" rest =>
      '(host, after) ← Cut rest "]";
      if bool_decide (after = String ":" port) && negb (ContainsByte rest "[") && negb (ContainsByte after "]")
      then Some (host, port) else None
  | _ => if ContainsByte before ":" || ContainsByte hostport "[" || ContainsByte hostport "]" then None
         else Some (before, port)
  end.

Example SplitHostPort_ex :
  map SplitHostPort ["1.2.3.4:80"; "[::1]:80"; "::1:80"; "[::1]"; "1.2.3.4"]%string
  = [Some ("1.2.3.4", "80"); Some ("::1", "80"); None; None; None]%string.
Proof. vm_compute. reflexivity. Qed.

(** A parsed IPv4 address is a 32-bit value. *)
Lemma ipv4_fields_range s acc val digLen pos ip :
  0 <= val <= 255 -> (pos <= 3)%nat -> 0 <= acc < 256 ^ Z.of_nat pos ->
  ipv4_fields s acc val digLen pos = Some ip -> 0 <= ip < 2 ^ 32.
Proof.
  revert acc val digLen pos. induction s as [|c s IH]; intros acc val digLen pos Hv Hp Ha H.
  - simpl in H. case_decide; [done|]. simplify_eq.
    assert (pos = 3%nat) as -> by lia. change (256 ^ Z.of_nat 3) with 16777216 in Ha. lia.
  - simpl in H. repeat case_decide; try done.
    + apply IH in H; try done; lia.
    + apply IH in H; try done; try lia.
      rewrite Nat2Z.inj_succ, Z.pow_succ_r by lia.
      assert (0 < 256 ^ Z.of_nat pos) by (apply Z.pow_pos_nonneg; lia). nia.
Qed.

Lemma ParseAddr_V4_range s ip : ParseAddr s = Some (V4 ip) -> 0 <= ip < 2 ^ 32.
Proof.
  assert (H6 : parseIPv6 s <> Some (V4 ip)).
  { unfold parseIPv6. destruct (Cut s "%") as [[s' z]|]; [case_decide|];
      rewrite ?fmap_Some; naive_solver. }
  intros H. apply (ipv4_fields_range s 0 0 0 0); [lia|lia|simpl; lia|].
  unfold ParseAddr in H.
  destruct (addr_family s) as [[[] [] [] [] [] [] [] []]|]; try done.
  apply fmap_Some in H as (x & Hx & [= <-]). done.
Qed.

Example ParseAddr_ex1 : ParseAddr "10.8.0.1" = Some (V4 168296449).
Proof. reflexivity. Qed.
Example ParseAddr_ex2 : ParseAddr "10.08.0.1" = None /\ ParseAddr "1.2.3" = None.
Proof. split; reflexivity. Qed.
Example ParseAddr_ex3 : ParseAddr "2001:db8::1.2.3.4" = Some (V6 0x20010db8000000000000000001020304 "").
Proof. reflexivity. Qed.
Example ParsePrefix_ex1 : ParsePrefix "10.8.0.0/24" = Some (MkPrefix (V4 168296448) 24)
  /\ ParsePrefix "10.8.0.0/024" = None /\ ParsePrefix "10.8.0.0/33" = None.
Proof. repeat split; reflexivity. Qed.
Example TrimSpace_ex : TrimSpace ("  a b" +:+ byte_string [0xC2; 0xA0; 10]) = "a b"%string.
Proof. reflexivity. Qed.

(** ** [encoding/json.Valid]

    A recognizer for one JSON value surrounded by white space (the nesting
    limit of 10000 of the Go scanner is not modelled). *)
Module Json.
Definition is_ws (c : ascii) : bool := bool_decide (byte_of c ∈ [32; 9; 10; 13]).
Fixpoint skip_ws (s : string) : string :=
  match s with
  | String c s' => if is_ws c then skip_ws s' else s
  | EmptyString => s
  end.
Definition is_digit (c : ascii) : bool := bool_decide (48 <= byte_of c <= 57).
Fixpoint digits (s : string) : string :=
  match s with
  | String c s' => if is_digit c then digits s' else s
  | EmptyString => s
  end.
Definition digits1 (s : string) : option string :=
  match s with
  | String c s' => if is_digit c then Some (digits s') else None
  | EmptyString => None
  end.
Definition frac (s : string) : option string :=
  match s with String "." s' => digits1 s' | _ => Some s end.
Definition expo (s : string) : option string :=
  match s with
  | String "e" s' | String "E" s' =>
      match s' with
      | String "+" s'' | String "-" s'' => digits1 s''
      | _ => digits1 s'
      end
  | _ => Some s
  end.
Definition number (s : string) : option string :=
  r ← match s with
      | String "0" s' => Some s'
      | _ => digits1 s
      end;
  r ← frac r; expo r.
(** The rest of a string literal after its opening quote. *)
Fixpoint str_lit (s : string) : option string :=
  match s with
  | EmptyString => None
  | String c s' =>
      if decide (byte_of c = 34) then Some s'
      else if decide (byte_of c < 32) then None
      else if decide (byte_of c = 92) then
        match s' with
        | String "u" (String a (String b (String d (String e s'')))) =>
            if decide (hex_digit a <> None /\ hex_digit b <> None /\
                       hex_digit d <> None /\ hex_digit e <> None)
            then str_lit s'' else None
        | String e s'' =>
            if decide (byte_of e ∈ [34; 92; 47; 98; 102; 110; 114; 116])
            then str_lit s'' else None
        | EmptyString => None
        end
      else str_lit s'
  end.
Fixpoint value (fuel : nat) (s : string) : option string :=
  match fuel with
  | O => None
  | S f =>
      match skip_ws s with
      | String "{" s' =>
          match skip_ws s' with String "}" r => Some r | _ => members f s' end
      | String "[" s' =>
          match skip_ws s' with String "]" r => Some r | _ => elems f s' end
      | String "-" s' => number s'
      | String c s' =>
          if decide (byte_of c = 34) then str_lit s'
          else if is_digit c then number (String c s')
          else match strip_prefix "true" (String c s') with
               | Some r => Some r
               | None =>
                   match strip_prefix "false" (String c s') with
                   | Some r => Some r
                   | None => strip_prefix "null" (String c s')
                   end
               end
      | EmptyString => None
      end
  end
with members (fuel : nat) (s : string) : option string :=
  match fuel with
  | O => None
  | S f =>
      match skip_ws s with
      | String q s' =>
          if decide (byte_of q = 34) then
            r ← str_lit s';
            match skip_ws r with
            | String ":" r =>
                r ← value f r;
                match skip_ws r with
                | String "," r => members f r
                | String "}" r => Some r
                | _ => None
                end
            | _ => None
            end
          else None
      | EmptyString => None
      end
  end
with elems (fuel : nat) (s : string) : option string :=
  match fuel with
  | O => None
  | S f =>
      r ← value f s;
      match skip_ws r with
      | String "," r => elems f r
      | String "]" r => Some r
      | _ => None
      end
  end.
(** Two nested calls are made per byte at most. *)
Definition Valid (s : string) : bool :=
  match value (2 * String.length s + 2) s with
  | Some r => bool_decide (skip_ws r = EmptyString)
  | None => false
  end.
End Json.

Example json_ex1 : Json.Valid "{ }" = true /\ Json.Valid "[1, -2.5e+3, null]" = true.
Proof. split; reflexivity. Qed.
Example json_ex2 : Json.Valid "{,}" = false /\ Json.Valid "01" = false /\ Json.Valid "" = false.
Proof. repeat split; reflexivity. Qed.
