(* ===== verification/Netip.v ===== *)
(** * Addresses as text

    [netip.ParseAddr] reads back what [Addr.String] writes, for every address
    without a zone that is not an IPv4 address in IPv6 clothes: the guard of
    the public listeners keeps addresses as canonical text. *)

From Stdlib Require Import Ascii.
From S2P Require Import Prelude GoStd.
#[local] Open Scope Z_scope.

#[local] Arguments String.append : simpl nomatch.

(** The address is in range, has no zone and is not IPv4-mapped. *)
Definition plain_addr (a : Addr) : Prop :=
  match a with
  | V4 ip => 0 <= ip < 2 ^ 32
  | V6 ip zone => 0 <= ip < 2 ^ 128 /\ zone = EmptyString /\ ip / 2 ^ 32 <> 0xffff
  end.

Lemma append_nil s : s +:+ EmptyString = s.
Proof. induction s as [|c s IH]; [done|]. cbn. by rewrite IH. Qed.

Lemma char_append c s : String c EmptyString +:+ s = String c s.
Proof. done. Qed.

(** ** Octets *)
Fixpoint octet (s : string) (val : Z) (digLen : nat) : option (Z * nat) :=
  match s with
  | EmptyString => Some (val, digLen)
  | String c s =>
      let b := byte_of c in
      if decide (48 <= b <= 57) then
        if decide (digLen = 1%nat /\ val = 0) then None
        else let val := val * 10 + (b - 48) in if decide (255 < val) then None else octet s val (S digLen)
      else None
  end.

Lemma octet_step s val n v m rest acc pos :
  octet s val n = Some (v, m) -> ipv4_fields (s +:+ rest) acc val n pos = ipv4_fields rest acc v m pos.
Proof.
  revert val n. induction s as [|c s IH]; intros val n H; [by injection H as -> ->|].
  cbn [octet String.append ipv4_fields] in *. cbv zeta in *.
  destruct (decide (48 <= byte_of c <= 57)); [|done]. destruct (decide (n = 1%nat /\ val = 0)); [done|].
  destruct (decide (255 < _)); [done|]. by apply IH.
Qed.

Lemma Itoa_octet b : 0 <= b < 256 -> exists m, octet (Itoa b) 0 0 = Some (b, S m).
Proof.
  intros Hb.
  assert (Hall : forallb (fun b => match octet (Itoa b) 0 0 with Some (v, S _) => v =? b | _ => false end) (seqZ 0 256) = true)
    by (vm_compute; reflexivity).
  rewrite forallb_forall in Hall. specialize (Hall b). rewrite <- list_elem_of_In, elem_of_seqZ in Hall.
  specialize (Hall ltac:(lia)). destruct (octet _ _ _) as [[v [|m]]|]; [done| |done]. exists m. f_equal. f_equal. lia.
Qed.

Lemma ipv4_octet b rest acc pos : 0 <= b < 256 -> (pos < 3)%nat -> rest <> EmptyString ->
  ipv4_fields (Itoa b +:+ String "." rest) acc 0 0 pos = ipv4_fields rest (acc * 256 + b) 0 0 (S pos).
Proof.
  intros Hb Hp Hr. destruct (Itoa_octet b Hb) as [m Ho]. rewrite (octet_step _ _ _ _ _ _ _ _ Ho). cbn [ipv4_fields]. cbv zeta.
  change (byte_of ".") with 46. destruct (decide (48 <= 46 <= 57)); [lia|]. destruct (decide (46 = 46)); [|done].
  destruct (decide (S m = O \/ rest = EmptyString)) as [[|]|]; [done|done|]. destruct (decide (pos = 3%nat)); [lia|done].
Qed.

Lemma ipv4_last b acc : 0 <= b < 256 -> ipv4_fields (Itoa b) acc 0 0 3 = Some (acc * 256 + b).
Proof.
  intros Hb. destruct (Itoa_octet b Hb) as [m Ho]. pose proof (octet_step _ _ _ _ _ EmptyString acc 3%nat Ho) as H.
  rewrite append_nil in H. rewrite H. cbn [ipv4_fields]. destruct (decide (3 < 3)%nat); [lia|done].
Qed.

Lemma Itoa_octet_family b rest : 0 <= b < 256 -> addr_family (Itoa b +:+ String "." rest) = Some "."%char.
Proof.
  intros Hb. destruct (Itoa_octet b Hb) as [m Ho].
  assert (Hgen : forall s val n v m, octet s val n = Some (v, m) -> addr_family (s +:+ String "." rest) = Some "."%char).
  { clear. induction s as [|c s IH]; intros val n v m H; [done|]. cbn [octet String.append addr_family] in *. cbv zeta in H.
    destruct (decide (48 <= byte_of c <= 57)) as [Hc|]; [|done]. destruct (decide (n = 1%nat /\ val = 0)); [done|].
    destruct (decide (255 < _)); [done|]. destruct (decide (c = "." \/ c = ":" \/ c = "%")%char) as [Hd|]; [|by eapply IH].
    destruct Hd as [-> |[-> | ->]]; vm_compute in Hc; by destruct Hc. }
  by eapply Hgen.
Qed.

Lemma octets_value ip : 0 <= ip < 2 ^ 32 ->
  (((0 * 256 + ip / 2 ^ 24 mod 256) * 256 + ip / 2 ^ 16 mod 256) * 256 + ip / 2 ^ 8 mod 256) * 256 + ip / 2 ^ 0 mod 256 = ip.
Proof. intros H. Z.to_euclidean_division_equations. lia. Qed.

Lemma ParseAddr_String_V4 ip : 0 <= ip < 2 ^ 32 -> ParseAddr (ipv4_string ip) = Some (V4 ip).
Proof.
  intros H. unfold ipv4_string, ParseAddr. cbn [map Join].
  assert (Ho : forall k, 0 <= ip / 2 ^ k mod 256 < 256) by (intros; apply Z.mod_pos_bound; lia).
  rewrite !(char_append ".").
  rewrite Itoa_octet_family by apply Ho.
  assert (Hne : forall b r, Itoa b +:+ String "." r <> EmptyString) by (intros b r; by destruct (Itoa b)).
  assert (Hl : Itoa (ip / 2 ^ 0 mod 256) <> EmptyString).
  { destruct (Itoa_octet (ip / 2 ^ 0 mod 256) (Ho 0)) as [m Hm]. by destruct (Itoa _). }
  rewrite !ipv4_octet; [|first [apply Ho|lia|apply Hne|done]..].
  rewrite ipv4_last by apply Ho. cbn [fmap option_fmap option_map]. by rewrite octets_value.
Qed.

(** ** Hexadecimal groups *)
Lemma hex_digit_char d : 0 <= d < 16 -> hex_digit (hex_char d) = Some d.
Proof.
  intros Hd.
  assert (Hall : forallb (fun d => bool_decide (hex_digit (hex_char d) = Some d)) (seqZ 0 16) = true) by (vm_compute; reflexivity).
  rewrite forallb_forall in Hall. specialize (Hall d). rewrite <- list_elem_of_In, elem_of_seqZ in Hall.
  specialize (Hall ltac:(lia)). by apply bool_decide_eq_true_1 in Hall.
Qed.

(** A text that does not go on with a hexadecimal digit. *)
Definition ends_group (s : string) : Prop := match s with EmptyString => True | String c _ => hex_digit c = None end.

Lemma hex_group_end s acc n : ends_group s -> hex_group s acc n = Some (acc, n, s).
Proof. destruct s as [|c s]; [done|]. cbn. by intros ->. Qed.

Lemma hex_group_digit d s acc n : 0 <= d < 16 -> (n <= 3)%nat ->
  hex_group (String (hex_char d) s) acc n = hex_group s (acc * 16 + d) (S n).
Proof. intros Hd Hn. cbn [hex_group]. rewrite hex_digit_char by done. by destruct (decide (3 < n)%nat); [lia|]. Qed.

Lemma hex_string_shape g : 0 <= g < 2 ^ 16 ->
  exists d ds, hex_string g = String (hex_char d) (foldr (fun d s => String (hex_char d) s) EmptyString ds) /\
    (length ds <= 3)%nat /\ Forall (fun d => 0 <= d < 16) (d :: ds) /\ foldl (fun acc d => acc * 16 + d) 0 (d :: ds) = g.
Proof.
  intros Hg. unfold hex_string. cbn [map].
  assert (Hd : forall k, 0 <= g / 2 ^ k mod 16 < 16) by (intros; apply Z.mod_pos_bound; lia).
  assert (Hv : (((0 * 16 + g / 2 ^ 12 mod 16) * 16 + g / 2 ^ 8 mod 16) * 16 + g / 2 ^ 4 mod 16) * 16 + g / 2 ^ 0 mod 16 = g).
  { Z.to_euclidean_division_equations. lia. }
  pose proof (Hd 12) as H12. pose proof (Hd 8) as H8. pose proof (Hd 4) as H4. pose proof (Hd 0) as H0.
  set (a := g / 2 ^ 12 mod 16) in *. set (b := g / 2 ^ 8 mod 16) in *. set (c := g / 2 ^ 4 mod 16) in *. set (d := g / 2 ^ 0 mod 16) in *.
  clearbody a b c d. clear Hd Hg.
  assert (Hall : Forall (fun d => 0 <= d < 16) [a; b; c; d]) by (repeat constructor; lia).
  destruct a as [|a|a]; [|exists (Z.pos a), [b; c; d]; cbn [length foldl]; split; [done|]; repeat split; first [lia|done]|lia].
  destruct b as [|b|b]; [|exists (Z.pos b), [c; d]; cbn [length foldl]; split; [done|]; repeat split; first [lia|by apply Forall_cons in Hall as [_ Hall]|done]|lia].
  destruct c as [|c|c]; [|exists (Z.pos c), [d]; cbn [length foldl]; split; [done|]; repeat split; first [lia|repeat constructor; lia]|lia].
  exists d, []. cbn [length foldl]. split; [by destruct d|]. repeat split; first [lia|repeat constructor; lia].
Qed.

Lemma hex_group_string g rest : 0 <= g < 2 ^ 16 -> ends_group rest ->
  exists n, hex_group (hex_string g +:+ rest) 0 0 = Some (g, S n, rest).
Proof.
  intros Hg Hr. destruct (hex_string_shape g Hg) as (d & ds & -> & Hlen & Hall & Hv).
  apply Forall_cons in Hall as [Hd Hall]. exists (length ds).
  cbn [String.append]. rewrite hex_group_digit by (done || lia). cbn [foldl] in Hv.
  assert (Hgen : forall ds acc n, Forall (fun d => 0 <= d < 16) ds -> (length ds + n <= 4)%nat ->
    hex_group (foldr (fun d s => String (hex_char d) s) EmptyString ds +:+ rest) acc n =
    Some (foldl (fun acc d => acc * 16 + d) acc ds, (length ds + n)%nat, rest)).
  { clear - Hr. induction ds as [|d ds IH]; intros acc n Hall Hn; [by apply hex_group_end|].
    apply Forall_cons in Hall as [Hd Hall]. cbn [foldr String.append foldl length]. cbn [length] in Hn.
    rewrite hex_group_digit by (done || lia). rewrite IH by (done || lia). by rewrite Nat.add_succ_r. }
  rewrite (Hgen _ _ _ Hall) by lia. rewrite Hv. by rewrite Nat.add_1_r.
Qed.

Lemma hex_string_head g rest : 0 <= g < 2 ^ 16 -> exists c s, hex_string g +:+ rest = String c s /\ is_Some (hex_digit c).
Proof.
  intros Hg. destruct (hex_string_shape g Hg) as (d & ds & -> & _ & Hall & _). apply Forall_cons in Hall as [Hd _].
  eexists _, _. split; [reflexivity|]. rewrite hex_digit_char by done. by eexists.
Qed.

(** ** Groups between colons *)
Abbreviation groups gs := (Join (map hex_string gs) ":") (only parsing).
Abbreviation is_group := (fun g => 0 <= g < 2 ^ 16) (only parsing).

Lemma groups_cons g gs : gs <> [] -> groups (g :: gs) = hex_string g +:+ String ":" (groups gs).
Proof. destruct gs as [|h gs]; [done|]. intros _. cbn [map Join]. by rewrite (char_append ":"). Qed.

Lemma groups_head gs rest : gs <> [] -> Forall is_group gs -> exists c s, groups gs +:+ rest = String c s /\ is_Some (hex_digit c).
Proof.
  intros Hne Hall. destruct gs as [|g gs]; [done|]. apply Forall_cons in Hall as [Hg _].
  destruct gs as [|h gs]; [cbn [map Join]; by apply hex_string_head|]. rewrite groups_cons by done.
  destruct (hex_string_shape g Hg) as (d & ds & -> & _ & Hd & _). apply Forall_cons in Hd as [Hd _].
  eexists _, _. split; [reflexivity|]. rewrite hex_digit_char by done. by eexists.
Qed.

(** One round of the loop that reads a group followed by a single colon. *)
Lemma ipv6_groups_colon fuel g gs rest acc ell : 0 <= g < 2 ^ 16 -> gs <> [] -> Forall is_group gs ->
  ipv6_groups (S fuel) (hex_string g +:+ String ":" (groups gs +:+ rest)) acc ell = ipv6_groups fuel (groups gs +:+ rest) (g :: acc) ell.
Proof.
  intros Hg Hne Hall. cbn [ipv6_groups]. destruct (hex_group_string g (String ":" (groups gs +:+ rest)) Hg) as [n ->]; [done|].
  destruct (groups_head gs rest Hne Hall) as (c & s & -> & [v Hc]).
  destruct (decide (c = ":"%char)) as [->|Hcol]; [done|].
  destruct c as [[] [] [] [] [] [] [] []]; try done; by destruct Hcol.
Qed.

Lemma groups_read fuel gs acc ell : gs <> [] -> Forall is_group gs -> (length gs <= fuel)%nat ->
  ipv6_groups fuel (groups gs) acc ell = Some (rev acc ++ gs, ell).
Proof.
  revert fuel acc. induction gs as [|g gs IH]; intros fuel acc Hne Hall Hf; [done|].
  apply Forall_cons in Hall as [Hg Hall]. destruct fuel as [|fuel]; [simpl in Hf; lia|].
  destruct gs as [|h gs].
  - cbn [map Join ipv6_groups]. destruct (hex_group_string g EmptyString Hg I) as [n Hn]. rewrite append_nil in Hn. by rewrite Hn.
  - rewrite groups_cons by done. rewrite <- (append_nil (groups (h :: gs))). rewrite ipv6_groups_colon by done.
    rewrite append_nil, IH by (done || simpl in *; lia). cbn [rev]. by rewrite <- app_assoc.
Qed.

Lemma append_cons c a b : String c a +:+ b = String c (a +:+ b).
Proof. done. Qed.
Lemma append_inv_tail a b c : a +:+ c = b +:+ c -> a = b.
Proof.
  assert (Hlen : forall s, String.length (s +:+ c) = (String.length s + String.length c)%nat)
    by (induction s as [|x s IH]; [done|]; rewrite append_cons; cbn [String.length]; by rewrite IH).
  revert b. induction a as [|x a IH]; intros [|y b] E; [done|apply (f_equal String.length) in E; rewrite !Hlen in E; cbn in E; lia..|].
  rewrite !append_cons in E. injection E as -> E. f_equal. by apply IH.
Qed.
Lemma append_assoc a b c : (a +:+ b) +:+ c = a +:+ (b +:+ c).
Proof. induction a as [|x a IH]; [done|]. rewrite !append_cons. by rewrite IH. Qed.

Lemma groups_gap fuel gs1 gs2 acc : gs1 <> [] -> Forall is_group gs1 -> Forall is_group gs2 -> (length gs1 + length gs2 <= fuel)%nat ->
  ipv6_groups fuel (groups gs1 +:+ "::" +:+ groups gs2) acc None = Some (rev acc ++ gs1 ++ gs2, Some (length acc + length gs1)%nat).
Proof.
  revert fuel acc. induction gs1 as [|g gs1 IH]; intros fuel acc Hne Hall Hall2 Hf; [done|].
  apply Forall_cons in Hall as [Hg Hall]. destruct fuel as [|fuel]; [simpl in Hf; lia|].
  destruct gs1 as [|h gs1].
  - cbn [map Join ipv6_groups]. destruct (hex_group_string g ("::" +:+ groups gs2) Hg) as [n ->]; [done|].
    rewrite append_cons, char_append. cbn [rev length]. rewrite decide_False by naive_solver.
    destruct gs2 as [|h gs2].
    + cbn [map Join]. rewrite decide_True by done. rewrite app_nil_r. by rewrite Nat.add_1_r.
    + rewrite decide_False. 2:{ destruct (groups_head (h :: gs2) EmptyString) as (c & s & Hs & _); [done|done|].
        rewrite append_nil in Hs. by rewrite Hs. }
      rewrite groups_read by (done || simpl in *; lia). cbn [rev]. rewrite <- app_assoc. by rewrite Nat.add_1_r.
  - rewrite groups_cons by done. rewrite append_assoc, append_cons. rewrite ipv6_groups_colon by done.
    rewrite IH; [|done|done|done|simpl in *; lia]. cbn [rev]. rewrite <- app_assoc.
    by replace (length (g :: acc) + length (h :: gs1))%nat with (length acc + length (g :: h :: gs1))%nat by (simpl; lia).
Qed.

(** ** The run of zeros that is left out *)
Lemma zero_prefix_replicate l : take (zero_prefix l) l = replicate (zero_prefix l) 0 /\ (zero_prefix l <= length l)%nat.
Proof.
  induction l as [|x l IH]; [done|]. destruct x; cbn [zero_prefix take replicate length]; [destruct IH as [-> ?]|..]; split; first [done|lia].
Qed.

(** The chosen run is made of zeros and has at least two of them, or is empty. *)
Definition zero_run (gs : list Z) (b : nat * nat) : Prop :=
  b.2 = O \/ (2 <= b.2)%nat /\ (b.1 + b.2 <= length gs)%nat /\ take b.2 (drop b.1 gs) = replicate b.2 0.

Lemma longest_zeros_run gs i l best : drop i gs = l -> zero_run gs best -> zero_run gs (longest_zeros i l best).
Proof.
  revert i best. induction l as [|x l IH]; intros i best Hd Hb; [done|].
  cbn [longest_zeros]. apply IH.
  - rewrite <- Nat.add_1_r, <- drop_drop, Hd. done.
  - destruct (decide _) as [[Hn _]|]; [|done]. right. cbn [fst snd].
    destruct (zero_prefix_replicate (x :: l)) as [Ht Hl]. rewrite Hd. repeat split; [done| |done].
    rewrite <- Hd in Hl at 2. rewrite length_drop in Hl. lia.
Qed.

Lemma zero_run_split gs start n : zero_run gs (start, n) -> n <> O ->
  take start gs ++ replicate n 0 ++ drop (start + n) gs = gs /\ (2 <= n)%nat /\ (start + n <= length gs)%nat.
Proof.
  intros [Hz|(H2 & Hl & Ht)] Hn; [done|]. cbn [fst snd] in *. split; [|done].
  rewrite <- Ht, <- drop_drop, (take_drop n (drop start gs)). apply take_drop.
Qed.

Definition groups_of (ip : Z) : list Z := map (fun k => ip / 2 ^ k mod 2 ^ 16) [112; 96; 80; 64; 48; 32; 16; 0].

Lemma groups_of_value ip : 0 <= ip < 2 ^ 128 -> value_of_groups (groups_of ip) = ip.
Proof. intros H. unfold value_of_groups, groups_of. cbn [map foldl]. Z.to_euclidean_division_equations. lia. Qed.

Lemma groups_of_ok ip : Forall is_group (groups_of ip).
Proof. apply Forall_forall. intros g Hg. unfold groups_of in Hg. apply list_elem_of_fmap in Hg as (k & -> & _). apply Z.mod_pos_bound. lia. Qed.

(** The text starts with a group, so it is not one of the special cases. *)
Lemma ipv6_value_group s c r : s = String c r -> is_Some (hex_digit c) ->
  ipv6_value s = ('(g, ell) ← ipv6_groups 8 s [] None; expand_groups g ell).
Proof. intros -> [v Hv]. destruct c as [[] [] [] [] [] [] [] []]; done. Qed.

Lemma ipv6_value_gap gs2 : Forall is_group gs2 -> (length gs2 < 8)%nat ->
  ipv6_value ("::" +:+ groups gs2) = Some (value_of_groups (replicate (8 - length gs2) 0 ++ gs2)).
Proof.
  intros Hall Hl. destruct gs2 as [|g gs2]; [done|].
  destruct (groups_head (g :: gs2) EmptyString) as (c & s & Hs & Hc); [done|done|]. rewrite append_nil in Hs.
  unfold ipv6_value. rewrite append_cons, char_append, Hs, <- Hs. rewrite groups_read by (done || lia). cbn [mbind option_bind rev app].
  unfold expand_groups. by rewrite decide_True by lia.
Qed.

Lemma ipv6_value_string ip : 0 <= ip < 2 ^ 128 -> ipv6_value (ipv6_string ip) = Some ip.
Proof.
  intros Hip. unfold ipv6_string. fold (groups_of ip).
  pose proof (groups_of_ok ip) as Hall. pose proof (groups_of_value ip Hip) as Hv.
  assert (Hlen : length (groups_of ip) = 8%nat) by done.
  pose proof (longest_zeros_run (groups_of ip) 0 (groups_of ip) (O, O) eq_refl (or_introl eq_refl)) as Hrun.
  set (gs := groups_of ip) in *. clearbody gs. destruct (longest_zeros 0 gs (O, O)) as [start n].
  assert (Hval : forall gs1 gs2, gs1 <> [] -> Forall is_group gs1 -> groups gs1 +:+ gs2 <> EmptyString) by
    (intros gs1 gs2 Hn Ha; destruct (groups_head gs1 gs2 Hn Ha) as (? & ? & -> & _); done).
  destruct (decide (n = O)) as [->|Hn].
  - assert (Hne : gs <> []) by (intros ->; done).
    destruct (groups_head gs EmptyString Hne Hall) as (c & s & Hs & Hc). rewrite append_nil in Hs.
    rewrite (ipv6_value_group _ _ _ Hs Hc), groups_read by (done || lia).
    cbn [mbind option_bind rev app]. unfold expand_groups. rewrite decide_True by done. by rewrite Hv.
  - destruct (zero_run_split gs start n Hrun Hn) as (Hsplit & H2 & Hle).
    assert (H1 : Forall is_group (take start gs)) by (by apply Forall_take).
    assert (H3 : Forall is_group (drop (start + n) gs)) by (by apply Forall_drop).
    destruct (decide (take start gs = [])) as [E|Hne].
    + rewrite E. rewrite E in Hsplit. cbn [map Join app] in *. change (EmptyString +:+ ?x) with x.
      assert (start = O) as -> by (destruct start; [done|]; by destruct gs).
      rewrite ipv6_value_gap by (done || rewrite length_drop; lia). rewrite length_drop.
      replace (8 - (length gs - (0 + n)))%nat with n by lia. by rewrite Hsplit, Hv.
    + destruct (groups_head (take start gs) ("::" +:+ groups (drop (start + n) gs)) Hne H1) as (c & s & Hs & Hc).
      rewrite (ipv6_value_group _ _ _ Hs Hc). rewrite groups_gap; [|done|done|done|rewrite length_take, length_drop; lia].
      cbn [mbind option_bind rev app length Nat.add]. unfold expand_groups. rewrite !length_app, !length_take, !length_drop.
      rewrite decide_True by lia. replace (start `min` length gs)%nat with start by lia.
      replace (8 - (start + (length gs - (start + n))))%nat with n by lia.
      rewrite take_app_length', drop_app_length' by (rewrite length_take; lia). by rewrite Hsplit, Hv.
Qed.

(** The text of an address has no percent sign and its first mark is a colon. *)
Definition hex_or_colon (c : ascii) : Prop := c = ":"%char \/ is_Some (hex_digit c).

Fixpoint all_ascii (P : ascii -> Prop) (s : string) : Prop :=
  match s with EmptyString => True | String c s => P c /\ all_ascii P s end.
Lemma all_ascii_app P a b : all_ascii P a -> all_ascii P b -> all_ascii P (a +:+ b).
Proof. induction a as [|c a IH]; [done|]. cbn. intros [? ?] ?. split; auto. Qed.

Lemma hex_string_all g : 0 <= g < 2 ^ 16 -> all_ascii hex_or_colon (hex_string g).
Proof.
  intros Hg. destruct (hex_string_shape g Hg) as (d & ds & -> & _ & Hall & _).
  change (all_ascii hex_or_colon (foldr (fun d s => String (hex_char d) s) EmptyString (d :: ds))).
  induction Hall as [|x l Hx Hl IH]; [done|]. split; [|done]. right. rewrite hex_digit_char by done. by eexists.
Qed.

Lemma groups_all gs : Forall is_group gs -> all_ascii hex_or_colon (groups gs).
Proof.
  induction gs as [|g gs IH]; intros Hall; [done|]. apply Forall_cons in Hall as [Hg Hall].
  destruct gs as [|h gs]; [by apply hex_string_all|]. rewrite groups_cons by done.
  apply all_ascii_app; [by apply hex_string_all|]. split; [by left|by apply IH].
Qed.

Lemma ipv6_string_all ip : all_ascii hex_or_colon (ipv6_string ip).
Proof.
  pose proof (groups_of_ok ip) as Hall. unfold ipv6_string. fold (groups_of ip). destruct (longest_zeros _ _ _) as [start n].
  destruct (decide _); [by apply groups_all|]. apply all_ascii_app; [by apply groups_all, Forall_take|].
  split; [by left|]. split; [by left|]. by apply groups_all, Forall_drop.
Qed.

Lemma no_percent s : all_ascii hex_or_colon s -> Cut s "%" = None.
Proof.
  induction s as [|c s IH]; [done|]. intros [Hc Hs]. cbn [Cut]. rewrite decide_False, IH by
    (done || (intros ->; destruct Hc as [|[v Hv]]; done)). done.
Qed.

Lemma family_colon s : all_ascii hex_or_colon s -> ContainsByte s ":" = true -> addr_family s = Some ":"%char.
Proof.
  unfold ContainsByte. induction s as [|c s IH]; [done|]. intros [Hc Hs] H. cbn [addr_family Cut] in *.
  destruct (decide (c = ":"%char)) as [->|Hne]; [done|]. rewrite decide_False.
  - apply IH; [done|]. by destruct (Cut s ":") as [[]|].
  - destruct Hc as [|[v Hv]]; [done|]. intros [-> |[-> | ->]]; done.
Qed.

Lemma contains_app s t c : ContainsByte t c = true -> ContainsByte (s +:+ t) c = true.
Proof.
  unfold ContainsByte. intros H. induction s as [|x s IH]; [done|]. cbn [Cut String.append].
  destruct (decide (x = c)); [done|]. by destruct (Cut (s +:+ t) c) as [[]|].
Qed.

Lemma ipv6_string_colon ip : ContainsByte (ipv6_string ip) ":" = true.
Proof.
  unfold ipv6_string. cbv zeta. fold (groups_of ip). destruct (longest_zeros _ _ _) as [start n].
  destruct (decide _); [|by apply contains_app].
  unfold groups_of. cbn [map Join]. apply contains_app. by rewrite (char_append ":").
Qed.

Lemma parse_print a : plain_addr a -> ParseAddr (AddrString a) = Some a.
Proof.
  destruct a as [ip|ip z]; cbn [plain_addr AddrString]; [apply ParseAddr_String_V4|].
  intros (Hip & -> & Hm). rewrite decide_False by done. rewrite decide_True by done. rewrite append_nil.
  unfold ParseAddr. rewrite (family_colon _ (ipv6_string_all ip) (ipv6_string_colon ip)).
  unfold parseIPv6. rewrite (no_percent _ (ipv6_string_all ip)). by rewrite ipv6_value_string.
Qed.

Lemma AddrString_inj a b : plain_addr a -> plain_addr b -> AddrString a = AddrString b -> a = b.
Proof. intros Ha Hb E. apply parse_print in Ha, Hb. congruence. Qed.

(** ** What is read is in range *)
Lemma hex_digit_range c d : hex_digit c = Some d -> 0 <= d < 16.
Proof. unfold hex_digit. cbv zeta. repeat case_decide; intros [= <-]; lia. Qed.

Lemma hex_group_range s acc n v m rest :
  hex_group s acc n = Some (v, m, rest) -> (n <= 4)%nat -> 0 <= acc < 16 ^ Z.of_nat n -> 0 <= v < 2 ^ 16.
Proof.
  revert acc n. induction s as [|c s IH]; intros acc n H Hn Ha; cbn [hex_group] in H.
  - injection H as <- _ _. assert (16 ^ Z.of_nat n <= 16 ^ 4) by (apply Z.pow_le_mono_r; lia). lia.
  - destruct (hex_digit c) as [d|] eqn:Hd.
    + destruct (decide (3 < n)%nat); [done|]. apply hex_digit_range in Hd. apply (IH _ _ H); [lia|].
      rewrite Nat2Z.inj_succ, Z.pow_succ_r by lia. nia.
    + injection H as <- _ _. assert (16 ^ Z.of_nat n <= 16 ^ 4) by (apply Z.pow_le_mono_r; lia). lia.
Qed.

Lemma Forall_rev' {A} (P : A -> Prop) l : Forall P l -> Forall P (rev l).
Proof. intros H. induction H; cbn; [done|]. apply Forall_app. split; [done|by constructor]. Qed.

Lemma ipv6_groups_range fuel s acc ell gs e :
  ipv6_groups fuel s acc ell = Some (gs, e) -> Forall is_group acc -> Forall is_group gs.
Proof.
  revert s acc ell. induction fuel as [|fuel IH]; intros s acc ell H Ha; cbn [ipv6_groups] in H.
  { case_decide; [|done]. injection H as <- _. by apply Forall_rev'. }
  destruct (hex_group s 0 0) as [[[v m] rest]|] eqn:Hg; [|done]. destruct m as [|m]; [done|].
  pose proof (hex_group_range _ _ _ _ _ _ Hg ltac:(lia) ltac:(simpl; lia)) as Hv.
  assert (Hrev : forall k, Some (rev (v :: acc), k) = Some (gs, e) -> Forall is_group gs).
  { intros k E. injection E as <- _. apply (Forall_rev' is_group (v :: acc)). by constructor. }
  assert (Hrec : forall t k, ipv6_groups fuel t (v :: acc) k = Some (gs, e) -> Forall is_group gs).
  { intros t k Ht. apply (IH _ _ _ Ht). by constructor. }
  destruct rest as [|c rest]; [by apply Hrev in H|].
  assert (Hdot : (if decide (ell = None /\ length acc <> 6%nat) then None else if decide (6 < length acc)%nat then None
     else match ipv4_fields s 0 0 0 0 with
          | None => None | Some v => Some (rev (v mod 65536 :: v / 65536 :: acc), ell) end) = Some (gs, e) -> Forall is_group gs).
  { destruct (decide _); [done|]. destruct (decide _); [done|]. destruct (ipv4_fields _ _ _ _ _) as [w|] eqn:Hw; [|done].
    intros [= <- _]. apply (ipv4_fields_range _ 0 0 0 0) in Hw; [|lia|lia|simpl; lia].
    apply (Forall_rev' is_group (w mod 65536 :: w / 65536 :: acc)). repeat constructor; try done; Z.to_euclidean_division_equations; lia. }
  destruct c as [[] [] [] [] [] [] [] []]; try done; try (by apply Hdot in H).
  destruct rest as [|d rest]; [done|].
  destruct d as [[] [] [] [] [] [] [] []]; try (by apply Hrec in H).
  destruct (decide (ell <> None)); [done|]. destruct (decide (rest = EmptyString)); [by apply Hrev in H|by apply Hrec in H].
Qed.

Lemma value_of_groups_range gs : Forall is_group gs -> 0 <= value_of_groups gs < 2 ^ (16 * Z.of_nat (length gs)).
Proof.
  unfold value_of_groups. induction gs as [|g gs IH] using rev_ind; [simpl; lia|].
  intros [Hall [Hg _]%Forall_cons]%Forall_app. rewrite foldl_app, length_app. cbn [foldl length].
  replace (16 * Z.of_nat (length gs + 1)) with (16 + 16 * Z.of_nat (length gs)) by lia. rewrite Z.pow_add_r by lia.
  specialize (IH Hall). nia.
Qed.

Lemma ipv6_value_range s v : ipv6_value s = Some v -> 0 <= v < 2 ^ 128.
Proof.
  assert (Hfin : forall r, (forall gs e, r = Some (gs, e) -> Forall is_group gs) ->
    ('(g, ell) ← r; expand_groups g ell) = Some v -> 0 <= v < 2 ^ 128).
  { intros [[gs e]|] Hr; [|done]. cbn [mbind option_bind]. specialize (Hr gs e eq_refl). unfold expand_groups.
    destruct e as [e|]; destruct (decide _) as [Hl|]; try done; intros [= <-].
    - replace 128 with (16 * Z.of_nat (length (take e gs ++ replicate (8 - length gs) 0 ++ drop e gs))).
      + apply value_of_groups_range. apply Forall_app. split; [by apply Forall_take|].
        apply Forall_app. split; [apply Forall_replicate; lia|by apply Forall_drop].
      + rewrite !length_app, length_replicate, length_take, length_drop. lia.
    - replace 128 with (16 * Z.of_nat (length gs)) by (rewrite Hl; lia). by apply value_of_groups_range. }
  assert (Hall : forall t k gs e, ipv6_groups 8 t [] k = Some (gs, e) -> Forall is_group gs)
    by (intros; by eapply ipv6_groups_range).
  destruct (strip_prefix "::" s) as [t|] eqn:Hs.
  - assert (s = String ":" (String ":" t)) as ->.
    { destruct s as [|c [|d s]]; cbn [strip_prefix] in Hs; repeat case_decide; by simplify_eq. }
    destruct t as [|c t]; [intros [= <-]; lia|]. exact (Hfin _ (Hall (String c t) (Some O))).
  - assert (ipv6_value s = ('(g, ell) ← ipv6_groups 8 s [] None; expand_groups g ell)) as ->; [|exact (Hfin _ (Hall s None))].
    destruct s as [|c s]; [reflexivity|]. destruct (decide (c = ":"%char)) as [->|Hc].
    + destruct s as [|d s]; [reflexivity|]. destruct (decide (d = ":"%char)) as [->|Hd]; [done|].
      destruct d as [[] [] [] [] [] [] [] []]; try reflexivity; by destruct Hd.
    + destruct c as [[] [] [] [] [] [] [] []]; try reflexivity; by destruct Hc.
Qed.

Lemma ParseAddr_V6_range s ip z : ParseAddr s = Some (V6 ip z) -> 0 <= ip < 2 ^ 128.
Proof.
  unfold ParseAddr. destruct (addr_family s) as [c|]; [|done].
  assert (Hp : parseIPv6 s = Some (V6 ip z) -> 0 <= ip < 2 ^ 128).
  { unfold parseIPv6. destruct (Cut s "%") as [[s' zone]|]; [case_decide; [done|]|];
      intros (v & Hv & [= <- _])%fmap_Some; by eapply ipv6_value_range. }
  destruct c as [[] [] [] [] [] [] [] []]; try done. by intros (v & _ & [=])%fmap_Some.
Qed.

(** What [Unmap] leaves of an address without a zone has a canonical text. *)
Lemma Unmap_plain s a : ParseAddr s = Some a -> match a with V6 _ z => z = EmptyString | V4 _ => True end -> plain_addr (Unmap a).
Proof.
  destruct a as [ip|ip z]; intros H Hz; [by apply ParseAddr_V4_range in H|]. subst z. apply ParseAddr_V6_range in H. cbn [Unmap].
  destruct (decide _) as [|Hm]; [cbn; apply Z.mod_pos_bound; lia|done].
Qed.

Lemma plain_Unmap a : plain_addr a -> Unmap a = a.
Proof. destruct a as [ip|ip z]; [done|]. intros (_ & _ & Hm). cbn. by rewrite decide_False. Qed.
