(* ===== verification/Model.v ===== *)
(** * The data model: [internal/store/model.go]

    The records of the store, field by field, and their [validate] methods.
    Go's string-typed enums ([TunnelType], [TunnelSource], [RuleAction],
    [PeerScope]) stay strings: a value outside the constants is possible and
    is exactly what [validate] rejects.  A nil and an empty slice are the same
    list: the code tests lengths only.  Times are Unix nanoseconds. *)

From S2P Require Import Prelude GoStd.

(** ** Enumerations *)
Abbreviation TunnelType := string (only parsing).
Definition TunnelWireGuard : TunnelType := "wireguard".
Definition TunnelVLESS : TunnelType := "vless".
Definition TunnelShadowsocks : TunnelType := "shadowsocks".
Definition TunnelTrojan : TunnelType := "trojan".
Definition TunnelHysteria2 : TunnelType := "hysteria2".
Definition TunnelSOCKS : TunnelType := "socks".
Definition TunnelRaw : TunnelType := "raw".

Abbreviation TunnelSource := string (only parsing).
Definition SourceURL : TunnelSource := "url".
Definition SourceWGConf : TunnelSource := "wg_conf".
Definition SourceJSON : TunnelSource := "json".
Definition SourcePool : TunnelSource := "pool".
Definition SourceWARP : TunnelSource := "warp".

Abbreviation RuleAction := string (only parsing).
Definition ActionTunnel : RuleAction := "tunnel".
Definition ActionDirect : RuleAction := "direct".
Definition ActionBlock : RuleAction := "block".
Definition RuleActions : list RuleAction := [ActionTunnel; ActionDirect; ActionBlock].

Abbreviation PeerScope := string (only parsing).
Definition ScopeAll : PeerScope := "all".
Definition ScopeSelected : PeerScope := "selected".

(** ** Records *)
Record PoolServer := MkPoolServer {
  ps_url : string;
  ps_country : string;
  ps_title : string;
  ps_ping_ms : Z;
  ps_misses : Z
}.

#[export] Instance PoolServer_eq_dec : EqDecision PoolServer.
Proof. solve_decision. Defined.

Record Tunnel := MkTunnel {
  t_id : string;
  t_name : string;
  t_type : TunnelType;
  t_source : TunnelSource;
  t_raw : string;
  t_parsed : string;            (** [json.RawMessage] *)
  t_enabled : bool;
  t_created : Z;
  t_pool : list PoolServer;
  t_pool_updated : Z;
  t_builtin : bool;
  t_country : string
}.

#[export] Instance Tunnel_eq_dec : EqDecision Tunnel.
Proof. solve_decision. Defined.

(** The empty string stands for "no tunnel" in [r_tunnel] and [r_via], as in
    the Go struct; in the table it is NULL. *)
Record Rule := MkRule {
  r_id : string;
  r_name : string;
  r_action : RuleAction;
  r_tunnel : string;
  r_via : string;
  r_priority : Z;
  r_enabled : bool;
  r_community : list string;
  r_domains : list string;
  r_subnets : list string;
  r_remote : list string;
  r_scope : PeerScope;
  r_peers : list string;
  r_real_ip : bool
}.

#[export] Instance Rule_eq_dec : EqDecision Rule.
Proof. solve_decision. Defined.

Record Peer := MkPeer {
  p_wg_disabled : bool;
  p_reality : bool;
  p_cred_id : string;
  p_revision : Z;
  p_egress : option string;      (** [EgressTunnelID *string] *)
  p_id : string;
  p_name : string;
  p_public : string;
  p_private : string;
  p_psk : string;
  p_address : string;
  p_enabled : bool;
  p_created : Z
}.

#[export] Instance Peer_eq_dec : EqDecision Peer.
Proof. solve_decision. Defined.

Record RealityAdmission := MkAdmission {
  ra_peer : string;
  ra_cred : string;
  ra_revision : Z
}.

#[export] Instance RealityAdmission_eq_dec : EqDecision RealityAdmission.
Proof. solve_decision. Defined.

(** ** Field updates used by the handlers *)
Definition rule_set_priority (n : Z) (r : Rule) : Rule :=
  MkRule r.(r_id) r.(r_name) r.(r_action) r.(r_tunnel) r.(r_via) n r.(r_enabled)
    r.(r_community) r.(r_domains) r.(r_subnets) r.(r_remote) r.(r_scope) r.(r_peers) r.(r_real_ip).

Definition rule_set_peers (ids : list string) (enabled : bool) (r : Rule) : Rule :=
  MkRule r.(r_id) r.(r_name) r.(r_action) r.(r_tunnel) r.(r_via) r.(r_priority) enabled
    r.(r_community) r.(r_domains) r.(r_subnets) r.(r_remote) r.(r_scope) ids r.(r_real_ip).

Definition rule_set_links (tunnel via : string) (enabled : bool) (r : Rule) : Rule :=
  MkRule r.(r_id) r.(r_name) r.(r_action) tunnel via r.(r_priority) enabled
    r.(r_community) r.(r_domains) r.(r_subnets) r.(r_remote) r.(r_scope) r.(r_peers) r.(r_real_ip).

Definition rule_set_id (id : string) (r : Rule) : Rule :=
  MkRule id r.(r_name) r.(r_action) r.(r_tunnel) r.(r_via) r.(r_priority) r.(r_enabled)
    r.(r_community) r.(r_domains) r.(r_subnets) r.(r_remote) r.(r_scope) r.(r_peers) r.(r_real_ip).

(** ** [Tunnel.validate] *)
Definition tunnel_types : list TunnelType :=
  [TunnelWireGuard; TunnelVLESS; TunnelShadowsocks; TunnelTrojan; TunnelHysteria2;
   TunnelSOCKS; TunnelRaw].

Definition tunnel_validate_source (t : Tunnel) : result unit :=
  if decide (t.(t_source) = SourcePool) then
    _ ← guard_err (bool_decide (t.(t_type) ∈ [TunnelWireGuard; TunnelRaw; EmptyString]))
          ErrInvalid "pool: type";
    _ ← guard_err (bool_decide (t.(t_parsed) <> EmptyString)) ErrInvalid "pool: own config";
    guard_err (bool_decide (Exists (fun s => s.(ps_url) = EmptyString) t.(t_pool)))
      ErrInvalid "pool: empty link"
  else if decide (t.(t_source) = SourceWARP) then
    _ ← guard_err (bool_decide (t.(t_type) <> TunnelWireGuard)) ErrInvalid "warp: type";
    guard_err (bool_decide (t.(t_pool) <> [])) ErrInvalid "not a pool"
  else if decide (t.(t_source) ∈ [SourceURL; SourceWGConf; SourceJSON]) then
    guard_err (bool_decide (t.(t_pool) <> [])) ErrInvalid "not a pool"
  else fail ErrInvalid "unknown source".

Definition tunnel_validate (t : Tunnel) : result unit :=
  _ ← guard_err (bool_decide (t.(t_name) = EmptyString)) ErrInvalid "tunnel: empty name";
  _ ← guard_err (bool_decide (t.(t_type) ∉ tunnel_types)) ErrInvalid "unknown tunnel type";
  _ ← tunnel_validate_source t;
  _ ← guard_err (t.(t_builtin) && bool_decide (t.(t_source) <> SourcePool))
        ErrInvalid "builtin: not a pool";
  _ ← guard_err (bool_decide (t.(t_country) <> EmptyString) && bool_decide (t.(t_source) <> SourcePool))
        ErrInvalid "country: not a pool";
  _ ← guard_err (bool_decide (t.(t_raw) = EmptyString)) ErrInvalid "tunnel: empty config";
  guard_err (bool_decide (t.(t_parsed) <> EmptyString) && negb (Json.Valid t.(t_parsed)))
    ErrInvalid "parsed: not JSON".

(** ** [Rule.validate] *)
Definition rule_matchers_empty (r : Rule) : bool :=
  bool_decide (r.(r_community) = []) && bool_decide (r.(r_remote) = []) &&
  bool_decide (r.(r_domains) = []) && bool_decide (r.(r_subnets) = []).

Definition rule_validate_tunnel (r : Rule) : result unit :=
  if decide (r.(r_action) = ActionTunnel) then
    guard_err (bool_decide (r.(r_tunnel) = EmptyString)) ErrInvalid "tunnel action without tunnel"
  else if decide (r.(r_action) = ActionDirect \/ r.(r_action) = ActionBlock) then
    guard_err (bool_decide (r.(r_tunnel) <> EmptyString)) ErrInvalid "action cannot name a tunnel"
  else Ok tt.

Definition rule_validate_scope (r : Rule) : result unit :=
  if decide (r.(r_scope) = ScopeAll) then
    guard_err (bool_decide (r.(r_peers) <> [])) ErrInvalid "scope all with peers"
  else if decide (r.(r_scope) = ScopeSelected) then
    guard_err (bool_decide (r.(r_peers) = []) && r.(r_enabled)) ErrInvalid "selected without peers"
  else fail ErrInvalid "unknown scope".

Definition rule_validate (r : Rule) : result unit :=
  _ ← guard_err (bool_decide (r.(r_name) = EmptyString)) ErrInvalid "rule: empty name";
  _ ← guard_err (bool_decide (r.(r_action) ∉ RuleActions)) ErrInvalid "unknown action";
  _ ← rule_validate_tunnel r;
  _ ← guard_err (r.(r_real_ip) && bool_decide (r.(r_action) = ActionTunnel) &&
                 bool_decide (r.(r_subnets) = []) && bool_decide (r.(r_remote) = []) &&
                 bool_decide (r.(r_community) = [])) ErrInvalid "real ip without subnets";
  _ ← guard_err (rule_matchers_empty r) ErrInvalid "no matcher";
  _ ← guard_err (bool_decide (r.(r_via) <> EmptyString) && bool_decide (r.(r_action) <> ActionTunnel))
        ErrInvalid "via without tunnel action";
  rule_validate_scope r.

(** ** [Peer.validate] *)
Definition peer_validate (p : Peer) : result unit :=
  _ ← guard_err (p.(p_enabled) && p.(p_wg_disabled) && negb p.(p_reality))
        ErrInvalid "no connection method";
  _ ← guard_err (bool_decide (p.(p_name) = EmptyString)) ErrInvalid "peer: empty name";
  _ ← guard_err (bool_decide (p.(p_public) = EmptyString) || bool_decide (p.(p_private) = EmptyString)
                 || bool_decide (p.(p_psk) = EmptyString)) ErrInvalid "peer: missing key";
  guard_err (bool_decide (p.(p_address) = EmptyString)) ErrInvalid "peer: no address".

(** ** What validation establishes *)

(** The facts about a rule that the rest of the daemon relies on. *)
Record rule_shape (r : Rule) : Prop := {
  rs_action : r.(r_action) ∈ RuleActions;
  rs_tunnel : r.(r_action) = ActionTunnel <-> r.(r_tunnel) <> EmptyString;
  rs_via : r.(r_via) <> EmptyString -> r.(r_action) = ActionTunnel;
  rs_matcher : rule_matchers_empty r = false;
  rs_scope : r.(r_scope) = ScopeAll /\ r.(r_peers) = [] \/ r.(r_scope) = ScopeSelected;
  rs_selected : r.(r_enabled) = true -> r.(r_scope) = ScopeSelected -> r.(r_peers) <> []
}.

Lemma rule_validate_shape r : rule_validate r = Ok tt -> rule_shape r.
Proof.
  unfold rule_validate. intros H. inv_result.
  repeat match goal with x : unit |- _ => destruct x end. reflect_bools.
  rename select (rule_validate_tunnel _ = _) into Ht.
  rename select (rule_validate_scope _ = _) into Hs.
  rename select (bool_decide (_ <> _) && _ = false) into Hv.
  unfold rule_validate_tunnel in Ht. unfold rule_validate_scope in Hs.
  unfold RuleActions in *. rewrite andb_false_iff in Hv.
  split; try done.
  - repeat case_decide; inv_result; reflect_bools; set_solver.
  - intros Hne. destruct Hv; reflect_bools; congruence.
  - repeat case_decide; inv_result; reflect_bools; auto.
  - intros Hen Hsel. rewrite Hsel in Hs. case_decide; [done|]. case_decide; [|done].
    inv_result. rewrite andb_false_iff in Hs. destruct Hs; reflect_bools; congruence.
Qed.
