(* ===== verification/Db.v ===== *)
(** * The database: tables, constraints and transactions

    The tables of [internal/store/migrate.go] at schema version 13, keyed by
    their primary keys, and the SQL statements of the store as functions on
    them.  The constraints of the schema are executed: a statement that would
    violate PRIMARY KEY, UNIQUE or REFERENCES fails with the driver error, and
    ON DELETE RESTRICT / CASCADE act as declared.  [run] is [Store.tx]: a
    failed transaction leaves the database as it was.  A statement outside
    [Store.tx] is its own transaction, so [run] models it too.

    List and pool columns hold the list itself: their JSON text is written and
    read back by the same pair of functions ([jsonList]/[parseList],
    [marshalPool]/[parsePool]).  Times are stored as Unix seconds. *)

From S2P Require Import Prelude GoStd Model.

(** ** Rows of the tables that are not records of the model *)
Record Session := MkSession { s_created : Z; s_expires : Z }.
Record CheckRow := MkCheck { c_status : string; c_at : Z; c_ok_at : Z; c_notified : string }.
Record WarpRow := MkWarp { w_device : string; w_token : string; w_created : Z }.
Record IdentityRow := MkIdentity { i_id : string; i_private : string; i_short : string }.
Record CredRow := MkCred { cr_id : string; cr_revision : Z; cr_uuid : string }.

Record db := MkDb {
  tunnels : gmap string Tunnel;
  rules : gmap string Rule;
  peers : gmap string Peer;
  settings_kv : gmap string string;
  sessions : gmap string Session;       (** by token hash *)
  tunnel_checks : gmap string CheckRow; (** by tunnel *)
  warp_registrations : gmap string WarpRow;
  reality_identity : option IdentityRow;
  reality_credentials : gmap string CredRow  (** by peer *)
}.

Definition empty_db : db := MkDb ∅ ∅ ∅ ∅ ∅ ∅ ∅ None ∅.

Definition set_tunnels x (d : db) : db :=
  MkDb x (rules d) (peers d) (settings_kv d) (sessions d) (tunnel_checks d)
    (warp_registrations d) (reality_identity d) (reality_credentials d).
Definition set_rules x (d : db) : db :=
  MkDb (tunnels d) x (peers d) (settings_kv d) (sessions d) (tunnel_checks d)
    (warp_registrations d) (reality_identity d) (reality_credentials d).
Definition set_peers x (d : db) : db :=
  MkDb (tunnels d) (rules d) x (settings_kv d) (sessions d) (tunnel_checks d)
    (warp_registrations d) (reality_identity d) (reality_credentials d).
Definition set_settings x (d : db) : db :=
  MkDb (tunnels d) (rules d) (peers d) x (sessions d) (tunnel_checks d)
    (warp_registrations d) (reality_identity d) (reality_credentials d).
Definition set_sessions x (d : db) : db :=
  MkDb (tunnels d) (rules d) (peers d) (settings_kv d) x (tunnel_checks d)
    (warp_registrations d) (reality_identity d) (reality_credentials d).
Definition set_checks x (d : db) : db :=
  MkDb (tunnels d) (rules d) (peers d) (settings_kv d) (sessions d) x
    (warp_registrations d) (reality_identity d) (reality_credentials d).
Definition set_warp x (d : db) : db :=
  MkDb (tunnels d) (rules d) (peers d) (settings_kv d) (sessions d) (tunnel_checks d)
    x (reality_identity d) (reality_credentials d).
Definition set_identity x (d : db) : db :=
  MkDb (tunnels d) (rules d) (peers d) (settings_kv d) (sessions d) (tunnel_checks d)
    (warp_registrations d) x (reality_credentials d).
Definition set_creds x (d : db) : db :=
  MkDb (tunnels d) (rules d) (peers d) (settings_kv d) (sessions d) (tunnel_checks d)
    (warp_registrations d) (reality_identity d) x.

(** ** Transactions *)
Definition Tx (A : Type) : Type := db -> result (A * db).

#[export] Instance tx_ret : MRet Tx := fun _ a d => Ok (a, d).
#[export] Instance tx_bind : MBind Tx := fun _ _ f m d =>
  match m d with Ok (a, d') => f a d' | Err e => Err e end.

Definition lift {A} (r : result A) : Tx A := fun d =>
  match r with Ok a => Ok (a, d) | Err e => Err e end.
Definition gets {A} (f : db -> A) : Tx A := fun d => Ok (f d, d).
Definition modify (f : db -> db) : Tx unit := fun d => Ok (tt, f d).
Definition throw {A} (k : errkind) (label : string) : Tx A := fun _ => fail k label.
Definition guard_tx (c : bool) (k : errkind) (label : string) : Tx unit :=
  lift (guard_err c k label).

(** [if err != nil { return h(err) }] *)
Definition catch {A} (m : Tx A) (h : error -> error) : Tx A := fun d =>
  match m d with Ok x => Ok x | Err e => Err (h e) end.

Fixpoint forM_ {A} (l : list A) (f : A -> Tx unit) : Tx unit :=
  match l with
  | [] => mret tt
  | x :: l => _ ← f x; forM_ l f
  end.

(** [Store.tx]: commit on success, roll back on any error. *)
Definition run {A} (m : Tx A) (d : db) : result A * db :=
  match m d with Ok (a, d') => (Ok a, d') | Err e => (Err e, d) end.

Section tx.
Context {A B : Type}.

Lemma tx_bind_Ok (m : Tx A) (f : A -> Tx B) d b d' :
  (m ≫= f) d = Ok (b, d') <-> exists a d1, m d = Ok (a, d1) /\ f a d1 = Ok (b, d').
Proof. unfold mbind, tx_bind. destruct (m d) as [[]|]; naive_solver. Qed.

Lemma lift_Ok (r : result A) d a d' : lift r d = Ok (a, d') <-> r = Ok a /\ d' = d.
Proof. unfold lift. destruct r; intuition congruence. Qed.

Lemma run_Ok (m : Tx A) d a d' : run m d = (Ok a, d') <-> m d = Ok (a, d').
Proof. unfold run. destruct (m d) as [[]|]; intuition congruence. Qed.

Lemma catch_Ok (m : Tx A) h d a d' : catch m h d = Ok (a, d') <-> m d = Ok (a, d').
Proof. unfold catch. destruct (m d); intuition congruence. Qed.

Lemma run_fst (m : Tx A) d a : (run m d).1 = Ok a -> run m d = (Ok a, (run m d).2).
Proof. destruct (run m d) as [r d'] eqn:E. simpl. by intros ->. Qed.

(** A transaction that fails changes nothing. *)
Lemma run_Err (m : Tx A) d e d' : run m d = (Err e, d') -> d' = d.
Proof. unfold run. destruct (m d) as [[]|]; intuition congruence. Qed.

End tx.

Section loops.
Context {A : Type}.

Lemma forM_cons x l (f : A -> Tx unit) : forM_ (x :: l) f = (_ ← f x; forM_ l f).
Proof. done. Qed.

(** A property preserved by each step is preserved by the loop. *)
Lemma forM_invariant (P : db -> Prop) (f : A -> Tx unit) l d d' :
  (forall x d1 u d2, x ∈ l -> P d1 -> f x d1 = Ok (u, d2) -> P d2) ->
  P d -> forM_ l f d = Ok (tt, d') -> P d'.
Proof.
  revert d. induction l as [|x l IH]; intros d Hstep Hd H.
  - by injection H as <-.
  - rewrite forM_cons in H. apply tx_bind_Ok in H as (u & d1 & H1 & H2).
    eapply IH; [|eapply Hstep; [apply list_elem_of_here|exact Hd|exact H1]|exact H2].
    intros; eapply Hstep; [by apply list_elem_of_further|done|done].
Qed.
End loops.

(** Split every hypothesis that says a transaction step succeeded. *)
Ltac inv_tx :=
  repeat match goal with
  | H : run _ _ = (Ok _, _) |- _ => apply run_Ok in H
  | H : (_ ≫= _) _ = Ok (_, _) |- _ => apply tx_bind_Ok in H as (? & ? & ? & ?)
  | H : lift _ _ = Ok (_, _) |- _ => apply lift_Ok in H as [? ->]
  | H : guard_tx _ _ _ _ = Ok (_, _) |- _ => apply lift_Ok in H as [H ->]
  | H : guard_err _ _ _ = Ok _ |- _ => apply guard_err_Ok in H
  | H : catch _ _ _ = Ok (_, _) |- _ => apply catch_Ok in H
  | H : gets _ _ = Ok (_, _) |- _ => injection H; clear H; intros; subst
  | H : modify _ _ = Ok (_, _) |- _ => injection H; clear H; intros; subst
  | H : mret _ _ = Ok (_, _) |- _ => injection H; clear H; intros; subst
  | H : throw _ _ _ = Ok (_, _) |- _ => discriminate H
  | x : unit |- _ => destruct x
  end.

(** ** Columns *)

(** [t.CreatedAt.Unix()] on the way in, [time.Unix(sec, 0)] on the way out. *)
Definition stored_time (t : Z) : Z := time_of_unix (Unix t).
(** [unixOrZero] on the way in, the zero time for 0 on the way out. *)
Definition unixOrZero (t : Z) : Z := if IsZero t then 0%Z else Unix t.
Definition stored_opt_time (t : Z) : Z :=
  let u := unixOrZero t in if decide (u = 0%Z) then zero_time else time_of_unix u.

(** [tunnelArgs] followed by [scanTunnel]: what reading back the row gives. *)
Definition tunnel_row (t : Tunnel) : Tunnel :=
  MkTunnel t.(t_id) t.(t_name) t.(t_type) t.(t_source) t.(t_raw) t.(t_parsed) t.(t_enabled)
    (stored_time t.(t_created)) t.(t_pool) (stored_opt_time t.(t_pool_updated))
    t.(t_builtin) t.(t_country).

Definition peer_row (p : Peer) : Peer :=
  MkPeer p.(p_wg_disabled) p.(p_reality) p.(p_cred_id) p.(p_revision) p.(p_egress) p.(p_id)
    p.(p_name) p.(p_public) p.(p_private) p.(p_psk) p.(p_address) p.(p_enabled)
    (stored_time p.(p_created)).

(** ** Constraint checks *)
Definition tunnel_exists (d : db) (id : string) : bool :=
  bool_decide (is_Some (tunnels d !! id)).
Definition peer_exists (d : db) (id : string) : bool :=
  bool_decide (is_Some (peers d !! id)).

(** A nullable reference to [tunnels(id)] held as a Go string. *)
Definition link_ok (d : db) (id : string) : bool :=
  bool_decide (id = EmptyString) || tunnel_exists d id.
Definition rule_fk_ok (d : db) (r : Rule) : bool := link_ok d r.(r_tunnel) && link_ok d r.(r_via).
Definition peer_fk_ok (d : db) (p : Peer) : bool :=
  match p.(p_egress) with None => true | Some id => tunnel_exists d id end.

(** Does the rule hold the tunnel by either link of its chain? *)
Definition rule_refs (id : string) (r : Rule) : bool :=
  bool_decide (id <> EmptyString) &&
  (bool_decide (r.(r_tunnel) = id) || bool_decide (r.(r_via) = id)).
Definition peer_refs (id : string) (p : Peer) : bool := bool_decide (p.(p_egress) = Some id).
Definition tunnel_referenced (d : db) (id : string) : bool :=
  map_any (fun _ => rule_refs id) (rules d) || map_any (fun _ => peer_refs id) (peers d).

(** Is the value taken by a row other than [id]? *)
Definition taken {R V} `{EqDecision V} (col : R -> V) (id : string) (v : V) (m : gmap string R) : bool :=
  map_any (fun k x => bool_decide (k <> id) && bool_decide (col x = v)) m.

(** ** Statements on [tunnels] *)
Definition sql_insert_tunnel (t : Tunnel) : Tx unit := fun d =>
  if tunnel_exists d t.(t_id) then fail (ErrUnique "tunnels.id") "insert tunnel"
  else if taken t_name t.(t_id) t.(t_name) (tunnels d)
  then fail (ErrUnique "tunnels.name") "insert tunnel"
  else Ok (tt, set_tunnels (<[t.(t_id) := tunnel_row t]> (tunnels d)) d).

(** [UPDATE tunnels SET ... WHERE id = ? AND where]; was a row affected? *)
Definition sql_update_tunnel (id : string) (wh : Tunnel -> bool) (f : Tunnel -> Tunnel)
  : Tx bool := fun d =>
  match tunnels d !! id with
  | Some t =>
      if wh t then
        if taken t_name id (f t).(t_name) (tunnels d)
        then fail (ErrUnique "tunnels.name") "update tunnel"
        else Ok (true, set_tunnels (<[id := f t]> (tunnels d)) d)
      else Ok (false, d)
  | None => Ok (false, d)
  end.

(** RESTRICT on [rules.tunnel_id], [rules.via_tunnel_id],
    [peers.egress_tunnel_id]; CASCADE to [tunnel_checks] and
    [warp_registrations]. *)
Definition sql_delete_tunnel (id : string) : Tx bool := fun d =>
  match tunnels d !! id with
  | None => Ok (false, d)
  | Some _ =>
      if tunnel_referenced d id then fail ErrForeignKey "delete tunnel"
      else Ok (true, set_warp (delete id (warp_registrations d))
                       (set_checks (delete id (tunnel_checks d))
                          (set_tunnels (delete id (tunnels d)) d)))
  end.

(** ** Statements on [rules] *)
Definition sql_insert_rule (r : Rule) : Tx unit := fun d =>
  if bool_decide (is_Some (rules d !! r.(r_id))) then fail (ErrUnique "rules.id") "insert rule"
  else if taken r_priority r.(r_id) r.(r_priority) (rules d)
  then fail (ErrUnique "rules.priority") "insert rule"
  else if negb (rule_fk_ok d r) then fail ErrForeignKey "insert rule"
  else Ok (tt, set_rules (<[r.(r_id) := r]> (rules d)) d).

Definition sql_update_rule (id : string) (f : Rule -> Rule) : Tx bool := fun d =>
  match rules d !! id with
  | None => Ok (false, d)
  | Some r =>
      if taken r_priority id (f r).(r_priority) (rules d)
      then fail (ErrUnique "rules.priority") "update rule"
      else if negb (rule_fk_ok d (f r)) then fail ErrForeignKey "update rule"
      else Ok (true, set_rules (<[id := f r]> (rules d)) d)
  end.

Definition sql_delete_rule (id : string) : Tx bool := fun d =>
  match rules d !! id with
  | None => Ok (false, d)
  | Some _ => Ok (true, set_rules (delete id (rules d)) d)
  end.

(** ** Statements on [peers] and [reality_credentials] *)
Definition sql_insert_peer (p : Peer) : Tx unit := fun d =>
  if peer_exists d p.(p_id) then fail (ErrUnique "peers.id") "insert peer"
  else if taken p_public p.(p_id) p.(p_public) (peers d)
  then fail (ErrUnique "peers.public_key") "insert peer"
  else if taken p_address p.(p_id) p.(p_address) (peers d)
  then fail (ErrUnique "peers.address") "insert peer"
  else if negb (peer_fk_ok d p) then fail ErrForeignKey "insert peer"
  else Ok (tt, set_peers (<[p.(p_id) := peer_row p]> (peers d)) d).

Definition sql_update_peer (id : string) (f : Peer -> Peer) : Tx bool := fun d =>
  match peers d !! id with
  | None => Ok (false, d)
  | Some p =>
      if taken p_public id (f p).(p_public) (peers d)
      then fail (ErrUnique "peers.public_key") "update peer"
      else if taken p_address id (f p).(p_address) (peers d)
      then fail (ErrUnique "peers.address") "update peer"
      else if negb (peer_fk_ok d (f p)) then fail ErrForeignKey "update peer"
      else Ok (true, set_peers (<[id := f p]> (peers d)) d)
  end.

Definition sql_delete_peer (id : string) : Tx bool := fun d =>
  match peers d !! id with
  | None => Ok (false, d)
  | Some _ => Ok (true, set_creds (delete id (reality_credentials d))
                          (set_peers (delete id (peers d)) d))
  end.

Definition sql_insert_cred (peer : string) (c : CredRow) : Tx unit := fun d =>
  if bool_decide (is_Some (reality_credentials d !! peer))
  then fail (ErrUnique "reality_credentials.peer_id") "insert credential"
  else if taken cr_id peer c.(cr_id) (reality_credentials d)
  then fail (ErrUnique "reality_credentials.credential_id") "insert credential"
  else if taken cr_uuid peer c.(cr_uuid) (reality_credentials d)
  then fail (ErrUnique "reality_credentials.uuid") "insert credential"
  else if negb (peer_exists d peer) then fail ErrForeignKey "insert credential"
  else Ok (tt, set_creds (<[peer := c]> (reality_credentials d)) d).

Definition sql_update_cred (peer : string) (wh : CredRow -> bool) (f : CredRow -> CredRow)
  : Tx bool := fun d =>
  match reality_credentials d !! peer with
  | Some c =>
      if wh c then
        if taken cr_uuid peer (f c).(cr_uuid) (reality_credentials d)
        then fail (ErrUnique "reality_credentials.uuid") "update credential"
        else Ok (true, set_creds (<[peer := f c]> (reality_credentials d)) d)
      else Ok (false, d)
  | None => Ok (false, d)
  end.

(** [INSERT INTO settings ... ON CONFLICT(key) DO UPDATE] *)
Definition sql_upsert_setting (key value : string) : Tx unit :=
  modify (fun d => set_settings (<[key := value]> (settings_kv d)) d).

(** [checkAffected]: no row changed means the record does not exist. *)
Definition checkAffected (affected : bool) (what : string) : Tx unit :=
  guard_tx (negb affected) ErrNotFound what.

Definition isUniqueViolation (e : error) : bool :=
  match e.(err_kind) with ErrUnique _ => true | _ => false end.

(** ** Ordered reads *)
Definition tunnel_le (a b : Tunnel) : Prop :=
  (a.(t_created) < b.(t_created))%Z \/
  a.(t_created) = b.(t_created) /\ String.le a.(t_id) b.(t_id).
Definition rule_le (a b : Rule) : Prop := (a.(r_priority) <= b.(r_priority))%Z.
Definition peer_le (a b : Peer) : Prop :=
  (a.(p_created) < b.(p_created))%Z \/
  a.(p_created) = b.(p_created) /\ String.le a.(p_id) b.(p_id).

#[export] Instance tunnel_le_dec a b : Decision (tunnel_le a b).
Proof. unfold tunnel_le. apply _. Defined.
#[export] Instance rule_le_dec a b : Decision (rule_le a b).
Proof. unfold rule_le. apply _. Defined.
#[export] Instance peer_le_dec a b : Decision (peer_le a b).
Proof. unfold peer_le. apply _. Defined.

(** [SELECT ... FROM tunnels ORDER BY created_at, id] *)
Definition q_tunnels (d : db) : list Tunnel := merge_sort tunnel_le (map_rows (tunnels d)).
(** [SELECT ... FROM rules ORDER BY priority] *)
Definition q_rules (d : db) : list Rule := merge_sort rule_le (map_rows (rules d)).
(** [SELECT ... FROM peers ORDER BY created_at, id] *)
Definition q_peers (d : db) : list Peer := merge_sort peer_le (map_rows (peers d)).

#[export] Instance rule_le_total : Total rule_le.
Proof. intros a b. unfold rule_le. lia. Qed.
#[export] Instance rule_le_trans : Transitive rule_le.
Proof. intros a b c. unfold rule_le. lia. Qed.

Lemma elem_of_q_tunnels d t : t ∈ q_tunnels d <-> exists id, tunnels d !! id = Some t.
Proof. unfold q_tunnels. rewrite merge_sort_Permutation. apply elem_of_map_rows. Qed.
Lemma elem_of_q_rules d r : r ∈ q_rules d <-> exists id, rules d !! id = Some r.
Proof. unfold q_rules. rewrite merge_sort_Permutation. apply elem_of_map_rows. Qed.
Lemma elem_of_q_peers d p : p ∈ q_peers d <-> exists id, peers d !! id = Some p.
Proof. unfold q_peers. rewrite merge_sort_Permutation. apply elem_of_map_rows. Qed.

Lemma q_rules_sorted d : StronglySorted rule_le (q_rules d).
Proof. apply StronglySorted_merge_sort; apply _. Qed.

(** ** Reasoning about constraint checks *)
Lemma taken_true {R V} `{EqDecision V} (col : R -> V) id v (m : gmap string R) :
  taken col id v m = true <-> exists k x, m !! k = Some x /\ k <> id /\ col x = v.
Proof.
  unfold taken. rewrite map_any_true. setoid_rewrite andb_true_iff.
  setoid_rewrite bool_decide_eq_true. done.
Qed.

Lemma taken_false {R V} `{EqDecision V} (col : R -> V) id v (m : gmap string R) :
  taken col id v m = false <-> forall k x, m !! k = Some x -> k <> id -> col x <> v.
Proof.
  rewrite <- not_true_iff_false, taken_true. naive_solver.
Qed.

Lemma tunnel_exists_true d id : tunnel_exists d id = true <-> is_Some (tunnels d !! id).
Proof. unfold tunnel_exists. by rewrite bool_decide_eq_true. Qed.
Lemma peer_exists_true d id : peer_exists d id = true <-> is_Some (peers d !! id).
Proof. unfold peer_exists. by rewrite bool_decide_eq_true. Qed.
Lemma link_ok_true d id :
  link_ok d id = true <-> id = EmptyString \/ is_Some (tunnels d !! id).
Proof. unfold link_ok. by rewrite orb_true_iff, bool_decide_eq_true, tunnel_exists_true. Qed.
