(* ===== verification/Wf.v ===== *)
(** * The well-formedness invariant of the database

    What every reachable state of the store satisfies, table by table; [wf]
    is their conjunction.  The operations of the store are shown to preserve
    it in the files that model them; [StoreSpec] assembles the step relation.

    Part of it is enforced by the schema (keys, references); the rest is the
    work of the handlers: dense rule priorities, rules whose peers exist,
    enabled rules that name a tunnel and a live scope, REALITY credentials
    that agree with the peer rows. *)

From S2P Require Import Prelude GoStd Model Db.

Record tunnels_ok (T : gmap string Tunnel) : Prop := {
  to_id : forall id t, T !! id = Some t -> t.(t_id) = id;
  to_name : forall i j t s, T !! i = Some t -> T !! j = Some s ->
    t.(t_name) = s.(t_name) -> i = j
}.

(** Rows are stored under their identifiers and no two share a priority. *)
Record rules_keyed (m : gmap string Rule) : Prop := {
  rk_id : forall id r, m !! id = Some r -> r.(r_id) = id;
  rk_priority : forall i j r s, m !! i = Some r -> m !! j = Some s ->
    r.(r_priority) = s.(r_priority) -> i = j
}.

(** Read in order, the priorities are exactly [0, 1, .., n-1]. *)
Definition dense (m : gmap string Rule) : Prop :=
  r_priority <$> merge_sort rule_le (map_rows m) = seqZ 0 (Z.of_nat (size m)).

(** A stored rule against the tunnels and peers of its database. *)
Record rule_ok (T : gmap string Tunnel) (P : gmap string Peer) (r : Rule) : Prop := {
  ro_action : r.(r_action) ∈ RuleActions;
  ro_tunnel : r.(r_tunnel) = EmptyString \/ is_Some (T !! r.(r_tunnel));
  ro_via : r.(r_via) = EmptyString \/ is_Some (T !! r.(r_via));
  ro_enabled_tunnel : r.(r_enabled) = true -> r.(r_action) = ActionTunnel ->
    r.(r_tunnel) <> EmptyString;
  ro_no_tunnel : r.(r_action) <> ActionTunnel -> r.(r_tunnel) = EmptyString /\ r.(r_via) = EmptyString;
  ro_matcher : rule_matchers_empty r = false;
  ro_scope : r.(r_scope) = ScopeAll /\ r.(r_peers) = [] \/ r.(r_scope) = ScopeSelected;
  ro_selected : r.(r_enabled) = true -> r.(r_scope) = ScopeSelected -> r.(r_peers) <> [];
  ro_peers : forall p, p ∈ r.(r_peers) -> is_Some (P !! p);
  ro_peers_nodup : NoDup r.(r_peers)
}.

Record rules_ok (T : gmap string Tunnel) (P : gmap string Peer) (m : gmap string Rule) : Prop := {
  rls_keyed : rules_keyed m;
  rls_dense : dense m;
  rls_row : forall id r, m !! id = Some r -> rule_ok T P r
}.

Record peers_ok (T : gmap string Tunnel) (P : gmap string Peer) : Prop := {
  po_id : forall id p, P !! id = Some p -> p.(p_id) = id;
  po_public : forall i j p q, P !! i = Some p -> P !! j = Some q ->
    p.(p_public) = q.(p_public) -> i = j;
  po_address : forall i j p q, P !! i = Some p -> P !! j = Some q ->
    p.(p_address) = q.(p_address) -> i = j;
  po_egress : forall id p t, P !! id = Some p -> p.(p_egress) = Some t -> is_Some (T !! t)
}.

(** The credential table agrees with the peer rows; access implies a credential. *)
Record creds_ok (P : gmap string Peer) (C : gmap string CredRow) : Prop := {
  co_peer : forall id c, C !! id = Some c -> is_Some (P !! id);
  co_row : forall id p c, P !! id = Some p -> C !! id = Some c ->
    p.(p_cred_id) = c.(cr_id) /\ p.(p_revision) = c.(cr_revision) /\
    c.(cr_id) <> EmptyString /\ (1 <= c.(cr_revision))%Z;
  co_none : forall id p, P !! id = Some p -> C !! id = None ->
    p.(p_cred_id) = EmptyString /\ p.(p_revision) = 0%Z /\ p.(p_reality) = false
}.

Record wf (d : db) : Prop := {
  wf_tunnels : tunnels_ok (tunnels d);
  wf_rules : rules_ok (tunnels d) (peers d) (rules d);
  wf_peers : peers_ok (tunnels d) (peers d);
  wf_creds : creds_ok (peers d) (reality_credentials d);
  wf_checks : forall id c, tunnel_checks d !! id = Some c -> is_Some (tunnels d !! id);
  wf_warp : forall id w, warp_registrations d !! id = Some w -> is_Some (tunnels d !! id)
}.

Lemma wf_empty : wf empty_db.
Proof.
  split; [split|split|split|split| |]; simpl; try (intros *; rewrite lookup_empty; done).
  - split; intros *; rewrite lookup_empty; done.
  - reflexivity.
Qed.

(** ** Frame lemmas: tables outside the invariant *)
Lemma wf_set_settings d x : wf d -> wf (set_settings x d).
Proof. by intros [? ? ? ? ? ?]; split. Qed.
Lemma wf_set_sessions d x : wf d -> wf (set_sessions x d).
Proof. by intros [? ? ? ? ? ?]; split. Qed.
Lemma wf_set_identity d x : wf d -> wf (set_identity x d).
Proof. by intros [? ? ? ? ? ?]; split. Qed.
Lemma wf_set_rules d m : wf d -> rules_ok (tunnels d) (peers d) m -> wf (set_rules m d).
Proof. by intros [? ? ? ? ? ?]; split. Qed.

#[export] Hint Resolve wf_empty wf_set_settings wf_set_sessions wf_set_identity wf_set_rules
  : razdacha.

(** ** Rules in order *)
Section order.
Implicit Types m : gmap string Rule.

Definition sorted_rows m : list Rule := merge_sort rule_le (map_rows m).

Lemma sorted_rows_perm m : sorted_rows m ≡ₚ map_rows m.
Proof. apply merge_sort_Permutation. Qed.

Lemma elem_of_sorted_rows m r : r ∈ sorted_rows m <-> exists id, m !! id = Some r.
Proof. rewrite sorted_rows_perm. apply elem_of_map_rows. Qed.

(** The order of the rows is determined by their priorities. *)
Lemma sorted_rows_unique m rs :
  rules_keyed m -> StronglySorted rule_le rs -> rs ≡ₚ map_rows m -> sorted_rows m = rs.
Proof.
  intros Hk Hs Hp. apply (StronglySorted_unique_strong rule_le).
  - intros x y Hx Hy Hxy Hyx. rewrite Hp in Hy.
    apply elem_of_sorted_rows in Hx as [i Hi]. apply elem_of_map_rows in Hy as [j Hj].
    unfold rule_le in *. assert (i = j) as <- by (eapply rk_priority; eauto; lia).
    congruence.
  - apply StronglySorted_merge_sort; apply _.
  - done.
  - by rewrite Hp, sorted_rows_perm.
Qed.

Lemma rule_priority_nonneg m id r : dense m -> m !! id = Some r -> (0 <= r.(r_priority))%Z.
Proof.
  intros Hd Hr. assert (Hin : r_priority r ∈ r_priority <$> sorted_rows m).
  { apply list_elem_of_fmap_2, elem_of_sorted_rows. eauto. }
  unfold sorted_rows in Hin. rewrite Hd in Hin. apply elem_of_seqZ in Hin. lia.
Qed.

Lemma NoDup_map_rows m : rules_keyed m -> NoDup (map_rows m).
Proof.
  intros Hk. apply (NoDup_fmap_1 r_priority). apply NoDup_map_rows_fmap. intros; eapply rk_priority; eauto.
Qed.
End order.

(** ** Deciding the invariant on a concrete database *)
Section checker.
Implicit Types (T : gmap string Tunnel) (P : gmap string Peer) (C : gmap string CredRow).

(** A column that determines the key. *)
Definition unique_col {R V} (col : R -> V) (m : gmap string R) : Prop :=
  map_Forall (fun i r => map_Forall (fun j s => col r = col s -> i = j) m) m.

Definition known {R} (m : gmap string R) (id : string) : Prop := is_Some (m !! id).

Definition rule_checked T P (r : Rule) : Prop :=
  (r.(r_action) ∈ RuleActions /\
   (r.(r_tunnel) = EmptyString \/ known T r.(r_tunnel)) /\
   (r.(r_via) = EmptyString \/ known T r.(r_via))) /\
  ((r.(r_enabled) = true -> r.(r_action) = ActionTunnel -> r.(r_tunnel) <> EmptyString) /\
   (r.(r_action) <> ActionTunnel -> r.(r_tunnel) = EmptyString /\ r.(r_via) = EmptyString) /\
   rule_matchers_empty r = false) /\
  ((r.(r_scope) = ScopeAll /\ r.(r_peers) = [] \/ r.(r_scope) = ScopeSelected) /\
   (r.(r_enabled) = true -> r.(r_scope) = ScopeSelected -> r.(r_peers) <> []) /\
   Forall (known P) r.(r_peers) /\ NoDup r.(r_peers)).

Definition cred_checked C (id : string) (p : Peer) : Prop :=
  match C !! id with
  | Some c => p.(p_cred_id) = c.(cr_id) /\ p.(p_revision) = c.(cr_revision) /\
      c.(cr_id) <> EmptyString /\ (1 <= c.(cr_revision))%Z
  | None => p.(p_cred_id) = EmptyString /\ p.(p_revision) = 0%Z /\ p.(p_reality) = false
  end.

Definition wf_checked (d : db) : Prop :=
  (map_Forall (fun id t => t.(t_id) = id) (tunnels d) /\ unique_col t_name (tunnels d)) /\
  (map_Forall (fun id r => r.(r_id) = id) (rules d) /\ unique_col r_priority (rules d) /\
   dense (rules d) /\ map_Forall (fun _ => rule_checked (tunnels d) (peers d)) (rules d)) /\
  (map_Forall (fun id p => p.(p_id) = id) (peers d) /\ unique_col p_public (peers d) /\
   unique_col p_address (peers d) /\
   map_Forall (fun _ p => from_option (known (tunnels d)) True p.(p_egress)) (peers d)) /\
  (map_Forall (fun id _ => known (peers d) id) (reality_credentials d) /\
   map_Forall (cred_checked (reality_credentials d)) (peers d)) /\
  map_Forall (fun id _ => known (tunnels d) id) (tunnel_checks d) /\
  map_Forall (fun id _ => known (tunnels d) id) (warp_registrations d).

#[export] Instance wf_checked_dec d : Decision (wf_checked d).
Proof.
  unfold wf_checked, unique_col, dense, rule_checked, cred_checked, known.
  repeat first [apply and_dec | apply map_Forall_dec; intros ?
    | match goal with |- forall _, _ => intros ? end | apply _
    | match goal with |- Decision (match ?x with _ => _ end) => destruct x end
    | match goal with |- Decision (from_option _ _ ?x) => destruct x; simpl end ].
Defined.

Lemma rule_checked_ok T P r : rule_checked T P r -> rule_ok T P r.
Proof.
  intros ((? & ? & ?) & (? & ? & ?) & (? & ? & Hp & ?)). split; try done.
  rewrite Forall_forall in Hp. done.
Qed.

Lemma wf_checked_wf d : wf_checked d -> wf d.
Proof.
  intros ((HT1 & HT2) & (HR1 & HR2 & HR3 & HR4) & (HP1 & HP2 & HP3 & HP4) & (HC1 & HC2) & HK & HW).
  split.
  - split; [done|]. intros i j t s Hi Hj. by apply (HT2 i t Hi j s Hj).
  - split; [|done|intros id r Hr; by eapply rule_checked_ok, HR4].
    split; [done|]. intros i j t s Hi Hj. by apply (HR2 i t Hi j s Hj).
  - split; [done| | |].
    + intros i j t s Hi Hj. by apply (HP2 i t Hi j s Hj).
    + intros i j t s Hi Hj. by apply (HP3 i t Hi j s Hj).
    + intros id p t Hp He. specialize (HP4 id p Hp). simpl in HP4. by rewrite He in HP4.
  - split; [done| |].
    + intros id p c Hp Hc. specialize (HC2 id p Hp). unfold cred_checked in HC2.
      by rewrite Hc in HC2.
    + intros id p Hp Hc. specialize (HC2 id p Hp). unfold cred_checked in HC2.
      by rewrite Hc in HC2.
  - done.
  - done.
Qed.
End checker.
