(* ===== verification/Sample.v ===== *)
(** * A concrete database

    Three tunnels (a pool, a WireGuard configuration and a VLESS link), two
    peers and three rules, on which the theorems of the store are
    instantiated. *)

From S2P Require Import Prelude GoStd Model Db Wf.

Definition sample_pool : Tunnel :=
  MkTunnel "pool" "Free pool" TunnelVLESS SourcePool "https://list" "" true 0
    [MkPoolServer "vless://a" "NL" "NL-1" 40 0; MkPoolServer "vless://b" "DE" "DE-1" 55 1]
    zero_time true "".
Definition sample_wg : Tunnel :=
  MkTunnel "wg" "Home" TunnelWireGuard SourceWGConf "[Interface]" "{}" true
    (1000 * second)%Z [] zero_time false "".
Definition sample_vless : Tunnel :=
  MkTunnel "vl" "Office" TunnelVLESS SourceURL "vless://c" "{}" true
    (2000 * second)%Z [] zero_time false "".

Definition sample_alice : Peer :=
  MkPeer false true "cred-1" 3 (Some "wg") "alice" "Alice" "pubA" "privA" "pskA" "10.77.0.2" true 0.
Definition sample_bob : Peer :=
  MkPeer false false "" 0 None "bob" "Bob" "pubB" "privB" "pskB" "10.77.0.3" true
    (60 * second)%Z.

Definition sample_r0 : Rule :=
  MkRule "r0" "video" ActionTunnel "pool" "" 0 true [] ["example.com"] [] [] ScopeAll [] false.
Definition sample_r1 : Rule :=
  MkRule "r1" "work" ActionTunnel "vl" "wg" 1 true [] [] ["10.0.0.0/8"] [] ScopeSelected
    ["alice"] true.
Definition sample_r2 : Rule :=
  MkRule "r2" "ads" ActionBlock "" "" 2 true [] ["ads.example"] [] [] ScopeSelected
    ["bob"; "alice"] false.

Definition sample_db : db :=
  MkDb (list_to_map [("pool", sample_pool); ("wg", sample_wg); ("vl", sample_vless)])
    (list_to_map [("r0", sample_r0); ("r1", sample_r1); ("r2", sample_r2)])
    (list_to_map [("alice", sample_alice); ("bob", sample_bob)])
    ∅ ∅
    (list_to_map [("wg", MkCheck "ok" 100 100 "")])
    ∅
    (Some (MkIdentity "id-1" "key" "abcd"))
    (list_to_map [("alice", MkCred "cred-1" 3 "uuid-1")]).

Lemma sample_wf : wf sample_db.
Proof. apply wf_checked_wf, (bool_decide_eq_true_1 (wf_checked sample_db)). by vm_compute. Qed.
#[export] Hint Resolve sample_wf : razdacha.
