(* ===== verification/RulesStore.v ===== *)
(** * Routing rules: [internal/store/rules.go]

    Rule handlers over the tables of [Db].  [newID] is a third-party UUID
    generator: each handler that calls it takes the drawn identifier as an
    argument. *)

From S2P Require Import Prelude GoStd Model Db Wf Sample.

(** [validateRulePeers]: for a selected scope, drop repeated peers and require
    every remaining one to exist; returns the rule with its new peer list. *)
Definition validateRulePeers (r : Rule) : Tx Rule := fun d =>
  if decide (r.(r_scope) = ScopeSelected) then
    let selected := dedup_from [] r.(r_peers) in
    _ ← guard_err (negb (forallb (peer_exists d) selected)) ErrInvalid "selected peer no longer exists";
    Ok (rule_set_peers selected r.(r_enabled) r, d)
  else Ok (r, d).

(** [wrapRuleWriteErr] *)
Definition wrapRuleWriteErr (e : error) : error :=
  match e.(err_kind) with
  | ErrForeignKey => MkError ErrNotFound "rule references a missing tunnel"
  | _ => e
  end.

(** [SELECT MAX(priority) FROM rules]: [None] for NULL. *)
Definition max_priority (d : db) : option Z :=
  foldr (fun r acc => match acc with None => Some r.(r_priority)
                                  | Some m => Some (Z.max r.(r_priority) m) end)
    None (map_rows (rules d)).

Definition next_priority (m : option Z) : Z :=
  match m with None => 0%Z | Some p => (p + 1)%Z end.

(** [CreateRule] *)
Definition CreateRule (newID : string) (r : Rule) : Tx Rule :=
  _ ← lift (rule_validate r);
  let r := if decide (r.(r_id) = EmptyString) then rule_set_id newID r else r in
  r ← validateRulePeers r;
  m ← gets max_priority;
  let r := rule_set_priority (next_priority m) r in
  _ ← catch (sql_insert_rule r) wrapRuleWriteErr;
  mret r.

(** [Rule] and [Rules] *)
Definition GetRule (id : string) : Tx Rule := fun d =>
  match rules d !! id with
  | Some r => Ok (r, d)
  | None => fail ErrNotFound "rule"
  end.
Definition Rules : Tx (list Rule) := gets q_rules.

(** [UpdateRule]: every column but the priority. *)
Definition UpdateRule (r : Rule) : Tx unit :=
  _ ← lift (rule_validate r);
  _ ← guard_tx (bool_decide (r.(r_id) = EmptyString)) ErrInvalid "updated rule without id";
  r ← validateRulePeers r;
  n ← catch (sql_update_rule r.(r_id) (fun old => rule_set_priority old.(r_priority) r))
        wrapRuleWriteErr;
  checkAffected n "rule".

(** [ruleIDsByPriority] *)
Definition ruleIDsByPriority (d : db) : list string := r_id <$> q_rules d.

(** [applyOrder]: first the negative priorities, then the final ones; every
    UPDATE is checked against the unique index on its own. *)
Definition set_prio (id : string) (n : Z) : Tx unit :=
  _ ← sql_update_rule id (rule_set_priority n); mret tt.
Definition applyOrder (ids : list string) : Tx unit :=
  _ ← forM_ (enum 0 ids) (fun p => set_prio p.2 (- (Z.of_nat p.1 + 1)));
  forM_ (enum 0 ids) (fun p => set_prio p.2 (Z.of_nat p.1)).

(** [sameSet]: [have] and [seen] are the maps of the source. *)
Fixpoint sameSet_loop (have seen next : list string) : result unit :=
  match next with
  | [] => Ok tt
  | id :: next =>
      if decide (id ∉ have) then fail ErrNotFound "rule in the new order"
      else if decide (id ∈ seen) then fail ErrInvalid "rule repeated in the new order"
      else sameSet_loop have (id :: seen) next
  end.
Definition sameSet (current next : list string) : result unit :=
  if decide (length current <> length next) then fail ErrInvalid "order length"
  else sameSet_loop current [] next.

(** [DeleteRule] *)
Definition DeleteRule (id : string) : Tx unit :=
  n ← sql_delete_rule id;
  _ ← checkAffected n "rule";
  order ← gets ruleIDsByPriority;
  applyOrder order.

(** [ReorderRules] *)
Definition ReorderRules (ids : list string) : Tx unit :=
  current ← gets ruleIDsByPriority;
  _ ← lift (sameSet current ids);
  applyOrder ids.

(** ** Identifiers in order *)
Section table.
Implicit Types (d : db) (m : gmap string Rule).

Lemma ruleIDs_Permutation d :
  rules_keyed (rules d) -> ruleIDsByPriority d ≡ₚ (map_to_list (rules d)).*1.
Proof.
  intros [Hid _]. unfold ruleIDsByPriority, q_rules. rewrite merge_sort_Permutation.
  unfold map_rows. rewrite <- list_fmap_compose.
  rewrite (list_fmap_ext _ fst); [done|]. intros i [k r] Hi. simpl.
  apply list_elem_of_lookup_2 in Hi. apply elem_of_map_to_list in Hi. eauto.
Qed.

Lemma elem_of_ruleIDs d id :
  rules_keyed (rules d) -> id ∈ ruleIDsByPriority d <-> is_Some (rules d !! id).
Proof.
  intros Hk. rewrite (ruleIDs_Permutation _ Hk), list_elem_of_fmap. split.
  - intros ([k r] & -> & Hin%elem_of_map_to_list). by exists r.
  - intros [r Hr]. exists (id, r). split; [done|]. by apply elem_of_map_to_list.
Qed.

Lemma NoDup_ruleIDs d : rules_keyed (rules d) -> NoDup (ruleIDsByPriority d).
Proof. intros Hk. rewrite (ruleIDs_Permutation _ Hk). apply NoDup_fst_map_to_list. Qed.

Lemma length_ruleIDs d : length (ruleIDsByPriority d) = size (rules d).
Proof.
  unfold ruleIDsByPriority, q_rules.
  rewrite length_fmap, merge_sort_Permutation. apply length_map_rows.
Qed.
End table.

(** ** [sameSet] accepts exactly the permutations *)
Lemma sameSet_loop_Ok have seen next :
  sameSet_loop have seen next = Ok tt <->
  (forall x, x ∈ next -> x ∈ have /\ x ∉ seen) /\ NoDup next.
Proof.
  revert seen. induction next as [|id next IH]; intros seen; simpl.
  { split; [|done]. intros _. split; [set_solver|constructor]. }
  repeat case_decide.
  - split; [done|]. set_solver.
  - split; [done|]. set_solver.
  - rewrite IH, NoDup_cons. set_solver.
Qed.

Lemma sameSet_Permutation current next :
  NoDup current -> sameSet current next = Ok tt <-> current ≡ₚ next.
Proof.
  intros Hc. unfold sameSet. case_decide as Hl.
  { split; [done|]. by intros ?%Permutation_length. }
  rewrite sameSet_loop_Ok. split.
  - intros [Hin Hnd]. symmetry. apply submseteq_length_Permutation; [|lia].
    apply NoDup_submseteq; [done|]. intros x Hx. by apply Hin.
  - intros Hp. split; [|by rewrite <- Hp].
    intros x Hx. rewrite Hp. set_solver.
Qed.

(** ** The two-phase renumbering *)

(** What a sequence of priority updates leaves in the table. *)
Fixpoint assign (g : nat -> Z) (k : nat) (ids : list string) (m : gmap string Rule)
  : gmap string Rule :=
  match ids with
  | [] => m
  | id :: ids => assign g (S k) ids (alter (rule_set_priority (g k)) id m)
  end.

Section renumber.
Implicit Types (d : db) (m : gmap string Rule).

Lemma assign_lookup_ne g k ids m id : id ∉ ids -> assign g k ids m !! id = m !! id.
Proof.
  revert k m. induction ids as [|x ids IH]; intros k m Hni; [done|].
  apply not_elem_of_cons in Hni as [Hx Hni]. simpl. rewrite IH by done.
  by rewrite lookup_alter_ne.
Qed.

Lemma assign_lookup g k ids m i id :
  NoDup ids -> ids !! i = Some id ->
  assign g k ids m !! id = rule_set_priority (g (k + i)) <$> m !! id.
Proof.
  revert k m i. induction ids as [|x ids IH]; intros k m i Hnd Hi; [done|].
  apply NoDup_cons in Hnd as [Hx Hnd]. simpl. destruct i as [|i]; simplify_eq/=.
  - rewrite assign_lookup_ne by done. rewrite lookup_alter_eq. by rewrite Nat.add_0_r.
  - rewrite (IH (S k) _ i Hnd Hi).
    assert (x <> id) by (intros ->; apply Hx; by eapply list_elem_of_lookup_2).
    rewrite lookup_alter_ne by done. by rewrite Nat.add_succ_comm.
Qed.

Lemma assign_dom g k ids m id : is_Some (assign g k ids m !! id) <-> is_Some (m !! id).
Proof.
  revert k m. induction ids as [|x ids IH]; intros k m; [done|]. simpl. rewrite IH.
  destruct (decide (x = id)) as [->|].
  - by rewrite lookup_alter_eq, fmap_is_Some.
  - by rewrite lookup_alter_ne.
Qed.

(** Updating priorities never disturbs references. *)
Definition rules_fk d : Prop := forall id r, rules d !! id = Some r -> rule_fk_ok d r = true.

Lemma set_prio_alter d id n r :
  rules_fk d -> rules d !! id = Some r ->
  (forall id' r', rules d !! id' = Some r' -> id' <> id -> r'.(r_priority) <> n) ->
  set_prio id n d = Ok (tt, set_rules (alter (rule_set_priority n) id (rules d)) d).
Proof.
  intros Hfk Hr Hfree. unfold set_prio, mbind, tx_bind, sql_update_rule. rewrite Hr. cbn [r_priority rule_set_priority].
  assert (taken r_priority id n (rules d) = false) as ->.
  { apply taken_false. eauto. }
  change (rule_fk_ok d (rule_set_priority n r)) with (rule_fk_ok d r).
  rewrite (Hfk _ _ Hr). simpl.
  assert (<[id := rule_set_priority n r]> (rules d) = alter (rule_set_priority n) id (rules d))
    as ->; [|done].
  apply map_eq. intros id'. destruct (decide (id = id')) as [->|].
  - by rewrite lookup_insert_eq, lookup_alter_eq, Hr.
  - by rewrite lookup_insert_ne, lookup_alter_ne.
Qed.

Lemma rules_fk_alter d id n :
  rules_fk d -> rules_fk (set_rules (alter (rule_set_priority n) id (rules d)) d).
Proof.
  intros Hfk id' r Hr. simpl in Hr. apply lookup_alter_Some in Hr as [(-> & r0 & Hr0 & ->)|[_ Hr]].
  - apply (Hfk _ _ Hr0).
  - apply (Hfk _ _ Hr).
Qed.

Lemma phase_ok g k ids d :
  Inj (=) (=) g -> NoDup ids -> rules_fk d ->
  (forall id, id ∈ ids -> is_Some (rules d !! id)) ->
  (forall id r i, rules d !! id = Some r -> k <= i -> r.(r_priority) <> g i) ->
  forM_ (enum k ids) (fun p => set_prio p.2 (g p.1)) d
  = Ok (tt, set_rules (assign g k ids (rules d)) d).
Proof.
  intros Hg. revert k d. induction ids as [|id ids IH]; intros k d Hnd Hfk Hin Hfree.
  { by destruct d. }
  apply NoDup_cons in Hnd as [Hni Hnd]. cbn [enum forM_].
  destruct (Hin id) as [r Hr]; [apply list_elem_of_here|].
  unfold mbind, tx_bind. simpl.
  rewrite (set_prio_alter d id (g k) r); [|done|done|eauto].
  rewrite IH; [by destruct d|done|by apply rules_fk_alter| |].
  - intros x Hx. simpl. destruct (decide (id = x)) as [->|].
    + by rewrite lookup_alter_eq, fmap_is_Some.
    + rewrite lookup_alter_ne by done. apply Hin. by apply list_elem_of_further.
  - intros x s i Hs Hi. simpl in Hs.
    apply lookup_alter_Some in Hs as [(-> & r0 & Hr0 & ->)|[_ Hs]].
    + simpl. intros Heq%(inj g). lia.
    + eapply Hfree; [done|lia].
Qed.
End renumber.

Definition neg_prio (i : nat) : Z := (- (Z.of_nat i + 1))%Z.
#[export] Instance neg_prio_inj : Inj (=) (=) neg_prio.
Proof. intros i j. unfold neg_prio. lia. Qed.

(** [applyOrder] on all the rules succeeds and numbers them as listed. *)
Lemma applyOrder_spec ids d :
  rules_keyed (rules d) -> rules_fk d ->
  (forall id r, rules d !! id = Some r -> (0 <= r.(r_priority))%Z) ->
  ids ≡ₚ ruleIDsByPriority d ->
  applyOrder ids d = Ok (tt, set_rules (assign Z.of_nat 0 ids (rules d)) d).
Proof.
  intros Hk Hfk Hpos Hp.
  assert (Hnd : NoDup ids) by (rewrite Hp; by apply NoDup_ruleIDs).
  assert (Hdom : forall id, id ∈ ids <-> is_Some (rules d !! id)).
  { intros id. rewrite Hp. by apply elem_of_ruleIDs. }
  unfold applyOrder. unfold mbind at 1, tx_bind.
  change (fun p : nat * string => set_prio p.2 (- (Z.of_nat p.1 + 1))%Z)
    with (fun p : nat * string => set_prio p.2 (neg_prio p.1)).
  rewrite (phase_ok neg_prio 0 ids d); [|apply _|done|done|by intros; apply Hdom|].
  2: { intros id r i Hr _. specialize (Hpos id r Hr). unfold neg_prio. lia. }
  set (d1 := set_rules _ d).
  assert (Hneg : forall id r, rules d1 !! id = Some r -> (r.(r_priority) < 0)%Z).
  { intros id r Hr. simpl in Hr.
    assert (Hid : id ∈ ids).
    { apply Hdom. apply (assign_dom neg_prio 0 ids). by exists r. }
    apply list_elem_of_lookup in Hid as [i Hi].
    rewrite (assign_lookup _ _ _ _ i) in Hr by done.
    apply fmap_Some in Hr as (r0 & _ & ->). simpl. unfold neg_prio. lia. }
  rewrite (phase_ok Z.of_nat 0 ids d1); [|apply _|done| | |].
  - f_equal. f_equal. unfold d1. simpl. unfold set_rules. simpl. f_equal.
    apply map_eq. intros id. destruct (decide (id ∈ ids)) as [Hin|Hni].
    + apply list_elem_of_lookup in Hin as [i Hi].
      rewrite !(assign_lookup _ _ _ _ i) by done. by destruct (rules d !! id).
    + by rewrite !assign_lookup_ne.
  - intros id r Hr. simpl in Hr.
    assert (Hs : is_Some (rules d !! id)).
    { apply (assign_dom neg_prio 0 ids). by exists r. }
    pose proof Hs as Hin. apply Hdom, list_elem_of_lookup in Hin as [i Hi].
    rewrite (assign_lookup _ _ _ _ i) in Hr by done.
    apply fmap_Some in Hr as (r0 & Hr0 & ->). apply (Hfk _ _ Hr0).
  - intros id Hid. simpl. apply assign_dom. by apply Hdom.
  - intros id r i Hr _. specialize (Hneg id r Hr). lia.
Qed.

(** ** The order of the table after a handler *)
Section ordered.
Implicit Types (d : db) (m : gmap string Rule) (rs : list Rule).

Lemma listed_sorted m ids rs :
  rules_keyed m -> Forall2 (fun id r => m !! id = Some r) ids rs -> NoDup ids ->
  (forall id, is_Some (m !! id) -> id ∈ ids) -> StronglySorted rule_le rs ->
  sorted_rows m = rs.
Proof.
  intros Hk Hf Hnd Hall Hs. apply sorted_rows_unique; [done|done|].
  apply NoDup_Permutation; [|by apply NoDup_map_rows|].
  - apply (NoDup_fmap_1 r_id). replace (r_id <$> rs) with ids; [done|].
    clear Hnd Hall Hs. induction Hf as [|id r ids rs Hr Hf IH]; [done|].
    rewrite fmap_cons, <- IH. f_equal. symmetry. by eapply rk_id.
  - intros r. rewrite elem_of_map_rows. split.
    + intros Hr. apply list_elem_of_lookup in Hr as [i Hi].
      destruct (Forall2_lookup_r _ _ _ _ _ Hf Hi) as (id & _ & Hid). by exists id.
    + intros [id Hid]. assert (Hin : id ∈ ids) by (apply Hall; by exists r).
      apply list_elem_of_lookup in Hin as [i Hi].
      destruct (Forall2_lookup_l _ _ _ _ _ Hf Hi) as (r' & Hr' & Hm).
      simplify_eq. by eapply list_elem_of_lookup_2.
Qed.

Lemma Forall2_keyed_ids m ids rs :
  rules_keyed m -> Forall2 (fun id r => m !! id = Some r) ids rs -> r_id <$> rs = ids.
Proof.
  intros Hk. induction 1 as [|id r ids rs Hr _ IH]; [done|].
  rewrite fmap_cons, IH. f_equal. by eapply rk_id.
Qed.

Lemma sorted_of_priorities a n rs :
  r_priority <$> rs = seqZ a n -> StronglySorted rule_le rs.
Proof.
  revert a n. induction rs as [|r rs IH]; intros a n H; constructor.
  - destruct (decide (0 < n)%Z); [|by rewrite seqZ_nil in H by lia].
    rewrite seqZ_cons in H by lia. rewrite fmap_cons in H. injection H as _ H. by eapply IH.
  - destruct (decide (0 < n)%Z); [|by rewrite seqZ_nil in H by lia].
    rewrite seqZ_cons in H by lia. rewrite fmap_cons in H. injection H as Hr H.
    apply Forall_forall. intros s Hs. unfold rule_le. rewrite Hr.
    assert (Hin : r_priority s ∈ r_priority <$> rs) by by apply list_elem_of_fmap_2.
    rewrite H in Hin. apply elem_of_seqZ in Hin. lia.
Qed.

(** A table whose rows are numbered as [ids] lists them. *)
Lemma numbered_sorted m ids :
  rules_keyed m -> NoDup ids -> (forall id, id ∈ ids <-> is_Some (m !! id)) ->
  (forall i id r, ids !! i = Some id -> m !! id = Some r -> r.(r_priority) = Z.of_nat i) ->
  r_id <$> sorted_rows m = ids /\ dense m.
Proof.
  intros Hk Hnd Hdom Hprio.
  assert (exists rs, Forall2 (fun id r => m !! id = Some r) ids rs) as [rs Hf].
  { assert (Hs : forall id, id ∈ ids -> is_Some (m !! id)) by (intros id; apply Hdom).
    clear -Hs. induction ids as [|id ids IH]; [by exists []|].
    destruct (Hs id) as [r Hr]; [apply list_elem_of_here|].
    destruct IH as [rs Hrs]; [intros; apply Hs; by apply list_elem_of_further|].
    exists (r :: rs). by constructor. }
  assert (Hp : r_priority <$> rs = seqZ 0 (Z.of_nat (length ids))).
  { apply list_eq. intros i. rewrite list_lookup_fmap.
    destruct (rs !! i) as [r|] eqn:Hi; simpl.
    - destruct (Forall2_lookup_r _ _ _ _ _ Hf Hi) as (id & Hid & Hm).
      symmetry. apply lookup_seqZ. split; [rewrite (Hprio i id r); [lia|done|done]|].
      apply lookup_lt_Some in Hid. lia.
    - symmetry. apply lookup_seqZ_ge. apply lookup_ge_None in Hi.
      rewrite (Forall2_length _ _ _ Hf). lia. }
  assert (Hsr : sorted_rows m = rs).
  { apply (listed_sorted m ids); [done|done|done|by intros; apply Hdom|].
    by eapply sorted_of_priorities. }
  split; [rewrite Hsr; by eapply Forall2_keyed_ids|].
  unfold dense. fold (sorted_rows m). rewrite Hsr, Hp. do 2 f_equal.
  rewrite (Forall2_length _ _ _ Hf), <- Hsr, sorted_rows_perm. apply length_map_rows.
Qed.

Lemma rule_ok_set_priority T P n r : rule_ok T P r -> rule_ok T P (rule_set_priority n r).
Proof. by intros [? ? ? ? ? ? ? ? ? ?]; split. Qed.

Lemma rules_ok_fk d : rules_ok (tunnels d) (peers d) (rules d) -> rules_fk d.
Proof.
  intros [_ _ Hrow] id r Hr. apply Hrow in Hr as [].
  unfold rule_fk_ok. by rewrite andb_true_iff, !link_ok_true.
Qed.

(** Renumbering: the rows of [m], numbered in the order of [ids]. *)
Definition renumbered (ids : list string) m : gmap string Rule := assign Z.of_nat 0 ids m.

Lemma renumbered_row ids m id r' :
  renumbered ids m !! id = Some r' -> NoDup ids ->
  exists r n, m !! id = Some r /\ r' = rule_set_priority n r.
Proof.
  intros Hr Hnd. unfold renumbered in Hr. destruct (decide (id ∈ ids)) as [Hin|Hni].
  - apply list_elem_of_lookup in Hin as [i Hi]. rewrite (assign_lookup _ _ _ _ i) in Hr by done.
    apply fmap_Some in Hr as (r & ? & ->). eauto.
  - rewrite assign_lookup_ne in Hr by done. exists r', (r_priority r'). split; [done|].
    by destruct r'.
Qed.

(** Renumbering touches no other column, and no other row. *)
Lemma renumbered_lookup ids m id :
  NoDup ids -> exists n, renumbered ids m !! id = rule_set_priority n <$> m !! id.
Proof.
  intros Hnd. unfold renumbered. destruct (decide (id ∈ ids)) as [Hin|Hni].
  - apply list_elem_of_lookup in Hin as [i Hi]. exists (Z.of_nat i).
    by rewrite (assign_lookup _ _ _ _ i).
  - rewrite assign_lookup_ne by done. destruct (m !! id) as [r|]; [|by exists 0%Z].
    exists (r_priority r). by destruct r.
Qed.

Lemma renumbered_ok T P m ids :
  (forall id r, m !! id = Some r -> r.(r_id) = id) ->
  (forall id r, m !! id = Some r -> rule_ok T P r) ->
  NoDup ids -> (forall id, id ∈ ids <-> is_Some (m !! id)) ->
  rules_ok T P (renumbered ids m) /\ r_id <$> sorted_rows (renumbered ids m) = ids.
Proof.
  intros Hid Hrow Hnd Hdom.
  assert (Hnum : forall i id r, ids !! i = Some id -> renumbered ids m !! id = Some r ->
                 r.(r_priority) = Z.of_nat i).
  { intros i id r Hi Hr. unfold renumbered in Hr. rewrite (assign_lookup _ _ _ _ i) in Hr by done.
    apply fmap_Some in Hr as (? & ? & ->). done. }
  assert (Hdom' : forall id, id ∈ ids <-> is_Some (renumbered ids m !! id)).
  { intros id. rewrite Hdom. symmetry. apply assign_dom. }
  assert (Hk : rules_keyed (renumbered ids m)).
  { split.
    - intros id r Hr. destruct (renumbered_row _ _ _ _ Hr Hnd) as (r0 & n & H0 & ->). simpl. eauto.
    - intros id1 id2 r1 r2 H1 H2 Heq.
      assert (id1 ∈ ids) as [i1 Hi1]%list_elem_of_lookup by (apply Hdom'; eauto).
      assert (id2 ∈ ids) as [i2 Hi2]%list_elem_of_lookup by (apply Hdom'; eauto).
      rewrite (Hnum _ _ _ Hi1 H1), (Hnum _ _ _ Hi2 H2) in Heq.
      assert (i1 = i2) as <- by lia. congruence. }
  destruct (numbered_sorted _ _ Hk Hnd Hdom' Hnum) as [Hs Hd]. split; [|done].
  split; [done|done|]. intros id r Hr.
  destruct (renumbered_row _ _ _ _ Hr Hnd) as (r0 & n & H0 & ->).
  apply rule_ok_set_priority. eauto.
Qed.
End ordered.

(** ** What the handlers do on a well-formed database *)
Section handlers.
Implicit Types (d : db) (r : Rule).

Lemma wf_keyed d : wf d -> rules_keyed (rules d).
Proof. intros Hd. apply Hd. Qed.

Lemma applyOrder_wf ids d :
  wf d -> ids ≡ₚ ruleIDsByPriority d ->
  applyOrder ids d = Ok (tt, set_rules (renumbered ids (rules d)) d).
Proof.
  intros Hd Hp. apply applyOrder_spec; [by apply wf_keyed|apply rules_ok_fk, Hd| |done].
  intros id r Hr. eapply rule_priority_nonneg; [apply Hd|done].
Qed.

Lemma renumbered_wf ids d :
  wf d -> ids ≡ₚ ruleIDsByPriority d ->
  wf (set_rules (renumbered ids (rules d)) d) /\
  ruleIDsByPriority (set_rules (renumbered ids (rules d)) d) = ids.
Proof.
  intros Hd Hp. pose proof (wf_keyed d Hd) as Hk.
  destruct (renumbered_ok (tunnels d) (peers d) (rules d) ids) as [Hok Hids].
  - apply Hk.
  - apply Hd.
  - rewrite Hp. by apply NoDup_ruleIDs.
  - intros id. rewrite Hp. by apply elem_of_ruleIDs.
  - split; [by apply wf_set_rules|done].
Qed.

Lemma sameSet_Err current next : sameSet current next <> Ok tt ->
  exists k l, sameSet current next = fail k l /\ k ∈ [ErrNotFound; ErrInvalid].
Proof.
  unfold sameSet. case_decide; [intros _; do 2 eexists; split; [done|set_solver]|].
  generalize (@nil string). induction next as [|id next IH]; intros seen Hne; simpl in *; [done|].
  repeat case_decide; [do 2 eexists; split; [done|set_solver]..|].
  clear H. revert Hne. generalize (id :: seen). clear -next.
  induction next as [|x next IH]; intros seen Hne; simpl in *; [done|].
  repeat case_decide; [do 2 eexists; split; [done|set_solver]..|]. eauto.
Qed.

(** [DELETE FROM rules] leaves the other rows in their order. *)
Lemma delete_sorted d id :
  rules_keyed (rules d) ->
  ruleIDsByPriority (set_rules (delete id (rules d)) d)
  = filter (fun x => x <> id) (ruleIDsByPriority d).
Proof.
  intros Hk. unfold ruleIDsByPriority, q_rules. simpl.
  fold (sorted_rows (rules d)). fold (sorted_rows (delete id (rules d))).
  assert (Hk' : rules_keyed (delete id (rules d))).
  { split; intros *; rewrite ?lookup_delete_Some; [|intros [? ?] [? ?]].
    - intros [_ ?]. by apply (rk_id _ Hk).
    - by apply (rk_priority _ Hk). }
  rewrite (sorted_rows_unique _ (filter (fun r => r_id r <> id) (sorted_rows (rules d)))).
  - generalize (sorted_rows (rules d)). intros l.
    induction l as [|r l IH]; [done|]. rewrite fmap_cons, !filter_cons.
    repeat case_decide; try done. by rewrite fmap_cons, IH.
  - done.
  - assert (Hs : StronglySorted rule_le (sorted_rows (rules d))) by apply (q_rules_sorted d).
    revert Hs. generalize (sorted_rows (rules d)). intros l.
    induction 1 as [|r l _ IH Hr]; [constructor|]. rewrite filter_cons.
    case_decide; [|done]. constructor; [done|]. rewrite Forall_forall in *.
    intros x Hx%list_elem_of_filter. naive_solver.
  - apply NoDup_Permutation; [|by apply NoDup_map_rows|].
    + apply NoDup_filter. rewrite sorted_rows_perm. by apply NoDup_map_rows.
    + intros r. rewrite list_elem_of_filter, elem_of_sorted_rows, elem_of_map_rows.
      setoid_rewrite lookup_delete_Some. split.
      * intros [Hne [k Hr]]. exists k. split; [|done]. intros ->. by apply Hne, (rk_id _ Hk).
      * intros (k & Hne & Hr). split; [|by exists k]. rewrite (rk_id _ Hk _ _ Hr). congruence.
Qed.
End handlers.

Section effects.
Implicit Types (d : db) (r : Rule).

Lemma DeleteRule_run d id :
  wf d -> is_Some (rules d !! id) ->
  let order := filter (fun x => x <> id) (ruleIDsByPriority d) in
  let d' := set_rules (renumbered order (delete id (rules d))) d in
  run (DeleteRule id) d = (Ok tt, d') /\ wf d' /\ ruleIDsByPriority d' = order.
Proof.
  intros Hd [r Hr] order d'. pose proof (wf_keyed d Hd) as Hk.
  set (d1 := set_rules (delete id (rules d)) d).
  assert (Horder : ruleIDsByPriority d1 = order) by by apply delete_sorted.
  assert (Hk1 : rules_keyed (rules d1)).
  { split; intros *; simpl; rewrite ?lookup_delete_Some; [|intros [? ?] [? ?]].
    - intros [_ ?]. by apply (rk_id _ Hk).
    - by apply (rk_priority _ Hk). }
  assert (Hrow : forall k s, rules d1 !! k = Some s -> rules d !! k = Some s).
  { intros k s. simpl. by intros [_ ?]%lookup_delete_Some. }
  assert (Ha : applyOrder order d1 = Ok (tt, d')).
  { rewrite (applyOrder_spec order d1); [done|done| | |by rewrite Horder].
    - intros k s Hs. apply Hrow in Hs. apply (rules_ok_fk d (wf_rules d Hd) _ _ Hs).
    - intros k s Hs. apply Hrow in Hs. eapply rule_priority_nonneg; [apply Hd|done]. }
  destruct (renumbered_ok (tunnels d) (peers d) (rules d1) order) as [Hok Hids].
  - apply Hk1.
  - intros k s Hs. apply Hrow in Hs. eapply wf_rules; eauto.
  - rewrite <- Horder. by apply NoDup_ruleIDs.
  - intros k. rewrite <- Horder. by apply elem_of_ruleIDs.
  - split; [|split; [by apply wf_set_rules|done]].
    unfold run, DeleteRule, mbind, tx_bind, sql_delete_rule. rewrite Hr. simpl.
    fold d1. rewrite Horder, Ha. done.
Qed.

Lemma ReorderRules_run d ids :
  wf d -> ids ≡ₚ ruleIDsByPriority d ->
  let d' := set_rules (renumbered ids (rules d)) d in
  run (ReorderRules ids) d = (Ok tt, d') /\ wf d' /\ ruleIDsByPriority d' = ids.
Proof.
  intros Hd Hp d'. destruct (renumbered_wf ids d Hd Hp) as [Hwf Hids].
  split; [|done]. unfold run, ReorderRules, mbind, tx_bind, gets, lift.
  assert (sameSet (ruleIDsByPriority d) ids = Ok tt) as ->.
  { apply sameSet_Permutation; [apply NoDup_ruleIDs, wf_keyed, Hd|done]. }
  by rewrite applyOrder_wf.
Qed.

(** [MAX(priority)] of a dense table. *)
Lemma max_priority_dense d :
  dense (rules d) ->
  next_priority (max_priority d) = Z.of_nat (size (rules d)).
Proof.
  intros Hd. set (n := size (rules d)).
  assert (Hp : r_priority <$> map_rows (rules d) ≡ₚ seqZ 0 (Z.of_nat n)).
  { unfold n. rewrite <- Hd. by rewrite merge_sort_Permutation. }
  assert (Hlen : length (map_rows (rules d)) = n) by apply length_map_rows.
  assert (Hmax : forall (l : list Rule),
    match foldr (fun r acc => match acc with None => Some r.(r_priority)
                   | Some m => Some (Z.max r.(r_priority) m) end) None l with
    | None => l = []
    | Some m => (exists r, r ∈ l /\ r.(r_priority) = m) /\ forall r, r ∈ l -> (r.(r_priority) <= m)%Z
    end).
  { induction l as [|r l IH]; [done|]. simpl.
    destruct (foldr _ None l) as [m|].
    - destruct IH as [(s & Hs & Hm) Hle]. split.
      + destruct (Z.max_spec (r_priority r) m) as [[? ->]|[? ->]];
          [exists s; split; [by apply list_elem_of_further|done]|exists r; split; [apply list_elem_of_here|done]].
      + intros x [->|Hx]%elem_of_cons; [lia|]. specialize (Hle x Hx). lia.
    - subst l. split; [exists r; split; [apply list_elem_of_here|done]|]. set_solver by lia. }
  specialize (Hmax (map_rows (rules d))). unfold next_priority, max_priority.
  destruct (foldr _ None (map_rows (rules d))) as [m|].
  - destruct Hmax as [(r & Hr & Hm) Hle].
    assert (Hrin : r_priority r ∈ r_priority <$> map_rows (rules d)) by by apply list_elem_of_fmap_2.
    rewrite Hp in Hrin. apply elem_of_seqZ in Hrin.
    assert (Hlast : (Z.of_nat n - 1)%Z ∈ r_priority <$> map_rows (rules d)).
    { rewrite Hp. apply elem_of_seqZ. lia. }
    apply list_elem_of_fmap in Hlast as (s & Hs & Hsin). specialize (Hle s Hsin). lia.
  - rewrite Hmax in Hlen. simpl in Hlen. lia.
Qed.

(** ** The rule a handler writes *)
Definition selected_peers r : list string :=
  if decide (r.(r_scope) = ScopeSelected) then dedup_from [] r.(r_peers) else r.(r_peers).

Lemma validateRulePeers_Ok r d r' d' :
  validateRulePeers r d = Ok (r', d') <->
  d' = d /\ r' = rule_set_peers (selected_peers r) r.(r_enabled) r /\
  (r.(r_scope) = ScopeSelected -> forall p, p ∈ r.(r_peers) -> is_Some (peers d !! p)).
Proof.
  unfold validateRulePeers, selected_peers. case_decide as Hs.
  - unfold mbind, result_bind, guard_err.
    destruct (forallb _ _) eqn:Hall; simpl.
    + rewrite forallb_forall in Hall. split.
      * intros [= <- <-]. split_and!; [done..|]. intros _ p Hp.
        apply peer_exists_true, Hall, list_elem_of_In, elem_of_dedup_from. set_solver.
      * intros (-> & -> & _). done.
    + split; [done|]. intros (_ & _ & Hall'). exfalso.
      apply not_true_iff_false in Hall. apply Hall. apply forallb_forall.
      intros p Hp%list_elem_of_In%elem_of_dedup_from. apply peer_exists_true. naive_solver.
  - destruct r; simpl in *. split; [intros [= <- <-]|intros (-> & -> & _)]; done.
Qed.

Lemma selected_peers_empty r : selected_peers r = [] <-> r.(r_peers) = [].
Proof.
  unfold selected_peers. case_decide; [|done].
  split; [|by intros ->]. intros He. destruct (r_peers r) as [|p l] eqn:Hp; [done|].
  assert (Hin : p ∈ dedup_from [] (p :: l)) by (rewrite elem_of_dedup_from; set_solver).
  rewrite He in Hin. set_solver.
Qed.

Lemma rule_validate_row T P r n :
  rule_validate r = Ok tt ->
  (r.(r_scope) = ScopeSelected -> forall p, p ∈ r.(r_peers) -> is_Some (P !! p)) ->
  (r.(r_tunnel) = EmptyString \/ is_Some (T !! r.(r_tunnel))) ->
  (r.(r_via) = EmptyString \/ is_Some (T !! r.(r_via))) ->
  rule_ok T P (rule_set_priority n (rule_set_peers (selected_peers r) r.(r_enabled) r)).
Proof.
  intros Hv%rule_validate_shape Hp Ht Hvia. destruct Hv as [Ha Htun Hv Hm Hs Hsel].
  split; simpl; try done.
  - intros _ Hact. by apply Htun.
  - intros Hact. split; apply dec_stable; intros Hne; [by apply Hact, Htun|by apply Hact, Hv].
  - destruct Hs as [[Hs Hnil]|Hs]; [|by right]. left. split; [done|]. by apply selected_peers_empty.
  - intros Hen Hsc He. apply selected_peers_empty in He. by apply Hsel.
  - intros p Hpin. unfold selected_peers in Hpin. case_decide as Hsc.
    + apply Hp; [done|]. by apply elem_of_dedup_from in Hpin as [? _].
    + destruct Hs as [[_ Hnil]|?]; [|done]. rewrite Hnil in Hpin. set_solver.
  - unfold selected_peers. case_decide as Hsc; [apply NoDup_dedup_from|].
    destruct Hs as [[_ ->]|?]; [constructor|done].
Qed.
End effects.

(** ** Inserting at the end, rewriting in place *)
Section rows.
Context (T : gmap string Tunnel) (P : gmap string Peer).
Implicit Types (m : gmap string Rule) (r : Rule).

Lemma insert_last_ok m id r :
  rules_ok T P m -> m !! id = None -> r.(r_id) = id -> r.(r_priority) = Z.of_nat (size m) ->
  rule_ok T P r ->
  rules_ok T P (<[id := r]> m) /\ sorted_rows (<[id := r]> m) = sorted_rows m ++ [r].
Proof.
  intros [Hk Hd Hrow] Hnone Hid Hprio Hr.
  assert (Hlt : forall k s, m !! k = Some s -> (s.(r_priority) < Z.of_nat (size m))%Z).
  { intros k s Hs. assert (Hin : r_priority s ∈ r_priority <$> sorted_rows m).
    { apply list_elem_of_fmap_2, elem_of_sorted_rows. eauto. }
    unfold sorted_rows in Hin. rewrite Hd in Hin. apply elem_of_seqZ in Hin. lia. }
  assert (Hk' : rules_keyed (<[id := r]> m)).
  { split.
    - intros k s [[<- <-]|[_ Hs]]%lookup_insert_Some; [done|]. by apply (rk_id _ Hk).
    - intros i j s t [[<- <-]|[_ Hs]]%lookup_insert_Some [[<- <-]|[_ Ht]]%lookup_insert_Some Heq;
        [done| | |by eapply rk_priority].
      + apply Hlt in Ht. lia.
      + apply Hlt in Hs. lia. }
  assert (Hs : sorted_rows (<[id := r]> m) = sorted_rows m ++ [r]).
  { apply sorted_rows_unique; [done| |].
    - apply StronglySorted_app_2; [|apply StronglySorted_merge_sort; apply _|repeat constructor].
      intros x y [k Hx]%elem_of_sorted_rows ->%list_elem_of_singleton.
      unfold rule_le. apply Hlt in Hx. lia.
    - unfold map_rows. rewrite map_to_list_insert by done. simpl.
      rewrite sorted_rows_perm, Permutation_app_comm. done. }
  split; [|done]. split; [done| |].
  - unfold dense. fold (sorted_rows (<[id := r]> m)). rewrite Hs, fmap_app.
    unfold dense in Hd. fold (sorted_rows m) in Hd. rewrite Hd.
    rewrite map_size_insert_None by done. rewrite Nat2Z.inj_succ, <- Z.add_1_r.
    rewrite seqZ_app by lia. f_equal. simpl. rewrite Hprio. done.
  - intros k s [[<- <-]|[_ Hs']]%lookup_insert_Some; [done|eauto].
Qed.

(** Rewriting a row in place keeps the order. *)
Definition replace_row (id : string) (r' : Rule) (s : Rule) : Rule :=
  if decide (s.(r_id) = id) then r' else s.

Lemma update_row_ok m id r r' :
  rules_ok T P m -> m !! id = Some r -> r'.(r_id) = id ->
  r'.(r_priority) = r.(r_priority) -> rule_ok T P r' ->
  rules_ok T P (<[id := r']> m) /\
  sorted_rows (<[id := r']> m) = replace_row id r' <$> sorted_rows m.
Proof.
  intros [Hk Hd Hrow] Hr Hid Hprio Hr'.
  assert (Hk' : rules_keyed (<[id := r']> m)).
  { split.
    - intros k s [[<- <-]|[_ Hs]]%lookup_insert_Some; [done|]. by apply (rk_id _ Hk).
    - intros i j s t [[<- <-]|[? Hs]]%lookup_insert_Some [[<- <-]|[? Ht]]%lookup_insert_Some Heq;
        [done| | |by eapply rk_priority].
      + rewrite Hprio in Heq. by eapply rk_priority.
      + rewrite Hprio in Heq. by eapply rk_priority. }
  assert (Hrp : forall s, s ∈ sorted_rows m -> r_priority (replace_row id r' s) = r_priority s).
  { intros s [k Hs]%elem_of_sorted_rows. unfold replace_row. case_decide as He; [|done].
    rewrite Hprio. assert (k = id) as -> by (rewrite <- He; symmetry; by apply (rk_id _ Hk)).
    congruence. }
  assert (Hprios : r_priority <$> (replace_row id r' <$> sorted_rows m)
                   = seqZ 0 (Z.of_nat (size m))).
  { rewrite <- list_fmap_compose. unfold dense in Hd. rewrite <- Hd.
    apply list_fmap_ext. intros i s Hs. simpl. apply Hrp. by eapply list_elem_of_lookup_2. }
  assert (Hs : sorted_rows (<[id := r']> m) = replace_row id r' <$> sorted_rows m).
  { apply sorted_rows_unique; [done|by eapply sorted_of_priorities|].
    apply NoDup_Permutation; [|by apply NoDup_map_rows|].
    - apply (NoDup_fmap_1 r_priority). rewrite Hprios. apply NoDup_seqZ.
    - intros s. rewrite list_elem_of_fmap, elem_of_map_rows. split.
      + intros (s0 & -> & [k Hs0]%elem_of_sorted_rows). exists k. unfold replace_row.
        case_decide as He.
        * rewrite (rk_id _ Hk _ _ Hs0) in He. subst k. apply lookup_insert_eq.
        * rewrite lookup_insert_ne; [done|]. intros <-. by apply He, (rk_id _ Hk).
      + intros [k [[<- <-]|[Hne Hs]]%lookup_insert_Some].
        * exists r. split; [|apply elem_of_sorted_rows; eauto]. unfold replace_row.
          by rewrite decide_True by by apply (rk_id _ Hk).
        * exists s. split; [|apply elem_of_sorted_rows; eauto]. unfold replace_row.
          rewrite decide_False; [done|]. rewrite (rk_id _ Hk _ _ Hs). congruence. }
  split; [|done]. split; [done| |].
  - unfold dense. fold (sorted_rows (<[id := r']> m)). rewrite Hs, Hprios.
    by rewrite map_size_insert, Hr.
  - intros k s [[<- <-]|[_ Hs']]%lookup_insert_Some; [done|eauto].
Qed.

Lemma update_row_ids m id r r' :
  rules_ok T P m -> m !! id = Some r -> r'.(r_id) = id ->
  r_id <$> (replace_row id r' <$> sorted_rows m) = r_id <$> sorted_rows m.
Proof.
  intros _ _ Hid. rewrite <- list_fmap_compose. apply list_fmap_ext.
  intros i s _. simpl. unfold replace_row. case_decide; congruence.
Qed.
End rows.

(** An UPDATE that keeps identifier and priority, and leaves a legal row. *)
Lemma sql_update_rule_rows P d id r f :
  rules_ok (tunnels d) P (rules d) -> rules d !! id = Some r -> (f r).(r_id) = r.(r_id) ->
  (f r).(r_priority) = r.(r_priority) -> rule_ok (tunnels d) P (f r) ->
  let d' := set_rules (<[id := f r]> (rules d)) d in
  sql_update_rule id f d = Ok (true, d') /\ rules_ok (tunnels d) P (rules d') /\
  ruleIDsByPriority d' = ruleIDsByPriority d.
Proof.
  intros Hrows Hr Hid Hprio Hok d'. pose proof (rls_keyed _ _ _ Hrows) as Hk.
  assert (Hid' : r_id (f r) = id) by (rewrite Hid; by apply (rk_id _ Hk)).
  destruct (update_row_ok (tunnels d) P (rules d) id r (f r) Hrows Hr Hid' Hprio Hok)
    as [Hrs Hs].
  split_and!; [|done|].
  - unfold sql_update_rule. rewrite Hr.
    assert (taken r_priority id (r_priority (f r)) (rules d) = false) as ->.
    { apply taken_false. intros k s Hks Hne Heq. apply Hne.
      eapply (rk_priority _ Hk); [done..|]. by rewrite Heq. }
    assert (rule_fk_ok d (f r) = true) as ->; [|done].
    destruct Hok. unfold rule_fk_ok. by rewrite andb_true_iff, !link_ok_true.
  - unfold ruleIDsByPriority, q_rules. cbn [rules set_rules d'].
    fold (sorted_rows (<[id := f r]> (rules d))). rewrite Hs.
    by eapply update_row_ids; [exact Hrows| |].
Qed.

Lemma sql_update_rule_row d id r f :
  wf d -> rules d !! id = Some r -> (f r).(r_id) = r.(r_id) ->
  (f r).(r_priority) = r.(r_priority) -> rule_ok (tunnels d) (peers d) (f r) ->
  let d' := set_rules (<[id := f r]> (rules d)) d in
  sql_update_rule id f d = Ok (true, d') /\ wf d' /\
  ruleIDsByPriority d' = ruleIDsByPriority d.
Proof.
  intros Hd Hr Hid Hprio Hok d'.
  destruct (sql_update_rule_rows (peers d) d id r f (wf_rules d Hd)) as (? & ? & ?); try done.
  split_and!; [done|by apply wf_set_rules|done].
Qed.

(** ** Theorems *)
Section theorems.
Implicit Types (d : db) (r : Rule).

(** The row [CreateRule] writes, and when it can. *)
Definition created_rule d (newID : string) r : Rule :=
  let r0 := if decide (r.(r_id) = EmptyString) then rule_set_id newID r else r in
  rule_set_priority (Z.of_nat (size (rules d)))
    (rule_set_peers (selected_peers r0) r0.(r_enabled) r0).

Definition links_exist d r : Prop :=
  (r.(r_tunnel) = EmptyString \/ is_Some (tunnels d !! r.(r_tunnel))) /\
  (r.(r_via) = EmptyString \/ is_Some (tunnels d !! r.(r_via))).

Definition scope_exists d r : Prop :=
  r.(r_scope) = ScopeSelected -> forall p, p ∈ r.(r_peers) -> is_Some (peers d !! p).

Lemma rule_fk_ok_true d r : rule_fk_ok d r = true <-> links_exist d r.
Proof. unfold rule_fk_ok, links_exist. by rewrite andb_true_iff, !link_ok_true. Qed.

Lemma rule_set_id_shape id r : rule_validate (rule_set_id id r) = rule_validate r.
Proof. by destruct r. Qed.

Lemma CreateRule_inv d newID r r' d' :
  wf d -> CreateRule newID r d = Ok (r', d') <->
  r' = created_rule d newID r /\ d' = set_rules (<[r'.(r_id) := r']> (rules d)) d /\
  rule_validate r = Ok tt /\ scope_exists d r /\ links_exist d r /\
  rules d !! r'.(r_id) = None.
Proof.
  intros Hd. set (r0 := if decide (r_id r = EmptyString) then rule_set_id newID r else r).
  assert (Hval : rule_validate r0 = rule_validate r).
  { unfold r0. case_decide; [apply rule_set_id_shape|done]. }
  assert (Hlinks : links_exist d r0 <-> links_exist d r).
  { unfold r0, links_exist. case_decide; by destruct r. }
  assert (Hscope : scope_exists d r0 <-> scope_exists d r).
  { unfold r0, scope_exists. case_decide; by destruct r. }
  assert (Hmax := max_priority_dense d (rls_dense _ _ _ (wf_rules d Hd))).
  unfold CreateRule, created_rule. fold r0. split.
  - intros H. inv_tx. rename select (validateRulePeers _ _ = _) into Hp.
    apply validateRulePeers_Ok in Hp as (-> & -> & Hp).
    rename select (rule_validate _ = _) into Hv.
    rename select (sql_insert_rule _ _ = _) into Hins.
    rewrite Hmax in *. unfold sql_insert_rule in Hins.
    repeat case_match; try discriminate. injection Hins as <-.
    rename select (negb _ = false) into Hfk. apply negb_false_iff, rule_fk_ok_true in Hfk.
    rename select (bool_decide _ = false) into Hid. apply bool_decide_eq_false in Hid.
    split_and!; try done; [by apply Hscope|by apply Hlinks|by apply eq_None_not_Some].
  - intros (-> & -> & Hv & Hsc & Hl & Hn). unfold mbind, tx_bind, lift at 1. rewrite Hv.
    fold r0.
    rewrite (proj2 (validateRulePeers_Ok r0 d _ d)
               (conj eq_refl (conj eq_refl (proj2 Hscope Hsc)))).
    unfold gets. rewrite Hmax. unfold catch, sql_insert_rule.
    rewrite bool_decide_eq_false_2 by by (rewrite Hn; apply is_Some_None).
    assert (taken r_priority (r_id r0) (Z.of_nat (size (rules d))) (rules d) = false) as Htk.
    { apply taken_false. intros k s Hs _ Heq.
      assert (Hin : r_priority s ∈ r_priority <$> sorted_rows (rules d)).
      { apply list_elem_of_fmap_2, elem_of_sorted_rows. eauto. }
      unfold sorted_rows in Hin. rewrite (rls_dense _ _ _ (wf_rules d Hd)) in Hin.
      apply elem_of_seqZ in Hin. lia. }
    simpl in *. rewrite Htk.
    assert (rule_fk_ok d (rule_set_priority (Z.of_nat (size (rules d)))
      (rule_set_peers (selected_peers r0) (r_enabled r0) r0)) = true) as ->.
    { apply rule_fk_ok_true, Hlinks, Hl. }
    done.
Qed.

Lemma created_rule_ok d newID r :
  rule_validate r = Ok tt -> scope_exists d r -> links_exist d r ->
  rule_ok (tunnels d) (peers d) (created_rule d newID r).
Proof.
  intros Hv Hsc [Ht Hvia]. unfold created_rule. apply rule_validate_row.
  - case_decide; [by rewrite rule_set_id_shape|done].
  - case_decide; by destruct r.
  - case_decide; by destruct r.
  - case_decide; by destruct r.
Qed.

Lemma CreateRule_wf d newID r r' d' :
  wf d -> CreateRule newID r d = Ok (r', d') ->
  wf d' /\ ruleIDsByPriority d' = ruleIDsByPriority d ++ [r'.(r_id)].
Proof.
  intros Hd H. apply CreateRule_inv in H as (-> & -> & Hv & Hsc & Hl & Hn); [|done].
  destruct (insert_last_ok (tunnels d) (peers d) (rules d) _ (created_rule d newID r)
    (wf_rules d Hd) Hn eq_refl eq_refl (created_rule_ok _ _ _ Hv Hsc Hl)) as [Hok Hs].
  split; [by apply wf_set_rules|]. unfold ruleIDsByPriority, q_rules. cbn [rules set_rules].
  fold (sorted_rows (<[r_id (created_rule d newID r) := created_rule d newID r]> (rules d))).
  by rewrite Hs, fmap_app.
Qed.

(** The row [UpdateRule] writes over [old]. *)
Definition updated_rule (old r : Rule) : Rule :=
  rule_set_priority old.(r_priority) (rule_set_peers (selected_peers r) r.(r_enabled) r).

Lemma UpdateRule_inv d r d' :
  wf d -> UpdateRule r d = Ok (tt, d') <->
  exists old, rules d !! r.(r_id) = Some old /\
    d' = set_rules (<[r.(r_id) := updated_rule old r]> (rules d)) d /\
    rule_validate r = Ok tt /\ r.(r_id) <> EmptyString /\ scope_exists d r /\ links_exist d r.
Proof.
  intros Hd. unfold UpdateRule. split.
  - intros H. inv_tx. reflect_bools. rename select (validateRulePeers _ _ = _) into Hp.
    apply validateRulePeers_Ok in Hp as (-> & -> & Hp).
    rename select (sql_update_rule _ _ _ = _) into Hu. unfold sql_update_rule in Hu.
    unfold checkAffected in *. inv_tx. reflect_bools. subst. simpl in *.
    destruct (rules d !! r_id r) as [old|] eqn:Hold; [|discriminate].
    repeat case_match; try discriminate. injection Hu as <-.
    rename select (negb _ = false) into Hfk. apply negb_false_iff, rule_fk_ok_true in Hfk.
    exists old. split_and!; done.
  - intros (old & Hold & -> & Hv & Hne & Hsc & Hl). unfold mbind, tx_bind, lift at 1. rewrite Hv.
    unfold guard_tx. rewrite bool_decide_eq_false_2 by done. simpl.
    rewrite (proj2 (validateRulePeers_Ok r d _ d) (conj eq_refl (conj eq_refl Hsc))).
    unfold catch, sql_update_rule. simpl. rewrite Hold.
    rewrite (proj2 (taken_false _ _ _ _)).
    2: { intros k s Hs Hk Heq. apply Hk. eapply (rk_priority _ (wf_keyed d Hd)); eauto. }
    assert (rule_fk_ok d (rule_set_priority (r_priority old)
      (rule_set_peers (selected_peers r) (r_enabled r) r)) = true) as ->.
    { by apply rule_fk_ok_true. }
    done.
Qed.

Lemma UpdateRule_wf d r d' :
  wf d -> UpdateRule r d = Ok (tt, d') ->
  wf d' /\ ruleIDsByPriority d' = ruleIDsByPriority d.
Proof.
  intros Hd H. apply UpdateRule_inv in H as (old & Hold & -> & Hv & _ & Hsc & [Ht Hvia]); [|done].
  assert (Hok : rule_ok (tunnels d) (peers d) (updated_rule old r)) by by apply rule_validate_row.
  destruct (update_row_ok (tunnels d) (peers d) (rules d) _ _ (updated_rule old r)
    (wf_rules d Hd) Hold eq_refl eq_refl Hok) as [Hrs Hs].
  split; [by apply wf_set_rules|]. unfold ruleIDsByPriority, q_rules. cbn [rules set_rules].
  fold (sorted_rows (<[r_id r := updated_rule old r]> (rules d))). rewrite Hs.
  by eapply update_row_ids; [apply Hd| |].
Qed.
End theorems.

(** ** Properties *)

(** C7: [ReorderRules] succeeds exactly on a permutation of the current rules.
    The two-phase renumbering then never meets the unique index on
    [rules.priority]: the rules come out in the requested order, every other
    column and table is untouched and the state stays well formed.  Any other
    list is refused with [ErrNotFound] or [ErrInvalid] and changes nothing. *)
Theorem ReorderRules_correct d ids :
  wf d ->
  (ids ≡ₚ ruleIDsByPriority d /\
   exists d', run (ReorderRules ids) d = (Ok tt, d') /\ wf d' /\
     ruleIDsByPriority d' = ids /\
     (forall id, exists n, rules d' !! id = rule_set_priority n <$> rules d !! id) /\
     d' = set_rules (rules d') d)
  \/
  (~ ids ≡ₚ ruleIDsByPriority d /\
   exists k l, run (ReorderRules ids) d = (fail k l, d) /\ k ∈ [ErrNotFound; ErrInvalid]).
Proof.
  intros Hd. pose proof (NoDup_ruleIDs d (wf_keyed d Hd)) as Hnd.
  destruct (sameSet (ruleIDsByPriority d) ids) as [[]|e] eqn:Hs.
  - apply sameSet_Permutation in Hs; [|done]. symmetry in Hs.
    destruct (ReorderRules_run d ids Hd Hs) as (Hrun & Hwf & Hids).
    left. split; [done|]. eexists. split_and!; try done.
    intros id. apply renumbered_lookup. by rewrite Hs.
  - right. assert (Hne : sameSet (ruleIDsByPriority d) ids <> Ok tt) by by rewrite Hs.
    split; [intros Hp; apply Hne; by apply sameSet_Permutation|].
    apply sameSet_Err in Hne as (k & l & Hf & Hk). exists k, l. split; [|done].
    unfold run, ReorderRules, mbind, tx_bind, gets, lift. by rewrite Hf.
Qed.

Example ReorderRules_correct_witness :
  exists d', run (ReorderRules ["r2"; "r0"; "r1"]) sample_db = (Ok tt, d') /\
             ruleIDsByPriority d' = ["r2"; "r0"; "r1"].
Proof.
  destruct (ReorderRules_correct sample_db ["r2"; "r0"; "r1"] sample_wf)
    as [(_ & d' & Hr & _ & Hi & _)|(Hn & _)].
  - exists d'. exact (conj Hr Hi).
  - exfalso. apply Hn.
    replace (ruleIDsByPriority sample_db) with ["r0"; "r1"; "r2"] by by vm_compute.
    symmetry. apply (Permutation_app_comm ["r0"; "r1"] ["r2"]).
Defined.

(** [DeleteRule] of an existing rule removes exactly that rule and closes
    the gap: the others keep their order and every other column and are
    numbered 0, 1, ... again.  An unknown identifier gives [ErrNotFound] and
    changes nothing. *)
Theorem DeleteRule_correct d id :
  wf d ->
  match rules d !! id with
  | Some _ => exists d', run (DeleteRule id) d = (Ok tt, d') /\ wf d' /\
      ruleIDsByPriority d' = filter (fun x => x <> id) (ruleIDsByPriority d) /\
      rules d' !! id = None /\
      (forall x, x <> id -> exists n, rules d' !! x = rule_set_priority n <$> rules d !! x) /\
      d' = set_rules (rules d') d
  | None => run (DeleteRule id) d = (fail ErrNotFound "rule", d)
  end.
Proof.
  intros Hd. destruct (rules d !! id) as [r|] eqn:Hr.
  - destruct (DeleteRule_run d id Hd) as (Hrun & Hwf & Hids); [by exists r|].
    eexists. split_and!; try done.
    + simpl. destruct (renumbered_lookup
        (filter (fun x => x <> id) (ruleIDsByPriority d)) (delete id (rules d)) id) as [n ->].
      * apply NoDup_filter, NoDup_ruleIDs, wf_keyed, Hd.
      * by rewrite lookup_delete_eq.
    + intros x Hx. simpl.
      rewrite <- (lookup_delete_ne (rules d) id x) by done. apply renumbered_lookup.
      apply NoDup_filter, NoDup_ruleIDs, wf_keyed, Hd.
  - unfold run, DeleteRule, mbind, tx_bind, sql_delete_rule. by rewrite Hr.
Qed.

Example DeleteRule_correct_witness :
  exists d', run (DeleteRule "r1") sample_db = (Ok tt, d') /\
             ruleIDsByPriority d' = ["r0"; "r2"].
Proof.
  destruct (DeleteRule_correct sample_db "r1" sample_wf) as (d' & Hr & _ & Hi & _).
  exists d'. split; [done|]. rewrite Hi. by vm_compute.
Defined.

(** [CreateRule] accepts a rule exactly when it validates, its links name
    stored tunnels, every selected peer exists and its identifier is free; it
    is then stored as the last rule with its peer list deduplicated, and the
    state stays well formed. *)
Theorem CreateRule_correct d newID r r' d' :
  wf d ->
  (run (CreateRule newID r) d = (Ok r', d') <->
   r' = created_rule d newID r /\ d' = set_rules (<[r'.(r_id) := r']> (rules d)) d /\
   rule_validate r = Ok tt /\ scope_exists d r /\ links_exist d r /\
   rules d !! r'.(r_id) = None) /\
  (run (CreateRule newID r) d = (Ok r', d') ->
   wf d' /\ ruleIDsByPriority d' = ruleIDsByPriority d ++ [r'.(r_id)]).
Proof.
  intros Hd. rewrite !run_Ok. split; [by apply CreateRule_inv|by apply CreateRule_wf].
Qed.

Definition sample_new_rule : Rule :=
  MkRule "" "new" ActionTunnel "wg" "" 77 true ["ru"] [] [] [] ScopeSelected
    ["bob"; "alice"; "bob"] false.

Example CreateRule_correct_witness :
  let res := run (CreateRule "r3" sample_new_rule) sample_db in
  res.1 = Ok (created_rule sample_db "r3" sample_new_rule) /\
  wf res.2 /\ ruleIDsByPriority res.2 = ["r0"; "r1"; "r2"; "r3"] /\
  r_peers <$> rules res.2 !! "r3" = Some ["bob"; "alice"].
Proof.
  intros res. assert (H : res.1 = Ok (created_rule sample_db "r3" sample_new_rule))
    by by vm_compute.
  split; [done|].
  destruct (proj2 (CreateRule_correct sample_db "r3" sample_new_rule _ _ sample_wf)
    (run_fst _ _ _ H)) as [Hwf Hi].
  split; [done|]. split; by vm_compute.
Defined.

(** [UpdateRule] accepts a rule exactly when it validates, names a stored
    rule, and its links and selected peers exist; it rewrites that row alone,
    keeping its place in the order, and the state stays well formed. *)
Theorem UpdateRule_correct d r d' :
  wf d ->
  (run (UpdateRule r) d = (Ok tt, d') <->
   exists old, rules d !! r.(r_id) = Some old /\
     d' = set_rules (<[r.(r_id) := updated_rule old r]> (rules d)) d /\
     rule_validate r = Ok tt /\ r.(r_id) <> EmptyString /\ scope_exists d r /\ links_exist d r) /\
  (run (UpdateRule r) d = (Ok tt, d') ->
   wf d' /\ ruleIDsByPriority d' = ruleIDsByPriority d).
Proof.
  intros Hd. rewrite !run_Ok. split; [by apply UpdateRule_inv|by apply UpdateRule_wf].
Qed.

Example UpdateRule_correct_witness :
  let res := run (UpdateRule (rule_set_id "r1" sample_new_rule)) sample_db in
  res.1 = Ok tt /\ wf res.2 /\ ruleIDsByPriority res.2 = ruleIDsByPriority sample_db /\
  r_priority <$> rules res.2 !! "r1" = Some 1%Z.
Proof.
  intros res. assert (H : res.1 = Ok tt) by by vm_compute.
  split; [done|].
  destruct (proj2 (UpdateRule_correct sample_db (rule_set_id "r1" sample_new_rule) _ sample_wf)
    (run_fst _ _ _ H)) as [Hwf Hi].
  split; [done|]. split; [exact Hi|]. by vm_compute.
Defined.
