(* ===== verification/TunnelsStore.v ===== *)
(** * Tunnels: [internal/store/tunnels.go], [tunnels_warp.go], [tunnel_checks.go]

    Creation, update and deletion of tunnels, the built-in pool the daemon
    keeps ([EnsureBuiltinPool]), WARP registrations and the saved results of
    tunnel checks.  [newID] and [time.Now] are arguments of the handlers that
    call them. *)

From S2P Require Import Prelude GoStd Model Db Wf Sample RulesStore.

(** ** Handlers *)

(** The unique-violation branch shared by the writers of [tunnels]. *)
Definition tunnelWriteErr (e : error) : error :=
  if isUniqueViolation e then MkError ErrInvalid "tunnel name taken" else e.

(** Empty identifier and creation time are filled in. *)
Definition tunnel_fill (newID : string) (now : Z) (t : Tunnel) : Tunnel :=
  MkTunnel (if decide (t.(t_id) = EmptyString) then newID else t.(t_id))
    t.(t_name) t.(t_type) t.(t_source) t.(t_raw) t.(t_parsed) t.(t_enabled)
    (if IsZero t.(t_created) then now else t.(t_created))
    t.(t_pool) t.(t_pool_updated) t.(t_builtin) t.(t_country).

(** [CreateTunnel] *)
Definition CreateTunnel (newID : string) (now : Z) (t : Tunnel) : Tx Tunnel :=
  _ ← lift (tunnel_validate t);
  let t := tunnel_fill newID now t in
  _ ← catch (sql_insert_tunnel t) tunnelWriteErr;
  mret t.

(** [Tunnel] and [Tunnels] *)
Definition GetTunnel (id : string) : Tx Tunnel := fun d =>
  match tunnels d !! id with
  | Some t => Ok (t, d)
  | None => fail ErrNotFound "tunnel"
  end.
Definition Tunnels : Tx (list Tunnel) := gets q_tunnels.

(** The SET list of [UpdateTunnel]: created_at, builtin and country stay. *)
Definition tunnel_overwrite (t old : Tunnel) : Tunnel :=
  MkTunnel old.(t_id) t.(t_name) t.(t_type) t.(t_source) t.(t_raw) t.(t_parsed) t.(t_enabled)
    old.(t_created) t.(t_pool) (stored_opt_time t.(t_pool_updated)) old.(t_builtin) old.(t_country).

(** [UpdateTunnel] *)
Definition UpdateTunnel (t : Tunnel) : Tx unit :=
  _ ← lift (tunnel_validate t);
  _ ← guard_tx (bool_decide (t.(t_id) = EmptyString)) ErrInvalid "updated tunnel without id";
  n ← catch (sql_update_tunnel t.(t_id) (fun _ => true) (tunnel_overwrite t)) tunnelWriteErr;
  checkAffected n "tunnel".

(** [ruleNamesByTunnel] *)
Definition ruleNamesByTunnel (d : db) (id : string) : list string :=
  r_name <$> filter (fun r => rule_refs id r = true) (q_rules d).

(** The clients whose egress is the tunnel. *)
Definition clientsByTunnel (d : db) (id : string) : list string :=
  p_name <$> filter (fun p => peer_refs id p = true) (q_peers d).

(** [DeleteTunnel] *)
Definition DeleteTunnel (id : string) : Tx unit :=
  t ← GetTunnel id;
  _ ← guard_tx t.(t_builtin) ErrInUse "builtin pool";
  clients ← gets (fun d => clientsByTunnel d id);
  _ ← guard_tx (bool_decide (clients <> [])) ErrInUse "tunnel selected by clients";
  names ← gets (fun d => ruleNamesByTunnel d id);
  _ ← guard_tx (bool_decide (names <> [])) ErrInUse "tunnel referenced by rules";
  n ← sql_delete_tunnel id;
  checkAffected n "tunnel".

(** [UpdateTunnelPool]: only the servers and their time, and only of a pool. *)
Definition pool_overwrite (servers : list PoolServer) (at_ : Z) (old : Tunnel) : Tunnel :=
  MkTunnel old.(t_id) old.(t_name) old.(t_type) old.(t_source) old.(t_raw) old.(t_parsed)
    old.(t_enabled) old.(t_created) servers (stored_opt_time at_) old.(t_builtin) old.(t_country).
Definition UpdateTunnelPool (id : string) (servers : list PoolServer) (at_ : Z) : Tx unit :=
  n ← sql_update_tunnel id (fun t => bool_decide (t.(t_source) = SourcePool))
        (pool_overwrite servers at_);
  checkAffected n "pool tunnel".

(** ** The built-in pool *)
Definition builtinPoolName : string := "Общий пул".

Record DetachedRule := MkDetached { dr_name : string; dr_disabled : bool }.
Record BuiltinPoolResult := MkBuiltinResult {
  bp_created : bool;
  bp_removed : list string;
  bp_detached : list DetachedRule
}.

(** [ruleRef], collected by [ruleRefsForTunnel] before any write. *)
Record ruleRef := MkRef { ref_id : string; ref_name : string; ref_primary : bool }.
Definition ruleRefsForTunnel (d : db) (id : string) : list ruleRef :=
  (fun r => MkRef r.(r_id) r.(r_name) (bool_decide (r.(r_tunnel) = id)))
    <$> filter (fun r => rule_refs id r = true) (q_rules d).

(** The two UPDATEs of [detachRulesFromTunnel]. *)
Definition detach_primary (id : string) (r : Rule) : Rule :=
  rule_set_links EmptyString (if decide (r.(r_via) = id) then EmptyString else r.(r_via)) false r.
Definition detach_via (r : Rule) : Rule := rule_set_links r.(r_tunnel) EmptyString r.(r_enabled) r.

Definition detach_one (id : string) (ref : ruleRef) : Tx unit :=
  if ref.(ref_primary)
  then _ ← sql_update_rule ref.(ref_id) (detach_primary id); mret tt
  else _ ← sql_update_rule ref.(ref_id) detach_via; mret tt.

Definition detachRulesFromTunnel (id : string) : Tx (list DetachedRule) :=
  refs ← gets (fun d => ruleRefsForTunnel d id);
  _ ← forM_ refs (detach_one id);
  mret ((fun ref => MkDetached ref.(ref_name) ref.(ref_primary)) <$> refs).

(** [builtinPools] *)
Definition is_builtin_pool (t : Tunnel) : Prop := t.(t_builtin) = true /\ t.(t_source) = SourcePool.
#[export] Instance is_builtin_pool_dec t : Decision (is_builtin_pool t).
Proof. unfold is_builtin_pool. apply _. Defined.
Definition builtinPools (d : db) : list Tunnel := filter is_builtin_pool (q_tunnels d).

(** The loop of [collapseBuiltinPools] over [pools[1:]]. *)
Fixpoint collapse_loop (pools : list Tunnel) : Tx (list string * list DetachedRule) :=
  match pools with
  | [] => mret ([], [])
  | t :: pools =>
      det ← detachRulesFromTunnel t.(t_id);
      _ ← sql_delete_tunnel t.(t_id);
      out ← collapse_loop pools;
      mret (t.(t_name) :: out.1, det ++ out.2)
  end.

Definition set_country (c : string) (t : Tunnel) : Tunnel :=
  MkTunnel t.(t_id) t.(t_name) t.(t_type) t.(t_source) t.(t_raw) t.(t_parsed) t.(t_enabled)
    t.(t_created) t.(t_pool) t.(t_pool_updated) t.(t_builtin) c.
Definition set_name (n : string) (t : Tunnel) : Tunnel :=
  MkTunnel t.(t_id) n t.(t_type) t.(t_source) t.(t_raw) t.(t_parsed) t.(t_enabled)
    t.(t_created) t.(t_pool) t.(t_pool_updated) t.(t_builtin) t.(t_country).

(** [if err != nil && !isUniqueViolation(err) { return err }]: a statement
    refused by UNIQUE is skipped. *)
Definition ignore_unique (m : Tx bool) : Tx unit := fun d =>
  match m d with
  | Ok (_, d') => Ok (tt, d')
  | Err e => if isUniqueViolation e then Ok (tt, d) else Err e
  end.

(** [collapseBuiltinPools] *)
Definition collapseBuiltinPools (survivor : Tunnel) (extra : list Tunnel) : Tx BuiltinPoolResult :=
  out ← collapse_loop extra;
  _ ← (if decide (survivor.(t_country) <> EmptyString)
       then _ ← sql_update_tunnel survivor.(t_id) (fun _ => true) (set_country EmptyString); mret tt
       else mret tt);
  _ ← (if decide (out.1 <> [] /\ survivor.(t_name) <> builtinPoolName)
       then ignore_unique
              (sql_update_tunnel survivor.(t_id) (fun _ => true) (set_name builtinPoolName))
       else mret tt);
  mret (MkBuiltinResult false out.1 out.2).

Definition new_builtin_pool (newID : string) (now : Z) (catalogURL : string) (typ : TunnelType)
  : Tunnel :=
  MkTunnel newID builtinPoolName typ SourcePool catalogURL EmptyString false now [] zero_time
    true EmptyString.

(** [EnsureBuiltinPool] *)
Definition EnsureBuiltinPool (newID : string) (now : Z) (catalogURL : string) (typ : TunnelType)
  : Tx BuiltinPoolResult :=
  _ ← guard_tx (bool_decide (catalogURL = EmptyString)) ErrInvalid "empty catalog address";
  pools ← gets builtinPools;
  match pools with
  | [] =>
      let t := new_builtin_pool newID now catalogURL typ in
      _ ← lift (tunnel_validate t);
      _ ← catch (sql_insert_tunnel t) tunnelWriteErr;
      mret (MkBuiltinResult true [] [])
  | survivor :: extra => collapseBuiltinPools survivor extra
  end.

(** ** WARP registrations *)
Record WARPRegistration := MkReg { reg_device : string; reg_token : string; reg_created : Z }.

Definition sql_insert_warp (id : string) (w : WarpRow) : Tx unit := fun d =>
  if bool_decide (is_Some (warp_registrations d !! id))
  then fail (ErrUnique "warp_registrations.tunnel_id") "insert warp registration"
  else if negb (tunnel_exists d id) then fail ErrForeignKey "insert warp registration"
  else Ok (tt, set_warp (<[id := w]> (warp_registrations d)) d).

(** [CreateWARPTunnel]: tunnel and registration in one transaction. *)
Definition CreateWARPTunnel (newID : string) (now : Z) (t : Tunnel) (reg : WARPRegistration)
  : Tx Tunnel :=
  _ ← guard_tx (bool_decide (t.(t_source) <> SourceWARP)) ErrInvalid "not a WARP tunnel";
  _ ← guard_tx (bool_decide (reg.(reg_device) = EmptyString) ||
                bool_decide (reg.(reg_token) = EmptyString)) ErrInvalid "empty registration";
  _ ← lift (tunnel_validate t);
  let t := tunnel_fill newID now t in
  let created := if IsZero reg.(reg_created) then t.(t_created) else reg.(reg_created) in
  _ ← catch (sql_insert_tunnel t) tunnelWriteErr;
  _ ← sql_insert_warp t.(t_id) (MkWarp reg.(reg_device) reg.(reg_token) (Unix created));
  mret t.

(** [WARPRegistration]: absence is not an error. *)
Definition GetWARPRegistration (d : db) (id : string) : option WARPRegistration :=
  (fun w => MkReg w.(w_device) w.(w_token) (time_of_unix w.(w_created)))
    <$> warp_registrations d !! id.

(** ** Saved checks *)
Record TunnelCheck := MkTunnelCheck {
  tc_status : string; tc_checked_at : Z; tc_ok_at : Z; tc_notified : string }.

(** The upsert of [SaveTunnelCheck]: [ok] is 0 when the tunnel did not answer. *)
Definition check_upsert (status : string) (at_ ok : Z) (old : option CheckRow) : CheckRow :=
  match old with
  | None => MkCheck status at_ ok EmptyString
  | Some c => MkCheck status at_ (if (0 <? ok)%Z then ok else c.(c_ok_at)) c.(c_notified)
  end.

Definition sql_upsert_check (id status : string) (at_ ok : Z) : Tx unit := fun d =>
  if tunnel_exists d id
  then Ok (tt, set_checks (<[id := check_upsert status at_ ok (tunnel_checks d !! id)]>
             (tunnel_checks d)) d)
  else fail ErrForeignKey "save check".

(** [SaveTunnelCheck] *)
Definition SaveTunnelCheck (id status : string) (at_ okAt : Z) : Tx unit :=
  _ ← guard_tx (bool_decide (id = EmptyString) || bool_decide (status = EmptyString))
        ErrInvalid "check without id or status";
  sql_upsert_check id status (Unix at_) (if IsZero okAt then 0%Z else Unix okAt).

(** [TunnelChecks]: a row read back; no positive mark reads as the zero time. *)
Definition check_read (c : CheckRow) : TunnelCheck :=
  MkTunnelCheck c.(c_status) (time_of_unix c.(c_at))
    (if (0 <? c.(c_ok_at))%Z then time_of_unix c.(c_ok_at) else zero_time) c.(c_notified).
Definition TunnelChecks (d : db) : gmap string TunnelCheck := check_read <$> tunnel_checks d.

(** [SetNotifiedStatus] *)
Definition SetNotifiedStatus (id status : string) : Tx unit := fun d =>
  match tunnel_checks d !! id with
  | Some c => Ok (tt, set_checks (<[id := MkCheck c.(c_status) c.(c_at) c.(c_ok_at) status]>
                        (tunnel_checks d)) d)
  | None => fail ErrNotFound "tunnel not checked yet"
  end.

(** ** The invariant under writes to [tunnels] *)
Section frame.
Implicit Types (d : db) (t : Tunnel).

Lemma rule_ok_mono T T' P r :
  (forall id, is_Some (T !! id) -> is_Some (T' !! id)) -> rule_ok T P r -> rule_ok T' P r.
Proof. intros Hsub []; split; naive_solver. Qed.

Lemma peers_ok_mono T T' P :
  (forall id, is_Some (T !! id) -> is_Some (T' !! id)) -> peers_ok T P -> peers_ok T' P.
Proof. intros Hsub []; split; naive_solver. Qed.

(** A row inserted or rewritten under its own identifier and a free name. *)
Lemma wf_set_tunnel d id t :
  wf d -> t.(t_id) = id -> taken t_name id t.(t_name) (tunnels d) = false ->
  wf (set_tunnels (<[id := t]> (tunnels d)) d).
Proof.
  intros [[Hid Hname] [Hk Hdn Hrow] Hp Hc Hch Hw] Ht Hfree. rewrite taken_false in Hfree.
  assert (Hsub : forall k, is_Some (tunnels d !! k) -> is_Some (<[id := t]> (tunnels d) !! k)).
  { intros k Hs. apply lookup_insert_is_Some'. by right. }
  split; simpl; try done.
  - split.
    + intros k s [[<- <-]|[_ ?]]%lookup_insert_Some; [done|eauto].
    + intros i j s u [[<- <-]|[? Hs]]%lookup_insert_Some [[<- <-]|[? Hu]]%lookup_insert_Some He;
        [done| | |eauto]; exfalso; by eapply Hfree.
  - split; [done|done|]. intros k r Hr. eapply rule_ok_mono; eauto.
  - by eapply peers_ok_mono.
  - intros k c Hk'. eauto.
  - intros k c Hk'. eauto.
Qed.

Lemma not_referenced d id :
  tunnel_referenced d id = false <->
  (forall k r, rules d !! k = Some r -> rule_refs id r = false) /\
  (forall k p, peers d !! k = Some p -> p.(p_egress) <> Some id).
Proof.
  unfold tunnel_referenced. rewrite orb_false_iff, !map_any_false.
  unfold peer_refs. by setoid_rewrite bool_decide_eq_false.
Qed.

Lemma rule_refs_false id r :
  rule_refs id r = false <->
  (r.(r_tunnel) = id -> id = EmptyString) /\ (r.(r_via) = id -> id = EmptyString).
Proof.
  unfold rule_refs. rewrite andb_false_iff, orb_false_iff, !bool_decide_eq_false.
  destruct (decide (id = EmptyString)); naive_solver.
Qed.

Lemma wf_delete_tunnel d id :
  wf d -> tunnel_referenced d id = false ->
  wf (set_warp (delete id (warp_registrations d))
       (set_checks (delete id (tunnel_checks d)) (set_tunnels (delete id (tunnels d)) d))).
Proof.
  intros [[Hid Hname] [Hk Hdn Hrow] Hp Hc Hch Hw] [Hr Hpe]%not_referenced.
  assert (Hdel : forall k, k <> id -> is_Some (tunnels d !! k) ->
                 is_Some (delete id (tunnels d) !! k)).
  { intros k Hne Hs. by rewrite lookup_delete_ne. }
  split; simpl; try done.
  - split; [intros k s [_ ?]%lookup_delete_Some; eauto|].
    intros i j s u [_ ?]%lookup_delete_Some [_ ?]%lookup_delete_Some. eauto.
  - split; [done|done|]. intros k r Hk'. specialize (Hr k r Hk').
    apply rule_refs_false in Hr as [Ht Hv].
    destruct (Hrow k r Hk') as [? Htu Hvi]. split; try done.
    + destruct Htu as [?|?]; [by left|]. destruct (decide (r_tunnel r = id)) as [He|]; [|auto].
      left. rewrite He. auto.
    + destruct Hvi as [?|?]; [by left|]. destruct (decide (r_via r = id)) as [He|]; [|auto].
      left. rewrite He. auto.
  - destruct Hp as [? ? ? He]. split; try done. intros k p u Hk' Hu. apply Hdel; [|eauto].
    intros ->. by apply (Hpe k p Hk').
  - intros k c [Hne Hk']%lookup_delete_Some. eauto.
  - intros k c [Hne Hk']%lookup_delete_Some. eauto.
Qed.

Lemma sql_insert_tunnel_Ok d t d' :
  sql_insert_tunnel t d = Ok (tt, d') <->
  tunnels d !! t.(t_id) = None /\ taken t_name t.(t_id) t.(t_name) (tunnels d) = false /\
  d' = set_tunnels (<[t.(t_id) := tunnel_row t]> (tunnels d)) d.
Proof.
  unfold sql_insert_tunnel, tunnel_exists. case_bool_decide as Hs.
  - split; [done|]. intros (Hn & _). rewrite Hn in Hs. by apply is_Some_None in Hs.
  - apply eq_None_not_Some in Hs. rewrite Hs. destruct (taken _ _ _ _); naive_solver.
Qed.

Lemma sql_update_tunnel_Ok d id wh f b d' :
  sql_update_tunnel id wh f d = Ok (b, d') <->
  (b = true /\ exists t, tunnels d !! id = Some t /\ wh t = true /\
     taken t_name id (f t).(t_name) (tunnels d) = false /\
     d' = set_tunnels (<[id := f t]> (tunnels d)) d) \/
  (b = false /\ d' = d /\ forall t, tunnels d !! id = Some t -> wh t = false).
Proof.
  unfold sql_update_tunnel. destruct (tunnels d !! id) as [t|] eqn:Ht; [|naive_solver].
  destruct (wh t) eqn:Hw.
  2: { split; [intros [= <- <-]; right; split_and!; [done..|by intros u [= <-]]|].
       intros [(_ & u & [= <-] & ? & _)|(-> & -> & _)]; [congruence|done]. }
  destruct (taken _ _ _ _) eqn:Htk.
  - split; [done|]. intros [(-> & u & [= <-] & _ & Hf & _)|(_ & _ & Hall)]; [congruence|].
    specialize (Hall t eq_refl). congruence.
  - split.
    + intros [= <- <-]. left. split; [done|]. by exists t.
    + intros [(-> & u & [= <-] & _ & _ & ->)|(_ & _ & Hall)]; [done|].
      specialize (Hall t eq_refl). congruence.
Qed.

(** Every successful write to [tunnels] keeps the invariant. *)
Lemma sql_insert_tunnel_wf d t d' :
  wf d -> sql_insert_tunnel t d = Ok (tt, d') -> wf d'.
Proof. intros Hd (_ & Hf & ->)%sql_insert_tunnel_Ok. by apply wf_set_tunnel. Qed.

Lemma sql_update_tunnel_wf d id wh f b d' :
  wf d -> (forall t, tunnels d !! id = Some t -> (f t).(t_id) = t.(t_id)) ->
  sql_update_tunnel id wh f d = Ok (b, d') -> wf d'.
Proof.
  intros Hd Hf [(_ & t & Ht & _ & Hfree & ->)|(_ & -> & _)]%sql_update_tunnel_Ok; [|done].
  apply wf_set_tunnel; [done| |done]. rewrite Hf by done. by apply (to_id _ (wf_tunnels d Hd)).
Qed.

Lemma sql_delete_tunnel_Ok d id b d' :
  sql_delete_tunnel id d = Ok (b, d') ->
  b = bool_decide (is_Some (tunnels d !! id)) /\
  tunnels d' = delete id (tunnels d) /\ rules d' = rules d /\ peers d' = peers d /\
  (wf d -> wf d').
Proof.
  unfold sql_delete_tunnel. destruct (tunnels d !! id) as [t|] eqn:Ht.
  - destruct (tunnel_referenced d id) eqn:Hr; [done|]. intros [= <- <-].
    split_and!; try done. intros Hd. by apply wf_delete_tunnel.
  - intros [= <- <-]. rewrite delete_id by done. by split_and!.
Qed.
End frame.
#[export] Hint Resolve sql_insert_tunnel_wf : razdacha.

(** ** Detaching rules from a tunnel *)
Section detach.
Implicit Types (d : db) (r : Rule).

(** What becomes of a rule when tunnel [id] is withdrawn from it. *)
Definition detached (id : string) r : Rule :=
  if rule_refs id r
  then if decide (r.(r_tunnel) = id) then detach_primary id r else detach_via r
  else r.

Lemma detached_ok T P id r : rule_ok T P r -> rule_ok T P (detached id r).
Proof.
  intros Hr. unfold detached, detach_primary, detach_via. repeat case_match; [..|done];
    destruct Hr; split; simpl; try done; try (by left); naive_solver.
Qed.

Lemma detached_refs id r : rule_refs id (detached id r) = false.
Proof.
  unfold detached. destruct (rule_refs id r) eqn:Hr; [|done].
  apply rule_refs_false. unfold detach_primary, detach_via.
  repeat case_decide; simpl; split; intros; by simplify_eq.
Qed.

Lemma detached_same id r :
  (detached id r).(r_id) = r.(r_id) /\ (detached id r).(r_priority) = r.(r_priority).
Proof. unfold detached. by repeat case_match. Qed.

Definition mkref (id : string) r : ruleRef :=
  MkRef r.(r_id) r.(r_name) (bool_decide (r.(r_tunnel) = id)).

Lemma detach_one_run d id k r :
  wf d -> rules d !! k = Some r -> rule_refs id r = true ->
  let d' := set_rules (<[k := detached id r]> (rules d)) d in
  detach_one id (mkref id r) d = Ok (tt, d') /\ wf d' /\ ruleIDsByPriority d' = ruleIDsByPriority d.
Proof.
  intros Hd Hr Href d'. pose proof (detached_ok _ _ id r (rls_row _ _ _ (wf_rules d Hd) _ _ Hr)) as Hok.
  assert (r_id r = k) as <- by by apply (rk_id _ (wf_keyed d Hd)).
  unfold detach_one, mkref. simpl. unfold d', detached in *. rewrite Href in *.
  destruct (decide (r_tunnel r = id)) as [Ht|Ht];
    [rewrite bool_decide_eq_true_2 by done|rewrite bool_decide_eq_false_2 by done];
    unfold mbind, tx_bind.
  - destruct (sql_update_rule_row d (r_id r) r (detach_primary id)) as (-> & ? & ?); done.
  - destruct (sql_update_rule_row d (r_id r) r detach_via) as (-> & ? & ?); done.
Qed.

Lemma detach_loop d id rs :
  wf d -> NoDup (r_id <$> rs) ->
  (forall r, r ∈ rs -> rules d !! r.(r_id) = Some r /\ rule_refs id r = true) ->
  exists m, forM_ (mkref id <$> rs) (detach_one id) d = Ok (tt, set_rules m d) /\
    wf (set_rules m d) /\ ruleIDsByPriority (set_rules m d) = ruleIDsByPriority d /\
    forall k, m !! k = (if decide (k ∈ r_id <$> rs) then detached id <$> rules d !! k
                        else rules d !! k).
Proof.
  revert d. induction rs as [|r rs IH]; intros d Hd Hnd Hin.
  { exists (rules d). by destruct d. }
  rewrite fmap_cons in *. apply NoDup_cons in Hnd as [Hni Hnd].
  destruct (Hin r) as [Hr Href]; [apply list_elem_of_here|].
  destruct (detach_one_run d id _ r Hd Hr Href) as (H1 & Hwf & Ho).
  set (d1 := set_rules _ d) in *. rewrite forM_cons. unfold mbind, tx_bind. rewrite H1.
  destruct (IH d1) as (m & Hm & Hwfm & Hom & Hl); [done|done| |].
  { intros s Hs. destruct (Hin s) as [Hls ?]; [by apply list_elem_of_further|].
    split; [|done]. simpl. rewrite lookup_insert_ne; [done|]. intros He. apply Hni.
    rewrite He. by apply list_elem_of_fmap_2. }
  exists m. split_and!; [done|done|by rewrite <- Ho|].
  intros k. rewrite Hl. simpl. destruct (decide (k = r_id r)) as [->|Hne].
  - rewrite (decide_False (P := r_id r ∈ r_id <$> rs)) by done.
    rewrite decide_True by apply list_elem_of_here. by rewrite lookup_insert_eq, Hr.
  - rewrite lookup_insert_ne by done.
    destruct (decide (k ∈ r_id <$> rs)); [rewrite decide_True by by right|rewrite decide_False]; set_solver.
Qed.

(** The rules of the database are detached, one by one, in order. *)
Lemma detachRules_run d id :
  wf d ->
  let d' := set_rules (detached id <$> rules d) d in
  detachRulesFromTunnel id d =
    Ok ((fun r => MkDetached r.(r_name) (bool_decide (r.(r_tunnel) = id)))
          <$> filter (fun r => rule_refs id r = true) (q_rules d), d') /\
  wf d' /\ ruleIDsByPriority d' = ruleIDsByPriority d /\
  forall k r, rules d' !! k = Some r -> rule_refs id r = false.
Proof.
  intros Hd d'. pose proof (wf_keyed d Hd) as Hk.
  set (rs := filter (fun r => rule_refs id r = true) (q_rules d)).
  assert (Hrs : forall r, r ∈ rs <-> rules d !! r.(r_id) = Some r /\ rule_refs id r = true).
  { intros r. unfold rs. rewrite list_elem_of_filter, elem_of_q_rules. split.
    - intros [? [k Hr]]. by rewrite (rk_id _ Hk _ _ Hr).
    - intros [? ?]. eauto. }
  destruct (detach_loop d id rs) as (m & Hm & Hwf & Ho & Hl); [done| |by intros; apply Hrs|].
  { unfold rs. eapply sublist_NoDup; [by apply NoDup_ruleIDs|].
    apply fmap_sublist, sublist_filter. }
  assert (set_rules m d = d') as He.
  { unfold d'. f_equal. apply map_eq. intros k. rewrite Hl, lookup_fmap.
    case_decide as Hin; [done|]. destruct (rules d !! k) as [r|] eqn:Hr; [|done]. simpl. f_equal.
    unfold detached. destruct (rule_refs id r) eqn:Href; [|done]. exfalso. apply Hin.
    rewrite <- (rk_id _ Hk _ _ Hr). apply list_elem_of_fmap_2, Hrs.
    by rewrite (rk_id _ Hk _ _ Hr). }
  rewrite He in *. split_and!; [|done|done|].
  - unfold detachRulesFromTunnel, mbind, tx_bind, gets.
    change (ruleRefsForTunnel d id) with (mkref id <$> rs). rewrite Hm. unfold mret, tx_ret.
    by rewrite <- list_fmap_compose.
  - intros k r. simpl. rewrite lookup_fmap. intros (s & _ & ->)%fmap_Some. apply detached_refs.
Qed.
End detach.

(** ** Collapsing built-in pools *)
Section collapse.
Implicit Types (d : db) (r : Rule) (t : Tunnel).

Definition detach_all (ids : list string) r : Rule := fold_left (fun r id => detached id r) ids r.

(** No client has chosen one of the tunnels as its egress. *)
Definition no_egress d (ids : list string) : Prop :=
  forall (k : string) p (u : string), peers d !! k = Some p -> p.(p_egress) = Some u -> u ∉ ids.

Lemma delete_detached d id t :
  wf d -> tunnels d !! id = Some t -> (forall k r, rules d !! k = Some r -> rule_refs id r = false) ->
  is_ok (sql_delete_tunnel id d) = true <-> no_egress d [id].
Proof.
  intros Hd Ht Hr. unfold sql_delete_tunnel. rewrite Ht.
  destruct (tunnel_referenced d id) eqn:Href.
  - split; [done|]. intros Hn. exfalso. apply not_false_iff_true in Href. apply Href.
    apply not_referenced. split; [done|]. intros k p Hp He.
    specialize (Hn k p id Hp He). set_solver.
  - split; [|done]. intros _ k p u Hp He ->%list_elem_of_singleton.
    apply not_referenced in Href as [_ Hpe]. by eapply Hpe.
Qed.

Lemma collapse_run pools d :
  wf d -> NoDup (t_id <$> pools) -> (forall t, t ∈ pools -> tunnels d !! t.(t_id) = Some t) ->
  (is_ok (collapse_loop pools d) = true <-> no_egress d (t_id <$> pools)) /\
  forall out d', collapse_loop pools d = Ok (out, d') ->
    wf d' /\ out.1 = t_name <$> pools /\
    (forall k, tunnels d' !! k = if decide (k ∈ t_id <$> pools) then None else tunnels d !! k) /\
    rules d' = detach_all (t_id <$> pools) <$> rules d /\ peers d' = peers d /\
    ruleIDsByPriority d' = ruleIDsByPriority d.
Proof.
  revert d. induction pools as [|t pools IH]; intros d Hd Hnd Hin.
  { split; [split; [|done]; intros _ k p u _ _; set_solver|]. intros out d' [= <- <-].
    split_and!; try done. by rewrite map_fmap_id. }
  rewrite fmap_cons in *. apply NoDup_cons in Hnd as [Hni Hnd].
  destruct (detachRules_run d (t_id t) Hd) as (H1 & Hwf1 & Ho1 & Hnr).
  set (d1 := set_rules _ d) in *.
  assert (Ht : tunnels d1 !! t_id t = Some t) by (apply Hin, list_elem_of_here).
  pose proof (delete_detached d1 _ t Hwf1 Ht Hnr) as Hdel.
  cbn [collapse_loop]. unfold mbind, tx_bind. rewrite H1.
  destruct (sql_delete_tunnel (t_id t) d1) as [[b d2]|e] eqn:H2.
  2: { split; [split; [done|]|done]. intros Hn. cbn in Hdel.
       assert (no_egress d1 [t_id t]) as Hc%Hdel; [|done].
       intros k p u Hp He ->%list_elem_of_singleton.
       specialize (Hn k p _ Hp He). apply Hn, list_elem_of_here. }
  destruct (sql_delete_tunnel_Ok _ _ _ _ H2) as (_ & Ht2 & Hr2 & Hp2 & Hwf2).
  specialize (Hwf2 Hwf1).
  assert (Hin2 : forall s, s ∈ pools -> tunnels d2 !! t_id s = Some s).
  { intros s Hs. rewrite Ht2, lookup_delete_ne.
    - apply Hin. by apply list_elem_of_further.
    - intros He. apply Hni. rewrite He. by apply list_elem_of_fmap_2. }
  destruct (IH d2 Hwf2 Hnd Hin2) as [Hok Hres].
  assert (He1 : no_egress d1 [t_id t]) by by apply Hdel.
  assert (Hne : no_egress d (t_id t :: (t_id <$> pools)) <-> no_egress d2 (t_id <$> pools)).
  { unfold no_egress in *. rewrite Hp2. cbn [peers set_rules d1] in *. split.
    - intros Hn k p u Hp He ?. eapply (Hn k p u Hp He). by apply list_elem_of_further.
    - intros Hn k p u Hp He [->|?]%elem_of_cons; [|by eapply (Hn k p u)].
      by eapply (He1 k p _ Hp He), list_elem_of_singleton. }
  split.
  - rewrite Hne, <- Hok. by destruct (collapse_loop pools d2) as [[]|].
  - intros out d' H. destruct (collapse_loop pools d2) as [[out2 d3]|] eqn:H3; [|done].
    injection H as <- <-. destruct (Hres _ _ eq_refl) as (Hwf3 & Hn3 & Ht3 & Hr3 & Hp3 & Ho3).
    split_and!; [done|simpl; by rewrite Hn3| | |by rewrite Hp3, Hp2|].
    + intros k. rewrite Ht3, Ht2. cbn [tunnels set_rules d1]. destruct (decide (k = t_id t)) as [->|Hk].
      * rewrite decide_False by done. rewrite decide_True by apply list_elem_of_here.
        apply lookup_delete_eq.
      * rewrite lookup_delete_ne by done.
        destruct (decide (k ∈ t_id <$> pools)) as [Hk'|Hk'];
          [by rewrite decide_True by by apply list_elem_of_further|].
        by rewrite decide_False by by rewrite not_elem_of_cons.
    + rewrite Hr3, Hr2. cbn [rules set_rules d1]. by rewrite <- map_fmap_compose.
    + rewrite Ho3, <- Ho1. unfold ruleIDsByPriority, q_rules. by rewrite Hr2.
Qed.

(** Being the only built-in pool. *)
Definition only_pool d t : Prop :=
  tunnels d !! t.(t_id) = Some t /\ is_builtin_pool t /\
  forall k s, tunnels d !! k = Some s -> is_builtin_pool s -> k = t.(t_id).

Lemma elem_of_builtinPools d t :
  wf d -> t ∈ builtinPools d <-> tunnels d !! t.(t_id) = Some t /\ is_builtin_pool t.
Proof.
  intros Hd. unfold builtinPools. rewrite list_elem_of_filter, elem_of_q_tunnels.
  split; [|naive_solver]. intros [? [k Hk]].
  by rewrite (to_id _ (wf_tunnels d Hd) _ _ Hk).
Qed.

Lemma NoDup_builtinPools d : wf d -> NoDup (t_id <$> builtinPools d).
Proof.
  intros Hd. eapply sublist_NoDup; [|apply fmap_sublist, sublist_filter].
  unfold q_tunnels. rewrite merge_sort_Permutation. apply NoDup_map_rows_fmap.
  intros k1 k2 x1 x2 H1 H2. pose proof (to_id _ (wf_tunnels d Hd)) as Hid.
  rewrite (Hid _ _ H1), (Hid _ _ H2). done.
Qed.

Lemma only_pool_builtinPools d t : wf d -> only_pool d t -> builtinPools d = [t].
Proof.
  intros Hd (Ht & Hb & Hu).
  apply Permutation_singleton_r. apply NoDup_Permutation.
  - eapply NoDup_fmap_1, NoDup_builtinPools, Hd.
  - apply NoDup_singleton.
  - intros s. rewrite elem_of_builtinPools, list_elem_of_singleton by done. split; [|by intros ->].
    intros [Hs Hsb]. specialize (Hu _ _ Hs Hsb). rewrite Hu in Hs. congruence.
Qed.
End collapse.

(** ** [EnsureBuiltinPool] by cases *)
Section ensure.
Implicit Types (d : db) (t : Tunnel).

Definition no_change : BuiltinPoolResult := MkBuiltinResult false [] [].

Lemma Ensure_single d t newID now url typ :
  url <> EmptyString -> builtinPools d = [t] -> t.(t_country) = EmptyString ->
  EnsureBuiltinPool newID now url typ d = Ok (no_change, d).
Proof.
  intros Hurl Hp Hc. unfold EnsureBuiltinPool, guard_tx, mbind, tx_bind, lift, gets.
  rewrite bool_decide_eq_false_2 by done. simpl. rewrite Hp.
  unfold collapseBuiltinPools, mbind, tx_bind. simpl.
  by rewrite decide_False by (intros Hn; by apply Hn).
Qed.

(** A write to the survivor's row leaves it the only built-in pool. *)
Lemma only_pool_rewrite d t f b d' :
  wf d -> only_pool d t -> (forall s, t_id (f s) = t_id s) ->
  (forall s, is_builtin_pool s -> is_builtin_pool (f s)) ->
  sql_update_tunnel t.(t_id) (fun _ => true) f d = Ok (b, d') ->
  wf d' /\ only_pool d' (f t) /\ rules d' = rules d /\ peers d' = peers d.
Proof.
  intros Hd (Ht & Hb & Hu) Hid Hf H.
  assert (Hwf : wf d') by (eapply sql_update_tunnel_wf; [done| |done]; done).
  apply sql_update_tunnel_Ok in H as [(_ & s & Hs & _ & _ & ->)|(_ & _ & Hn)];
    [|specialize (Hn _ Ht); discriminate].
  assert (s = t) as -> by congruence. split_and!; try done.
  split_and!; simpl.
  - rewrite Hid. apply lookup_insert_eq.
  - by apply Hf.
  - intros k s. rewrite Hid. destruct (decide (k = t_id t)) as [->|Hne]; [done|].
    rewrite lookup_insert_ne by done. eauto.
Qed.

(** The two optional writes at the end of [collapseBuiltinPools]. *)
Lemma collapse_tail d d' survivor (names : list string) (det : list DetachedRule) out :
  wf d -> only_pool d survivor ->
  (_ ← (if decide (survivor.(t_country) <> EmptyString)
        then _ ← sql_update_tunnel survivor.(t_id) (fun _ => true) (set_country EmptyString); mret tt
        else mret tt);
   _ ← (if decide (names <> [] /\ survivor.(t_name) <> builtinPoolName)
        then ignore_unique
               (sql_update_tunnel survivor.(t_id) (fun _ => true) (set_name builtinPoolName))
        else mret tt);
   mret (MkBuiltinResult false names det)) d = Ok (out, d') ->
  out = MkBuiltinResult false names det /\ wf d' /\ rules d' = rules d /\ peers d' = peers d /\
  exists t, only_pool d' t /\ t.(t_country) = EmptyString.
Proof.
  intros Hd Ho H. apply tx_bind_Ok in H as ([] & d1 & H1 & H).
  apply tx_bind_Ok in H as ([] & d2 & H2 & [= <- <-]). split; [done|].
  assert (exists t, wf d1 /\ only_pool d1 t /\ rules d1 = rules d /\ peers d1 = peers d /\
          t.(t_country) = EmptyString /\ t.(t_id) = survivor.(t_id)) as (t & Hd1 & Ho1 & Hr1 & Hp1 & Hc & Hi).
  { clear H2. case_decide as Hc.
    - apply tx_bind_Ok in H1 as (b & d3 & H1 & [= ->]).
      destruct (only_pool_rewrite d survivor (set_country EmptyString) b d1)
        as (? & ? & ? & ?); try done. by exists (set_country EmptyString survivor).
    - injection H1 as <-. by exists survivor. }
  case_decide; [|injection H2 as <-; by split_and!; [..|exists t]].
  unfold ignore_unique in H2. rewrite <- Hi in H2.
  destruct (sql_update_tunnel (t_id t) _ _ d1) as [[b d3]|e] eqn:H3.
  - injection H2 as <-.
    destruct (only_pool_rewrite d1 t (set_name builtinPoolName) b d3) as (? & ? & ? & ?); try done.
    split_and!; [done|congruence..|]. by exists (set_name builtinPoolName t).
  - destruct (isUniqueViolation e); [|done]. injection H2 as <-.
    split_and!; [done|congruence..|]. by exists t.
Qed.

(** Collapsing the extra pools of a database that has some. *)
Lemma collapse_extra d survivor extra :
  wf d -> builtinPools d = survivor :: extra ->
  (is_ok (collapse_loop extra d) = true <-> no_egress d (t_id <$> extra)) /\
  forall out d1, collapse_loop extra d = Ok (out, d1) ->
    wf d1 /\ only_pool d1 survivor /\
    rules d1 = detach_all (t_id <$> extra) <$> rules d /\ peers d1 = peers d.
Proof.
  intros Hd Hp. pose proof (NoDup_builtinPools d Hd) as Hnd.
  rewrite Hp, fmap_cons, NoDup_cons in Hnd. destruct Hnd as [Hni Hnd].
  assert (Hin : forall s, s ∈ survivor :: extra <-> tunnels d !! t_id s = Some s /\ is_builtin_pool s).
  { intros s. rewrite <- Hp. by apply elem_of_builtinPools. }
  destruct (collapse_run extra d Hd Hnd) as [Hok Hrun].
  { intros s Hs. by apply Hin, list_elem_of_further. }
  split; [done|]. intros out d1 Hl. destruct (Hrun _ _ Hl) as (Hd1 & _ & Ht1 & Hr1 & Hp1 & _).
  destruct (proj1 (Hin survivor)) as [Hsv Hbv]; [apply list_elem_of_here|].
  split_and!; try done. split; [by rewrite Ht1, decide_False|]. split; [done|].
  intros k s. rewrite Ht1. destruct (decide (k ∈ t_id <$> extra)) as [Hk|Hk]; [done|]. intros Hs Hb.
  pose proof (to_id _ (wf_tunnels d Hd) _ _ Hs) as Hid.
  assert (Hsin : s ∈ survivor :: extra) by (apply Hin; by rewrite Hid).
  apply elem_of_cons in Hsin as [->|Hsin]; [done|].
  exfalso. apply Hk. rewrite <- Hid. by apply list_elem_of_fmap_2.
Qed.

(** Rules are only ever withdrawn: same identifier, and an enabled rule
    still goes through the first tunnel it went through before. *)
Definition only_withdrawn (r r' : Rule) : Prop :=
  r'.(r_id) = r.(r_id) /\
  (r'.(r_enabled) = true -> r.(r_enabled) = true /\ r'.(r_tunnel) = r.(r_tunnel)) /\
  (r'.(r_tunnel) = r.(r_tunnel) \/ r'.(r_tunnel) = EmptyString /\ r'.(r_enabled) = false).

Lemma detached_withdrawn ids r : only_withdrawn r (detach_all ids r).
Proof.
  revert r. induction ids as [|id ids IH]; intros r; [by split_and!; auto|].
  specialize (IH (detached id r)) as (IH1 & IH2 & IH3).
  assert (Hstep : only_withdrawn r (detached id r)).
  { unfold detached, detach_primary, detach_via. by repeat case_match; split_and!; auto. }
  destruct Hstep as (H1 & H2 & H3). unfold only_withdrawn.
  change (detach_all (id :: ids) r) with (detach_all ids (detached id r)).
  split_and!; [congruence| |].
  - intros He. destruct (IH2 He) as [He1 Ht1]. destruct (H2 He1). by rewrite Ht1.
  - destruct IH3 as [He|[He Hen]]; [|by right]. destruct H3 as [H3|[H3 H4]]; [left; congruence|].
    right. split; [congruence|]. destruct (r_enabled (detach_all ids _)) eqn:Hx; [|done].
    destruct (IH2 eq_refl). congruence.
Qed.
End ensure.

Lemma EnsureBuiltinPool_inv d newID now url typ out d' :
  wf d -> EnsureBuiltinPool newID now url typ d = Ok (out, d') ->
  wf d' /\ peers d' = peers d /\
  (forall k r, rules d !! k = Some r -> exists r', rules d' !! k = Some r' /\ only_withdrawn r r') /\
  exists t, only_pool d' t /\ t.(t_country) = EmptyString.
Proof.
  intros Hd H.
  unfold EnsureBuiltinPool in H. apply tx_bind_Ok in H as ([] & d0 & Hg & H).
  apply lift_Ok in Hg as [_ ->]. apply tx_bind_Ok in H as (pools & d0 & [= <- <-] & H).
  destruct (builtinPools d) as [|survivor extra] eqn:Hp.
  - inv_tx. rename select (sql_insert_tunnel _ _ = _) into Hi.
    pose proof (sql_insert_tunnel_wf _ _ _ Hd Hi) as Hwf.
    apply sql_insert_tunnel_Ok in Hi as (Hn & _ & ->). split_and!; try done.
    + intros k r Hk. exists r. split; [done|]. by split_and!; auto.
    + exists (tunnel_row (new_builtin_pool newID now url typ)). split; [|done].
      split_and!; [apply lookup_insert_eq|done|].
      intros k s. simpl. destruct (decide (k = newID)) as [->|Hne]; [done|].
      rewrite lookup_insert_ne by done. intros Hs Hb.
      assert (s ∈ builtinPools d) as Hin.
      { apply elem_of_builtinPools; [done|]. by rewrite (to_id _ (wf_tunnels d Hd) _ _ Hs). }
      rewrite Hp in Hin. by apply elem_of_nil in Hin.
  - unfold collapseBuiltinPools in H. apply tx_bind_Ok in H as ([names det] & d1 & Hl & H).
    destruct (proj2 (collapse_extra d survivor extra Hd Hp) _ _ Hl) as (Hd1 & Ho1 & Hr1 & Hp1).
    destruct (collapse_tail d1 d' survivor names det out) as (_ & Hwf & Hr2 & Hp2 & Hone);
      [done|done|exact H|].
    split_and!; [done|congruence| |done]. intros k r Hk. rewrite Hr2, Hr1, lookup_fmap, Hk.
    eexists. split; [done|]. apply detached_withdrawn.
Qed.

(** ** Properties *)

(** C9: [EnsureBuiltinPool], whenever it succeeds, leaves a well-formed state
    with exactly one built-in pool.  Clients keep their routing and every rule
    survives: a rule that used a removed pool as its first link is disabled,
    none is redirected or enabled.  Running it again on the next start changes
    nothing. *)
Theorem EnsureBuiltinPool_correct d newID now url typ out d' :
  wf d -> run (EnsureBuiltinPool newID now url typ) d = (Ok out, d') ->
  wf d' /\ (exists t, builtinPools d' = [t]) /\ peers d' = peers d /\
  (forall k r, rules d !! k = Some r ->
     exists r', rules d' !! k = Some r' /\ only_withdrawn r r') /\
  forall newID2 now2 url2 typ2, url2 <> EmptyString ->
    run (EnsureBuiltinPool newID2 now2 url2 typ2) d' = (Ok no_change, d').
Proof.
  intros Hd H%run_Ok.
  destruct (EnsureBuiltinPool_inv _ _ _ _ _ _ _ Hd H) as (Hwf & Hpe & Hr & t & Ht & Hc).
  pose proof (only_pool_builtinPools _ _ Hwf Ht) as Hb.
  split_and!; try done; [by exists t|]. intros. apply run_Ok. by eapply Ensure_single.
Qed.

(** The sample with two more built-in pools left by an older release, one of
    them used by two rules. *)
Definition old_pool (id name : string) : Tunnel :=
  MkTunnel id name TunnelVLESS SourcePool "https://old" "" true (60 * second)%Z [] zero_time true "NL".
Definition sample_old : db :=
  set_rules (<["r3" := MkRule "r3" "nl" ActionTunnel "wg" "nl" 3 true [] ["a.nl"] [] []
                 ScopeAll [] false]>
             (<["r1" := MkRule "r1" "work" ActionTunnel "nl" "nl" 1 true [] ["w.nl"] [] []
                 ScopeAll [] false]> (rules sample_db)))
    (set_tunnels (<["nl" := old_pool "nl" "NL pool"]> (<["de" := old_pool "de" "DE pool"]>
       (tunnels sample_db))) sample_db).

Lemma sample_old_wf : wf sample_old.
Proof. apply wf_checked_wf, (bool_decide_eq_true_1 (wf_checked sample_old)). by vm_compute. Qed.

Definition sample_collapse := run (EnsureBuiltinPool "new" 0 "https://list" TunnelVLESS) sample_old.

Example EnsureBuiltinPool_correct_witness :
  sample_collapse.1 = Ok (MkBuiltinResult false ["DE pool"; "NL pool"]
                            [MkDetached "work" true; MkDetached "nl" false]) /\
  wf sample_collapse.2 /\ (exists t, builtinPools sample_collapse.2 = [t]).
Proof.
  assert (H : sample_collapse.1 = Ok (MkBuiltinResult false ["DE pool"; "NL pool"]
                [MkDetached "work" true; MkDetached "nl" false])) by by vm_compute.
  split; [done|].
  destruct (EnsureBuiltinPool_correct sample_old _ _ _ _ _ _ sample_old_wf (run_fst _ _ _ H))
    as (Hwf & Hone & _).
  split; [exact Hwf|exact Hone].
Defined.

(** The built-in pools past the first, which a start collapses. *)
Definition extra_pools (d : db) : list string := t_id <$> drop 1 (builtinPools d).

Lemma update_survivor_ok d t f :
  wf d -> only_pool d t -> (forall s, t_name (f s) = t_name s) ->
  sql_update_tunnel t.(t_id) (fun _ => true) f d
  = Ok (true, set_tunnels (<[t.(t_id) := f t]> (tunnels d)) d).
Proof.
  intros Hd (Ht & _) Hf. unfold sql_update_tunnel. rewrite Ht, Hf.
  assert (taken t_name (t_id t) (t_name t) (tunnels d) = false) as ->; [|done].
  apply taken_false. intros k s Hs Hne He. apply Hne. by eapply (to_name _ (wf_tunnels d Hd)).
Qed.

Lemma ignore_unique_update d id wh f :
  exists d', ignore_unique (sql_update_tunnel id wh f) d = Ok (tt, d').
Proof.
  unfold ignore_unique, sql_update_tunnel.
  destruct (tunnels d !! id) as [t|]; [|by eexists].
  destruct (wh t); [|by eexists]. destruct (taken _ _ _ _); by eexists.
Qed.

(** C12: once a built-in pool exists, [EnsureBuiltinPool] succeeds exactly when
    no client has chosen one of the extra built-in pools as its egress: rules
    are detached first, a rename clash is tolerated, and the foreign key of
    [peers.egress_tunnel_id] is the only thing that can refuse the collapse. *)
Theorem EnsureBuiltinPool_succeeds d newID now url typ :
  wf d -> url <> EmptyString -> builtinPools d <> [] ->
  is_ok (run (EnsureBuiltinPool newID now url typ) d).1 = true <-> no_egress d (extra_pools d).
Proof.
  intros Hd Hurl Hne. unfold run, EnsureBuiltinPool, guard_tx, extra_pools.
  unfold mbind, tx_bind at 1, lift. rewrite bool_decide_eq_false_2 by done. cbn.
  destruct (builtinPools d) as [|survivor extra] eqn:Hp; [done|]. cbn.
  destruct (collapse_extra d survivor extra Hd Hp) as [Hok Hrun].
  change (drop 0 extra) with extra. rewrite <- Hok.
  unfold collapseBuiltinPools. unfold mbind at 1, tx_bind at 1.
  destruct (collapse_loop extra d) as [[[names det] d1]|e] eqn:Hl; [|done].
  destruct (Hrun _ _ eq_refl) as (Hd1 & Ho & _).
  split; [done|intros _]. cbn [fst snd]. unfold mbind at 1, tx_bind at 1.
  assert (exists d2, (if decide (t_country survivor <> EmptyString)
      then _ ← sql_update_tunnel (t_id survivor) (fun _ => true) (set_country EmptyString); mret tt
      else mret tt) d1 = Ok (tt, d2)) as [d2 ->].
  { destruct (decide _); [|by eexists]. unfold mbind, tx_bind.
    rewrite update_survivor_ok by done. by eexists. }
  unfold mbind, tx_bind. destruct (decide _); [|done].
  destruct (ignore_unique_update d2 (t_id survivor) (fun _ => true) (set_name builtinPoolName))
    as [d3 ->]. done.
Qed.

Example EnsureBuiltinPool_succeeds_witness :
  is_ok (run (EnsureBuiltinPool "new" 0 "https://list" TunnelVLESS) sample_old).1 = true.
Proof.
  apply (EnsureBuiltinPool_succeeds sample_old); [apply sample_old_wf|done| |].
  - assert (length (builtinPools sample_old) = 3) as Hl by by vm_compute.
    by destruct (builtinPools sample_old).
  - intros k p u Hp He. assert (extra_pools sample_old = ["de"; "nl"]) as -> by by vm_compute.
    apply elem_of_list_to_map_2 in Hp. simpl in Hp.
    rewrite !elem_of_cons, elem_of_nil in Hp.
    destruct Hp as [Hp|[Hp|[]]]; injection Hp as -> ->; [|done].
    injection He as <-. by apply (bool_decide_eq_true_1 ("wg" ∉ ["de"; "nl"])).
Defined.

(** ** Deletion and plain writes *)
Section writes.
Implicit Types (d : db) (t : Tunnel).

Lemma names_nil_iff d id :
  clientsByTunnel d id = [] /\ ruleNamesByTunnel d id = [] <-> tunnel_referenced d id = false.
Proof.
  unfold clientsByTunnel, ruleNamesByTunnel. rewrite !fmap_nil_iff, !filter_nil_iff, not_referenced.
  setoid_rewrite elem_of_q_rules. setoid_rewrite elem_of_q_peers.
  setoid_rewrite not_true_iff_false. unfold peer_refs. setoid_rewrite bool_decide_eq_false.
  naive_solver.
Qed.

Lemma DeleteTunnel_eq d id :
  DeleteTunnel id d =
  match tunnels d !! id with
  | None => fail ErrNotFound "tunnel"
  | Some t =>
      if t.(t_builtin) then fail ErrInUse "builtin pool"
      else if bool_decide (clientsByTunnel d id <> []) then fail ErrInUse "tunnel selected by clients"
      else if bool_decide (ruleNamesByTunnel d id <> []) then fail ErrInUse "tunnel referenced by rules"
      else Ok (tt, set_warp (delete id (warp_registrations d))
                     (set_checks (delete id (tunnel_checks d))
                        (set_tunnels (delete id (tunnels d)) d)))
  end.
Proof.
  unfold DeleteTunnel, GetTunnel, guard_tx, gets, lift, guard_err, mbind, tx_bind.
  destruct (tunnels d !! id) as [t|] eqn:Ht; [|done]. destruct (t_builtin t); [done|]. cbn.
  case_bool_decide as Hc; [done|]. case_bool_decide as Hn; [done|].
  unfold sql_delete_tunnel. rewrite Ht.
  by rewrite (proj1 (names_nil_iff d id) (conj Hc Hn)).
Qed.

(** A filled-in tunnel keeps what validation looks at. *)
Lemma tunnel_fill_validate newID now t : tunnel_validate (tunnel_fill newID now t) = tunnel_validate t.
Proof. by destruct t. Qed.

Lemma CreateTunnel_inv d newID now t t' d' :
  CreateTunnel newID now t d = Ok (t', d') <->
  t' = tunnel_fill newID now t /\ tunnel_validate t = Ok tt /\
  tunnels d !! t'.(t_id) = None /\ taken t_name t'.(t_id) t.(t_name) (tunnels d) = false /\
  d' = set_tunnels (<[t'.(t_id) := tunnel_row t']> (tunnels d)) d.
Proof.
  unfold CreateTunnel. split.
  - intros H. inv_tx. rename select (sql_insert_tunnel _ _ = _) into Hi.
    apply sql_insert_tunnel_Ok in Hi. by destruct Hi as (? & ? & ->).
  - intros (-> & Hv & Hn & Hf & ->). unfold mbind, tx_bind, lift, catch. rewrite Hv.
    rewrite (proj2 (sql_insert_tunnel_Ok d (tunnel_fill newID now t) _)
               (conj Hn (conj Hf eq_refl))). done.
Qed.

Lemma UpdateTunnel_inv d t d' :
  UpdateTunnel t d = Ok (tt, d') <->
  exists old, tunnels d !! t.(t_id) = Some old /\ tunnel_validate t = Ok tt /\
    t.(t_id) <> EmptyString /\ taken t_name t.(t_id) t.(t_name) (tunnels d) = false /\
    d' = set_tunnels (<[t.(t_id) := tunnel_overwrite t old]> (tunnels d)) d.
Proof.
  unfold UpdateTunnel, checkAffected. split.
  - intros H. inv_tx. reflect_bools. subst.
    rename select (sql_update_tunnel _ _ _ _ = _) into Hu.
    apply sql_update_tunnel_Ok in Hu as [(_ & old & ? & _ & ? & ->)|(? & _)]; [|done].
    by exists old.
  - intros (old & Ho & Hv & Hne & Hf & ->). unfold mbind, tx_bind, lift, guard_tx. rewrite Hv.
    rewrite bool_decide_eq_false_2 by done. cbn. unfold catch.
    unfold sql_update_tunnel. rewrite Ho. cbn. by rewrite Hf.
Qed.

Lemma CreateTunnel_wf d newID now t : wf d -> wf (run (CreateTunnel newID now t) d).2.
Proof.
  intros Hd. unfold run. destruct (CreateTunnel _ _ _ d) as [[t' d']|] eqn:H; [|done].
  apply CreateTunnel_inv in H as (-> & _ & Hn & Hf & ->). by apply wf_set_tunnel.
Qed.

Lemma tunnel_overwrite_id t old : (tunnel_overwrite t old).(t_id) = old.(t_id).
Proof. done. Qed.

Lemma UpdateTunnel_wf d t : wf d -> wf (run (UpdateTunnel t) d).2.
Proof.
  intros Hd. unfold run. destruct (UpdateTunnel t d) as [[[] d']|] eqn:H; [|done].
  apply UpdateTunnel_inv in H as (old & Ho & _ & _ & Hf & ->). apply wf_set_tunnel; [done| |done].
  rewrite tunnel_overwrite_id. by apply (to_id _ (wf_tunnels d Hd)).
Qed.

Lemma DeleteTunnel_wf d id : wf d -> wf (run (DeleteTunnel id) d).2.
Proof.
  intros Hd. unfold run. rewrite DeleteTunnel_eq. destruct (tunnels d !! id) as [t|]; [|done].
  destruct (t_builtin t); [done|]. case_bool_decide as Hc; [done|]. case_bool_decide as Hn; [done|].
  apply wf_delete_tunnel; [done|]. by apply names_nil_iff.
Qed.

Lemma UpdateTunnelPool_wf d id servers at_ : wf d -> wf (run (UpdateTunnelPool id servers at_) d).2.
Proof.
  intros Hd. unfold run. destruct (UpdateTunnelPool id servers at_ d) as [[[] d']|] eqn:H; [|done].
  unfold UpdateTunnelPool, checkAffected in H. inv_tx.
  by eapply sql_update_tunnel_wf; [exact Hd| |eassumption].
Qed.

Lemma CreateWARPTunnel_inv d newID now t reg t' d' :
  wf d -> CreateWARPTunnel newID now t reg d = Ok (t', d') ->
  t' = tunnel_fill newID now t /\ t.(t_source) = SourceWARP /\ wf d' /\
  exists w, w.(w_device) = reg.(reg_device) /\ w.(w_token) = reg.(reg_token) /\
    d' = set_warp (<[t'.(t_id) := w]> (warp_registrations d))
           (set_tunnels (<[t'.(t_id) := tunnel_row t']> (tunnels d)) d).
Proof.
  intros Hd H. unfold CreateWARPTunnel in H. inv_tx. reflect_bools.
  rename select (sql_insert_tunnel _ _ = _) into Hi. rename select (sql_insert_warp _ _ _ = _) into Hw.
  pose proof (sql_insert_tunnel_wf _ _ _ Hd Hi) as Hwf.
  apply sql_insert_tunnel_Ok in Hi as (_ & _ & ->).
  unfold sql_insert_warp, tunnel_exists in Hw. do 2 (case_match; [done|]).
  injection Hw as <-. reflect_bools. split_and!; [done|done| |by eexists (MkWarp _ _ _); split_and!; reflexivity].
  destruct Hwf as [? ? ? ? ? Hww]. split; try done. simpl.
  intros k w [[<- <-]|[_ Hk]]%lookup_insert_Some; [done|by eapply Hww].
Qed.
End writes.

(** C11: [DeleteTunnel] answers by the state alone: [ErrNotFound] for an
    unknown tunnel, [ErrInUse] for the built-in pool and for a tunnel that a
    client's egress or either link of a rule still uses; otherwise the tunnel
    goes with its saved check and WARP registration, nothing else changes and
    the state stays well formed.  The foreign keys behind it are never hit. *)
Theorem DeleteTunnel_correct d id :
  wf d ->
  match tunnels d !! id with
  | None => run (DeleteTunnel id) d = (fail ErrNotFound "tunnel", d)
  | Some t =>
      if t.(t_builtin) || tunnel_referenced d id
      then exists l, run (DeleteTunnel id) d = (fail ErrInUse l, d)
      else exists d', run (DeleteTunnel id) d = (Ok tt, d') /\ wf d' /\
        tunnels d' = delete id (tunnels d) /\ rules d' = rules d /\ peers d' = peers d /\
        tunnel_checks d' = delete id (tunnel_checks d) /\
        warp_registrations d' = delete id (warp_registrations d)
  end.
Proof.
  intros Hd. unfold run. rewrite DeleteTunnel_eq.
  destruct (tunnels d !! id) as [t|] eqn:Ht; [|done].
  destruct (t_builtin t); simpl; [by eexists|].
  pose proof (names_nil_iff d id) as Hiff.
  destruct (tunnel_referenced d id) eqn:Hr.
  - case_bool_decide; [by eexists|]. case_bool_decide; [by eexists|].
    exfalso. destruct Hiff as [Hi _]. discriminate Hi. by split.
  - destruct (proj2 Hiff eq_refl) as [-> ->]. rewrite !bool_decide_eq_false_2 by naive_solver.
    eexists. split; [done|]. split; [by apply wf_delete_tunnel|done].
Qed.

Definition sample_idle : db :=
  set_tunnels (<["idle" := MkTunnel "idle" "Idle" TunnelSOCKS SourceURL "socks://x" "{}" false 0 []
                  zero_time false ""]> (tunnels sample_db)) sample_db.

Lemma sample_idle_wf : wf sample_idle.
Proof. apply wf_checked_wf, (bool_decide_eq_true_1 (wf_checked sample_idle)). by vm_compute. Qed.

Example DeleteTunnel_correct_witness :
  (exists l, run (DeleteTunnel "wg") sample_db = (fail ErrInUse l, sample_db)) /\
  exists d', run (DeleteTunnel "idle") sample_idle = (Ok tt, d') /\ wf d'.
Proof.
  pose proof (DeleteTunnel_correct sample_db "wg" sample_wf) as H1.
  pose proof (DeleteTunnel_correct sample_idle "idle" sample_idle_wf) as H2.
  assert (tunnels sample_db !! "wg" = Some sample_wg) as E1 by by vm_compute.
  assert (tunnel_referenced sample_db "wg" = true) as E2 by by vm_compute.
  assert (tunnel_referenced sample_idle "idle" = false) as E3 by by vm_compute.
  rewrite E1, E2 in H1. split; [exact H1|].
  cbn [tunnels sample_idle set_tunnels] in H2. rewrite lookup_insert_eq in H2.
  change (MkDb _ _ _ _ _ _ _ _ _) with sample_idle in H2. rewrite E3 in H2.
  destruct H2 as (d' & Hrun & Hwf' & _). exists d'. exact (conj Hrun Hwf').
Defined.

(** [CreateTunnel] and [UpdateTunnel] accept a tunnel exactly when it
    validates, its name is free (and its identifier free, respectively known);
    the update keeps creation time, built-in flag and country whatever the
    caller sends, and both keep the state well formed. *)
Theorem write_tunnel_correct d newID now t :
  wf d ->
  (forall t' d', run (CreateTunnel newID now t) d = (Ok t', d') <->
     t' = tunnel_fill newID now t /\ tunnel_validate t = Ok tt /\
     tunnels d !! t'.(t_id) = None /\ taken t_name t'.(t_id) t.(t_name) (tunnels d) = false /\
     d' = set_tunnels (<[t'.(t_id) := tunnel_row t']> (tunnels d)) d) /\
  (forall d', run (UpdateTunnel t) d = (Ok tt, d') <->
     exists old, tunnels d !! t.(t_id) = Some old /\ tunnel_validate t = Ok tt /\
       t.(t_id) <> EmptyString /\ taken t_name t.(t_id) t.(t_name) (tunnels d) = false /\
       d' = set_tunnels (<[t.(t_id) := tunnel_overwrite t old]> (tunnels d)) d) /\
  wf (run (CreateTunnel newID now t) d).2 /\ wf (run (UpdateTunnel t) d).2.
Proof.
  intros Hd. setoid_rewrite run_Ok.
  split; [by intros; apply CreateTunnel_inv|]. split; [by intros; apply UpdateTunnel_inv|].
  split; [by apply CreateTunnel_wf|by apply UpdateTunnel_wf].
Qed.

Example write_tunnel_correct_witness :
  wf (run (CreateTunnel "x" 7 (set_name "New" sample_wg)) empty_db).2.
Proof.
  exact (proj1 (proj2 (proj2 (write_tunnel_correct empty_db "x" 7 (set_name "New" sample_wg) wf_empty)))).
Defined.

(** [CreateWARPTunnel] is all or nothing: either the tunnel and its
    Cloudflare registration are both stored, the registration readable under
    the tunnel's identifier, or the database is as before; and the state stays
    well formed. *)
Theorem CreateWARPTunnel_correct d newID now t reg :
  wf d ->
  match run (CreateWARPTunnel newID now t reg) d with
  | (Ok t', d') => t' = tunnel_fill newID now t /\ wf d' /\
      tunnels d' = <[t'.(t_id) := tunnel_row t']> (tunnels d) /\
      (reg_device <$> GetWARPRegistration d' t'.(t_id)) = Some reg.(reg_device) /\
      (reg_token <$> GetWARPRegistration d' t'.(t_id)) = Some reg.(reg_token) /\
      t.(t_source) = SourceWARP /\ rules d' = rules d /\ peers d' = peers d
  | (Err _, d') => d' = d
  end.
Proof.
  intros Hd. destruct (run _ d) as [[t'|e] d'] eqn:H; [|by apply run_Err in H].
  apply run_Ok, CreateWARPTunnel_inv in H as (-> & Hs & Hwf & w & Hw1 & Hw2 & ->); [|done].
  unfold GetWARPRegistration. cbn [tunnels rules peers set_tunnels set_warp warp_registrations].
  rewrite lookup_insert_eq. simpl. rewrite Hw1, Hw2. done.
Qed.

Example CreateWARPTunnel_correct_witness :
  let t := MkTunnel "" "WARP" TunnelWireGuard SourceWARP "[Interface]" "{}" true zero_time []
             zero_time false "" in
  match run (CreateWARPTunnel "warp" 5 t (MkReg "dev" "tok" zero_time)) sample_db with
  | (Ok t', d') => (reg_device <$> GetWARPRegistration d' "warp") = Some "dev" /\ wf d'
  | (Err _, _) => False
  end.
Proof.
  intros t. pose proof (CreateWARPTunnel_correct sample_db "warp" 5 t (MkReg "dev" "tok" zero_time)
    sample_wf) as H.
  assert (is_ok (run (CreateWARPTunnel "warp" 5 t (MkReg "dev" "tok" zero_time)) sample_db).1 = true)
    as Hok by by vm_compute.
  destruct (run _ sample_db) as [[t'|e] d']; [|discriminate Hok].
  destruct H as (-> & Hwf & _ & Hdev & _). split; [exact Hdev|exact Hwf].
Defined.

(** ** Saved checks *)
Lemma check_upsert_run d id status at_ okAt :
  id <> EmptyString -> status <> EmptyString -> is_Some (tunnels d !! id) ->
  SaveTunnelCheck id status at_ okAt d =
  Ok (tt, set_checks (<[id := check_upsert status (Unix at_)
      (if IsZero okAt then 0%Z else Unix okAt) (tunnel_checks d !! id)]> (tunnel_checks d)) d).
Proof.
  intros Hid Hst Ht. unfold SaveTunnelCheck, guard_tx, mbind, tx_bind, lift.
  rewrite !bool_decide_eq_false_2 by done. simpl. unfold sql_upsert_check.
  by rewrite (proj2 (tunnel_exists_true d id) Ht).
Qed.

Lemma wf_set_check d id c :
  wf d -> is_Some (tunnels d !! id) -> wf (set_checks (<[id := c]> (tunnel_checks d)) d).
Proof.
  intros [? ? ? ? Hch ?] Hid. split; try done. simpl.
  intros k x [[<- _]|[_ Hk]]%lookup_insert_Some; [done|eauto].
Qed.

Lemma SaveTunnelCheck_wf d id status at_ okAt :
  wf d -> wf (run (SaveTunnelCheck id status at_ okAt) d).2.
Proof.
  intros Hd. unfold run. destruct (SaveTunnelCheck id status at_ okAt d) as [[[] d']|] eqn:H; [|done].
  unfold SaveTunnelCheck in H. inv_tx. rename select (sql_upsert_check _ _ _ _ _ = _) into Hu.
  unfold sql_upsert_check in Hu. destruct (tunnel_exists _ id) eqn:He; [|done]. injection Hu as <-.
  apply tunnel_exists_true in He. by apply wf_set_check.
Qed.

Lemma SetNotifiedStatus_wf d id status : wf d -> wf (run (SetNotifiedStatus id status) d).2.
Proof.
  intros Hd. unfold run, SetNotifiedStatus. destruct (tunnel_checks d !! id) as [c|] eqn:Hc; [|done].
  apply wf_set_check; [done|]. by eapply wf_checks.
Qed.

(** A check of a known tunnel is recorded with its status and time, keeps
    what was already reported, and a failed check never erases the time of the
    last success: the saved success time reads back as the new one when the
    tunnel answered after the epoch and as the old one when it did not.  A
    check of a tunnel deleted meanwhile leaves no row behind. *)
Theorem SaveTunnelCheck_correct d id status at_ okAt :
  wf d -> id <> EmptyString -> status <> EmptyString ->
  let (res, d') := run (SaveTunnelCheck id status at_ okAt) d in
  wf d' /\
  if tunnel_exists d id then
    res = Ok tt /\
    exists c, TunnelChecks d' !! id = Some c /\ c.(tc_status) = status /\
      c.(tc_checked_at) = stored_time at_ /\
      c.(tc_notified) = from_option tc_notified EmptyString (TunnelChecks d !! id) /\
      ((0 < Unix okAt)%Z -> c.(tc_ok_at) = stored_time okAt) /\
      (okAt = zero_time -> c.(tc_ok_at) = from_option tc_ok_at zero_time (TunnelChecks d !! id)) /\
      forall k, k <> id -> TunnelChecks d' !! k = TunnelChecks d !! k
  else is_ok res = false /\ d' = d.
Proof.
  intros Hd Hid Hst. unfold run. destruct (tunnel_exists d id) eqn:Ht.
  - apply tunnel_exists_true in Ht. rewrite check_upsert_run by done.
    split; [by apply wf_set_check|]. split; [done|]. unfold TunnelChecks.
    eexists. rewrite !lookup_fmap. simpl. rewrite lookup_insert_eq. split; [done|].
    assert (Hz : (0 < Unix okAt)%Z -> IsZero okAt = false).
    { intros Hp. destruct (IsZero okAt) eqn:Hz; [|done]. exfalso.
      unfold IsZero in Hz. reflect_bools. subst okAt. by vm_compute in Hp. }
    assert (Hz' : okAt = zero_time -> IsZero okAt = true) by by intros ->.
    unfold check_read, check_upsert, stored_time.
    destruct (tunnel_checks d !! id) as [c|]; simpl; split_and!; try done.
    + intros Hp. rewrite (Hz Hp). simpl. apply Z.ltb_lt in Hp. by rewrite !Hp.
    + intros He. by rewrite (Hz' He).
    + intros k Hk. by rewrite !lookup_fmap, lookup_insert_ne.
    + intros Hp. rewrite (Hz Hp). apply Z.ltb_lt in Hp. by rewrite Hp.
    + intros He. by rewrite (Hz' He).
    + intros k Hk. by rewrite !lookup_fmap, lookup_insert_ne.
  - unfold SaveTunnelCheck, guard_tx, mbind, tx_bind, lift.
    rewrite !bool_decide_eq_false_2 by done. simpl. unfold sql_upsert_check. by rewrite Ht.
Qed.

Example SaveTunnelCheck_correct_witness :
  exists c, TunnelChecks (run (SaveTunnelCheck "wg" "down" (500 * second)%Z zero_time) sample_db).2
            !! "wg" = Some c /\ tc_status c = "down" /\ tc_ok_at c = time_of_unix 100.
Proof.
  pose proof (SaveTunnelCheck_correct sample_db "wg" "down" (500 * second)%Z zero_time sample_wf) as H.
  destruct (run _ sample_db) as [res d'].
  assert (tunnel_exists sample_db "wg" = true) as E by by vm_compute. rewrite E in H.
  destruct H as (_ & _ & c & Hc & Hs & _ & _ & _ & Hok & _); [done|done|].
  exists c. split; [exact Hc|]. split; [exact Hs|]. rewrite Hok by done. by vm_compute.
Defined.
