(* ===== verification/PeersStore.v ===== *)
(** * Clients: [internal/store/peers.go] and the credentials of [reality.go]

    Creation, update, patch and deletion of peers, and the life cycle of
    their REALITY credentials: issued by [ensurePeerReality], replaced by
    [RotateReality], invalidated when access is switched off and dropped by
    [ResetRealityAfterRestore].  Every identifier drawn by [newID] is an
    argument; the loop of [invalidateReality] draws one per credential, given
    as a function of the peer. *)

From S2P Require Import Prelude GoStd Model Db Wf Sample RulesStore.

(** ** Writes *)

(** [validatePeerEgress] *)
Definition validatePeerEgress (id : option string) : Tx unit := fun d =>
  match id with
  | None => Ok (tt, d)
  | Some id =>
      if decide (TrimSpace id = EmptyString) then fail ErrInvalid "blank egress"
      else if negb (tunnel_exists d id) then fail ErrInvalid "egress does not exist"
      else Ok (tt, d)
  end.

(** [peerConflictErr], applied to unique violations only. *)
Definition peerWriteErr (e : error) : error :=
  match e.(err_kind) with
  | ErrUnique c =>
      if decide (c = "peers.address") then MkError ErrInvalid "address taken"
      else MkError ErrInvalid "public key taken"
  | _ => e
  end.

Definition peer_set_cred (id : string) (revision : Z) (p : Peer) : Peer :=
  MkPeer p.(p_wg_disabled) p.(p_reality) id revision p.(p_egress) p.(p_id) p.(p_name)
    p.(p_public) p.(p_private) p.(p_psk) p.(p_address) p.(p_enabled) p.(p_created).
Definition peer_set_revision (revision : Z) (p : Peer) : Peer :=
  peer_set_cred p.(p_cred_id) revision p.

(** [ensurePeerReality]: nothing when the peer already has a credential. *)
Definition ensurePeerReality (newCred newUUID : string) (p : Peer) : Tx Peer :=
  if decide (p.(p_cred_id) <> EmptyString /\ (0 < p.(p_revision))%Z) then mret p
  else
    let p := peer_set_cred newCred 1 p in
    _ ← sql_insert_cred p.(p_id) (MkCred newCred 1 newUUID);
    _ ← sql_update_peer p.(p_id) (peer_set_cred newCred 1);
    mret p.

Definition peer_fill (newID : string) (now : Z) (p : Peer) : Peer :=
  MkPeer p.(p_wg_disabled) p.(p_reality) EmptyString 0 p.(p_egress)
    (if decide (p.(p_id) = EmptyString) then newID else p.(p_id)) p.(p_name)
    p.(p_public) p.(p_private) p.(p_psk) p.(p_address) p.(p_enabled)
    (if IsZero p.(p_created) then now else p.(p_created)).

(** [CreatePeer] *)
Definition CreatePeer (newID newCred newUUID : string) (now : Z) (p : Peer) : Tx Peer :=
  _ ← lift (peer_validate p);
  let p := peer_fill newID now p in
  _ ← validatePeerEgress p.(p_egress);
  _ ← catch (sql_insert_peer p) peerWriteErr;
  if p.(p_reality) then ensurePeerReality newCred newUUID p else mret p.

(** [Peer] and [Peers] *)
Definition GetPeer (id : string) : Tx Peer := fun d =>
  match peers d !! id with
  | Some p => Ok (p, d)
  | None => fail ErrNotFound "peer"
  end.
Definition Peers : Tx (list Peer) := gets q_peers.

(** The SET list of [updatePeer]: creation time and credential stay. *)
Definition peer_overwrite (p old : Peer) : Peer :=
  MkPeer p.(p_wg_disabled) p.(p_reality) old.(p_cred_id) old.(p_revision) p.(p_egress) old.(p_id)
    p.(p_name) p.(p_public) p.(p_private) p.(p_psk) p.(p_address) p.(p_enabled) old.(p_created).

(** [updatePeer] *)
Definition updatePeer (p : Peer) : Tx unit :=
  _ ← validatePeerEgress p.(p_egress);
  n ← catch (sql_update_peer p.(p_id) (peer_overwrite p)) peerWriteErr;
  checkAffected n "peer".

(** [UpdatePeer]: a change of REALITY transport must go through [PatchPeer]. *)
Definition transport_change (old p : Peer) : bool :=
  (old.(p_reality) || p.(p_reality)) &&
  (negb (eqb old.(p_reality) p.(p_reality)) || negb (eqb old.(p_enabled) p.(p_enabled)) ||
   negb (eqb old.(p_wg_disabled) p.(p_wg_disabled))).
Definition UpdatePeer (p : Peer) : Tx unit :=
  _ ← lift (peer_validate p);
  _ ← guard_tx (bool_decide (p.(p_id) = EmptyString)) ErrInvalid "updated peer without id";
  old ← GetPeer p.(p_id);
  _ ← guard_tx (transport_change old p) ErrInvalid "transport change needs a patch";
  updatePeer p.

(** [PeerPatch] and its [Apply]; the third component of an egress change is
    an explicit null. *)
Record PeerPatch := MkPatch {
  pp_wg_enabled : option bool;
  pp_reality : option bool;
  pp_name : option string;
  pp_enabled : option bool;
  pp_set_egress : bool;
  pp_egress : option string
}.

Definition patch_merge (patch : PeerPatch) (p : Peer) : Peer :=
  MkPeer (from_option negb p.(p_wg_disabled) patch.(pp_wg_enabled))
    (default p.(p_reality) patch.(pp_reality)) p.(p_cred_id) p.(p_revision)
    (if patch.(pp_set_egress) then patch.(pp_egress) else p.(p_egress)) p.(p_id)
    (from_option TrimSpace p.(p_name) patch.(pp_name)) p.(p_public) p.(p_private) p.(p_psk)
    p.(p_address) (default p.(p_enabled) patch.(pp_enabled)) p.(p_created).
Definition Apply (patch : PeerPatch) (p : Peer) : result Peer :=
  _ ← peer_validate (patch_merge patch p); Ok (patch_merge patch p).

(** [ValidatePeerPatch] *)
Definition ValidatePeerPatch (p : Peer) (patch : PeerPatch) : Tx unit :=
  next ← lift (Apply patch p);
  validatePeerEgress next.(p_egress).

(** ** Credentials *)

(** [invalidateReality]: the empty identifier means every peer. *)
Definition cred_ids (peer : string) (d : db) : list string :=
  filter (fun k => peer = EmptyString \/ k = peer) (map_to_list (reality_credentials d)).*1.
Definition revision_of (d : db) (id : string) : Z :=
  from_option cr_revision 0%Z (reality_credentials d !! id).
Definition sync_revisions (peer : string) : Tx unit :=
  modify (fun d => set_peers (map_imap (fun id p =>
    Some (if decide (peer = EmptyString \/ id = peer)
          then peer_set_revision (revision_of d id) p else p)) (peers d)) d).
Definition invalidateReality (newUUID : string -> string) (peer : string) : Tx unit :=
  ids ← gets (cred_ids peer);
  _ ← forM_ ids (fun id =>
        _ ← sql_update_cred id (fun _ => true)
              (fun c => MkCred c.(cr_id) (c.(cr_revision) + 1) (newUUID id)); mret tt);
  sync_revisions peer.

(** [PatchPeer] *)
Definition PatchPeer (newCred newUUID : string) (next : string -> string) (id : string)
  (patch : PeerPatch) : Tx Peer :=
  old ← GetPeer id;
  let wasActive := old.(p_enabled) && old.(p_reality) in
  p ← lift (Apply patch old);
  p ← (if p.(p_reality) then ensurePeerReality newCred newUUID p else mret p);
  _ ← updatePeer p;
  if wasActive && (negb p.(p_enabled) || negb p.(p_reality))
  then _ ← invalidateReality next p.(p_id); mret (peer_set_revision (p.(p_revision) + 1) p)
  else mret p.

(** [RotateReality] *)
Definition RotateReality (newUUID : string) (id : string) (expected : Z) : Tx Peer :=
  p ← GetPeer id;
  _ ← guard_tx (negb p.(p_reality) || bool_decide (p.(p_revision) <> expected) ||
                bool_decide (expected < 1)%Z) ErrConflict "credential revision changed";
  let p := peer_set_revision (p.(p_revision) + 1) p in
  _ ← sql_update_cred id (fun c => bool_decide (c.(cr_id) = p.(p_cred_id)))
        (fun c => MkCred c.(cr_id) p.(p_revision) newUUID);
  _ ← sql_update_peer id (peer_set_revision p.(p_revision));
  mret p.

(** [ResetRealityAfterRestore] *)
Definition reset_peer (p : Peer) : Peer :=
  MkPeer p.(p_wg_disabled) false EmptyString 0 p.(p_egress) p.(p_id) p.(p_name) p.(p_public)
    p.(p_private) p.(p_psk) p.(p_address) (if p.(p_wg_disabled) then false else p.(p_enabled))
    p.(p_created).
Definition ResetRealityAfterRestore : Tx unit :=
  _ ← modify (set_creds ∅);
  _ ← modify (set_identity None);
  _ ← modify (fun d => set_peers (reset_peer <$> peers d) d);
  sql_upsert_setting "reality_enabled" "false".

(** ** Deletion *)
Record PeerDeletion := MkDeletion { pd_affected : list string; pd_inactivated : list string }.

Definition kept_peers (P : gmap string Peer) (r : Rule) : list string :=
  dedup_from [] (filter (fun id => is_Some (P !! id)) r.(r_peers)).

(** One iteration of the rule loop of [DeletePeerWithEffects]. *)
Definition prune_rule (P : gmap string Peer) (r : Rule) : Tx PeerDeletion :=
  if decide (r.(r_scope) <> ScopeSelected) then mret (MkDeletion [] [])
  else
    let kept := kept_peers P r in
    let enabled := r.(r_enabled) && bool_decide (0 < length kept) in
    if decide (length kept = length r.(r_peers) /\ enabled = r.(r_enabled))
    then mret (MkDeletion [] [])
    else
      _ ← sql_update_rule r.(r_id) (rule_set_peers kept enabled);
      mret (MkDeletion [r.(r_id)] (if decide (length kept = 0) then [r.(r_id)] else [])).

Fixpoint prune_rules (P : gmap string Peer) (rs : list Rule) : Tx PeerDeletion :=
  match rs with
  | [] => mret (MkDeletion [] [])
  | r :: rs =>
      e ← prune_rule P r;
      es ← prune_rules P rs;
      mret (MkDeletion (e.(pd_affected) ++ es.(pd_affected))
              (e.(pd_inactivated) ++ es.(pd_inactivated)))
  end.

(** [DeletePeerWithEffects] and [DeletePeer] *)
Definition DeletePeerWithEffects (id : string) : Tx PeerDeletion :=
  n ← sql_delete_peer id;
  _ ← checkAffected n "peer";
  all ← gets q_rules;
  existing ← gets peers;
  prune_rules existing all.
Definition DeletePeer (id : string) : Tx unit := _ ← DeletePeerWithEffects id; mret tt.

(** ** Deleting a peer *)
Section delete_peer.
Implicit Types (d : db) (r : Rule) (P : gmap string Peer).

(** A rule after peer [id] is gone. *)
Definition without (id : string) r : Rule :=
  let kept := filter (fun p => p <> id) r.(r_peers) in
  rule_set_peers kept
    (r.(r_enabled) && (bool_decide (r.(r_scope) = ScopeAll) || bool_decide (kept <> []))) r.

Lemma without_absent T P id r : rule_ok T P r -> id ∉ r.(r_peers) -> without id r = r.
Proof.
  intros Hr Hni. unfold without.
  assert (filter (fun p => p <> id) (r_peers r) = r_peers r) as ->.
  { clear Hr. induction (r_peers r) as [|p l IH]; [done|]. apply not_elem_of_cons in Hni as [? ?].
    rewrite filter_cons, decide_True by done. by rewrite IH. }
  assert (r_enabled r && (bool_decide (r_scope r = ScopeAll) || bool_decide (r_peers r <> []))
          = r_enabled r) as ->; [|by destruct r].
  destruct (r_enabled r) eqn:Hen; [|done]. simpl. apply orb_true_iff. rewrite !bool_decide_eq_true.
  destruct (ro_scope _ _ _ Hr) as [[? _]|Hs]; [by left|right]. by apply (ro_selected _ _ _ Hr).
Qed.

Lemma without_ok T P id r :
  rule_ok T P r -> rule_ok T P (without id r) /\ rule_ok T (delete id P) (without id r).
Proof.
  intros Hr. assert (Hp : forall p, p ∈ filter (fun p => p <> id) (r_peers r) -> is_Some (P !! p) /\ p <> id).
  { intros p [? ?]%list_elem_of_filter. split; [by apply (ro_peers _ _ _ Hr)|done]. }
  assert (Hen : r_enabled r && (bool_decide (r_scope r = ScopeAll)
    || bool_decide (filter (fun p => p <> id) (r_peers r) <> [])) = true ->
    r_enabled r = true /\ (r_scope r = ScopeSelected -> filter (fun p => p <> id) (r_peers r) <> [])).
  { intros [? [Ha|Hb]%orb_true_iff]%andb_true_iff; reflect_bools; split; try done. by rewrite Ha. }
  assert (Hsc : r_scope r = ScopeAll /\ filter (fun p => p <> id) (r_peers r) = [] \/ r_scope r = ScopeSelected).
  { destruct (ro_scope _ _ _ Hr) as [[? ->]|?]; [by left|by right]. }
  destruct Hr as [? ? ? He Hn ? _ _ _ ?].
  split; split; simpl; try done; try (intros; by apply Hen); try by apply NoDup_filter.
  - intros [? _]%Hen. by apply He.
  - intros p ?%Hp. naive_solver.
  - intros [? _]%Hen. by apply He.
  - intros p [? ?]%Hp. by rewrite lookup_delete_ne.
Qed.

Lemma kept_peers_without T P id r :
  rule_ok T P r -> kept_peers (delete id P) r = filter (fun p => p <> id) (r_peers r).
Proof.
  intros Hr. unfold kept_peers. rewrite dedup_from_id.
  - apply filter_iff_in. intros p Hp. destruct (decide (p = id)) as [->|Hne].
    + rewrite lookup_delete_eq. split; [by intros []%is_Some_None|done].
    + rewrite lookup_delete_ne by done. split; [done|]. intros _. by apply (ro_peers _ _ _ Hr).
  - apply NoDup_filter, Hr.
  - intros x _. apply not_elem_of_nil.
Qed.

Lemma length_filter_ne id (l : list string) :
  NoDup l -> length (filter (fun p => p <> id) l) = length l <-> id ∉ l.
Proof.
  intros _. split.
  - intros Hl Hin. assert (length (filter (fun p => p <> id) l) < length l); [|lia].
    apply length_filter_lt with id; [done|]. naive_solver.
  - induction l as [|p l IH]; [done|]. intros [? ?]%not_elem_of_cons.
    rewrite filter_cons, decide_True by done. simpl. by rewrite IH.
Qed.

(** What the loop reports for a rule. *)
Definition effect_of (id : string) r : PeerDeletion :=
  if decide (id ∈ r.(r_peers))
  then MkDeletion [r.(r_id)] (if decide (filter (fun p => p <> id) r.(r_peers) = []) then [r.(r_id)] else [])
  else MkDeletion [] [].

Lemma prune_rule_run d P id r :
  rules_ok (tunnels d) P (rules d) -> rules d !! r.(r_id) = Some r ->
  let d' := set_rules (<[r.(r_id) := without id r]> (rules d)) d in
  prune_rule (delete id P) r d = Ok (effect_of id r, d') /\
  rules_ok (tunnels d) P (rules d') /\ ruleIDsByPriority d' = ruleIDsByPriority d.
Proof.
  intros Hrows Hr d'. pose proof (rls_row _ _ _ Hrows _ _ Hr) as Hok.
  destruct (sql_update_rule_rows P d (r_id r) r
    (rule_set_peers (r_peers (without id r)) (r_enabled (without id r))) Hrows Hr)
    as (Hu & Hrows' & Ho); [done..|by apply without_ok|].
  split; [|done]. unfold prune_rule, effect_of.
  assert (Hsame : id ∉ r_peers r -> d' = d).
  { intros Hni. unfold d'. rewrite (without_absent _ _ _ _ Hok Hni), insert_id by done. by destruct d. }
  destruct (decide (r_scope r <> ScopeSelected)) as [Hs|Hs].
  { assert (r_peers r = []) as Hnil by (destruct (ro_scope _ _ _ Hok) as [[_ ?]|?]; done).
    rewrite Hsame by (rewrite Hnil; apply not_elem_of_nil). rewrite Hnil.
    by rewrite decide_False by apply not_elem_of_nil. }
  apply dec_stable in Hs. rewrite (kept_peers_without _ _ _ _ Hok).
  assert (Hena : r_enabled r && bool_decide (0 < length (filter (fun p => p <> id) (r_peers r)))
                 = r_enabled (without id r)).
  { simpl. rewrite Hs. f_equal. rewrite (bool_decide_eq_false_2 (ScopeSelected = ScopeAll)) by done.
    simpl. apply bool_decide_ext. destruct (filter _ _); simpl; split; (lia || done). }
  rewrite Hena. destruct (decide (id ∈ r_peers r)) as [Hin|Hni].
  - rewrite decide_False.
    2: { rewrite length_filter_ne by apply Hok. naive_solver. }
    unfold mbind, tx_bind. change (filter (fun p => p <> id) (r_peers r)) with (r_peers (without id r)) at 1. rewrite Hu.
    unfold mret, tx_ret. do 3 f_equal.
    by destruct (filter _ _).
  - rewrite decide_True; [by rewrite Hsame|].
    split; [by apply length_filter_ne; [apply Hok|]|by rewrite (without_absent _ _ _ _ Hok Hni)].
Qed.

Lemma prune_rules_run d P id rs :
  rules_ok (tunnels d) P (rules d) -> NoDup (r_id <$> rs) ->
  (forall r, r ∈ rs -> rules d !! r.(r_id) = Some r) ->
  exists m, prune_rules (delete id P) rs d =
      Ok (MkDeletion (concat (pd_affected <$> (effect_of id <$> rs)))
            (concat (pd_inactivated <$> (effect_of id <$> rs))), set_rules m d) /\
    rules_ok (tunnels d) P m /\ ruleIDsByPriority (set_rules m d) = ruleIDsByPriority d /\
    forall k, m !! k = if decide (k ∈ r_id <$> rs) then without id <$> rules d !! k else rules d !! k.
Proof.
  revert d. induction rs as [|r rs IH]; intros d Hrows Hnd Hin.
  { exists (rules d). by destruct d. }
  rewrite fmap_cons in Hnd. apply NoDup_cons in Hnd as [Hni Hnd].
  destruct (prune_rule_run d P id r Hrows) as (H1 & Hrows1 & Ho1); [apply Hin, list_elem_of_here|].
  set (d1 := set_rules _ d) in *.
  destruct (IH d1) as (m & Hm & Hrm & Hom & Hl); [done|done| |].
  { intros s Hs. simpl. rewrite lookup_insert_ne; [apply Hin; by apply list_elem_of_further|].
    intros He. apply Hni. rewrite He. by apply list_elem_of_fmap_2. }
  exists m. split_and!; [|done|by rewrite <- Ho1|].
  - cbn [prune_rules]. unfold mbind, tx_bind. by rewrite H1, Hm.
  - intros k. rewrite Hl, fmap_cons. simpl. destruct (decide (k = r_id r)) as [->|Hne].
    + rewrite (decide_False (P := r_id r ∈ r_id <$> rs)) by done.
      rewrite decide_True by apply list_elem_of_here.
      rewrite lookup_insert_eq, (Hin r) by apply list_elem_of_here. done.
    + rewrite lookup_insert_ne by done. destruct (decide (k ∈ r_id <$> rs)) as [Hk|Hk];
        [by rewrite decide_True by by apply list_elem_of_further|].
      by rewrite decide_False by by rewrite not_elem_of_cons.
Qed.
End delete_peer.

(** ** The invariant under writes to [peers] and [reality_credentials] *)
Section frame.
Implicit Types (d : db) (p : Peer).

Lemma wf_delete_peer d id :
  wf d -> rules_ok (tunnels d) (peers d) (without id <$> rules d) ->
  wf (set_rules (without id <$> rules d)
       (set_creds (delete id (reality_credentials d)) (set_peers (delete id (peers d)) d))).
Proof.
  intros [HT HR [Pi Pp Pa Pe] [Cp Cr Cn] Hch Hw] [Hk Hd Hrow]. split; simpl; try done.
  - split; [done|done|]. intros k r. rewrite lookup_fmap.
    intros (s & Hs & ->)%fmap_Some. by apply without_ok, (rls_row _ _ _ HR k).
  - split; intros *; rewrite ?lookup_delete_Some; naive_solver.
  - split; intros *.
    + intros [Hne Hc]%lookup_delete_Some. rewrite lookup_delete_ne by done. by eapply Cp.
    + intros [_ ?]%lookup_delete_Some [_ ?]%lookup_delete_Some. by eapply Cr.
    + intros [Hne Hp]%lookup_delete_Some Hc. rewrite lookup_delete_ne in Hc by done. by eapply Cn.
Qed.

Lemma rule_ok_mono_peers T P P' r :
  (forall id, is_Some (P !! id) -> is_Some (P' !! id)) -> rule_ok T P r -> rule_ok T P' r.
Proof. intros Hsub []; split; naive_solver. Qed.

(** Rewriting a peer (or adding one), with the credential it claims. *)
Definition cred_agrees (C : gmap string CredRow) p : Prop := cred_checked C p.(p_id) p.

Lemma wf_set_peer_cred d id p C :
  wf d -> p.(p_id) = id ->
  taken p_public id p.(p_public) (peers d) = false ->
  taken p_address id p.(p_address) (peers d) = false ->
  (forall t, p.(p_egress) = Some t -> is_Some (tunnels d !! t)) ->
  cred_agrees C p -> (forall k, k <> id -> C !! k = reality_credentials d !! k) ->
  wf (set_creds C (set_peers (<[id := p]> (peers d)) d)).
Proof.
  intros [HT [Hk Hdn Hrow] [Pi Pp Pa Pe] [Cp Cr Cn] Hch Hw] Hid Hpub Haddr Heg Hag Hrest.
  rewrite taken_false in Hpub, Haddr. unfold cred_agrees, cred_checked in Hag. rewrite Hid in Hag.
  split; simpl; try done.
  - split; [done|done|]. intros k r Hr. eapply rule_ok_mono_peers; [|by eapply Hrow].
    intros k' Hs. apply lookup_insert_is_Some'. by right.
  - split.
    + intros k q [[<- <-]|[_ ?]]%lookup_insert_Some; eauto.
    + intros i j q s [[<- <-]|[? Hq]]%lookup_insert_Some [[<- <-]|[? Hs]]%lookup_insert_Some He;
        [done| | |eauto]; exfalso; by eapply Hpub.
    + intros i j q s [[<- <-]|[? Hq]]%lookup_insert_Some [[<- <-]|[? Hs]]%lookup_insert_Some He;
        [done| | |eauto]; exfalso; by eapply Haddr.
    + intros k q t [[<- <-]|[_ ?]]%lookup_insert_Some; eauto.
  - split.
    + intros k c Hc. destruct (decide (k = id)) as [->|Hne]; [by rewrite lookup_insert_eq|].
      rewrite lookup_insert_ne by done. rewrite Hrest in Hc by done. by eapply Cp.
    + intros k q c [[<- <-]|[Hne Hq]]%lookup_insert_Some Hc; [by rewrite Hc in Hag|].
      rewrite Hrest in Hc by done. by eapply Cr.
    + intros k q [[<- <-]|[Hne Hq]]%lookup_insert_Some Hc; [by rewrite Hc in Hag|].
      rewrite Hrest in Hc by done. by eapply Cn.
Qed.

Lemma wf_cred_agrees d id p : wf d -> peers d !! id = Some p -> cred_agrees (reality_credentials d) p.
Proof.
  intros [_ _ [Pi _ _ _] [_ Cr Cn] _ _] Hp. unfold cred_agrees, cred_checked.
  rewrite (Pi _ _ Hp). destruct (reality_credentials d !! id) as [c|] eqn:Hc; eauto.
Qed.

Lemma sql_update_peer_Ok d id f b d' :
  sql_update_peer id f d = Ok (b, d') <->
  (b = true /\ exists p, peers d !! id = Some p /\
     taken p_public id (f p).(p_public) (peers d) = false /\
     taken p_address id (f p).(p_address) (peers d) = false /\
     peer_fk_ok d (f p) = true /\ d' = set_peers (<[id := f p]> (peers d)) d) \/
  (b = false /\ d' = d /\ peers d !! id = None).
Proof.
  unfold sql_update_peer. destruct (peers d !! id) as [p|] eqn:Hp; [|naive_solver].
  destruct (taken p_public _ _ _) eqn:H1; [|destruct (taken p_address _ _ _) eqn:H2;
    [|destruct (peer_fk_ok d (f p)) eqn:H3]]; simpl.
  all: split; [try done|intros [(-> & q & [= <-] & ? & ? & ? & ->)|(_ & _ & ?)]; congruence].
  intros [= <- <-]. left. split; [done|]. by exists p.
Qed.

Lemma peer_fk_ok_true d p :
  peer_fk_ok d p = true <-> forall t, p.(p_egress) = Some t -> is_Some (tunnels d !! t).
Proof.
  unfold peer_fk_ok. destruct (p_egress p) as [t|]; [|naive_solver].
  rewrite tunnel_exists_true. naive_solver.
Qed.

Lemma sql_insert_peer_Ok d p d' :
  sql_insert_peer p d = Ok (tt, d') <->
  peers d !! p.(p_id) = None /\ taken p_public p.(p_id) p.(p_public) (peers d) = false /\
  taken p_address p.(p_id) p.(p_address) (peers d) = false /\ peer_fk_ok d p = true /\
  d' = set_peers (<[p.(p_id) := peer_row p]> (peers d)) d.
Proof.
  unfold sql_insert_peer, peer_exists. case_bool_decide as Hs.
  - split; [done|]. intros (Hn & _). rewrite Hn in Hs. by apply is_Some_None in Hs.
  - apply eq_None_not_Some in Hs. rewrite Hs.
    destruct (taken p_public _ _ _) eqn:H1, (taken p_address _ _ _) eqn:H2,
      (peer_fk_ok d p) eqn:H3; simpl; naive_solver.
Qed.

Lemma sql_insert_cred_Ok d id c d' :
  sql_insert_cred id c d = Ok (tt, d') ->
  reality_credentials d !! id = None /\ is_Some (peers d !! id) /\
  d' = set_creds (<[id := c]> (reality_credentials d)) d.
Proof.
  unfold sql_insert_cred. case_bool_decide as Hs; [done|].
  apply eq_None_not_Some in Hs. destruct (taken cr_id _ _ _); [done|].
  destruct (taken cr_uuid _ _ _); [done|]. destruct (peer_exists d id) eqn:Hp; [|done]. apply peer_exists_true in Hp. naive_solver.
Qed.

Lemma sql_update_cred_Ok d id wh f b d' :
  sql_update_cred id wh f d = Ok (b, d') ->
  (b = true /\ exists c, reality_credentials d !! id = Some c /\ wh c = true /\
     d' = set_creds (<[id := f c]> (reality_credentials d)) d) \/
  (b = false /\ d' = d /\ forall c, reality_credentials d !! id = Some c -> wh c = false).
Proof.
  unfold sql_update_cred. destruct (reality_credentials d !! id) as [c|]; [|naive_solver].
  destruct (wh c) eqn:Hw.
  - destruct (taken _ _ _ _); [done|]. intros [= <- <-]. left. split; [done|]. by exists c.
  - intros [= <- <-]. right. split_and!; [done..|]. by intros ? [= <-].
Qed.
End frame.

(** ** Credentials of a well-formed database *)
Section creds.
Implicit Types (d : db) (p : Peer).

(** Columns outside the credential that carry constraints. *)
Definition same_cols p' p : Prop :=
  p'.(p_id) = p.(p_id) /\ p'.(p_public) = p.(p_public) /\ p'.(p_address) = p.(p_address) /\
  p'.(p_egress) = p.(p_egress).

Lemma wf_peers_creds d P' C' :
  wf d ->
  (forall k p', P' !! k = Some p' -> exists p, peers d !! k = Some p /\ same_cols p' p) ->
  (forall k, is_Some (peers d !! k) -> is_Some (P' !! k)) ->
  (forall k, is_Some (C' !! k) -> is_Some (P' !! k)) ->
  (forall k p', P' !! k = Some p' -> cred_checked C' k p') ->
  wf (set_creds C' (set_peers P' d)).
Proof.
  intros [HT [Hk Hdn Hrow] [Pi Pp Pa Pe] _ Hch Hw] Hsame Hdom Hcd Hck. split; simpl; try done.
  - split; [done|done|]. intros k r Hr. eapply rule_ok_mono_peers; [exact Hdom|by eapply Hrow].
  - split.
    + intros k p' (p & Hp & -> & _)%Hsame. eauto.
    + intros i j p' q' (p & Hp & _ & -> & _)%Hsame (q & Hq & _ & -> & _)%Hsame. eauto.
    + intros i j p' q' (p & Hp & _ & _ & -> & _)%Hsame (q & Hq & _ & _ & -> & _)%Hsame. eauto.
    + intros k p' t (p & Hp & _ & _ & _ & ->)%Hsame. eauto.
  - split; [eauto| |]; intros k p' *; intros Hp.
    + intros Hc. specialize (Hck _ _ Hp). unfold cred_checked in Hck. by rewrite Hc in Hck.
    + intros Hc. specialize (Hck _ _ Hp). unfold cred_checked in Hck. by rewrite Hc in Hck.
Qed.

Lemma wf_cred_checked d k p : wf d -> peers d !! k = Some p -> cred_checked (reality_credentials d) k p.
Proof.
  intros Hd Hp. rewrite <- (po_id _ _ (wf_peers d Hd) _ _ Hp). by eapply wf_cred_agrees.
Qed.

(** One row of [peers] and [reality_credentials] rewritten together. *)
Lemma wf_peers_creds_one d id p p' c :
  wf d -> peers d !! id = Some p -> same_cols p' p ->
  p'.(p_cred_id) = c.(cr_id) -> p'.(p_revision) = c.(cr_revision) ->
  c.(cr_id) <> EmptyString -> (1 <= c.(cr_revision))%Z ->
  wf (set_creds (<[id := c]> (reality_credentials d)) (set_peers (<[id := p']> (peers d)) d)).
Proof.
  intros Hd Hp Hs H1 H2 H3 H4. apply wf_peers_creds; [done| | | |].
  - intros k q [[<- <-]|[_ ?]]%lookup_insert_Some; [eauto|]. by exists q.
  - intros k ?. apply lookup_insert_is_Some'. by right.
  - intros k Hk. apply lookup_insert_is_Some'. apply lookup_insert_is_Some' in Hk as [?|[c' Hc]];
      [by left|right]. by eapply co_peer; [apply Hd|].
  - intros k q. unfold cred_checked. intros [[<- <-]|[Hne Hq]]%lookup_insert_Some.
    + by rewrite lookup_insert_eq.
    + rewrite lookup_insert_ne by done. by eapply wf_cred_checked.
Qed.

Lemma ensurePeerReality_wf d p old newCred newUUID p' d' :
  wf d -> newCred <> EmptyString -> peers d !! p.(p_id) = Some old ->
  p.(p_cred_id) = old.(p_cred_id) -> p.(p_revision) = old.(p_revision) ->
  ensurePeerReality newCred newUUID p d = Ok (p', d') ->
  exists cid rev, p' = peer_set_cred cid rev p /\ wf d' /\
    peers d' = <[p.(p_id) := peer_set_cred cid rev old]> (peers d) /\
    tunnels d' = tunnels d /\ rules d' = rules d /\
    (forall k, k <> p.(p_id) -> reality_credentials d' !! k = reality_credentials d !! k) /\
    (exists c, reality_credentials d' !! p.(p_id) = Some c) /\
    (cid = old.(p_cred_id) /\ rev = old.(p_revision) \/
     cid = newCred /\ rev = 1%Z /\ old.(p_cred_id) = EmptyString).
Proof.
  intros Hd Hne Hold Hc Hr H. pose proof (wf_cred_checked d _ _ Hd Hold) as Hck.
  unfold cred_checked in Hck. unfold ensurePeerReality in H.
  destruct (decide _) as [[Hc' Hr']|Hno].
  - injection H as <- <-. exists (p_cred_id p), (p_revision p).
    assert (peer_set_cred (p_cred_id p) (p_revision p) p = p) as Hsame by by destruct p.
    assert (peer_set_cred (p_cred_id p) (p_revision p) old = old) as Hsame'
      by (rewrite Hc, Hr; by destruct old).
    split_and!; [done|done|by rewrite Hsame', insert_id|done..| |by left].
    destruct (reality_credentials d !! p_id p) as [c|]; [by exists c|]. destruct Hck. congruence.
  - inv_tx. rename select (sql_insert_cred _ _ _ = _) into Hi.
    rename select (sql_update_peer _ _ _ = _) into Hu.
    apply sql_insert_cred_Ok in Hi as (Hn & _ & ->).
    change (p_id (peer_set_cred newCred 1 p)) with (p_id p) in *. rewrite Hn in Hck.
    apply sql_update_peer_Ok in Hu as [(_ & q & Hq & _ & _ & _ & ->)|(_ & _ & Hq)]; simpl in Hq;
      [|congruence].
    assert (q = old) as -> by congruence. exists newCred, 1%Z. split_and!; simpl; try done.
    + by apply (wf_peers_creds_one d (p_id p) old (peer_set_cred newCred 1 old) (MkCred newCred 1 newUUID)).
    + intros k Hk. by rewrite lookup_insert_ne.
    + eexists. apply lookup_insert_eq.
    + right. by destruct Hck.
Qed.

Lemma validatePeerEgress_Ok e d u d' :
  validatePeerEgress e d = Ok (u, d') <->
  d' = d /\ forall t, e = Some t -> TrimSpace t <> EmptyString /\ is_Some (tunnels d !! t).
Proof.
  unfold validatePeerEgress. destruct u. destruct e as [t|]; [|naive_solver].
  destruct (decide _) as [He|He]; [naive_solver|].
  destruct (tunnel_exists d t) eqn:Ht; simpl.
  - apply tunnel_exists_true in Ht. naive_solver.
  - split; [done|]. intros [_ Hall]. destruct (Hall t eq_refl) as [_ Hs].
    apply tunnel_exists_true in Hs. congruence.
Qed.

Lemma updatePeer_inv d p d' :
  wf d -> (p.(p_reality) = true -> is_Some (reality_credentials d !! p.(p_id))) ->
  updatePeer p d = Ok (tt, d') ->
  exists old, peers d !! p.(p_id) = Some old /\
    d' = set_peers (<[p.(p_id) := peer_overwrite p old]> (peers d)) d /\ wf d'.
Proof.
  intros Hd Hreal H. unfold updatePeer, checkAffected in H. inv_tx. reflect_bools. subst.
  rename select (validatePeerEgress _ _ = _) into He. rename select (sql_update_peer _ _ _ = _) into Hu.
  apply validatePeerEgress_Ok in He as [-> He].
  apply sql_update_peer_Ok in Hu as [(_ & old & Hold & Hp & Ha & Hfk & ->)|(? & _)]; [|done].
  exists old. split_and!; [done..|].
  replace (set_peers _ d) with (set_creds (reality_credentials d)
    (set_peers (<[p_id p := peer_overwrite p old]> (peers d)) d)) by by destruct d.
  pose proof (po_id _ _ (wf_peers d Hd) _ _ Hold) as Hid.
  apply wf_set_peer_cred; try done; [exact (fun t Ht => proj2 (He t Ht))|].
  unfold cred_agrees. change (p_id (peer_overwrite p old)) with (p_id old). rewrite Hid.
  pose proof (wf_cred_checked d _ _ Hd Hold) as Hck. unfold cred_checked in *. simpl.
  destruct (reality_credentials d !! p_id p) as [c|]; [done|]. destruct Hck as (? & ? & _).
  split_and!; [done|done|]. destruct (p_reality p); [|done]. by destruct (Hreal eq_refl).
Qed.
End creds.

(** ** Invalidation *)
Section invalidate.
Implicit Types (d : db) (p : Peer).

Definition bump (newUUID : string -> string) (id : string) (c : CredRow) : CredRow :=
  MkCred c.(cr_id) (c.(cr_revision) + 1) (newUUID id).

Definition bump_row (newUUID : string -> string) (id : string) : Tx unit :=
  _ ← sql_update_cred id (fun _ => true) (bump newUUID id); mret tt.

Lemma invalidate_loop newUUID ids d u d' :
  NoDup ids -> forM_ ids (bump_row newUUID) d = Ok (u, d') ->
  exists C, d' = set_creds C d /\
    forall k, C !! k = (if decide (k ∈ ids) then bump newUUID k <$> reality_credentials d !! k
                        else reality_credentials d !! k).
Proof.
  revert d. induction ids as [|id ids IH]; intros d Hnd H.
  { injection H as _ <-. exists (reality_credentials d). by destruct d. }
  apply NoDup_cons in Hnd as [Hni Hnd]. rewrite forM_cons in H.
  apply tx_bind_Ok in H as (v & d1 & H1 & H2). unfold bump_row in H1.
  apply tx_bind_Ok in H1 as (b & d2 & H1 & [= _ ->]).
  destruct (IH d1 Hnd H2) as (C & -> & HC). exists C.
  apply sql_update_cred_Ok in H1 as [(_ & c & Hc & _ & ->)|(_ & -> & Hn)].
  - split; [done|]. intros k. rewrite HC. simpl. destruct (decide (k = id)) as [->|Hne].
    + rewrite (decide_False (P := id ∈ ids)) by done. rewrite decide_True by apply list_elem_of_here.
      by rewrite lookup_insert_eq, Hc.
    + rewrite lookup_insert_ne by done. destruct (decide (k ∈ ids));
        [by rewrite decide_True by by apply list_elem_of_further|].
      by rewrite decide_False by by rewrite not_elem_of_cons.
  - split; [done|]. intros k. rewrite HC. destruct (decide (k = id)) as [->|Hne].
    + rewrite (decide_False (P := id ∈ ids)) by done. rewrite decide_True by apply list_elem_of_here.
      destruct (reality_credentials d !! id) as [c|]; [|done]. by specialize (Hn c eq_refl).
    + destruct (decide (k ∈ ids));
        [by rewrite decide_True by by apply list_elem_of_further|].
      by rewrite decide_False by by rewrite not_elem_of_cons.
Qed.

(** What a successful invalidation leaves: every targeted credential has its
    revision raised by one and a new UUID, and the peer row agrees. *)
Lemma invalidateReality_run newUUID peer d u d' :
  wf d -> invalidateReality newUUID peer d = Ok (u, d') ->
  wf d' /\ tunnels d' = tunnels d /\ rules d' = rules d /\ settings_kv d' = settings_kv d /\
  reality_identity d' = reality_identity d /\ sessions d' = sessions d /\
  (forall k, reality_credentials d' !! k =
     (if decide (peer = EmptyString \/ k = peer) then bump newUUID k <$> reality_credentials d !! k
      else reality_credentials d !! k)) /\
  (forall k, peers d' !! k =
     (if decide (peer = EmptyString \/ k = peer)
      then (fun p => peer_set_revision (if decide (p.(p_revision) = 0%Z) then 0
                                        else p.(p_revision) + 1)%Z p) <$> peers d !! k
      else peers d !! k)).
Proof.
  intros Hd H. unfold invalidateReality in H. apply tx_bind_Ok in H as (ids & d0 & [= <- <-] & H).
  apply tx_bind_Ok in H as (v & d1 & H1 & [= _ <-]).
  assert (Hids : forall k, k ∈ cred_ids peer d <->
            (peer = EmptyString \/ k = peer) /\ is_Some (reality_credentials d !! k)).
  { intros k. unfold cred_ids. rewrite list_elem_of_filter, list_elem_of_fmap. split.
    - intros [? ([k' c] & -> & Hin%elem_of_map_to_list)]. split; [done|by exists c].
    - intros [? [c Hc]]. split; [done|]. exists (k, c). split; [done|]. by apply elem_of_map_to_list. }
  apply invalidate_loop in H1 as (C & -> & HC); [|apply NoDup_filter, NoDup_fst_map_to_list].
  assert (HC' : forall k, C !! k = if decide (peer = EmptyString \/ k = peer)
                 then bump newUUID k <$> reality_credentials d !! k else reality_credentials d !! k).
  { intros k. rewrite HC. destruct (decide (k ∈ cred_ids peer d)) as [Hin|Hni].
    - apply Hids in Hin as [Hp _]. by rewrite decide_True.
    - destruct (decide (peer = EmptyString \/ k = peer)); [|done].
      destruct (reality_credentials d !! k) eqn:Hk; [|done]. exfalso. apply Hni, Hids. eauto. }
  assert (HP : forall k, map_imap (fun id p => Some (if decide (peer = EmptyString \/ id = peer)
            then peer_set_revision (revision_of (set_creds C d) id) p else p)) (peers d) !! k =
          (if decide (peer = EmptyString \/ k = peer)
      then (fun p => peer_set_revision (if decide (p.(p_revision) = 0%Z) then 0
                                        else p.(p_revision) + 1)%Z p) <$> peers d !! k
      else peers d !! k)).
  { intros k. rewrite map_lookup_imap. destruct (peers d !! k) as [p|] eqn:Hp; simpl;
      [|by destruct (decide (peer = EmptyString \/ k = peer))].
    destruct (decide (peer = EmptyString \/ k = peer)) as [Hk|]; [|done]. do 2 f_equal.
    unfold revision_of. simpl. rewrite HC', decide_True by done.
    pose proof (wf_cred_checked d _ _ Hd Hp) as Hck. unfold cred_checked in Hck.
    destruct (reality_credentials d !! k) as [c|]; simpl.
    - destruct Hck as (_ & -> & _ & ?). rewrite decide_False; lia.
    - destruct Hck as (_ & -> & _). done. }
  split; [|split_and!; try done].
  set (P' := map_imap _ _) in *.
  change (set_peers P' (set_creds C d)) with (set_creds C (set_peers P' d)).
  apply wf_peers_creds; [done| | | |].
  - intros k p'. rewrite HP. destruct (decide (peer = EmptyString \/ k = peer)); [|by exists p'].
    intros (p & Hp & ->)%fmap_Some. exists p. done.
  - intros k [p Hp]. rewrite HP, Hp. by destruct (decide _).
  - intros k. rewrite HC'. intros Hs.
    assert (is_Some (reality_credentials d !! k)) as [c Hc]
      by (revert Hs; destruct (decide (peer = EmptyString \/ k = peer)); [by rewrite fmap_is_Some|done]).
    destruct (co_peer _ _ (wf_creds d Hd) _ _ Hc) as [p Hp]. rewrite HP, Hp. by destruct (decide _).
  - intros k p'. unfold cred_checked. rewrite HP, HC'.
    destruct (decide (peer = EmptyString \/ k = peer)) as [Hk|Hk].
    + intros (p & Hp & ->)%fmap_Some. pose proof (wf_cred_checked d _ _ Hd Hp) as Hck.
      unfold cred_checked in Hck. destruct (reality_credentials d !! k) as [c|]; simpl.
      * destruct Hck as (? & -> & ? & ?). rewrite decide_False by lia. split_and!; try done. lia.
      * by destruct Hck as (? & -> & ?).
    + intros Hp. by apply (wf_cred_checked d _ _ Hd Hp).
Qed.
End invalidate.

(** ** Handlers, by cases *)
Section handlers.
Implicit Types (d : db) (p : Peer).

(** The row [CreatePeer] stores. *)
Definition created_peer (newID newCred : string) (now : Z) p : Peer :=
  let p0 := peer_fill newID now p in
  if p.(p_reality) then peer_set_cred newCred 1 p0 else p0.

Lemma CreatePeer_inv d newID newCred newUUID now p p' d' :
  wf d -> newCred <> EmptyString -> CreatePeer newID newCred newUUID now p d = Ok (p', d') ->
  p' = created_peer newID newCred now p /\ peer_validate p = Ok tt /\
  peers d !! p'.(p_id) = None /\ wf d' /\
  peers d' = <[p'.(p_id) := peer_row p']> (peers d) /\ tunnels d' = tunnels d /\ rules d' = rules d.
Proof.
  intros Hd Hne H. unfold CreatePeer in H. inv_tx.
  rename select (validatePeerEgress _ _ = _) into He. rename select (sql_insert_peer _ _ = _) into Hi.
  apply validatePeerEgress_Ok in He as [-> He]. set (p0 := peer_fill newID now p) in *.
  apply sql_insert_peer_Ok in Hi as (Hn & Hpub & Haddr & Hfk & ->).
  pose proof (proj1 (peer_fk_ok_true _ _) Hfk) as Heg.
  assert (Hcn : reality_credentials d !! p_id p0 = None).
  { destruct (reality_credentials d !! p_id p0) eqn:Hc; [|done].
    destruct (co_peer _ _ (wf_creds d Hd) _ _ Hc). congruence. }
  change (p_reality p0) with (p_reality p) in *.
  rename select (_ = Ok (p', d')) into Hrun. unfold created_peer.
  destruct (p_reality p) eqn:Hr.
  - unfold ensurePeerReality in Hrun. rewrite decide_False in Hrun by (intros [? ?]; done). inv_tx.
    rename select (sql_insert_cred _ _ _ = _) into Hic. rename select (sql_update_peer _ _ _ = _) into Hu.
    apply sql_insert_cred_Ok in Hic as (_ & _ & ->). simpl in Hu.
    apply sql_update_peer_Ok in Hu as [(_ & q & Hq & _ & _ & _ & ->)|(_ & _ & Hq)];
      simpl in Hq; rewrite lookup_insert_eq in Hq; [|done].
    assert (q = peer_row p0) as -> by congruence. fold p0. simpl.
    rewrite insert_insert_eq. split_and!; try done.
    set (q := peer_set_cred newCred 1 (peer_row p0)).
    apply (wf_set_peer_cred d (p_id p0) q
             (<[p_id p0 := MkCred newCred 1 newUUID]> (reality_credentials d))); try done.
    + unfold cred_agrees, cred_checked. change (p_id q) with (p_id p0). by rewrite lookup_insert_eq.
    + intros k Hk. by rewrite lookup_insert_ne.
  - injection Hrun as <- <-. fold p0. split_and!; try done.
    replace (set_peers _ d) with (set_creds (reality_credentials d)
      (set_peers (<[p_id p0 := peer_row p0]> (peers d)) d)) by by destruct d.
    apply wf_set_peer_cred; try done.
    unfold cred_agrees, cred_checked. change (p_id (peer_row p0)) with (p_id p0). by rewrite Hcn.
Qed.

Lemma PatchPeer_inv d newCred newUUID next id patch p' d' :
  wf d -> newCred <> EmptyString -> id <> EmptyString ->
  PatchPeer newCred newUUID next id patch d = Ok (p', d') ->
  exists old, peers d !! id = Some old /\ wf d' /\ peers d' !! id = Some p' /\
    (exists cid rev, p' = peer_set_cred cid rev (patch_merge patch old)) /\
    (forall k, k <> id -> peers d' !! k = peers d !! k /\
       reality_credentials d' !! k = reality_credentials d !! k) /\
    rules d' = rules d /\ tunnels d' = tunnels d /\
    (old.(p_enabled) && old.(p_reality) = true -> p'.(p_enabled) && p'.(p_reality) = false ->
     exists c, reality_credentials d' !! id = Some (MkCred old.(p_cred_id) (old.(p_revision) + 1) (next id)) /\
       reality_credentials d !! id = Some c).
Proof.
  intros Hd Hne Hid H. unfold PatchPeer in H. apply tx_bind_Ok in H as (old & d0 & Hold & H).
  unfold GetPeer in Hold. destruct (peers d !! id) as [o|] eqn:Ho; [|done]. injection Hold as -> <-.
  apply tx_bind_Ok in H as (p & d0 & [Ha ->]%lift_Ok & H).
  unfold Apply in Ha. apply result_bind_Ok in Ha as (_ & _ & [= <-]).
  pose proof (po_id _ _ (wf_peers d Hd) _ _ Ho) as Hido.
  set (m := patch_merge patch old) in *. assert (Hm : p_id m = id) by done.
  apply tx_bind_Ok in H as (p1 & d1 & H1 & H).
  assert (exists cid rev, p1 = peer_set_cred cid rev m /\ wf d1 /\
    peers d1 = <[id := peer_set_cred cid rev old]> (peers d) /\
    tunnels d1 = tunnels d /\ rules d1 = rules d /\
    (forall k, k <> id -> reality_credentials d1 !! k = reality_credentials d !! k) /\
    (p_reality m = true -> is_Some (reality_credentials d1 !! id)) /\
    (forall c, reality_credentials d !! id = Some c -> reality_credentials d1 !! id = Some c /\
       cid = p_cred_id old /\ rev = p_revision old))
    as (cid & rev & -> & Hd1 & Hp1 & Ht1 & Hr1 & Hc1 & Hreal & Hkeep).
  { destruct (p_reality m) eqn:Hrm.
    - pose proof (wf_cred_checked d _ _ Hd Ho) as Hck. unfold cred_checked in Hck.
      destruct (reality_credentials d !! id) as [c|] eqn:Hc.
      + destruct Hck as (Hc1 & Hc2 & Hc3 & Hc4). unfold ensurePeerReality in H1.
        rewrite decide_True in H1.
        2: { split; [change (p_cred_id m) with (p_cred_id old); congruence|].
             change (p_revision m) with (p_revision old). lia. }
        injection H1 as <- <-. exists (p_cred_id old), (p_revision old).
        assert (peer_set_cred (p_cred_id old) (p_revision old) old = old) as -> by by destruct old.
        rewrite insert_id by done. split_and!; try done. intros c' [= <-]. done.
      + destruct (ensurePeerReality_wf d m old newCred newUUID p1 d1)
          as (cid & rev & -> & Hwf & Hp & Ht & Hr & Hcs & [c' Hc'] & _); try done; try by rewrite Hm.
        rewrite Hm in *. exists cid, rev. split_and!; try done.
    - injection H1 as <- <-. exists (p_cred_id old), (p_revision old).
      assert (peer_set_cred (p_cred_id old) (p_revision old) old = old) as -> by by destruct old.
      rewrite insert_id by done. split_and!; try done. }
  apply tx_bind_Ok in H as ([] & d2 & H2 & H).
  apply updatePeer_inv in H2 as (old1 & Ho1 & -> & Hd2); [|done|].
  2: { change (p_id (peer_set_cred cid rev m)) with (p_id m). rewrite Hm. exact Hreal. }
  change (p_id (peer_set_cred cid rev m)) with (p_id m) in *. rewrite Hm in *.
  rewrite Hp1, lookup_insert_eq in Ho1. injection Ho1 as <-.
  set (d2 := set_peers _ d1) in *.
  assert (Hrow : peers d2 !! id = Some (peer_set_cred cid rev m)).
  { unfold d2. simpl. by rewrite lookup_insert_eq. }
  assert (Hoth : forall k, k <> id -> peers d2 !! k = peers d !! k /\
       reality_credentials d2 !! k = reality_credentials d !! k).
  { intros k Hk. unfold d2. simpl. rewrite Hp1, !lookup_insert_ne by done. auto. }
  change (p_enabled (peer_set_cred cid rev m)) with (p_enabled m) in H.
  change (p_reality (peer_set_cred cid rev m)) with (p_reality m) in H.
  exists old. destruct (p_enabled old && p_reality old) eqn:Hact; cbn [andb] in H.
  2: { injection H as <- <-. split_and!; try done; eauto. }
  destruct (negb (p_enabled m) || negb (p_reality m)) eqn:Hoff.
  2: { injection H as <- <-. split_and!; try done; [eauto|].
       intros _ Hx. exfalso. change (p_enabled m && p_reality m = false) in Hx.
       apply orb_false_iff in Hoff as [He%negb_false_iff Hr%negb_false_iff].
       by rewrite He, Hr in Hx. }
  apply tx_bind_Ok in H as (u & d3 & H3 & [= <- <-]).
  apply invalidateReality_run in H3 as (Hd3 & Ht3 & Hr3 & _ & _ & _ & Hc3 & Hp3); [|done].
  pose proof (wf_cred_checked d _ _ Hd Ho) as Hck. unfold cred_checked in Hck.
  apply andb_true_iff in Hact as [_ Hre].
  destruct (reality_credentials d !! id) as [c|] eqn:Hc; [|by destruct Hck as (_ & _ & ?); congruence].
  destruct Hck as (Hk1 & Hk2 & Hk3 & Hk4). destruct (Hkeep c eq_refl) as (Hcd & -> & ->).
  split_and!; try done.
  - rewrite Hp3, decide_True by by right. rewrite Hrow. simpl. rewrite decide_False by lia. done.
  - by exists (p_cred_id old), (p_revision old + 1)%Z.
  - intros k Hk. rewrite Hp3, Hc3, !decide_False by naive_solver. auto.
  - rewrite Hr3. done.
  - rewrite Ht3. done.
  - intros _ _. exists c. rewrite Hc3, decide_True by by right. unfold d2. simpl. rewrite Hcd. simpl.
    split; [|done]. unfold bump. by rewrite Hk1, Hk2.
Qed.
End handlers.

(** ** Properties *)

(** What deletion reports. *)
Lemma elem_of_effects (f : PeerDeletion -> list string) id rs k :
  k ∈ concat (f <$> (effect_of id <$> rs)) <-> exists r, r ∈ rs /\ k ∈ f (effect_of id r).
Proof.
  rewrite list_elem_of_In, in_concat. setoid_rewrite <- list_elem_of_In. split.
  - intros (l & Hl & Hk). apply list_elem_of_fmap in Hl as (e & -> & He).
    apply list_elem_of_fmap in He as (r & -> & Hr). eauto.
  - intros (r & Hr & Hk). eexists. split; [|exact Hk]. by do 2 apply list_elem_of_fmap_2.
Qed.

Lemma DeletePeerWithEffects_run d id :
  wf d ->
  match peers d !! id with
  | None => DeletePeerWithEffects id d = fail ErrNotFound "peer"
  | Some _ => exists eff d', DeletePeerWithEffects id d = Ok (eff, d') /\ wf d' /\
      peers d' = delete id (peers d) /\
      reality_credentials d' = delete id (reality_credentials d) /\
      tunnels d' = tunnels d /\ rules d' = without id <$> rules d /\
      ruleIDsByPriority d' = ruleIDsByPriority d /\
      (forall k, k ∈ eff.(pd_affected) <-> exists r, rules d !! k = Some r /\ id ∈ r.(r_peers)) /\
      (forall k, k ∈ eff.(pd_inactivated) <->
         exists r, rules d !! k = Some r /\ id ∈ r.(r_peers) /\ forall p, p ∈ r.(r_peers) -> p = id)
  end.
Proof.
  intros Hd. unfold DeletePeerWithEffects, mbind, tx_bind, sql_delete_peer, checkAffected.
  destruct (peers d !! id) as [p|] eqn:Hp; [|done]. simpl.
  set (d1 := set_creds _ _). pose proof (wf_keyed d Hd) as Hk.
  assert (Hq : q_rules d1 = q_rules d) by done. rewrite Hq.
  assert (Hin : forall r, r ∈ q_rules d <-> rules d !! r_id r = Some r).
  { intros r. rewrite elem_of_q_rules. split; [|eauto]. intros [k Hr].
    by rewrite (rk_id _ Hk _ _ Hr). }
  destruct (prune_rules_run d1 (peers d) id (q_rules d)) as (m & Hm & Hrows & Ho & Hl);
    [apply Hd|by apply NoDup_ruleIDs|intros r; apply Hin|].
  assert (Hmap : m = without id <$> rules d).
  { apply map_eq. intros k. rewrite Hl, lookup_fmap. case_decide as Hni; [done|].
    simpl. destruct (rules d !! k) as [r|] eqn:Hr; [|done]. exfalso. apply Hni.
    rewrite <- (rk_id _ Hk _ _ Hr). apply list_elem_of_fmap_2, Hin. by rewrite (rk_id _ Hk _ _ Hr). }
  subst m. change (peers d1) with (delete id (peers d)) in *.
  change (tunnels d1) with (tunnels d) in *. rewrite Hm. eexists _, _. split; [done|].
  split_and!; [by apply wf_delete_peer|done|done|done|done|by rewrite Ho| |]; intros k;
    cbn [pd_affected pd_inactivated]; rewrite elem_of_effects; unfold effect_of; split.
  - intros (r & Hr%Hin & Hkr). case_decide; [|by apply elem_of_nil in Hkr].
    apply list_elem_of_singleton in Hkr as ->. by exists r.
  - intros (r & Hr & Hpe). exists r. rewrite Hin, (rk_id _ Hk _ _ Hr), decide_True by done.
    split; [done|]. by apply list_elem_of_singleton.
  - intros (r & Hr%Hin & Hkr). case_decide; [|by apply elem_of_nil in Hkr]. simpl in Hkr.
    destruct (decide (filter _ _ = [])) as [Hf|]; [|by apply elem_of_nil in Hkr].
    apply list_elem_of_singleton in Hkr as ->. exists r. split_and!; [done..|].
    intros q Hq'. rewrite filter_nil_iff in Hf. specialize (Hf q Hq'). by apply dec_stable.
  - intros (r & Hr & Hpe & Hall). exists r. rewrite Hin, (rk_id _ Hk _ _ Hr), decide_True by done.
    split; [done|]. simpl. rewrite decide_True; [by apply list_elem_of_singleton|].
    apply filter_nil_iff. intros q Hq' Hne. by apply Hne, Hall.
Qed.

(** C8: deleting a client removes it and its credential, and takes it out of
    every rule that selected it; a rule left without clients is disabled and
    keeps its selected scope, so no rule ever applies to anyone it did not
    apply to before.  The reported rules are exactly those changed, and the
    inactivated ones exactly those left without clients.  The state stays well
    formed and the order of the rules is kept. *)
Theorem DeletePeerWithEffects_correct d id :
  wf d ->
  match peers d !! id with
  | None => run (DeletePeerWithEffects id) d = (fail ErrNotFound "peer", d)
  | Some _ => exists eff d', run (DeletePeerWithEffects id) d = (Ok eff, d') /\ wf d' /\
      peers d' = delete id (peers d) /\
      reality_credentials d' = delete id (reality_credentials d) /\
      tunnels d' = tunnels d /\ rules d' = without id <$> rules d /\
      ruleIDsByPriority d' = ruleIDsByPriority d /\
      (forall k, k ∈ eff.(pd_affected) <-> exists r, rules d !! k = Some r /\ id ∈ r.(r_peers)) /\
      (forall k, k ∈ eff.(pd_inactivated) <->
         exists r, rules d !! k = Some r /\ id ∈ r.(r_peers) /\ forall p, p ∈ r.(r_peers) -> p = id)
  end.
Proof.
  intros Hd. pose proof (DeletePeerWithEffects_run d id Hd) as H. unfold run.
  destruct (peers d !! id); [|by rewrite H]. destruct H as (eff & d' & -> & H). by exists eff, d'.
Qed.

Example DeletePeerWithEffects_correct_witness :
  exists eff d', run (DeletePeerWithEffects "alice") sample_db = (Ok eff, d') /\
    r_enabled <$> rules d' !! "r1" = Some false /\ "r1" ∈ eff.(pd_inactivated).
Proof.
  pose proof (DeletePeerWithEffects_correct sample_db "alice" sample_wf) as H.
  assert (peers sample_db !! "alice" = Some sample_alice) as E by by vm_compute. rewrite E in H.
  destruct H as (eff & d' & Hrun & _ & _ & _ & _ & Hr & _ & _ & Hin).
  assert (rules sample_db !! "r1" = Some sample_r1) as E1 by by vm_compute.
  exists eff, d'. split; [exact Hrun|]. split.
  - rewrite Hr, lookup_fmap, E1. by vm_compute.
  - apply Hin. exists sample_r1. split; [exact E1|]. split; [apply list_elem_of_here|].
    by intros p ->%list_elem_of_singleton.
Defined.

(** A client patch changes the fields it names and no others, in that
    client's row alone; switching off the access of an active REALITY client
    raises its credential's revision and replaces its UUID in the same
    transaction.  The stored row is the returned one and the state stays well
    formed (a client with REALITY access always has a credential). *)
Theorem PatchPeer_correct d newCred newUUID next id patch p' d' :
  wf d -> newCred <> EmptyString -> id <> EmptyString ->
  run (PatchPeer newCred newUUID next id patch) d = (Ok p', d') ->
  wf d' /\ peers d' !! id = Some p' /\
  exists old, peers d !! id = Some old /\
    (exists cid rev, p' = peer_set_cred cid rev (patch_merge patch old)) /\
    (forall k, k <> id -> peers d' !! k = peers d !! k /\
       reality_credentials d' !! k = reality_credentials d !! k) /\
    rules d' = rules d /\ tunnels d' = tunnels d /\
    (old.(p_enabled) && old.(p_reality) = true -> p'.(p_enabled) && p'.(p_reality) = false ->
     exists c, reality_credentials d' !! id = Some (MkCred old.(p_cred_id) (old.(p_revision) + 1) (next id)) /\
       reality_credentials d !! id = Some c).
Proof.
  intros Hd Hne Hid H%run_Ok. destruct (PatchPeer_inv _ _ _ _ _ _ _ _ Hd Hne Hid H)
    as (old & ? & ? & ? & ?). split_and!; [done|done|]. by exists old.
Qed.

Definition patch_off : PeerPatch := MkPatch None None None (Some false) false None.

Example PatchPeer_correct_witness :
  let res := run (PatchPeer "c2" "u2" (fun _ => "u3") "alice" patch_off) sample_db in
  is_ok res.1 = true /\ wf res.2 /\
  exists c, reality_credentials res.2 !! "alice" = Some (MkCred "cred-1" 4 "u3") /\
            reality_credentials sample_db !! "alice" = Some c.
Proof.
  intros res. assert (Hok : is_ok res.1 = true) by by vm_compute.
  pose proof Hok as [p' Hp']%is_ok_Ok.
  destruct (PatchPeer_correct sample_db "c2" "u2" (fun _ => "u3") "alice" patch_off p' res.2 sample_wf)
    as (Hwf & _ & old & Hold & (cid & rev & Hrow) & _ & _ & _ & Hc); [done|done|exact (run_fst _ _ _ Hp')|].
  split; [exact Hok|]. split; [exact Hwf|].
  assert (peers sample_db !! "alice" = Some sample_alice) as E by by vm_compute.
  rewrite E in Hold. injection Hold as <-. apply Hc; [done|]. rewrite Hrow. done.
Defined.

Lemma RotateReality_inv d newUUID id expected p' d' :
  wf d -> RotateReality newUUID id expected d = Ok (p', d') ->
  exists old c, peers d !! id = Some old /\ reality_credentials d !! id = Some c /\
    old.(p_reality) = true /\ old.(p_revision) = expected /\ (1 <= expected)%Z /\
    p' = peer_set_revision (expected + 1) old /\
    d' = set_creds (<[id := MkCred c.(cr_id) (expected + 1) newUUID]> (reality_credentials d))
           (set_peers (<[id := p']> (peers d)) d) /\ wf d'.
Proof.
  intros Hd H. unfold RotateReality in H. apply tx_bind_Ok in H as (old & d0 & Ho & H).
  unfold GetPeer in Ho. destruct (peers d !! id) as [o|] eqn:Hp; [|done]. injection Ho as -> <-.
  apply tx_bind_Ok in H as (u & d0 & [Hg ->]%lift_Ok & H). apply guard_err_Ok in Hg.
  apply orb_false_iff in Hg as [[Hr%negb_false_iff He]%orb_false_iff Hx]. reflect_bools.
  apply tx_bind_Ok in H as (b & d1 & H1 & H). apply tx_bind_Ok in H as (b2 & d2 & H2 & [= <- <-]).
  pose proof (wf_cred_checked d _ _ Hd Hp) as Hck. unfold cred_checked in Hck.
  destruct (reality_credentials d !! id) as [c|] eqn:Hc; [|destruct Hck; lia].
  destruct Hck as (Hk1 & Hk2 & Hk3 & Hk4). subst expected.
  apply sql_update_cred_Ok in H1 as [(_ & c0 & Hc0 & _ & ->)|(_ & _ & Hn)].
  2: { specialize (Hn c Hc). reflect_bools. by destruct Hn. }
  assert (c0 = c) as -> by congruence.
  apply sql_update_peer_Ok in H2 as [(_ & q & Hq & _ & _ & _ & ->)|(_ & _ & Hq)]; simpl in Hq;
    [|congruence].
  assert (q = old) as -> by congruence. exists old, c. split_and!; try done; [lia|].
  apply (wf_peers_creds_one d id old (peer_set_revision (p_revision old + 1) old)
           (MkCred (cr_id c) (p_revision old + 1) newUUID)); simpl; try done. lia.
Qed.

(** [RotateReality] replaces a credential only if the caller saw the
    current revision of a client whose access is on; the old bearer is gone,
    the revision strictly grows (so a second rotation from the same view is
    refused with [ErrConflict]) and the state stays well formed. *)
Theorem RotateReality_correct d newUUID id expected p' d' newUUID2 :
  wf d -> run (RotateReality newUUID id expected) d = (Ok p', d') ->
  wf d' /\ (exists old c, peers d !! id = Some old /\ reality_credentials d !! id = Some c /\
    old.(p_reality) = true /\ old.(p_revision) = expected /\
    peers d' = <[id := p']> (peers d) /\ p' = peer_set_revision (expected + 1) old /\
    reality_credentials d' =
      <[id := MkCred c.(cr_id) (expected + 1) newUUID]> (reality_credentials d)) /\
  rules d' = rules d /\ tunnels d' = tunnels d /\
  run (RotateReality newUUID2 id expected) d' = (fail ErrConflict "credential revision changed", d').
Proof.
  intros Hd H%run_Ok.
  destruct (RotateReality_inv _ _ _ _ _ _ Hd H) as (old & c & Hp & Hc & Hr & He & Hle & -> & -> & Hwf).
  split; [done|]. split_and!; try done; [by exists old, c|].
  unfold run, RotateReality, GetPeer, mbind, tx_bind, guard_tx, lift. simpl.
  rewrite lookup_insert_eq. simpl. rewrite Hr.
  rewrite (bool_decide_eq_true_2 (_ <> expected)) by lia. done.
Qed.

Example RotateReality_correct_witness :
  let res := run (RotateReality "u9" "alice" 3) sample_db in
  is_ok res.1 = true /\ wf res.2 /\
  run (RotateReality "u10" "alice" 3) res.2 = (fail ErrConflict "credential revision changed", res.2).
Proof.
  intros res. assert (Hok : is_ok res.1 = true) by by vm_compute.
  pose proof Hok as [p' Hp']%is_ok_Ok.
  destruct (RotateReality_correct sample_db "u9" "alice" 3 p' res.2 "u10" sample_wf
    (run_fst _ _ _ Hp')) as (Hwf & _ & _ & _ & Hc).
  split; [exact Hok|]. split; [exact Hwf|exact Hc].
Defined.

Lemma ResetReality_run d :
  ResetRealityAfterRestore d = Ok (tt, set_settings (<["reality_enabled" := "false"]> (settings_kv d))
    (set_identity None (set_creds ∅ (set_peers (reset_peer <$> peers d) d)))).
Proof. by destruct d. Qed.

Lemma ResetReality_wf d : wf d -> wf (run ResetRealityAfterRestore d).2.
Proof.
  intros Hd. unfold run. rewrite ResetReality_run. cbn [snd].
  apply wf_set_settings, wf_set_identity, wf_peers_creds; [done| | | |].
  - intros k p'. rewrite lookup_fmap. intros (p & Hp & ->)%fmap_Some. by exists p.
  - intros k Hp. by rewrite lookup_fmap, fmap_is_Some.
  - intros k. rewrite lookup_empty. by intros []%is_Some_None.
  - intros k p'. rewrite lookup_fmap. intros (p & Hp & ->)%fmap_Some.
    unfold cred_checked. by rewrite lookup_empty.
Qed.

Lemma UpdatePeer_inv d p d' :
  wf d -> UpdatePeer p d = Ok (tt, d') ->
  exists old, peers d !! p.(p_id) = Some old /\ transport_change old p = false /\ wf d' /\
    d' = set_peers (<[p.(p_id) := peer_overwrite p old]> (peers d)) d.
Proof.
  intros Hd H. unfold UpdatePeer in H. inv_tx. rename select (GetPeer _ _ = _) into Hg.
  unfold GetPeer in Hg. destruct (peers d !! p_id p) as [old|] eqn:Ho; [|done].
  injection Hg as <- <-. rename select (transport_change _ _ = _) into Htc.
  rename select (updatePeer _ _ = _) into Hu.
  apply updatePeer_inv in Hu as (old1 & Ho1 & -> & Hwf); [|done|].
  - assert (old1 = old) as -> by congruence. by exists old.
  - intros Hr. unfold transport_change in Htc. rewrite Hr, orb_true_r in Htc. simpl in Htc.
    pose proof (wf_cred_checked d _ _ Hd Ho) as Hck. unfold cred_checked in Hck.
    destruct (reality_credentials d !! p_id p); [done|]. destruct Hck as (_ & _ & Hf).
    by rewrite Hf in Htc.
Qed.

Lemma UpdatePeer_wf d p : wf d -> wf (run (UpdatePeer p) d).2.
Proof.
  intros Hd. unfold run. destruct (UpdatePeer p d) as [[[] d']|] eqn:H; [|done].
  by apply UpdatePeer_inv in H as (_ & _ & _ & ? & _).
Qed.

Lemma CreatePeer_wf d newID newCred newUUID now p :
  wf d -> newCred <> EmptyString -> wf (run (CreatePeer newID newCred newUUID now p) d).2.
Proof.
  intros Hd Hne. unfold run. destruct (CreatePeer _ _ _ _ _ d) as [[p' d']|] eqn:H; [|done].
  by apply CreatePeer_inv in H as (_ & _ & _ & ? & _).
Qed.

(** every other write to [peers] keeps the state well formed: [CreatePeer]
    (which ignores any credential in its argument and issues one when access
    is on), [UpdatePeer] (which never changes a client's transports once
    REALITY is involved) and the reset after a restore (after which no client
    has a credential or REALITY access and there is no server identity). *)
Theorem peer_writes_wf d newID newCred newUUID now p :
  wf d -> newCred <> EmptyString ->
  wf (run (CreatePeer newID newCred newUUID now p) d).2 /\
  wf (run (UpdatePeer p) d).2 /\
  (forall d', run (UpdatePeer p) d = (Ok tt, d') -> exists old q,
     peers d !! p.(p_id) = Some old /\ peers d' !! p.(p_id) = Some q /\
     q.(p_reality) = old.(p_reality) /\ q.(p_cred_id) = old.(p_cred_id) /\
     q.(p_revision) = old.(p_revision) /\
     (old.(p_reality) = true -> q.(p_enabled) = old.(p_enabled))) /\
  let r := (run ResetRealityAfterRestore d).2 in
  wf r /\ reality_credentials r = ∅ /\ reality_identity r = None /\
  (forall k q, peers r !! k = Some q -> q.(p_reality) = false).
Proof.
  intros Hd Hne.
  cbv zeta. split_and!; [by apply CreatePeer_wf|by apply UpdatePeer_wf| |by apply ResetReality_wf| | |].
  - intros d' H%run_Ok. apply UpdatePeer_inv in H as (old & Ho & Htc & _ & ->); [|done].
    exists old, (peer_overwrite p old). simpl. rewrite lookup_insert_eq. unfold transport_change in Htc.
    split_and!; try done; by destruct (p_reality old), (p_reality p), (p_enabled old), (p_enabled p).
  - unfold run. by rewrite ResetReality_run.
  - unfold run. by rewrite ResetReality_run.
  - unfold run. rewrite ResetReality_run. simpl. intros k q. rewrite lookup_fmap.
    by intros (p0 & _ & ->)%fmap_Some.
Qed.

Example peer_writes_wf_witness :
  let p := MkPeer false true "" 0 (Some "vl") "" "Carol" "pubC" "privC" "pskC" "10.77.0.4" true
             zero_time in
  let res := run (CreatePeer "carol" "cred-2" "uuid-2" 5 p) sample_db in
  is_ok res.1 = true /\ wf res.2.
Proof.
  intros p res. split; [by vm_compute|].
  exact (proj1 (peer_writes_wf sample_db "carol" "cred-2" "uuid-2" 5 p sample_wf ltac:(discriminate))).
Defined.
