(* ===== verification/SettingsStore.v ===== *)
(** * Settings: [internal/store/settings.go] and its neighbours

    The [Settings] record, its defaults, validation and its key/value form in
    the table [settings]; [SaveSettings]/[UpdateSettings] with the REALITY
    side effects; the server identity; and the keys other files keep in the
    same table ([install.go], [notify.go], [wgkeys.go]).  Unicode upper-casing
    of a hand-edited country list is the class [Unicode] of [GoStd]. *)

From Stdlib Require Import Ascii.
From S2P Require Import Prelude GoStd Model Db Wf Sample RulesStore PeersStore.
#[local] Open Scope Z_scope.

Definition MinClientMTU : Z := 1280.
Definition MaxClientMTU : Z := 1420.
Definition MinPoolUpdateInterval : Z := 30 * minute.

Record Settings := MkSettings {
  s_reality : bool;
  s_reality_port : Z;
  s_reality_server : string;
  s_handshake_server : string;
  s_handshake_port : Z;
  s_wg_port : Z;
  s_wg_pool : string;
  s_wg_server : string;
  s_endpoint : string;
  s_mtu : Z;
  s_dns : string;
  s_dns_type : string;
  s_wan : string;
  s_list_interval : Z;    (** durations in nanoseconds *)
  s_pool_interval : Z;
  s_blocklist : list string;
  s_check_interval : Z;
  s_log : string
}.

Definition DefaultPoolCountryBlocklist : list string := ["RU"; "BY"].
Definition DefaultSettings : Settings :=
  MkSettings false 8443 "" "" 443 51820 "10.8.0.0/24" "10.8.0.1" "" 1280 "1.1.1.1" "udp" ""
    (24 * hour) hour DefaultPoolCountryBlocklist (2 * minute) "warn".

(** ** Validation *)
Definition host_char (b : Z) : bool :=
  bool_decide (97 <= b <= 122) || bool_decide (65 <= b <= 90) || bool_decide (48 <= b <= 57) ||
  bool_decide (b = 46) || bool_decide (b = 45).

(** [net.ParseIP] accepts what [netip.ParseAddr] accepts without a zone. *)
Definition ParseIP (s : string) : bool :=
  match ParseAddr s with
  | Some (V4 _) => true
  | Some (V6 _ zone) => bool_decide (zone = EmptyString)
  | None => false
  end.

(** [strings.ContainsAny(value, " /\?#@\t\r\n")], one byte. *)
Definition url_char (b : Z) : bool := bool_decide (b ∈ [32; 47; 92; 63; 35; 64; 9; 13; 10]).

Definition valid_reality_host (value : string) : bool :=
  bool_decide (value <> EmptyString) && all_bytes (fun b => negb (url_char b)) value &&
  (ParseIP value || all_bytes host_char value).

Definition reserved_ports : list Z := [22; 53; 80; 443; 1602; 8080; 9090].

(** [validateReality] *)
Definition validateReality (v : Settings) : result unit :=
  if negb v.(s_reality) then Ok tt
  else
    _ ← guard_err (bool_decide (v.(s_reality_port) < 1) || bool_decide (65535 < v.(s_reality_port)))
          ErrInvalid "reality port";
    _ ← guard_err (bool_decide (v.(s_reality_port) ∈ reserved_ports)) ErrInvalid "reserved port";
    _ ← guard_err (bool_decide (v.(s_handshake_port) < 1) || bool_decide (65535 < v.(s_handshake_port)))
          ErrInvalid "handshake port";
    _ ← guard_err (negb (valid_reality_host v.(s_reality_server))) ErrInvalid "reality host";
    guard_err (negb (valid_reality_host v.(s_handshake_server))) ErrInvalid "reality host".

(** [isCountryCode] *)
Definition is_upper (c : ascii) : bool := bool_decide (65 <= byte_of c <= 90).
Definition isCountryCode (code : string) : bool :=
  match code with
  | String a (String b EmptyString) => is_upper a && is_upper b
  | _ => false
  end.

Definition validate_wg (v : Settings) : result unit :=
  _ ← guard_err (bool_decide (v.(s_wg_port) < 1) || bool_decide (65535 < v.(s_wg_port)))
        ErrInvalid "wireguard port";
  _ ← guard_err (bool_decide (v.(s_mtu) < MinClientMTU) || bool_decide (MaxClientMTU < v.(s_mtu)))
        ErrInvalid "mtu";
  _ ← guard_err (bool_decide (v.(s_wg_pool) = EmptyString) || bool_decide (v.(s_wg_server) = EmptyString))
        ErrInvalid "pool and server address required";
  match ParsePrefix v.(s_wg_pool) with
  | None => fail ErrInvalid "pool is not a subnet"
  | Some pool =>
      _ ← guard_err (negb (Is4 (prefix_addr pool))) ErrInvalid "pool is not IPv4";
      match ParseAddr v.(s_wg_server) with
      | Some (V4 ip) => guard_err (negb (Contains pool (V4 ip))) ErrInvalid "server outside pool"
      | _ => fail ErrInvalid "server is not IPv4"
      end
  end.

(** [Settings.validate] *)
Definition validate (v : Settings) : result unit :=
  _ ← validateReality v;
  _ ← validate_wg v;
  _ ← guard_err (bool_decide (v.(s_dns) = EmptyString)) ErrInvalid "dns upstream";
  _ ← guard_err (bool_decide (v.(s_dns_type) ∉ ["udp"; "dot"; "doh"])) ErrInvalid "dns type";
  _ ← guard_err (bool_decide (v.(s_log) ∉ ["debug"; "info"; "warn"; "error"])) ErrInvalid "log level";
  _ ← guard_err (bool_decide (v.(s_list_interval) <= 0)) ErrInvalid "list interval";
  _ ← guard_err (bool_decide (v.(s_pool_interval) < MinPoolUpdateInterval)) ErrInvalid "pool interval";
  _ ← guard_err (negb (forallb isCountryCode v.(s_blocklist))) ErrInvalid "country code";
  guard_err (bool_decide (v.(s_check_interval) < 30 * second)) ErrInvalid "check interval".

(** [ValidateRealityDelivery] *)
Definition ValidateRealityDelivery (v : Settings) : result unit :=
  _ ← validateReality v;
  _ ← guard_err (bool_decide (v.(s_endpoint) = EmptyString)) ErrInvalid "no public endpoint";
  guard_err (negb (ParseIP v.(s_endpoint) || all_bytes host_char v.(s_endpoint)))
    ErrInvalid "bad public endpoint".

(** ** The key/value form *)

(** [strconv.FormatInt(int64(d/time.Second), 10)] *)
Definition seconds_of (d : Z) : Z := Z.quot d second.
(** [time.Duration(seconds) * time.Second] *)
Definition duration_of (n : Z) : Z := wrap64 (n * second).

(** [Settings.values] *)
Definition values (v : Settings) : list (string * string) :=
  [("reality_enabled", FormatBool v.(s_reality));
   ("reality_listen_port", Itoa v.(s_reality_port));
   ("reality_server_name", v.(s_reality_server));
   ("reality_handshake_server", v.(s_handshake_server));
   ("reality_handshake_port", Itoa v.(s_handshake_port));
   ("wg_listen_port", Itoa v.(s_wg_port));
   ("wg_pool", v.(s_wg_pool));
   ("wg_server_address", v.(s_wg_server));
   ("endpoint_host", v.(s_endpoint));
   ("client_mtu", Itoa v.(s_mtu));
   ("dns_upstream", v.(s_dns));
   ("dns_type", v.(s_dns_type));
   ("wan_interface", v.(s_wan));
   ("list_update_interval", Itoa (seconds_of v.(s_list_interval)));
   ("pool_update_interval", Itoa (seconds_of v.(s_pool_interval)));
   ("pool_country_blocklist", Join v.(s_blocklist) ",");
   ("tunnel_check_interval", Itoa (seconds_of v.(s_check_interval)));
   ("log_level", v.(s_log))].

(** [parseCountryList] *)
Definition parseCountryList `{Unicode} (value : string) : list string :=
  filter (fun code => code <> EmptyString) ((fun part => ToUpper (TrimSpace part)) <$> Split value ",").

(** Field updates of the [set] switch. *)
Definition with_reality b v := MkSettings b (s_reality_port v) (s_reality_server v)
  (s_handshake_server v) (s_handshake_port v) (s_wg_port v) (s_wg_pool v) (s_wg_server v)
  (s_endpoint v) (s_mtu v) (s_dns v) (s_dns_type v) (s_wan v) (s_list_interval v)
  (s_pool_interval v) (s_blocklist v) (s_check_interval v) (s_log v).
Definition with_reality_port n v := MkSettings (s_reality v) n (s_reality_server v)
  (s_handshake_server v) (s_handshake_port v) (s_wg_port v) (s_wg_pool v) (s_wg_server v)
  (s_endpoint v) (s_mtu v) (s_dns v) (s_dns_type v) (s_wan v) (s_list_interval v)
  (s_pool_interval v) (s_blocklist v) (s_check_interval v) (s_log v).
Definition with_reality_server x v := MkSettings (s_reality v) (s_reality_port v) x
  (s_handshake_server v) (s_handshake_port v) (s_wg_port v) (s_wg_pool v) (s_wg_server v)
  (s_endpoint v) (s_mtu v) (s_dns v) (s_dns_type v) (s_wan v) (s_list_interval v)
  (s_pool_interval v) (s_blocklist v) (s_check_interval v) (s_log v).
Definition with_handshake_server x v := MkSettings (s_reality v) (s_reality_port v)
  (s_reality_server v) x (s_handshake_port v) (s_wg_port v) (s_wg_pool v) (s_wg_server v)
  (s_endpoint v) (s_mtu v) (s_dns v) (s_dns_type v) (s_wan v) (s_list_interval v)
  (s_pool_interval v) (s_blocklist v) (s_check_interval v) (s_log v).
Definition with_handshake_port n v := MkSettings (s_reality v) (s_reality_port v)
  (s_reality_server v) (s_handshake_server v) n (s_wg_port v) (s_wg_pool v) (s_wg_server v)
  (s_endpoint v) (s_mtu v) (s_dns v) (s_dns_type v) (s_wan v) (s_list_interval v)
  (s_pool_interval v) (s_blocklist v) (s_check_interval v) (s_log v).
Definition with_wg_port n v := MkSettings (s_reality v) (s_reality_port v) (s_reality_server v)
  (s_handshake_server v) (s_handshake_port v) n (s_wg_pool v) (s_wg_server v)
  (s_endpoint v) (s_mtu v) (s_dns v) (s_dns_type v) (s_wan v) (s_list_interval v)
  (s_pool_interval v) (s_blocklist v) (s_check_interval v) (s_log v).
Definition with_wg_pool x v := MkSettings (s_reality v) (s_reality_port v) (s_reality_server v)
  (s_handshake_server v) (s_handshake_port v) (s_wg_port v) x (s_wg_server v)
  (s_endpoint v) (s_mtu v) (s_dns v) (s_dns_type v) (s_wan v) (s_list_interval v)
  (s_pool_interval v) (s_blocklist v) (s_check_interval v) (s_log v).
Definition with_wg_server x v := MkSettings (s_reality v) (s_reality_port v) (s_reality_server v)
  (s_handshake_server v) (s_handshake_port v) (s_wg_port v) (s_wg_pool v) x
  (s_endpoint v) (s_mtu v) (s_dns v) (s_dns_type v) (s_wan v) (s_list_interval v)
  (s_pool_interval v) (s_blocklist v) (s_check_interval v) (s_log v).
Definition with_endpoint x v := MkSettings (s_reality v) (s_reality_port v) (s_reality_server v)
  (s_handshake_server v) (s_handshake_port v) (s_wg_port v) (s_wg_pool v) (s_wg_server v)
  x (s_mtu v) (s_dns v) (s_dns_type v) (s_wan v) (s_list_interval v)
  (s_pool_interval v) (s_blocklist v) (s_check_interval v) (s_log v).
Definition with_mtu n v := MkSettings (s_reality v) (s_reality_port v) (s_reality_server v)
  (s_handshake_server v) (s_handshake_port v) (s_wg_port v) (s_wg_pool v) (s_wg_server v)
  (s_endpoint v) n (s_dns v) (s_dns_type v) (s_wan v) (s_list_interval v)
  (s_pool_interval v) (s_blocklist v) (s_check_interval v) (s_log v).
Definition with_dns x v := MkSettings (s_reality v) (s_reality_port v) (s_reality_server v)
  (s_handshake_server v) (s_handshake_port v) (s_wg_port v) (s_wg_pool v) (s_wg_server v)
  (s_endpoint v) (s_mtu v) x (s_dns_type v) (s_wan v) (s_list_interval v)
  (s_pool_interval v) (s_blocklist v) (s_check_interval v) (s_log v).
Definition with_dns_type x v := MkSettings (s_reality v) (s_reality_port v) (s_reality_server v)
  (s_handshake_server v) (s_handshake_port v) (s_wg_port v) (s_wg_pool v) (s_wg_server v)
  (s_endpoint v) (s_mtu v) (s_dns v) x (s_wan v) (s_list_interval v)
  (s_pool_interval v) (s_blocklist v) (s_check_interval v) (s_log v).
Definition with_wan x v := MkSettings (s_reality v) (s_reality_port v) (s_reality_server v)
  (s_handshake_server v) (s_handshake_port v) (s_wg_port v) (s_wg_pool v) (s_wg_server v)
  (s_endpoint v) (s_mtu v) (s_dns v) (s_dns_type v) x (s_list_interval v)
  (s_pool_interval v) (s_blocklist v) (s_check_interval v) (s_log v).
Definition with_list_interval n v := MkSettings (s_reality v) (s_reality_port v) (s_reality_server v)
  (s_handshake_server v) (s_handshake_port v) (s_wg_port v) (s_wg_pool v) (s_wg_server v)
  (s_endpoint v) (s_mtu v) (s_dns v) (s_dns_type v) (s_wan v) n
  (s_pool_interval v) (s_blocklist v) (s_check_interval v) (s_log v).
Definition with_pool_interval n v := MkSettings (s_reality v) (s_reality_port v) (s_reality_server v)
  (s_handshake_server v) (s_handshake_port v) (s_wg_port v) (s_wg_pool v) (s_wg_server v)
  (s_endpoint v) (s_mtu v) (s_dns v) (s_dns_type v) (s_wan v) (s_list_interval v)
  n (s_blocklist v) (s_check_interval v) (s_log v).
Definition with_blocklist l v := MkSettings (s_reality v) (s_reality_port v) (s_reality_server v)
  (s_handshake_server v) (s_handshake_port v) (s_wg_port v) (s_wg_pool v) (s_wg_server v)
  (s_endpoint v) (s_mtu v) (s_dns v) (s_dns_type v) (s_wan v) (s_list_interval v)
  (s_pool_interval v) l (s_check_interval v) (s_log v).
Definition with_check_interval n v := MkSettings (s_reality v) (s_reality_port v) (s_reality_server v)
  (s_handshake_server v) (s_handshake_port v) (s_wg_port v) (s_wg_pool v) (s_wg_server v)
  (s_endpoint v) (s_mtu v) (s_dns v) (s_dns_type v) (s_wan v) (s_list_interval v)
  (s_pool_interval v) (s_blocklist v) n (s_log v).
Definition with_log x v := MkSettings (s_reality v) (s_reality_port v) (s_reality_server v)
  (s_handshake_server v) (s_handshake_port v) (s_wg_port v) (s_wg_pool v) (s_wg_server v)
  (s_endpoint v) (s_mtu v) (s_dns v) (s_dns_type v) (s_wan v) (s_list_interval v)
  (s_pool_interval v) (s_blocklist v) (s_check_interval v) x.

(** The [number] closure of [set]. *)
Definition number (value : string) (f : Z -> Settings -> Settings) : result (Settings -> Settings) :=
  match Atoi value with
  | Some n => Ok (f n)
  | None => fail ErrInvalid "setting is not a number"
  end.
Definition interval (value : string) (f : Z -> Settings -> Settings) : result (Settings -> Settings) :=
  number value (fun n => f (duration_of n)).

(** [Settings.set]: the change one row of the table makes. *)
Definition set_of `{Unicode} (key value : string) : result (Settings -> Settings) :=
  if decide (key = "reality_enabled") then
    match ParseBool value with
    | Some b => Ok (with_reality b)
    | None => fail ErrInvalid "reality enabled"
    end
  else if decide (key = "reality_listen_port") then number value with_reality_port
  else if decide (key = "reality_server_name") then Ok (with_reality_server value)
  else if decide (key = "reality_handshake_server") then Ok (with_handshake_server value)
  else if decide (key = "reality_handshake_port") then number value with_handshake_port
  else if decide (key = "wg_listen_port") then number value with_wg_port
  else if decide (key = "client_mtu") then number value with_mtu
  else if decide (key = "list_update_interval") then interval value with_list_interval
  else if decide (key = "pool_update_interval") then interval value with_pool_interval
  else if decide (key = "tunnel_check_interval") then interval value with_check_interval
  else if decide (key = "pool_country_blocklist") then Ok (with_blocklist (parseCountryList value))
  else if decide (key = "wg_pool") then Ok (with_wg_pool value)
  else if decide (key = "wg_server_address") then Ok (with_wg_server value)
  else if decide (key = "endpoint_host") then Ok (with_endpoint value)
  else if decide (key = "dns_upstream") then Ok (with_dns value)
  else if decide (key = "dns_type") then Ok (with_dns_type value)
  else if decide (key = "wan_interface") then Ok (with_wan value)
  else if decide (key = "log_level") then Ok (with_log value)
  else Ok (fun v => v).

(** The row loop of [settings], starting from the defaults. *)
Fixpoint read_rows `{Unicode} (rows : list (string * string)) (v : Settings) : result Settings :=
  match rows with
  | [] => Ok v
  | (key, value) :: rows => f ← set_of key value; read_rows rows (f v)
  end.
Definition settings `{Unicode} : Tx Settings := fun d =>
  match read_rows (map_to_list (settings_kv d)) DefaultSettings with
  | Ok v => Ok (v, d)
  | Err e => Err e
  end.

(** [ensureRealityIdentity]: [key] and [short] are freshly drawn. *)
Definition ensureRealityIdentity (newID key short : string) : Tx unit :=
  modify (fun d => match reality_identity d with
                   | Some _ => d
                   | None => set_identity (Some (MkIdentity newID key short)) d
                   end).

(** Fresh values drawn by a save. *)
Record SaveDraws := MkDraws {
  dw_uuid : string -> string; dw_id : string; dw_key : string; dw_short : string }.

(** [saveSettings] *)
Definition saveSettings `{Unicode} (dw : SaveDraws) (v : Settings) : Tx unit :=
  old ← settings;
  _ ← (if old.(s_reality) && negb v.(s_reality)
       then invalidateReality dw.(dw_uuid) EmptyString else mret tt);
  _ ← forM_ (values v) (fun kv => sql_upsert_setting kv.1 kv.2);
  if v.(s_reality) then ensureRealityIdentity dw.(dw_id) dw.(dw_key) dw.(dw_short) else mret tt.

(** [SaveSettings] and [UpdateSettings] *)
Definition SaveSettings `{Unicode} (dw : SaveDraws) (v : Settings) : Tx unit :=
  _ ← lift (validate v);
  saveSettings dw v.
Definition UpdateSettings `{Unicode} (dw : SaveDraws) (merge : Settings -> Settings)
  : Tx (Settings * Settings) :=
  before ← settings;
  let after := merge before in
  _ ← lift (validate after);
  _ ← saveSettings dw after;
  mret (before, after).

(** ** Keys outside [Settings] *)

(** [settingValue]/[setSettingValue] of [install.go]. *)
Definition settingValue (d : db) (key : string) : string := default EmptyString (settings_kv d !! key).
Definition setSettingValue (key value : string) : Tx unit := sql_upsert_setting key value.

(** [PanelPublic]: the mode and whether it was ever saved. *)
Definition PanelPublic (d : db) : result (bool * bool) :=
  let value := settingValue d "panel_public" in
  if decide (value = EmptyString) then Ok (false, false)
  else match ParseBool value with
       | Some b => Ok (b, true)
       | None => fail ErrInvalid "panel mode"
       end.
Definition SetPanelPublic (public : bool) : Tx unit :=
  setSettingValue "panel_public" (FormatBool public).
Definition InstalledVersion (d : db) : string := settingValue d "installed_version".
Definition SetInstalledVersion (version : string) : Tx unit :=
  _ ← guard_tx (bool_decide (version = EmptyString)) ErrInvalid "empty version";
  setSettingValue "installed_version" version.

(** [wgkeys.go] *)
Definition ServerPrivateKey (d : db) : string := settingValue d "wg_server_private_key".
Definition SetServerPrivateKey (key : string) : Tx unit :=
  _ ← guard_tx (bool_decide (key = EmptyString)) ErrInvalid "empty server key";
  sql_upsert_setting "wg_server_private_key" key.

(** [notify.go] *)
Record NotifyConfig := MkNotify { n_enabled : bool; n_token : string; n_chat : string }.
Definition NotifyReady (c : NotifyConfig) : bool :=
  c.(n_enabled) && bool_decide (c.(n_token) <> EmptyString) && bool_decide (c.(n_chat) <> EmptyString).
Definition GetNotifyConfig (d : db) : NotifyConfig :=
  MkNotify (bool_decide (settings_kv d !! "notify_enabled" = Some "1"))
    (settingValue d "notify_telegram_token") (settingValue d "notify_telegram_chat_id").
Definition SaveNotifyConfig (c : NotifyConfig) : Tx unit :=
  let token := TrimSpace c.(n_token) in
  let chat := TrimSpace c.(n_chat) in
  _ ← guard_tx (c.(n_enabled) && (bool_decide (token = EmptyString) || bool_decide (chat = EmptyString)))
        ErrInvalid "token and chat required";
  forM_ [("notify_enabled", if c.(n_enabled) then "1" else EmptyString);
         ("notify_telegram_token", token); ("notify_telegram_chat_id", chat)]
    (fun kv => sql_upsert_setting kv.1 kv.2).

(** ** Reading is independent of the order of the rows *)
Section reading.
Context `{Unicode}.

(** A change as data: which field it sets, and the key that sets it. *)
Inductive change :=
  | CReality (b : bool) | CBlocklist (l : list string) | CNone
  | C_reality_port (n : Z)
  | C_handshake_port (n : Z)
  | C_wg_port (n : Z)
  | C_mtu (n : Z)
  | C_list_interval (n : Z)
  | C_pool_interval (n : Z)
  | C_check_interval (n : Z)
  | C_reality_server (x : string)
  | C_handshake_server (x : string)
  | C_wg_pool (x : string)
  | C_wg_server (x : string)
  | C_endpoint (x : string)
  | C_dns (x : string)
  | C_dns_type (x : string)
  | C_wan (x : string)
  | C_log (x : string).

Definition apply_change (c : change) : Settings -> Settings :=
  match c with
  | CReality b => with_reality b | CBlocklist l => with_blocklist l | CNone => fun v => v
  | C_reality_port n => with_reality_port n
  | C_handshake_port n => with_handshake_port n
  | C_wg_port n => with_wg_port n
  | C_mtu n => with_mtu n
  | C_list_interval n => with_list_interval n
  | C_pool_interval n => with_pool_interval n
  | C_check_interval n => with_check_interval n
  | C_reality_server x => with_reality_server x
  | C_handshake_server x => with_handshake_server x
  | C_wg_pool x => with_wg_pool x
  | C_wg_server x => with_wg_server x
  | C_endpoint x => with_endpoint x
  | C_dns x => with_dns x
  | C_dns_type x => with_dns_type x
  | C_wan x => with_wan x
  | C_log x => with_log x
  end.

Definition change_key (c : change) : option string :=
  match c with
  | CReality _ => Some "reality_enabled" | CBlocklist _ => Some "pool_country_blocklist" | CNone => None
  | C_reality_port _ => Some "reality_listen_port"
  | C_handshake_port _ => Some "reality_handshake_port"
  | C_wg_port _ => Some "wg_listen_port"
  | C_mtu _ => Some "client_mtu"
  | C_list_interval _ => Some "list_update_interval"
  | C_pool_interval _ => Some "pool_update_interval"
  | C_check_interval _ => Some "tunnel_check_interval"
  | C_reality_server _ => Some "reality_server_name"
  | C_handshake_server _ => Some "reality_handshake_server"
  | C_wg_pool _ => Some "wg_pool"
  | C_wg_server _ => Some "wg_server_address"
  | C_endpoint _ => Some "endpoint_host"
  | C_dns _ => Some "dns_upstream"
  | C_dns_type _ => Some "dns_type"
  | C_wan _ => Some "wan_interface"
  | C_log _ => Some "log_level"
  end.

Lemma set_of_change key value f :
  set_of key value = Ok f ->
  exists c, f = apply_change c /\ (c = CNone \/ change_key c = Some key).
Proof.
  unfold set_of, interval, number, fail. intros Hf.
  repeat (case_decide; [subst; repeat case_match; simplify_eq;
    first [ by eexists (CReality _); split; [reflexivity|right; reflexivity]
    | by eexists (CBlocklist _); split; [reflexivity|right; reflexivity]
    | by eexists (C_reality_port _); split; [reflexivity|right; reflexivity]
    | by eexists (C_handshake_port _); split; [reflexivity|right; reflexivity]
    | by eexists (C_wg_port _); split; [reflexivity|right; reflexivity]
    | by eexists (C_mtu _); split; [reflexivity|right; reflexivity]
    | by eexists (C_list_interval _); split; [reflexivity|right; reflexivity]
    | by eexists (C_pool_interval _); split; [reflexivity|right; reflexivity]
    | by eexists (C_check_interval _); split; [reflexivity|right; reflexivity]
    | by eexists (C_reality_server _); split; [reflexivity|right; reflexivity]
    | by eexists (C_handshake_server _); split; [reflexivity|right; reflexivity]
    | by eexists (C_wg_pool _); split; [reflexivity|right; reflexivity]
    | by eexists (C_wg_server _); split; [reflexivity|right; reflexivity]
    | by eexists (C_endpoint _); split; [reflexivity|right; reflexivity]
    | by eexists (C_dns _); split; [reflexivity|right; reflexivity]
    | by eexists (C_dns_type _); split; [reflexivity|right; reflexivity]
    | by eexists (C_wan _); split; [reflexivity|right; reflexivity]
    | by eexists (C_log _); split; [reflexivity|right; reflexivity] ]|]).
  injection Hf as <-. exists CNone. auto.
Qed.

Lemma apply_change_commute c1 c2 v :
  change_key c1 <> change_key c2 \/ c1 = CNone \/ c2 = CNone ->
  apply_change c1 (apply_change c2 v) = apply_change c2 (apply_change c1 v).
Proof.
  intros [H1|[->| ->]]; [|done..]. destruct c1, c2; try reflexivity; by destruct H1.
Qed.

Lemma set_of_commute k1 k2 x1 x2 f g v :
  k1 <> k2 -> set_of k1 x1 = Ok f -> set_of k2 x2 = Ok g -> f (g v) = g (f v).
Proof.
  intros Hne (c1 & -> & H1)%set_of_change (c2 & -> & H2)%set_of_change.
  apply apply_change_commute. destruct H1 as [->|H1]; [by right; left|].
  destruct H2 as [->|H2]; [by right; right|]. left. congruence.
Qed.

Lemma read_rows_perm rows rows' v :
  NoDup rows.*1 -> rows ≡ₚ rows' ->
  (forall k x, (k, x) ∈ rows -> exists f, set_of k x = Ok f) ->
  read_rows rows v = read_rows rows' v.
Proof.
  intros Hnd Hp. revert v. induction Hp as [|[k x] l l' Hp IH|[k1 x1] [k2 x2] l|l1 l2 l3 H1 IH1 H2 IH2];
    intros v Hok; [done| | |].
  - simpl. destruct (set_of k x) as [f|e]; [|done]. simpl. apply IH.
    + by apply NoDup_cons in Hnd as [_ ?].
    + intros k' x' Hin. apply Hok. by apply list_elem_of_further.
  - destruct (Hok k1 x1) as [f Hf]; [set_solver|]. destruct (Hok k2 x2) as [g Hg]; [set_solver|].
    cbn [read_rows]. rewrite Hf, Hg. unfold mbind, result_bind. rewrite ?Hf, ?Hg. f_equal.
    rewrite !fmap_cons in Hnd.
    apply NoDup_cons in Hnd as [Hni _].
    eapply set_of_commute; [|eassumption|eassumption].
    intros He. simpl in He. subst. apply Hni, list_elem_of_here.
  - rewrite IH1 by done. apply IH2; [by rewrite <- H1|]. intros k x Hin. apply Hok. by rewrite H1.
Qed.

Lemma read_rows_app l1 l2 v : read_rows (l1 ++ l2) v = (w ← read_rows l1 v; read_rows l2 w).
Proof.
  revert v. induction l1 as [|[k x] l1 IH]; intros v; [done|]. simpl.
  destruct (set_of k x); [|done]. simpl. apply IH.
Qed.
End reading.

(** ** The country list survives its text form *)
Section countries.
Context `{Unicode}.

Fixpoint no_byte (sep : ascii) (s : string) : Prop :=
  match s with EmptyString => True | String c s => c <> sep /\ no_byte sep s end.

Lemma Split_single sep s : no_byte sep s -> Split s sep = [s].
Proof.
  induction s as [|c s IH]; [done|]. intros [Hc Hs]. simpl.
  rewrite decide_False by done. by rewrite IH.
Qed.

Lemma Split_app sep s rest :
  no_byte sep s -> Split (s +:+ String sep rest) sep = s :: Split rest sep.
Proof.
  induction s as [|c s IH]; simpl; [by rewrite decide_True by done|]. intros [Hc Hs].
  rewrite decide_False by done. by rewrite IH.
Qed.

Lemma Split_Join sep l :
  l <> [] -> (forall x, x ∈ l -> no_byte sep x) -> Split (Join l (String sep EmptyString)) sep = l.
Proof.
  induction l as [|x [|y l] IH]; intros Hne Hb; [done| |].
  - apply Split_single, Hb, list_elem_of_here.
  - etransitivity; [apply (Split_app sep x (Join (y :: l) (String sep EmptyString)))|].
    + apply Hb, list_elem_of_here.
    + f_equal. apply IH; [done|]. intros z Hz. apply Hb. by apply list_elem_of_further.
Qed.

Definition letters : list ascii := (fun k => ascii_of_N (Z.to_N k)) <$> seqZ 65 26.

Lemma is_upper_letters a : is_upper a = true -> a ∈ letters.
Proof.
  intros Ha. apply (bool_decide_eq_true_1 (a ∈ letters)). revert Ha.
  by destruct a as [[] [] [] [] [] [] [] []].
Qed.

(** A country code is untouched by [TrimSpace] and [ToUpper]. *)
Lemma country_code_normal code :
  isCountryCode code = true ->
  ToUpper (TrimSpace code) = code /\ no_byte "," code /\ code <> EmptyString.
Proof.
  intros Hc. destruct code as [|a [|b [|]]]; try done. simpl in Hc.
  apply andb_true_iff in Hc as [Ha%is_upper_letters Hb%is_upper_letters].
  assert (Hall : forallb (fun a => forallb (fun b =>
      let code := String a (String b EmptyString) in
      bool_decide (TrimSpace code = code) && all_bytes (fun n => n <? 128) code &&
      bool_decide (ToUpperASCII code = code) && bool_decide (a <> ","%char) &&
      bool_decide (b <> ","%char)) letters) letters = true) by by vm_compute.
  rewrite forallb_forall in Hall. specialize (Hall a ltac:(by apply list_elem_of_In)).
  rewrite forallb_forall in Hall. specialize (Hall b ltac:(by apply list_elem_of_In)).
  cbv zeta in Hall. reflect_bools.
  rename select (TrimSpace _ = _) into Ht. rewrite Ht, ToUpper_ascii by done. done.
Qed.

Lemma parseCountryList_Join l :
  forallb isCountryCode l = true -> parseCountryList (Join l ",") = l.
Proof.
  intros Hl. rewrite forallb_forall in Hl. setoid_rewrite <- list_elem_of_In in Hl.
  unfold parseCountryList. destruct l as [|x l'] eqn:El.
  - simpl. by rewrite ToUpper_ascii.
  - rewrite <- El in *. rewrite Split_Join; [|by rewrite El|].
    2: { intros y Hy. by apply country_code_normal, Hl. }
    assert ((fun part => ToUpper (TrimSpace part)) <$> l = l) as ->.
    { clear El. induction l as [|y l IH]; [done|]. rewrite fmap_cons, IH.
      - f_equal. by apply country_code_normal, Hl, list_elem_of_here.
      - intros z Hz. apply Hl. by apply list_elem_of_further. }
    apply filter_all. intros y Hy. by apply country_code_normal, Hl.
Qed.
End countries.

(** ** Saving and reading back *)

(** The integers of a Go value are in range. *)
Definition fits (v : Settings) : Prop :=
  in_int64 v.(s_reality_port) = true /\ in_int64 v.(s_handshake_port) = true /\
  in_int64 v.(s_wg_port) = true /\ in_int64 v.(s_mtu) = true /\
  in_int64 v.(s_list_interval) = true /\ in_int64 v.(s_pool_interval) = true /\
  in_int64 v.(s_check_interval) = true.

(** What a save keeps: durations lose their fraction of a second. *)
Definition stored (v : Settings) : Settings :=
  with_list_interval (seconds_of v.(s_list_interval) * second)
    (with_pool_interval (seconds_of v.(s_pool_interval) * second)
       (with_check_interval (seconds_of v.(s_check_interval) * second) v)).

Section saving.
Context `{Unicode}.

Lemma in_int64_range z : in_int64 z = true <-> min_int <= z <= max_int.
Proof. unfold in_int64. rewrite andb_true_iff, !Z.leb_le. done. Qed.

Lemma seconds_of_range d : in_int64 d = true -> in_int64 (seconds_of d) = true /\
  duration_of (seconds_of d) = seconds_of d * second.
Proof.
  rewrite !in_int64_range. unfold seconds_of, duration_of, wrap64, second, min_int, max_int.
  intros Hd. assert (Hq : Z.abs (Z.quot d (10 ^ 9) * 10 ^ 9) <= Z.abs d /\
                Z.abs (Z.quot d (10 ^ 9)) <= Z.abs d /\ - 9223372036 <= Z.quot d (10 ^ 9)).
  { Z.to_euclidean_division_equations. lia. }
  rewrite Z.mod_small; lia.
Qed.

Lemma number_Itoa z f : in_int64 z = true -> number (Itoa z) f = Ok (f z).
Proof. intros Hz%in_int64_range. unfold number. by rewrite Atoi_Itoa. Qed.

Lemma interval_Itoa d f :
  in_int64 d = true -> interval (Itoa (seconds_of d)) f = Ok (f (seconds_of d * second)).
Proof.
  intros Hd. destruct (seconds_of_range d Hd) as [Hr He]. unfold interval.
  by rewrite number_Itoa, He.
Qed.

(** The [switch], key by key. *)
Lemma set_of_keys :
  (forall x, set_of "reality_listen_port" x = number x with_reality_port) /\
  (forall x, set_of "reality_handshake_port" x = number x with_handshake_port) /\
  (forall x, set_of "wg_listen_port" x = number x with_wg_port) /\
  (forall x, set_of "client_mtu" x = number x with_mtu) /\
  (forall x, set_of "list_update_interval" x = interval x with_list_interval) /\
  (forall x, set_of "pool_update_interval" x = interval x with_pool_interval) /\
  (forall x, set_of "tunnel_check_interval" x = interval x with_check_interval) /\
  (forall x, set_of "reality_server_name" x = Ok (with_reality_server x)) /\
  (forall x, set_of "reality_handshake_server" x = Ok (with_handshake_server x)) /\
  (forall x, set_of "wg_pool" x = Ok (with_wg_pool x)) /\
  (forall x, set_of "wg_server_address" x = Ok (with_wg_server x)) /\
  (forall x, set_of "endpoint_host" x = Ok (with_endpoint x)) /\
  (forall x, set_of "dns_upstream" x = Ok (with_dns x)) /\
  (forall x, set_of "dns_type" x = Ok (with_dns_type x)) /\
  (forall x, set_of "wan_interface" x = Ok (with_wan x)) /\
  (forall x, set_of "log_level" x = Ok (with_log x)) /\
  (forall b, set_of "reality_enabled" (FormatBool b) = Ok (with_reality b)) /\
  (forall x, set_of "pool_country_blocklist" x = Ok (with_blocklist (parseCountryList x))).
Proof. split_and!; intros x; try reflexivity; by destruct x. Qed.

Lemma read_values v w :
  fits v -> forallb isCountryCode v.(s_blocklist) = true ->
  read_rows (values v) w = Ok (stored v).
Proof.
  intros (H1 & H2 & H3 & H4 & H5 & H6 & H7) Hc. unfold values. cbn [read_rows].
  destruct set_of_keys as (-> & -> & -> & -> & -> & -> & -> & -> & -> & -> & -> & -> & -> & -> & -> & ->
    & -> & ->).
  rewrite !number_Itoa, !interval_Itoa, parseCountryList_Join by done. by destruct v.
Qed.
End saving.

(** ** The table after a save *)
Section table.
Context `{Unicode}.
Implicit Types (kv : gmap string string) (l : list (string * string)).

Definition setting_keys : list string := (values DefaultSettings).*1.

Lemma values_keys v : (values v).*1 = setting_keys.
Proof. reflexivity. Qed.

Lemma NoDup_setting_keys : NoDup setting_keys.
Proof. apply (bool_decide_eq_true_1 (NoDup setting_keys)). by vm_compute. Qed.

Lemma set_of_unknown k x : k ∉ setting_keys -> set_of k x = Ok (fun v => v).
Proof.
  intros Hk. unfold set_of.
  repeat (rewrite decide_False by
    (intros ->; apply Hk; by apply (bool_decide_eq_true_1 (_ ∈ setting_keys)))).
  done.
Qed.

Lemma read_rows_unknown l v : (forall k x, (k, x) ∈ l -> k ∉ setting_keys) -> read_rows l v = Ok v.
Proof.
  induction l as [|[k x] l IH]; intros Hl; [done|]. cbn [read_rows].
  rewrite set_of_unknown by (eapply Hl, list_elem_of_here). simpl. apply IH.
  intros k' x' Hin. eapply Hl. by apply list_elem_of_further.
Qed.

Lemma read_rows_entries l v w :
  read_rows l v = Ok w -> forall k x, (k, x) ∈ l -> exists f, set_of k x = Ok f.
Proof.
  revert v. induction l as [|[k x] l IH]; intros v Hr k' x' Hin; [by apply elem_of_nil in Hin|].
  cbn [read_rows] in Hr. apply result_bind_Ok in Hr as (f & Hf & Hr).
  apply elem_of_cons in Hin as [[= -> ->]|Hin]; [by exists f|eauto].
Qed.

Definition upsert_all l kv : gmap string string := foldl (fun m p => <[p.1 := p.2]> m) kv l.

Lemma upserts_run l d :
  forM_ l (fun p => sql_upsert_setting p.1 p.2) d = Ok (tt, set_settings (upsert_all l (settings_kv d)) d).
Proof.
  revert d. induction l as [|p l IH]; intros d; [by destruct d|].
  rewrite forM_cons. unfold mbind, tx_bind, sql_upsert_setting, modify. by rewrite IH.
Qed.

Lemma upsert_all_lookup l kv k :
  NoDup l.*1 -> upsert_all l kv !! k = (list_to_map l : gmap string string) !! k
                  ∪ kv !! k.
Proof.
  revert kv. induction l as [|[k' x] l IH]; intros kv Hnd.
  { simpl. rewrite lookup_empty. by destruct (kv !! k). }
  rewrite fmap_cons in Hnd. apply NoDup_cons in Hnd as [Hni Hnd]. simpl. rewrite IH by done.
  destruct (decide (k = k')) as [->|Hne].
  - rewrite lookup_insert_eq, lookup_insert_eq.
    rewrite not_elem_of_list_to_map_1 by done. by destruct (kv !! k').
  - by rewrite !lookup_insert_ne.
Qed.

Lemma read_after_upsert v kv :
  fits v -> forallb isCountryCode v.(s_blocklist) = true ->
  read_rows (map_to_list (upsert_all (values v) kv)) DefaultSettings = Ok (stored v).
Proof.
  intros Hf Hc.
  assert (Hnd : NoDup (values v).*1) by (rewrite values_keys; apply NoDup_setting_keys).
  set (m1 := list_to_map (values v) : gmap string string).
  set (rest := filter (fun p => p.1 ∉ setting_keys) kv).
  assert (Hmap : upsert_all (values v) kv = m1 ∪ rest).
  { apply map_eq. intros k. rewrite upsert_all_lookup, lookup_union by done. fold m1.
    destruct (m1 !! k) as [x|] eqn:Hx; [by destruct (kv !! k), (rest !! k)|].
    rewrite !(left_id_L None (∪)). unfold rest. rewrite map_lookup_filter.
    destruct (kv !! k) as [y|]; [|done]. simpl. rewrite option_guard_True; [done|].
    rewrite <- (values_keys v). intros Hin. apply not_elem_of_list_to_map in Hx. by apply Hx. }
  assert (Hunk : forall k x, (k, x) ∈ map_to_list rest -> k ∉ setting_keys).
  { intros k x Hin%elem_of_map_to_list. by apply map_lookup_filter_Some in Hin as [_ ?]. }
  assert (Hp : values v ++ map_to_list rest ≡ₚ map_to_list (upsert_all (values v) kv)).
  { rewrite Hmap.
    assert (m1 ∪ rest = list_to_map (values v ++ map_to_list rest)) as ->
      by by rewrite list_to_map_app, list_to_map_to_list.
    rewrite map_to_list_to_map; [done|].
    rewrite fmap_app. apply NoDup_app. split_and!; [done| |apply NoDup_fst_map_to_list].
    intros k Hk (p & -> & Hin)%list_elem_of_fmap. rewrite values_keys in Hk. destruct p.
    by eapply Hunk. }
  rewrite <- (read_rows_perm (values v ++ map_to_list rest)); [|by rewrite Hp; apply NoDup_fst_map_to_list|done|].
  - rewrite read_rows_app, read_values by done. simpl. by apply read_rows_unknown.
  - intros k x [Hin|Hin]%elem_of_app; [|eexists; by eapply set_of_unknown, Hunk].
    eapply read_rows_entries; [by apply (read_values v DefaultSettings)|done].
Qed.
End table.

(** ** Properties *)

(** What [validate] guarantees about the country list. *)
Lemma validate_countries v : validate v = Ok tt -> forallb isCountryCode v.(s_blocklist) = true.
Proof. unfold validate. intros Hv. inv_result. by apply negb_false_iff. Qed.

#[local] Opaque upsert_all.

Lemma saveSettings_inv `{Unicode} dw v d d' :
  wf d -> saveSettings dw v d = Ok (tt, d') ->
  exists old, settings d = Ok (old, d) /\ wf d' /\
    settings_kv d' = upsert_all (values v) (settings_kv d) /\
    tunnels d' = tunnels d /\ rules d' = rules d /\ sessions d' = sessions d /\
    (s_reality v = true -> is_Some (reality_identity d')) /\
    (is_Some (reality_identity d) -> reality_identity d' = reality_identity d) /\
    (if s_reality old && negb (s_reality v)
     then forall k, reality_credentials d' !! k = bump (dw_uuid dw) k <$> reality_credentials d !! k
     else reality_credentials d' = reality_credentials d /\ peers d' = peers d).
Proof.
  intros Hd Hs. unfold saveSettings in Hs. apply tx_bind_Ok in Hs as (old & d0 & Ho & Hs).
  assert (d0 = d) as ->.
  { unfold settings in Ho. destruct (read_rows _ _); [by injection Ho|done]. }
  exists old. split; [done|]. apply tx_bind_Ok in Hs as ([] & d1 & H1 & Hs).
  assert (wf d1 /\ settings_kv d1 = settings_kv d /\ tunnels d1 = tunnels d /\ rules d1 = rules d /\
    sessions d1 = sessions d /\ reality_identity d1 = reality_identity d /\
    if s_reality old && negb (s_reality v)
    then forall k, reality_credentials d1 !! k = bump (dw_uuid dw) k <$> reality_credentials d !! k
    else reality_credentials d1 = reality_credentials d /\ peers d1 = peers d)
    as (Hwf & Hkv & Ht & Hr & Hse & Hi & Hc).
  { destruct (s_reality old && negb (s_reality v)); [|by injection H1 as <-].
    apply invalidateReality_run in H1 as (? & ? & ? & ? & ? & ? & Hc & _); [|done].
    by split_and!. }
  apply tx_bind_Ok in Hs as ([] & d2 & H2 & Hs). rewrite upserts_run in H2. injection H2 as <-.
  rewrite <- Hkv. set (kv := upsert_all _ _) in *. clearbody kv.
  destruct (s_reality v) eqn:Hv.
  - unfold ensureRealityIdentity, modify in Hs. injection Hs as <-. simpl.
    destruct (reality_identity d1) as [i|] eqn:Hi1; simpl; rewrite <- Hi.
    + rewrite Hi1. split_and!; eauto with razdacha; try exact Hc; done.
    + split_and!; eauto with razdacha; try exact Hc; by intros []%is_Some_None.
  - injection Hs as <-. split_and!; eauto with razdacha; try exact Hc; done.
Qed.

(** settings that were saved read back as saved, durations cut to whole
    seconds, whatever other keys the table holds and in whatever order its
    rows come; those other keys are untouched.  Switching REALITY on leaves a
    server identity (an existing one is kept); switching it off replaces every
    credential in the same transaction.  The state stays well formed. *)
Theorem SaveSettings_correct `{Unicode} dw v d d' :
  wf d -> fits v -> run (SaveSettings dw v) d = (Ok tt, d') ->
  wf d' /\ run settings d' = (Ok (stored v), d') /\
  (forall k, k ∉ setting_keys -> settings_kv d' !! k = settings_kv d !! k) /\
  tunnels d' = tunnels d /\ rules d' = rules d /\ sessions d' = sessions d /\
  (s_reality v = true -> is_Some (reality_identity d')) /\
  (is_Some (reality_identity d) -> reality_identity d' = reality_identity d) /\
  exists old, settings d = Ok (old, d) /\
    if s_reality old && negb (s_reality v)
    then forall k, reality_credentials d' !! k = bump (dw_uuid dw) k <$> reality_credentials d !! k
    else reality_credentials d' = reality_credentials d /\ peers d' = peers d.
Proof.
  intros Hd Hf Hs%run_Ok. unfold SaveSettings in Hs.
  apply tx_bind_Ok in Hs as ([] & d0 & [Hv ->]%lift_Ok & Hs).
  destruct (saveSettings_inv _ _ _ _ Hd Hs) as (old & Ho & Hwf & Hkv & ? & ? & ? & ? & ? & ?).
  split_and!; try done; [| |by exists old].
  - apply run_Ok. unfold settings. rewrite Hkv, read_after_upsert; [done|done|].
    by apply validate_countries.
  - intros k Hk. rewrite Hkv, upsert_all_lookup by (rewrite values_keys; apply NoDup_setting_keys).
    rewrite not_elem_of_list_to_map_1 by by rewrite values_keys. apply (left_id_L None (∪)).
Qed.

Definition sample_settings : Settings :=
  with_blocklist ["CN"; "RU"] (with_check_interval (45 * second + 5) (with_mtu 1400 DefaultSettings)).
Definition sample_draws : SaveDraws := MkDraws (fun p => "uuid-" +:+ p) "id" "key" "short".
Definition sample_keys : db :=
  set_settings (<["auth_password_hash" := "h"]> (<["wg_listen_port" := "4500"]> ∅)) sample_db.

Lemma sample_keys_wf : wf sample_keys.
Proof. apply wf_set_settings, sample_wf. Qed.

#[local] Existing Instance ascii_unicode.

Example SaveSettings_correct_witness :
  let res := run (SaveSettings sample_draws sample_settings) sample_keys in
  res.1 = Ok tt /\ wf res.2 /\
  run settings res.2 = (Ok (stored sample_settings), res.2) /\
  stored sample_settings = with_check_interval (45 * second) sample_settings /\
  settings_kv res.2 !! "auth_password_hash" = Some "h".
Proof.
  intros res. assert (Hres : res.1 = Ok tt) by by vm_compute.
  assert (Hfits : fits sample_settings) by (repeat split; by vm_compute).
  destruct (SaveSettings_correct sample_draws sample_settings sample_keys res.2 sample_keys_wf
    Hfits (run_fst _ _ _ Hres)) as (Hwf & Hread & Hkeys & _).
  split; [exact Hres|]. split; [exact Hwf|]. split; [exact Hread|].
  split; [by vm_compute|]. rewrite Hkeys by by apply (bool_decide_eq_true_1 (_ ∉ setting_keys)). by vm_compute.
Defined.

(** [validate] accepts an interval below one second, which is stored as zero
    and no longer validates when it is read back. *)
Lemma list_interval_lost :
  let v := with_list_interval 1 DefaultSettings in
  validate v = Ok tt /\ is_ok (validate (stored v)) = false.
Proof. split; by vm_compute. Qed.
