(* ===== verification/AuthStore.v ===== *)
(** * Panel authentication: [internal/store/auth.go] and [auth_restore.go]

    The password hash and its reset generation (two keys of [settings]) and
    the table of sessions.  Random generations are arguments. *)

From S2P Require Import Prelude GoStd Model Db Wf Sample.
#[local] Open Scope Z_scope.

Definition keyPasswordHash : string := "auth_password_hash".
Definition keyPasswordGeneration : string := "auth_password_generation".

Record PasswordStateT := MkPasswordState { ps_hash : string; ps_generation : string }.

(** [Session] of auth.go: the row together with its key. *)
Record SessionT := MkSessionT { se_token : string; se_created : Z; se_expires : Z }.

(** [PasswordState]: one SELECT reads both keys. *)
Definition PasswordState (d : db) : result PasswordStateT :=
  match settings_kv d !! keyPasswordHash with
  | None => fail ErrNoPassword "no password"
  | Some hash =>
      if decide (hash = EmptyString) then fail ErrNoPassword "no password"
      else Ok (MkPasswordState hash (default EmptyString (settings_kv d !! keyPasswordGeneration)))
  end.

Definition PasswordHash (d : db) : result string := st ← PasswordState d; Ok st.(ps_hash).

Definition session_row (s : SessionT) : Session := MkSession (Unix s.(se_created)) (Unix s.(se_expires)).

(** [INSERT INTO sessions ... SELECT ... WHERE c]: rows inserted. *)
Definition sql_insert_session (c : db -> bool) (s : SessionT) : Tx bool := fun d =>
  if c d then
    if bool_decide (is_Some (sessions d !! s.(se_token)))
    then fail (ErrUnique "sessions.token_hash") "insert session"
    else Ok (true, set_sessions (<[s.(se_token) := session_row s]> (sessions d)) d)
  else Ok (false, d).

(** The WHERE of [CreateVerifiedSession]. *)
Definition state_current (st : PasswordStateT) (d : db) : bool :=
  bool_decide (settings_kv d !! keyPasswordHash = Some st.(ps_hash)) &&
  bool_decide (default EmptyString (settings_kv d !! keyPasswordGeneration) = st.(ps_generation)).

(** [CreateVerifiedSession] *)
Definition CreateVerifiedSession (s : SessionT) (st : PasswordStateT) : Tx unit :=
  _ ← guard_tx (bool_decide (st.(ps_hash) = EmptyString) || bool_decide (s.(se_token) = EmptyString) ||
                bool_decide (s.(se_expires) <= s.(se_created))) ErrInvalid "invalid verified session";
  n ← sql_insert_session (state_current st) s;
  guard_tx (negb n) ErrPasswordChanged "password state changed".

(** [CreateSession] *)
Definition CreateSession (s : SessionT) : Tx unit :=
  _ ← guard_tx (bool_decide (s.(se_token) = EmptyString)) ErrInvalid "empty session token";
  _ ← guard_tx (bool_decide (s.(se_expires) <= s.(se_created))) ErrInvalid "session already expired";
  _ ← sql_insert_session (fun _ => true) s;
  mret tt.

(** [SetPasswordHash] *)
Definition SetPasswordHash (generation encoded : string) : Tx unit :=
  _ ← guard_tx (bool_decide (encoded = EmptyString)) ErrInvalid "empty password hash";
  _ ← sql_upsert_setting keyPasswordHash encoded;
  _ ← sql_upsert_setting keyPasswordGeneration generation;
  modify (set_sessions ∅).

(** [ResetSessionsAfterRestore] *)
Definition ResetSessionsAfterRestore (generation : string) : Tx unit :=
  _ ← modify (set_sessions ∅);
  sql_upsert_setting keyPasswordGeneration generation.

(** [Session]: expired rows are not returned. *)
Definition GetSession (token : string) (now : Z) (d : db) : result SessionT :=
  match sessions d !! token with
  | Some r => if decide (Unix now < r.(s_expires))
              then Ok (MkSessionT token (time_of_unix r.(s_created)) (time_of_unix r.(s_expires)))
              else fail ErrNotFound "session"
  | None => fail ErrNotFound "session"
  end.

(** [ExtendSession], [DeleteSession], [DeleteExpiredSessions] *)
Definition ExtendSession (token : string) (expires : Z) : Tx unit :=
  modify (fun d => set_sessions (alter (fun r => MkSession r.(s_created) (Unix expires)) token (sessions d)) d).
Definition DeleteSession (token : string) : Tx unit :=
  modify (fun d => set_sessions (delete token (sessions d)) d).
Definition DeleteExpiredSessions (now : Z) : Tx nat := fun d =>
  let live := filter (fun p => Unix now < p.2.(s_expires)) (sessions d) in
  Ok (size (sessions d) - size live, set_sessions live d)%nat.

(** ** Lemmas *)
Section auth.
Implicit Types (d : db) (s : SessionT).

Lemma GetSession_Ok token now d s :
  GetSession token now d = Ok s <->
  exists r, sessions d !! token = Some r /\ Unix now < r.(s_expires) /\
    s = MkSessionT token (time_of_unix r.(s_created)) (time_of_unix r.(s_expires)).
Proof.
  unfold GetSession. destruct (sessions d !! token) as [r|]; [|naive_solver].
  case_decide as Hn; [|naive_solver]. split; [intros [= <-]; by exists r|].
  by intros (r' & [= <-] & _ & ->).
Qed.

(** Once the generation is another one, a verified state is useless. *)
Lemma stale_state_rejected d s st :
  default EmptyString (settings_kv d !! keyPasswordGeneration) <> st.(ps_generation) ->
  exists k l, run (CreateVerifiedSession s st) d = (fail k l, d) /\ k ∈ [ErrInvalid; ErrPasswordChanged].
Proof.
  intros Hg. unfold run, CreateVerifiedSession, guard_tx, mbind, tx_bind, lift.
  destruct (bool_decide (ps_hash st = "") || bool_decide (se_token s = "") ||
            bool_decide (se_expires s <= se_created s)); simpl.
  { do 2 eexists. split; [done|]. apply list_elem_of_here. }
  unfold sql_insert_session, state_current.
  rewrite (bool_decide_eq_false_2 (_ = ps_generation st)) by done. rewrite andb_false_r. simpl.
  do 2 eexists. split; [done|]. apply list_elem_of_further, list_elem_of_here.
Qed.

Lemma CreateVerifiedSession_run d s st d' :
  run (CreateVerifiedSession s st) d = (Ok tt, d') ->
  PasswordState d = Ok st /\ sessions d !! s.(se_token) = None /\
  d' = set_sessions (<[s.(se_token) := session_row s]> (sessions d)) d.
Proof.
  intros H%run_Ok. unfold CreateVerifiedSession in H. inv_tx.
  rename select (negb _ = false) into Hn. apply negb_false_iff in Hn. subst.
  rename select (sql_insert_session _ _ _ = _) into Hi. unfold sql_insert_session in Hi.
  destruct (state_current st _) eqn:Hst; [|done].
  destruct (sessions _ !! se_token s) eqn:Hf; [done|]. injection Hi as <-.
  rename select (_ || _ = false) into Hg. apply orb_false_iff in Hg as [[Hh _]%orb_false_iff _].
  unfold state_current in Hst. reflect_bools. split_and!; [|done|done].
  unfold PasswordState. rename select (_ !! keyPasswordHash = _) into Hk. rewrite Hk.
  rewrite decide_False by done. destruct st; simpl in *. by subst.
Qed.
End auth.

(** ** Properties *)

(** C10: changing the password ends every session, and a login whose password
    was verified before the change can not complete after it, in any later
    state where no further reset happened: [CreateVerifiedSession] refuses the
    state it read and leaves the database unchanged.  The same holds after a
    restore. *)
Theorem password_change_revokes d generation encoded d' st :
  wf d -> PasswordState d = Ok st -> generation <> st.(ps_generation) ->
  (run (SetPasswordHash generation encoded) d = (Ok tt, d') \/
   run (ResetSessionsAfterRestore generation) d = (Ok tt, d')) ->
  wf d' /\ sessions d' = ∅ /\
  (forall token now, is_ok (GetSession token now d') = false) /\
  forall d2 s, settings_kv d2 !! keyPasswordGeneration = settings_kv d' !! keyPasswordGeneration ->
    exists k l, run (CreateVerifiedSession s st) d2 = (fail k l, d2) /\
                k ∈ [ErrInvalid; ErrPasswordChanged].
Proof.
  intros Hd _ Hg H.
  assert (Hd' : wf d' /\ sessions d' = ∅ /\ settings_kv d' !! keyPasswordGeneration = Some generation).
  { destruct H as [H%run_Ok|H%run_Ok].
    - unfold SetPasswordHash, sql_upsert_setting in H. inv_tx.
      split_and!; [auto with razdacha|done|apply lookup_insert_eq].
    - unfold ResetSessionsAfterRestore, sql_upsert_setting in H. inv_tx.
      split_and!; [auto with razdacha|done|apply lookup_insert_eq]. }
  destruct Hd' as (Hwf & Hs & Hgen). split_and!; [done|done| |].
  - intros token now. unfold GetSession. by rewrite Hs, lookup_empty.
  - intros d2 s H2. apply stale_state_rejected. by rewrite H2, Hgen.
Qed.

Definition sample_auth : db :=
  set_sessions {["tok" := MkSession 10 5000]}
    (set_settings {[keyPasswordHash := "old"; keyPasswordGeneration := "g1"]} sample_db).

Example password_change_revokes_witness :
  let res := run (SetPasswordHash "g2" "new") sample_auth in
  res.1 = Ok tt /\ sessions res.2 = ∅ /\
  exists k l, run (CreateVerifiedSession (MkSessionT "t2" 0 99) (MkPasswordState "old" "g1")) res.2
              = (fail k l, res.2) /\ k ∈ [ErrInvalid; ErrPasswordChanged].
Proof.
  intros res. assert (Hres : res.1 = Ok tt) by by vm_compute.
  assert (Hwf : wf sample_auth) by apply wf_set_sessions, wf_set_settings, sample_wf.
  destruct (password_change_revokes sample_auth "g2" "new" res.2 (MkPasswordState "old" "g1") Hwf)
    as (_ & Hs & _ & Hall); [by vm_compute|done|by left; apply run_fst|].
  split; [exact Hres|]. split; [exact Hs|]. by apply Hall.
Defined.

(** a verified login is usable from its creation until the second it
    expires and not after; the periodic clean-up removes exactly the sessions
    that can no longer be used, so running it is never observable. *)
Theorem session_lifetime d s st d' now now' token :
  run (CreateVerifiedSession s st) d = (Ok tt, d') ->
  PasswordState d = Ok st /\
  GetSession s.(se_token) now d' =
    (if decide (Unix now < Unix s.(se_expires))
     then Ok (MkSessionT s.(se_token) (stored_time s.(se_created)) (stored_time s.(se_expires)))
     else fail ErrNotFound "session") /\
  (now <= now' -> GetSession token now' (run (DeleteExpiredSessions now) d').2 = GetSession token now' d') /\
  (forall r, sessions (run (DeleteExpiredSessions now) d').2 !! token = Some r ->
     is_ok (GetSession token now d') = true).
Proof.
  intros (Hst & _ & ->)%CreateVerifiedSession_run. split_and!.
  - exact Hst.
  - unfold GetSession. simpl. rewrite lookup_insert_eq. simpl. by case_decide.
  - intros Hle. unfold run, DeleteExpiredSessions. cbn [snd]. unfold GetSession. cbn [sessions set_sessions].
    rewrite map_lookup_filter. destruct (<[_ := _]> _ !! token) as [r|]; [|done]. simpl.
    assert (Unix now <= Unix now') by (by apply Z.div_le_mono).
    case_guard; simpl; [done|]. rewrite decide_False by lia. done.
  - unfold run, DeleteExpiredSessions. cbn [snd]. intros r. unfold GetSession. cbn [sessions set_sessions].
    intros [-> Hn]%map_lookup_filter_Some. simpl in Hn. by rewrite decide_True.
Qed.

Example session_lifetime_witness :
  let s := MkSessionT "t2" 0 (100 * second) in
  let st := MkPasswordState "old" "g1" in
  let res := run (CreateVerifiedSession s st) sample_auth in
  res.1 = Ok tt /\
  GetSession "t2" (99 * second) res.2 = Ok (MkSessionT "t2" 0 (100 * second)).
Proof.
  intros s st res. assert (Hres : res.1 = Ok tt) by by vm_compute. split; [exact Hres|].
  destruct (session_lifetime sample_auth s st res.2 (99 * second) 0 "t2" (run_fst _ _ _ Hres))
    as (_ & Hget & _).
  etransitivity; [exact Hget|]. by vm_compute.
Defined.
