(* ===== verification/RealityStore.v ===== *)
(** * Snapshots and REALITY admission: [snapshot.go], [reality.go],
    [reality_inventory.go], [route_explain.go]

    The snapshot a generation is built from, and the intersection of the
    admissions it carries with the live credentials ([RealityRuntime]).
    Deriving a public key from the stored private one (base64, X25519) is the
    argument [public_of]. *)

From S2P Require Import Prelude GoStd Model Db Wf Sample RulesStore PeersStore SettingsStore.
#[local] Open Scope Z_scope.

(** ** Snapshot *)
Record SnapshotT := MkSnapshot {
  sn_settings : Settings;
  sn_tunnels : list Tunnel;
  sn_rules : list Rule;
  sn_peers : list Peer;
  sn_identity : string;
  sn_admissions : list RealityAdmission
}.

(** [if p.RealityEnabled && p.RealityCredentialID != ""] *)
Definition admission_of (p : Peer) : option RealityAdmission :=
  if decide (p.(p_reality) = true /\ p.(p_cred_id) <> EmptyString)
  then Some (MkAdmission p.(p_id) p.(p_cred_id) p.(p_revision)) else None.

(** [Snapshot]: everything in one transaction. *)
Definition Snapshot `{Unicode} : Tx SnapshotT :=
  st ← settings;
  ts ← gets q_tunnels;
  rs ← gets q_rules;
  ps ← gets q_peers;
  id ← gets (fun d => from_option i_id EmptyString (reality_identity d));
  mret (MkSnapshot st ts rs ps id (omap admission_of ps)).

(** ** Live credentials *)
Record RealityIdentity := MkRealityIdentity {
  ri_id : string; ri_private : string; ri_public : string; ri_short : string }.
Record RealityUser := MkUser { ru_peer : string; ru_name : string; ru_uuid : string }.
Record RealityRuntimeT := MkRuntime { rr_identity : option RealityIdentity; rr_users : list RealityUser }.

Definition RealityUserName (peer : string) : string := "client-" +:+ peer.

Section reality.
Context `{Unicode} (public_of : string -> option string).

(** [realityIdentity] *)
Definition realityIdentity (d : db) : result (option RealityIdentity) :=
  match reality_identity d with
  | None => Ok None
  | Some row =>
      match public_of row.(i_private) with
      | None => fail ErrOther "invalid stored REALITY private key"
      | Some pub => Ok (Some (MkRealityIdentity row.(i_id) row.(i_private) pub row.(i_short)))
      end
  end.

(** The [admitted] map of [RealityRuntime]: malformed and duplicate
    admissions are refused. *)
Fixpoint admitted_map (l : list RealityAdmission) (m : gmap string RealityAdmission)
  : result (gmap string RealityAdmission) :=
  match l with
  | [] => Ok m
  | a :: l =>
      _ ← guard_err (bool_decide (a.(ra_peer) = EmptyString) || bool_decide (a.(ra_cred) = EmptyString) ||
                     bool_decide (a.(ra_revision) < 1)) ErrOther "invalid REALITY admission";
      _ ← guard_err (bool_decide (is_Some (m !! a.(ra_peer)))) ErrOther "duplicate REALITY admission";
      admitted_map l (<[a.(ra_peer) := a]> m)
  end.

(** [policyPeers]: a later peer with the same identifier wins. *)
Definition policy_peers (ps : list Peer) : gmap string Peer :=
  foldl (fun m p => <[p.(p_id) := p]> m) ∅ ps.

(** [SELECT ... FROM reality_credentials c JOIN peers p ... WHERE p.enabled=1
    AND p.reality_enabled=1] *)
Definition live_credentials (d : db) : list (string * CredRow) :=
  filter (fun kc => from_option (fun p => p.(p_enabled) && p.(p_reality)) false (peers d !! kc.1) = true)
    (map_to_list (reality_credentials d)).

Definition admits (m : gmap string RealityAdmission) (policy : gmap string Peer)
  (kc : string * CredRow) : option RealityUser :=
  match m !! kc.1, policy !! kc.1 with
  | Some a, Some p =>
      if p.(p_enabled) && p.(p_reality) && bool_decide (a.(ra_cred) = kc.2.(cr_id)) &&
         bool_decide (a.(ra_revision) = kc.2.(cr_revision))
      then Some (MkUser kc.1 (RealityUserName kc.1) kc.2.(cr_uuid)) else None
  | _, _ => None
  end.

(** [RealityRuntime] *)
Definition RealityRuntime (snap : SnapshotT) (d : db) : result RealityRuntimeT :=
  '(current, _) ← settings d;
  if negb snap.(sn_settings).(s_reality) || negb current.(s_reality) then Ok (MkRuntime None [])
  else
    identity ← realityIdentity d;
    match identity with
    | Some i =>
        if decide (i.(ri_id) = snap.(sn_identity)) then
          m ← admitted_map snap.(sn_admissions) ∅;
          Ok (MkRuntime (Some i) (omap (admits m (policy_peers snap.(sn_peers))) (live_credentials d)))
        else fail ErrOther "identity no longer admitted"
    | None => fail ErrOther "identity missing"
    end.

(** [RealityDelivery] *)
Record RealityDeliveryMaterial := MkDelivery {
  rd_settings : Settings; rd_peer : Peer; rd_identity : string; rd_public : string;
  rd_short : string; rd_uuid : string }.
Definition RealityDelivery (id : string) (d : db) : result RealityDeliveryMaterial :=
  match peers d !! id with
  | None => fail ErrNotFound "peer"
  | Some p =>
      '(st, _) ← settings d;
      _ ← guard_err (negb p.(p_enabled) || negb p.(p_reality)) ErrInvalid "no Reality access";
      _ ← guard_err (negb st.(s_reality)) ErrInvalid "Reality is off";
      identity ← realityIdentity d;
      match identity with
      | None => fail ErrInvalid "no server identity"
      | Some i =>
          match reality_credentials d !! id with
          | Some c =>
              if decide (c.(cr_id) = p.(p_cred_id) /\ c.(cr_revision) = p.(p_revision) /\
                         c.(cr_uuid) <> EmptyString /\ 1 <= p.(p_revision) /\
                         p.(p_cred_id) <> EmptyString)
              then Ok (MkDelivery st p i.(ri_id) i.(ri_public) i.(ri_short) c.(cr_uuid))
              else fail ErrInvalid "credentials unavailable"
          | None => fail ErrInvalid "credentials unavailable"
          end
      end
  end.

(** [readRealityInventory] *)
Record RealityInventoryState := MkInventory {
  iv_settings : Settings; iv_peers : list Peer; iv_identity : string; iv_public : string;
  iv_short : string; iv_credentials : gmap string RealityAdmission }.
Definition readRealityInventory (d : db) : result RealityInventoryState :=
  '(st, _) ← settings d;
  identity ← realityIdentity d;
  let creds := map_imap (fun id c =>
    if decide (c.(cr_uuid) <> EmptyString) then Some (MkAdmission id c.(cr_id) c.(cr_revision)) else None)
    (reality_credentials d) in
  Ok (MkInventory st (q_peers d) (from_option ri_id EmptyString identity)
        (from_option ri_public EmptyString identity) (from_option ri_short EmptyString identity) creds).

(** [RouteEligibility]: public columns only; unread columns stay zero. *)
Record RouteEligibilityT := MkEligibility {
  el_settings : Settings; el_peer : Peer; el_identity : string;
  el_credential : option RealityAdmission }.
Definition RouteEligibility (id : string) (d : db) : result RouteEligibilityT :=
  '(st, _) ← settings d;
  match peers d !! id with
  | None => fail ErrNotFound "peer"
  | Some p =>
      let public := MkPeer p.(p_wg_disabled) p.(p_reality) p.(p_cred_id) p.(p_revision) None p.(p_id)
        EmptyString p.(p_public) EmptyString EmptyString p.(p_address) p.(p_enabled) zero_time in
      Ok (MkEligibility st public (from_option i_id EmptyString (reality_identity d))
            (c ← reality_credentials d !! id;
             if decide (c.(cr_uuid) <> EmptyString)
             then Some (MkAdmission id c.(cr_id) c.(cr_revision)) else None))
  end.
End reality.

(** ** Who is admitted *)
Section admission.
Context `{Unicode} (public_of : string -> option string).

Lemma admitted_map_lookup l m m' peer a :
  admitted_map l m = Ok m' -> m' !! peer = Some a ->
  m !! peer = Some a \/ a ∈ l /\ a.(ra_peer) = peer.
Proof.
  revert m. induction l as [|b l IH]; intros m Hm Ha; simpl in Hm.
  { injection Hm as <-. by left. }
  inv_result. destruct (IH _ ltac:(eassumption) Ha) as [Hl|[Hl ?]].
  - apply lookup_insert_Some in Hl as [[<- <-]|[_ ?]]; [|by left].
    right. split; [apply list_elem_of_here|done].
  - right. split; [by apply list_elem_of_further|done].
Qed.

Lemma admitted_map_has l m m' a :
  admitted_map l m = Ok m' -> a ∈ l \/ m !! a.(ra_peer) = Some a -> m' !! a.(ra_peer) = Some a.
Proof.
  revert m. induction l as [|b l IH]; intros m Hm Ha; simpl in Hm.
  { injection Hm as <-. destruct Ha as [Ha|]; [by apply elem_of_nil in Ha|done]. }
  inv_result. eapply IH; [eassumption|].
  reflect_bools. rename select (~ is_Some _) into Hn. apply eq_None_not_Some in Hn.
  destruct Ha as [[->|?]%elem_of_cons|Ha]; [right; apply lookup_insert_eq|by left|].
  right. rewrite lookup_insert_ne; [done|]. intros He. rewrite He in Hn. congruence.
Qed.

Lemma policy_peers_in ps peer p :
  policy_peers ps !! peer = Some p -> p ∈ ps /\ p.(p_id) = peer.
Proof.
  unfold policy_peers.
  assert (Hgen : forall m : gmap string Peer, foldl (fun m p => <[p.(p_id) := p]> m) m ps !! peer = Some p ->
            m !! peer = Some p \/ p ∈ ps /\ p.(p_id) = peer).
  { induction ps as [|q ps IH]; intros m Hm; simpl in Hm; [by left|].
    apply IH in Hm as [Hm|[? ?]]; [|right; split; [by apply list_elem_of_further|done]].
    apply lookup_insert_Some in Hm as [[<- <-]|[_ ?]]; [|by left].
    right. split; [apply list_elem_of_here|done]. }
  intros Hm. apply Hgen in Hm as [Hm|?]; [|done]. by rewrite lookup_empty in Hm.
Qed.

Lemma policy_fold_ne ps peer (m : gmap string Peer) :
  peer ∉ p_id <$> ps -> foldl (fun m p => <[p.(p_id) := p]> m) m ps !! peer = m !! peer.
Proof.
  revert m. induction ps as [|x ps IH]; intros m Hni; [done|]. rewrite fmap_cons in Hni.
  apply not_elem_of_cons in Hni as [Hx Hni]. simpl. rewrite IH by done. by rewrite lookup_insert_ne.
Qed.

Lemma policy_fold_has ps q (m : gmap string Peer) :
  NoDup (p_id <$> ps) -> q ∈ ps ->
  foldl (fun m p => <[p.(p_id) := p]> m) m ps !! p_id q = Some q.
Proof.
  revert m. induction ps as [|x ps IH]; intros m Hnd Hin; [by apply elem_of_nil in Hin|].
  rewrite fmap_cons in Hnd. apply NoDup_cons in Hnd as [Hni Hnd]. simpl.
  apply elem_of_cons in Hin as [->|Hin]; [|by apply IH].
  rewrite policy_fold_ne by done. apply lookup_insert_eq.
Qed.

(** Every admitted user is backed by a live credential of an active client and
    by an admission of the generation with the same revision. *)
Lemma RealityRuntime_user snap d rt u :
  RealityRuntime public_of snap d = Ok rt -> u ∈ rt.(rr_users) ->
  exists p c a q,
    peers d !! u.(ru_peer) = Some p /\ p.(p_enabled) = true /\ p.(p_reality) = true /\
    reality_credentials d !! u.(ru_peer) = Some c /\ u.(ru_uuid) = c.(cr_uuid) /\
    a ∈ snap.(sn_admissions) /\ a = MkAdmission u.(ru_peer) c.(cr_id) c.(cr_revision) /\
    q ∈ snap.(sn_peers) /\ q.(p_id) = u.(ru_peer) /\ q.(p_enabled) = true /\ q.(p_reality) = true /\
    snap.(sn_settings).(s_reality) = true /\
    is_Some (reality_identity d) /\ from_option i_id EmptyString (reality_identity d) = snap.(sn_identity).
Proof.
  unfold RealityRuntime. intros Hrt Hu. apply result_bind_Ok in Hrt as ([cur d0] & _ & Hrt).
  destruct (negb _ || negb _) eqn:Hoff; [injection Hrt as <-; by apply elem_of_nil in Hu|].
  apply orb_false_iff in Hoff as [Hs _]. apply negb_false_iff in Hs.
  apply result_bind_Ok in Hrt as ([i|] & Hi & Hrt); [|done]. case_decide as Hid; [|done].
  apply result_bind_Ok in Hrt as (m & Hm & [= <-]). simpl in Hu.
  apply list_elem_of_omap in Hu as ([k c] & Hkc & Hu). unfold admits in Hu. simpl in Hu.
  destruct (m !! k) as [a|] eqn:Ha; [|done]. destruct (policy_peers _ !! k) as [q|] eqn:Hq; [|done].
  destruct (_ && _) eqn:Hb in Hu; [|done]. injection Hu as <-. simpl. reflect_bools.
  unfold live_credentials in Hkc. apply list_elem_of_filter in Hkc as [Hlive Hin].
  apply elem_of_map_to_list in Hin. simpl in Hlive. destruct (peers d !! k) as [p|] eqn:Hp; [|done].
  simpl in Hlive. reflect_bools.
  apply (admitted_map_lookup _ _ _ _ _ Hm) in Ha as [Ha|[Ha Hap]]; [by rewrite lookup_empty in Ha|].
  apply policy_peers_in in Hq as [Hq Hqid].
  exists p, c, a, q. unfold realityIdentity in Hi.
  destruct (reality_identity d) as [row|]; [|done]. destruct (public_of _); [|done].
  injection Hi as <-. split_and!; try done. destruct a; simpl in *; congruence.
Qed.
End admission.

(** ** Properties *)

(** C6: [RealityRuntime] never admits more than both sides allow: every user
    it hands to the proxy has the live UUID of a client that is enabled with
    REALITY access now, was so in the generation, and whose credential is the
    one the generation admitted, at the same revision; and the server identity
    is the generation's.  Conversely every such client is admitted. *)
Theorem RealityRuntime_exact `{Unicode} public_of snap d rt peer uuid :
  snap.(sn_settings).(s_reality) = true -> NoDup (p_id <$> snap.(sn_peers)) ->
  (exists cur, settings d = Ok (cur, d) /\ cur.(s_reality) = true) ->
  RealityRuntime public_of snap d = Ok rt ->
  MkUser peer (RealityUserName peer) uuid ∈ rt.(rr_users) <->
  exists p c q,
    peers d !! peer = Some p /\ p.(p_enabled) = true /\ p.(p_reality) = true /\
    reality_credentials d !! peer = Some c /\ uuid = c.(cr_uuid) /\
    MkAdmission peer c.(cr_id) c.(cr_revision) ∈ snap.(sn_admissions) /\
    q ∈ snap.(sn_peers) /\ q.(p_id) = peer /\ q.(p_enabled) = true /\ q.(p_reality) = true.
Proof.
  intros Hsn Hnd (cur & Hcur & Hon) Hrt. split.
  - intros Hu. destruct (RealityRuntime_user _ _ _ _ _ Hrt Hu)
      as (p & c & a & q & ? & ? & ? & ? & ? & Ha & -> & ? & ? & ? & ? & _). by exists p, c, q.
  - intros (p & c & q & Hp & He & Hr & Hc & -> & Ha & Hq & Hqid & Hqe & Hqr).
    unfold RealityRuntime in Hrt. rewrite Hcur in Hrt. simpl in Hrt. rewrite Hsn, Hon in Hrt. simpl in Hrt.
    apply result_bind_Ok in Hrt as ([i|] & Hi & Hrt); [|done]. case_decide; [|done].
    apply result_bind_Ok in Hrt as (m & Hm & [= <-]). simpl.
    apply list_elem_of_omap. exists (peer, c). split.
    + unfold live_credentials. apply list_elem_of_filter. simpl. rewrite Hp. simpl.
      rewrite He, Hr. split; [done|]. by apply elem_of_map_to_list.
    + pose proof (admitted_map_has _ _ _ _ Hm (or_introl Ha)) as Hma. simpl in Hma.
      unfold admits. simpl. rewrite Hma.
      assert (policy_peers (sn_peers snap) !! peer = Some q) as ->.
      { rewrite <- Hqid. by apply policy_fold_has. }
      simpl. by rewrite Hqe, Hqr, !bool_decide_eq_true_2 by done.
Qed.

(** A generation taken before a change of a client's credential. *)
Lemma stale_not_admitted `{Unicode} public_of snap d rt u :
  RealityRuntime public_of snap d = Ok rt -> u ∈ rt.(rr_users) ->
  (forall c, reality_credentials d !! u.(ru_peer) = Some c ->
     MkAdmission u.(ru_peer) c.(cr_id) c.(cr_revision) ∉ snap.(sn_admissions)) -> False.
Proof.
  intros Hrt Hu Hc. destruct (RealityRuntime_user _ _ _ _ _ Hrt Hu)
    as (p & c & a & q & _ & _ & _ & Hcd & _ & Ha & -> & _). by eapply Hc.
Qed.

Lemma snapshot_admissions `{Unicode} d snap d1 id cred rev :
  wf d -> Snapshot d = Ok (snap, d1) -> MkAdmission id cred rev ∈ snap.(sn_admissions) ->
  exists p, peers d !! id = Some p /\ p.(p_revision) = rev.
Proof.
  intros Hd Hs Ha. unfold Snapshot in Hs. apply tx_bind_Ok in Hs as (st & d0 & Hst & Hs).
  assert (d0 = d) as -> by (unfold settings in Hst; destruct (read_rows _ _); by simplify_eq).
  unfold gets, mbind, tx_bind, mret, tx_ret in Hs. injection Hs as <- _. simpl in Ha.
  apply list_elem_of_omap in Ha as (p & Hp & Hadm). unfold admission_of in Hadm.
  case_decide; [|done]. injection Hadm as Hid _ Hrev. apply elem_of_q_peers in Hp as [k Hk].
  pose proof (po_id _ _ (wf_peers d Hd) _ _ Hk) as He. exists p. split; [congruence|done].
Qed.

Lemma prune_rules_creds P rs d e d' :
  prune_rules P rs d = Ok (e, d') -> reality_credentials d' = reality_credentials d.
Proof.
  revert d e. induction rs as [|r rs IH]; intros d e H; [by injection H as _ <-|].
  cbn [prune_rules] in H. apply tx_bind_Ok in H as (e1 & d1 & H1 & H).
  apply tx_bind_Ok in H as (es & d2 & H2 & [= _ <-]). rewrite (IH _ _ H2).
  unfold prune_rule in H1. destruct (decide (r_scope r <> _)); [by injection H1 as _ <-|].
  destruct (decide (length _ = _ /\ _)); [by injection H1 as _ <-|].
  apply tx_bind_Ok in H1 as (b & d3 & H1 & [= _ <-]). unfold sql_update_rule in H1.
  by repeat case_match; simplify_eq.
Qed.

(** C5: a stale generation can not bring a client back: after a rotation of
    its credential, after a patch that switches an active client's access off,
    or after its deletion, no snapshot taken before lets [RealityRuntime] admit
    that client, whatever the old bearer. *)
Theorem stale_generation_cannot_readmit `{Unicode} public_of d snap d1 d' id rt u :
  wf d -> id <> EmptyString -> Snapshot d = Ok (snap, d1) ->
  (exists newUUID expected p', run (RotateReality newUUID id expected) d = (Ok p', d')) \/
  (exists old newCred newUUID next patch p', peers d !! id = Some old /\ newCred <> EmptyString /\
     run (PatchPeer newCred newUUID next id patch) d = (Ok p', d') /\
     old.(p_enabled) && old.(p_reality) = true /\ p'.(p_enabled) && p'.(p_reality) = false) \/
  (exists eff, run (DeletePeerWithEffects id) d = (Ok eff, d')) ->
  RealityRuntime public_of snap d' = Ok rt -> u ∈ rt.(rr_users) -> u.(ru_peer) <> id.
Proof.
  intros Hd Hid Hs Hop Hrt Hu <-. eapply stale_not_admitted; [exact Hrt|exact Hu|].
  intros c Hc Hin. destruct (snapshot_admissions _ _ _ _ _ _ Hd Hs Hin) as (p & Hp & Hrev).
  destruct Hop as [(nu & e & p' & Hop)|[(old & nc & nu & nx & patch & p' & Ho & Hnc & Hop & Hact & Hoff)|[eff Hop]]].
  - apply run_Ok, RotateReality_inv in Hop as (old & c0 & Ho & _ & _ & He & _ & _ & -> & _); [|done].
    simpl in Hc. rewrite lookup_insert_eq in Hc. injection Hc as <-. simpl in Hrev.
    assert (old = p) as -> by congruence. lia.
  - apply run_Ok, PatchPeer_inv in Hop as (old' & Ho' & _ & _ & _ & _ & _ & _ & Hinv); [|done..].
    assert (old' = old) as -> by congruence. destruct (Hinv Hact Hoff) as (c0 & Hc0 & _).
    rewrite Hc0 in Hc. injection Hc as <-. simpl in Hrev. assert (old = p) as -> by congruence. lia.
  - apply run_Ok in Hop. unfold DeletePeerWithEffects in Hop.
    apply tx_bind_Ok in Hop as (b & d2 & Hdel & Hop). unfold sql_delete_peer in Hdel. rewrite Hp in Hdel.
    injection Hdel as <- <-.
    apply tx_bind_Ok in Hop as ([] & d3 & Hca & Hop). apply lift_Ok in Hca as [_ ->].
    apply tx_bind_Ok in Hop as (all & d3 & [= <- <-] & Hop).
    apply tx_bind_Ok in Hop as (ex & d3 & [= <- <-] & Hop). rewrite (prune_rules_creds _ _ _ _ _ Hop) in Hc.
    simpl in Hc. by rewrite lookup_delete_eq in Hc.
Qed.

(** ** Instances *)
#[local] Existing Instance ascii_unicode.

Definition sample_reality : db := set_settings {["reality_enabled" := "true"]} sample_db.
Lemma sample_reality_wf : wf sample_reality.
Proof. apply wf_set_settings, sample_wf. Qed.

Definition sample_pub (k : string) : option string := Some ("pub-" +:+ k).
Definition snap_of (d : db) : SnapshotT :=
  match Snapshot d with
  | Ok (s, _) => s
  | Err _ => MkSnapshot DefaultSettings [] [] [] "" []
  end.
Definition users_of (snap : SnapshotT) (d : db) : list RealityUser :=
  match RealityRuntime sample_pub snap d with Ok rt => rt.(rr_users) | Err _ => [] end.

Example RealityRuntime_exact_witness :
  exists p c q,
    peers sample_reality !! "alice" = Some p /\ p_enabled p = true /\ p_reality p = true /\
    reality_credentials sample_reality !! "alice" = Some c /\ "uuid-1" = cr_uuid c /\
    MkAdmission "alice" (cr_id c) (cr_revision c) ∈ sn_admissions (snap_of sample_reality) /\
    q ∈ sn_peers (snap_of sample_reality) /\ p_id q = "alice" /\ p_enabled q = true /\ p_reality q = true.
Proof.
  assert (Hu : users_of (snap_of sample_reality) sample_reality
               = [MkUser "alice" (RealityUserName "alice") "uuid-1"]) by by vm_compute.
  unfold users_of in Hu. destruct (RealityRuntime _ _ _) as [rt|] eqn:Hrt; [|done].
  eapply (RealityRuntime_exact sample_pub (snap_of sample_reality) sample_reality rt); [| | |exact Hrt|].
  - by vm_compute.
  - apply (bool_decide_eq_true_1 (NoDup (p_id <$> sn_peers (snap_of sample_reality)))). by vm_compute.
  - exists (with_reality true DefaultSettings). split; by vm_compute.
  - rewrite Hu. apply list_elem_of_here.
Defined.

Definition sample_rotated : db := (run (RotateReality "u9" "alice" 3) sample_reality).2.

Example stale_generation_cannot_readmit_witness :
  users_of (snap_of sample_reality) sample_rotated = [].
Proof.
  destruct (users_of _ _) as [|u l] eqn:Hu; [done|exfalso]. unfold users_of in Hu.
  destruct (RealityRuntime _ _ _) as [rt|] eqn:Hrt; [|done].
  assert (Hok : is_ok (run (RotateReality "u9" "alice" 3) sample_reality).1 = true) by by vm_compute.
  apply is_ok_Ok in Hok as [p' Hp'].
  eapply (stale_generation_cannot_readmit sample_pub sample_reality (snap_of sample_reality)
            sample_reality sample_rotated "alice" rt u sample_reality_wf).
  - done.
  - by vm_compute.
  - left. exists "u9", 3, p'. exact (run_fst _ _ _ Hp').
  - exact Hrt.
  - rewrite Hu. apply list_elem_of_here.
  - assert (u ∈ users_of (snap_of sample_reality) sample_rotated) as Hin.
    { unfold users_of. rewrite Hrt, Hu. apply list_elem_of_here. }
    exfalso. assert (users_of (snap_of sample_reality) sample_rotated = []) as He by by vm_compute.
    rewrite He in Hin. by apply elem_of_nil in Hin.
Defined.
