(* ===== verification/StoreSpec.v ===== *)
(** * The store as a state machine

    Every handler of the store that writes, as a step on the database; the
    states reachable from the empty database satisfy [wf]; and what a snapshot
    of a reachable state promises to the layers that generate configuration
    from it.  Values a handler draws (identifiers, times, keys) are part of
    the step; identifiers are never empty. *)

From S2P Require Import Prelude GoStd Model Db Wf Sample RulesStore TunnelsStore PeersStore SettingsStore AuthStore RealityStore.
#[local] Open Scope Z_scope.

Section spec.
Context `{Unicode}.

(** [step d d']: one call of a writing handler, committed or refused. *)
Inductive step (d : db) : db -> Prop :=
  (* tunnels *)
  | step_create_tunnel newID now t : step d (run (CreateTunnel newID now t) d).2
  | step_update_tunnel t : step d (run (UpdateTunnel t) d).2
  | step_delete_tunnel id : step d (run (DeleteTunnel id) d).2
  | step_update_pool id servers at_ : step d (run (UpdateTunnelPool id servers at_) d).2
  | step_builtin_pool newID now url typ : step d (run (EnsureBuiltinPool newID now url typ) d).2
  | step_warp newID now t reg : step d (run (CreateWARPTunnel newID now t reg) d).2
  | step_check id status at_ okAt : step d (run (SaveTunnelCheck id status at_ okAt) d).2
  | step_notified id status : step d (run (SetNotifiedStatus id status) d).2
  (* rules *)
  | step_create_rule newID r : step d (run (CreateRule newID r) d).2
  | step_update_rule r : step d (run (UpdateRule r) d).2
  | step_delete_rule id : step d (run (DeleteRule id) d).2
  | step_reorder ids : step d (run (ReorderRules ids) d).2
  (* peers *)
  | step_create_peer newID newCred newUUID now p : newCred <> EmptyString ->
      step d (run (CreatePeer newID newCred newUUID now p) d).2
  | step_update_peer p : step d (run (UpdatePeer p) d).2
  | step_patch_peer newCred newUUID next id patch : newCred <> EmptyString -> id <> EmptyString ->
      step d (run (PatchPeer newCred newUUID next id patch) d).2
  | step_delete_peer id : step d (run (DeletePeerWithEffects id) d).2
  | step_rotate newUUID id expected : step d (run (RotateReality newUUID id expected) d).2
  | step_reset_reality : step d (run ResetRealityAfterRestore d).2
  (* settings *)
  | step_save_settings dw v : step d (run (SaveSettings dw v) d).2
  | step_update_settings dw merge : step d (run (UpdateSettings dw merge) d).2
  | step_key key value : step d (run (setSettingValue key value) d).2
  | step_notify c : step d (run (SaveNotifyConfig c) d).2
  (* authentication *)
  | step_password gen encoded : step d (run (SetPasswordHash gen encoded) d).2
  | step_reset_sessions gen : step d (run (ResetSessionsAfterRestore gen) d).2
  | step_session s : step d (run (CreateSession s) d).2
  | step_verified_session s st : step d (run (CreateVerifiedSession s st) d).2
  | step_extend token expires : step d (run (ExtendSession token expires) d).2
  | step_logout token : step d (run (DeleteSession token) d).2
  | step_expire now : step d (run (DeleteExpiredSessions now) d).2.

Inductive reachable : db -> Prop :=
  | reach_init : reachable empty_db
  | reach_step d d' : reachable d -> step d d' -> reachable d'.

(** ** Each handler keeps the invariant *)
Lemma run_wf {A} (m : Tx A) d :
  (forall a d', m d = Ok (a, d') -> wf d') -> wf d -> wf (run m d).2.
Proof. intros Hm Hd. unfold run. destruct (m d) as [[a d']|]; [by eapply Hm|done]. Qed.

Lemma saveSettings_wf dw v d u d' : wf d -> saveSettings dw v d = Ok (u, d') -> wf d'.
Proof. destruct u. intros Hd Hs. by destruct (saveSettings_inv dw v d d' Hd Hs) as (_ & _ & ? & _). Qed.

Lemma settings_frame d st d' : settings d = Ok (st, d') -> d' = d.
Proof. unfold settings. destruct (read_rows _ _); by intros [=]. Qed.

Lemma upserts_wf l d u d' : wf d -> forM_ l (fun kv => sql_upsert_setting kv.1 kv.2) d = Ok (u, d') -> wf d'.
Proof. intros Hd. rewrite upserts_run. intros [= _ <-]. by apply wf_set_settings. Qed.

Lemma sql_insert_session_wf c s d n d' : wf d -> sql_insert_session c s d = Ok (n, d') -> wf d'.
Proof.
  intros Hd. unfold sql_insert_session. destruct (c d); [|by intros [= _ <-]].
  case_bool_decide; [done|]. intros [= _ <-]. by apply wf_set_sessions.
Qed.

Lemma step_wf d d' : wf d -> step d d' -> wf d'.
Proof.
  intros Hd. destruct 1.
  - by apply CreateTunnel_wf.
  - by apply UpdateTunnel_wf.
  - by apply DeleteTunnel_wf.
  - by apply UpdateTunnelPool_wf.
  - apply run_wf; [|done]. intros a d' Hx. by destruct (EnsureBuiltinPool_inv _ _ _ _ _ _ _ Hd Hx).
  - apply run_wf; [|done]. intros a d' Hx. by destruct (CreateWARPTunnel_inv _ _ _ _ _ _ _ Hd Hx) as (_ & _ & ? & _).
  - by apply SaveTunnelCheck_wf.
  - by apply SetNotifiedStatus_wf.
  - apply run_wf; [|done]. intros a d' Hx. by destruct (CreateRule_wf _ _ _ _ _ Hd Hx).
  - apply run_wf; [|done]. intros [] d' Hx. by destruct (UpdateRule_wf _ _ _ Hd Hx).
  - destruct (rules d !! id) as [r|] eqn:Hr.
    + destruct (DeleteRule_run d id Hd) as (-> & ? & _); [by exists r|done].
    + unfold run, DeleteRule, mbind, tx_bind, sql_delete_rule. by rewrite Hr.
  - apply run_wf; [|done]. intros [] d' Hx. unfold ReorderRules in Hx.
    apply tx_bind_Ok in Hx as (cur & d0 & [= <- <-] & Hx).
    apply tx_bind_Ok in Hx as ([] & d0 & [Hs ->]%lift_Ok & Hx).
    apply sameSet_Permutation in Hs; [|by apply NoDup_ruleIDs, wf_keyed].
    symmetry in Hs. rewrite applyOrder_wf in Hx by done. injection Hx as <-. by apply renumbered_wf.
  - by apply CreatePeer_wf.
  - by apply UpdatePeer_wf.
  - apply run_wf; [|done]. intros a d' Hx.
    by destruct (PatchPeer_inv _ _ _ _ _ _ _ _ Hd H0 H1 Hx) as (_ & _ & ? & _).
  - apply run_wf; [|done]. intros a d' Hx. pose proof (DeletePeerWithEffects_run d id Hd) as Hp.
    destruct (peers d !! id); [|by rewrite Hp in Hx].
    destruct Hp as (eff & d2 & Hr & ? & _). congruence.
  - apply run_wf; [|done]. intros a d' Hx.
    by destruct (RotateReality_inv _ _ _ _ _ _ Hd Hx) as (_ & _ & _ & _ & _ & _ & _ & _ & _ & ?).
  - by apply ResetReality_wf.
  - apply run_wf; [|done]. intros a d' Hx. unfold SaveSettings in Hx.
    apply tx_bind_Ok in Hx as ([] & d0 & [_ ->]%lift_Ok & Hx). by eapply saveSettings_wf.
  - apply run_wf; [|done]. intros a d' Hx. unfold UpdateSettings in Hx.
    apply tx_bind_Ok in Hx as (b & d0 & ->%settings_frame & Hx).
    apply tx_bind_Ok in Hx as ([] & d0 & [_ ->]%lift_Ok & Hx).
    apply tx_bind_Ok in Hx as ([] & d1 & Hx & [= _ <-]). by eapply saveSettings_wf.
  - by apply wf_set_settings.
  - apply run_wf; [|done]. intros a d' Hx. unfold SaveNotifyConfig in Hx.
    apply tx_bind_Ok in Hx as ([] & d0 & [_ ->]%lift_Ok & Hx). by eapply upserts_wf.
  - apply run_wf; [|done]. intros a d' Hx. unfold SetPasswordHash, sql_upsert_setting in Hx. inv_tx.
    by apply wf_set_sessions, wf_set_settings, wf_set_settings.
  - by apply wf_set_settings, wf_set_sessions.
  - apply run_wf; [|done]. intros a d' Hx. unfold CreateSession in Hx. inv_tx.
    by eapply sql_insert_session_wf.
  - apply run_wf; [|done]. intros a d' Hx. unfold CreateVerifiedSession in Hx. inv_tx.
    by eapply sql_insert_session_wf.
  - by apply wf_set_sessions.
  - by apply wf_set_sessions.
  - by apply wf_set_sessions.
Qed.

Lemma reachable_inv d : reachable d -> wf d.
Proof. induction 1; [apply wf_empty|by eapply step_wf]. Qed.
End spec.

(** ** Snapshots *)
Section snapshot.
Context `{Unicode}.
Implicit Types (d : db) (snap : SnapshotT).

Lemma Snapshot_inv d snap d1 :
  Snapshot d = Ok (snap, d1) ->
  d1 = d /\ snap.(sn_tunnels) = q_tunnels d /\ snap.(sn_rules) = q_rules d /\
  snap.(sn_peers) = q_peers d /\ snap.(sn_admissions) = omap admission_of (q_peers d).
Proof.
  intros Hs. unfold Snapshot in Hs. apply tx_bind_Ok in Hs as (st & d0 & ->%settings_frame & Hs).
  unfold gets, mbind, tx_bind, mret, tx_ret in Hs. by injection Hs as <- <-.
Qed.

Lemma tunnel_in_snapshot d id :
  wf d -> is_Some (tunnels d !! id) -> exists t, t ∈ q_tunnels d /\ t.(t_id) = id.
Proof.
  intros Hd [t Ht]. exists t. split; [apply elem_of_q_tunnels; eauto|].
  by apply (to_id _ (wf_tunnels d Hd)).
Qed.

Lemma peer_in_snapshot d id :
  wf d -> is_Some (peers d !! id) -> exists p, p ∈ q_peers d /\ p.(p_id) = id.
Proof.
  intros Hd [p Hp]. exists p. split; [apply elem_of_q_peers; eauto|].
  by apply (po_id _ _ (wf_peers d Hd)).
Qed.

Lemma NoDup_q_peers d : wf d -> NoDup (p_id <$> q_peers d).
Proof.
  intros Hd. unfold q_peers. rewrite merge_sort_Permutation. apply NoDup_map_rows_fmap.
  intros k1 k2 x1 x2 H1 H2. pose proof (po_id _ _ (wf_peers d Hd)) as Hid.
  by rewrite (Hid _ _ H1), (Hid _ _ H2).
Qed.

Lemma NoDup_admissions (ps : list Peer) :
  NoDup (p_id <$> ps) -> NoDup (ra_peer <$> omap admission_of ps).
Proof.
  intros Hnd. eapply sublist_NoDup; [exact Hnd|]. clear Hnd.
  induction ps as [|p ps IH]; [constructor|]. rewrite fmap_cons. cbn [omap list_omap].
  unfold admission_of at 1. case_decide; simpl; [by apply sublist_skip|by apply sublist_cons].
Qed.
End snapshot.

(** ** Properties *)

(** C1: every state the store can reach from an empty database, whatever
    handlers are called with whatever arguments and whichever of them are
    refused, is well formed: keys and unique columns, dense rule priorities,
    rules and clients that only name existing tunnels and clients, enabled
    rules that have a tunnel and a live scope, credentials that agree with the
    clients' rows. *)
Theorem store_invariant `{Unicode} d : reachable d -> wf d.
Proof. apply reachable_inv. Qed.

(** C4: the snapshot configuration is generated from is closed and ordered:
    rules come numbered 0, 1, ... in priority order; every link of every rule,
    every client a rule selects and every client's egress is in the same
    snapshot; an enabled tunnel rule has its first link; and each client is
    admitted at most once, at a positive revision.  Reading it changes
    nothing. *)
Theorem snapshot_consistent `{Unicode} d snap d1 :
  reachable d -> Snapshot d = Ok (snap, d1) ->
  d1 = d /\
  r_priority <$> snap.(sn_rules) = seqZ 0 (Z.of_nat (length snap.(sn_rules))) /\
  (forall r, r ∈ snap.(sn_rules) ->
     (r.(r_enabled) = true -> r.(r_action) = ActionTunnel -> r.(r_tunnel) <> EmptyString) /\
     (r.(r_tunnel) <> EmptyString -> exists t, t ∈ snap.(sn_tunnels) /\ t.(t_id) = r.(r_tunnel)) /\
     (r.(r_via) <> EmptyString -> exists t, t ∈ snap.(sn_tunnels) /\ t.(t_id) = r.(r_via)) /\
     (forall id, id ∈ r.(r_peers) -> exists p, p ∈ snap.(sn_peers) /\ p.(p_id) = id) /\
     (r.(r_enabled) = true -> r.(r_scope) = ScopeSelected -> r.(r_peers) <> [])) /\
  (forall p id, p ∈ snap.(sn_peers) -> p.(p_egress) = Some id ->
     exists t, t ∈ snap.(sn_tunnels) /\ t.(t_id) = id) /\
  NoDup (p_id <$> snap.(sn_peers)) /\ NoDup (ra_peer <$> snap.(sn_admissions)) /\
  (forall a, a ∈ snap.(sn_admissions) -> 1 <= a.(ra_revision)).
Proof.
  intros Hd%reachable_inv Hs. apply Snapshot_inv in Hs as (-> & -> & -> & -> & ->).
  split; [done|]. split.
  { pose proof (rls_dense _ _ _ (wf_rules d Hd)) as Hdn. unfold dense in Hdn. unfold q_rules.
    rewrite Hdn. by rewrite merge_sort_Permutation, length_map_rows. }
  split; [|split; [|split; [by apply NoDup_q_peers|split; [by apply NoDup_admissions, NoDup_q_peers|]]]].
  - intros r [k Hr]%elem_of_q_rules. pose proof (rls_row _ _ _ (wf_rules d Hd) _ _ Hr) as Hok.
    split_and!; [apply Hok| | | |apply Hok].
    + intros Hne. apply tunnel_in_snapshot; [done|]. by destruct (ro_tunnel _ _ _ Hok).
    + intros Hne. apply tunnel_in_snapshot; [done|]. by destruct (ro_via _ _ _ Hok).
    + intros id Hid. apply peer_in_snapshot; [done|]. by apply (ro_peers _ _ _ Hok).
  - intros p id [k Hp]%elem_of_q_peers He. apply tunnel_in_snapshot; [done|].
    by eapply (po_egress _ _ (wf_peers d Hd)).
  - intros a Ha. apply list_elem_of_omap in Ha as (p & [k Hp]%elem_of_q_peers & Ha).
    unfold admission_of in Ha. case_decide as Hr; [|done]. injection Ha as <-. simpl.
    destruct Hr as [Hre Hne]. pose proof (wf_cred_checked d _ _ Hd Hp) as Hck. unfold cred_checked in Hck.
    destruct (reality_credentials d !! k) as [c|]; [|by destruct Hck].
    destruct Hck as (_ & -> & _ & ?). done.
Qed.

(** ** Instances *)
#[local] Existing Instance ascii_unicode.

(** Two tunnels, a client with an egress and REALITY access, a rule. *)
Definition run1 : db :=
  (run (CreateTunnel "wg" 0 (MkTunnel "" "Home" TunnelWireGuard SourceWGConf "[Interface]" "" true 5 []
          zero_time false "")) empty_db).2.
Definition run2 : db :=
  (run (CreatePeer "alice" "cred" "uuid" 7 (MkPeer false true "" 0 (Some "wg") "" "Alice" "pub" "priv"
          "psk" "10.8.0.2" true zero_time)) run1).2.
Definition run3 : db :=
  (run (CreateRule "r" (MkRule "" "all" ActionTunnel "wg" "" 0 true [] ["ru"] [] [] ScopeSelected
          ["alice"; "alice"] false)) run2).2.

Lemma run3_reachable : reachable run3.
Proof.
  apply (reach_step run2); [|apply step_create_rule].
  apply (reach_step run1); [|by apply step_create_peer].
  apply (reach_step empty_db); [apply reach_init|apply step_create_tunnel].
Qed.

Example store_invariant_witness : wf run3 /\ size (rules run3) = 1%nat.
Proof. split; [exact (store_invariant run3 run3_reachable)|by vm_compute]. Defined.

Example snapshot_consistent_witness :
  r_priority <$> (snap_of run3).(sn_rules) = [0] /\ length (snap_of run3).(sn_admissions) = 1%nat /\
  NoDup (ra_peer <$> (snap_of run3).(sn_admissions)).
Proof.
  assert (Hs : is_ok (Snapshot run3) = true) by by vm_compute.
  assert (Hsnap : exists d1, Snapshot run3 = Ok (snap_of run3, d1)).
  { unfold snap_of. destruct (Snapshot run3) as [[s d1]|e]; [by exists d1|done]. }
  destruct Hsnap as [d1 Hsnap].
  destruct (snapshot_consistent run3 (snap_of run3) d1 run3_reachable Hsnap)
    as (_ & Hp & _ & _ & _ & Hnd & _).
  split; [by vm_compute|]. split; [by vm_compute|]. exact Hnd.
Defined.
