(* ===== verification/Migrate.v ===== *)
(** * Schema migrations: [internal/store/migrate.go]

    The loop of [migrate]: which steps run, in which order, and what an
    interruption leaves.  The SQL text of a step is executed by SQLite and is
    the argument [exec]; a step and its [PRAGMA user_version] are one
    transaction. *)

From S2P Require Import Prelude.
#[local] Open Scope Z_scope.

(** The versions of [migrations], in the order of the slice. *)
Definition migrations : list Z := [1; 2; 3; 4; 5; 6; 7; 8; 9; 10; 11; 12; 13].

Definition schemaVersion : Z := default 0 (last migrations).

Section migrate.
Context {Schema : Type} (exec : Z -> Schema -> result Schema).

(** The database file: its tables and [user_version]. *)
Record file := MkFile { f_schema : Schema; f_version : Z }.

(** One migration in its own transaction. *)
Definition apply_step (v : Z) (f : file) : result file :=
  s ← exec v f.(f_schema); Ok (MkFile s v).

(** The loop; [current] is read once, before it.  The second component is the
    file left behind, also when a step fails. *)
Fixpoint migrate_loop (current : Z) (steps : list Z) (f : file) : result unit * file :=
  match steps with
  | [] => (Ok tt, f)
  | v :: steps =>
      if decide (v <= current) then migrate_loop current steps f
      else match apply_step v f with
           | Ok f' => migrate_loop current steps f'
           | Err e => (Err e, f)
           end
  end.

(** [migrate] *)
Definition migrate (f : file) : result unit * file :=
  if decide (schemaVersion < f.(f_version)) then (fail ErrInvalid "database newer than the program", f)
  else migrate_loop f.(f_version) migrations f.

(** ** The loop on an increasing list of versions *)
Fixpoint exec_all (steps : list Z) (f : file) : result file :=
  match steps with
  | [] => Ok f
  | v :: steps => f' ← apply_step v f; exec_all steps f'
  end.

Definition pending (current : Z) (steps : list Z) : list Z := filter (fun v => current < v) steps.

Lemma migrate_loop_pending current steps f :
  migrate_loop current steps f = migrate_loop current (pending current steps) f.
Proof.
  revert f. induction steps as [|v steps IH]; intros f; [done|]. unfold pending. rewrite filter_cons.
  simpl. destruct (decide (v <= current)).
  - rewrite decide_False by lia. apply IH.
  - rewrite decide_True by lia. simpl. rewrite decide_False by lia.
    destruct (apply_step v f); [apply IH|done].
Qed.

(** A run that stops after a prefix leaves the file that prefix produces. *)
Lemma migrate_loop_prefix current steps f res f' :
  Forall (fun v => current < v) steps -> migrate_loop current steps f = (res, f') ->
  exists done_ rest, steps = done_ ++ rest /\ exec_all done_ f = Ok f' /\
    match res with
    | Ok _ => rest = []
    | Err e => exists v rest', rest = v :: rest' /\ exec v f'.(f_schema) = Err e
    end.
Proof.
  revert f. induction steps as [|v steps IH]; intros f Hall Hm; simpl in Hm.
  { injection Hm as <- <-. by exists [], []. }
  apply Forall_cons in Hall as [Hv Hall]. rewrite decide_False in Hm by lia.
  destruct (apply_step v f) as [f1|e] eqn:Hs.
  - destruct (IH f1 Hall Hm) as (dn & rest & -> & He & Hr). exists (v :: dn), rest.
    split_and!; [done| |done]. simpl. by rewrite Hs.
  - injection Hm as <- <-. exists [], (v :: steps). split_and!; [done|done|]. exists v, steps.
    split; [done|]. unfold apply_step in Hs. destruct (exec v _); simpl in Hs; congruence.
Qed.

Lemma exec_all_version steps f f' :
  exec_all steps f = Ok f' -> f'.(f_version) = default f.(f_version) (last steps).
Proof.
  revert f. induction steps as [|v steps IH]; intros f He; simpl in He.
  { by injection He as <-. }
  apply result_bind_Ok in He as (f1 & H1 & He). apply IH in He. rewrite He.
  unfold apply_step in H1. destruct (exec v _); [|done]. injection H1 as <-. simpl.
  destruct steps as [|w steps]; [done|].
  change (last (v :: w :: steps)) with (last (w :: steps)).
  destruct (last (w :: steps)) eqn:Hl; [done|]. by apply last_None in Hl.
Qed.

Lemma exec_all_app s1 s2 f : exec_all (s1 ++ s2) f = (f' ← exec_all s1 f; exec_all s2 f').
Proof.
  revert f. induction s1 as [|v s1 IH]; intros f; [done|]. simpl.
  destruct (apply_step v f); [|done]. simpl. apply IH.
Qed.

Definition all_steps : list Z := seqZ 1 13.
Lemma migrations_seqZ : migrations = all_steps.
Proof. reflexivity. Qed.

Lemma filter_le_nil k m n : (n < k) -> filter (fun v => n < v) (seqZ k m) = seqZ k m.
Proof. intros Hk. apply filter_all. intros x Hx%elem_of_seqZ. lia. Qed.

Lemma pending_seqZ c : 0 <= c <= 13 -> pending c migrations = seqZ (c + 1) (13 - c).
Proof.
  intros Hc. rewrite migrations_seqZ. unfold pending, all_steps.
  replace 13 with (c + (13 - c)) at 1 by lia. rewrite seqZ_app by lia. rewrite filter_app.
  rewrite (proj2 (filter_nil_iff _ _)), app_nil_l by (intros x Hx%elem_of_seqZ; lia).
  rewrite filter_le_nil by lia. f_equal. lia.
Qed.

Lemma migrate_pending f :
  0 <= f.(f_version) <= 13 ->
  migrate f = migrate_loop f.(f_version) (seqZ (f.(f_version) + 1) (13 - f.(f_version))) f.
Proof.
  intros Hf. unfold migrate. rewrite decide_False by (unfold schemaVersion; simpl; lia).
  by rewrite migrate_loop_pending, pending_seqZ.
Qed.

Lemma exec_all_seqZ_version c n f f' :
  f.(f_version) = c -> 0 <= n -> exec_all (seqZ (c + 1) n) f = Ok f' -> f'.(f_version) = c + n.
Proof.
  intros Hc Hn He. rewrite (exec_all_version _ _ _ He).
  destruct (decide (n = 0)) as [->|]; [by rewrite Hc, Z.add_0_r|].
  assert (Hs : seqZ (c + 1) n = seqZ (c + 1) (n - 1) ++ [c + n]).
  { replace n with (n - 1 + 1) at 1 by lia. rewrite seqZ_app by lia. f_equal.
    rewrite seqZ_cons by lia. rewrite seqZ_nil by lia. f_equal. lia. }
  by rewrite Hs, last_snoc.
Qed.
End migrate.

(** Migrating brings a database of any older version to version 13 by
    running exactly the missing steps, each once and in order; if a step
    fails, what stays is the file after the steps before it, and running
    [migrate] again resumes there: the outcome is that of one uninterrupted
    run.  On an up-to-date database it does nothing, and a newer one is
    refused untouched. *)
Theorem migrate_resumable {Schema} (exec : Z -> Schema -> result Schema) f :
  0 <= f.(f_version) ->
  (13 < f.(f_version) -> migrate exec f = (fail ErrInvalid "database newer than the program", f)) /\
  (f.(f_version) <= 13 ->
    exists n f', 0 <= n <= 13 - f.(f_version) /\ (migrate exec f).2 = f' /\
      exec_all exec (seqZ (f.(f_version) + 1) n) f = Ok f' /\ f'.(f_version) = f.(f_version) + n /\
      (is_ok (migrate exec f).1 = true <-> n = 13 - f.(f_version)) /\
      (n < 13 - f.(f_version) -> exists e, exec (f.(f_version) + n + 1) f'.(f_schema) = Err e) /\
      (f'.(f_version) = 13 -> migrate exec f' = (Ok tt, f')) /\
      forall exec' fin, exec_all exec' (seqZ (f'.(f_version) + 1) (13 - f'.(f_version))) f' = Ok fin ->
        migrate exec' f' = (Ok tt, fin) /\ fin.(f_version) = 13).
Proof.
  intros H0. split.
  { intros Hgt. unfold migrate. by rewrite decide_True by (unfold schemaVersion; simpl; lia). }
  intros Hle. set (c := f_version f) in *. rewrite !migrate_pending by (fold c; lia). fold c.
  destruct (migrate_loop exec c (seqZ (c + 1) (13 - c)) f) as [res f'] eqn:Hm.
  destruct (migrate_loop_prefix exec c (seqZ (c + 1) (13 - c)) f res f') as (dn & rest & Hsteps & He & Hres);
    [apply Forall_forall; intros x Hx%elem_of_seqZ; lia|done|].
  assert (Hlen : Z.of_nat (length dn) + Z.of_nat (length rest) = 13 - c).
  { rewrite <- Nat2Z.inj_add, <- length_app, <- Hsteps, length_seqZ. lia. }
  assert (Hn0 : 0 <= Z.of_nat (length dn)) by lia.
  set (n := Z.of_nat (length dn)) in *.
  assert (Hsplit : seqZ (c + 1) (13 - c) = seqZ (c + 1) n ++ seqZ (c + 1 + n) (13 - c - n)).
  { rewrite <- seqZ_app by lia. f_equal. lia. }
  rewrite Hsplit in Hsteps. apply app_inj_1 in Hsteps as [Hdn Hrest];
    [|rewrite length_seqZ; lia].
  rewrite <- Hdn in He.
  assert (Hv : f_version f' = c + n) by (eapply exec_all_seqZ_version; [done|lia|exact He]).
  exists n, f'. split; [lia|]. split; [done|]. split; [done|]. split; [done|]. split_and!.
  - simpl. destruct res as [u|e]; simpl.
    + rewrite Hres in Hlen. simpl in Hlen. split; [lia|done].
    + split; [done|]. destruct Hres as (v & rest' & Hr & _). rewrite Hr in Hlen. simpl in Hlen. lia.
  - intros Hn. destruct res as [u|e]; [rewrite Hres in Hlen; simpl in Hlen; lia|].
    destruct Hres as (v & rest' & Hr & Hex). exists e. rewrite Hr, seqZ_cons in Hrest by lia.
    injection Hrest as <- _. by replace (c + n + 1) with (c + 1 + n) by lia.
  - intros H13. rewrite migrate_pending by lia. by rewrite H13.
  - intros exec' fin Hfin. rewrite migrate_pending by lia.
    destruct (migrate_loop exec' _ _ f') as [res2 f2] eqn:Hm2.
    destruct (migrate_loop_prefix exec' (f_version f') (seqZ (f_version f' + 1) (13 - f_version f')) f' res2 f2) as (d2 & r2 & Hs2 & He2 & Hr2);
      [|exact Hm2|].
    { apply Forall_forall. intros x Hx%elem_of_seqZ. lia. }
    rewrite Hs2, exec_all_app, He2 in Hfin. simpl in Hfin.
    destruct res2 as [[]|e].
    + rewrite Hr2 in Hfin, Hs2. simpl in Hfin. injection Hfin as <-. split; [done|].
      rewrite app_nil_r in Hs2. rewrite <- Hs2 in He2.
      rewrite (exec_all_seqZ_version exec' (f_version f') (13 - f_version f') f' f2); [lia|done|lia|done].
    + destruct Hr2 as (v & r' & -> & Hex). simpl in Hfin. unfold apply_step in Hfin.
      by rewrite Hex in Hfin.
Qed.

(** Steps that log their number; step 7 fails. *)
Definition sample_exec (fails : Z) (v : Z) (log : list Z) : result (list Z) :=
  if decide (v = fails) then fail ErrOther "step" else Ok (log ++ [v]).

Example migrate_resumable_witness :
  (migrate (sample_exec 7) (MkFile [] 4)).2 = MkFile [5; 6] 6 /\
  migrate (sample_exec 0) (MkFile [5; 6] 6) = (Ok tt, MkFile [5; 6; 7; 8; 9; 10; 11; 12; 13] 13).
Proof.
  destruct (proj2 (migrate_resumable (sample_exec 7) (MkFile [] 4) ltac:(simpl; lia)) ltac:(simpl; lia))
    as (n & f' & _ & Hf & _ & _ & _ & _ & _ & Hres).
  assert (Hf' : f' = MkFile [5; 6] 6) by (rewrite <- Hf; by vm_compute). subst f'.
  split; [exact Hf'|]. rewrite Hf' in Hres.
  exact (proj1 (Hres (sample_exec 0) _ ltac:(by vm_compute))).
Defined.
