(* ===== verification/Throttle.v ===== *)
(** * Login throttling and the client key

    [internal/api/throttle.go] and [internal/api/clientip.go].  The table of
    failed attempts is a finite map from client keys; [now] is the clock value
    the operation reads.  [time.Time] is a number of nanoseconds and
    [time.Duration] a 64-bit one, so [time_Sub] saturates and the shift of
    [fail_delay] wraps, as they do in Go. *)

From Stdlib Require Import Ascii.
From S2P Require Import Prelude GoStd.
#[local] Open Scope Z_scope.

(** ** Constants *)
Definition maxLoginFails : Z := 5.
Definition loginBlock : Z := 15 * minute.
Definition failWindow : Z := 15 * minute.
Definition loginBaseDelay : Z := 250 * 10 ^ 6.
Definition loginMaxDelay : Z := 4 * second.

(** ** Data *)
Record attempt := MkAttempt { fails : Z; last : Z; blockedUntil : Z }.
#[local] Notation throttle := (gmap string attempt).
Definition newThrottle : throttle := ∅.

(** ** Operations *)
Definition retryAfter (key : string) (now : Z) (t : throttle) : Z :=
  match t !! key with
  | None => 0
  | Some e => let left := time_Sub e.(blockedUntil) now in
              if decide (0 < left) then left else 0
  end.

(** [loginBaseDelay << (e.fails - 1)] on 64 bits, clamped. *)
Definition fail_delay (n : Z) : Z :=
  let delay := wrap64 (Z.shiftl loginBaseDelay (n - 1)) in
  if decide (loginMaxDelay < delay \/ delay <= 0) then loginMaxDelay else delay.

Definition fail_entry (e : option attempt) (now : Z) : attempt :=
  let e := match e with
           | Some e => if decide (failWindow < time_Sub now e.(last)) then MkAttempt 0 zero_time zero_time
                       else e
           | None => MkAttempt 0 zero_time zero_time
           end in
  let n := e.(fails) + 1 in
  MkAttempt n now (if decide (maxLoginFails <= n) then now + loginBlock else e.(blockedUntil)).

Definition fail (key : string) (now : Z) (t : throttle) : Z * throttle :=
  let e := fail_entry (t !! key) now in
  (fail_delay e.(fails), <[key := e]> t).

Definition success (key : string) (t : throttle) : throttle := delete key t.

Definition stale (now : Z) (e : attempt) : Prop :=
  e.(blockedUntil) < now /\ failWindow < time_Sub now e.(last).
#[export] Instance stale_dec now e : Decision (stale now e).
Proof. unfold stale. apply _. Defined.

Definition sweep (now : Z) (t : throttle) : throttle := filter (fun p => ~ stale now p.2) t.

(** ** [clientKey]

    The request carries the connection's address and the two headers. *)
Definition unknownClient : string := "неизвестный адрес".

Record Request := MkRequest {
  RemoteAddr : string;
  X_Real_IP : string;               (** [r.Header.Get]: empty when absent *)
  X_Forwarded_For : list string     (** [r.Header.Values] *)
}.

Definition parseClientAddr (s : string) : option Addr :=
  let s := TrimSpace s in
  if decide (s = EmptyString) then None
  else match ParseAddr s with
       | None => None
       | Some a => Some (WithoutZone (Unmap a))
       end.

Definition peerAddr (remote : string) : option Addr :=
  parseClientAddr (match SplitHostPort remote with Some (host, _) => host | None => remote end).

(** The last element that parses. *)
Definition last_some {A B} (f : A -> option B) (l : list A) : option B :=
  foldr (fun x acc => match acc with Some y => Some y | None => f x end) None l.

Definition lastForwarded (values : list string) : option Addr :=
  last_some (fun v => last_some parseClientAddr (Split v ",")) values.

Definition clientKey (r : Request) : string :=
  match peerAddr r.(RemoteAddr) with
  | None => unknownClient
  | Some peer =>
      if negb (IsLoopback peer) then AddrString peer
      else match parseClientAddr r.(X_Real_IP) with
           | Some a => AddrString a
           | None =>
               match lastForwarded r.(X_Forwarded_For) with
               | Some a => AddrString a
               | None => AddrString peer
               end
           end
  end.

(** ** Traces of operations *)
Inductive event :=
  | EvRetry (key : string) (now : Z)
  | EvFail (key : string) (now : Z)
  | EvSuccess (key : string)
  | EvSweep (now : Z).

Definition is_sweep (e : event) : Prop := match e with EvSweep _ => True | _ => False end.
#[export] Instance is_sweep_dec e : Decision (is_sweep e).
Proof. destruct e; simpl; apply _. Defined.

Definition event_time (e : event) : option Z :=
  match e with EvRetry _ now | EvFail _ now | EvSweep now => Some now | EvSuccess _ => None end.

(** The clock never goes back. *)
Fixpoint clocked (now : Z) (es : list event) : Prop :=
  match es with
  | [] => True
  | e :: es => let now' := default now (event_time e) in now <= now' /\ clocked now' es
  end.

(** The answers callers receive along a trace. *)
Fixpoint answers (es : list event) (t : throttle) : list Z :=
  match es with
  | [] => []
  | EvRetry key now :: es => retryAfter key now t :: answers es t
  | EvFail key now :: es => (fail key now t).1 :: answers es (fail key now t).2
  | EvSuccess key :: es => answers es (success key t)
  | EvSweep now :: es => answers es (sweep now t)
  end.

(** ** Lemmas *)
#[local] Arguments fail : simpl never.
#[local] Arguments retryAfter : simpl never.
Lemma wrap64_id z : min_int <= z <= max_int -> wrap64 z = z.
Proof. unfold wrap64, min_int, max_int. intros. rewrite Z.mod_small; lia. Qed.

Lemma wrap64_multiple k q : 0 <= k <= 63 -> exists m, wrap64 (q * 2 ^ k) = m * 2 ^ k.
Proof.
  intros Hk. unfold wrap64. rewrite Z.mod_eq by lia.
  assert (H63 : 2 ^ 63 = 2 ^ (63 - k) * 2 ^ k) by (rewrite <- Z.pow_add_r; f_equal; lia).
  assert (H64 : 2 ^ 64 = 2 ^ (64 - k) * 2 ^ k) by (rewrite <- Z.pow_add_r; f_equal; lia).
  set (r := (q * 2 ^ k + 2 ^ 63) / 2 ^ 64). exists (q - 2 ^ (64 - k) * r).
  rewrite H64. lia.
Qed.

Lemma fail_delay_min n :
  1 <= n -> fail_delay n = Z.min (loginBaseDelay * 2 ^ (n - 1)) loginMaxDelay.
Proof.
  intros Hn. unfold fail_delay. rewrite Z.shiftl_mul_pow2 by lia.
  change loginBaseDelay with (1953125 * 2 ^ 7). change loginMaxDelay with 4000000000.
  rewrite <- Z.mul_assoc, <- Z.pow_add_r by lia.
  destruct (decide (n <= 5)) as [H5|H5].
  { assert (n ∈ [1; 2; 3; 4; 5]) as Hin by (rewrite !elem_of_cons; lia).
    rewrite !elem_of_cons, elem_of_nil in Hin. by destruct_or? Hin; subst. }
  assert (Hbig : 2 ^ 12 <= 2 ^ (7 + (n - 1))) by (apply Z.pow_le_mono_r; lia).
  rewrite Z.min_r by lia. destruct (decide (n <= 36)) as [H36|H36].
  - assert (2 ^ (7 + (n - 1)) <= 2 ^ 42) by (apply Z.pow_le_mono_r; lia).
    rewrite wrap64_id by (unfold min_int, max_int; lia). case_decide; lia.
  - replace (1953125 * 2 ^ (7 + (n - 1))) with (1953125 * 2 ^ (7 + (n - 1) - 43) * 2 ^ 43)
      by (rewrite <- Z.mul_assoc, <- Z.pow_add_r by lia; f_equal; f_equal; lia).
    destruct (wrap64_multiple 43 (1953125 * 2 ^ (7 + (n - 1) - 43))) as [m ->]; [lia|].
    case_decide; lia.
Qed.

Lemma stale_mono now now' e : now <= now' -> stale now e -> stale now' e.
Proof. unfold stale, time_Sub. lia. Qed.

Lemma stale_retry now e : stale now e -> time_Sub e.(blockedUntil) now <= 0.
Proof. unfold stale, time_Sub, min_int, max_int. lia. Qed.

Lemma stale_fail_entry now e : stale now e -> fail_entry (Some e) now = fail_entry None now.
Proof. intros [_ Hw]. unfold fail_entry. by rewrite decide_True. Qed.

Lemma lookup_sweep now t key :
  sweep now t !! key = match t !! key with
                       | Some e => if decide (stale now e) then None else Some e
                       | None => None
                       end.
Proof.
  unfold sweep. rewrite map_lookup_filter. destruct (t !! key) as [e|]; [|done]. simpl.
  destruct (decide (stale now e)); simpl.
  - by rewrite option_guard_False by tauto.
  - by rewrite option_guard_True by done.
Qed.

(** A swept table and the table it came from: they differ at most in entries
    that no longer influence anything at [now]. *)
Definition swept (now : Z) (t1 t2 : throttle) : Prop :=
  forall key, t1 !! key = t2 !! key \/
              t1 !! key = None /\ exists e, t2 !! key = Some e /\ stale now e.

Lemma swept_mono now now' t1 t2 : now <= now' -> swept now t1 t2 -> swept now' t1 t2.
Proof.
  intros Hle H key. destruct (H key) as [?|(? & e & ? & ?)]; [by left|right].
  eauto using stale_mono.
Qed.

Lemma swept_retry now t1 t2 key :
  swept now t1 t2 -> retryAfter key now t1 = retryAfter key now t2.
Proof.
  intros H. unfold retryAfter. destruct (H key) as [->|(-> & e & -> & He)]; [done|].
  rewrite decide_False; [done|]. apply stale_retry in He. lia.
Qed.

Lemma swept_fail now t1 t2 key :
  swept now t1 t2 ->
  (fail key now t1).1 = (fail key now t2).1 /\ swept now (fail key now t1).2 (fail key now t2).2.
Proof.
  intros H. unfold fail. cbv zeta. cbn [fst snd].
  assert (fail_entry (t1 !! key) now = fail_entry (t2 !! key) now) as ->.
  { destruct (H key) as [->|(-> & e & -> & He)]; [done|]. by rewrite stale_fail_entry. }
  split; [done|]. intros k. destruct (decide (k = key)) as [->|Hk].
  - left. by rewrite !lookup_insert_eq.
  - rewrite !lookup_insert_ne by done. apply H.
Qed.

Lemma swept_success now t1 t2 key : swept now t1 t2 -> swept now (success key t1) (success key t2).
Proof.
  intros H k. unfold success. destruct (decide (k = key)) as [->|Hk].
  - left. by rewrite !lookup_delete_eq.
  - rewrite !lookup_delete_ne by done. apply H.
Qed.

Lemma swept_sweep now t1 t2 : swept now t1 t2 -> swept now (sweep now t1) t2.
Proof.
  intros H k. rewrite lookup_sweep. destruct (H k) as [->|(-> & e & -> & He)]; [|right; eauto].
  destruct (t2 !! k) as [e|]; [|by left]. case_decide; [right|left]; eauto.
Qed.

Lemma answers_swept es now t1 t2 :
  clocked now es -> swept now t1 t2 ->
  answers es t1 = answers (filter (fun e => ~ is_sweep e) es) t2.
Proof.
  revert now t1 t2. induction es as [|e es IH]; intros now t1 t2 Hc Hs; [done|].
  destruct Hc as [Hle Hc]. rewrite filter_cons.
  destruct e as [key t|key t|key|t]; simpl in *;
    (eapply swept_mono in Hs; [|exact Hle]).
  - f_equal; [by apply swept_retry|by eapply IH].
  - destruct (swept_fail t t1 t2 key Hs) as [H1 H2].
    f_equal; [done|by eapply IH].
  - eapply IH; [done|by apply swept_success].
  - eapply IH; [done|by apply swept_sweep].
Qed.

(** *** The client key *)
Lemma last_some_app {A B} (f : A -> option B) l1 l2 :
  last_some f (l1 ++ l2) = match last_some f l2 with Some y => Some y | None => last_some f l1 end.
Proof.
  induction l1 as [|x l1 IH]; simpl; [by destruct (last_some f l2)|].
  rewrite IH. by destruct (last_some f l2).
Qed.

Lemma last_some_Some {A B} (f : A -> option B) l y :
  last_some f l = Some y -> exists x, x ∈ l /\ f x = Some y.
Proof.
  induction l as [|x l IH]; simpl; [done|]. destruct (last_some f l) as [z|].
  - intros [= ->]. destruct IH as (x' & ? & ?); [done|]. exists x'. split; [by right|done].
  - intros Hf. exists x. split; [by left|done].
Qed.

Lemma parseClientAddr_canonical s a :
  parseClientAddr s = Some a -> Unmap a = a /\ WithoutZone a = a.
Proof.
  unfold parseClientAddr. destruct (decide _); [done|].
  destruct (ParseAddr _) as [[ip|ip z]|]; [by intros [= <-]| |done].
  unfold Unmap, WithoutZone. destruct (decide (ip / 2 ^ 32 = _)) as [|Hn]; intros [= <-]; [done|].
  by rewrite decide_False.
Qed.

(** ** Properties *)

(** C16: the periodic clean-up of the table is not observable: along every trace
    of checks, failures and successes with a clock that does not go back,
    removing all the sweeps changes no remaining-block answer and no delay.
    And each delay is the intended one, doubling from 250 ms and capped at 4 s,
    for every count of failures: the wrap-around of the 64-bit shift is never
    visible. *)
Theorem sweep_unobservable es now :
  clocked now es ->
  answers es newThrottle = answers (filter (fun e => ~ is_sweep e) es) newThrottle /\
  forall n, 1 <= n -> fail_delay n = Z.min (loginBaseDelay * 2 ^ (n - 1)) loginMaxDelay.
Proof.
  intros Hc. split; [|apply fail_delay_min].
  eapply answers_swept; [exact Hc|]. intros key. by left.
Qed.

Definition sample_events : list event :=
  [EvFail "a" second; EvFail "b" second; EvSweep (20 * minute); EvFail "a" (30 * minute);
   EvFail "a" (30 * minute); EvSweep (31 * minute); EvRetry "b" (32 * minute)].

Lemma sweep_unobservable_witness :
  clocked 0 sample_events /\
  answers sample_events newThrottle =
    answers (filter (fun e => ~ is_sweep e) sample_events) newThrottle.
Proof.
  assert (Hc : clocked 0 sample_events).
  { repeat (split; [vm_compute; congruence|]). exact I. }
  split; [exact Hc|]. apply (sweep_unobservable _ 0 Hc).
Defined.

(** which address a login attempt is counted against.  The headers of a
    request that did not come from loopback are ignored.  Behind the local
    proxy the address it appends to [X-Forwarded-For] decides (when
    [X-Real-IP] gives none), whatever the client wrote in front of it; and the
    key never distinguishes two spellings of an address: it is printed from
    the unmapped address without its zone. *)
Theorem clientKey_trust r peer :
  peerAddr r.(RemoteAddr) = Some peer ->
  (IsLoopback peer = false ->
     forall real fwd, clientKey (MkRequest r.(RemoteAddr) real fwd) = AddrString peer) /\
  (IsLoopback peer = true ->
     (forall real a fwd, parseClientAddr real = Some a ->
        clientKey (MkRequest r.(RemoteAddr) real fwd) = AddrString a) /\
     (forall real values forged seen a,
        parseClientAddr real = None -> ContainsByte seen "," = false -> parseClientAddr seen = Some a ->
        clientKey (MkRequest r.(RemoteAddr) real (values ++ [forged +:+ String "," seen])) = AddrString a) /\
     (forall real, parseClientAddr real = None ->
        clientKey (MkRequest r.(RemoteAddr) real []) = AddrString peer)) /\
  exists a, clientKey r = AddrString a /\ Unmap a = a /\ WithoutZone a = a.
Proof.
  intros Hp. unfold clientKey. cbn [RemoteAddr X_Real_IP X_Forwarded_For]. rewrite Hp. split_and!.
  - by intros ->.
  - intros ->. cbn [negb]. split_and!.
    + by intros real a fwd ->.
    + intros real values forged seen a -> Hc Ha.
      assert (lastForwarded (values ++ [forged +:+ String "," seen]) = Some a) as ->; [|done].
      unfold lastForwarded. rewrite last_some_app. cbn [last_some foldr].
      rewrite Split_app_sep, last_some_app, Split_none by done. cbn. by rewrite Ha.
    + by intros real ->.
  - assert (Hpeer : Unmap peer = peer /\ WithoutZone peer = peer).
    { unfold peerAddr in Hp. by eapply parseClientAddr_canonical. }
    destruct (IsLoopback peer); cbn [negb]; [|by exists peer].
    destruct (parseClientAddr _) as [a|] eqn:Ha; [exists a; eauto using parseClientAddr_canonical|].
    destruct (lastForwarded _) as [a|] eqn:Hf; [|by exists peer].
    exists a. split; [done|]. unfold lastForwarded in Hf.
    apply last_some_Some in Hf as (v & _ & Hf). apply last_some_Some in Hf as (w & _ & Hf).
    by eapply parseClientAddr_canonical.
Qed.

Lemma clientKey_trust_witness :
  peerAddr "127.0.0.1:4000" = Some (V4 2130706433) /\
  clientKey (MkRequest "127.0.0.1:4000" "" ["9.9.9.9, 203.0.113.7"]%string) = "203.0.113.7"%string.
Proof.
  assert (Hp : peerAddr "127.0.0.1:4000" = Some (V4 2130706433)) by (vm_compute; reflexivity).
  split; [exact Hp|].
  destruct (clientKey_trust (MkRequest "127.0.0.1:4000" "" []) _ Hp) as (_ & Hl & _).
  destruct Hl as (_ & Hl & _); [reflexivity|].
  etransitivity; [apply (Hl "" [] "9.9.9.9" " 203.0.113.7" (V4 3405803783))%string; vm_compute; reflexivity|].
  vm_compute. reflexivity.
Defined.
