(* ===== verification/Base64.v ===== *)
(** * [encoding/base64]

    The four encodings the daemon uses: standard and URL alphabet, with and
    without padding.  A Go byte slice is a byte string. *)

From Stdlib Require Import Ascii.
From S2P Require Import Prelude GoStd.
#[local] Open Scope Z_scope.

Module Base64.
Definition char_of (n : Z) : ascii :=
  ascii_of_N (Z.to_N (if decide (n < 26) then 65 + n
                      else if decide (n < 52) then 71 + n
                      else if decide (n < 62) then n - 4
                      else if decide (n = 62) then 43 else 47)).
Definition value_of (c : ascii) : option Z :=
  let b := byte_of c in
  if decide (65 <= b <= 90) then Some (b - 65)
  else if decide (97 <= b <= 122) then Some (b - 71)
  else if decide (48 <= b <= 57) then Some (b + 4)
  else if decide (b = 43) then Some 62
  else if decide (b = 47) then Some 63
  else None.
Definition byte (z : Z) : ascii := ascii_of_N (Z.to_N z).

Fixpoint encode (s : string) : string :=
  match s with
  | EmptyString => EmptyString
  | String a EmptyString =>
      let a := byte_of a in
      String (char_of (a / 4)) (String (char_of (a mod 4 * 16)) EmptyString)
  | String a (String b EmptyString) =>
      let a := byte_of a in let b := byte_of b in
      String (char_of (a / 4)) (String (char_of (a mod 4 * 16 + b / 16))
        (String (char_of (b mod 16 * 4)) EmptyString))
  | String a (String b (String c s)) =>
      let a := byte_of a in let b := byte_of b in let c := byte_of c in
      String (char_of (a / 4)) (String (char_of (a mod 4 * 16 + b / 16))
        (String (char_of (b mod 16 * 4 + c / 64)) (String (char_of (c mod 64)) (encode s))))
  end.

(** The alphabet's values; carriage returns and line feeds are skipped. *)
Fixpoint sextets (s : string) : option (list Z) :=
  match s with
  | EmptyString => Some []
  | String c s =>
      if decide (byte_of c = 10 \/ byte_of c = 13) then sextets s
      else match value_of c, sextets s with
           | Some n, Some l => Some (n :: l)
           | _, _ => None
           end
  end.
(** Trailing bits are not checked (the decoder is not [Strict]). *)
Fixpoint octets (l : list Z) : option string :=
  match l with
  | [] => Some EmptyString
  | [_] => None
  | [a; b] => Some (String (byte (a * 4 + b / 16)) EmptyString)
  | [a; b; c] =>
      Some (String (byte (a * 4 + b / 16)) (String (byte (b mod 16 * 16 + c / 4)) EmptyString))
  | a :: b :: c :: d :: l =>
      match octets l with
      | Some s => Some (String (byte (a * 4 + b / 16)) (String (byte (b mod 16 * 16 + c / 4))
                          (String (byte (c mod 4 * 64 + d)) s)))
      | None => None
      end
  end.
Definition decode (s : string) : option string := sextets s ≫= octets.

(** The URL alphabet has [-] and [_] in place of [+] and [/]. *)
Definition std_char (url : bool) (c : ascii) : option ascii :=
  if url then
    if decide (c = "-"%char) then Some "+"%char
    else if decide (c = "_"%char) then Some "/"%char
    else if decide (c = "+"%char \/ c = "/"%char) then None else Some c
  else Some c.
Fixpoint std_text (url : bool) (s : string) : option string :=
  match s with
  | EmptyString => Some EmptyString
  | String c s => c ← std_char url c; s ← std_text url s; Some (String c s)
  end.
Fixpoint without_newlines (s : string) : string :=
  match s with
  | EmptyString => EmptyString
  | String c s => if decide (byte_of c = 10 \/ byte_of c = 13) then without_newlines s
                  else String c (without_newlines s)
  end.
(** [StdEncoding] and [URLEncoding]: a last group of two or three characters is
    filled up with [=]. *)
Definition decode_padded (s : string) : option string :=
  let s := without_newlines s in
  match Cut s "=" with
  | None => if decide (Nat.modulo (String.length s) 4 = O) then decode s else None
  | Some (body, pad) =>
      let m := Nat.modulo (String.length body) 4 in
      if decide (pad = EmptyString /\ m = 3%nat \/ pad = "="%string /\ m = 2%nat) then decode body else None
  end.
Definition decode_with (url pad : bool) (s : string) : option string :=
  s ← std_text url s; if pad then decode_padded s else decode s.
End Base64.

(** ** Lemmas *)
Lemma byte_of_range c : 0 <= byte_of c < 256.
Proof. unfold byte_of. pose proof (N_ascii_bounded c). lia. Qed.

Lemma byte_byte_of z c : z = byte_of c -> Base64.byte z = c.
Proof. intros ->. unfold Base64.byte, byte_of. by rewrite N2Z.id, ascii_N_embedding. Qed.

(** The ranges of all the bytes of the goal, for linear arithmetic. *)
Ltac byte_lia :=
  repeat match goal with |- context [byte_of ?x] =>
           lazymatch goal with
           | _ : 0 <= byte_of x < 256 |- _ => fail
           | _ => pose proof (byte_of_range x)
           end
         end;
  Z.to_euclidean_division_equations; lia.

(** Induction by groups of three bytes. *)
Lemma string_ind3 (P : string -> Prop) :
  P EmptyString -> (forall a, P (String a EmptyString)) ->
  (forall a b, P (String a (String b EmptyString))) ->
  (forall a b c s, P s -> P (String a (String b (String c s)))) -> forall s, P s.
Proof.
  intros H0 H1 H2 H3. fix IH 1.
  intros [|a [|b [|c s]]]; [exact H0|apply H1|apply H2|apply H3, IH].
Qed.

Lemma base64_alphabet :
  Forall (fun n => Base64.value_of (Base64.char_of n) = Some n /\
                   byte_of (Base64.char_of n) <> 10 /\ byte_of (Base64.char_of n) <> 13 /\
                   Base64.char_of n <> "$"%char) (seqZ 0 64).
Proof. repeat (apply Forall_cons; split; [by vm_compute|]). by apply Forall_nil. Qed.

Lemma base64_char n : 0 <= n < 64 ->
  Base64.value_of (Base64.char_of n) = Some n /\
  byte_of (Base64.char_of n) <> 10 /\ byte_of (Base64.char_of n) <> 13 /\
  Base64.char_of n <> "$"%char.
Proof.
  intros Hn. pose proof base64_alphabet as Hall. rewrite Forall_forall in Hall.
  apply Hall. apply elem_of_seqZ. lia.
Qed.

Lemma sextets_cons n s : 0 <= n < 64 ->
  Base64.sextets (String (Base64.char_of n) s) = cons n <$> Base64.sextets s.
Proof.
  intros Hn. destruct (base64_char n Hn) as (Hv & H10 & H13 & _). simpl.
  rewrite decide_False by tauto. rewrite Hv. by destruct (Base64.sextets s).
Qed.

Lemma decode_encode s : Base64.decode (Base64.encode s) = Some s.
Proof.
  unfold Base64.decode. induction s as [|a|a b|a b c s IH] using string_ind3; [done| | |];
    cbn [Base64.encode]; cbv zeta;
    rewrite !sextets_cons by byte_lia.
  - simpl. do 2 f_equal. apply byte_byte_of. byte_lia.
  - simpl. do 2 f_equal; [|f_equal]; apply byte_byte_of; byte_lia.
  - destruct (Base64.sextets (Base64.encode s)) as [l|]; [|done]. simpl in IH |- *. rewrite IH.
    do 2 f_equal; [|f_equal; [|f_equal]]; apply byte_byte_of; byte_lia.
Qed.

Lemma contains_cons x s c : x <> c -> ContainsByte (String x s) c = ContainsByte s c.
Proof. intros Hx. unfold ContainsByte. simpl. rewrite decide_False by done. by destruct (Cut s c) as [[]|]. Qed.

Lemma encode_no_dollar s : ContainsByte (Base64.encode s) "$" = false.
Proof.
  induction s as [|a|a b|a b c s IH] using string_ind3; [done| | |];
    cbn [Base64.encode]; cbv zeta;
    rewrite !contains_cons by (apply base64_char; byte_lia); done.
Qed.
