(* ===== verification/Password.v ===== *)
(** * Panel passwords

    [internal/api/password.go]: the PHC text of an argon2id hash and the check
    of a password against it.  The [fmt.Sscanf] patterns of [decodeHash] are modelled; [argon2.IDKey] is a
    parameter.  A Go byte slice is a byte string. *)

From Stdlib Require Import Ascii.
From S2P Require Import Prelude GoStd Base64.
#[local] Open Scope Z_scope.

(** ** [fmt.Sscanf] *)

(** [%d] skips spaces but not a line feed, reads the longest run of decimal
    digits (after a sign for a signed target) and fails outside 64 bits. *)
Fixpoint scan_digits (s : string) (acc : Z) (n : nat) : Z * nat * string :=
  match s with
  | String c s' =>
      if decide (48 <= byte_of c <= 57) then scan_digits s' (acc * 10 + (byte_of c - 48)) (S n)
      else (acc, n, s)
  | EmptyString => (acc, n, s)
  end.
Definition scan_uint (limit : Z) (s : string) : option (Z * string) :=
  let runes := filter (fun r => r <> String (ascii_of_N 10) EmptyString) space_runes in
  match scan_digits (trim_left_runes runes (String.length s) s) 0 0 with
  | (_, O, _) => None
  | (v, _, rest) => if decide (v < limit) then Some (v, rest) else None
  end.
Definition scan_int (s : string) : option (Z * string) :=
  let runes := filter (fun r => r <> String (ascii_of_N 10) EmptyString) space_runes in
  let s := trim_left_runes runes (String.length s) s in
  let '(neg, s) := match s with
                   | String "-" s' => (true, s')
                   | String "+" s' => (false, s')
                   | _ => (false, s)
                   end in
  match scan_digits s 0 0 with
  | (_, O, _) => None
  | (v, _, rest) => let v := if (neg : bool) then - v else v in
                    if in_int64 v then Some (v, rest) else None
  end.

(** ** The hash format *)
Definition argonTime : Z := 3.
Definition argonMemory : Z := 64 * 1024.
Definition argonThreads : Z := 4.
Definition argonKeyLen : Z := 32.
Definition argonSaltLen : Z := 16.
Definition MinPasswordLen : Z := 12.
(** [argon2.Version] *)
Definition argon2_Version : Z := 0x13.

Record argonParams := MkArgonParams { ap_memory : Z; ap_time : Z; ap_threads : Z }.

(** [Sscanf(s, "m=%d,t=%d,p=%d", ...)] into two [uint32] and a [uint8]. *)
Definition scan_params (s : string) : option argonParams :=
  s ← strip_prefix "m=" s; '(m, s) ← scan_uint (2 ^ 32) s;
  s ← strip_prefix ",t=" s; '(t, s) ← scan_uint (2 ^ 32) s;
  s ← strip_prefix ",p=" s; '(p, _) ← scan_uint (2 ^ 8) s;
  Some (MkArgonParams m t p).

Definition decodeHash (encoded : string) : result (string * string * argonParams) :=
  match Split encoded "$" with
  | ["" ; "argon2id"; version; params; salt; sum] =>
      match strip_prefix "v=" version ≫= scan_int with
      | None => fail ErrOther "bad hash: version"
      | Some (v, _) =>
          if decide (v <> argon2_Version) then fail ErrOther "bad hash: version"
          else match scan_params params with
               | None => fail ErrOther "bad hash: parameters"
               | Some ps =>
                   if decide (ps.(ap_memory) = 0 \/ ps.(ap_time) = 0 \/ ps.(ap_threads) = 0)
                   then fail ErrOther "bad hash: zero parameters"
                   else match Base64.decode salt with
                        | None => fail ErrOther "bad hash: salt"
                        | Some salt =>
                            match Base64.decode sum with
                            | None => fail ErrOther "bad hash: hash"
                            | Some sum =>
                                if decide (salt = EmptyString \/ sum = EmptyString)
                                then fail ErrOther "bad hash: empty"
                                else Ok (salt, sum, ps)
                            end
                        end
               end
      end
  | _ => fail ErrOther "bad hash: not argon2id"
  end%string.

Section password.
(** [argon2.IDKey password salt time memory threads keyLen] *)
Variable IDKey : string -> string -> Z -> Z -> Z -> Z -> string.

(** [salt] is what [rand.Read] returned. *)
Definition HashPassword (salt password : string) : result string :=
  if decide (RuneCount password < MinPasswordLen) then fail ErrOther "weak password"
  else
    let sum := IDKey password salt argonTime argonMemory argonThreads argonKeyLen in
    Ok ("$argon2id$v=" +:+ Itoa argon2_Version +:+ "$m=" +:+ Itoa argonMemory +:+ ",t=" +:+
        Itoa argonTime +:+ ",p=" +:+ Itoa argonThreads +:+ "$" +:+ Base64.encode salt +:+ "$" +:+
        Base64.encode sum)%string.

Definition VerifyPassword (encoded password : string) : result bool :=
  '(salt, want, params) ← decodeHash encoded;
  let got := IDKey password salt params.(ap_time) params.(ap_memory) params.(ap_threads)
               (Z.of_nat (String.length want)) in
  Ok (bool_decide (got = want)).
End password.

Section password_laws.
Variable IDKey : string -> string -> Z -> Z -> Z -> Z -> string.
(** [argon2.IDKey] returns [keyLen] bytes. *)
Hypothesis IDKey_length : forall p s t m k n, 0 <= n -> String.length (IDKey p s t m k n) = Z.to_nat n.

Lemma decodeHash_parts salt sum :
  salt <> EmptyString -> sum <> EmptyString ->
  decodeHash ("$argon2id$v=19$m=65536,t=3,p=4$" +:+ Base64.encode salt +:+ "$" +:+ Base64.encode sum)
  = Ok (salt, sum, MkArgonParams argonMemory argonTime argonThreads).
Proof.
  intros Hs Hk. unfold decodeHash.
  change ("$argon2id$v=19$m=65536,t=3,p=4$" +:+ Base64.encode salt +:+ "$" +:+ Base64.encode sum)%string
    with ("$argon2id$v=19$m=65536,t=3,p=4" +:+ String "$" (Base64.encode salt +:+ String "$" (Base64.encode sum)))%string.
  rewrite !Split_app_sep, (Split_none (Base64.encode salt)), (Split_none (Base64.encode sum))
    by apply encode_no_dollar.
  change (Split "$argon2id$v=19$m=65536,t=3,p=4" "$") with ["" ; "argon2id"; "v=19"; "m=65536,t=3,p=4"]%string.
  cbn [app]. change (strip_prefix "v=" "v=19" ≫= scan_int) with (Some (19, EmptyString)).
  change (scan_params "m=65536,t=3,p=4") with (Some (MkArgonParams 65536 3 4)).
  cbv iota beta. rewrite decide_False by (intros Hv; by apply Hv).
  rewrite decide_False by (simpl; lia). rewrite !decode_encode.
  rewrite decide_False by tauto. done.
Qed.

(** ** Properties *)

(** The stored hash of a password verifies that password, and verifies
    another one exactly when argon2id with the same salt gives it the same key;
    passwords of fewer than twelve characters (not bytes) are refused and
    nothing else is. *)
Theorem password_roundtrip salt password :
  String.length salt = Z.to_nat argonSaltLen ->
  (RuneCount password < MinPasswordLen ->
     HashPassword IDKey salt password = fail ErrOther "weak password") /\
  (MinPasswordLen <= RuneCount password ->
     exists encoded, HashPassword IDKey salt password = Ok encoded /\
       VerifyPassword IDKey encoded password = Ok true /\
       forall other, VerifyPassword IDKey encoded other =
         Ok (bool_decide (IDKey other salt argonTime argonMemory argonThreads argonKeyLen =
                          IDKey password salt argonTime argonMemory argonThreads argonKeyLen))).
Proof.
  intros Hsalt. unfold HashPassword. split; intros Hr.
  { by rewrite decide_True. }
  rewrite decide_False by lia. set (sum := IDKey _ _ _ _ _ _).
  assert (Hlen : String.length sum = 32%nat) by (unfold sum; by rewrite IDKey_length).
  set (encoded := ("$argon2id$v=19$m=65536,t=3,p=4$" +:+ Base64.encode salt +:+ "$" +:+ Base64.encode sum)%string).
  exists encoded. split; [reflexivity|].
  assert (Hv : forall other, VerifyPassword IDKey encoded other =
     Ok (bool_decide (IDKey other salt argonTime argonMemory argonThreads argonKeyLen = sum))).
  { intros other. unfold VerifyPassword, encoded.
    rewrite decodeHash_parts; [|by intros ->|by intros E; rewrite E in Hlen].
    cbn [mbind result_bind ap_time ap_memory ap_threads]. by rewrite Hlen. }
  split; [|exact Hv]. rewrite (Hv password). by rewrite bool_decide_eq_true_2.
Qed.
End password_laws.

(** A function with the interface of [argon2.IDKey]: its first byte tells
    whether the password has an even length. *)
Fixpoint zeros (n : nat) : string := match n with O => EmptyString | S n => String "000" (zeros n) end.
Definition sample_IDKey (password salt : string) (time memory threads keyLen : Z) : string :=
  match Z.to_nat keyLen with
  | O => EmptyString
  | S n => String (if Nat.even (String.length password) then "000" else "001")%char (zeros n)
  end.

Lemma password_roundtrip_witness :
  exists encoded, HashPassword sample_IDKey (zeros 16) "correct horse" = Ok encoded /\
    VerifyPassword sample_IDKey encoded "correct horse" = Ok true /\
    VerifyPassword sample_IDKey encoded "wrong horse!" = Ok false.
Proof.
  assert (Hl : forall p s t m k n, 0 <= n -> String.length (sample_IDKey p s t m k n) = Z.to_nat n).
  { intros p s t m k n _. unfold sample_IDKey. destruct (Z.to_nat n) as [|j]; [reflexivity|].
    simpl. f_equal. induction j as [|j IH]; [reflexivity|]. simpl. by rewrite IH. }
  destruct (password_roundtrip sample_IDKey Hl (zeros 16) "correct horse" eq_refl) as [_ H].
  destruct H as (e & He & Hv & Ho); [vm_compute; congruence|].
  exists e. split; [exact He|]. split; [exact Hv|]. etransitivity; [apply Ho|]. vm_compute. reflexivity.
Defined.
