(* ===== verification/Login.v ===== *)
(** * Signing in and sessions of the panel

    [internal/api/handlers.go] ([handleLogin], [handleLogout], [requireSession])
    and [internal/api/session.go], on top of the throttle, the password hash and
    the store's sessions.  Requests run concurrently: the state a handler finds
    at its second and third access may have been changed by others, which is
    the [lg_race] argument of a login. *)

From Stdlib Require Import Ascii.
From S2P Require Import Prelude GoStd Model Db Wf Sample AuthStore Throttle Password.
#[local] Open Scope Z_scope.
#[local] Set Default Proof Using "Type".

Definition sessionTTL : Z := 24 * hour.
Definition sessionRenewAfter : Z := sessionTTL / 2.

Record server := MkServer { sv_throttle : gmap string attempt; sv_db : db }.

(** What the client gets, with the cookie of a successful login. *)
Inductive answer :=
  | RateLimited (retry_after : Z)
  | BadRequest
  | InternalError
  | WrongPassword (delay : Z)
  | PasswordChanged
  | LoggedIn (token : string) (expires : Z).

Record LoginRequest := MkLogin {
  lg_http : Request;
  lg_check : Z;                       (** clock at [retryAfter] *)
  lg_body : option string;            (** the decoded password, if the body decodes *)
  lg_cancelled : bool;                (** the context ends before a verification slot is free *)
  lg_race1 : server -> server;        (** others, before the password state is read *)
  lg_race2 : server -> server;        (** others, while the password is verified *)
  lg_late : Z;                        (** clock after the verification *)
  lg_token : option string            (** [newSessionToken] *)
}.

Section login.
Variable IDKey : string -> string -> Z -> Z -> Z -> Z -> string.
(** [sha256.Sum256] *)
Variable Sum256 : string -> string.

Definition hashToken (token : string) : string := EncodeToHex (Sum256 token).

Definition checkPassword (cancelled : bool) (password : string) (d : db)
  : result (PasswordStateT * bool) :=
  if cancelled then Prelude.fail ErrOther "context done"
  else state ← PasswordState d;
       ok ← VerifyPassword IDKey state.(ps_hash) password;
       Ok (state, ok).

Definition issueSession (token : option string) (now : Z) (state : PasswordStateT)
  : Tx (string * Z) :=
  match token with
  | None => throw ErrOther "session token"
  | Some token =>
      _ ← CreateVerifiedSession (MkSessionT (hashToken token) now (now + sessionTTL)) state;
      mret (token, now + sessionTTL)
  end.

Definition handleLogin (rq : LoginRequest) (sv : server) : answer * server :=
  let key := clientKey rq.(lg_http) in
  let left := retryAfter key rq.(lg_check) sv.(sv_throttle) in
  if decide (0 < left) then (RateLimited ((left + second / 2) / second), sv)
  else
    let sv := rq.(lg_race1) sv in
    match rq.(lg_body) with
    | None => (BadRequest, sv)
    | Some password =>
        let checked := checkPassword rq.(lg_cancelled) password sv.(sv_db) in
        let sv := rq.(lg_race2) sv in
        match checked with
        | Err _ => (InternalError, sv)
        | Ok (_, false) =>
            let '(delay, t) := Throttle.fail key rq.(lg_late) sv.(sv_throttle) in
            (WrongPassword delay, MkServer t sv.(sv_db))
        | Ok (state, true) =>
            match run (issueSession rq.(lg_token) rq.(lg_late) state) sv.(sv_db) with
            | (Err e, d) =>
                (if decide (e.(err_kind) = ErrPasswordChanged) then PasswordChanged else InternalError,
                 MkServer sv.(sv_throttle) d)
            | (Ok (token, expires), d) =>
                (LoggedIn token expires, MkServer (success key sv.(sv_throttle)) d)
            end
        end
    end.

(** [Server.sweep], one round. *)
Definition sweep_round (now : Z) (sv : server) : server :=
  MkServer (sweep now sv.(sv_throttle)) (run (DeleteExpiredSessions now) sv.(sv_db)).2.

(** [Server.session]: the cookie's value, empty when there is none. *)
Definition session (cookie : string) (now : Z) (d : db) : result (option SessionT) :=
  if decide (cookie = EmptyString) then Ok None
  else match GetSession (hashToken cookie) now d with
       | Ok s => if decide (s.(se_token) = hashToken cookie) then Ok (Some s) else Ok None
       | Err e => if decide (e.(err_kind) = ErrNotFound) then Ok None else Err e
       end.

Definition renew (sess : SessionT) (token : string) (now : Z) (d : db) : option (string * Z) * db :=
  if decide (sessionRenewAfter < time_Sub sess.(se_expires) now) then (None, d)
  else match run (ExtendSession sess.(se_token) (now + sessionTTL)) d with
       | (Ok _, d) => (Some (token, now + sessionTTL), d)
       | (Err _, d) => (None, d)
       end.

(** What [requireSession] does with a request. *)
Inductive gate :=
  | GateError                                  (** 500 *)
  | GateDenied (clear_cookie : bool)           (** 401 *)
  | GatePassed (renewed : option (string * Z)).

Definition requireSession (cookie : string) (now now' : Z) (d : db) : gate * db :=
  match session cookie now d with
  | Err _ => (GateError, d)
  | Ok None => (GateDenied (bool_decide (cookie <> EmptyString)), d)
  | Ok (Some sess) => let '(c, d) := renew sess cookie now' d in (GatePassed c, d)
  end.

(** [handleLogout]; the cookie is cleared in any case. *)
Definition handleLogout (cookie : string) (d : db) : result unit * db :=
  if decide (cookie = EmptyString) then (Ok tt, d) else run (DeleteSession (hashToken cookie)) d.

(** ** Traces of logins of one address after another

    The log lists key, time and answer of the calls, the newest first. *)
Inductive call := CallLogin (rq : LoginRequest) | CallSweep (now : Z).
Definition log : Type := list (string * Z * answer).

Fixpoint exec (cs : list call) (sv : server) (l : log) : server * log :=
  match cs with
  | [] => (sv, l)
  | CallLogin rq :: cs =>
      let '(a, sv) := handleLogin rq sv in
      exec cs sv ((clientKey rq.(lg_http), rq.(lg_late), a) :: l)
  | CallSweep now :: cs => exec cs (sweep_round now sv) l
  end.

(** The wrong passwords sent from [key] since its last successful login. *)
Fixpoint guesses (key : string) (l : log) : list Z :=
  match l with
  | [] => []
  | (k, t, a) :: l =>
      if decide (k = key) then
        match a with
        | WrongPassword _ => t :: guesses key l
        | LoggedIn _ _ => []
        | _ => guesses key l
        end
      else guesses key l
  end.

(** Clocks do not go back, and no other request of the same address runs
    while one is served (requests of other addresses may). *)
Fixpoint sequential (key : string) (now : Z) (cs : list call) : Prop :=
  match cs with
  | [] => True
  | CallLogin rq :: cs =>
      now <= rq.(lg_check) <= rq.(lg_late) /\
      (forall sv, sv_throttle (rq.(lg_race1) sv) !! key = sv_throttle sv !! key) /\
      (forall sv, sv_throttle (rq.(lg_race2) sv) !! key = sv_throttle sv !! key) /\
      sequential key rq.(lg_late) cs
  | CallSweep t :: cs => now <= t /\ sequential key t cs
  end.

(** ** Lemmas *)

(** *** One login and one address's entry *)

(** What a request of [key] does to the entry of [key]. *)
Inductive entry_step (rq : LoginRequest) (e : option attempt) : answer -> option attempt -> Prop :=
  | EntryKept a : (forall d, a <> WrongPassword d) -> (forall t x, a <> LoggedIn t x) -> entry_step rq e a e
  | EntryFail d :
      match e with Some e => time_Sub e.(blockedUntil) rq.(lg_check) <= 0 | None => True end ->
      entry_step rq e (WrongPassword d) (Some (fail_entry e rq.(lg_late)))
  | EntryReset t x : entry_step rq e (LoggedIn t x) None.

Lemma handleLogin_entry rq sv a sv' :
  (forall sv, sv_throttle (rq.(lg_race1) sv) !! clientKey rq.(lg_http) = sv_throttle sv !! clientKey rq.(lg_http)) ->
  (forall sv, sv_throttle (rq.(lg_race2) sv) !! clientKey rq.(lg_http) = sv_throttle sv !! clientKey rq.(lg_http)) ->
  handleLogin rq sv = (a, sv') ->
  entry_step rq (sv_throttle sv !! clientKey rq.(lg_http)) a (sv_throttle sv' !! clientKey rq.(lg_http)).
Proof.
  intros Hr1 Hr2. unfold handleLogin. set (key := clientKey _). fold key in Hr1, Hr2. cbv zeta.
  destruct (decide (0 < _)) as [Hl|Hl]; [intros [= <- <-]; by constructor|].
  destruct (lg_body rq) as [pw|]; [|intros [= <- <-]; rewrite Hr1; by constructor].
  destruct (checkPassword _ _ _) as [[st []]|e].
  - destruct (run _ _) as [[[tok x]|e] d]; intros [= <- <-]; cbn [sv_throttle].
    + unfold success. rewrite lookup_delete_eq. constructor.
    + rewrite Hr2, Hr1. case_decide; by constructor.
  - unfold Throttle.fail. cbv zeta. intros [= <- <-]. cbn [sv_throttle].
    rewrite lookup_insert_eq, Hr2, Hr1. constructor.
    unfold retryAfter in Hl. destruct (sv_throttle sv !! key); [|done].
    destruct (decide (0 < time_Sub _ _)); lia.
  - intros [= <- <-]. rewrite Hr2, Hr1. by constructor.
Qed.

(** A request of another address leaves the entry alone. *)
Lemma handleLogin_other key rq sv a sv' :
  (forall sv, sv_throttle (rq.(lg_race1) sv) !! key = sv_throttle sv !! key) ->
  (forall sv, sv_throttle (rq.(lg_race2) sv) !! key = sv_throttle sv !! key) ->
  clientKey rq.(lg_http) <> key ->
  handleLogin rq sv = (a, sv') -> sv_throttle sv' !! key = sv_throttle sv !! key.
Proof.
  intros Hr1 Hr2 Hk. unfold handleLogin. cbv zeta.
  destruct (decide (0 < _)) as [Hl|Hl]; [by intros [= <- <-]|].
  destruct (lg_body rq) as [pw|]; [|by intros [= <- <-]; rewrite Hr1].
  destruct (checkPassword _ _ _) as [[st []]|e].
  - destruct (run _ _) as [[[tok x]|e] d]; intros [= <- <-]; cbn [sv_throttle].
    + unfold success. by rewrite lookup_delete_ne, Hr2, Hr1.
    + by rewrite Hr2, Hr1.
  - unfold Throttle.fail. cbv zeta. intros [= <- <-]. cbn [sv_throttle].
    by rewrite lookup_insert_ne, Hr2, Hr1.
  - intros [= <- <-]. by rewrite Hr2, Hr1.
Qed.

(** *** The invariant behind the guess rate *)

(** Six guesses never fit into one window. *)
Definition spaced (hist : list Z) : Prop :=
  forall i t t', hist !! i = Some t -> hist !! (i + 5)%nat = Some t' -> t' + failWindow <= t.

Definition counts (e : option attempt) (hist : list Z) (now : Z) : Prop :=
  match e with
  | None => match hist with [] => True | t :: _ => failWindow < now - t end
  | Some e =>
      head hist = Some e.(last) /\ 0 <= e.(fails) /\
      (forall n x, hist !! n = Some x -> e.(last) - x <= failWindow -> Z.of_nat n + 1 <= e.(fails)) /\
      (maxLoginFails <= e.(fails) -> e.(blockedUntil) = e.(last) + loginBlock)
  end.

Record guess_inv (e : option attempt) (hist : list Z) (now : Z) : Prop := {
  gi_spaced : spaced hist;
  gi_past : forall x, x ∈ hist -> x <= now;
  gi_newest : forall x t, head hist = Some t -> x ∈ hist -> x <= t;
  gi_counts : counts e hist now
}.

Lemma counts_mono e hist now now' : now <= now' -> counts e hist now -> counts e hist now'.
Proof. destruct e; [done|]. destruct hist; simpl; [done|lia]. Qed.

Lemma guess_inv_mono e hist now now' : now <= now' -> guess_inv e hist now -> guess_inv e hist now'.
Proof.
  intros Hle [Hs Hp Hn Hc]. split; [done| |done|by eapply counts_mono].
  intros x Hx. specialize (Hp x Hx). lia.
Qed.

Lemma time_Sub_gt t u k : 0 <= k < max_int -> k < time_Sub t u <-> k < t - u.
Proof. unfold time_Sub, min_int, max_int. lia. Qed.

(** The new entry counts the new guess. *)
Lemma counts_fail e hist now t :
  now <= t -> (forall x, x ∈ hist -> x <= now) ->
  (forall x t0, head hist = Some t0 -> x ∈ hist -> x <= t0) ->
  counts e hist now -> counts (Some (fail_entry e t)) (t :: hist) t.
Proof.
  intros Hle Hp Hn Hc.
  set (reset := match e with Some e => if decide (failWindow < time_Sub t e.(last)) then true else false
                | None => true end).
  assert (Hreset : reset = true -> forall x, x ∈ hist -> failWindow < t - x).
  { intros Hr x Hx. destruct e as [e|]; simpl in Hc.
    - destruct Hc as (Hh & _). specialize (Hn x _ Hh Hx). subst reset.
      destruct (decide (failWindow < time_Sub t (last e))) as [Hg|]; [|done].
      apply time_Sub_gt in Hg; [lia|by vm_compute].
    - destruct hist as [|t0 hist]; [by apply elem_of_nil in Hx|].
      specialize (Hn x t0 eq_refl Hx). lia. }
  assert (Hfe : exists n b, fail_entry e t = MkAttempt n t b /\ 1 <= n /\
     (maxLoginFails <= n -> b = t + loginBlock) /\
     (reset = false -> exists e0, e = Some e0 /\ n = e0.(fails) + 1)).
  { unfold fail_entry. cbv zeta.
    set (e1 := match e with Some _ => _ | None => _ end).
    exists (fails e1 + 1), (if decide (maxLoginFails <= fails e1 + 1) then t + loginBlock else blockedUntil e1).
    split; [reflexivity|]. split_and!.
    - assert (0 <= fails e1); [|lia]. subst e1.
      destruct e as [e|]; [|reflexivity]. simpl in Hc. case_decide; [reflexivity|tauto].
    - intros Hm. by rewrite decide_True.
    - subst reset e1. destruct e as [e|]; [|discriminate].
      destruct (decide _); [discriminate|]. intros _. by exists e. }
  destruct Hfe as (n & b & -> & Hn1 & Hb & Hkeep). simpl. split_and!; [done|lia| |done].
  intros [|i] x Hx Hw; simpl in Hx; [lia|].
  assert (Hin : x ∈ hist) by (by eapply list_elem_of_lookup_2).
  destruct reset; [specialize (Hreset eq_refl x Hin); lia|].
  destruct (Hkeep eq_refl) as (e0 & -> & ->). simpl in Hc. destruct Hc as (Hh & _ & Hcnt & _).
  specialize (Hcnt i x Hx). specialize (Hp (last e0)).
  assert (last e0 <= now) by (apply Hp; destruct hist; simplify_eq/=; apply list_elem_of_here). lia.
Qed.

Lemma spaced_fail e hist now c t :
  now <= c <= t -> spaced hist -> (forall x, x ∈ hist -> x <= now) ->
  (forall x t0, head hist = Some t0 -> x ∈ hist -> x <= t0) -> counts e hist now ->
  match e with Some e => time_Sub e.(blockedUntil) c <= 0 | None => True end ->
  spaced (t :: hist).
Proof.
  intros Ht Hs Hp Hn Hc Hfree [|i] x x'; simpl; [|apply Hs]. intros [= <-] Hx'.
  assert (Hin : x' ∈ hist) by (by eapply list_elem_of_lookup_2).
  destruct e as [e|]; simpl in Hc.
  - destruct Hc as (Hh & _ & Hcnt & Hb). specialize (Hcnt _ _ Hx'). specialize (Hn _ _ Hh Hin).
    assert (Hl : last e <= now) by (apply Hp; destruct hist; simplify_eq/=; apply list_elem_of_here).
    destruct (decide (last e - x' <= failWindow)) as [Hw|Hw]; [|lia].
    specialize (Hcnt Hw). rewrite Hb in Hfree by (unfold maxLoginFails; lia).
    assert (~ 0 < time_Sub (last e + loginBlock) c) as Hz by lia.
    rewrite time_Sub_gt in Hz by by vm_compute. change loginBlock with failWindow in Hz. lia.
  - destruct hist as [|t0 hist]; [done|]. specialize (Hn _ _ eq_refl Hin). lia.
Qed.

Lemma guess_inv_login rq e hist now a e' :
  now <= rq.(lg_check) <= rq.(lg_late) -> guess_inv e hist now -> entry_step rq e a e' ->
  guess_inv e' (guesses (clientKey rq.(lg_http)) [(clientKey rq.(lg_http), rq.(lg_late), a)] ++
                match a with LoggedIn _ _ => [] | _ => hist end) rq.(lg_late).
Proof.
  intros Ht [Hs Hp Hn Hc] Hstep. simpl. rewrite decide_True by done.
  destruct Hstep as [a Hw Hl|d Hfree|t x].
  - assert (Hk : guess_inv e hist (lg_late rq)) by (apply (guess_inv_mono _ _ now); [lia|done]).
    destruct a; simpl; try done; [by edestruct Hw|by edestruct Hl].
  - simpl. split.
    + by eapply spaced_fail.
    + intros x [->|Hx]%elem_of_cons; [lia|]. specialize (Hp x Hx). lia.
    + intros x t [= <-] [->|Hx]%elem_of_cons; [lia|]. specialize (Hp x Hx). lia.
    + eapply (counts_fail _ _ now); [lia|done..].
  - simpl. split; [by intros i|by intros y Hy%elem_of_nil|done|done].
Qed.

Lemma guesses_cons key k t a l :
  guesses key ((k, t, a) :: l) =
  if decide (k = key) then
    guesses key [(k, t, a)] ++ match a with LoggedIn _ _ => [] | _ => guesses key l end
  else guesses key l.
Proof. simpl. case_decide; [|done]. by destruct a. Qed.

Lemma counts_sweep e hist now :
  counts e hist now ->
  counts (match e with Some e => if decide (stale now e) then None else Some e | None => None end) hist now.
Proof.
  destruct e as [e|]; [|done]. case_decide as Hst; [|done]. intros (Hh & _).
  destruct hist as [|t hist]; [done|]. simpl in *. injection Hh as ->.
  destruct Hst as [_ Hst]. apply time_Sub_gt in Hst; [done|by vm_compute].
Qed.

Lemma exec_inv key cs now sv l :
  sequential key now cs -> guess_inv (sv_throttle sv !! key) (guesses key l) now ->
  spaced (guesses key (exec cs sv l).2).
Proof.
  revert now sv l. induction cs as [|[rq|t] cs IH]; intros now sv l Hseq Hinv; [apply Hinv| |].
  - destruct Hseq as (Ht & Hr1 & Hr2 & Hseq). simpl.
    destruct (handleLogin rq sv) as [a sv'] eqn:Hh. eapply IH; [exact Hseq|]. rewrite guesses_cons.
    destruct (decide (clientKey (lg_http rq) = key)) as [<-|Hk].
    + eapply guess_inv_login; [exact Ht|exact Hinv|by apply handleLogin_entry].
    + rewrite (handleLogin_other key rq sv a sv') by done.
      apply (guess_inv_mono _ _ now); [lia|done].
  - destruct Hseq as [Ht Hseq]. simpl. eapply IH; [exact Hseq|].
    unfold sweep_round. cbn [sv_throttle]. rewrite lookup_sweep.
    destruct (guess_inv_mono _ _ now t Ht Hinv) as [Hs Hp Hn Hc].
    split; [done..|by apply counts_sweep].
Qed.

Lemma session_Some cookie now d s :
  session cookie now d = Ok (Some s) <->
  cookie <> EmptyString /\ exists r, sessions d !! hashToken cookie = Some r /\ Unix now < r.(s_expires) /\
    s = MkSessionT (hashToken cookie) (time_of_unix r.(s_created)) (time_of_unix r.(s_expires)).
Proof.
  clear IDKey. unfold session. destruct (decide (cookie = "")) as [->|Hc]; [naive_solver|].
  unfold GetSession. destruct (sessions d !! hashToken cookie) as [r|]; [|naive_solver].
  destruct (decide (Unix now < s_expires r)); simpl; [|naive_solver].
  rewrite decide_True by done. naive_solver.
Qed.

Lemma session_total cookie now d : exists o, session cookie now d = Ok o.
Proof.
  unfold session, GetSession. destruct (decide (cookie = "")); [by eexists|].
  destruct (sessions d !! hashToken cookie) as [r|]; [|by eexists].
  destruct (decide (Unix now < s_expires r)); simpl; [|by eexists]. rewrite decide_True by done. by eexists.
Qed.

Lemma renew_sessions s token now d c d' :
  renew s token now d = (c, d') ->
  d' = set_sessions (sessions d') d /\
  sessions d' = match c with
                | None => sessions d
                | Some _ => alter (fun r => MkSession r.(s_created) (Unix (now + sessionTTL))) s.(se_token) (sessions d)
                end /\
  match c with
  | None => sessionRenewAfter < time_Sub s.(se_expires) now
  | Some x => x = (token, now + sessionTTL) /\ time_Sub s.(se_expires) now <= sessionRenewAfter
  end.
Proof.
  unfold renew. destruct (decide (sessionRenewAfter < _)) as [Hr|Hr].
  - intros [= <- <-]. split_and!; [by destruct d|done|done].
  - unfold run, ExtendSession, modify. intros [= <- <-]. split_and!; [done..|lia].
Qed.

Lemma Unix_lt_of_time t e : t < time_of_unix e -> Unix t < e.
Proof. unfold Unix, time_of_unix. intros. apply Z.div_lt_upper_bound; [done|lia]. Qed.

Lemma Unix_lt_gap t u : t + second <= u -> Unix t < Unix u.
Proof.
  unfold Unix. intros. assert ((t + second) / second <= u / second) by (by apply Z.div_le_mono).
  replace (t + second) with (t + 1 * second) in * by lia. rewrite Z.div_add in * by done. lia.
Qed.

(** A session lives until the second stored in its row. *)
Definition live_session (cookie : string) (now : Z) (d : db) : Prop :=
  cookie <> EmptyString /\ exists r, sessions d !! hashToken cookie = Some r /\ Unix now < r.(s_expires).
(** What a request let through at [now] does to the sessions: nothing while more
    than half a day is left, else the row ends a day later. *)
Definition renewed (cookie : string) (now : Z) (c : option (string * Z)) (d d' : db) : Prop :=
  exists r, sessions d !! hashToken cookie = Some r /\
  match c with
  | None => sessionRenewAfter < time_Sub (time_of_unix r.(s_expires)) now /\ d' = d
  | Some x => time_Sub (time_of_unix r.(s_expires)) now <= sessionRenewAfter /\ x = (cookie, now + sessionTTL) /\
      d' = set_sessions (<[hashToken cookie := MkSession r.(s_created) (Unix (now + sessionTTL))]> (sessions d)) d
  end.
Lemma session_None cookie now d : session cookie now d = Ok None -> ~ live_session cookie now d.
Proof.
  intros Hs (Hne & r & Hr & Hl).
  assert (Hx : session cookie now d = Ok (Some (MkSessionT (hashToken cookie) (time_of_unix r.(s_created)) (time_of_unix r.(s_expires))))).
  { apply session_Some. split; [done|]. by exists r. }
  congruence.
Qed.
Lemma renew_renewed cookie now d r cr c d' : sessions d !! hashToken cookie = Some r ->
  renew (MkSessionT (hashToken cookie) cr (time_of_unix r.(s_expires))) cookie now d = (c, d') -> renewed cookie now c d d'.
Proof.
  intros Hr Hn. apply renew_sessions in Hn as (Hd & Hm & Hc). cbn [se_token se_expires] in *. exists r. split; [done|].
  destruct c as [x|]; [destruct Hc as [-> Hc]; split; [done|]; split; [done|]|split; [done|]]; rewrite Hd, Hm; [|by destruct d].
  f_equal. apply map_eq. intros k. destruct (decide (k = hashToken cookie)) as [->|Hk];
    [by rewrite lookup_alter_eq, lookup_insert_eq, Hr|by rewrite lookup_alter_ne, lookup_insert_ne].
Qed.
Lemma renewed_lives cookie now t c d d' : cookie <> EmptyString -> renewed cookie now c d d' ->
  t + second <= now + sessionTTL - sessionRenewAfter -> live_session cookie t d'.
Proof.
  intros Hne (r & Hr & Hc) Ht. split; [done|]. assert (0 < second) by reflexivity. assert (sessionTTL = 2 * sessionRenewAfter) by reflexivity.
  assert (0 < sessionRenewAfter) by (by vm_compute). destruct c as [x|].
  - destruct Hc as (_ & _ & ->). cbn [sessions set_sessions]. rewrite lookup_insert_eq. eexists. split; [done|]. apply Unix_lt_gap. lia.
  - destruct Hc as [Hc ->]. exists r. split; [done|]. apply Unix_lt_of_time. apply time_Sub_gt in Hc; [lia|by vm_compute].
Qed.
Lemma session_logout cookie now d : cookie <> EmptyString -> session cookie now (handleLogout cookie d).2 = Ok None.
Proof.
  intros Hne. unfold handleLogout, session, GetSession. rewrite !decide_False by done. unfold run, DeleteSession, modify.
  cbn [snd sessions set_sessions]. by rewrite lookup_delete_eq.
Qed.

(** ** Properties *)

(** C13: whatever requests and clean-ups the server processes, for an address
    whose requests come one after another, of the wrong passwords verified since
    its last successful login any six span at least the window of fifteen
    minutes.  A success forgets the failures before it, as the code does, so
    across a success the bound does not hold. *)
Theorem login_guess_rate key start cs d i t t' :
  sequential key start cs ->
  guesses key (exec cs (MkServer newThrottle d) []).2 !! i = Some t ->
  guesses key (exec cs (MkServer newThrottle d) []).2 !! (i + 5)%nat = Some t' ->
  t' + failWindow <= t.
Proof.
  intros Hseq. apply (exec_inv key cs start); [exact Hseq|]. split; simpl; [by intros ?|set_solver|done|].
  unfold newThrottle. by rewrite lookup_empty.
Qed.

(** C14: a login succeeds only with the password whose hash is still the current
    one when the session is stored; then the session is usable with the issued
    token, exactly until its expiry second a day later, nothing else in the
    database changes and the address's failures are forgotten.  Every other
    answer leaves the database as other requests left it. *)
Theorem handleLogin_correct rq sv a sv' :
  handleLogin rq sv = (a, sv') ->
  let d1 := sv_db (rq.(lg_race1) sv) in
  let d2 := sv_db (rq.(lg_race2) (rq.(lg_race1) sv)) in
  match a with
  | LoggedIn token expires =>
      retryAfter (clientKey rq.(lg_http)) rq.(lg_check) sv.(sv_throttle) = 0 /\
      (exists password st, rq.(lg_body) = Some password /\ PasswordState d1 = Ok st /\
         VerifyPassword IDKey st.(ps_hash) password = Ok true /\ PasswordState d2 = Ok st) /\
      rq.(lg_token) = Some token /\ expires = rq.(lg_late) + sessionTTL /\
      sessions d2 !! hashToken token = None /\
      sv_db sv' = set_sessions (<[hashToken token := MkSession (Unix rq.(lg_late)) (Unix expires)]>
                                  (sessions d2)) d2 /\
      sv_throttle sv' !! clientKey rq.(lg_http) = None /\
      (token <> EmptyString -> forall now,
         session token now (sv_db sv') =
           Ok (if decide (Unix now < Unix expires)
               then Some (MkSessionT (hashToken token) (time_of_unix (Unix rq.(lg_late)))
                                     (time_of_unix (Unix expires)))
               else None))
  | RateLimited _ => sv' = sv
  | BadRequest => sv' = rq.(lg_race1) sv
  | _ => sv_db sv' = d2
  end.
Proof.
  intros H d1 d2. unfold handleLogin in H. cbv zeta in H.
  set (key := clientKey _) in *. set (left := retryAfter _ _ _) in *.
  destruct (decide (0 < left)) as [Hl|Hl]; [by injection H as <- <-|].
  assert (Hleft : left = 0).
  { subst left. unfold retryAfter in *. destruct (sv_throttle sv !! key); [|done].
    destruct (decide (0 < time_Sub _ _)); [lia|done]. }
  destruct (lg_body rq) as [pw|] eqn:Hb; [|by injection H as <- <-].
  destruct (checkPassword _ _ _) as [[st []]|e] eqn:Hck; [|by injection H as <- <-|by injection H as <- <-].
  destruct (run _ _) as [r d] eqn:Hrun. destruct r as [[tok x]|e].
  2:{ apply run_Err in Hrun. injection H as <- <-. case_decide; exact Hrun. }
  injection H as <- <-. apply run_Ok in Hrun. unfold issueSession in Hrun.
  destruct (lg_token rq) as [tok'|] eqn:Htok; [|done].
  apply tx_bind_Ok in Hrun as ([] & d3 & Hc & Hret). injection Hret as <- <- <-.
  unfold checkPassword in Hck. destruct (lg_cancelled rq); [done|]. inv_result.
  apply run_Ok in Hc. destruct (CreateVerifiedSession_run _ _ _ _ Hc) as (Hst & Hfresh & Hd).
  cbn [se_token se_created se_expires] in *. cbn [sv_db sv_throttle]. subst d3.
  split_and!; try done.
  - naive_solver.
  - unfold success. apply lookup_delete_eq.
  - intros Hne now. unfold session. rewrite decide_False by done. unfold GetSession.
    cbn [sessions set_sessions]. rewrite lookup_insert_eq. cbn [s_created s_expires session_row se_expires se_created].
    destruct (decide (Unix now < _)); simpl; [|done]. by rewrite decide_True.
Qed.

(** C15: the gate in front of the API lets a request through exactly when the
    database has a row under the hash of its cookie whose second of expiry is
    still to come; a request let through leaves the session alive for at least
    twelve more hours (with no more than that left the row is moved to a day
    after the request, otherwise nothing is written), a refused one changes
    nothing, no other row is touched, and after a logout the same cookie is
    refused at any time. *)
Theorem requireSession_correct cookie now now' d g d' :
  requireSession cookie now now' d = (g, d') -> now <= now' ->
  (g = GateDenied (bool_decide (cookie <> EmptyString)) /\ d' = d /\ ~ live_session cookie now d \/
   exists c, g = GatePassed c /\ live_session cookie now d /\
     (forall t, t + second <= now' + sessionTTL - sessionRenewAfter -> live_session cookie t d') /\
     renewed cookie now' c d d') /\
  (cookie <> EmptyString -> forall t t',
     requireSession cookie t t' (handleLogout cookie d').2 = (GateDenied true, (handleLogout cookie d').2)).
Proof.
  intros H Hle. split.
  - unfold requireSession in H. destruct (session cookie now d) as [[s|]|e] eqn:Hs.
    + right. destruct (renew s cookie now' d) as [c d1] eqn:Hr. injection H as <- <-. exists c.
      apply session_Some in Hs as (Hne & r & Hrow & Hlive & ->). pose proof (renew_renewed _ _ _ _ _ _ _ Hrow Hr) as Hd.
      split; [done|]. split; [split; [done|by exists r]|]. split; [|done]. intros t Ht. by eapply renewed_lives.
    + left. injection H as <- <-. split_and!; [done..|]. by eapply session_None.
    + destruct (session_total cookie now d) as [o Ho]. congruence.
  - intros Hne t t'. unfold requireSession. rewrite session_logout by done. by rewrite bool_decide_eq_true_2.
Qed.
End login.

(** ** Witnesses *)
Definition sample_hash : string :=
  match HashPassword sample_IDKey (zeros 16) "correct horse" with Ok e => e | Err _ => EmptyString end.
Definition sample_login_db : db :=
  set_settings {[keyPasswordHash := sample_hash; keyPasswordGeneration := "g1"]} sample_db.
Definition sample_login (now : Z) (password : string) : LoginRequest :=
  MkLogin (MkRequest "203.0.113.7:5000" "" []) now (Some password) false (fun sv => sv) (fun sv => sv)
    (now + 1) (Some "token").
Definition sample_calls : list call :=
  [CallLogin (sample_login (1 * second) "wrongs"); CallLogin (sample_login (2 * second) "worsen");
   CallLogin (sample_login (3 * second) "bads"); CallLogin (sample_login (4 * second) "evil");
   CallLogin (sample_login (5 * second) "nemy"); CallLogin (sample_login (6 * second) "svn7");
   CallSweep (10 * minute); CallLogin (sample_login (20 * minute) "othe")].

Lemma login_guess_rate_witness :
  sequential "203.0.113.7" 0 sample_calls /\
  second + 1 + failWindow <= 20 * minute + 1.
Proof.
  assert (Hs : sequential "203.0.113.7" 0 sample_calls).
  { simpl. repeat (split; [first [by vm_compute|by intros]|]). exact I. }
  split; [exact Hs|].
  apply (login_guess_rate sample_IDKey (fun s => s) _ 0 _ sample_login_db 0 _ _ Hs); vm_compute; reflexivity.
Defined.

Lemma handleLogin_correct_witness :
  let r := handleLogin sample_IDKey (fun s => s) (sample_login second "correct horse")
             (MkServer newThrottle sample_login_db) in
  r.1 = LoggedIn "token" (second + 1 + sessionTTL) /\
  session (fun s => s) "token" (2 * second) (sv_db r.2) =
    Ok (Some (MkSessionT (hashToken (fun s => s) "token") (time_of_unix 1) (time_of_unix 86401))).
Proof.
  intros r. assert (Hr : r.1 = LoggedIn "token" (second + 1 + sessionTTL)) by (vm_compute; reflexivity).
  split; [exact Hr|].
  pose proof (handleLogin_correct sample_IDKey (fun s => s) _ _ r.1 r.2 (surjective_pairing r)) as H.
  rewrite Hr in H. destruct H as (_ & _ & _ & _ & _ & _ & _ & H).
  etransitivity; [apply H; congruence|]. vm_compute. reflexivity.
Defined.

Lemma requireSession_correct_witness :
  let d := set_sessions {[hashToken (fun s => s) "token" := MkSession 0 86400]} sample_login_db in
  let r := requireSession (fun s => s) "token" (13 * hour) (13 * hour) d in
  r.1 = GatePassed (Some ("token"%string, 37 * hour)) /\
  live_session (fun s => s) "token" (24 * hour) r.2.
Proof.
  intros d r. assert (Hr : r.1 = GatePassed (Some ("token"%string, 37 * hour))) by (vm_compute; reflexivity).
  split; [exact Hr|].
  destruct (requireSession_correct (fun s => s) "token" (13 * hour) (13 * hour) d r.1 r.2
              (surjective_pairing r) (Z.le_refl _)) as [[(Hg & _)|(c & _ & _ & Ht & _)] _].
  - exfalso. rewrite Hr in Hg. discriminate Hg.
  - apply Ht. vm_compute. congruence.
Defined.
