(* ===== verification/GoURL.v ===== *)
(** * [net/url]: percent-encoding and query strings *)

From Stdlib Require Import Ascii.
From S2P Require Import Prelude GoStd.
#[local] Open Scope Z_scope.

(** [unescape]: [None] for a malformed escape; [plus] is the query mode, in
    which a plus sign is a space. *)
Fixpoint unescape (plus : bool) (s : string) : option string :=
  match s with
  | EmptyString => Some EmptyString
  | String "%" s' =>
      match s' with
      | String a (String b s'') =>
          match hex_digit a, hex_digit b, unescape plus s'' with
          | Some x, Some y, Some r => Some (String (ascii_of_N (Z.to_N (x * 16 + y))) r)
          | _, _, _ => None
          end
      | _ => None
      end
  | String c s' =>
      r ← unescape plus s';
      Some (String (if plus && bool_decide (c = "+"%char) then " "%char else c) r)
  end.
Definition PathUnescape : string -> option string := unescape false.
Definition QueryUnescape : string -> option string := unescape true.

Definition CutOr (s : string) (sep : ascii) : string * string :=
  match Cut s sep with Some p => p | None => (s, EmptyString) end.

(** [url.ParseQuery] up to its first error: [None] is an error. *)
Definition query_pair (s : string) : option (list (string * string)) :=
  if ContainsByte s ";" then None
  else if decide (s = EmptyString) then Some []
  else let '(k, v) := CutOr s "=" in
       k ← QueryUnescape k; v ← QueryUnescape v; Some [(k, v)].
Definition ParseQuery (query : string) : option (list (string * string)) :=
  l ← mapM query_pair (Split query "&"); Some (concat l).
(** [Values.Get] *)
Definition query_get (key : string) (l : list (string * string)) : string :=
  match list_find (fun p => p.1 = key) l with Some (_, (_, v)) => v | None => EmptyString end.

Example ParseQuery_ex :
  ParseQuery "security=n%6fne&x=a+b&&security=tls" = Some [("security", "none"); ("x", "a b"); ("security", "tls")]%string
  /\ ParseQuery "a;b" = None /\ ParseQuery "a=%zz" = None.
Proof. repeat split; vm_compute; reflexivity. Qed.

Lemma unescape_id plus s :
  ContainsByte s "%" = false -> (plus = true -> ContainsByte s "+" = false) -> unescape plus s = Some s.
Proof.
  unfold ContainsByte. induction s as [|c s IH]; [done|]. simpl.
  destruct (decide (c = "%"%char)) as [->|Hc]; [done|].
  intros H1 H2. assert (Hu : unescape plus (String c s) = (r ← unescape plus s;
    Some (String (if plus && bool_decide (c = "+"%char) then " "%char else c) r))).
  { simpl. by destruct c as [[] [] [] [] [] [] [] []]. }
  simpl in Hu. rewrite Hu. rewrite IH; cbn [mbind option_bind].
  - destruct plus; [|done]. simpl. destruct (decide (c = "+"%char)) as [->|Hp]; [by specialize (H2 eq_refl)|].
    by rewrite bool_decide_eq_false_2.
  - by destruct (Cut s "%") as [[]|].
  - intros Hp. specialize (H2 Hp). destruct (decide (c = "+"%char)); [done|].
    by destruct (Cut s "+") as [[]|].
Qed.
