(* ===== verification/PoolFilter.v ===== *)
(** * Admission of pool members

    [internal/store/poolfilter.go].  The interface [PoolPolicy] is what the
    catalogue merge and the configuration generator rely on: whether a server
    is taken depends on its link and its title only.  The second half is the
    implementation, an instance of the interface; what it admits is stated
    and proved in [PoolFilterSpec].  [unicode.IsLetter] and
    [unicode.IsDigit] are a class. *)

From Stdlib Require Import Ascii.
From S2P Require Import Prelude GoStd GoURL Base64 Model SettingsStore.
#[local] Open Scope Z_scope.

Class PoolPolicy := {
  Allows : list string -> PoolServer -> bool;
  Allows_ext countries s s' :
    s.(ps_url) = s'.(ps_url) -> s.(ps_title) = s'.(ps_title) -> Allows countries s = Allows countries s'
}.

Class RuneClass := { isWordRune : Z -> bool }.

(** ** UTF-8 decoding *)
Definition RuneError : Z := 0xFFFD.
Definition rune_bits (n : nat) (b : Z) : Z :=
  match n with 1%nat => b | 2%nat => b - 192 | 3%nat => b - 224 | _ => b - 240 end.
Fixpoint cont_bits (n : nat) (acc : Z) (s : string) : Z :=
  match n, s with
  | S n, String c s => cont_bits n (acc * 64 + (byte_of c - 128)) s
  | _, _ => acc
  end.
(** [utf8.DecodeRuneInString] on a non-empty string. *)
Definition decode_rune (s : string) : Z * nat :=
  match s with
  | EmptyString => (RuneError, O)
  | String c s' =>
      let n := rune_size s in
      if decide (n = 1%nat) then (if decide (byte_of c < 128) then byte_of c else RuneError, 1%nat)
      else (cont_bits (pred n) (rune_bits n (byte_of c)) s', n)
  end.
Fixpoint runes_of (fuel : nat) (s : string) : list Z :=
  match fuel, s with
  | S fuel, String _ _ => let '(r, n) := decode_rune s in r :: runes_of fuel (drop_string n s)
  | _, _ => []
  end.
(** [[]rune(s)] *)
Definition runes (s : string) : list Z := runes_of (String.length s) s.

(** [utf8.DecodeLastRuneInString] of the text whose bytes are, from the last
    one backwards, [back]: the nearest lead byte among the last four. *)
Fixpoint lead_within (n : nat) (back acc : list ascii) : option (list ascii) :=
  match n, back with
  | S n, c :: back =>
      if decide (128 <= byte_of c < 192) then lead_within n back (c :: acc) else Some (c :: acc)
  | _, _ => None
  end.
Definition decode_last_rune (back : list ascii) : Z :=
  match back with
  | [] => RuneError
  | c :: back' =>
      if decide (byte_of c < 128) then byte_of c
      else match lead_within 3 back' [c] with
           | None => RuneError
           | Some cs => let s := String.string_of_list_ascii cs in
                        let '(r, n) := decode_rune s in
                        if decide (n = length cs) then r else RuneError
           end
  end.

(** ** Titles *)
Section filter.
Context `{Unicode} `{RuneClass}.

(** Go's [map[string][]string] of country names; no entry is the empty list. *)
Definition poolCountryAliases (code : string) : list string :=
  if decide (code = "RU") then ["россия"; "российская федерация"; "рф"; "russia"; "russian federation"]
  else if decide (code = "BY") then ["беларусь"; "белоруссия"; "республика беларусь"; "рб"; "belarus"]
  else if decide (code = "CN") then ["китай"; "china"]
  else if decide (code = "IR") then ["иран"; "iran"]
  else if decide (code = "KP") then ["кндр"; "северная корея"; "north korea"]
  else [].

Definition regional (r : Z) : option Z :=
  if decide (0x1F1E6 <= r <= 0x1F1FF) then Some (65 + (r - 0x1F1E6)) else None.
(** The flags of a title; a pair is consumed as a whole. *)
Fixpoint flag_codes (l : list Z) : list string :=
  match l with
  | a :: l' =>
      match l' with
      | b :: l'' =>
          match regional a, regional b with
          | Some x, Some y => byte_string [x; y] :: flag_codes l''
          | _, _ => flag_codes l'
          end
      | [] => []
      end
  | [] => []
  end.
Definition poolFlagCountries (title : string) : list string := flag_codes (runes title).

Definition boundaryBefore (back : list ascii) : bool :=
  match back with [] => true | _ => negb (isWordRune (decode_last_rune back)) end.
Definition boundaryAfter (s : string) : bool :=
  match s with EmptyString => true | _ => negb (isWordRune (decode_rune s).1) end.

(** Every occurrence is tried, from the left; [back] are the bytes before. *)
Fixpoint occurs_word (back : list ascii) (haystack needle : string) : bool :=
  match haystack with
  | EmptyString => false
  | String c rest =>
      match strip_prefix needle haystack with
      | Some after => boundaryBefore back && boundaryAfter after
      | None => false
      end || occurs_word (c :: back) rest needle
  end.
Definition containsWord (haystack needle : string) : bool :=
  if decide (needle = EmptyString) then false else occurs_word [] haystack needle.

Definition country_matches (title : string) (code : string) : bool :=
  bool_decide (code ∈ poolFlagCountries title) ||
  existsb (containsWord (ToLower title)) (poolCountryAliases code) ||
  containsWord title code.

(** [blockedCountry]: the first code of the list that the title mentions. *)
Fixpoint blocked_loop (title : string) (l : list string) : string :=
  match l with
  | [] => EmptyString
  | raw :: l =>
      let code := ToUpper (TrimSpace raw) in
      if decide (code = EmptyString) then blocked_loop title l
      else if country_matches title code then code else blocked_loop title l
  end.
Definition blockedCountry (countries : list string) (title : string) : string :=
  if decide (title = EmptyString) then EmptyString else blocked_loop title countries.

(** ** Links *)

(** [strings.Index(s, "://")]: the text before and after it. *)
Fixpoint cut_scheme (s : string) : option (string * string) :=
  match strip_prefix "://" s with
  | Some rest => Some (EmptyString, rest)
  | None => match s with
            | EmptyString => None
            | String c s => '(a, b) ← cut_scheme s; Some (String c a, b)
            end
  end.

Definition shadowsocks_methods : list string :=
  ["aes-128-gcm"; "aes-192-gcm"; "aes-256-gcm"; "chacha20-ietf-poly1305"; "xchacha20-ietf-poly1305";
   "2022-blake3-aes-128-gcm"; "2022-blake3-aes-256-gcm"; "2022-blake3-chacha20-poly1305";
   "aes-128-ctr"; "aes-192-ctr"; "aes-256-ctr"; "aes-128-cfb"; "aes-192-cfb"; "aes-256-cfb"; "rc4-md5";
   "chacha20-ietf"; "xchacha20"].

Definition decode_userinfo (u : string) : option string :=
  match Base64.decode_with true false u, Base64.decode_with true true u,
        Base64.decode_with false false u, Base64.decode_with false true u with
  | Some b, _, _, _ => Some b
  | _, Some b, _, _ => Some b
  | _, _, Some b, _ => Some b
  | _, _, _, r => r
  end.

Definition poolShadowsocksEncrypted (rest : string) : bool :=
  let '(rest, _) := CutOr rest "#" in
  let '(rest, query) := CutOr rest "?" in
  match ParseQuery query with
  | None => false
  | Some _ =>
      match CutLast rest "@" with
      | None => false
      | Some (user, _) =>
          match PathUnescape user with
          | None => false
          | Some u =>
              match (if ContainsByte u ":" then Some u else decode_userinfo u) with
              | None => false
              | Some u =>
                  let parts := Split u ":" in
                  bool_decide (length parts = 2%nat \/ length parts = 3%nat) &&
                  bool_decide (EmptyString ∉ parts) &&
                  bool_decide (default EmptyString (head parts) ∈ shadowsocks_methods)
              end
          end
      end
  end.

Definition poolKeyUnencrypted (rawURL : string) : bool :=
  match cut_scheme (TrimSpace rawURL) with
  | None => false
  | Some (scheme, rest) =>
      let scheme := ToLower scheme in
      if decide (scheme = "ss"%string) then negb (poolShadowsocksEncrypted rest)
      else if decide (scheme = "vless"%string \/ scheme = "trojan"%string) then
        let '(rest, _) := CutOr rest "#" in
        let '(_, q) := CutOr rest "?" in
        match ParseQuery q with
        | None => true
        | Some values =>
            bool_decide (ToLower (TrimSpace (query_get "security" values)) ∈ [EmptyString; "none"%string])
        end
      else false
  end.

(** ** The filter *)
Inductive exclusion := ReasonCountry (code : string) | ReasonNoEncryption.

(** [Exclusion]: [None] is the empty reason. *)
Definition Exclusion (countries : list string) (s : PoolServer) : option exclusion :=
  let code := blockedCountry countries s.(ps_title) in
  if decide (code <> EmptyString) then Some (ReasonCountry code)
  else if poolKeyUnencrypted s.(ps_url) then Some ReasonNoEncryption
  else None.

Definition PoolFilterFrom (v : Settings) : list string := v.(s_blocklist).

Definition FilterAllows (countries : list string) (s : PoolServer) : bool :=
  match Exclusion countries s with None => true | Some _ => false end.

#[export] Program Instance pool_filter : PoolPolicy := {| Allows := FilterAllows |}.
Next Obligation. intros cs s s' Hu Ht. unfold FilterAllows, Exclusion. by rewrite Hu, Ht. Qed.

(** [SplitPool] *)
Definition SplitPool (pool : list PoolServer) (countries : list string)
  : list PoolServer * list (PoolServer * exclusion) :=
  (filter (fun s => Exclusion countries s = None) pool,
   omap (fun s => pair s <$> Exclusion countries s) pool).
End filter.

(** ** Lemmas *)
Section filter_lemmas.
Context `{UC : Unicode} `{RC : RuneClass}.

Definition listed_code (countries : list string) (code : string) : Prop :=
  code <> EmptyString /\ exists raw, raw ∈ countries /\ code = ToUpper (TrimSpace raw).

Lemma flag_codes_cons r1 r2 l :
  flag_codes (r1 :: r2 :: l) =
  match regional r1, regional r2 with
  | Some x, Some y => byte_string [x; y] :: flag_codes l
  | _, _ => flag_codes (r2 :: l)
  end.
Proof. done. Qed.

Lemma split_filter (pool : list PoolServer) countries :
  pool ≡ₚ (SplitPool pool countries).1 ++ map fst (SplitPool pool countries).2.
Proof.
  unfold SplitPool. cbn [fst snd]. induction pool as [|s pool IH]; [done|].
  rewrite filter_cons. cbn [omap list_omap].
  destruct (Exclusion countries s) as [e|] eqn:He; cbn [fmap option_fmap option_map].
  - rewrite decide_False by done. cbn [map fst]. rewrite <- Permutation_middle. by constructor.
  - rewrite decide_True by done. cbn [app]. by constructor.
Qed.
End filter_lemmas.

(** ** Samples *)
Definition ascii_runes : RuneClass :=
  {| isWordRune r := bool_decide (48 <= r <= 57 \/ 65 <= r <= 90 \/ 97 <= r <= 122) |}.
Definition flagged_server : PoolServer :=
  MkPoolServer "vless://k@h:443?security=tls" "" (byte_string [240; 159; 135; 183; 240; 159; 135; 186] +:+ " Moscow") 10 0.
