(* ===== verification/PoolMerge.v ===== *)
(** * The catalogue of a pool

    [internal/lists/pool.go]: merging a fresh crawl into the stored servers.
    The order of the stored list is the order of the configuration's members:
    the first [PoolConfigServers] are its window, and a server's position there
    is its tag in sing-box. *)

From S2P Require Import Prelude GoStd Model SettingsStore PoolFilter.
#[local] Open Scope Z_scope.

Definition poolMissesBeforeDrop : Z := 3.
Definition PoolConfigServers : nat := 64.

Definition poolPingRank (ping : Z) : Z := if decide (ping <= 0) then Z.shiftl 1 30 else ping.

(** The order of the candidates: by ping, then by link. *)
Definition before (a b : PoolServer) : Prop :=
  poolPingRank a.(ps_ping_ms) < poolPingRank b.(ps_ping_ms) \/
  poolPingRank a.(ps_ping_ms) = poolPingRank b.(ps_ping_ms) /\ String.le a.(ps_url) b.(ps_url).
#[export] Instance before_dec a b : Decision (before a b).
Proof. unfold before. apply _. Defined.

Fixpoint insert_candidate (x : PoolServer) (l : list PoolServer) : list PoolServer :=
  match l with
  | [] => [x]
  | y :: l => if decide (before x y) then x :: y :: l else y :: insert_candidate x l
  end.
(** [sort.Slice]: the links of the candidates differ, so the order decides
    every comparison and any sorting gives this list. *)
Definition sort_candidates (l : list PoolServer) : list PoolServer := foldr insert_candidate [] l.

Definition samePool (a b : list PoolServer) : bool := bool_decide (a = b).

Section merge.
Context `{PP : PoolPolicy} (countries : list string).

(** [freshByURL]: the first admitted card of a link. *)
Definition fresh_card (fresh : list PoolServer) (url : string) : option PoolServer :=
  snd <$> list_find (fun s => s.(ps_url) <> EmptyString /\ Allows countries s = true /\ s.(ps_url) = url) fresh.

Definition or_empty (s t : string) : string := if decide (s = EmptyString) then t else s.

(** The stored record after a crawl, and whether it stays. *)
Definition age (fresh : list PoolServer) (s : PoolServer) : PoolServer * bool :=
  match fresh_card fresh s.(ps_url) with
  | Some f => (MkPoolServer s.(ps_url) (or_empty s.(ps_country) f.(ps_country))
                 (or_empty s.(ps_title) f.(ps_title)) s.(ps_ping_ms) 0, true)
  | None => let misses := s.(ps_misses) + 1 in
            (MkPoolServer s.(ps_url) s.(ps_country) s.(ps_title) s.(ps_ping_ms) misses,
             bool_decide (misses < poolMissesBeforeDrop))
  end.

Record Slots := MkSlots {
  sl_known : list string;
  sl_window : list (option PoolServer);
  sl_candidates : list PoolServer
}.

(** The loop over the stored servers. *)
Definition stored_step (fresh : list PoolServer) (a : Slots) (s : PoolServer) : Slots :=
  if decide (s.(ps_url) = EmptyString \/ s.(ps_url) ∈ a.(sl_known)) then a
  else
    let known := s.(ps_url) :: a.(sl_known) in
    if negb (Allows countries s) then MkSlots known a.(sl_window) a.(sl_candidates)
    else
      let '(s, alive) := age fresh s in
      if decide (length a.(sl_window) < PoolConfigServers)%nat
      then MkSlots known (a.(sl_window) ++ [if alive then Some s else None]) a.(sl_candidates)
      else MkSlots known a.(sl_window) (a.(sl_candidates) ++ if alive then [s] else []).

(** The loop over the fresh servers. *)
Fixpoint fresh_candidates (known seen : list string) (fresh : list PoolServer) : list PoolServer :=
  match fresh with
  | [] => []
  | s :: fresh =>
      if decide (s.(ps_url) = EmptyString \/ s.(ps_url) ∈ known \/ s.(ps_url) ∈ seen \/ Allows countries s = false)
      then fresh_candidates known seen fresh
      else MkPoolServer s.(ps_url) s.(ps_country) s.(ps_title) s.(ps_ping_ms) 0 ::
           fresh_candidates known (s.(ps_url) :: seen) fresh
  end.

(** The last loop: a freed slot takes the next candidate, if there is one. *)
Fixpoint fill (window : list (option PoolServer)) (candidates : list PoolServer) : list PoolServer :=
  match window with
  | [] => candidates
  | Some s :: window => s :: fill window candidates
  | None :: window =>
      match candidates with
      | c :: candidates => c :: fill window candidates
      | [] => fill window []
      end
  end.

Definition MergePool (stored fresh : list PoolServer) : list PoolServer * bool :=
  let a := foldl (stored_step fresh) (MkSlots [] [] []) stored in
  let merged := fill a.(sl_window) (sort_candidates (a.(sl_candidates) ++ fresh_candidates a.(sl_known) [] fresh)) in
  (merged, negb (samePool stored merged)).
End merge.

(** ** Lemmas *)
Section merge_lemmas.
Context `{PP : PoolPolicy} (countries : list string).
Implicit Types (s : PoolServer) (l : list PoolServer).

(** *** Sorting *)
Lemma before_total a b : ~ before a b -> before b a.
Proof.
  unfold before. intros Hn.
  destruct (Z.lt_trichotomy (poolPingRank (ps_ping_ms a)) (poolPingRank (ps_ping_ms b))) as [Hl|[He|Hl]].
  - exfalso. apply Hn. by left.
  - destruct (total String.le (ps_url a) (ps_url b)) as [Ht|Ht]; [exfalso; apply Hn|]; by right.
  - by left.
Qed.

Lemma insert_Permutation x l : insert_candidate x l ≡ₚ x :: l.
Proof.
  induction l as [|y l IH]; simpl; [done|]. case_decide; [done|]. rewrite IH. by rewrite Permutation_swap.
Qed.

Lemma sort_Permutation l : sort_candidates l ≡ₚ l.
Proof. induction l as [|x l IH]; simpl; [done|]. by rewrite insert_Permutation, IH. Qed.

Lemma insert_Sorted x l : Sorted before l -> Sorted before (insert_candidate x l).
Proof.
  induction 1 as [|y l Hs IH Hhd]; simpl; [constructor; constructor|].
  case_decide as Hb.
  - constructor; [by constructor|by constructor].
  - apply before_total in Hb. constructor; [done|].
    destruct Hhd as [|z l Hz]; simpl; [by constructor|]. case_decide; by constructor.
Qed.

Lemma sort_Sorted l : Sorted before (sort_candidates l).
Proof. induction l; simpl; [constructor|by apply insert_Sorted]. Qed.

Lemma sort_id l : Sorted before l -> sort_candidates l = l.
Proof.
  induction 1 as [|x l Hs IH Hhd]; [done|]. simpl. rewrite IH.
  destruct Hhd as [|y l Hy]; [done|]. simpl. by rewrite decide_True.
Qed.

Lemma Sorted_drop n l : Sorted before l -> Sorted before (drop n l).
Proof.
  revert l. induction n as [|n IH]; intros l Hs; [done|]. destruct Hs; [constructor|]. by apply IH.
Qed.

(** *** The two loops *)

(** The stored servers that take part: the first record of each link, if it is
    admitted. *)
Fixpoint admitted (known : list string) l : list PoolServer :=
  match l with
  | [] => []
  | s :: l =>
      if decide (s.(ps_url) = EmptyString \/ s.(ps_url) ∈ known) then admitted known l
      else if Allows countries s then s :: admitted (s.(ps_url) :: known) l
      else admitted (s.(ps_url) :: known) l
  end.

(** What a server's slot holds after the crawl. *)
Definition slot (fresh : list PoolServer) s : option PoolServer :=
  let '(s, alive) := age countries fresh s in if alive then Some s else None.

Lemma stored_loop fresh l a :
  let a' := foldl (stored_step countries fresh) a l in
  let room := (PoolConfigServers - length a.(sl_window))%nat in
  let ad := admitted a.(sl_known) l in
  (length a.(sl_window) <= PoolConfigServers)%nat ->
  a'.(sl_window) = a.(sl_window) ++ map (slot fresh) (take room ad) /\
  a'.(sl_candidates) = a.(sl_candidates) ++ omap (slot fresh) (drop room ad) /\
  forall u, u ∈ a'.(sl_known) <-> u ∈ a.(sl_known) \/ u <> EmptyString /\ u ∈ map ps_url l.
Proof.
  cbv zeta. revert a. induction l as [|s l IH]; intros a Hw; simpl.
  { rewrite take_nil, drop_nil, !app_nil_r. set_solver. }
  set (a1 := stored_step countries fresh a s). unfold stored_step in a1.
  destruct (decide (ps_url s = EmptyString \/ ps_url s ∈ sl_known a)) as [Hk|Hk].
  { destruct (IH a1 Hw) as (H1 & H2 & H3). split_and!; [done|done|]. intros u. rewrite H3, elem_of_cons.
    destruct Hk as [Hk|Hk]; [|naive_solver]. split; [naive_solver|]. intros [?|[? [->|?]]]; naive_solver. }
  assert (Hne : ps_url s <> EmptyString) by tauto.
  assert (Hu : forall a2 u, a2.(sl_known) = ps_url s :: a.(sl_known) ->
    (u ∈ a2.(sl_known) \/ u <> EmptyString /\ u ∈ map ps_url l) <->
    (u ∈ a.(sl_known) \/ u <> EmptyString /\ u ∈ ps_url s :: map ps_url l)).
  { intros a2 u ->. rewrite !elem_of_cons. naive_solver. }
  destruct (Allows countries s); cbn [negb] in a1.
  2:{ destruct (IH a1 Hw) as (H1 & H2 & H3). split_and!; [done|done|]. intros u. rewrite H3. by apply Hu. }
  assert (Hsl : slot fresh s = let '(s0, alive) := age countries fresh s in if alive then Some s0 else None) by done.
  destruct (age countries fresh s) as [s0 alive].
  destruct (decide (length (sl_window a) < PoolConfigServers)%nat) as [Hlt|Hge].
  - destruct (IH a1) as (H1 & H2 & H3). { unfold a1. simpl. rewrite length_app. simpl. lia. }
    rewrite H1, H2. unfold a1 in H3 |- *. cbn [sl_window sl_candidates sl_known]. rewrite length_app. simpl.
    replace (PoolConfigServers - length (sl_window a))%nat
      with (S (PoolConfigServers - (length (sl_window a) + 1)))%nat by lia.
    cbn [take drop map]. rewrite Hsl, <- app_assoc. split_and!; [done|done|].
    intros u. rewrite H3. by apply (Hu (MkSlots _ [] [])).
  - destruct (IH a1) as (H1 & H2 & H3). { done. }
    rewrite H1, H2. unfold a1 in H3 |- *. cbn [sl_window sl_candidates sl_known].
    replace (PoolConfigServers - length (sl_window a))%nat with O by lia.
    cbn [take drop map omap list_omap]. rewrite Hsl, <- app_assoc. split_and!; [done| |].
    + by destruct alive.
    + intros u. rewrite H3. by apply (Hu (MkSlots _ [] [])).
Qed.

Lemma admitted_spec known l :
  NoDup (map ps_url (admitted known l)) /\
  (forall s, s ∈ admitted known l -> s ∈ l /\ s.(ps_url) <> EmptyString /\ s.(ps_url) ∉ known /\ Allows countries s = true).
Proof.
  revert known. induction l as [|s l IH]; intros known; simpl.
  { split; [constructor|]. by intros s ?%elem_of_nil. }
  case_decide as Hk.
  { destruct (IH known) as [H1 H2]. split; [done|]. intros x Hx. destruct (H2 x Hx) as (? & ? & ? & ?).
    split_and!; try done. by right. }
  destruct (IH (ps_url s :: known)) as [H1 H2].
  assert (Hrest : forall x, x ∈ admitted (ps_url s :: known) l ->
     x ∈ s :: l /\ ps_url x <> EmptyString /\ ps_url x ∉ known /\ Allows countries x = true).
  { intros x Hx. destruct (H2 x Hx) as (? & ? & Hn & ?). rewrite not_elem_of_cons in Hn.
    split_and!; try done; [by right|tauto]. }
  destruct (Allows countries s) eqn:Ha; [|done]. simpl. split.
  - constructor; [|done]. intros (x & Hx & Hin)%list_elem_of_fmap. destruct (H2 x Hin) as (_ & _ & Hn & _).
    rewrite not_elem_of_cons in Hn. naive_solver.
  - intros x [->|Hx]%elem_of_cons; [|by apply Hrest]. split_and!; [by left|tauto|tauto|done].
Qed.

Lemma admitted_id l :
  NoDup (map ps_url l) -> (forall s, s ∈ l -> s.(ps_url) <> EmptyString /\ Allows countries s = true) ->
  admitted [] l = l.
Proof.
  assert (Hgen : forall known, (forall s, s ∈ l -> ps_url s ∉ known) -> NoDup (map ps_url l) ->
    (forall s, s ∈ l -> s.(ps_url) <> EmptyString /\ Allows countries s = true) -> admitted known l = l).
  { induction l as [|s l IH]; intros known Hk Hnd Hall; [done|]. simpl in *.
    apply NoDup_cons in Hnd as [Hs Hnd]. destruct (Hall s) as [Hne Ha]; [by left|].
    rewrite decide_False by (intros [?|?]; [done|]; by apply (Hk s); [left|]). rewrite Ha. f_equal.
    apply IH; [|done|intros; apply Hall; by right]. intros x Hx. rewrite not_elem_of_cons.
    split; [|apply Hk; by right]. intros He. apply Hs. rewrite <- He. by apply list_elem_of_fmap_2. }
  intros. apply Hgen; [set_solver|done|done].
Qed.

(** *** Filling the free slots *)
Lemma fill_Permutation (w : list (option PoolServer)) c : fill w c ≡ₚ omap id w ++ c.
Proof.
  revert c. induction w as [|[s|] w IH]; intros c; cbn [fill omap list_omap id app]; [done|by rewrite IH|].
  destruct c as [|x c]; [by rewrite IH|]. rewrite IH. by rewrite Permutation_middle.
Qed.

(** A survivor keeps its position if the slots freed before it can be filled. *)
Lemma fill_lookup (w : list (option PoolServer)) c i s :
  w !! i = Some (Some s) -> (length (filter (fun o => o = None) (take i w)) <= length c)%nat ->
  fill w c !! i = Some s.
Proof.
  revert c i. induction w as [|o w IH]; intros c [|i] Hi Hl; simpl in *; try done; [by simplify_eq|].
  rewrite filter_cons in Hl. destruct o as [s1|].
  - rewrite decide_False in Hl by done. simpl. by apply IH.
  - rewrite decide_True in Hl by done. simpl in Hl. destruct c as [|x c]; [simpl in Hl; lia|].
    simpl. apply IH; [done|]. simpl in Hl. lia.
Qed.

Lemma fill_drop_Sorted (w : list (option PoolServer)) c n :
  Sorted before c -> (length w <= n)%nat -> Sorted before (drop n (fill w c)).
Proof.
  revert c n. induction w as [|o w IH]; intros c n Hs Hn; simpl in *; [by apply Sorted_drop|].
  destruct n as [|n]; [lia|]. destruct o as [s|]; [simpl; apply IH; [done|lia]|].
  destruct c as [|x c]; simpl; [apply IH; [done|lia]|]. apply IH; [by inversion Hs|lia].
Qed.

Lemma fill_Some l c : fill (map Some l) c = l ++ c.
Proof. induction l as [|x l IH]; simpl; [done|]. by rewrite IH. Qed.

(** *** The result *)
Definition candidates_of (stored fresh : list PoolServer) : list PoolServer :=
  sort_candidates (omap (slot fresh) (drop PoolConfigServers (admitted [] stored)) ++
    fresh_candidates countries (foldl (stored_step countries fresh) (MkSlots [] [] []) stored).(sl_known) [] fresh).

Lemma MergePool_eq stored fresh :
  (MergePool countries stored fresh).1 =
    fill (map (slot fresh) (take PoolConfigServers (admitted [] stored))) (candidates_of stored fresh) /\
  forall u, u ∈ (foldl (stored_step countries fresh) (MkSlots [] [] []) stored).(sl_known) <->
    u <> EmptyString /\ u ∈ map ps_url stored.
Proof.
  destruct (stored_loop fresh stored (MkSlots [] [] [])) as (H1 & H2 & H3); [simpl; lia|].
  unfold MergePool, candidates_of. cbn [fst]. rewrite H1, H2. cbn [sl_window sl_candidates sl_known length app].
  rewrite Nat.sub_0_r. split; [done|]. intros u. rewrite H3. cbn [sl_known]. rewrite elem_of_nil. tauto.
Qed.

Lemma fresh_candidates_spec known seen l :
  NoDup (map ps_url (fresh_candidates countries known seen l)) /\
  forall s, s ∈ fresh_candidates countries known seen l <->
    exists i f, l !! i = Some f /\ s = MkPoolServer f.(ps_url) f.(ps_country) f.(ps_title) f.(ps_ping_ms) 0 /\
      f.(ps_url) <> EmptyString /\ f.(ps_url) ∉ known /\ f.(ps_url) ∉ seen /\ Allows countries f = true /\
      forall j g, (j < i)%nat -> l !! j = Some g -> g.(ps_url) = f.(ps_url) -> Allows countries g = false.
Proof.
  revert seen. induction l as [|x l IH]; intros seen; simpl.
  { split; [constructor|]. intros s. rewrite elem_of_nil. split; [done|]. by intros (i & f & ? & _). }
  case_decide as Hx.
  - destruct (IH seen) as [H1 H2]. split; [done|]. intros s. rewrite H2. split.
    + intros (i & f & Hi & -> & ? & ? & ? & ? & Hfirst). exists (S i), f. split_and!; try done.
      intros [|j] g Hj Hg He; simpl in Hg; [|apply (Hfirst j); [lia|done|done]].
      injection Hg as ->. destruct Hx as [Hx|[Hx|[Hx|Hx]]]; [..|done]; rewrite He in Hx; done.
    + intros ([|i] & f & Hi & -> & ? & ? & ? & Ha & Hfirst); simpl in Hi.
      * injection Hi as ->. destruct Hx as [Hx|[Hx|[Hx|Hx]]]; try done. by rewrite Ha in Hx.
      * exists i, f. split_and!; try done. intros j g Hj Hg. apply (Hfirst (S j)); [lia|done].
  - destruct (IH (ps_url x :: seen)) as [H1 H2].
    assert (Hn : ps_url x <> EmptyString /\ ps_url x ∉ known /\ ps_url x ∉ seen /\ Allows countries x = true)
      by (destruct (Allows countries x); tauto). clear Hx. destruct Hn as (Hn1 & Hn2 & Hn3 & Hn4).
    split.
    + simpl. constructor; [|done]. intros (s & Hs & Hin)%list_elem_of_fmap.
      apply H2 in Hin as (i & f & _ & -> & _ & _ & Hno & _). simpl in Hs. rewrite Hs in Hno. apply Hno. by left.
    + intros s. rewrite elem_of_cons, H2. split.
      * intros [->|(i & f & Hi & -> & ? & ? & Hno & ? & Hfirst)].
        { exists O, x. split_and!; try done. intros j g Hj. lia. }
        rewrite not_elem_of_cons in Hno. destruct Hno as [Hno1 Hno2].
        exists (S i), f. split_and!; try done.
        intros [|j] g Hj Hg He; simpl in Hg; [|apply (Hfirst j); [lia|done|done]]. by simplify_eq.
      * intros ([|i] & f & Hi & -> & ? & ? & ? & Ha & Hfirst); simpl in Hi.
        { injection Hi as ->. by left. }
        right. exists i, f. split_and!; try done.
        { rewrite not_elem_of_cons. split; [|done]. intros He.
          rewrite (Hfirst O x) in Hn4; [done|lia|done|done]. }
        intros j g Hj Hg. apply (Hfirst (S j)); [lia|done].
Qed.

Lemma MergePool_perm stored fresh :
  (MergePool countries stored fresh).1 ≡ₚ omap (slot fresh) (admitted [] stored) ++
    fresh_candidates countries (foldl (stored_step countries fresh) (MkSlots [] [] []) stored).(sl_known) [] fresh.
Proof.
  destruct (MergePool_eq stored fresh) as [-> _]. rewrite fill_Permutation. unfold candidates_of.
  rewrite sort_Permutation, app_assoc. f_equiv.
  rewrite <- (take_drop PoolConfigServers (admitted [] stored)) at 3. rewrite omap_app. f_equiv.
  generalize (take PoolConfigServers (admitted [] stored)). intros l.
  induction l as [|s l IH]; [done|]. cbn. destruct (slot fresh s); [by constructor|done].
Qed.

(** The first admitted card of a link. *)
Lemma fresh_card_spec fresh u f :
  fresh_card countries fresh u = Some f <->
  u <> EmptyString /\ exists i, fresh !! i = Some f /\ f.(ps_url) = u /\ Allows countries f = true /\
    forall j g, (j < i)%nat -> fresh !! j = Some g -> g.(ps_url) = u -> Allows countries g = false.
Proof.
  unfold fresh_card. rewrite fmap_Some. split.
  - intros ((i & f') & Hf & ->). apply list_find_Some in Hf as (Hi & (Hne & Ha & He) & Hfirst).
    split; [by rewrite <- He|]. exists i. split_and!; try done. intros j g Hj Hg Hu.
    destruct (Allows countries g) eqn:Hg'; [|done]. exfalso. apply (Hfirst j g Hg Hj).
    split_and!; [by rewrite Hu, <- He|done|done].
  - intros (Hne & i & Hi & He & Ha & Hfirst). exists (i, f). split; [|done].
    apply list_find_Some. split_and!; [done|by rewrite He|done|done|].
    intros j g Hg Hj (Hne' & Ha' & He'). by rewrite (Hfirst j g Hj Hg He') in Ha'.
Qed.

Lemma fresh_card_is_Some fresh f :
  f ∈ fresh -> f.(ps_url) <> EmptyString -> Allows countries f = true -> is_Some (fresh_card countries fresh f.(ps_url)).
Proof.
  intros Hf Hne Ha. unfold fresh_card. destruct (list_find_elem_of
    (fun s => s.(ps_url) <> EmptyString /\ Allows countries s = true /\ s.(ps_url) = f.(ps_url)) fresh f) as [? ->];
    [done|by split_and!|]. by eexists.
Qed.

Lemma or_empty_idem a b : or_empty (or_empty a b) b = or_empty a b.
Proof. unfold or_empty. repeat case_decide; done. Qed.
Lemma or_empty_self a : or_empty a a = a.
Proof. unfold or_empty. by case_decide. Qed.

(** A server that stays is the stored one, with its gaps filled. *)
Lemma slot_Some fresh s s' :
  slot fresh s = Some s' ->
  s'.(ps_url) = s.(ps_url) /\ s'.(ps_ping_ms) = s.(ps_ping_ms) /\
  match fresh_card countries fresh s.(ps_url) with
  | Some f => s'.(ps_misses) = 0 /\ s'.(ps_title) = or_empty s.(ps_title) f.(ps_title) /\
              s'.(ps_country) = or_empty s.(ps_country) f.(ps_country)
  | None => s'.(ps_misses) = s.(ps_misses) + 1 /\ s'.(ps_misses) < poolMissesBeforeDrop /\
            s'.(ps_title) = s.(ps_title) /\ s'.(ps_country) = s.(ps_country)
  end.
Proof.
  unfold slot, age. destruct (fresh_card countries fresh (ps_url s)) as [f|].
  - intros [= <-]. done.
  - case_bool_decide as Hm; [|done]. intros [= <-]. done.
Qed.

Lemma slot_Allows fresh s s' :
  Allows countries s = true -> slot fresh s = Some s' -> Allows countries s' = true.
Proof.
  intros Ha Hs. apply slot_Some in Hs as (Hu & _ & Hs).
  destruct (fresh_card countries fresh (ps_url s)) as [f|] eqn:Hf.
  - destruct Hs as (_ & Ht & _). unfold or_empty in Ht. case_decide.
    + apply fresh_card_spec in Hf as (_ & i & _ & Hfu & Hfa & _). rewrite <- Hfa. apply Allows_ext; congruence.
    + rewrite <- Ha. by apply Allows_ext.
  - destruct Hs as (_ & _ & Ht & _). rewrite <- Ha. by apply Allows_ext.
Qed.

(** A fresh card as a new member. *)
Definition newcomer (f : PoolServer) : PoolServer :=
  MkPoolServer f.(ps_url) f.(ps_country) f.(ps_title) f.(ps_ping_ms) 0.

Lemma merged_members stored fresh s :
  s ∈ (MergePool countries stored fresh).1 <->
  (exists s0, s0 ∈ admitted [] stored /\ slot fresh s0 = Some s) \/
  (s.(ps_url) ∉ map ps_url stored /\
   exists f, fresh_card countries fresh s.(ps_url) = Some f /\ s = newcomer f).
Proof.
  rewrite MergePool_perm, elem_of_app, list_elem_of_omap. apply or_iff_compat_l.
  rewrite (proj2 (fresh_candidates_spec _ _ _)). destruct (MergePool_eq stored fresh) as [_ Hk]. split.
  - intros (i & f & Hi & -> & Hne & Hno & _ & Ha & Hfirst). cbn [ps_url]. rewrite Hk in Hno. split; [tauto|].
    exists f. split; [|done]. apply fresh_card_spec. split; [done|]. by exists i.
  - intros (Hno & f & Hf & ->). cbn [newcomer ps_url] in *. apply fresh_card_spec in Hf as (Hne & i & Hi & _ & Ha & Hfirst).
    exists i, f. split_and!; try done; [|apply not_elem_of_nil]. rewrite Hk. tauto.
Qed.

Lemma merged_NoDup stored fresh : NoDup (map ps_url (MergePool countries stored fresh).1).
Proof.
  rewrite MergePool_perm, map_app. destruct (MergePool_eq stored fresh) as [_ Hk]. apply NoDup_app. split_and!.
  - destruct (admitted_spec [] stored) as [Hnd _]. revert Hnd. generalize (admitted [] stored). intros l.
    induction l as [|x l IH]; [constructor|]. simpl. intros [Hx Hnd]%NoDup_cons.
    destruct (slot fresh x) as [y|] eqn:Hy; [|by apply IH]. simpl. constructor; [|by apply IH].
    apply slot_Some in Hy as (-> & _). intros (z & Hz & (w & Hw & Hs)%list_elem_of_omap)%list_elem_of_fmap.
    apply slot_Some in Hs as (Hs & _). apply Hx. rewrite Hz, Hs. by apply list_elem_of_fmap_2.
  - intros u (s & -> & (s0 & Hin & Hs)%list_elem_of_omap)%list_elem_of_fmap
             (s1 & He & (i & f & _ & -> & _ & Hno & _)%(proj2 (fresh_candidates_spec _ _ _)))%list_elem_of_fmap.
    apply Hno. cbn [ps_url] in He. rewrite <- He, Hk. apply slot_Some in Hs as (-> & _).
    apply (proj2 (admitted_spec [] stored)) in Hin as (Hin & Hne & _). split; [done|]. by apply list_elem_of_fmap_2.
  - apply fresh_candidates_spec.
Qed.

(** The window: the first [PoolConfigServers] admitted servers; unless the list
    becomes shorter than the window was, each survivor keeps its position. *)
Lemma merged_window stored fresh i s0 s :
  let window := take PoolConfigServers (admitted [] stored) in
  (length window <= length (MergePool countries stored fresh).1)%nat ->
  window !! i = Some s0 -> slot fresh s0 = Some s ->
  (MergePool countries stored fresh).1 !! i = Some s.
Proof.
  cbv zeta. rewrite (proj1 (MergePool_eq stored fresh)). set (window := take _ _). set (c := candidates_of _ _).
  intros Hlen Hi Hs. apply fill_lookup. { by rewrite list_lookup_fmap, Hi; simpl; rewrite Hs. }
  rewrite fill_Permutation, length_app in Hlen.
  assert (Hcount : forall w : list (option PoolServer),
    (length (filter (fun o => o = None) w) + length (omap id w) = length w)%nat).
  { intros w. induction w as [|[x|] w IH]; [done|..]; rewrite filter_cons;
      [rewrite decide_False by done|rewrite decide_True by done]; cbn; unfold id in *; cbn; lia. }
  pose proof (Hcount (map (slot fresh) window)) as Hc. rewrite length_map in Hc.
  enough (length (filter (fun o => o = None) (take i (map (slot fresh) window))) <=
          length (filter (fun o => o = None) (map (slot fresh) window)))%nat by lia.
  rewrite <- (take_drop i (map (slot fresh) window)) at 2. rewrite filter_app, length_app. lia.
Qed.

Lemma samePool_spec (a b : list PoolServer) : samePool a b = true <-> a = b.
Proof. unfold samePool. by rewrite bool_decide_eq_true. Qed.

(** *** A steady catalogue *)
Lemma admitted_urls known l u :
  (forall s, s ∈ l -> Allows countries s = true) ->
  u ∈ map ps_url l -> u <> EmptyString -> u ∉ known -> u ∈ map ps_url (admitted known l).
Proof.
  revert known. induction l as [|s l IH]; intros known Ha Hu Hne Hno; simpl in *; [done|].
  assert (Ha' : forall x, x ∈ l -> Allows countries x = true) by (intros; apply Ha; by right).
  rewrite elem_of_cons in Hu. destruct (decide (u = ps_url s)) as [->|Hus].
  - rewrite decide_False by tauto. rewrite (Ha s) by by left. by left.
  - destruct Hu as [|Hu]; [done|]. case_decide; [by apply IH|]. rewrite (Ha s) by by left. simpl. right.
    apply IH; [done..|]. rewrite not_elem_of_cons. done.
Qed.

Lemma merged_slot stored fresh s :
  s ∈ (MergePool countries stored fresh).1 -> is_Some (fresh_card countries fresh s.(ps_url)) ->
  slot fresh s = Some s.
Proof.
  intros Hs [f Hf]. unfold slot, age. rewrite Hf. f_equal.
  apply merged_members in Hs as [(s0 & _ & Hs)|(_ & g & Hg & ->)].
  - apply slot_Some in Hs as (Hu & Hp & Hs). rewrite <- Hu, Hf in Hs. destruct Hs as (Hm & Ht & Hc).
    destruct s as [u c t p m]. cbn in *. subst. by rewrite !or_empty_idem.
  - cbn [newcomer ps_url] in Hf. cbn [newcomer ps_url] in Hg. rewrite Hg in Hf. injection Hf as <-.
    destruct g. cbn. by rewrite !or_empty_self.
Qed.

Lemma fresh_all_merged stored fresh f :
  (forall s, s ∈ stored -> Allows countries s = true) ->
  f ∈ fresh -> f.(ps_url) <> EmptyString -> Allows countries f = true ->
  f.(ps_url) ∈ map ps_url (MergePool countries stored fresh).1.
Proof.
  intros Hst Hin Hne Ha. destruct (fresh_card_is_Some fresh f Hin Hne Ha) as [g Hg].
  destruct (decide (ps_url f ∈ map ps_url stored)) as [Hu|Hu].
  - apply (admitted_urls []) in Hu as (s0 & Hu & Hs0)%list_elem_of_fmap; [|done..|apply not_elem_of_nil].
    destruct (slot fresh s0) as [s|] eqn:Hs.
    + pose proof (slot_Some _ _ _ Hs) as (Hus & _). rewrite Hu, <- Hus. apply list_elem_of_fmap_2.
      apply merged_members. left. by exists s0.
    + unfold slot, age in Hs. rewrite <- Hu, Hg in Hs. done.
  - pose proof (proj1 (fresh_card_spec _ _ _) Hg) as (_ & _ & _ & He & _). rewrite <- He.
    apply (list_elem_of_fmap_2 ps_url _ (newcomer g)). apply merged_members. right.
    cbn [newcomer ps_url]. rewrite He. split; [done|]. by exists g.
Qed.

Lemma fill_slots (fresh : list PoolServer) l c :
  (forall s, s ∈ l -> slot fresh s = Some s) -> fill (map (slot fresh) l) c = l ++ c.
Proof.
  induction l as [|s l IH]; intros Hl; [done|]. cbn. rewrite (Hl s) by by left. f_equal. apply IH.
  intros; apply Hl. by right.
Qed.

Lemma omap_slots (fresh : list PoolServer) l :
  (forall s, s ∈ l -> slot fresh s = Some s) -> omap (slot fresh) l = l.
Proof.
  induction l as [|s l IH]; intros Hl; [done|]. cbn. rewrite (Hl s) by by left. f_equal. apply IH.
  intros; apply Hl. by right.
Qed.

(** ** Properties *)

(** C22: the merge of a crawl into the stored list.  The result has no link
    twice, no empty link and nothing the filter refuses.  A stored server keeps
    its record (only an empty country or title is filled, the misses are reset
    or counted) and goes only at the third miss in a row; a link that was not
    stored joins with the first card the filter admits; nothing else is in the
    list.  A member of the window keeps its position, which is its tag in the
    configuration, as long as the freed positions can be filled, and the rest
    is ordered by ping.  The list is reported as unchanged exactly when it is
    equal to the stored one. *)
Theorem MergePool_correct stored fresh :
  let '(merged, changed) := MergePool countries stored fresh in
  NoDup (map ps_url merged) /\
  (forall s, s ∈ merged -> s.(ps_url) <> EmptyString /\ Allows countries s = true) /\
  (forall s0, s0 ∈ admitted [] stored ->
     match fresh_card countries fresh s0.(ps_url) with
     | Some f => MkPoolServer s0.(ps_url) (or_empty s0.(ps_country) f.(ps_country))
                   (or_empty s0.(ps_title) f.(ps_title)) s0.(ps_ping_ms) 0 ∈ merged
     | None => if decide (s0.(ps_misses) + 1 < 3)
               then MkPoolServer s0.(ps_url) s0.(ps_country) s0.(ps_title) s0.(ps_ping_ms) (s0.(ps_misses) + 1) ∈ merged
               else s0.(ps_url) ∉ map ps_url merged
     end) /\
  (forall u f, u ∉ map ps_url stored -> fresh_card countries fresh u = Some f -> newcomer f ∈ merged) /\
  (forall u, u ∈ map ps_url merged -> u ∈ map ps_url (admitted [] stored) \/
     u ∉ map ps_url stored /\ is_Some (fresh_card countries fresh u)) /\
  ((length (take 64 (admitted [] stored)) <= length merged)%nat ->
   forall i s0 u, take 64 (admitted [] stored) !! i = Some s0 -> u = s0.(ps_url) -> u ∈ map ps_url merged ->
     ps_url <$> merged !! i = Some u) /\
  Sorted before (drop 64 merged) /\
  (changed = false <-> merged = stored).
Proof.
  pose proof (merged_NoDup stored fresh) as Hnd. pose proof (merged_members stored fresh) as Hmem.
  pose proof (merged_window stored fresh) as Hwin. pose proof (proj1 (MergePool_eq stored fresh)) as Heq.
  destruct (MergePool countries stored fresh) as [merged changed] eqn:HM. cbn [fst] in *.
  assert (Hslot : forall s0 s, s0 ∈ admitted [] stored -> slot fresh s0 = Some s -> s ∈ merged).
  { intros s0 s Hin Hs. apply Hmem. left. by exists s0. }
  assert (Hback : forall s0, s0 ∈ admitted [] stored -> ps_url s0 ∈ map ps_url merged -> is_Some (slot fresh s0)).
  { intros s0 Hin (s & Hu & Hs)%list_elem_of_fmap. destruct (admitted_spec [] stored) as [Hnda Hada].
    apply Hmem in Hs as [(s1 & Hin1 & Hs1)|(Hno & _)].
    - pose proof (slot_Some _ _ _ Hs1) as (Hu1 & _). rewrite Hu1 in Hu.
      rewrite (NoDup_map_inj ps_url _ s0 s1 Hnda Hin Hin1 Hu). by eexists.
    - exfalso. apply Hno. rewrite <- Hu. apply list_elem_of_fmap_2. by apply Hada. }
  split_and!.
  - exact Hnd.
  - intros s [(s0 & Hin & Hs)|(_ & f & Hf & ->)]%Hmem.
    + apply (proj2 (admitted_spec [] stored)) in Hin as (_ & Hne & _ & Ha). split.
      * apply slot_Some in Hs as (-> & _). done.
      * by eapply slot_Allows.
    + apply fresh_card_spec in Hf as (Hne & i & _ & _ & Ha & _). split; [done|]. rewrite <- Ha. by apply Allows_ext.
  - intros s0 Hin. pose proof (Hslot s0) as Hk. pose proof (Hback s0 Hin) as Hb. unfold slot, age in Hk, Hb.
    destruct (fresh_card countries fresh (ps_url s0)) as [f|]; [by apply Hk|].
    unfold poolMissesBeforeDrop in *. case_decide as Hm.
    + rewrite bool_decide_eq_true_2 in Hk by done. by apply Hk.
    + rewrite bool_decide_eq_false_2 in Hb by done. intros Hu. by destruct (Hb Hu).
  - intros u f Hu Hf. apply Hmem. right. pose proof (proj1 (fresh_card_spec _ _ _) Hf) as (_ & i & _ & He & _).
    cbn [newcomer ps_url]. rewrite He. split; [done|]. by exists f.
  - intros u (s & -> & Hs)%list_elem_of_fmap. apply Hmem in Hs as [(s0 & Hin & Hs)|(Hno & f & Hf & _)].
    + left. apply slot_Some in Hs as (-> & _). by apply list_elem_of_fmap_2.
    + right. by rewrite Hf.
  - intros Hlen i s0 u Hi -> Hu. destruct (Hback s0) as [s Hs]; [|done|].
    { apply lookup_take_Some in Hi as [Hi _]. by eapply list_elem_of_lookup_2. }
    rewrite (Hwin i s0 s Hlen Hi Hs). simpl. by apply slot_Some in Hs as (-> & _).
  - rewrite Heq. apply fill_drop_Sorted; [apply sort_Sorted|]. rewrite length_map, length_take. unfold PoolConfigServers. lia.
  - unfold MergePool in HM. injection HM as Hm <-. rewrite Hm. rewrite negb_false_iff, samePool_spec. done.
Qed.

(** A steady catalogue changes nothing.  If the crawl has a card for every
    server of the merged list and the filter admits the stored servers, then
    merging the same crawl again gives the same list, byte for byte, and
    reports no change: nothing is written and sing-box is not restarted. *)
Theorem MergePool_stable stored fresh :
  (forall s, s ∈ stored -> Allows countries s = true) ->
  (forall s, s ∈ (MergePool countries stored fresh).1 -> is_Some (fresh_card countries fresh s.(ps_url))) ->
  let merged := (MergePool countries stored fresh).1 in
  MergePool countries merged fresh = (merged, false).
Proof.
  intros Hst Hcard merged. pose proof (MergePool_eq stored fresh) as [Heq _].
  assert (Hslots : forall s, s ∈ merged -> slot fresh s = Some s).
  { intros s Hs. apply merged_slot with stored; [done|by apply Hcard]. }
  assert (Had : admitted [] merged = merged).
  { apply admitted_id; [apply merged_NoDup|]. intros s Hs. destruct (Hcard s Hs) as [f Hf].
    apply fresh_card_spec in Hf as (Hne & _). split; [done|].
    apply merged_members in Hs as [(s0 & Hin & Hs)|(_ & g & Hg & ->)].
    - apply slot_Allows in Hs; [done|]. apply (proj2 (admitted_spec [] stored)) in Hin. tauto.
    - apply fresh_card_spec in Hg as (_ & i & _ & _ & Ha & _). rewrite <- Ha. by apply Allows_ext. }
  assert (Hnil : fresh_candidates countries
     (foldl (stored_step countries fresh) (MkSlots [] [] []) merged).(sl_known) [] fresh = []).
  { destruct (fresh_candidates _ _ _ _) as [|x l] eqn:Hf; [done|]. exfalso.
    assert (Hx : x ∈ x :: l) by by left. rewrite <- Hf in Hx.
    apply fresh_candidates_spec in Hx as (i & f & Hi & _ & Hne & Hno & _ & Ha & _).
    apply Hno, (proj2 (MergePool_eq merged fresh)). split; [done|].
    apply fresh_all_merged; [done|by eapply list_elem_of_lookup_2|done|done]. }
  assert (Hm : (MergePool countries merged fresh).1 = merged).
  { rewrite (proj1 (MergePool_eq merged fresh)). unfold candidates_of. rewrite Hnil, Had, app_nil_r.
    rewrite fill_slots; [|intros s Hs; apply Hslots; by apply take_In in Hs].
    rewrite omap_slots; [|intros s Hs; apply Hslots; by apply drop_In in Hs].
    rewrite sort_id; [by apply take_drop|]. unfold merged at 1. rewrite Heq.
    apply fill_drop_Sorted; [apply sort_Sorted|]. rewrite length_map, length_take. lia. }
  rewrite (surjective_pairing (MergePool countries merged fresh)), Hm. f_equal.
  unfold MergePool in *. cbn [fst snd] in *. rewrite Hm. apply negb_false_iff. by apply samePool_spec.
Qed.
End merge_lemmas.

(** ** Witnesses *)
#[local] Existing Instances ascii_unicode ascii_runes.

Definition node (name : string) (ping misses : Z) : PoolServer :=
  MkPoolServer ("vless://k@" +:+ name +:+ ":443?security=reality") "" ("Node " +:+ name) ping misses.
(** [b] misses its third crawl; [d] is faster than [e]. *)
Definition node_stored : list PoolServer := [node "a" 40 1; node "b" 30 2; node "c" 0 0].
Definition node_fresh : list PoolServer := [node "e" 80 0; node "a" 10 0; node "d" 20 0; flagged_server].

Lemma MergePool_correct_witness :
  MergePool ["RU"%string] node_stored node_fresh =
    ([node "a" 40 0; node "d" 20 0; node "c" 0 1; node "e" 80 0], true) /\
  node "d" 20 0 ∈ [node "a" 40 0; node "d" 20 0; node "c" 0 1; node "e" 80 0].
Proof.
  pose proof (MergePool_correct ["RU"%string] node_stored node_fresh) as H.
  assert (Hm : MergePool ["RU"%string] node_stored node_fresh =
    ([node "a" 40 0; node "d" 20 0; node "c" 0 1; node "e" 80 0], true)) by (vm_compute; reflexivity).
  rewrite Hm in H. destruct H as (_ & _ & _ & H & _). split; [exact Hm|].
  apply (H (node "d" 20 0).(ps_url) (node "d" 20 0)); [|vm_compute; reflexivity].
  apply (bool_decide_eq_true_1 (_ ∉ _)). vm_compute. reflexivity.
Defined.

Lemma MergePool_stable_witness :
  MergePool ["RU"%string] [node "a" 40 0; node "e" 80 0; node "d" 20 0] node_fresh =
    ([node "a" 40 0; node "e" 80 0; node "d" 20 0], false).
Proof.
  assert (Hm : (MergePool ["RU"%string] [node "a" 40 1; node "e" 80 0] node_fresh).1 =
    [node "a" 40 0; node "e" 80 0; node "d" 20 0]) by (vm_compute; reflexivity).
  pose proof (MergePool_stable ["RU"%string] [node "a" 40 1; node "e" 80 0] node_fresh) as H.
  cbv zeta in H. rewrite Hm in H. apply H.
  - intros s [->|[->|[]%elem_of_nil]%elem_of_cons]%elem_of_cons; vm_compute; reflexivity.
  - intros s [->|[->|[->|[]%elem_of_nil]%elem_of_cons]%elem_of_cons]%elem_of_cons;
      eexists; vm_compute; reflexivity.
Defined.
