(* ===== verification/PoolRefresh.v ===== *)
(** * The schedule of the pools

    [internal/lists/pool.go]: one round of the manager over all pools, each
    catalogue crawled once, the merged lists written to the store.  The crawl
    itself (HTTP, the catalogue's page format) is a function of the catalogue
    here; the loop around a round only chooses the time of the next one. *)

From S2P Require Import Prelude GoStd Model Db Wf SettingsStore TunnelsStore PoolFilter PoolMerge Sample.
#[local] Open Scope Z_scope.

(** ** Definitions *)
Record PoolTunnel := MkPoolTunnel {
  pt_id : string; pt_name : string; pt_catalog : string; pt_enabled : bool; pt_servers : list PoolServer }.

Definition PoolTunnelFrom (t : Tunnel) : PoolTunnel :=
  MkPoolTunnel t.(t_id) t.(t_name) t.(t_raw) t.(t_enabled) t.(t_pool).
Definition PoolTunnels (l : list Tunnel) : list PoolTunnel :=
  map PoolTunnelFrom (filter (fun t => t.(t_source) = SourcePool) l).

Definition Identity (t : PoolTunnel) : string * string * bool := (t.(pt_id), t.(pt_catalog), t.(pt_enabled)).
Definition SamePoolSet (a b : list PoolTunnel) : bool := bool_decide (Identity <$> a = Identity <$> b).

(** What a crawl of a catalogue gives: servers, [ErrPoolCrawlBusy], or another
    error. *)
Inductive crawl := Crawled (servers : list PoolServer) | Busy | CrawlFailed.

(** The pause after a round and the back-off of the next failure ([loop]), in
    nanoseconds. *)
Definition DefaultPoolInterval : Z := 3600 * second.
Definition defaultRetry : Z := 60 * second.
Definition maxRetryBackoff : Z := 15 * 60 * second.
Definition loop_wait (interval retry backoff : Z) (failed : bool) : Z * Z :=
  if failed
  then (if decide (backoff < interval) then backoff else interval,
        if decide (backoff < maxRetryBackoff) then backoff * 2 else backoff)
  else (interval, retry).

Section refresh.
Context `{PP : PoolPolicy} (countries : list string).
(** [PoolCatalog.Servers] for the crawl of this round, and the clock. *)
Variables (Servers : string -> crawl) (now : Z).

Record Round := MkRound {
  rd_db : db;
  rd_changed : bool;        (** is an update announced? *)
  rd_errors : nat;
  rd_crawls : list string   (** the catalogues visited, in order *)
}.

(** [applyServers] *)
Definition applyServers (t : PoolTunnel) (servers : list PoolServer) (d : db) : result bool * db :=
  let '(merged, changed) := MergePool countries t.(pt_servers) servers in
  if changed then
    match run (UpdateTunnelPool t.(pt_id) merged now) d with
    | (Ok _, d) => (Ok true, d)
    | (Err e, d) => (Err e, d)
    end
  else (Ok false, d).

(** [refreshGroup]: one crawl for all pools of a catalogue; a pool that can not
    be written does not stop the others. *)
Record Group := MkGroup { gr_db : db; gr_changed : bool; gr_errors : nat }.
Definition apply_one (servers : list PoolServer) (g : Group) (t : PoolTunnel) : Group :=
  match applyServers t servers g.(gr_db) with
  | (Ok changed, d) => MkGroup d (g.(gr_changed) || changed) g.(gr_errors)
  | (Err _, d) => MkGroup d g.(gr_changed) (S g.(gr_errors))
  end.

(** The body of the loop of [Refresh]: a group with an error counts as an error
    only. *)
Definition refresh_catalog (enabled : list PoolTunnel) (r : Round) (catalog : string) : Round :=
  let crawls := r.(rd_crawls) ++ [catalog] in
  match Servers catalog with
  | Busy => MkRound r.(rd_db) r.(rd_changed) r.(rd_errors) crawls
  | CrawlFailed => MkRound r.(rd_db) r.(rd_changed) (S r.(rd_errors)) crawls
  | Crawled servers =>
      let g := foldl (apply_one servers) (MkGroup r.(rd_db) false 0)
                 (filter (fun t => t.(pt_catalog) = catalog) enabled) in
      if decide (g.(gr_errors) <> O)
      then MkRound g.(gr_db) r.(rd_changed) (S r.(rd_errors)) crawls
      else MkRound g.(gr_db) (r.(rd_changed) || g.(gr_changed)) r.(rd_errors) crawls
  end.

(** [Refresh] with a context that is not cancelled. *)
Definition Refresh (tunnels : list PoolTunnel) (d : db) : Round :=
  let enabled := filter (fun t => t.(pt_enabled) = true) tunnels in
  foldl (refresh_catalog enabled) (MkRound d false 0 []) (dedup_from [] (pt_catalog <$> enabled)).

(** [RefreshPool]: one pool on demand, switched on or not. *)
Inductive refresh_answer := PoolBusy | PoolCrawlFailed | PoolMerged (r : result bool).
Definition refreshOne (t : PoolTunnel) (d : db) : refresh_answer * db :=
  match Servers t.(pt_catalog) with
  | Busy => (PoolBusy, d)
  | CrawlFailed => (PoolCrawlFailed, d)
  | Crawled servers => let '(r, d) := applyServers t servers d in (PoolMerged r, d)
  end.
Definition RefreshPool (t : PoolTunnel) (d : db) : refresh_answer * bool * db :=
  let '(a, d) := refreshOne t d in
  (a, match a with PoolMerged (Ok changed) => changed | _ => false end, d).
End refresh.

(** ** Lemmas *)
Section refresh_lemmas.
Context `{PP : PoolPolicy} (countries : list string) (Servers : string -> crawl) (now : Z).
Implicit Types (t : PoolTunnel) (d : db) (f : string -> Tunnel -> Tunnel).

(** [d'] is [d] with each row of the table of tunnels rewritten by [f]. *)
Definition rewrites f d d' : Prop :=
  d' = set_tunnels (map_imap (fun id row => Some (f id row)) (tunnels d)) d.

Definition has_pool d (id : string) : bool :=
  match tunnels d !! id with Some row => bool_decide (row.(t_source) = SourcePool) | None => false end.
Definition keeps_source f : Prop := forall id row, t_source (f id row) = t_source row.

Lemma rewrites_lookup f d d' id : rewrites f d d' -> tunnels d' !! id = f id <$> tunnels d !! id.
Proof. intros ->. cbn. rewrite map_lookup_imap. by destruct (tunnels d !! id). Qed.

Lemma rewrites_intro f d m :
  (forall id, m !! id = f id <$> tunnels d !! id) -> rewrites f d (set_tunnels m d).
Proof.
  intros Hm. unfold rewrites, set_tunnels. f_equal. apply map_eq. intros id. rewrite map_lookup_imap, Hm.
  by destruct (tunnels d !! id).
Qed.

Lemma rewrites_id f d : (forall id row, tunnels d !! id = Some row -> f id row = row) -> rewrites f d d.
Proof.
  intros Hf. assert (d = set_tunnels (tunnels d) d) as Hd by (by destruct d). rewrite Hd at 2.
  apply rewrites_intro. intros id. destruct (tunnels d !! id) as [row|] eqn:Hrow; [|done].
  simpl. by rewrite (Hf _ _ Hrow).
Qed.

Lemma rewrites_ext f g d d' :
  rewrites f d d' -> (forall id row, tunnels d !! id = Some row -> f id row = g id row) -> rewrites g d d'.
Proof.
  intros -> Hfg. apply rewrites_intro. intros id. rewrite map_lookup_imap.
  destruct (tunnels d !! id) as [row|] eqn:Hrow; [|done]. simpl. by rewrite (Hfg _ _ Hrow).
Qed.

Lemma rewrites_trans f g h d1 d2 d3 :
  rewrites f d1 d2 -> rewrites g d2 d3 -> (forall id row, h id row = g id (f id row)) -> rewrites h d1 d3.
Proof.
  intros H1 H2 Hh. assert (d3 = set_tunnels (tunnels d3) d1) as -> by (by rewrite H2, H1).
  apply rewrites_intro. intros id. rewrite (rewrites_lookup _ _ _ _ H2), (rewrites_lookup _ _ _ _ H1).
  destruct (tunnels d1 !! id); simpl; by rewrite ?Hh.
Qed.

Lemma rewrites_has_pool f d d' id : rewrites f d d' -> keeps_source f -> has_pool d' id = has_pool d id.
Proof.
  intros H Hf. unfold has_pool. rewrite (rewrites_lookup _ _ _ _ H). destruct (tunnels d !! id) as [row|]; [|done].
  cbn. by rewrite Hf.
Qed.

(** What the servers of a crawl make of the row of a pool. *)
Definition changes t servers : bool := (MergePool countries t.(pt_servers) servers).2.
Definition crawl_row t servers (id : string) (row : Tunnel) : Tunnel :=
  if decide (id = t.(pt_id) /\ row.(t_source) = SourcePool /\ changes t servers = true)
  then pool_overwrite (MergePool countries t.(pt_servers) servers).1 now row else row.

Lemma crawl_row_source t servers : keeps_source (crawl_row t servers).
Proof. intros id row. unfold crawl_row. by case_decide. Qed.

Lemma UpdateTunnelPool_eq id servers at_ d :
  wf d ->
  match run (UpdateTunnelPool id servers at_) d with
  | (Ok _, d') => has_pool d id = true /\
      rewrites (fun i row => if decide (i = id) then pool_overwrite servers at_ row else row) d d'
  | (Err _, d') => d' = d /\ has_pool d id = false
  end.
Proof.
  intros Hd. unfold run, UpdateTunnelPool, checkAffected, has_pool. unfold mbind, tx_bind, sql_update_tunnel.
  destruct (tunnels d !! id) as [row|] eqn:Hrow; [|done].
  case_bool_decide as Hsrc; [|done].
  assert (taken t_name id (t_name (pool_overwrite servers at_ row)) (tunnels d) = false) as ->.
  { apply taken_false. intros k s Hs Hne He. apply Hne. by eapply (to_name _ (wf_tunnels d Hd)). }
  split; [done|]. apply rewrites_intro. intros k. destruct (decide (k = id)) as [->|Hk].
  - by rewrite lookup_insert_eq, Hrow.
  - rewrite lookup_insert_ne by done. by destruct (tunnels d !! k).
Qed.

(** The three outcomes of one pool. *)
Definition unwritable d servers t : bool := changes t servers && negb (has_pool d t.(pt_id)).
Definition written d servers t : bool := changes t servers && has_pool d t.(pt_id).

Lemma apply_one_eq servers g t :
  wf g.(gr_db) ->
  let g' := apply_one countries now servers g t in
  wf g'.(gr_db) /\ rewrites (crawl_row t servers) g.(gr_db) g'.(gr_db) /\
  g'.(gr_changed) = g.(gr_changed) || written g.(gr_db) servers t /\
  g'.(gr_errors) = (g.(gr_errors) + if unwritable g.(gr_db) servers t then 1 else 0)%nat.
Proof.
  intros Hd. destruct g as [d c e]. unfold apply_one, applyServers, unwritable, written. cbn [gr_db gr_changed gr_errors] in *.
  assert (Hch : changes t servers = (MergePool countries t.(pt_servers) servers).2) by done.
  assert (Hrow : forall id row, crawl_row t servers id row =
    if decide (id = t.(pt_id) /\ row.(t_source) = SourcePool /\ (MergePool countries t.(pt_servers) servers).2 = true)
    then pool_overwrite (MergePool countries t.(pt_servers) servers).1 now row else row) by done.
  rewrite Hch. destruct (MergePool countries t.(pt_servers) servers) as [m ch]. cbn [fst snd] in *.
  destruct ch; cbn [andb].
  2:{ cbn [gr_db gr_changed gr_errors]. split_and!; [done| |by rewrite orb_false_r|lia].
      apply rewrites_id. intros id row _. rewrite Hrow. apply decide_False. naive_solver. }
  pose proof (UpdateTunnelPool_eq (pt_id t) m now d Hd) as Hu. pose proof (UpdateTunnelPool_wf d (pt_id t) m now Hd) as Hw.
  destruct (run (UpdateTunnelPool (pt_id t) m now) d) as [[a|a] d']; destruct Hu as [H1 H2]; cbn [snd] in Hw.
  - rewrite ?H1. cbn [gr_db gr_changed gr_errors negb]. split_and!; [done| |done|lia].
    apply (rewrites_ext _ _ _ _ H2). intros k row Hk. rewrite Hrow. unfold has_pool in H1.
    destruct (decide (k = pt_id t)) as [->|Hne].
    + rewrite Hk in H1. apply bool_decide_eq_true in H1. by rewrite decide_True.
    + rewrite decide_False; [done|]. tauto.
  - subst d'. rewrite H2. cbn [gr_db gr_changed gr_errors negb]. split_and!; [done| |by rewrite orb_false_r|lia].
    apply rewrites_id. intros k row Hk. rewrite Hrow, decide_False; [done|].
    intros (-> & Hs & _). unfold has_pool in H2. rewrite Hk in H2. by apply bool_decide_eq_false in H2.
Qed.

Definition group_row servers (ts : list PoolTunnel) (id : string) (row : Tunnel) : Tunnel :=
  foldl (fun row t => crawl_row t servers id row) row ts.

Lemma group_row_source servers ts : keeps_source (group_row servers ts).
Proof.
  intros id row. unfold group_row. revert row. induction ts as [|t ts IH]; intros row; [done|].
  cbn [foldl]. rewrite IH. apply crawl_row_source.
Qed.

Lemma has_pool_ext f d d' servers :
  rewrites f d d' -> keeps_source f ->
  (forall t, written d' servers t = written d servers t) /\ (forall t, unwritable d' servers t = unwritable d servers t).
Proof. intros H Hf. unfold written, unwritable. by split; intros t; rewrite (rewrites_has_pool _ _ _ _ H Hf). Qed.

Lemma group_eq servers ts g :
  wf g.(gr_db) ->
  let g' := foldl (apply_one countries now servers) g ts in
  wf g'.(gr_db) /\ rewrites (group_row servers ts) g.(gr_db) g'.(gr_db) /\
  g'.(gr_changed) = g.(gr_changed) || existsb (written g.(gr_db) servers) ts /\
  (g'.(gr_errors) = O <-> g.(gr_errors) = O /\ existsb (unwritable g.(gr_db) servers) ts = false).
Proof.
  revert g. induction ts as [|t ts IH]; intros g Hd; cbn [foldl existsb].
  { split_and!; [done|by apply rewrites_id|by rewrite orb_false_r|naive_solver]. }
  destruct (apply_one_eq servers g t Hd) as (H1 & H2 & H3 & H4).
  destruct (IH _ H1) as (I1 & I2 & I3 & I4).
  destruct (has_pool_ext _ _ _ servers H2 (crawl_row_source t servers)) as [Hw Hu].
  split_and!; [done| | |].
  - by apply (rewrites_trans _ _ _ _ _ _ H2 I2).
  - rewrite I3, H3, <- orb_assoc. do 2 f_equal. apply existsb_ext. intros x. apply Hw.
  - rewrite I4, H4. rewrite (existsb_ext _ _ ts Hu). rewrite orb_false_iff.
    destruct (unwritable (gr_db g) servers t); intuition lia.
Qed.

(** What a catalogue contributes to the round. *)
Definition group_of (enabled : list PoolTunnel) (c : string) := filter (fun t => t.(pt_catalog) = c) enabled.
Definition catalog_row enabled (c id : string) (row : Tunnel) : Tunnel :=
  match Servers c with Crawled servers => group_row servers (group_of enabled c) id row | _ => row end.
Definition catalog_error d enabled (c : string) : bool :=
  match Servers c with
  | Busy => false
  | CrawlFailed => true
  | Crawled servers => existsb (unwritable d servers) (group_of enabled c)
  end.
Definition catalog_news d enabled (c : string) : bool :=
  match Servers c with
  | Crawled servers => negb (catalog_error d enabled c) && existsb (written d servers) (group_of enabled c)
  | _ => false
  end.

Lemma catalog_row_source enabled c : keeps_source (catalog_row enabled c).
Proof. intros id row. unfold catalog_row. destruct (Servers c); [apply group_row_source|done..]. Qed.

Lemma catalog_ext f d d' enabled :
  rewrites f d d' -> keeps_source f ->
  (forall c, catalog_error d' enabled c = catalog_error d enabled c) /\
  (forall c, catalog_news d' enabled c = catalog_news d enabled c).
Proof.
  intros H Hf.
  assert (He : forall c, catalog_error d' enabled c = catalog_error d enabled c).
  { intros c. unfold catalog_error. destruct (Servers c) as [s| |]; [|done..]. apply existsb_ext.
    apply (has_pool_ext _ _ _ s H Hf). }
  split; [done|]. intros c. unfold catalog_news. destruct (Servers c) as [s| |]; [|done..]. rewrite He. f_equal.
  apply existsb_ext. apply (has_pool_ext _ _ _ s H Hf).
Qed.

Lemma refresh_catalog_eq enabled r c :
  wf r.(rd_db) ->
  let r' := refresh_catalog countries Servers now enabled r c in
  wf r'.(rd_db) /\ rewrites (catalog_row enabled c) r.(rd_db) r'.(rd_db) /\
  r'.(rd_crawls) = r.(rd_crawls) ++ [c] /\
  r'.(rd_changed) = r.(rd_changed) || catalog_news r.(rd_db) enabled c /\
  (r'.(rd_errors) = O <-> r.(rd_errors) = O /\ catalog_error r.(rd_db) enabled c = false).
Proof.
  intros Hd. unfold refresh_catalog.
  assert (Hnews : catalog_news (rd_db r) enabled c = match Servers c with
    | Crawled s => negb (existsb (unwritable (rd_db r) s) (group_of enabled c)) && existsb (written (rd_db r) s) (group_of enabled c)
    | _ => false end).
  { unfold catalog_news, catalog_error. by destruct (Servers c). }
  assert (Hrow : forall id row, catalog_row enabled c id row = match Servers c with
    | Crawled s => group_row s (group_of enabled c) id row | _ => row end) by done.
  rewrite Hnews. unfold catalog_error. destruct (Servers c) as [servers| |]; cbn [rd_db rd_changed rd_errors rd_crawls].
  - destruct (group_eq servers (group_of enabled c) (MkGroup (rd_db r) false 0) Hd) as (H1 & H2 & H3 & H4).
    fold (group_of enabled c). set (g := foldl _ _ (group_of enabled c)) in *. cbn [gr_db gr_changed gr_errors] in *.
    assert (H2' : rewrites (catalog_row enabled c) (rd_db r) (gr_db g)).
    { apply (rewrites_ext _ _ _ _ H2). intros id row _. by rewrite Hrow. }
    destruct (existsb (unwritable (rd_db r) servers) _); case_decide as He;
      cbn [rd_db rd_changed rd_errors rd_crawls negb andb].
    + split_and!; [done|done|done|by rewrite orb_false_r|naive_solver lia].
    + exfalso. naive_solver.
    + exfalso. naive_solver.
    + rewrite H3. split_and!; [done|done|done|done|naive_solver].
  - split_and!; [done|by apply rewrites_id; intros; rewrite Hrow|done|by rewrite orb_false_r|naive_solver].
  - split_and!; [done|by apply rewrites_id; intros; rewrite Hrow|done|by rewrite orb_false_r|naive_solver lia].
Qed.

Definition round_row enabled (cats : list string) (id : string) (row : Tunnel) : Tunnel :=
  foldl (fun row c => catalog_row enabled c id row) row cats.

Lemma round_eq enabled cats r :
  wf r.(rd_db) ->
  let r' := foldl (refresh_catalog countries Servers now enabled) r cats in
  wf r'.(rd_db) /\ rewrites (round_row enabled cats) r.(rd_db) r'.(rd_db) /\
  r'.(rd_crawls) = r.(rd_crawls) ++ cats /\
  r'.(rd_changed) = r.(rd_changed) || existsb (catalog_news r.(rd_db) enabled) cats /\
  (r'.(rd_errors) = O <-> r.(rd_errors) = O /\ existsb (catalog_error r.(rd_db) enabled) cats = false).
Proof.
  revert r. induction cats as [|c cats IH]; intros r Hd; cbn [foldl existsb].
  { split_and!; [done|by apply rewrites_id|by rewrite app_nil_r|by rewrite orb_false_r|naive_solver]. }
  destruct (refresh_catalog_eq enabled r c Hd) as (H1 & H2 & H3 & H4 & H5).
  destruct (IH _ H1) as (I1 & I2 & I3 & I4 & I5).
  destruct (catalog_ext _ _ _ enabled H2 (catalog_row_source enabled c)) as [He Hn].
  split_and!; [done| | | |].
  - by apply (rewrites_trans _ _ _ _ _ _ H2 I2).
  - by rewrite I3, H3, <- app_assoc.
  - rewrite I4, H4, <- orb_assoc. do 2 f_equal. by apply existsb_ext.
  - rewrite I5, H5, (existsb_ext _ _ cats He), orb_false_iff. tauto.
Qed.

(** The row of a pool after the round. *)
Definition pool_row t (row : Tunnel) : Tunnel :=
  match Servers t.(pt_catalog) with Crawled servers => crawl_row t servers t.(pt_id) row | _ => row end.

Lemma crawl_row_other t servers id row : id <> t.(pt_id) -> crawl_row t servers id row = row.
Proof. intros Hne. unfold crawl_row. rewrite decide_False; [done|tauto]. Qed.

Lemma crawl_row_idem t servers id row :
  crawl_row t servers id (crawl_row t servers id row) = crawl_row t servers id row.
Proof. unfold crawl_row. repeat case_decide; done. Qed.

Lemma group_row_one servers ts t row :
  (forall t', t' ∈ ts -> t'.(pt_id) = t.(pt_id) -> t' = t) -> t ∈ ts ->
  group_row servers ts t.(pt_id) row = crawl_row t servers t.(pt_id) row.
Proof.
  intros Hu Hin. unfold group_row. apply foldl_once with (G := crawl_row t servers (pt_id t)).
  - intros b. apply crawl_row_idem.
  - intros t' Ht'. destruct (decide (pt_id t' = pt_id t)) as [He|He].
    + right. by rewrite (Hu t' Ht' He).
    + left. intros b. by apply crawl_row_other.
  - by exists t.
Qed.

Lemma group_row_none servers ts id row : (forall t, t ∈ ts -> t.(pt_id) <> id) -> group_row servers ts id row = row.
Proof. intros Hn. apply foldl_same. intros t Ht b. apply crawl_row_other. intros ->. by apply (Hn t Ht). Qed.

Lemma round_row_one enabled cats t row :
  (forall t', t' ∈ enabled -> t'.(pt_id) = t.(pt_id) -> t' = t) -> t ∈ enabled -> t.(pt_catalog) ∈ cats ->
  round_row enabled cats t.(pt_id) row = pool_row t row.
Proof.
  intros Hu Hin Hcat. unfold round_row. apply foldl_once with (G := pool_row t).
  - intros b. unfold pool_row. destruct (Servers _); [apply crawl_row_idem|done..].
  - intros c _. unfold catalog_row, pool_row. destruct (decide (c = pt_catalog t)) as [->|Hc].
    + right. intros b. destruct (Servers _); [|done..]. apply group_row_one.
      * intros t' [_ Ht']%list_elem_of_filter. by apply Hu.
      * by apply list_elem_of_filter.
    + left. intros b. destruct (Servers c); [|done..]. apply group_row_none.
      intros t' [Hc' Ht']%list_elem_of_filter He. apply Hc. by rewrite <- (Hu t' Ht' He).
  - exists (pt_catalog t). split; [done|]. intros b. unfold catalog_row, pool_row.
    destruct (Servers _); [|done..]. apply group_row_one.
    + intros t' [_ Ht']%list_elem_of_filter. by apply Hu.
    + by apply list_elem_of_filter.
Qed.

Lemma round_row_none enabled cats id row :
  (forall t, t ∈ enabled -> t.(pt_id) <> id) -> round_row enabled cats id row = row.
Proof.
  intros Hn. apply foldl_same. intros c _ b. unfold catalog_row. destruct (Servers c); [|done..].
  apply group_row_none. intros t [_ Ht]%list_elem_of_filter. by apply Hn.
Qed.

(** The pools of a round, and the trouble one can have. *)
Definition enabled_pools (tunnels : list PoolTunnel) := filter (fun t => t.(pt_enabled) = true) tunnels.
Definition pool_trouble d t : Prop :=
  match Servers t.(pt_catalog) with
  | Crawled servers => changes t servers = true /\ has_pool d t.(pt_id) = false
  | Busy => False
  | CrawlFailed => True
  end.
Definition pool_news t : Prop :=
  match Servers t.(pt_catalog) with Crawled servers => changes t servers = true | _ => False end.

Lemma catalog_error_true d enabled cats :
  (forall c, c ∈ cats <-> exists t, t ∈ enabled /\ t.(pt_catalog) = c) ->
  existsb (catalog_error d enabled) cats = true <-> exists t, t ∈ enabled /\ pool_trouble d t.
Proof.
  intros Hcats. rewrite existsb_exists. unfold catalog_error, pool_trouble. split.
  - intros (c & Hc & He). rewrite <- list_elem_of_In, Hcats in Hc. destruct Hc as (t & Ht & <-).
    destruct (Servers (pt_catalog t)) as [s| |] eqn:Hs; [|done|exists t; by rewrite Hs].
    apply existsb_exists in He as (t' & Ht' & He). apply list_elem_of_In, list_elem_of_filter in Ht' as [Hc' Ht'].
    exists t'. rewrite Hc', Hs. unfold unwritable in He. split; [done|].
    apply andb_true_iff in He as [? ?%negb_true_iff]. done.
  - intros (t & Ht & He). exists (pt_catalog t). rewrite <- list_elem_of_In, Hcats. split; [by exists t|].
    destruct (Servers (pt_catalog t)) as [s| |]; [|done..]. apply existsb_exists. exists t.
    rewrite <- list_elem_of_In. split; [by apply list_elem_of_filter|]. unfold unwritable.
    destruct He as [-> ->]. done.
Qed.

Lemma catalog_news_true d enabled cats :
  (forall c, c ∈ cats <-> exists t, t ∈ enabled /\ t.(pt_catalog) = c) ->
  (forall t, t ∈ enabled -> ~ pool_trouble d t) ->
  existsb (catalog_news d enabled) cats = true <-> exists t, t ∈ enabled /\ pool_news t.
Proof.
  intros Hcats Hok. assert (Herr : existsb (catalog_error d enabled) cats = false).
  { apply not_true_iff_false. rewrite (catalog_error_true d enabled cats Hcats). naive_solver. }
  assert (Hc_err : forall c, c ∈ cats -> catalog_error d enabled c = false).
  { intros c Hc. apply not_true_iff_false. intros He. apply not_true_iff_false in Herr. apply Herr.
    apply existsb_exists. exists c. by rewrite <- list_elem_of_In. }
  rewrite existsb_exists. unfold catalog_news, pool_news. split.
  - intros (c & Hc & He). rewrite <- list_elem_of_In, Hcats in Hc. destruct Hc as (t & Ht & <-).
    destruct (Servers (pt_catalog t)) as [s| |] eqn:Hs; [|done..]. apply andb_true_iff in He as [_ He].
    apply existsb_exists in He as (t' & Ht' & He). apply list_elem_of_In, list_elem_of_filter in Ht' as [Hc' Ht'].
    exists t'. rewrite Hc', Hs. unfold written in He. split; [done|]. by apply andb_true_iff in He as [? _].
  - intros (t & Ht & He). exists (pt_catalog t). assert (Hc : pt_catalog t ∈ cats) by (apply Hcats; by exists t).
    rewrite <- list_elem_of_In. split; [done|]. destruct (Servers (pt_catalog t)) as [s| |] eqn:Hs; [|done..].
    rewrite Hc_err by done. apply existsb_exists. exists t. rewrite <- list_elem_of_In.
    split; [by apply list_elem_of_filter|]. unfold written. rewrite He. cbn [andb].
    destruct (has_pool d (pt_id t)) eqn:Hp; [done|]. exfalso. apply (Hok t Ht). unfold pool_trouble. by rewrite Hs.
Qed.

(** a round of the schedule.  It visits the catalogue of every pool that is
    switched on, each once however many pools share it, and no other.  Every
    such pool whose crawl succeeded gets exactly its merged list, if that
    differs from the one it had; a failed or busy crawl leaves the stored list
    alone, and so do the errors of other pools; everything else in the database
    stays as it was and well formed.  The round reports no error exactly when
    no crawl failed and no changed pool had vanished, and then it announces an
    update exactly when some list changed. *)
Theorem Refresh_correct tunnels d :
  wf d -> NoDup (pt_id <$> tunnels) ->
  let r := Refresh countries Servers now tunnels d in
  let d' := r.(rd_db) in
  let enabled := enabled_pools tunnels in
  NoDup r.(rd_crawls) /\ (forall c, c ∈ r.(rd_crawls) <-> exists t, t ∈ enabled /\ t.(pt_catalog) = c) /\
  wf d' /\ d' = set_tunnels (Db.tunnels d') d /\
  (forall t, t ∈ enabled -> Db.tunnels d' !! t.(pt_id) = pool_row t <$> Db.tunnels d !! t.(pt_id)) /\
  (forall id, (forall t, t ∈ enabled -> t.(pt_id) <> id) -> Db.tunnels d' !! id = Db.tunnels d !! id) /\
  (r.(rd_errors) = O <-> forall t, t ∈ enabled -> ~ pool_trouble d t) /\
  (r.(rd_errors) = O -> r.(rd_changed) = true <-> exists t, t ∈ enabled /\ pool_news t) /\
  (r.(rd_errors) = O -> r.(rd_changed) = false -> d' = d).
Proof.
  intros Hd Hnd. cbv zeta. unfold Refresh. fold (enabled_pools tunnels). set (enabled := enabled_pools tunnels).
  set (cats := dedup_from [] (pt_catalog <$> enabled)).
  destruct (round_eq enabled cats (MkRound d false 0 []) Hd) as (H1 & H2 & H3 & H4 & H5).
  set (r := foldl _ _ _) in *. cbn [rd_db rd_changed rd_errors rd_crawls] in *.
  assert (Hcats : forall c, c ∈ cats <-> exists t, t ∈ enabled /\ pt_catalog t = c).
  { intros c. unfold cats. rewrite elem_of_dedup_from, list_elem_of_fmap. setoid_rewrite elem_of_nil. naive_solver. }
  assert (Huniq : forall t t', t ∈ enabled -> t' ∈ enabled -> pt_id t' = pt_id t -> t' = t).
  { intros t t' [_ Ht]%list_elem_of_filter [_ Ht']%list_elem_of_filter He. by apply (NoDup_map_inj pt_id tunnels). }
  assert (Hone : forall t, t ∈ enabled -> Db.tunnels (rd_db r) !! pt_id t = pool_row t <$> Db.tunnels d !! pt_id t).
  { intros t Ht. rewrite (rewrites_lookup _ _ _ _ H2).
    destruct (Db.tunnels d !! pt_id t) as [row|]; [|done]. simpl. f_equal. apply round_row_one; [|done|].
    - intros t' Ht'. by apply Huniq.
    - apply Hcats. by exists t. }
  assert (Herr : rd_errors r = O <-> forall t, t ∈ enabled -> ~ pool_trouble d t).
  { rewrite H5, <- not_true_iff_false, (catalog_error_true d enabled cats Hcats). naive_solver. }
  assert (Hnews : rd_errors r = O -> rd_changed r = true <-> exists t, t ∈ enabled /\ pool_news t).
  { intros He. rewrite H4. apply catalog_news_true; [done|]. by apply Herr. }
  split_and!; try done.
  - rewrite H3. apply NoDup_dedup_from.
  - intros c. by rewrite H3.
  - by rewrite H2.
  - intros id Hid. rewrite (rewrites_lookup _ _ _ _ H2). destruct (Db.tunnels d !! id) as [row|]; [|done].
    simpl. f_equal. by apply round_row_none.
  - intros He Hch. rewrite H2. symmetry. apply rewrites_id. intros id row Hrow.
    apply foldl_same. intros c _ b. unfold catalog_row. destruct (Servers c) as [s| |] eqn:Hs; [|done..].
    apply foldl_same. intros t [Hc Ht]%list_elem_of_filter b'. unfold crawl_row. apply decide_False.
    intros (_ & _ & Hchg). apply not_true_iff_false in Hch. apply Hch, (Hnews He). exists t. split; [done|].
    unfold pool_news. by rewrite Hc, Hs.
Qed.
End refresh_lemmas.

(** ** Witnesses *)
#[local] Existing Instances ascii_unicode ascii_runes.

Definition node_catalog (url : string) : crawl := if decide (url = "https://list"%string) then Crawled node_fresh else Busy.

Lemma Refresh_correct_witness :
  let r := Refresh ["RU"%string] node_catalog 7 (PoolTunnels [sample_pool; sample_wg]) sample_db in
  r.(rd_errors) = O /\ r.(rd_changed) = true /\
  (t_pool <$> Db.tunnels r.(rd_db) !! "pool"%string) = Some [node "a" 10 0; node "d" 20 0; node "e" 80 0].
Proof.
  destruct (Refresh_correct ["RU"%string] node_catalog 7 (PoolTunnels [sample_pool; sample_wg]) sample_db)
    as (_ & _ & _ & _ & Hrow & _ & Herr & Hnews & _).
  { exact sample_wf. }
  { apply (bool_decide_eq_true_1 (NoDup _)). vm_compute. reflexivity. }
  assert (Hok : forall t, t ∈ enabled_pools (PoolTunnels [sample_pool; sample_wg]) -> t = PoolTunnelFrom sample_pool).
  { intros t [->|[]%elem_of_nil]%elem_of_cons. reflexivity. }
  assert (He := proj2 Herr). split; [|split].
  - apply He. intros t ->%Hok. vm_compute. intros [_ [=]].
  - apply Hnews.
    + apply He. intros t ->%Hok. vm_compute. intros [_ [=]].
    + exists (PoolTunnelFrom sample_pool). split; [by left|]. vm_compute. reflexivity.
  - change "pool"%string with (pt_id (PoolTunnelFrom sample_pool)).
    rewrite Hrow by by left. vm_compute. reflexivity.
Defined.

(** A pool that vanished silences the update of the pools it shares the
    catalogue with: the list is written, but no update is announced. *)
Example vanished_pool_silences_update :
  let gone := MkPoolTunnel "gone" "Gone" "https://list" true [] in
  let r := Refresh ["RU"%string] node_catalog 7 [PoolTunnelFrom sample_pool; gone] sample_db in
  r.(rd_changed) = false /\
  (t_pool <$> Db.tunnels r.(rd_db) !! "pool"%string) = Some [node "a" 10 0; node "d" 20 0; node "e" 80 0].
Proof. vm_compute. split; reflexivity. Qed.
