(* ===== verification/IPPolicy.v ===== *)
(** * Local addresses

    [internal/ippolicy/private.go]: the boundary the packet filter and the
    generated configuration share. *)

From S2P Require Import Prelude.

(** [LocalIPv4] *)
Definition LocalIPv4 : list string :=
  ["0.0.0.0/8"; "10.0.0.0/8"; "127.0.0.0/8"; "169.254.0.0/16"; "172.16.0.0/12"; "192.168.0.0/16";
   "224.0.0.0/4"; "240.0.0.0/4"].
