(* ===== verification/GoJson.v ===== *)
(** * JSON values

    What the configuration generator uses of [encoding/json]: decoding a text
    into an object of raw members ([map[string]json.RawMessage]), decoding a
    string, and the matching of struct fields to keys.  A raw message is the
    value it denotes; an object that was marshalled from a Go map is a list of
    members in the order of its keys. *)

From Stdlib Require Import Ascii.
From S2P Require Import Prelude GoStd.
#[local] Open Scope Z_scope.

Inductive json :=
  | JNull
  | JBool (b : bool)
  | JNum (raw : string)
  | JStr (s : string)
  | JArr (l : list json)
  | JObj (l : list (string * json)).

(** ** The parser *)

(** [utf8.EncodeRune] for a code point that is not a surrogate. *)
Definition encode_rune (c : Z) : string :=
  byte_string
    (if decide (c < 128) then [c]
     else if decide (c < 2048) then [192 + c / 64; 128 + c mod 64]
     else if decide (c < 65536) then [224 + c / 4096; 128 + c / 64 mod 64; 128 + c mod 64]
     else [240 + c / 262144; 128 + c / 4096 mod 64; 128 + c / 64 mod 64; 128 + c mod 64]).
Definition ReplacementChar : Z := 0xFFFD.

(** [getu4]: [\uXXXX] at the start of the string. *)
Definition getu4 (s : string) : option (Z * string) :=
  match s with
  | String b (String "u" (String d1 (String d2 (String d3 (String d4 s'))))) =>
      if decide (byte_of b = 92) then
        match hex_digit d1, hex_digit d2, hex_digit d3, hex_digit d4 with
        | Some a, Some b, Some c, Some d => Some (((a * 16 + b) * 16 + c) * 16 + d, s')
        | _, _, _, _ => None
        end
      else None
  | _ => None
  end.

Definition unescape (c : ascii) : option Z :=
  match byte_of c with
  | 34 => Some 34 | 92 => Some 92 | 47 => Some 47
  | 98 => Some 8 | 102 => Some 12 | 110 => Some 10 | 114 => Some 13 | 116 => Some 9
  | _ => None
  end.

(** A [\u] escape, with the second half of a surrogate pair if there is one. *)
Definition unescape_u (s : string) : option (string * string) :=
  '(r, s1) ← getu4 s;
  if decide (0xD800 <= r < 0xE000) then
    match getu4 s1 with
    | Some (r2, s2) =>
        if decide (r < 0xDC00 /\ 0xDC00 <= r2 < 0xE000)
        then Some (encode_rune ((r - 0xD800) * 1024 + (r2 - 0xDC00) + 0x10000), s2)
        else Some (encode_rune ReplacementChar, s1)
    | None => Some (encode_rune ReplacementChar, s1)
    end
  else Some (encode_rune r, s1).

(** The text of a string literal after its opening quote, and the rest. *)
Fixpoint string_lit (fuel : nat) (s : string) : option (string * string) :=
  match fuel, s with
  | S f, String c s' =>
      if decide (byte_of c = 34) then Some (EmptyString, s')
      else if decide (byte_of c < 32) then None
      else if decide (byte_of c = 92) then
        match s' with
        | String "u" _ =>
            '(w, r) ← unescape_u s; '(t, r) ← string_lit f r; Some (w +:+ t, r)
        | String e s'' =>
            w ← unescape e; '(t, r) ← string_lit f s''; Some (encode_rune w +:+ t, r)
        | EmptyString => None
        end
      else if decide (byte_of c < 128) then '(t, r) ← string_lit f s'; Some (String c t, r)
      else if decide (rune_size s = 1%nat) then
        '(t, r) ← string_lit f s'; Some (encode_rune ReplacementChar +:+ t, r)
      else
        '(t, r) ← string_lit f (drop_string (rune_size s) s);
        Some (String.substring 0 (rune_size s) s +:+ t, r)
  | _, _ => None
  end.

Definition taken (s rest : string) : string := String.substring 0 (String.length s - String.length rest) s.

Fixpoint parse_value (fuel : nat) (s : string) : option (json * string) :=
  match fuel with
  | O => None
  | S f =>
      match Json.skip_ws s with
      | String "{" s' =>
          match Json.skip_ws s' with
          | String "}" r => Some (JObj [], r)
          | _ => '(l, r) ← parse_members f s'; Some (JObj l, r)
          end
      | String "[" s' =>
          match Json.skip_ws s' with
          | String "]" r => Some (JArr [], r)
          | _ => '(l, r) ← parse_elems f s'; Some (JArr l, r)
          end
      | String "-" s' => r ← Json.number s'; Some (JNum ("-" +:+ taken s' r), r)
      | String c s' =>
          if decide (byte_of c = 34) then '(t, r) ← string_lit (String.length s') s'; Some (JStr t, r)
          else if Json.is_digit c then r ← Json.number (String c s'); Some (JNum (taken (String c s') r), r)
          else match strip_prefix "true" (String c s'), strip_prefix "false" (String c s'),
                     strip_prefix "null" (String c s') with
               | Some r, _, _ => Some (JBool true, r)
               | _, Some r, _ => Some (JBool false, r)
               | _, _, Some r => Some (JNull, r)
               | _, _, _ => None
               end
      | EmptyString => None
      end
  end
with parse_members (fuel : nat) (s : string) : option (list (string * json) * string) :=
  match fuel with
  | O => None
  | S f =>
      match Json.skip_ws s with
      | String q s' =>
          if decide (byte_of q = 34) then
            '(k, r) ← string_lit (String.length s') s';
            match Json.skip_ws r with
            | String ":" r =>
                '(v, r) ← parse_value f r;
                match Json.skip_ws r with
                | String "," r => '(l, r) ← parse_members f r; Some ((k, v) :: l, r)
                | String "}" r => Some ([(k, v)], r)
                | _ => None
                end
            | _ => None
            end
          else None
      | EmptyString => None
      end
  end
with parse_elems (fuel : nat) (s : string) : option (list json * string) :=
  match fuel with
  | O => None
  | S f =>
      '(v, r) ← parse_value f s;
      match Json.skip_ws r with
      | String "," r => '(l, r) ← parse_elems f r; Some (v :: l, r)
      | String "]" r => Some ([v], r)
      | _ => None
      end
  end.

(** The fuel is the one of [Json.Valid]: two nested calls per byte. *)
Definition parse (s : string) : option json :=
  match parse_value (2 * String.length s + 2) s with
  | Some (v, r) => if decide (Json.skip_ws r = EmptyString) then Some v else None
  | None => None
  end.

(** ** Objects *)
Abbreviation fields := (list (string * json)) (only parsing).

(** Assignment into the Go map, in the order in which it is marshalled. *)
Fixpoint set_field (k : string) (v : json) (l : fields) : fields :=
  match l with
  | [] => [(k, v)]
  | (k', v') :: l =>
      match String.compare k k' with
      | Lt => (k, v) :: (k', v') :: l
      | Eq => (k, v) :: l
      | Gt => (k', v') :: set_field k v l
      end
  end.
Definition delete_field (k : string) (l : fields) : fields := filter (fun p => p.1 <> k) l.
Fixpoint get_field (k : string) (l : fields) : option json :=
  match l with
  | [] => None
  | (k', v) :: l => if decide (k' = k) then Some v else get_field k l
  end.

(** [json.Unmarshal] into a nil [map[string]json.RawMessage]; [None] inside is
    the nil map that [null] leaves. *)
Definition unmarshal_fields (v : json) : option (option fields) :=
  match v with
  | JNull => Some None
  | JObj l => Some (Some (foldl (fun m p => set_field p.1 p.2 m) [] l))
  | _ => None
  end.
(** [json.Unmarshal] into a string variable that was empty. *)
Definition unmarshal_string (v : json) : option string :=
  match v with JNull => Some EmptyString | JStr s => Some s | _ => None end.

(** [foldName]: the keys that select a struct field with an ASCII name. *)
Fixpoint fold_name (s : string) : string :=
  match s with
  | String a (String b (String c s' as s2) as s1) =>
      if decide ([byte_of a; byte_of b; byte_of c] = [0xE2; 0x84; 0xAA]) then String "k" (fold_name s')
      else if decide ([byte_of a; byte_of b] = [0xC5; 0xBF]) then String "s" (fold_name s2)
      else String (lower_ascii a) (fold_name s1)
  | String a (String b EmptyString as s1) =>
      if decide ([byte_of a; byte_of b] = [0xC5; 0xBF]) then "s"%string
      else String (lower_ascii a) (fold_name s1)
  | String a s => String (lower_ascii a) (fold_name s)
  | EmptyString => EmptyString
  end.
(** The values decoded into a struct field, in the order of the keys; the last
    one stays. *)
Definition struct_field (name : string) (l : fields) : list json :=
  map snd (filter (fun p => fold_name p.1 = name) l).

(** The quotation mark, to write JSON texts. *)
Definition q : string := String "034" EmptyString.
Example parse_ex :
  parse (" {" +:+ q +:+ "a" +:+ q +:+ ": [1, true], " +:+ q +:+ "b\u0041" +:+ q +:+ ":null }") =
  Some (JObj [("a", JArr [JNum "1"; JBool true]); ("bA", JNull)])%string.
Proof. vm_compute. reflexivity. Qed.

(** ** Lemmas *)
Lemma String_compare_refl s : String.compare s s = Eq.
Proof.
  induction s as [|c s IH]; simpl; [done|].
  unfold Ascii.compare. by rewrite N.compare_refl.
Qed.

Lemma get_set_field k k' v l :
  get_field k (set_field k' v l) = if decide (k' = k) then Some v else get_field k l.
Proof.
  induction l as [|[k1 v1] l IH]; simpl; [done|].
  destruct (String.compare k' k1) eqn:Hc; simpl.
  - apply String.compare_eq_iff in Hc as <-. by repeat case_decide.
  - by repeat case_decide.
  - rewrite IH. repeat case_decide; try done. subst. by rewrite String_compare_refl in Hc.
Qed.

Lemma get_delete_field k k' l :
  get_field k (delete_field k' l) = if decide (k = k') then None else get_field k l.
Proof.
  unfold delete_field. induction l as [|[k1 v1] l IH]; simpl; [by case_decide|].
  rewrite filter_cons. simpl. destruct (decide (k1 <> k')) as [Hk|Hk]; simpl.
  - rewrite IH. repeat case_decide; naive_solver.
  - apply dec_stable in Hk as ->. rewrite IH. repeat case_decide; naive_solver.
Qed.
