(* ===== verification/JsonText.v ===== *)
(** * Writing JSON

    The compact text [json.Marshal] writes for a value, with the escapes of its
    strings, and the theorem that the parser reads it back when the strings
    need no escape. *)

From Stdlib Require Import Ascii DecimalString DecimalFacts DecimalPos DecimalZ.
From S2P Require Import Prelude GoStd Netip GoJson.
#[local] Open Scope Z_scope.

#[local] Arguments String.append : simpl nomatch.

(** ** The encoder *)
Definition char (b : Z) : ascii := ascii_of_N (Z.to_N b).

(** [htmlSafeSet] *)
Definition html_safe (b : Z) : bool := (32 <=? b) && (b <? 128) && negb (bool_decide (b ∈ [34; 38; 60; 62; 92])).
Definition unicode_escape (b : Z) : string :=
  String (char 92) ("u00" +:+ String (hex_char (b / 16)) (String (hex_char (b mod 16)) EmptyString)).
Definition escape_byte (b : Z) : string :=
  match b with
  | 34 | 92 => String (char 92) (String (char b) EmptyString)
  | 8 => String (char 92) "b" | 12 => String (char 92) "f" | 10 => String (char 92) "n"
  | 13 => String (char 92) "r" | 9 => String (char 92) "t"
  | _ => unicode_escape b
  end.

(** [appendString] with [escapeHTML], after the opening quote. *)
Fixpoint escape (fuel : nat) (s : string) : string :=
  match fuel, s with
  | S f, String c s' =>
      let b := byte_of c in
      if html_safe b then String c (escape f s')
      else if decide (b < 128) then escape_byte b +:+ escape f s'
      else if decide (rune_size s = 1%nat) then String (char 92) "ufffd" +:+ escape f s'
      else let rune := String.substring 0 (rune_size s) s in
           (if decide (rune = byte_string [0xE2; 0x80; 0xA8]) then String (char 92) "u2028"
            else if decide (rune = byte_string [0xE2; 0x80; 0xA9]) then String (char 92) "u2029"
            else rune) +:+ escape f (drop_string (rune_size s) s)
  | _, _ => EmptyString
  end.
Definition quoted (s : string) : string := q +:+ escape (String.length s) s +:+ q.

Fixpoint encode (v : json) : string :=
  match v with
  | JNull => "null"
  | JBool b => if b then "true" else "false"
  | JNum raw => raw
  | JStr s => quoted s
  | JArr l => "[" +:+ Join (map encode l) "," +:+ "]"
  | JObj l => "{" +:+ Join (map (fun p => quoted p.1 +:+ ":" +:+ encode p.2) l) "," +:+ "}"
  end.

Example encode_ex :
  encode (JObj [("a", JArr [JNum "1"; JBool true]); ("b", JObj []); ("c", JStr ("<x" +:+ byte_string [10; 0xE2; 0x80; 0xA8]))])%string =
  "{" +:+ q +:+ "a" +:+ q +:+ ":[1,true]," +:+ q +:+ "b" +:+ q +:+ ":{}," +:+ q +:+ "c" +:+ q +:+ ":" +:+ q +:+ String (char 92) "u003cx" +:+
  String (char 92) "n" +:+ String (char 92) "u2028" +:+ q +:+ "}".
Proof. vm_compute. reflexivity. Qed.

(** ** What reads back *)
Definition plain_text (s : string) : bool := all_bytes html_safe s.
Definition plain_number (raw : string) : bool :=
  match raw with
  | String c s => all_bytes (fun b => (48 <=? b) && (b <=? 57)) raw && (bool_decide (s = EmptyString) || negb (byte_of c =? 48))
  | EmptyString => false
  end.
Fixpoint plain_json (v : json) : bool :=
  match v with
  | JNull | JBool _ => true
  | JNum raw => plain_number raw
  | JStr s => plain_text s
  | JArr l => forallb plain_json l
  | JObj l => forallb (fun p => plain_text p.1 && plain_json p.2) l
  end.

(** The rest of the text does not continue a number. *)
Definition after_value (s : string) : Prop :=
  match s with
  | EmptyString => True
  | String c _ => Json.is_digit c = false /\ c <> "."%char /\ c <> "e"%char /\ c <> "E"%char
  end.

Lemma html_safe_byte b : html_safe b = true -> 32 <= b < 128 /\ b <> 34 /\ b <> 92.
Proof. unfold html_safe. intros H. reflect_bools. split; [lia|]. set_solver. Qed.

Lemma escape_plain s n : plain_text s = true -> (String.length s <= n)%nat -> escape n s = s.
Proof.
  unfold plain_text. revert n. induction s as [|c s IH]; intros n H Hn; [by destruct n|]. destruct n as [|n]; [simpl in Hn; lia|].
  cbn [all_bytes] in H. reflect_bools. cbn [escape]. cbv zeta. rewrite H. f_equal. apply IH; [done|simpl in Hn; lia].
Qed.

Lemma string_lit_plain s rest n : plain_text s = true -> (String.length s < n)%nat -> string_lit n (s +:+ q +:+ rest) = Some (s, rest).
Proof.
  unfold plain_text. revert n. induction s as [|c s IH]; intros n H Hn; (destruct n as [|n]; [simpl in Hn; lia|]); [done|].
  cbn [all_bytes] in H. reflect_bools. apply html_safe_byte in H as (Hb & H34 & H92). rewrite append_cons. cbn [string_lit].
  rewrite !decide_False by lia. rewrite decide_True by lia. rewrite IH by (done || simpl in Hn; lia). done.
Qed.

Lemma digits_all s rest : all_bytes (fun b => (48 <=? b) && (b <=? 57)) s = true -> after_value rest -> Json.digits (s +:+ rest) = rest.
Proof.
  induction s as [|c s IH]; cbn [all_bytes]; intros H Hr.
  - destruct rest as [|c s]; [done|]. destruct Hr as (Hd & _). cbn. by rewrite Hd.
  - reflect_bools. rewrite append_cons. cbn [Json.digits]. replace (Json.is_digit c) with true; [by apply IH|].
    symmetry. unfold Json.is_digit. apply bool_decide_eq_true_2. lia.
Qed.

Lemma number_tail rest : after_value rest -> (r ← Json.frac rest; Json.expo r) = Some rest.
Proof.
  intros H. destruct rest as [|c s]; [done|]. destruct H as (_ & Hd & He & HE).
  assert (Json.frac (String c s) = Some (String c s)) as ->.
  { destruct c as [[] [] [] [] [] [] [] []]; try done; by destruct Hd. }
  cbn [mbind option_bind]. destruct c as [[] [] [] [] [] [] [] []]; try done; first [by destruct He|by destruct HE].
Qed.

Lemma number_plain raw rest : plain_number raw = true -> after_value rest -> Json.number (raw +:+ rest) = Some rest.
Proof.
  intros H Hr. destruct raw as [|c s]; [done|]. cbn [plain_number all_bytes] in H. reflect_bools.
  rewrite append_cons. unfold Json.number.
  destruct (decide (c = "0"%char)) as [->|Hc].
  - assert (s = EmptyString) as ->. { apply orb_true_iff in H0 as [H0|H0]; [by reflect_bools|done]. }
    change (EmptyString +:+ rest) with rest. apply (number_tail _ Hr).
  - assert (Hd : Json.digits1 (String c (s +:+ rest)) = Some rest).
    { cbn [Json.digits1]. replace (Json.is_digit c) with true; [by rewrite digits_all|].
      symmetry. unfold Json.is_digit. apply bool_decide_eq_true_2. lia. }
    transitivity (r ← Json.digits1 (String c (s +:+ rest)); r ← Json.frac r; Json.expo r).
    { destruct c as [[] [] [] [] [] [] [] []]; try done; by destruct Hc. }
    rewrite Hd. apply (number_tail _ Hr).
Qed.

(** ** Reading back *)
Lemma json_nested_ind (P : json -> Prop) :
  P JNull -> (forall b, P (JBool b)) -> (forall raw, P (JNum raw)) -> (forall s, P (JStr s)) ->
  (forall l, Forall P l -> P (JArr l)) -> (forall l, Forall (fun p => P p.2) l -> P (JObj l)) -> forall v, P v.
Proof.
  intros Hn Hb Hr Hs Ha Ho. fix IH 1. intros [|b|raw|s|l|l]; [done|done|done|done| |].
  - apply Ha. induction l as [|v l IHl]; constructor; [apply IH|apply IHl].
  - apply Ho. induction l as [|[k v] l IHl]; constructor; [apply IH|apply IHl].
Qed.

Lemma substring_prefix a b : String.substring 0 (String.length a) (a +:+ b) = a.
Proof. induction a as [|c a IH]; [by destruct b|]. rewrite append_cons. cbn. by rewrite IH. Qed.
Lemma string_length_app a b : String.length (a +:+ b) = (String.length a + String.length b)%nat.
Proof. induction a as [|c a IH]; [done|]. rewrite append_cons. cbn. by rewrite IH. Qed.
Lemma taken_prefix a b : taken (a +:+ b) b = a.
Proof. unfold taken. rewrite string_length_app. replace (_ - _)%nat with (String.length a) by lia. apply substring_prefix. Qed.

Lemma quoted_plain s : plain_text s = true -> quoted s = q +:+ s +:+ q.
Proof. intros H. unfold quoted. by rewrite escape_plain. Qed.

Lemma encode_head v : plain_json v = true ->
  exists c s, encode v = String c s /\ Json.is_ws c = false /\ c <> "]"%char /\ c <> "}"%char.
Proof.
  destruct v as [|[]|raw|s|l|l]; cbn [encode]; intros H; try by (eexists _, _; split; [reflexivity|]).
  cbn [plain_json] in H. destruct raw as [|c s]; [done|]. eexists _, _. split; [reflexivity|]. cbn [plain_number all_bytes] in H. reflect_bools.
  repeat split.
  - unfold Json.is_ws. apply bool_decide_eq_false_2. rewrite !elem_of_cons, elem_of_nil. lia.
  - intros ->. done.
  - intros ->. done.
Qed.

Lemma skip_ws_head c s : Json.is_ws c = false -> Json.skip_ws (String c s) = String c s.
Proof. cbn. by intros ->. Qed.

Definition reads (v : json) : Prop :=
  forall fuel rest, plain_json v = true -> after_value rest -> (2 * String.length (encode v) <= fuel)%nat ->
  parse_value fuel (encode v +:+ rest) = Some (v, rest).

Lemma Join_cons (x y : string) l sep : Join (x :: y :: l) sep = x +:+ sep +:+ Join (y :: l) sep.
Proof. done. Qed.

Lemma reads_elems l fuel rest : Forall reads l -> l <> [] -> forallb plain_json l = true ->
  (2 * String.length (Join (map encode l) ",") + 1 <= fuel)%nat ->
  parse_elems fuel (Join (map encode l) "," +:+ String "]" rest) = Some (l, rest).
Proof.
  intros Hl. revert fuel. induction Hl as [|v l Hv Hl IH]; intros fuel Hne Hp Hf; [done|].
  cbn [forallb] in Hp. reflect_bools. destruct fuel as [|fuel]; [lia|]. destruct l as [|w l].
  - cbn [map Join] in *. cbn [parse_elems]. rewrite Hv by (done || lia). done.
  - cbn [map] in *. rewrite Join_cons in *. rewrite !string_length_app in Hf. cbn [String.length] in Hf.
    rewrite !append_assoc, append_cons, char_append || rewrite !append_assoc, append_cons.
    cbn [parse_elems]. rewrite Hv by (done || lia). cbn [mbind option_bind].
    change (EmptyString +:+ ?x) with x.
    rewrite (skip_ws_head ","%char) by done. rewrite IH by (done || lia). done.
Qed.

Abbreviation member p := (quoted p.1 +:+ ":" +:+ encode p.2) (only parsing).

Lemma reads_members (l : list (string * json)) fuel rest : Forall (fun p => reads p.2) l -> l <> [] ->
  forallb (fun p => plain_text p.1 && plain_json p.2) l = true ->
  (2 * String.length (Join (map (fun p => member p) l) ",") + 1 <= fuel)%nat ->
  parse_members fuel (Join (map (fun p => member p) l) "," +:+ String "}" rest) = Some (l, rest).
Proof.
  intros Hl. revert fuel. induction Hl as [|[k v] l Hv Hl IH]; intros fuel Hne Hp Hf; [done|].
  cbn [forallb fst snd] in *. reflect_bools. destruct fuel as [|fuel]; [lia|].
  assert (Hm : forall tail, (2 * String.length (quoted k +:+ ":" +:+ encode v) <= S fuel)%nat -> after_value tail ->
    parse_members (S fuel) ((quoted k +:+ ":" +:+ encode v) +:+ tail) =
      match Json.skip_ws tail with
      | String "," r => '(l, r) ← parse_members fuel r; Some ((k, v) :: l, r)
      | String "}" r => Some ([(k, v)], r)
      | _ => None
      end).
  { intros tail Hle Ht. rewrite quoted_plain in * by done. rewrite !string_length_app in Hle. cbn [String.length] in Hle.
    rewrite !append_assoc. change (q +:+ ?x) with (String "034" x). cbn [parse_members].
    rewrite skip_ws_head by done. rewrite decide_True by done.
    change (String "034" ?x) with (q +:+ x). rewrite string_lit_plain; [|done|rewrite !string_length_app; cbn [String.length]; lia].
    cbn [mbind option_bind]. change (":" +:+ ?x) with (String ":" x). rewrite skip_ws_head by done.
    rewrite Hv by (done || lia). done. }
  destruct l as [|p l].
  - cbn [map Join fst snd] in *. rewrite Hm by (done || lia). done.
  - cbn [map fst snd] in *. rewrite Join_cons in *. rewrite string_length_app in Hf. rewrite (string_length_app ",") in Hf. cbn [String.length] in Hf.
    rewrite append_assoc. rewrite (append_assoc "," _ _). change ("," +:+ ?x) with (String "," x).
    rewrite Hm by (done || lia). rewrite skip_ws_head by done. rewrite IH by (done || lia). done.
Qed.

Lemma reads_all v : reads v.
Proof.
  induction v as [|b|raw|s|l Hl|l Hl] using json_nested_ind; intros fuel rest Hp Hr Hf; cbn [encode plain_json] in *.
  1: destruct fuel as [|fuel]; [simpl in Hf; lia|done].
  1: destruct fuel as [|fuel]; [destruct b; simpl in Hf; lia|by destruct b].
  - destruct raw as [|c s] eqn:E; [done|]. destruct fuel as [|fuel]; [simpl in Hf; lia|]. rewrite <- E in *.
    pose proof (number_plain _ _ Hp Hr) as Hn. rewrite E in Hp. cbn [plain_number all_bytes] in Hp. reflect_bools.
    subst raw. rewrite append_cons in *. cbn [parse_value].
    assert (Hw : Json.is_ws c = false).
    { unfold Json.is_ws. apply bool_decide_eq_false_2. rewrite !elem_of_cons, elem_of_nil. lia. }
    rewrite skip_ws_head by done.
    assert (Hd : Json.is_digit c = true) by (unfold Json.is_digit; apply bool_decide_eq_true_2; lia).
    transitivity (r ← Json.number (String c (s +:+ rest)); Some (JNum (taken (String c (s +:+ rest)) r), r)).
    { rewrite Hd. destruct c as [[] [] [] [] [] [] [] []]; try done. }
    rewrite Hn. cbn [mbind option_bind]. rewrite <- append_cons. by rewrite taken_prefix.
  - destruct fuel as [|fuel]; [unfold quoted in Hf; change (q +:+ ?x) with (String "034" x) in Hf; cbn [String.length] in Hf; lia|].
    rewrite quoted_plain by done. rewrite !append_assoc. change (q +:+ s +:+ ?x) with (String "034" (s +:+ x)).
    cbn [parse_value]. rewrite skip_ws_head by done. rewrite decide_True by done.
    rewrite string_lit_plain; [done|done|rewrite !string_length_app; cbn [q String.length]; lia].
  - destruct fuel as [|fuel]; [simpl in Hf; lia|]. rewrite !append_assoc. change ("[" +:+ ?x) with (String "[" x).
    change ("]" +:+ ?x) with (String "]" x). cbn [parse_value]. rewrite skip_ws_head by done.
    rewrite !string_length_app in Hf. cbn [String.length] in Hf.
    destruct l as [|v l]; [done|].
    assert (Hh : exists c t, Join (map encode (v :: l)) "," +:+ String "]" rest = String c t /\ Json.is_ws c = false /\ c <> "]"%char).
    { cbn [forallb] in Hp. reflect_bools. destruct (encode_head v) as (c & t & E & Hw & Hc & _); [done|].
      destruct l; cbn [map Join]; rewrite E; by eexists _, _. }
    destruct Hh as (c & t & E & Hw & Hc). pose proof (reads_elems (v :: l) fuel rest Hl ltac:(done) Hp ltac:(lia)) as Hread.
    rewrite E in *. rewrite skip_ws_head by done. rewrite Hread.
    destruct c as [[] [] [] [] [] [] [] []]; try done; by destruct Hc.
  - destruct fuel as [|fuel]; [simpl in Hf; lia|]. rewrite !append_assoc. change ("{" +:+ ?x) with (String "{" x).
    change ("}" +:+ ?x) with (String "}" x). cbn [parse_value]. rewrite skip_ws_head by done.
    rewrite !string_length_app in Hf. cbn [String.length] in Hf.
    destruct l as [|[k v] l]; [done|].
    pose proof (reads_members ((k, v) :: l) fuel rest Hl ltac:(done) Hp ltac:(lia)) as Hread.
    assert (Hh : exists t, Join (map (fun p => member p) ((k, v) :: l)) "," +:+ String "}" rest = String "034" t).
    { destruct l; cbn [map Join fst]; unfold quoted; by eexists. }
    destruct Hh as [t E]. rewrite E in *. rewrite skip_ws_head by done. by rewrite Hread.
Qed.

(** The parser reads back what the encoder writes. *)
Lemma parse_encode v : plain_json v = true -> parse (encode v) = Some v.
Proof.
  intros Hp. unfold parse. rewrite <- (append_nil (encode v)) at 2. rewrite reads_all by (done || lia). done.
Qed.

(** ** Numbers that were written *)
Abbreviation is_digits := (all_bytes (fun b => (48 <=? b) && (b <=? 57))) (only parsing).

Lemma uint_digits u : is_digits (NilEmpty.string_of_uint u) = true.
Proof. induction u; [done|..]; cbn [NilEmpty.string_of_uint all_bytes]; by rewrite IHu. Qed.

Lemma uint_length u : String.length (NilEmpty.string_of_uint u) = Decimal.nb_digits u.
Proof. induction u; [done|..]; cbn; by rewrite IHu. Qed.

(** The digits of a number: normalized, and no more than its bits. *)
Lemma Itoa_digits z : 0 <= z -> exists u, Z.to_int z = Decimal.Pos u /\ Decimal.unorm u = u /\ u <> Decimal.Nil.
Proof.
  intros Hz. assert (Hu : exists u, Z.to_int z = Decimal.Pos u) by (destruct z as [|p|p]; [by eexists..|lia]).
  destruct Hu as [u Hu]. exists u. pose proof (DecimalZ.to_of (Z.to_int z)) as Hn. rewrite DecimalZ.of_to, Hu in Hn. cbn [Decimal.norm] in Hn.
  injection Hn as Hn. split; [done|]. split; [done|]. intros ->. done.
Qed.

Lemma Itoa_string u : u <> Decimal.Nil -> NilZero.string_of_uint u = NilEmpty.string_of_uint u.
Proof. by destruct u. Qed.

Lemma Itoa_number z : 0 <= z -> plain_number (Itoa z) = true.
Proof.
  intros Hz. destruct (Itoa_digits z Hz) as (u & Hu & Hn & Hne). unfold Itoa. rewrite Hu. cbn [NilZero.string_of_int].
  rewrite Itoa_string by done. pose proof (uint_digits u) as Hd.
  destruct u as [|u|u|u|u|u|u|u|u|u|u]; [done|..]; cbn [NilEmpty.string_of_uint] in *; cbn [plain_number]; rewrite Hd; cbn [andb];
    try (apply orb_true_r).
  destruct u as [|u|u|u|u|u|u|u|u|u|u]; [done|..]; exfalso; unfold Decimal.unorm in Hn; cbn [Decimal.nzhead] in Hn; try discriminate Hn.
  destruct (Decimal.nzhead u) eqn:E; try discriminate Hn. rewrite Hn in E. by apply DecimalFacts.nzhead_nonzero in E.
Qed.

Lemma ParseUint_Itoa z bits : 0 <= z < 2 ^ bits -> ParseUint (Itoa z) bits = Some z.
Proof.
  intros [Hz Hb]. destruct (Itoa_digits z Hz) as (u & Hu & _ & Hne). unfold ParseUint, Itoa. rewrite Hu. cbn [NilZero.string_of_int].
  assert (is_digits (NilZero.string_of_uint u) = true) as ->. { rewrite Itoa_string by done. apply uint_digits. }
  change (NilZero.string_of_uint u) with (NilZero.string_of_int (Decimal.Pos u)).
  rewrite NilZero.isi by (try done; by intros [= ->]). cbn [option_map]. rewrite <- Hu, DecimalZ.of_to. cbn [mbind option_bind].
  by rewrite decide_True.
Qed.

Lemma little_digits p : (Decimal.nb_digits (Pos.to_little_uint p) <= Pos.size_nat p)%nat.
Proof.
  assert (Hd : forall u, (Decimal.nb_digits (Decimal.Little.double u) <= S (Decimal.nb_digits u))%nat /\
                         (Decimal.nb_digits (Decimal.Little.succ_double u) <= S (Decimal.nb_digits u))%nat).
  { induction u; cbn; lia. }
  induction p as [p IH|p IH|]; cbn [Pos.to_little_uint Pos.size_nat]; [..|done]; destruct (Hd (Pos.to_little_uint p)); lia.
Qed.

Lemma Itoa_length z n : 0 <= z < 2 ^ Z.of_nat n -> (0 < n)%nat -> (String.length (Itoa z) <= n)%nat.
Proof.
  intros [Hz Hb] Hn. destruct (Itoa_digits z Hz) as (u & Hu & _ & Hne). unfold Itoa. rewrite Hu. cbn [NilZero.string_of_int].
  rewrite Itoa_string, uint_length by done. destruct z as [|p|p]; [injection Hu as <-; cbn; lia| |lia].
  cbn in Hu. injection Hu as <-. unfold Pos.to_uint. rewrite DecimalFacts.nb_digits_rev.
  apply Nat.le_trans with (Pos.size_nat p); [apply little_digits|].
  assert (Hs : forall p n, Z.pos p < 2 ^ Z.of_nat n -> (Pos.size_nat p <= n)%nat).
  { clear. induction p as [p IH|p IH|]; intros n H; cbn [Pos.size_nat].
    1, 2: destruct n as [|n]; [simpl in H; lia|]; apply le_n_S, IH; rewrite Nat2Z.inj_succ, Z.pow_succ_r in H by lia; lia.
    destruct n; [simpl in H; lia|lia]. }
  by apply Hs.
Qed.
