(* ===== verification/SingBox.v ===== *)
(** * Parts of the sing-box configuration

    [internal/singbox]: constants and tags ([singbox.go]), tunnels
    ([tunnel.go], [pool.go]), DNS ([dns.go]), rule sets ([ruleset.go]) and the
    parent aliases of WireGuard endpoints ([chain_alias.go]).  The sing-box
    option structs are records with the fields the generator sets. *)

From Stdlib Require Import Ascii.
From S2P Require Import Prelude GoStd Model GoJson SettingsStore PoolFilter.
#[local] Open Scope Z_scope.

(** ** What this layer asks of others *)

(** A parsed proxy link as far as the generator looks into it: the TLS section
    with its flag that turns certificate checks off. *)
Record Member := MkMember { mb_type : string; mb_insecure : option bool; mb_body : string }.

(** The link parser: [None] for an error and [Some None] for a result that is
    no outbound.  Which servers are admitted is the interface [PoolPolicy]. *)
Class PoolSource := { Parse : string -> option (option Member) }.

(** [url.Parse(raw).Path], if the text parses, and [sha256.Sum256]. *)
Class Platform := {
  URLPath : string -> option string;
  Sum256 : string -> string
}.

(** ** Constants and tags *)
Definition TagDirect : string := "direct-out".
Definition TagDNSIn : string := "dns-in".
Definition TagTProxyIn : string := "tproxy-in".
Definition TagDNSUpstream : string := "upstream".
Definition TagDNSBootstrap : string := "bootstrap".
Definition TagDNSFakeIP : string := "fakeip".
Definition tproxyListen : string := "127.0.0.1".
Definition tproxyPort : Z := 1602.
Definition clashListen : string := "127.0.0.1:9090".
Definition dnsPort : Z := 53.
Definition bootstrapAddr : string := "1.1.1.1".
Definition cacheFile : string := "/var/lib/sing-box/cache.db".
Definition fakeIPTTL : Z := 60.
Definition fakeIPRange : string := "198.18.0.0/15".
Definition communityListURL (key : string) : string :=
  "https://github.com/itdoginfo/allow-domains/releases/latest/download/" +:+ key +:+ ".srs".

Definition TunnelTag (id : string) : string := "tun-" +:+ id.
Definition ChainTag (viaID firstID : string) : string := "chain-" +:+ viaID +:+ "-via-" +:+ firstID.
Definition ruleSetTag (id : string) : string := "rule-" +:+ id.
Definition communityTag (key : string) : string := "list-" +:+ key.
Definition remoteListTag (ruleID : string) (i : nat) : string :=
  "rule-" +:+ ruleID +:+ "-remote-" +:+ Itoa (Z.of_nat i).
Definition plainListTag (ruleID : string) (i : nat) : string :=
  "rule-" +:+ ruleID +:+ "-plain-" +:+ Itoa (Z.of_nat i).
Definition poolMemberTag (tunnelID : string) (i : nat) : string :=
  TunnelTag tunnelID +:+ "-" +:+ Itoa (Z.of_nat i).

(** Types of sing-box objects. *)
Definition TypeDirect : string := "direct".
Definition TypeWireGuard : string := "wireguard".
Definition TypeURLTest : string := "urltest".
Definition TypeSelector : string := "selector".

(** ** Outbounds and endpoints *)
Inductive OutOptions :=
  | ODirect
  | OFields (body : option (list (string * json)))   (** [None]: the text [null] *)
  | OMember (m : Member)
  | OURLTest (outbounds : list string)
  | OSelector (outbounds : list string) (default : string).
Record Outbound := MkOutbound { ob_type : string; ob_tag : string; ob_options : OutOptions }.
Record Endpoint := MkEndpoint { ep_type : string; ep_tag : string; ep_body : option (list (string * json)) }.

Definition poolMaxServers : nat := 64.

Definition singboxTypes (t : string) : option string :=
  if decide (t = TunnelWireGuard) then Some TypeWireGuard
  else if decide (t ∈ [TunnelVLESS; TunnelShadowsocks; TunnelTrojan; TunnelHysteria2; TunnelSOCKS])
  then Some t else None.

(** [singboxType] *)
Definition singboxType (t : Tunnel) (fs : option (list (string * json))) : result string :=
  if decide (t.(t_type) <> TunnelRaw) then
    match singboxTypes t.(t_type) with
    | Some typ => Ok typ
    | None => fail ErrOther "unknown tunnel type"
    end
  else match fs ≫= get_field "type" with
       | None => fail ErrOther "config without type"
       | Some v =>
           match unmarshal_string v with
           | None => fail ErrOther "type is not a string"
           | Some typ => if decide (typ = EmptyString) then fail ErrOther "empty type" else Ok typ
           end
       end.

(** [tunnelOptions] *)
Definition tunnelOptions (t : Tunnel) : result (string * option (list (string * json))) :=
  if decide (t.(t_parsed) = EmptyString) then fail ErrOther "tunnel is not parsed"
  else match GoJson.parse t.(t_parsed) ≫= unmarshal_fields with
       | None => fail ErrOther "tunnel config is not an object"
       | Some fs =>
           typ ← singboxType t fs;
           Ok (typ, delete_field "tag" <$> (delete_field "type" <$> fs))
       end.

(** [chainEndpoint]; assigning into the nil map that a [null] config leaves
    would panic. *)
Definition chainEndpoint (via : Tunnel) (tag detour : string) : result Endpoint :=
  '(typ, body) ← tunnelOptions via;
  if decide (typ <> TypeWireGuard) then fail ErrOther "second link is not WireGuard"
  else match body with
       | None => fail ErrOther "panic: nil map"
       | Some fs => Ok (MkEndpoint typ tag (Some (set_field "detour" (JStr detour) fs)))
       end.

Section pool.
Context `{PoolPolicy} `{PoolSource}.

(** [selectPoolServers]: the first [poolMaxServers] distinct admitted links. *)
Fixpoint select_loop (countries : list string) (pool : list PoolServer) (seen : list string) (uniq : list PoolServer)
  : list PoolServer :=
  match pool with
  | [] => uniq
  | s :: pool =>
      if decide (s.(ps_url) = EmptyString \/ s.(ps_url) ∈ seen \/ Allows countries s = false)
      then select_loop countries pool seen uniq
      else
        let uniq := uniq ++ [s] in
        if decide (length uniq = poolMaxServers) then uniq
        else select_loop countries pool (s.(ps_url) :: seen) uniq
  end.
Definition selectPoolServers (pool : list PoolServer) (countries : list string) : list PoolServer :=
  select_loop countries pool [] [].

(** [PoolMembers]: the tag and the server of each position. *)
Definition PoolMembers (t : Tunnel) (countries : list string) : list (string * PoolServer) :=
  map (fun p => (poolMemberTag t.(t_id) p.1, p.2)) (enum 0 (selectPoolServers t.(t_pool) countries)).

(** [forceCertVerify] *)
Definition forceCertVerify (m : Member) : Member :=
  match m.(mb_insecure) with
  | Some true => MkMember m.(mb_type) (Some false) m.(mb_body)
  | _ => m
  end.

Definition pool_member (id : string) (p : nat * PoolServer) : option Outbound :=
  match Parse p.2.(ps_url) with
  | Some (Some m) => let m := forceCertVerify m in
                     Some (MkOutbound m.(mb_type) (poolMemberTag id p.1) (OMember m))
  | _ => None
  end.

(** [buildPool]: [None] when no member is usable. *)
Definition buildPool (t : Tunnel) (countries : list string) : option (list Outbound) :=
  let out := omap (pool_member t.(t_id)) (enum 0 (selectPoolServers t.(t_pool) countries)) in
  if decide (out = [] ) then None
  else Some (out ++ [MkOutbound TypeURLTest (TunnelTag t.(t_id)) (OURLTest (map ob_tag out))]).

Record BuiltTunnels := MkTunnels {
  tu_endpoints : list Endpoint;
  tu_outbounds : list Outbound;
  tu_skipped : list string
}.

(** The body of the loop of [buildTunnels]. *)
Definition add_tunnel (countries : list string) (acc : BuiltTunnels) (t : Tunnel) : result BuiltTunnels :=
  if negb t.(t_enabled) then Ok acc
  else if decide (t.(t_source) = SourcePool) then
    match buildPool t countries with
    | None => Ok (MkTunnels acc.(tu_endpoints) acc.(tu_outbounds) (t.(t_id) :: acc.(tu_skipped)))
    | Some group => Ok (MkTunnels acc.(tu_endpoints) (acc.(tu_outbounds) ++ group) acc.(tu_skipped))
    end
  else
    '(typ, body) ← tunnelOptions t;
    if decide (typ = TypeWireGuard)
    then Ok (MkTunnels (acc.(tu_endpoints) ++ [MkEndpoint typ (TunnelTag t.(t_id)) body])
                       acc.(tu_outbounds) acc.(tu_skipped))
    else Ok (MkTunnels acc.(tu_endpoints)
                       (acc.(tu_outbounds) ++ [MkOutbound typ (TunnelTag t.(t_id)) (OFields body)])
                       acc.(tu_skipped)).

Fixpoint fold_result {A B} (f : B -> A -> result B) (acc : B) (l : list A) : result B :=
  match l with
  | [] => Ok acc
  | x :: l => acc ← f acc x; fold_result f acc l
  end.

Definition buildTunnels (l : list Tunnel) (countries : list string) : result BuiltTunnels :=
  fold_result (add_tunnel countries) (MkTunnels [] [] []) l.
End pool.

(** ** Aliases of WireGuard parents *)
Section alias.
Context `{Platform}.
Definition wireGuardParentTag (parent : string) : string := "wg-parent-" +:+ EncodeToHex (Sum256 parent).

(** The struct [peer] decoded from an endpoint's body. *)
Definition decode_address (v : json) : option string :=
  match v with
  | JNull => Some EmptyString
  | JObj l => foldl (fun acc v => match acc, v with
                                  | Some a, JNull => Some a
                                  | Some _, JStr s => Some s
                                  | _, _ => None
                                  end) (Some EmptyString) (struct_field "address" l)
  | _ => None
  end.
Definition decode_detour (l : list (string * json)) : option string :=
  foldl (fun acc v => match acc, v with
                      | Some a, JNull => Some a
                      | Some _, JStr s => Some s
                      | _, _ => None
                      end) (Some EmptyString) (struct_field "detour" l).
Definition decode_peers (l : list (string * json)) : option (list string) :=
  foldl (fun acc v => match acc, v with
                      | Some _, JNull => Some []
                      | Some _, JArr l => mapM decode_address l
                      | _, _ => None
                      end) (Some []) (struct_field "peers" l).
Definition decode_peer (body : option (list (string * json))) : option (string * list string) :=
  match body with
  | None => Some (EmptyString, [])
  | Some l => d ← decode_detour l; ps ← decode_peers l; Some (d, ps)
  end.

Definition is_hostname (address : string) : bool :=
  bool_decide (address <> EmptyString) && bool_decide (ParseAddr address = None).

Record AliasAcc := MkAlias {
  al_used : list string;
  al_aliases : list (string * string);    (** parent, alias *)
  al_endpoints : list Endpoint;
  al_outbounds : list Outbound
}.

Definition alias_step (parents : list string) (acc : AliasAcc) (ep : Endpoint) : result AliasAcc :=
  let keep := MkAlias acc.(al_used) acc.(al_aliases) (acc.(al_endpoints) ++ [ep]) acc.(al_outbounds) in
  if decide (ep.(ep_type) <> TypeWireGuard) then Ok keep
  else match decode_peer ep.(ep_body) with
  | None => fail ErrOther "decode WireGuard endpoint"
  | Some (detour, peers) =>
      if negb (bool_decide (detour ∈ parents)) || negb (existsb is_hostname peers) then Ok keep
      else
        let relink alias used aliases outs :=
          Ok (MkAlias used aliases
                (acc.(al_endpoints) ++ [MkEndpoint ep.(ep_type) ep.(ep_tag)
                   (set_field "detour" (JStr alias) <$> ep.(ep_body))]) outs) in
        match list_find (fun p => p.1 = detour) acc.(al_aliases) with
        | Some (_, (_, alias)) => relink alias acc.(al_used) acc.(al_aliases) acc.(al_outbounds)
        | None =>
            let alias := wireGuardParentTag detour in
            if decide (alias ∈ acc.(al_used)) then fail ErrOther "alias tag collision"
            else relink alias (alias :: acc.(al_used)) ((detour, alias) :: acc.(al_aliases))
                   (acc.(al_outbounds) ++ [MkOutbound TypeSelector alias (OSelector [detour] detour)])
        end
  end.

Definition stabilizeWireGuardDetours (eps : list Endpoint) (obs : list Outbound)
  : result (list Endpoint * list Outbound) :=
  let parents := map ep_tag (filter (fun e => e.(ep_type) = TypeWireGuard) eps) in
  let used := TagDirect :: map ep_tag eps ++ map ob_tag obs in
  acc ← fold_result (alias_step parents) (MkAlias used [] [] obs) eps;
  Ok (acc.(al_endpoints), acc.(al_outbounds)).
End alias.
