(* ===== verification/Generate.v ===== *)
(** * The sing-box configuration

    [internal/singbox/generate.go], [dns.go], [ruleset.go] and
    [peer_egress.go]: the configuration as a function of the store's snapshot
    and of the loaded lists, with its diagnostics.  Logging is not modelled. *)

From Stdlib Require Import Ascii.
From S2P Require Export IPPolicy.
From S2P Require Import Prelude GoStd Model GoJson Db Wf SettingsStore RealityStore PoolFilter SingBox.
#[local] Open Scope Z_scope.

(** ** Route rules, DNS and rule sets *)
Record RouteMatch := MkMatch {
  rm_inbound : list string;
  rm_sets : list string;
  rm_source : list string;
  rm_ip : list string
}.
Inductive RuleActionT :=
  | HijackDNS
  | Reject
  | Route (outbound : string)
  | Resolve (server : string).       (** always with the IPv4-only strategy *)
Record RouteRule := MkRoute { rt_match : RouteMatch; rt_action : RuleActionT }.

Record DNSMatch := MkDNSMatch {
  dm_types : list Z;
  dm_suffix : list string;
  dm_sets : list string;
  dm_source : list string
}.
Inductive DNSAction :=
  | DNSReject
  | DNSRoute (server : string) (ttl : option Z) (ipv4_only : bool).
Record DNSRule := MkDNSRule { dr_match : DNSMatch; dr_action : DNSAction }.

Inductive DNSTransport := UDP | TLS | HTTPS | FakeIP (range : string).
Record DNSServer := MkDNSServer {
  ds_type : DNSTransport;
  ds_tag : string;
  ds_server : string;
  ds_port : Z;
  ds_resolver : option (string * bool);   (** the server and the IPv4-only strategy *)
  ds_detour : string
}.
Record DNSOptions := MkDNS { do_servers : list DNSServer; do_rules : list DNSRule; do_final : string }.

Inductive Headless := HDomains (l : list string) | HCIDRs (l : list string).
Inductive SetBody := Inline (rules : list Headless) | LocalSource (path : string) | LocalBinary (path : string).
Record RuleSet := MkSet { st_tag : string; st_body : SetBody }.

Record Inbound := MkInbound { in_type : string; in_tag : string; in_addr : Addr; in_port : Z }.

Record Options := MkOptions {
  op_log : string;
  op_dns : DNSOptions;
  op_inbounds : list Inbound;
  op_endpoints : list Endpoint;
  op_outbounds : list Outbound;
  op_routes : list RouteRule;
  op_sets : list RuleSet;
  op_final : string;
  op_resolver : string;
  op_cache : string;
  op_clash : string
}.

(** ** DNS *)
Definition hostPort (s : string) : result (string * Z) :=
  match Cut s ":" with
  | None => Ok (s, 0)
  | Some (host, port) =>
      match ParseUint port 16 with
      | Some n => Ok (host, n)
      | None => fail ErrInvalid "DNS port"
      end
  end.

Definition upstreamServer (s : Settings) : result DNSServer :=
  '(host, port) ← hostPort s.(s_dns);
  let resolver := if decide (ParseAddr host = None) then Some (TagDNSBootstrap, false) else None in
  let out typ := Ok (MkDNSServer typ TagDNSUpstream host port resolver EmptyString) in
  if decide (s.(s_dns_type) = "udp") then out UDP
  else if decide (s.(s_dns_type) = "dot") then out TLS
  else if decide (s.(s_dns_type) = "doh") then out HTTPS
  else fail ErrInvalid "unknown DNS type".

Definition reject (m : DNSMatch) : DNSRule := MkDNSRule m DNSReject.

Definition dns_guards : list DNSRule :=
  [reject (MkDNSMatch [65] [] [] []); reject (MkDNSMatch [] ["use-application-dns.net"%string] [] [])].

Definition buildDNS (s : Settings) : result DNSOptions :=
  upstream ← upstreamServer s;
  Ok (MkDNS
    [upstream;
     MkDNSServer UDP TagDNSBootstrap bootstrapAddr 0 None EmptyString;
     MkDNSServer (FakeIP fakeIPRange) TagDNSFakeIP EmptyString 0 None EmptyString]
    dns_guards TagDNSUpstream).

(** ** Rule sets *)
Record NativeArtifact := MkNative {
  na_version : Z;
  na_srs : bool;           (** [Format == lists.FormatSRS] *)
  na_path : string;
  na_dns_path : string
}.
Definition ProjectionVersion : Z := 2.

Record PlainList := MkPlain {
  pl_domains : list string;
  pl_subnets : list string;
  pl_native : option NativeArtifact;
  pl_transport : list string;
  pl_complete : bool
}.
(** A nil callback finds nothing. *)
Definition PlainLists : Type := string -> option PlainList.

Record RuleSets := MkRuleSets {
  rs_sets : list RuleSet;
  rs_route : list string;
  rs_dns : list string;
  rs_missing : list string;
  rs_err : bool;
  rs_addr : bool;
  rs_domains : list string;
  rs_native : bool
}.

Definition inlineRuleSet (tag : string) (l : PlainList) : option RuleSet :=
  let rules := (if decide (l.(pl_domains) = []) then [] else [HDomains l.(pl_domains)]) ++
               (if decide (l.(pl_subnets) = []) then [] else [HCIDRs l.(pl_subnets)]) in
  if decide (rules = [] ) then None else Some (MkSet tag (Inline rules)).

Definition dnsTag (tag : string) : string := tag +:+ "-dns".

(** The closure [addInline]. *)
Definition addInline (tag : string) (l : PlainList) (b : RuleSets) : option RuleSets :=
  match inlineRuleSet tag l with
  | None => None
  | Some set =>
      let dns := inlineRuleSet (dnsTag tag) (MkPlain l.(pl_domains) [] None [] false) in
      Some (MkRuleSets (b.(rs_sets) ++ [set] ++ option_list dns) (b.(rs_route) ++ [tag])
              (b.(rs_dns) ++ option_list (st_tag <$> dns)) b.(rs_missing) b.(rs_err)
              (b.(rs_addr) || bool_decide (l.(pl_subnets) <> []))
              (b.(rs_domains) ++ l.(pl_domains)) b.(rs_native))
  end.

(** The closure [addNative]. *)
Definition addNative (plain : PlainLists) (tag raw : string) (b : RuleSets) : RuleSets :=
  if b.(rs_err) then b
  else match plain raw with
       | Some (MkPlain _ subnets (Some a) transport complete) =>
           let dns := if decide (a.(na_dns_path) = EmptyString) then None
                      else Some (MkSet (dnsTag tag) (LocalSource a.(na_dns_path))) in
           MkRuleSets
             (b.(rs_sets) ++
              [MkSet tag (if a.(na_srs) then LocalBinary a.(na_path) else LocalSource a.(na_path))] ++
              option_list dns)
             (b.(rs_route) ++ [tag]) (b.(rs_dns) ++ option_list (st_tag <$> dns)) b.(rs_missing) false
             (b.(rs_addr) || negb complete || bool_decide (a.(na_version) <> ProjectionVersion) ||
              bool_decide (subnets <> []) || bool_decide (transport <> [])) b.(rs_domains) true
       | _ => MkRuleSets b.(rs_sets) b.(rs_route) b.(rs_dns) b.(rs_missing) true b.(rs_addr)
                b.(rs_domains) b.(rs_native)
       end.

Section generate.
Context `{Platform} `{PoolPolicy} `{PoolSource}.

(** [ruleSetFormat]: is the list read by sing-box itself? *)
Definition ruleSetFormat (raw : string) : bool :=
  let p := default raw (URLPath raw) in
  bool_decide (ToLowerASCII (Ext p) ∈ [".srs"; ".json"]%string).

Definition add_remote (plain : PlainLists) (id : string) (b : RuleSets) (p : nat * string) : RuleSets :=
  let '(i, raw) := p in
  if ruleSetFormat raw then addNative plain (remoteListTag id i) raw b
  else match plain raw ≫= (fun l => addInline (plainListTag id i) l b) with
       | Some b => b
       | None => MkRuleSets b.(rs_sets) b.(rs_route) b.(rs_dns) (b.(rs_missing) ++ [raw]) b.(rs_err)
                   b.(rs_addr) b.(rs_domains) b.(rs_native)
       end.

Definition buildRuleSets (r : Rule) (plain : PlainLists) : RuleSets :=
  let b := MkRuleSets [] [] [] [] false false [] false in
  let b := foldl (fun b key => addNative plain (communityTag key) (communityListURL key) b) b r.(r_community) in
  let b := default b (addInline (ruleSetTag r.(r_id)) (MkPlain r.(r_domains) r.(r_subnets) None [] false) b) in
  foldl (add_remote plain r.(r_id)) b (enum 0 r.(r_remote)).

Definition RuleInConfig (r : Rule) (plain : PlainLists) : bool :=
  r.(r_enabled) &&
  (let b := buildRuleSets r plain in negb b.(rs_err) && bool_decide (b.(rs_route) <> [])).

(** ** Sources *)
Definition cidr (s : string) : result string :=
  if ContainsByte s "/" then
    match ParsePrefix s with Some p => Ok (PrefixString p) | None => fail ErrOther "not a prefix" end
  else match ParseAddr s with
       | Some a => Ok (PrefixString (host_prefix a))
       | None => fail ErrOther "not an address"
       end.

(** The maps [peers] and [live]: the address of a client and whether it is
    enabled. *)
Definition add_peer (m : gmap string (string * bool)) (p : Peer) : result (gmap string (string * bool)) :=
  match cidr p.(p_address) with
  | Ok addr => Ok (<[p.(p_id) := (addr, p.(p_enabled))]> m)
  | Err e => if p.(p_enabled) then Err e else Ok m
  end.
Definition peer_addresses (l : list Peer) : result (gmap string (string * bool)) :=
  fold_result add_peer ∅ l.

(** Insertion before the first rule of the same or a greater priority. *)
Fixpoint insert_by_priority (r : Rule) (l : list Rule) : list Rule :=
  match l with
  | [] => [r]
  | x :: l => if decide (r.(r_priority) <= x.(r_priority)) then r :: x :: l
              else x :: insert_by_priority r l
  end.
Definition sortedRules (l : list Rule) : list Rule :=
  foldr insert_by_priority [] (filter (fun r => r.(r_enabled) = true) l).

Definition sourceCIDRs (r : Rule) (peers : gmap string (string * bool)) : list string * bool :=
  if decide (r.(r_scope) <> ScopeSelected) then ([], true)
  else
    let found := omap (fun id => peers !! id) r.(r_peers) in
    let enabled := filter (fun p => p.2 = true) found in
    if decide (enabled = []) then (map fst found, false) else (map fst enabled, true).

(** ** Clients whose whole traffic leaves through a tunnel *)
Definition peerDNSTag (id : string) : string := "peer-dns-" +:+ id.

(** The servers a first client of tunnel [id] needs. *)
Definition egress_servers (s : Settings) (id : string) : result (list DNSServer) :=
  server ← upstreamServer s;
  let tag := peerDNSTag id in
  let remote resolver := MkDNSServer server.(ds_type) tag server.(ds_server) server.(ds_port) resolver (TunnelTag id) in
  match server.(ds_resolver) with
  | None => Ok [remote None]
  | Some _ =>
      let bootstrap := tag +:+ "-bootstrap" in
      Ok [MkDNSServer UDP bootstrap bootstrapAddr 0 None (TunnelTag id); remote (Some (bootstrap, true))]
  end.

(** [exists && target.Enabled && !skipped[id]] *)
Definition target_live (tunnels : gmap string Tunnel) (skipped : list string) (id : string) : bool :=
  match tunnels !! id with
  | Some t => t.(t_enabled) && bool_decide (id ∉ skipped)
  | None => false
  end.

Record EgressAcc := MkEgress { eg_routes : list RouteRule; eg_dns : DNSOptions; eg_seen : list string }.

Definition egress_step (st : Settings) (tunnels : gmap string Tunnel) (skipped : list string)
  (acc : EgressAcc) (p : Peer) : result EgressAcc :=
  match p.(p_egress) with
  | None => Ok acc
  | Some id =>
      match ParseAddr p.(p_address) with
      | Some (V4 ip) =>
          let source := [PrefixString (MkPrefix (V4 ip) 32)] in
          let raw := MkMatch [] [] source [] in
          let dnsRaw := MkDNSMatch [] [] [] source in
          let dns := acc.(eg_dns) in
          let add_rule r servers := MkDNS (dns.(do_servers) ++ servers) (dns.(do_rules) ++ [r]) dns.(do_final) in
          if negb p.(p_enabled) || negb (target_live tunnels skipped id) then Ok (MkEgress (acc.(eg_routes) ++ [MkRoute raw Reject]) (add_rule (reject dnsRaw) []) acc.(eg_seen))
          else
            servers ← (if decide (id ∈ acc.(eg_seen)) then Ok [] else egress_servers st id);
            Ok (MkEgress
                  (acc.(eg_routes) ++
                   [MkRoute raw (Resolve (peerDNSTag id));
                    MkRoute (MkMatch [] [] source LocalIPv4) Reject;
                    MkRoute raw (Route (TunnelTag id))])
                  (add_rule (MkDNSRule dnsRaw (DNSRoute (peerDNSTag id) None true)) servers)
                  (id :: acc.(eg_seen)))
      | _ => fail ErrOther "invalid whole-Internet client address"
      end
  end.

Definition peerEgress (sn : SnapshotT) (dns : DNSOptions) (tunnels : gmap string Tunnel) (skipped : list string)
  : result (list RouteRule * DNSOptions) :=
  acc ← fold_result (egress_step sn.(sn_settings) tunnels skipped) (MkEgress [] dns []) sn.(sn_peers);
  Ok (acc.(eg_routes), acc.(eg_dns)).

(** ** Rules *)
Record RuleDiag := MkDiag {
  di_id : string; di_name : string; di_reason : string; di_skipped : bool; di_skip_reason : string }.

Definition routeRule (r : Rule) (tags sources : list string) (tunnelTag : string) (denied : bool) : RouteRule :=
  MkRoute (MkMatch [] tags sources [])
    (if denied || bool_decide (r.(r_action) = ActionBlock) then Reject
     else if decide (r.(r_action) = ActionDirect) then Route TagDirect
     else Route tunnelTag).

Definition dnsRuleFor (r : Rule) (tags sources : list string) (denied : bool) : option DNSRule :=
  if decide (tags = []) then None
  else
    let raw := MkDNSMatch [] [] tags sources in
    if denied || bool_decide (r.(r_action) = ActionBlock) then Some (reject raw)
    else if bool_decide (r.(r_action) = ActionTunnel) && negb r.(r_real_ip)
    then Some (MkDNSRule raw (DNSRoute TagDNSFakeIP (Some fakeIPTTL) false))
    else None.

Definition reason_off : string := "туннель выключен".
Definition reason_pool : string := "у туннеля-пула нет серверов".
Definition reason_chain : string := "второе звено цепи выключено".
Definition reason_peers : string := "выключены все выбранные пиры".

(** The tunnel tag of a rule and why it has no route. *)
Definition rule_target (tunnels : gmap string Tunnel) (skipped : list string) (r : Rule)
  : result (string * string) :=
  if decide (r.(r_action) <> ActionTunnel) then Ok (EmptyString, EmptyString)
  else match tunnels !! r.(r_tunnel) with
  | None => fail ErrOther "rule names a tunnel that does not exist"
  | Some t =>
      let '(tag, unavailable) :=
        if negb t.(t_enabled) then (EmptyString, reason_off)
        else if decide (t.(t_id) ∈ skipped) then (EmptyString, reason_pool)
        else (TunnelTag t.(t_id), EmptyString) in
      if decide (unavailable = EmptyString /\ r.(r_via) <> EmptyString) then
        match tunnels !! r.(r_via) with
        | None => fail ErrOther "second link does not exist"
        | Some via =>
            if decide (via.(t_source) <> SourceWARP) then fail ErrOther "second link is not WARP"
            else if negb via.(t_enabled) then Ok (EmptyString, reason_chain)
            else Ok (ChainTag via.(t_id) t.(t_id), EmptyString)
        end
      else Ok (tag, unavailable)
  end.

(** What the pass keeps of a rule for the preflight of REALITY and for the
    route explanation. *)
Record compiledDestination := MkCompiled {
  cd_tunnel : string;
  cd_via : string;
  cd_denied : bool;
  cd_route : RouteRule;
  cd_dns_tags : list string;
  cd_addr : bool;
  cd_id : string;
  cd_name : string;
  cd_domains : list string;
  cd_native : bool
}.

Record Acc := MkAcc {
  ac_sets : list RuleSet;
  ac_chains : list (string * string);     (** second link, first link *)
  ac_diags : list RuleDiag;
  ac_routes : list RouteRule;
  ac_dns : list DNSRule;
  ac_plan : list compiledDestination
}.

(** [seenSets]: a tag once appended is not appended again. *)
Definition add_sets (sets known : list RuleSet) : list RuleSet :=
  foldl (fun known s => if decide (s.(st_tag) ∈ map st_tag known) then known else known ++ [s]) known sets.

Definition chain_tag (c : string * string) : string := ChainTag c.1 c.2.

Definition rule_step (tunnels : gmap string Tunnel) (skipped : list string)
  (peers : gmap string (string * bool)) (plain : PlainLists) (acc : Acc) (r : Rule) : result Acc :=
  let '(sources, sourcesLive) := sourceCIDRs r peers in
  let diag d := MkAcc acc.(ac_sets) acc.(ac_chains) (acc.(ac_diags) ++ [d]) acc.(ac_routes) acc.(ac_dns)
    acc.(ac_plan) in
  if decide (r.(r_scope) = ScopeSelected /\ sources = []) then
    Ok (diag (MkDiag r.(r_id) r.(r_name) EmptyString true
                "No existing selected clients; reassign and enable the rule"))
  else
    '(tunnelTag, unavailable) ← rule_target tunnels skipped r;
    let built := buildRuleSets r plain in
    if built.(rs_err) then fail ErrOther "native source"
    else if decide (built.(rs_route) = []) then
      Ok (diag (MkDiag r.(r_id) r.(r_name) EmptyString true
                  (if decide (built.(rs_missing) = []) then EmptyString
                   else "списки правила ещё не скачаны (" +:+ Join built.(rs_missing) ", " +:+ ")")))
    else
      let '(tunnelTag, unavailable) :=
        if negb sourcesLive then (EmptyString, reason_peers) else (tunnelTag, unavailable) in
      let denied := bool_decide (unavailable <> EmptyString) in
      let chains :=
        if negb denied && bool_decide (r.(r_action) = ActionTunnel) && bool_decide (r.(r_via) <> EmptyString) &&
           bool_decide (tunnelTag ∉ map chain_tag acc.(ac_chains))
        then acc.(ac_chains) ++ [(r.(r_via), r.(r_tunnel))] else acc.(ac_chains) in
      let compiled := routeRule r built.(rs_route) sources tunnelTag denied in
      Ok (MkAcc (add_sets built.(rs_sets) acc.(ac_sets)) chains
            (acc.(ac_diags) ++ [MkDiag r.(r_id) r.(r_name) unavailable false EmptyString])
            (acc.(ac_routes) ++ [compiled])
            (acc.(ac_dns) ++ option_list (dnsRuleFor r built.(rs_dns) sources denied))
            (acc.(ac_plan) ++
             [MkCompiled r.(r_tunnel) r.(r_via) denied compiled built.(rs_dns) built.(rs_addr) r.(r_id) r.(r_name)
                built.(rs_domains) built.(rs_native)])).

Definition chain_endpoint (tunnels : gmap string Tunnel) (c : string * string) : result Endpoint :=
  match tunnels !! c.1 with
  | Some via => chainEndpoint via (chain_tag c) (TunnelTag c.2)
  | None => fail ErrOther "tunnel is not parsed"     (** the zero [Tunnel] *)
  end.

Definition listen (addr : string) (port : Z) (typ tag : string) : result Inbound :=
  match ParseAddr addr with
  | Some a => Ok (MkInbound typ tag a port)
  | None => fail ErrOther "address does not parse"
  end.

Definition tunnel_map (l : list Tunnel) : gmap string Tunnel :=
  foldl (fun m t => <[t.(t_id) := t]> m) ∅ l.

(** [generatePolicyWithPlan] *)
Definition generatePolicyWithPlan (sn : SnapshotT) (plain : PlainLists)
  : result (Options * list RuleDiag * list compiledDestination) :=
  let tunnels := tunnel_map sn.(sn_tunnels) in
  built ← buildTunnels sn.(sn_tunnels) sn.(sn_settings).(s_blocklist);
  peers ← peer_addresses sn.(sn_peers);
  dns ← buildDNS sn.(sn_settings);
  '(egress, dns) ← peerEgress sn dns tunnels built.(tu_skipped);
  acc ← fold_result (rule_step tunnels built.(tu_skipped) peers plain) (MkAcc [] [] [] [] [] [])
          (sortedRules sn.(sn_rules));
  chained ← fold_result (fun eps c => ep ← chain_endpoint tunnels c; Ok (eps ++ [ep]))
              built.(tu_endpoints) acc.(ac_chains);
  '(endpoints, outbounds) ← stabilizeWireGuardDetours chained built.(tu_outbounds);
  dnsIn ← listen sn.(sn_settings).(s_wg_server) dnsPort TypeDirect TagDNSIn;
  tproxyIn ← listen tproxyListen tproxyPort "tproxy" TagTProxyIn;
  Ok (MkOptions sn.(sn_settings).(s_log)
        (MkDNS dns.(do_servers) (dns.(do_rules) ++ acc.(ac_dns)) dns.(do_final))
        [dnsIn; tproxyIn] endpoints
        (MkOutbound TypeDirect TagDirect ODirect :: outbounds)
        (MkRoute (MkMatch [TagDNSIn] [] [] []) HijackDNS :: egress ++ acc.(ac_routes))
        acc.(ac_sets) TagDirect TagDNSUpstream cacheFile clashListen,
      acc.(ac_diags), acc.(ac_plan)).

(** [GeneratePolicyWithDiag]: no plan. *)
Definition GeneratePolicyWithDiag (sn : SnapshotT) (plain : PlainLists) : result (Options * list RuleDiag) :=
  '(opts, diags, _) ← generatePolicyWithPlan sn plain; Ok (opts, diags).

(** [GenerateWithDiag], [Generate] *)
Definition GenerateWithDiag (sn : SnapshotT) (plain : PlainLists) : result (Options * list RuleDiag) :=
  if sn.(sn_settings).(s_reality) then fail ErrOther "REALITY generation requires live authentication context"
  else GeneratePolicyWithDiag sn plain.
Definition Generate (sn : SnapshotT) (plain : PlainLists) : result Options :=
  '(opts, _) ← GenerateWithDiag sn plain; Ok opts.
End generate.
