(* ===== verification/GenerateSpec.v ===== *)
(** * What the generated configuration does

    A reading of the generated rules (the first matching rule decides, an empty
    condition matches everything) and the same decisions as functions of the
    settings, tunnels, clients and rules, which the generator implements; the
    policy stated on the rows alone is in [RouteSpec]. *)

From S2P Require Import Prelude GoStd Model GoJson Db Wf Sample SettingsStore RealityStore PoolFilter SingBox Generate.
#[local] Open Scope Z_scope.
#[local] Set Default Proof Using "Type".

(** ** Reading the rules *)

(** A connection, by what the conditions ask of it. *)
Record packet := MkPacket {
  pk_inbound : string;
  pk_set : string -> bool;        (** does the destination belong to the rule set? *)
  pk_source : string -> bool;     (** does the source belong to the prefix? *)
  pk_ip : string -> bool          (** does the destination belong to the prefix? *)
}.

Definition cond (p : string -> bool) (l : list string) : bool := bool_decide (l = []) || existsb p l.
Definition matches (pk : packet) (m : RouteMatch) : bool :=
  cond (fun t => bool_decide (t = pk.(pk_inbound))) m.(rm_inbound) && cond pk.(pk_set) m.(rm_sets) &&
  cond pk.(pk_source) m.(rm_source) && cond pk.(pk_ip) m.(rm_ip).

(** [Resolve] is the one action after which matching goes on. *)
Fixpoint decide_route (rules : list RouteRule) (final : string) (pk : packet) : RuleActionT :=
  match rules with
  | [] => Route final
  | r :: rules =>
      if matches pk r.(rt_match) then
        match r.(rt_action) with
        | Resolve _ => decide_route rules final pk
        | a => a
        end
      else decide_route rules final pk
  end.

(** A DNS query; the first matching rule answers it. *)
Record query := MkQuery {
  qu_type : Z;
  qu_under : string -> bool;      (** is the name under the domain? *)
  qu_set : string -> bool;
  qu_source : string -> bool
}.
Definition dns_matches (q : query) (m : DNSMatch) : bool :=
  (bool_decide (m.(dm_types) = []) || existsb (fun t => bool_decide (t = q.(qu_type))) m.(dm_types)) &&
  cond q.(qu_under) m.(dm_suffix) && cond q.(qu_set) m.(dm_sets) && cond q.(qu_source) m.(dm_source).
Fixpoint decide_dns (rules : list DNSRule) (final : string) (q : query) : DNSAction :=
  match rules with
  | [] => DNSRoute final None false
  | r :: rules => if dns_matches q r.(dr_match) then r.(dr_action) else decide_dns rules final q
  end.

Section policy.
Context `{PF : Platform} `{PP : PoolPolicy} `{PS : PoolSource}.

(** ** The policy *)
Section snapshot.
Variables (sn : SnapshotT) (plain : PlainLists) (peers : gmap string (string * bool)).

(** A tunnel that carries traffic: switched on and, for a pool, with at least
    one usable server. *)
Definition usable (id : string) : bool :=
  match tunnel_map sn.(sn_tunnels) !! id with
  | None => false
  | Some t => t.(t_enabled) &&
              (bool_decide (t.(t_source) <> SourcePool) ||
               match buildPool t sn.(sn_settings).(s_blocklist) with Some _ => true | None => false end)
  end.

Definition via_usable (id : string) : bool :=
  match tunnel_map sn.(sn_tunnels) !! id with Some t => t.(t_enabled) | None => false end.

(** The links of a rule can all carry its traffic. *)
Definition links_usable (r : Rule) : bool :=
  usable r.(r_tunnel) && (bool_decide (r.(r_via) = EmptyString) || via_usable r.(r_via)).
Definition link_tag (r : Rule) : string :=
  if decide (r.(r_via) = EmptyString) then TunnelTag r.(r_tunnel) else ChainTag r.(r_via) r.(r_tunnel).

Definition rule_verdict (r : Rule) : RuleActionT :=
  if decide (r.(r_action) = ActionBlock) then Reject
  else if negb (sourceCIDRs r peers).2 then Reject
  else if decide (r.(r_action) = ActionDirect) then Route TagDirect
  else if links_usable r then Route (link_tag r)
  else Reject.

(** The rules that are in force: those with destinations, and with existing
    clients if they name clients. *)
Definition in_force (r : Rule) : bool :=
  negb (bool_decide (r.(r_scope) = ScopeSelected) && bool_decide ((sourceCIDRs r peers).1 = [])) &&
  bool_decide ((buildRuleSets r plain).(rs_route) <> []).

Definition applies (pk : packet) (r : Rule) : bool :=
  in_force r && existsb pk.(pk_set) (buildRuleSets r plain).(rs_route) &&
  (bool_decide (r.(r_scope) <> ScopeSelected) || existsb pk.(pk_source) (sourceCIDRs r peers).1).

Fixpoint rules_verdict (pk : packet) (l : list Rule) : RuleActionT :=
  match l with
  | [] => Route TagDirect
  | r :: l => if applies pk r then rule_verdict r else rules_verdict pk l
  end.

(** The verdict of the first client whose whole traffic is assigned to a
    tunnel and whose address is the source. *)
Fixpoint egress_verdict (pk : packet) (l : list Peer) : option RuleActionT :=
  match l with
  | [] => None
  | p :: l =>
      match p.(p_egress), ParseAddr p.(p_address) with
      | Some id, Some a =>
          if pk.(pk_source) (PrefixString (MkPrefix a 32)) then
            Some (if p.(p_enabled) && usable id && negb (existsb pk.(pk_ip) LocalIPv4)
                  then Route (TunnelTag id) else Reject)
          else egress_verdict pk l
      | _, _ => egress_verdict pk l
      end
  end.

Definition policy (pk : packet) : RuleActionT :=
  if decide (pk.(pk_inbound) = TagDNSIn) then HijackDNS
  else match egress_verdict pk sn.(sn_peers) with
       | Some v => v
       | None => rules_verdict pk (sortedRules sn.(sn_rules))
       end.

(** *** DNS

    A rule answers a query of its own: with a refusal where it refuses the
    connection, with a fake address where it tunnels it; otherwise the next
    rules are asked. *)
Definition rule_dns_verdict (r : Rule) : option DNSAction :=
  match rule_verdict r with
  | Reject => Some DNSReject
  | Route _ => if bool_decide (r.(r_action) = ActionTunnel) && negb r.(r_real_ip)
               then Some (DNSRoute TagDNSFakeIP (Some fakeIPTTL) false) else None
  | _ => None
  end.
Definition dns_applies (q : query) (r : Rule) : bool :=
  in_force r && existsb q.(qu_set) (buildRuleSets r plain).(rs_dns) &&
  (bool_decide (r.(r_scope) <> ScopeSelected) || existsb q.(qu_source) (sourceCIDRs r peers).1).
Fixpoint rules_dns_verdict (q : query) (l : list Rule) : DNSAction :=
  match l with
  | [] => DNSRoute TagDNSUpstream None false
  | r :: l =>
      match dns_applies q r, rule_dns_verdict r with
      | true, Some a => a
      | _, _ => rules_dns_verdict q l
      end
  end.
Fixpoint egress_dns_verdict (q : query) (l : list Peer) : option DNSAction :=
  match l with
  | [] => None
  | p :: l =>
      match p.(p_egress), ParseAddr p.(p_address) with
      | Some id, Some a =>
          if q.(qu_source) (PrefixString (MkPrefix a 32)) then
            Some (if p.(p_enabled) && usable id then DNSRoute (peerDNSTag id) None true else DNSReject)
          else egress_dns_verdict q l
      | _, _ => egress_dns_verdict q l
      end
  end.
Definition dns_policy (q : query) : DNSAction :=
  if decide (q.(qu_type) = 65) then DNSReject
  else if q.(qu_under) "use-application-dns.net"%string then DNSReject
  else match egress_dns_verdict q sn.(sn_peers) with
       | Some a => a
       | None => rules_dns_verdict q (sortedRules sn.(sn_rules))
       end.
End snapshot.

(** ** Lemmas *)

(** An invariant of a loop that may fail, over the elements already done. *)
Lemma fold_result_inv {A B} (f : B -> A -> result B) (P : list A -> B -> Prop) acc l acc' :
  P [] acc ->
  (forall seen x b b', P seen b -> x ∈ l -> f b x = Ok b' -> P (seen ++ [x]) b') ->
  fold_result f acc l = Ok acc' -> P l acc'.
Proof.
  intros Hnil Hstep.
  assert (Hgen : forall seen acc, P seen acc ->
    (forall seen x b b', P seen b -> x ∈ l -> f b x = Ok b' -> P (seen ++ [x]) b') ->
    fold_result f acc l = Ok acc' -> P (seen ++ l) acc'); [|by apply (Hgen [])].
  clear. induction l as [|x l IH]; intros seen acc Hp Hstep; simpl.
  - rewrite app_nil_r. by intros [= <-].
  - intros (b & Hb & Hf)%result_bind_Ok. rewrite cons_middle, app_assoc.
    apply (IH _ b); [|intros; eapply Hstep; eauto; by right|exact Hf].
    eapply Hstep; [exact Hp|by left|exact Hb].
Qed.

Lemma tunnel_map_app l t : tunnel_map (l ++ [t]) = <[t.(t_id) := t]> (tunnel_map l).
Proof. unfold tunnel_map. by rewrite foldl_app. Qed.

Lemma tunnel_map_Some l id t : tunnel_map l !! id = Some t -> t ∈ l /\ t.(t_id) = id.
Proof.
  induction l as [|x l IH] using rev_ind; [done|]. rewrite tunnel_map_app.
  rewrite lookup_insert_Some, elem_of_app, list_elem_of_singleton. naive_solver.
Qed.

Lemma tunnel_map_elem l t : NoDup (t_id <$> l) -> t ∈ l -> tunnel_map l !! t.(t_id) = Some t.
Proof.
  induction l as [|x l IH] using rev_ind; [by intros _ ?%elem_of_nil|].
  rewrite fmap_app, tunnel_map_app. intros (Hnd & Hdis & _)%NoDup_app Ht.
  apply elem_of_app in Ht as [Ht|Ht%list_elem_of_singleton].
  - rewrite lookup_insert_ne; [by apply IH|]. intros E.
    apply (Hdis (t_id t)); [by apply list_elem_of_fmap_2|]. simpl. rewrite E. by left.
  - subst. apply lookup_insert_eq.
Qed.

(** *** Tunnels *)
Definition dead_pool (countries : list string) (t : Tunnel) : Prop :=
  t.(t_enabled) = true /\ t.(t_source) = SourcePool /\ buildPool t countries = None.

Definition all_tags (eps : list Endpoint) (obs : list Outbound) : list string :=
  map ep_tag eps ++ map ob_tag obs.

Lemma buildPool_tag t countries group :
  buildPool t countries = Some group -> TunnelTag t.(t_id) ∈ map ob_tag group.
Proof.
  unfold buildPool. case_decide; [done|]. intros [= <-]. rewrite map_app, elem_of_app. right. by left.
Qed.

Lemma buildTunnels_spec l countries built :
  buildTunnels l countries = Ok built ->
  (forall id, id ∈ built.(tu_skipped) <-> exists t, t ∈ l /\ t.(t_id) = id /\ dead_pool countries t) /\
  (forall t, t ∈ l -> t.(t_enabled) = true -> ~ dead_pool countries t ->
     TunnelTag t.(t_id) ∈ all_tags built.(tu_endpoints) built.(tu_outbounds)).
Proof.
  unfold buildTunnels. intros H.
  revert H. apply (fold_result_inv _ (fun seen b =>
    (forall id, id ∈ b.(tu_skipped) <-> exists t, t ∈ seen /\ t.(t_id) = id /\ dead_pool countries t) /\
    (forall t, t ∈ seen -> t.(t_enabled) = true -> ~ dead_pool countries t ->
       TunnelTag t.(t_id) ∈ all_tags b.(tu_endpoints) b.(tu_outbounds)))).
  { split; [|set_solver]. intros id. simpl. set_solver. }
  intros seen x b b' [Hs Ht] _. unfold add_tunnel.
  assert (Hkeep : forall b', ~ dead_pool countries x -> b'.(tu_skipped) = b.(tu_skipped) ->
    (forall tag, tag ∈ all_tags b.(tu_endpoints) b.(tu_outbounds) ->
                 tag ∈ all_tags b'.(tu_endpoints) b'.(tu_outbounds)) ->
    (x.(t_enabled) = true -> TunnelTag x.(t_id) ∈ all_tags b'.(tu_endpoints) b'.(tu_outbounds)) ->
    (forall id, id ∈ b'.(tu_skipped) <-> exists t, t ∈ seen ++ [x] /\ t.(t_id) = id /\ dead_pool countries t) /\
    (forall t, t ∈ seen ++ [x] -> t.(t_enabled) = true -> ~ dead_pool countries t ->
       TunnelTag t.(t_id) ∈ all_tags b'.(tu_endpoints) b'.(tu_outbounds))).
  { intros b1 Hd Hsk Hmono Hx. rewrite Hsk. split.
    - intros id. rewrite Hs. split; intros (t & Hin & Hid & Hdead).
      + exists t. rewrite elem_of_app. auto.
      + apply elem_of_app in Hin as [Hin| ->%list_elem_of_singleton]; [eauto|done].
    - intros t [Hin| ->%list_elem_of_singleton]%elem_of_app Hen Hnd; auto. }
  unfold all_tags in *.
  destruct (t_enabled x) eqn:Hen; simpl; [|intros [= <-]; apply Hkeep; [by intros [? _]; congruence|done|done|congruence]].
  destruct (decide (t_source x = SourcePool)) as [Hp|Hp].
  - destruct (buildPool x countries) as [group|] eqn:Hb; intros [= <-].
    + apply Hkeep; simpl; [intros (_ & _ & ?); congruence|done| |].
      * intros tag. rewrite map_app, !elem_of_app. tauto.
      * intros _. rewrite map_app, !elem_of_app. right. right. by eapply buildPool_tag.
    + simpl. split.
      * intros id. rewrite elem_of_cons, Hs. split.
        { intros [->|(t & Hin & Hid & Hd)]; [exists x|exists t]; rewrite elem_of_app; split_and!; auto.
          - right. by left.
          - done. }
        { intros (t & [Hin| ->%list_elem_of_singleton]%elem_of_app & Hid & Hd); eauto. }
      * intros t [Hin| ->%list_elem_of_singleton]%elem_of_app Hen' Hnd; [auto|].
        destruct Hnd. by unfold dead_pool.
  - intros ([typ body] & _ & Hf)%result_bind_Ok.
    case_decide; injection Hf as <-; (apply Hkeep; simpl; [by intros (_ & ? & _)|done| |]).
    + intros tag. rewrite map_app, !elem_of_app. tauto.
    + intros _. rewrite map_app, !elem_of_app. left. right. by left.
    + intros tag. rewrite map_app, !elem_of_app. tauto.
    + intros _. rewrite map_app, !elem_of_app. right. right. by left.
Qed.

(** What an enabled tunnel can do is what [buildTunnels] made of it. *)
Lemma skipped_usable sn built id t :
  NoDup (t_id <$> sn.(sn_tunnels)) ->
  buildTunnels sn.(sn_tunnels) sn.(sn_settings).(s_blocklist) = Ok built ->
  tunnel_map sn.(sn_tunnels) !! id = Some t ->
  usable sn id = t.(t_enabled) && bool_decide (id ∉ built.(tu_skipped)).
Proof.
  intros Hnd Hb Ht. unfold usable. rewrite Ht. destruct (t_enabled t) eqn:Hen; [|done]. simpl.
  apply buildTunnels_spec in Hb as [Hs _].
  assert (Hsk : id ∈ built.(tu_skipped) <-> dead_pool sn.(sn_settings).(s_blocklist) t).
  { rewrite Hs. apply tunnel_map_Some in Ht as Htm. destruct Htm as [Hin Hid]. split; [|by eauto].
    intros (t' & Hin' & Hid' & Hd). replace t with t'; [done|].
    apply (tunnel_map_elem _ _ Hnd) in Hin'. congruence. }
  unfold dead_pool in Hsk.
  destruct (decide (t_source t = SourcePool)) as [Hp|Hp].
  - rewrite (bool_decide_eq_false_2 (t_source t <> SourcePool)) by tauto. simpl.
    destruct (buildPool t _) eqn:Hbp.
    + symmetry. apply bool_decide_eq_true_2. rewrite Hsk. naive_solver.
    + symmetry. apply bool_decide_eq_false_2. rewrite Hsk. tauto.
  - rewrite (bool_decide_eq_true_2 (t_source t <> SourcePool)) by done. simpl.
    symmetry. apply bool_decide_eq_true_2. rewrite Hsk. tauto.
Qed.

Lemma target_live_usable sn built id :
  NoDup (t_id <$> sn.(sn_tunnels)) ->
  buildTunnels sn.(sn_tunnels) sn.(sn_settings).(s_blocklist) = Ok built ->
  target_live (tunnel_map sn.(sn_tunnels)) built.(tu_skipped) id = usable sn id.
Proof.
  intros Hnd Hb. unfold target_live. destruct (tunnel_map _ !! id) as [t|] eqn:Ht.
  - by rewrite (skipped_usable sn built id t).
  - unfold usable. by rewrite Ht.
Qed.

Lemma rule_target_spec sn built r tag unavailable :
  NoDup (t_id <$> sn.(sn_tunnels)) ->
  buildTunnels sn.(sn_tunnels) sn.(sn_settings).(s_blocklist) = Ok built ->
  r.(r_action) = ActionTunnel ->
  rule_target (tunnel_map sn.(sn_tunnels)) built.(tu_skipped) r = Ok (tag, unavailable) ->
  if links_usable sn r then unavailable = EmptyString /\ tag = link_tag r else unavailable <> EmptyString.
Proof.
  intros Hnd Hb Ha. unfold rule_target. rewrite decide_False by (intros Hn; by apply Hn).
  destruct (tunnel_map _ !! r_tunnel r) as [t|] eqn:Ht; [|done].
  unfold links_usable, link_tag. rewrite (skipped_usable sn built _ t) by done.
  apply tunnel_map_Some in Ht as Hid. destruct Hid as [_ <-].
  destruct (t_enabled t); simpl; [|by intros [= <- <-]].
  destruct (decide (t_id t ∈ tu_skipped built)) as [Hsk|Hsk].
  { rewrite bool_decide_eq_false_2 by (intros Hn; by apply Hn). by intros [= <- <-]. }
  rewrite bool_decide_eq_true_2 by done. simpl.
  destruct (decide (r_via r = EmptyString)) as [Hv|Hv].
  - rewrite decide_False by tauto. intros [= <- <-]. by rewrite bool_decide_eq_true_2.
  - rewrite decide_True by done. rewrite (bool_decide_eq_false_2 (_ = _)) by done. simpl.
    unfold via_usable. destruct (tunnel_map _ !! r_via r) as [via|] eqn:Hvia; [|done].
    apply tunnel_map_Some in Hvia as [_ <-]. case_decide; [done|].
    destruct (t_enabled via); simpl; by intros [= <- <-].
Qed.

(** *** Rules *)
Section rules.
Variables (sn : SnapshotT) (plain : PlainLists) (peers : gmap string (string * bool)) (built : BuiltTunnels).
Hypothesis Hids : NoDup (t_id <$> sn.(sn_tunnels)).
Hypothesis Hbuilt : buildTunnels sn.(sn_tunnels) sn.(sn_settings).(s_blocklist) = Ok built.

(** The entries a rule in force contributes. *)
Definition route_entry (r : Rule) : RouteRule :=
  MkRoute (MkMatch [] (buildRuleSets r plain).(rs_route) (sourceCIDRs r peers).1 [])
    (rule_verdict sn peers r).
(** No route, although the rule does not ask for a refusal. *)
Definition is_denied (r : Rule) : bool :=
  negb (sourceCIDRs r peers).2 || (bool_decide (r.(r_action) = ActionTunnel) && negb (links_usable sn r)).
Definition is_reject (a : RuleActionT) : bool := match a with Reject => true | _ => false end.
Definition dns_entry (r : Rule) : option DNSRule :=
  dnsRuleFor r (buildRuleSets r plain).(rs_dns) (sourceCIDRs r peers).1 (is_reject (rule_verdict sn peers r)).

Definition plan_entry (r : Rule) : compiledDestination :=
  let built := buildRuleSets r plain in
  MkCompiled r.(r_tunnel) r.(r_via) (is_denied r) (route_entry r) built.(rs_dns) built.(rs_addr)
    r.(r_id) r.(r_name) built.(rs_domains) built.(rs_native).

Definition chain_entry (r : Rule) : option (string * string) :=
  match rule_verdict sn peers r with
  | Route _ => if decide (r.(r_action) = ActionTunnel /\ r.(r_via) <> EmptyString)
               then Some (r.(r_via), r.(r_tunnel)) else None
  | _ => None
  end.
Definition add_chain (known : list (string * string)) (c : option (string * string)) : list (string * string) :=
  match c with
  | Some c => if decide (chain_tag c ∈ map chain_tag known) then known else known ++ [c]
  | None => known
  end.

Lemma rule_step_spec acc r acc' :
  r.(r_action) ∈ RuleActions ->
  rule_step (tunnel_map sn.(sn_tunnels)) built.(tu_skipped) peers plain acc r = Ok acc' ->
  if in_force plain peers r then
    acc'.(ac_routes) = acc.(ac_routes) ++ [route_entry r] /\
    acc'.(ac_dns) = acc.(ac_dns) ++ option_list (dns_entry r) /\
    acc'.(ac_sets) = add_sets (buildRuleSets r plain).(rs_sets) acc.(ac_sets) /\
    acc'.(ac_chains) = add_chain acc.(ac_chains) (chain_entry r) /\
    acc'.(ac_plan) = acc.(ac_plan) ++ [plan_entry r]
  else
    acc'.(ac_routes) = acc.(ac_routes) /\ acc'.(ac_dns) = acc.(ac_dns) /\
    acc'.(ac_sets) = acc.(ac_sets) /\ acc'.(ac_chains) = acc.(ac_chains) /\ acc'.(ac_plan) = acc.(ac_plan).
Proof using Hids Hbuilt.
  intros Hact. unfold rule_step, in_force, plan_entry, is_denied, route_entry, dns_entry, chain_entry, rule_verdict.
  destruct (sourceCIDRs r peers) as [sources live]. cbn [fst snd].
  destruct (decide (r_scope r = ScopeSelected /\ sources = [])) as [[Hs1 Hs2]|Hs].
  { intros [= <-]. rewrite (bool_decide_eq_true_2 _ Hs1), (bool_decide_eq_true_2 _ Hs2). done. }
  assert (bool_decide (r_scope r = ScopeSelected) && bool_decide (sources = []) = false) as ->.
  { rewrite <- bool_decide_and. by apply bool_decide_eq_false_2. }
  intros ([tag un] & Ht & Hf)%result_bind_Ok. cbv zeta in Hf.
  destruct (rs_err _); [done|].
  destruct (decide (rs_route _ = [])) as [Hr|Hr].
  { injection Hf as <-. by rewrite bool_decide_eq_false_2 by (intros Hn; by apply Hn). }
  rewrite bool_decide_eq_true_2 by done. cbn [negb andb].
  unfold RuleActions in Hact. rewrite !elem_of_cons, elem_of_nil in Hact.
  destruct Hact as [Ha|[Ha|[Ha|[]]]].
  - apply rule_target_spec in Ht; [|done..].
    rewrite !(decide_False (P:=r_action r = ActionBlock)) by by rewrite Ha.
    rewrite !(decide_False (P:=r_action r = ActionDirect)) by by rewrite Ha.
    rewrite (bool_decide_eq_true_2 (r_action r = ActionTunnel)) in Hf |- * by done.
    destruct live; cbn [negb] in Hf |- *; [|by injection Hf as <-].
    unfold routeRule in Hf. rewrite (bool_decide_eq_false_2 (r_action r = ActionBlock)) in Hf by by rewrite Ha.
    rewrite (decide_False (P:=r_action r = ActionDirect)) in Hf by by rewrite Ha.
    destruct (links_usable sn r).
    + destruct Ht as [-> ->]. injection Hf as <-. cbn [ac_routes ac_dns ac_sets ac_chains].
      split_and!; try done.
      rewrite (decide_ext (r_action r = ActionTunnel /\ r_via r <> EmptyString) (r_via r <> EmptyString)) by tauto.
      destruct (decide (r_via r = EmptyString)) as [Hv|Hv].
      * rewrite (bool_decide_eq_false_2 (r_via r <> _)), (decide_False (P:=r_via r <> _)) by tauto. done.
      * rewrite (bool_decide_eq_true_2 (r_via r <> _)), (decide_True (P:=r_via r <> _)) by tauto.
        unfold add_chain, link_tag. rewrite (decide_False (P:=r_via r = _)) by done.
        cbn [andb]. change (ChainTag (r_via r) (r_tunnel r)) with (chain_tag (r_via r, r_tunnel r)).
        by case_decide; [rewrite bool_decide_eq_false_2 by tauto|rewrite bool_decide_eq_true_2 by done].
    + rewrite (bool_decide_eq_true_2 (un <> EmptyString)) in Hf by done. by injection Hf as <-.
  - unfold rule_target in Ht. rewrite decide_True in Ht by by rewrite Ha. injection Ht as <- <-.
    rewrite !(decide_False (P:=r_action r = ActionBlock)) by by rewrite Ha.
    rewrite (bool_decide_eq_false_2 (r_action r = ActionTunnel)) in Hf |- * by by rewrite Ha.
    unfold routeRule in Hf. rewrite (bool_decide_eq_false_2 (r_action r = ActionBlock)) in Hf by by rewrite Ha.
    rewrite (decide_False (P:=r_action r = ActionTunnel /\ _)) by (rewrite Ha; by intros [? _]).
    destruct live; cbn [negb] in Hf |- *; [|by injection Hf as <-].
    rewrite !(decide_True (P:=r_action r = ActionDirect)) by done.
    rewrite (decide_True (P:=r_action r = ActionDirect)) in Hf by done. by injection Hf as <-.
  - unfold rule_target in Ht. rewrite decide_True in Ht by by rewrite Ha. injection Ht as <- <-.
    rewrite !(decide_True (P:=r_action r = ActionBlock)) by done.
    rewrite (bool_decide_eq_false_2 (r_action r = ActionTunnel)) in Hf |- * by by rewrite Ha.
    unfold routeRule, dnsRuleFor in Hf |- *. cbn [is_reject orb].
    destruct live; cbn [negb] in Hf;
      rewrite ?(bool_decide_eq_true_2 (r_action r = ActionBlock)) in Hf by done;
      rewrite ?orb_true_r in Hf; by injection Hf as <-.
Qed.

Definition forced (rs : list Rule) : list Rule := filter (fun r => in_force plain peers r = true) rs.

Lemma rules_fold rs acc acc' :
  Forall (fun r => r.(r_action) ∈ RuleActions) rs ->
  fold_result (rule_step (tunnel_map sn.(sn_tunnels)) built.(tu_skipped) peers plain) acc rs = Ok acc' ->
  acc'.(ac_routes) = acc.(ac_routes) ++ map route_entry (forced rs) /\
  acc'.(ac_dns) = acc.(ac_dns) ++ omap dns_entry (forced rs) /\
  acc'.(ac_sets) = foldl (fun known r => add_sets (buildRuleSets r plain).(rs_sets) known) acc.(ac_sets) (forced rs) /\
  acc'.(ac_chains) = foldl add_chain acc.(ac_chains) (map chain_entry (forced rs)) /\
  acc'.(ac_plan) = acc.(ac_plan) ++ map plan_entry (forced rs).
Proof using Hids Hbuilt.
  revert acc. induction rs as [|r rs IH]; intros acc Hact; simpl.
  { intros [= <-]. by rewrite !app_nil_r. }
  apply Forall_cons in Hact as [Hr Hrs]. intros (acc1 & H1 & H2)%result_bind_Ok.
  apply rule_step_spec in H1; [|done]. apply IH in H2 as (-> & -> & -> & -> & ->); [|done].
  unfold forced. rewrite filter_cons. destruct (in_force plain peers r) eqn:Hf.
  - rewrite decide_True by done. destruct H1 as (-> & -> & -> & -> & ->). simpl.
    rewrite <- !app_assoc. destruct (dns_entry r); done.
  - rewrite decide_False by done. by destruct H1 as (-> & -> & -> & -> & ->).
Qed.

(** The source condition of a rule in force. *)
Lemma sources_cond f r :
  in_force plain peers r = true ->
  cond f (sourceCIDRs r peers).1 =
  bool_decide (r.(r_scope) <> ScopeSelected) || existsb f (sourceCIDRs r peers).1.
Proof.
  unfold in_force, cond. intros [Hs Hr]%andb_true_iff. reflect_bools.
  destruct (decide (r_scope r = ScopeSelected)) as [Hsc|Hsc].
  - rewrite (bool_decide_eq_false_2 (r_scope r <> _)) by tauto. simpl.
    rewrite (bool_decide_eq_true_2 (r_scope r = _)) in Hs by done. simpl in Hs. reflect_bools.
    by rewrite bool_decide_eq_false_2.
  - rewrite (bool_decide_eq_true_2 (r_scope r <> _)) by done. simpl.
    unfold sourceCIDRs. by rewrite decide_True.
Qed.

Lemma matches_route_entry pk r :
  in_force plain peers r = true -> matches pk (route_entry r).(rt_match) = applies plain peers pk r.
Proof.
  intros Hf. unfold applies. rewrite Hf. unfold matches, route_entry. cbn [rt_match rm_inbound rm_sets rm_source rm_ip].
  rewrite sources_cond by done. unfold cond.
  assert (Hr := Hf). unfold in_force in Hr. apply andb_true_iff in Hr as [_ Hr]. reflect_bools.
  rewrite (bool_decide_eq_false_2 (rs_route _ = [])) by done. simpl. by rewrite andb_true_r.
Qed.

Lemma rule_verdict_final r : match rule_verdict sn peers r with Reject | Route _ => True | _ => False end.
Proof. unfold rule_verdict. by repeat case_match. Qed.

Lemma decide_rules pk rs :
  decide_route (map route_entry (forced rs)) TagDirect pk = rules_verdict sn plain peers pk rs.
Proof.
  induction rs as [|r rs IH]; [done|]. unfold forced. rewrite filter_cons. simpl.
  destruct (in_force plain peers r) eqn:Hf.
  - rewrite decide_True by done. cbn [map decide_route]. rewrite matches_route_entry by done.
    destruct (applies plain peers pk r); [|exact IH].
    cbn [rt_action route_entry]. pose proof (rule_verdict_final r). by destruct (rule_verdict sn peers r).
  - rewrite decide_False by done. unfold applies. by rewrite Hf.
Qed.

(** *** Clients with a tunnel of their own *)
Definition egress_source (p : Peer) : option (string * list string) :=
  match p.(p_egress), ParseAddr p.(p_address) with
  | Some id, Some (V4 ip) => Some (id, [PrefixString (MkPrefix (V4 ip) 32)])
  | _, _ => None
  end.
Definition egress_routes (p : Peer) : list RouteRule :=
  match egress_source p with
  | None => []
  | Some (id, source) =>
      let raw := MkMatch [] [] source [] in
      if p.(p_enabled) && usable sn id then
        [MkRoute raw (Resolve (peerDNSTag id)); MkRoute (MkMatch [] [] source LocalIPv4) Reject;
         MkRoute raw (Route (TunnelTag id))]
      else [MkRoute raw Reject]
  end.
Definition egress_dns (p : Peer) : option DNSRule :=
  '(id, source) ← egress_source p;
  let raw := MkDNSMatch [] [] [] source in
  Some (if p.(p_enabled) && usable sn id then MkDNSRule raw (DNSRoute (peerDNSTag id) None true) else reject raw).

Lemma egress_step_spec acc p acc' :
  egress_step sn.(sn_settings) (tunnel_map sn.(sn_tunnels)) built.(tu_skipped) acc p = Ok acc' ->
  (is_Some p.(p_egress) -> is_Some (egress_source p)) /\
  acc'.(eg_routes) = acc.(eg_routes) ++ egress_routes p /\
  acc'.(eg_dns).(do_rules) = acc.(eg_dns).(do_rules) ++ option_list (egress_dns p) /\
  acc'.(eg_dns).(do_final) = acc.(eg_dns).(do_final).
Proof using Hids Hbuilt.
  unfold egress_step, egress_routes, egress_dns, egress_source.
  destruct (p_egress p) as [id|]; [|intros [= <-]; simpl; rewrite !app_nil_r; split_and!; try done; by intros []].
  destruct (ParseAddr (p_address p)) as [[ip|]|]; [|done|done]. cbv zeta.
  rewrite (target_live_usable sn built id) by done.
  cbn [mbind option_bind]. rewrite <- negb_andb. destruct (p_enabled p && usable sn id); simpl.
  - intros (servers & _ & Hf)%result_bind_Ok. injection Hf as <-. by split_and!.
  - intros [= <-]. rewrite ?app_nil_r. by split_and!.
Qed.

Lemma egress_fold ps acc acc' :
  fold_result (egress_step sn.(sn_settings) (tunnel_map sn.(sn_tunnels)) built.(tu_skipped)) acc ps = Ok acc' ->
  Forall (fun p => is_Some p.(p_egress) -> is_Some (egress_source p)) ps /\
  acc'.(eg_routes) = acc.(eg_routes) ++ flat_map egress_routes ps /\
  acc'.(eg_dns).(do_rules) = acc.(eg_dns).(do_rules) ++ omap egress_dns ps /\
  acc'.(eg_dns).(do_final) = acc.(eg_dns).(do_final).
Proof using Hids Hbuilt.
  revert acc. induction ps as [|p ps IH]; intros acc; simpl.
  { intros [= <-]. by rewrite !app_nil_r. }
  intros (acc1 & (Hs & H1 & H2 & H3)%egress_step_spec & Hf)%result_bind_Ok.
  apply IH in Hf as (Hall & -> & -> & ->). rewrite H1, H2, H3, <- !app_assoc.
  split_and!; [by constructor|done| |done]. by destruct (egress_dns p).
Qed.

Lemma decide_egress pk ps rest :
  Forall (fun p => is_Some p.(p_egress) -> is_Some (egress_source p)) ps ->
  decide_route (flat_map egress_routes ps ++ rest) TagDirect pk =
  match egress_verdict sn pk ps with Some v => v | None => decide_route rest TagDirect pk end.
Proof.
  induction 1 as [|p ps Hp Hps IH]; [done|]. cbn [flat_map egress_verdict]. rewrite <- app_assoc.
  unfold egress_routes, egress_source in *.
  destruct (p_egress p) as [id|]; [|exact IH].
  destruct (ParseAddr (p_address p)) as [[ip|ip z]|]; [|by destruct Hp|by destruct Hp].
  assert (Hm : forall ips, matches pk (MkMatch [] [] [PrefixString (MkPrefix (V4 ip) 32)] ips) =
               pk_source pk (PrefixString (MkPrefix (V4 ip) 32)) && cond (pk_ip pk) ips).
  { intros ips. unfold matches, cond at 1 2 3. simpl. by rewrite orb_false_r. }
  destruct (p_enabled p && usable sn id); cbn [app decide_route rt_match rt_action andb]; rewrite !Hm;
    destruct (pk_source pk _); cbn [andb]; try exact IH; try reflexivity.
  change (cond (pk_ip pk) []) with true. change (cond (pk_ip pk) LocalIPv4) with (existsb (pk_ip pk) LocalIPv4).
  by destruct (existsb _ _).
Qed.
End rules.


(** *** The whole configuration *)

(** What a run of the generator is made of. *)
Record generated (sn : SnapshotT) (plain : PlainLists) (opts : Options)
  (peers : gmap string (string * bool)) (built : BuiltTunnels) (rules : list Rule) : Prop := {
  g_peers : peer_addresses sn.(sn_peers) = Ok peers;
  g_built : buildTunnels sn.(sn_tunnels) sn.(sn_settings).(s_blocklist) = Ok built;
  g_rules : rules = forced plain peers (sortedRules sn.(sn_rules));
  g_egress : Forall (fun p => is_Some p.(p_egress) -> is_Some (egress_source p)) sn.(sn_peers);
  g_routes : opts.(op_routes) = MkRoute (MkMatch [TagDNSIn] [] [] []) HijackDNS ::
      flat_map (egress_routes sn) sn.(sn_peers) ++ map (route_entry sn plain peers) rules;
  g_dns : opts.(op_dns).(do_rules) = dns_guards ++ omap (egress_dns sn) sn.(sn_peers) ++
      omap (dns_entry sn plain peers) rules;
  g_dns_final : opts.(op_dns).(do_final) = TagDNSUpstream;
  g_servers : exists dns acc, buildDNS sn.(sn_settings) = Ok dns /\
      fold_result (egress_step sn.(sn_settings) (tunnel_map sn.(sn_tunnels)) built.(tu_skipped))
        (MkEgress [] dns []) sn.(sn_peers) = Ok acc /\
      opts.(op_dns).(do_servers) = acc.(eg_dns).(do_servers);
  g_sets : opts.(op_sets) =
      foldl (fun known r => add_sets (buildRuleSets r plain).(rs_sets) known) [] rules;
  g_links : exists chained obs,
      fold_result (fun eps c => ep ← chain_endpoint (tunnel_map sn.(sn_tunnels)) c; Ok (eps ++ [ep]))
        built.(tu_endpoints) (foldl add_chain [] (map (chain_entry sn peers) rules)) = Ok chained /\
      stabilizeWireGuardDetours chained built.(tu_outbounds) = Ok (opts.(op_endpoints), obs) /\
      opts.(op_outbounds) = MkOutbound TypeDirect TagDirect ODirect :: obs;
  g_final : opts.(op_final) = TagDirect
}.

(** What the store guarantees of a snapshot. *)
Record snapshot_ok (sn : SnapshotT) : Prop := {
  so_ids : NoDup (t_id <$> sn.(sn_tunnels));
  so_actions : Forall (fun r => r.(r_action) ∈ RuleActions) sn.(sn_rules)
}.

Lemma insert_by_priority_Permutation r l : insert_by_priority r l ≡ₚ r :: l.
Proof.
  induction l as [|x l IH]; simpl; [done|]. case_decide; [done|].
  rewrite IH. by rewrite Permutation_swap.
Qed.

Lemma sortedRules_Permutation l : sortedRules l ≡ₚ filter (fun r => r.(r_enabled) = true) l.
Proof.
  unfold sortedRules. induction (filter _ l) as [|x k IH]; simpl; [done|].
  by rewrite insert_by_priority_Permutation, IH.
Qed.

Lemma sortedRules_Forall (P : Rule -> Prop) l : Forall P l -> Forall P (sortedRules l).
Proof.
  rewrite sortedRules_Permutation, !Forall_forall. intros H x [_ Hx]%list_elem_of_filter. auto.
Qed.

Lemma Generate_plan_inv sn plain opts diags plan :
  snapshot_ok sn -> generatePolicyWithPlan sn plain = Ok (opts, diags, plan) ->
  exists peers built rules, generated sn plain opts peers built rules /\ plan = map (plan_entry sn plain peers) rules.
Proof.
  intros [Hids Hact]. unfold generatePolicyWithPlan. cbv zeta.
  intros (built & Hb & (peers & Hp & (dns & Hd & ([egress dns1] & He & (acc & Ha & (chained & Hc &
    ([eps obs] & Hst & (din & Hdin & (tin & Htin & Hf)%result_bind_Ok)%result_bind_Ok
    )%result_bind_Ok)%result_bind_Ok)%result_bind_Ok)%result_bind_Ok)%result_bind_Ok)%result_bind_Ok)%result_bind_Ok.
  injection Hf as <- <- <-. unfold peerEgress in He. apply result_bind_Ok in He as (eacc & He & Hpair).
  injection Hpair as <- <-. assert (He' := He). apply egress_fold in He as (Hsrc & Hr & Hdr & Hdf); [|done..].
  apply rules_fold in Ha as (Har & Had & Has & Hac & Hpl);
    [|done|done|by apply sortedRules_Forall].
  exists peers, built, (forced plain peers (sortedRules (sn_rules sn))). split; [|exact Hpl].
  assert (Hguards : dns.(do_rules) = dns_guards /\ dns.(do_final) = TagDNSUpstream).
  { unfold buildDNS in Hd. apply result_bind_Ok in Hd as (u & _ & Hd). by injection Hd as <-. }
  destruct Hguards as [Hguards Hfin].
  split; cbn [op_routes op_dns op_sets op_endpoints op_outbounds op_final do_rules do_servers]; try done.
  - by rewrite Hr, Har.
  - rewrite Hdr, Had. cbn [eg_dns]. by rewrite Hguards, <- app_assoc.
  - by rewrite Hdf.
  - by exists dns, eacc.
  - exists chained, obs. rewrite Hac in Hc. done.
Qed.

Lemma Generate_inv sn plain opts diags :
  snapshot_ok sn -> GeneratePolicyWithDiag sn plain = Ok (opts, diags) ->
  exists peers built rules, generated sn plain opts peers built rules.
Proof.
  intros Hok ([[o d] plan] & Hg & Hpair)%result_bind_Ok. injection Hpair as -> ->.
  apply Generate_plan_inv in Hg as (peers & built & rules & Hg & _); [|done]. by exists peers, built, rules.
Qed.

Lemma decide_generated sn plain opts peers built rules pk :
  generated sn plain opts peers built rules ->
  decide_route opts.(op_routes) opts.(op_final) pk = policy sn plain peers pk.
Proof.
  intros [_ _ -> Hsrc -> _ _ _ _ _ ->]. unfold policy. cbn [decide_route rt_match rt_action].
  assert (matches pk (MkMatch [TagDNSIn] [] [] []) = bool_decide (pk_inbound pk = TagDNSIn)) as ->.
  { unfold matches, cond. simpl. rewrite !andb_true_r, orb_false_r. by apply bool_decide_ext. }
  destruct (decide (pk_inbound pk = TagDNSIn)) as [Hi|Hi].
  - by rewrite bool_decide_eq_true_2.
  - rewrite bool_decide_eq_false_2 by done. rewrite decide_egress by done.
    destruct (egress_verdict sn pk (sn_peers sn)); [done|]. apply decide_rules.
Qed.

(** *** DNS *)
Section dns.
Variables (sn : SnapshotT) (plain : PlainLists) (peers : gmap string (string * bool)).

Lemma dns_entry_spec r :
  r.(r_action) ∈ RuleActions ->
  dns_entry sn plain peers r =
  if decide ((buildRuleSets r plain).(rs_dns) = []) then None
  else MkDNSRule (MkDNSMatch [] [] (buildRuleSets r plain).(rs_dns) (sourceCIDRs r peers).1) <$>
       rule_dns_verdict sn peers r.
Proof.
  unfold dns_entry, dnsRuleFor, rule_dns_verdict. case_decide; [done|]. intros Hact.
  destruct (rule_verdict sn peers r) as [| |tag|] eqn:Hv; cbn [is_reject orb].
  - pose proof (rule_verdict_final sn peers r) as Hf. by rewrite Hv in Hf.
  - done.
  - assert (r_action r <> ActionBlock) as Hnb.
    { intros Hb. unfold rule_verdict in Hv. by rewrite decide_True in Hv. }
    rewrite bool_decide_eq_false_2 by done. by destruct (_ && _).
  - pose proof (rule_verdict_final sn peers r) as Hf. by rewrite Hv in Hf.
Qed.

Lemma decide_dns_rules q rs :
  Forall (fun r => r.(r_action) ∈ RuleActions) rs ->
  decide_dns (omap (dns_entry sn plain peers) (forced plain peers rs)) TagDNSUpstream q =
  rules_dns_verdict sn plain peers q rs.
Proof.
  induction 1 as [|r rs Hr _ IH]; [done|]. unfold forced. rewrite filter_cons. cbn [rules_dns_verdict].
  unfold dns_applies at 1. destruct (in_force plain peers r) eqn:Hf; [|by rewrite decide_False].
  rewrite decide_True by done. cbn [omap list_omap andb]. rewrite dns_entry_spec by done.
  destruct (decide (rs_dns (buildRuleSets r plain) = [])) as [->|Hd]; [exact IH|].
  destruct (rule_dns_verdict sn peers r) as [a|]; cbn [fmap option_fmap option_map].
  2:{ destruct (_ && _); exact IH. }
  cbn [decide_dns dr_match dr_action].
  assert (dns_matches q (MkDNSMatch [] [] (rs_dns (buildRuleSets r plain)) (sourceCIDRs r peers).1) =
          existsb (qu_set q) (rs_dns (buildRuleSets r plain)) &&
          (bool_decide (r_scope r <> ScopeSelected) || existsb (qu_source q) (sourceCIDRs r peers).1)) as ->.
  { unfold dns_matches, cond. simpl. rewrite (bool_decide_eq_false_2 (rs_dns _ = [])) by done. simpl. f_equal.
    by apply (sources_cond plain). }
  destruct (_ && _); [done|exact IH].
Qed.

Lemma decide_dns_egress q ps rest :
  Forall (fun p => is_Some p.(p_egress) -> is_Some (egress_source p)) ps ->
  decide_dns (omap (egress_dns sn) ps ++ rest) TagDNSUpstream q =
  match egress_dns_verdict sn q ps with Some a => a | None => decide_dns rest TagDNSUpstream q end.
Proof.
  induction 1 as [|p ps Hp Hps IH]; [done|]. cbn [omap list_omap egress_dns_verdict].
  assert (Hd : egress_dns sn p = _) by (unfold egress_dns; reflexivity).
  unfold egress_source in Hd, Hp. cbn [mbind option_bind] in Hd.
  destruct (p_egress p) as [id|]; [|rewrite Hd; exact IH].
  destruct (ParseAddr (p_address p)) as [[ip|ip z]|]; [|by destruct Hp|by destruct Hp].
  rewrite Hd. cbn [mbind option_bind app decide_dns].
  assert (Hm : dns_matches q (MkDNSMatch [] [] [] [PrefixString (MkPrefix (V4 ip) 32)]) =
               qu_source q (PrefixString (MkPrefix (V4 ip) 32))).
  { unfold dns_matches, cond. simpl. by rewrite orb_false_r. }
  destruct (p_enabled p && usable sn id); cbn [dr_match dr_action reject]; rewrite Hm;
    by destruct (qu_source q _).
Qed.
End dns.

Lemma decide_dns_generated sn plain opts peers built rules q :
  snapshot_ok sn -> generated sn plain opts peers built rules ->
  decide_dns opts.(op_dns).(do_rules) opts.(op_dns).(do_final) q = dns_policy sn plain peers q.
Proof.
  intros [_ Hact] [_ _ -> Hsrc _ -> -> _ _ _ _]. unfold dns_policy.
  cbn [app dns_guards decide_dns dr_match dr_action reject].
  assert (dns_matches q (MkDNSMatch [65] [] [] []) = bool_decide (65 = qu_type q)) as ->.
  { unfold dns_matches, cond. simpl. by rewrite !andb_true_r, orb_false_r. }
  assert (dns_matches q (MkDNSMatch [] ["use-application-dns.net"%string] [] []) =
          qu_under q "use-application-dns.net") as ->.
  { unfold dns_matches, cond. simpl. by rewrite !andb_true_r, orb_false_r. }
  destruct (decide (qu_type q = 65)) as [Ht|Ht].
  { by rewrite bool_decide_eq_true_2. }
  rewrite bool_decide_eq_false_2 by done. destruct (qu_under q _); [done|].
  rewrite decide_dns_egress by done.
  destruct (egress_dns_verdict sn q (sn_peers sn)); [done|].
  apply decide_dns_rules. by apply sortedRules_Forall.
Qed.

(** ** Properties *)

End policy.

(** ** Witnesses *)
Definition sample_platform : Platform := {| URLPath := Some; Sum256 := fun s => s |}.
Definition sample_source : PoolSource :=
  {| Parse := fun url => Some (Some (MkMember "vless" (Some true) url)) |}.
#[local] Existing Instances ascii_unicode ascii_runes sample_platform sample_source.

(** A pool, a WireGuard tunnel reached by host name, WARP and a tunnel that is
    switched off. *)
Definition gen_tunnels : list Tunnel :=
  [MkTunnel "pool" "Pool" TunnelVLESS SourcePool "https://list" "" true 0
     [MkPoolServer "vless://a" "RU" "" 40 0; MkPoolServer "vless://b?security=tls" "DE" "" 55 1] zero_time true "";
   MkTunnel "vl" "Office" TunnelVLESS SourceURL "vless://c" "{}" true 0 [] zero_time false "";
   MkTunnel "warp" "WARP" TunnelWireGuard SourceWARP "warp" "{}" true 0 [] zero_time false "";
   MkTunnel "off" "Old" TunnelVLESS SourceURL "vless://d" "{}" false 0 [] zero_time false ""].
Definition gen_rules : list Rule :=
  [MkRule "r0" "video" ActionTunnel "pool" "" 0 true [] ["example.com"] [] [] ScopeAll [] false;
   MkRule "r1" "work" ActionTunnel "vl" "warp" 1 true [] [] ["172.30.0.0/16"] [] ScopeSelected ["alice"] true;
   MkRule "r2" "old" ActionTunnel "off" "" 2 true [] ["old.example"] [] [] ScopeAll [] false;
   MkRule "r3" "ads" ActionBlock "" "" 3 true [] ["ads.example"] [] [] ScopeSelected ["bob"] false].
Definition gen_peers : list Peer :=
  [MkPeer false false "" 0 None "alice" "Alice" "pubA" "privA" "pskA" "10.8.0.2" true 0;
   MkPeer false false "" 0 (Some "vl") "carol" "Carol" "pubC" "privC" "pskC" "10.8.0.4" true 0].
Definition gen_snapshot : SnapshotT := MkSnapshot DefaultSettings gen_tunnels gen_rules gen_peers "" [].
Definition gen_plain : PlainLists := fun _ => None.
Definition gen_addresses : gmap string (string * bool) :=
  match peer_addresses gen_peers with Ok m => m | Err _ => ∅ end.
(** A connection of one client to one rule set. *)
Definition gen_packet (source set : string) : packet :=
  MkPacket TagTProxyIn (fun t => bool_decide (t = set)) (fun s => bool_decide (s = source)) (fun _ => false).

Lemma gen_snapshot_ok : snapshot_ok gen_snapshot.
Proof.
  split.
  - apply (bool_decide_eq_true_1 (NoDup (t_id <$> gen_tunnels))). by vm_compute.
  - apply (bool_decide_eq_true_1 (Forall (fun r => r.(r_action) ∈ RuleActions) gen_rules)). by vm_compute.
Qed.

Lemma gen_generates : exists opts diags, GeneratePolicyWithDiag gen_snapshot gen_plain = Ok (opts, diags).
Proof.
  assert (Hr : is_ok (GeneratePolicyWithDiag gen_snapshot gen_plain) = true) by (vm_compute; reflexivity).
  apply is_ok_Ok in Hr as [[opts diags] Hr]. by exists opts, diags.
Qed.
Lemma gen_peer_addresses : peer_addresses gen_peers = Ok gen_addresses.
Proof. vm_compute. reflexivity. Qed.

