(* ===== verification/GenerateRefs.v ===== *)
(** * References inside the generated configuration

    sing-box refuses a configuration that names an outbound, a rule set or a
    DNS server it does not define, and with it every tunnel stops.  Everything
    the generator names is defined. *)

From S2P Require Import Prelude GoStd Model GoJson Db Wf Sample SettingsStore RealityStore PoolFilter SingBox Generate GenerateSpec.
#[local] Open Scope Z_scope.
#[local] Set Default Proof Using "Type".

Section refs.
Context `{PF : Platform} `{PP : PoolPolicy} `{PS : PoolSource}.

(** ** Tunnels *)

(** The tags an outbound hands its traffic to. *)
Definition member_tags (o : OutOptions) : list string :=
  match o with OURLTest l => l | OSelector l d => d :: l | _ => [] end.

Definition members_defined (obs : list Outbound) : Prop :=
  forall ob t, ob ∈ obs -> t ∈ member_tags ob.(ob_options) -> t ∈ map ob_tag obs.

Lemma members_defined_app obs1 obs2 :
  members_defined obs1 -> members_defined obs2 -> members_defined (obs1 ++ obs2).
Proof.
  intros H1 H2 ob t [Hob|Hob]%elem_of_app Ht; rewrite map_app, elem_of_app; [left|right]; eauto.
Qed.

Lemma buildPool_members t countries group : buildPool t countries = Some group -> members_defined group.
Proof.
  unfold buildPool. case_decide; [done|]. intros [= <-].
  intros ob u [Hob|Hob%list_elem_of_singleton]%elem_of_app Hu; rewrite map_app, elem_of_app; left.
  - apply list_elem_of_omap in Hob as (p & _ & Hp). unfold pool_member in Hp.
    destruct (Parse _) as [[m|]|]; [|done|done]. injection Hp as <-. by apply elem_of_nil in Hu.
  - by subst.
Qed.

Lemma buildTunnels_members l countries built :
  buildTunnels l countries = Ok built -> members_defined built.(tu_outbounds).
Proof.
  unfold buildTunnels. apply (fold_result_inv _ (fun _ b => members_defined b.(tu_outbounds))).
  { by intros ob t Hob%elem_of_nil. }
  intros _ x b b' Hb _. unfold add_tunnel. destruct (t_enabled x); simpl; [|by intros [= <-]].
  destruct (decide (t_source x = SourcePool)).
  - destruct (buildPool x countries) as [group|] eqn:Hp; intros [= <-]; [|done].
    apply members_defined_app; [done|by eapply buildPool_members].
  - intros ([typ body] & _ & Hf)%result_bind_Ok. case_decide; injection Hf as <-; [done|].
    apply members_defined_app; [done|].
    intros ob t ->%list_elem_of_singleton Ht. by apply elem_of_nil in Ht.
Qed.

Lemma usable_tag sn built id :
  snapshot_ok sn -> buildTunnels sn.(sn_tunnels) sn.(sn_settings).(s_blocklist) = Ok built ->
  usable sn id = true -> TunnelTag id ∈ all_tags built.(tu_endpoints) built.(tu_outbounds).
Proof.
  intros _ [_ Ht]%buildTunnels_spec Hu. unfold usable in Hu.
  destruct (tunnel_map _ !! id) as [t|] eqn:Hm; [|done].
  apply tunnel_map_Some in Hm as [Hin <-]. apply andb_true_iff in Hu as [Hen Hp].
  apply Ht; [done|done|]. intros (_ & Hsrc & Hb).
  rewrite Hb, bool_decide_eq_false_2 in Hp by tauto. done.
Qed.

(** ** Chains *)
Lemma add_chain_tags known c :
  map chain_tag known ⊆ map chain_tag (add_chain known c) /\
  (forall c0, c = Some c0 -> chain_tag c0 ∈ map chain_tag (add_chain known c)).
Proof.
  unfold add_chain. destruct c as [c|]; [|done]. case_decide as Hc.
  - split; [done|]. by intros c0 [= <-].
  - rewrite map_app. split; [set_solver|]. intros c0 [= <-]. simpl. set_solver.
Qed.

Lemma fold_chains_tags cs known c :
  chain_tag c ∈ map chain_tag known \/ Some c ∈ cs ->
  chain_tag c ∈ map chain_tag (foldl add_chain known cs).
Proof.
  revert known. induction cs as [|x cs IH]; intros known [H|H]; simpl;
    try done; [by apply elem_of_nil in H| |]; destruct (add_chain_tags known x) as [Hs Hx]; apply IH.
  - left. by apply Hs.
  - apply elem_of_cons in H as [<-|H]; [left; by apply Hx|by right].
Qed.

Lemma chains_origin cs c : c ∈ foldl add_chain [] cs -> Some c ∈ cs.
Proof.
  assert (Hgen : forall known, c ∈ foldl add_chain known cs -> c ∈ known \/ Some c ∈ cs).
  { induction cs as [|x cs IH]; intros known H; simpl in H; [by left|].
    apply IH in H as [H|H]; [|right; by right].
    unfold add_chain in H. destruct x as [x|]; [|by left]. case_decide; [by left|].
    apply elem_of_app in H as [H| ->%list_elem_of_singleton]; [by left|right; by left]. }
  intros H. apply Hgen in H as [H|H]; [by apply elem_of_nil in H|done].
Qed.

Lemma chain_fold tunnels cs eps eps' :
  fold_result (fun eps c => ep ← chain_endpoint tunnels c; Ok (eps ++ [ep])) eps cs = Ok eps' ->
  exists new, eps' = eps ++ new /\ map ep_tag new = map chain_tag cs /\
    Forall2 (fun c e => e.(ep_tag) = chain_tag c /\ exists fs, e.(ep_body) = Some fs /\
               get_field "detour" fs = Some (JStr (TunnelTag c.2))) cs new.
Proof.
  revert eps. induction cs as [|c cs IH]; intros eps; simpl.
  { intros [= <-]. exists []. by rewrite app_nil_r. }
  intros (b & (ep & Hep & Hb)%result_bind_Ok & Hf)%result_bind_Ok. injection Hb as <-.
  apply IH in Hf as (new & -> & Hm & Hall). exists (ep :: new). rewrite <- app_assoc.
  unfold chain_endpoint in Hep. destruct (tunnels !! c.1) as [via|]; [|done].
  unfold chainEndpoint in Hep. apply result_bind_Ok in Hep as ([typ body] & _ & Hep).
  case_decide; [done|]. destruct body as [fs|]; [|done]. injection Hep as <-.
  split; [done|]. split; [simpl; by f_equal|]. constructor; [|done].
  split; [done|]. eexists. split; [reflexivity|]. rewrite get_set_field. by rewrite decide_True.
Qed.

(** ** Aliases of parents *)
Definition selector_of (parents : list string) (ob : Outbound) : Prop :=
  exists d, d ∈ parents /\ ob.(ob_options) = OSelector [d] d.

(** An endpoint of the result: the old one, or the old one behind a selector
    that leads to the parent it named. *)
Definition relinked (obs : list Outbound) (old new : Endpoint) : Prop :=
  new = old \/
  exists detour peers alias, decode_peer old.(ep_body) = Some (detour, peers) /\
    MkOutbound TypeSelector alias (OSelector [detour] detour) ∈ obs /\
    new = MkEndpoint old.(ep_type) old.(ep_tag) (set_field "detour" (JStr alias) <$> old.(ep_body)).

Definition alias_inv (parents : list string) (obs0 : list Outbound) (seen : list Endpoint) (acc : AliasAcc) : Prop :=
  Forall2 (relinked acc.(al_outbounds)) seen acc.(al_endpoints) /\
  (exists new, acc.(al_outbounds) = obs0 ++ new /\ Forall (selector_of parents) new) /\
  (forall d a, (d, a) ∈ acc.(al_aliases) ->
     MkOutbound TypeSelector a (OSelector [d] d) ∈ acc.(al_outbounds)).

Lemma relinked_mono obs obs' old new :
  (forall ob, ob ∈ obs -> ob ∈ obs') -> relinked obs old new -> relinked obs' old new.
Proof. intros Hs [->|(d & ps & a & ? & ? & ?)]; [by left|right]. exists d, ps, a. auto. Qed.

Lemma alias_step_inv parents obs0 seen acc ep acc' :
  alias_inv parents obs0 seen acc -> alias_step parents acc ep = Ok acc' ->
  alias_inv parents obs0 (seen ++ [ep]) acc'.
Proof.
  intros (Hall & (new & Hnew & Hsel) & Hal). unfold alias_step.
  assert (Hkeep : forall acc1, acc1 = MkAlias acc.(al_used) acc.(al_aliases) (acc.(al_endpoints) ++ [ep]) acc.(al_outbounds) ->
    alias_inv parents obs0 (seen ++ [ep]) acc1).
  { intros ? ->. split_and!; simpl; [|by eexists|done].
    apply Forall2_app; [done|]. constructor; [by left|constructor]. }
  destruct (decide (ep_type ep <> TypeWireGuard)); [intros [= <-]; by apply Hkeep|].
  destruct (decode_peer (ep_body ep)) as [[detour ps]|] eqn:Hd; [|done].
  destruct (_ || _) eqn:Hc; [intros [= <-]; by apply Hkeep|].
  apply orb_false_iff in Hc as [Hpar _]. reflect_bools. cbv zeta.
  destruct (list_find _ _) as [[i [d a]]|] eqn:Hf.
  - apply list_find_Some in Hf as (Hi & Heq & _). simpl in Heq. subst d. intros [= <-].
    assert (Hin : (detour, a) ∈ al_aliases acc) by (by eapply list_elem_of_lookup_2).
    split_and!; simpl; [|by eexists|done].
    apply Forall2_app; [done|]. constructor; [|constructor]. right. exists detour, ps, a. auto.
  - case_decide as Hu; [done|]. intros [= <-]. set (alias := wireGuardParentTag detour).
    split_and!; simpl.
    + apply Forall2_app.
      * eapply Forall2_impl; [exact Hall|]. intros old e. apply relinked_mono. set_solver.
      * constructor; [|constructor]. right. exists detour, ps, alias. split_and!; [done|set_solver|done].
    + exists (new ++ [MkOutbound TypeSelector alias (OSelector [detour] detour)]).
      split; [by rewrite Hnew, <- app_assoc|]. apply Forall_app. split; [done|].
      constructor; [|constructor]. by exists detour.
    + intros d a [[= -> ->]|Hda]%elem_of_cons; [set_solver|]. specialize (Hal _ _ Hda). set_solver.
Qed.

Lemma stabilize_spec eps obs eps' obs' :
  stabilizeWireGuardDetours eps obs = Ok (eps', obs') ->
  Forall2 (relinked obs') eps eps' /\
  exists new, obs' = obs ++ new /\ Forall (selector_of (map ep_tag eps)) new.
Proof.
  unfold stabilizeWireGuardDetours. intros (acc & Hf & Hr)%result_bind_Ok. injection Hr as <- <-.
  eapply (fold_result_inv _ (alias_inv (map ep_tag (filter (fun e => e.(ep_type) = TypeWireGuard) eps)) obs))
    in Hf as (Hall & (new & Hnew & Hsel) & _).
  - split; [done|]. exists new. split; [done|]. eapply Forall_impl; [exact Hsel|].
    intros ob (d & Hd & Ho). exists d. split; [|done].
    apply list_elem_of_fmap in Hd as (e & -> & He). apply list_elem_of_filter in He as [_ He].
    by apply list_elem_of_fmap_2.
  - split_and!; simpl; [constructor|exists []; by rewrite app_nil_r|by intros d a ?%elem_of_nil].
  - intros seen x b b' Hinv _. by apply alias_step_inv.
Qed.

Lemma relinked_tags obs eps eps' : Forall2 (relinked obs) eps eps' -> map ep_tag eps' = map ep_tag eps.
Proof. induction 1 as [|e e' eps eps' He _ IH]; [done|]. simpl. f_equal; [|done].
  by destruct He as [->|(d & ps & a & _ & _ & ->)]. Qed.

(** ** Rule sets *)
Lemma add_sets_tags sets known :
  NoDup (map st_tag known) ->
  NoDup (map st_tag (add_sets sets known)) /\
  forall t, t ∈ map st_tag (add_sets sets known) <-> t ∈ map st_tag known \/ t ∈ map st_tag sets.
Proof.
  unfold add_sets. revert known. induction sets as [|x sets IH]; intros known Hnd; simpl; [set_solver|].
  case_decide as Hx.
  - destruct (IH known Hnd) as [H1 H2]. split; [done|]. intros t. rewrite H2, elem_of_cons. naive_solver.
  - destruct (IH (known ++ [x])) as [H1 H2].
    { rewrite map_app. apply NoDup_app. split_and!; [done| |apply NoDup_singleton].
      intros t Ht ->%list_elem_of_singleton. done. }
    split; [done|]. intros t. rewrite H2, map_app, elem_of_app, elem_of_cons. simpl. set_solver.
Qed.

Lemma fold_sets_tags {A} (f : A -> list RuleSet) l known :
  NoDup (map st_tag known) ->
  NoDup (map st_tag (foldl (fun known r => add_sets (f r) known) known l)) /\
  forall t, t ∈ map st_tag known \/ (exists r, r ∈ l /\ t ∈ map st_tag (f r)) ->
            t ∈ map st_tag (foldl (fun known r => add_sets (f r) known) known l).
Proof.
  revert known. induction l as [|x l IH]; intros known Hnd; simpl.
  { split; [done|]. intros t [Ht|(r & Hr & _)]; [done|by apply elem_of_nil in Hr]. }
  destruct (add_sets_tags (f x) known Hnd) as [H1 H2]. destruct (IH _ H1) as [H3 H4].
  split; [done|]. intros t Ht. apply H4. rewrite H2.
  destruct Ht as [Ht|(r & [->|Hr]%elem_of_cons & Ht)]; [tauto|tauto|]. right. by exists r.
Qed.

Definition sets_inv (b : RuleSets) : Prop :=
  b.(rs_route) ⊆ map st_tag b.(rs_sets) /\ b.(rs_dns) ⊆ map st_tag b.(rs_sets).

Lemma addInline_inv tag l b b' : sets_inv b -> addInline tag l b = Some b' -> sets_inv b'.
Proof.
  intros [H1 H2]. unfold addInline. destruct (inlineRuleSet tag l) as [set|] eqn:Hs; [|done].
  assert (st_tag set = tag).
  { unfold inlineRuleSet in Hs. case_decide; [done|]. by injection Hs as <-. }
  intros [= <-]. unfold sets_inv. simpl.
  destruct (inlineRuleSet (dnsTag tag) _) as [dns|]; simpl; rewrite map_app; simpl; set_solver.
Qed.

Lemma addNative_inv plain tag raw b : sets_inv b -> sets_inv (addNative plain tag raw b).
Proof.
  intros [H1 H2]. unfold addNative. destruct (rs_err b); [done|].
  destruct (plain raw) as [[doms subs [a|] tr c]|]; [|done|done].
  unfold sets_inv. simpl. case_decide; simpl; rewrite map_app; simpl; set_solver.
Qed.

Lemma buildRuleSets_inv r plain : sets_inv (buildRuleSets r plain).
Proof.
  unfold buildRuleSets.
  assert (Hrem : forall l b, sets_inv b -> sets_inv (foldl (add_remote plain r.(r_id)) b l)).
  { induction l as [|[i raw] l IH]; intros b Hb; simpl; [done|]. apply IH.
    destruct (ruleSetFormat raw); [by apply addNative_inv|].
    destruct (plain raw) as [c|]; simpl; [|done].
    destruct (addInline _ c b) as [b'|] eqn:Ha; [by eapply addInline_inv|done]. }
  assert (Hcom : forall l b, sets_inv b -> sets_inv
    (foldl (fun b key => addNative plain (communityTag key) (communityListURL key) b) b l)).
  { induction l as [|key l IH]; intros b Hb; simpl; [done|]. apply IH. by apply addNative_inv. }
  apply Hrem. destruct (addInline _ _ _) as [b'|] eqn:Ha; simpl.
  - eapply addInline_inv; [|exact Ha]. by apply Hcom.
  - by apply Hcom.
Qed.

(** ** DNS servers *)
Definition server_tags (l : list DNSServer) : list string := map ds_tag l.

Definition server_defined (sn : SnapshotT) (l : list DNSServer) (x : DNSServer) : Prop :=
  (x.(ds_detour) = EmptyString \/ exists id, usable sn id = true /\ x.(ds_detour) = TunnelTag id) /\
  match x.(ds_resolver) with Some (t, _) => t ∈ server_tags l | None => True end.

Lemma server_defined_mono sn l l' x :
  server_tags l ⊆ server_tags l' -> server_defined sn l x -> server_defined sn l' x.
Proof. intros Hs [H1 H2]. split; [done|]. destruct (ds_resolver x) as [[t b]|]; [by apply Hs|done]. Qed.

Record servers_inv (sn : SnapshotT) (seen : list Peer) (acc : EgressAcc) : Prop := {
  si_base : [TagDNSUpstream; TagDNSBootstrap; TagDNSFakeIP] ⊆ server_tags acc.(eg_dns).(do_servers);
  si_seen : forall id, id ∈ acc.(eg_seen) -> peerDNSTag id ∈ server_tags acc.(eg_dns).(do_servers);
  si_peers : forall p id, p ∈ seen -> p.(p_egress) = Some id -> p.(p_enabled) && usable sn id = true ->
               id ∈ acc.(eg_seen);
  si_all : Forall (server_defined sn acc.(eg_dns).(do_servers)) acc.(eg_dns).(do_servers)
}.

Lemma egress_servers_ok sn st id servers :
  usable sn id = true -> egress_servers st id = Ok servers ->
  peerDNSTag id ∈ server_tags servers /\ Forall (server_defined sn servers) servers.
Proof.
  intros Hu. unfold egress_servers. intros (server & _ & Hf)%result_bind_Ok. cbv zeta in Hf.
  assert (Hd : TunnelTag id = EmptyString \/ exists id', usable sn id' = true /\ TunnelTag id = TunnelTag id')
    by (right; by exists id).
  destruct (ds_resolver server); injection Hf as <-; (split; [simpl; set_solver|]);
    rewrite ?Forall_cons; split_and!; try apply Forall_nil_2; (split; [exact Hd|]); simpl; [done|set_solver|done].
Qed.

Lemma egress_step_servers sn built seen acc p acc' :
  snapshot_ok sn -> buildTunnels sn.(sn_tunnels) sn.(sn_settings).(s_blocklist) = Ok built ->
  servers_inv sn seen acc ->
  egress_step sn.(sn_settings) (tunnel_map sn.(sn_tunnels)) built.(tu_skipped) acc p = Ok acc' ->
  servers_inv sn (seen ++ [p]) acc'.
Proof.
  intros [Hids _] Hb [Hbase Hseen Hpeers Hall]. unfold egress_step.
  assert (Hext : forall acc1 more, acc1.(eg_dns).(do_servers) = acc.(eg_dns).(do_servers) ++ more ->
    acc.(eg_seen) ⊆ acc1.(eg_seen) ->
    (forall id, id ∈ acc1.(eg_seen) -> id ∈ acc.(eg_seen) \/ peerDNSTag id ∈ server_tags acc1.(eg_dns).(do_servers)) ->
    (forall id, p.(p_egress) = Some id -> p.(p_enabled) && usable sn id = true -> id ∈ acc1.(eg_seen)) ->
    Forall (server_defined sn more) more -> servers_inv sn (seen ++ [p]) acc1).
  { intros acc1 more Hs Hsub Hnew Hp Hmore.
    assert (Hmono : forall l, l ∈ [acc.(eg_dns).(do_servers); more] ->
                    server_tags l ⊆ server_tags (acc1.(eg_dns).(do_servers))).
    { intros l Hl. rewrite Hs. unfold server_tags. rewrite map_app.
      repeat (apply elem_of_cons in Hl as [->|Hl]); [set_solver|set_solver|by apply elem_of_nil in Hl]. }
    split.
    - etransitivity; [exact Hbase|]. apply Hmono. by left.
    - intros id Hid. apply Hnew in Hid as [Hid|Hid]; [|done]. apply Hmono with (eg_dns acc).(do_servers); [by left|].
      by apply Hseen.
    - intros q id [Hq| ->%list_elem_of_singleton]%elem_of_app He Hu; [|by apply Hp].
      apply Hsub. by eapply Hpeers.
    - rewrite Hs at 2. apply Forall_app. split.
      + eapply Forall_impl; [exact Hall|]. intros x. apply server_defined_mono, Hmono. by left.
      + eapply Forall_impl; [exact Hmore|]. intros x. apply server_defined_mono, Hmono. right. by left. }
  destruct (p_egress p) as [id|] eqn:He.
  2:{ intros [= <-]. apply (Hext acc []); [by rewrite app_nil_r|done|by left|done|done]. }
  destruct (ParseAddr (p_address p)) as [[ip|]|]; [|done|done]. cbv zeta.
  rewrite (target_live_usable sn built id) by done. rewrite <- negb_andb.
  destruct (p_enabled p && usable sn id) eqn:Hu; cbn [negb].
  - assert (Hus : usable sn id = true) by (by apply andb_true_iff in Hu as [_ Hu]).
    intros (servers & Hs & Hf)%result_bind_Ok. injection Hf as <-.
    apply (Hext _ servers); simpl; [done|set_solver| |by intros id' [= <-] _; left|].
    + intros id' [->|Hid']%elem_of_cons; [|by left]. destruct (decide (id ∈ eg_seen acc)) as [Hin|Hin].
      * by left.
      * right. apply (egress_servers_ok sn) in Hs as [Hs _]; [|done].
        unfold server_tags in *. rewrite map_app. set_solver.
    + destruct (decide (id ∈ eg_seen acc)); [injection Hs as <-; by constructor|].
      by eapply egress_servers_ok.
  - intros [= <-]. apply (Hext _ []); simpl; [done|done|by left| |done].
    intros id' [= <-] Hu'. congruence.
Qed.

Lemma servers_generated sn plain opts peers built rules :
  snapshot_ok sn -> generated sn plain opts peers built rules ->
  [TagDNSUpstream; TagDNSFakeIP] ⊆ server_tags opts.(op_dns).(do_servers) /\
  (forall p id, p ∈ sn.(sn_peers) -> p.(p_egress) = Some id -> p.(p_enabled) && usable sn id = true ->
     peerDNSTag id ∈ server_tags opts.(op_dns).(do_servers)) /\
  Forall (server_defined sn opts.(op_dns).(do_servers)) opts.(op_dns).(do_servers).
Proof.
  intros Hok Hg. destruct (g_servers _ _ _ _ _ _ Hg) as (dns & acc & Hdns & Hacc & ->).
  pose proof (g_built _ _ _ _ _ _ Hg) as Hb.
  assert (Hinv : servers_inv sn (sn_peers sn) acc).
  { revert Hacc. apply (fold_result_inv _ (servers_inv sn)).
    - unfold buildDNS in Hdns. apply result_bind_Ok in Hdns as (up & Hup & Hdns). injection Hdns as <-.
      unfold upstreamServer in Hup. apply result_bind_Ok in Hup as ([host port] & _ & Hup). cbv zeta in Hup.
      assert (exists typ res, up = MkDNSServer typ TagDNSUpstream host port res EmptyString /\
                (res = None \/ res = Some (TagDNSBootstrap, false))) as (typ & res & -> & Hres).
      { do 3 (case_decide; [injection Hup as <-; do 2 eexists; split; [reflexivity|]; by case_decide; auto|]). done. }
      split; simpl; [set_solver|by intros id ?%elem_of_nil|by intros p id ?%elem_of_nil|].
      rewrite !Forall_cons. split_and!; try apply Forall_nil_2; (split; [by left|]); simpl; [|done..].
      destruct Hres as [-> | ->]; [done|]. set_solver.
    - intros seen x b b' Hinv _. by apply egress_step_servers. }
  destruct Hinv as [H1 H2 H3 H4]. split_and!; [set_solver| |done].
  intros p id Hp He Hu. apply H2. by eapply H3.
Qed.

(** ** The whole configuration *)
Lemma chain_origin_usable sn peers rules c :
  Some c ∈ map (chain_entry sn peers) rules -> usable sn c.2 = true.
Proof.
  intros (r & Hr & _)%list_elem_of_fmap. unfold chain_entry in Hr.
  destruct (rule_verdict sn peers r) as [| |tag|] eqn:Hv; try done. case_decide as Ha; [|done].
  injection Hr as ->. destruct Ha as [Ha _]. unfold rule_verdict in Hv. rewrite Ha in Hv.
  rewrite decide_False in Hv by done. destruct (negb _); [done|]. rewrite decide_False in Hv by done.
  destruct (links_usable sn r) eqn:Hl; [|done]. unfold links_usable in Hl. by apply andb_true_iff in Hl as [Hl _].
Qed.

Definition out_tags (opts : Options) : list string := all_tags opts.(op_endpoints) opts.(op_outbounds).

(** Where the tags of the result come from. *)
Lemma out_tags_generated sn plain opts peers built rules :
  snapshot_ok sn -> generated sn plain opts peers built rules ->
  (forall id, usable sn id = true -> TunnelTag id ∈ out_tags opts) /\
  (forall c, Some c ∈ map (chain_entry sn peers) rules ->
     exists e fs d, e ∈ opts.(op_endpoints) /\ e.(ep_tag) = chain_tag c /\ e.(ep_body) = Some fs /\
       get_field "detour" fs = Some (JStr d) /\
       ((exists id, usable sn id = true /\ d = TunnelTag id) \/ d ∈ map ob_tag opts.(op_outbounds))) /\
  TagDirect ∈ out_tags opts /\
  (forall ob t, ob ∈ opts.(op_outbounds) -> t ∈ member_tags ob.(ob_options) -> t ∈ out_tags opts).
Proof.
  intros Hok Hg. pose proof (g_built _ _ _ _ _ _ Hg) as Hb.
  destruct (g_links _ _ _ _ _ _ Hg) as (chained & obs & Hc & Hst & Hobs).
  apply chain_fold in Hc as (new & -> & Htags & Hdet).
  apply stabilize_spec in Hst as (Hrel & more & -> & Hsel).
  pose proof (relinked_tags _ _ _ Hrel) as Hmap. unfold out_tags, all_tags. rewrite Hmap, Hobs.
  cbn [map ob_tag]. rewrite !map_app in *. split_and!.
  - intros id Hu. apply (usable_tag sn built) in Hu; [|done..]. unfold all_tags in Hu. set_solver.
  - intros c Hcin. assert (Hct : chain_tag c ∈ map ep_tag new).
    { rewrite Htags. apply fold_chains_tags. by right. }
    rewrite Htags in Hct. apply list_elem_of_fmap in Hct as (c' & Hcc & Hc').
    apply chains_origin in Hc' as Hor. apply chain_origin_usable in Hor.
    apply list_elem_of_lookup in Hc' as [i Hi].
    destruct (Forall2_lookup_l _ _ _ _ _ Hdet Hi) as (e0 & He0 & He0t & fs & Hfs & Hd).
    destruct (Forall2_lookup_l _ _ _ (length (tu_endpoints built) + i) e0 Hrel) as (e & He & Hre).
    { by rewrite lookup_app_r, Nat.add_comm, Nat.add_sub by lia. }
    exists e. apply list_elem_of_lookup_2 in He. destruct Hre as [->|(d' & ps & alias & _ & Hal & ->)].
    + exists fs, (TunnelTag c'.2). split_and!; [done|congruence|done|done|left; by exists c'.2].
    + exists (set_field "detour" (JStr alias) fs), alias. rewrite Hfs in He |- *. cbn [ep_tag ep_body].
      split_and!; [exact He|congruence|done|by rewrite get_set_field, decide_True|right].
      apply elem_of_cons. right. rewrite <- map_app. apply list_elem_of_fmap.
      by exists (MkOutbound TypeSelector alias (OSelector [d'] d')).
  - set_solver.
  - intros ob t [->|[Hin|Hin]%elem_of_app]%elem_of_cons Ht.
    + by apply elem_of_nil in Ht.
    + pose proof (buildTunnels_members _ _ _ Hb ob t Hin Ht). set_solver.
    + rewrite Forall_forall in Hsel. destruct (Hsel ob Hin) as (d & Hd & Ho). rewrite Ho in Ht. set_solver.
Qed.

Lemma rule_tag_defined sn plain opts peers built rules r tag :
  snapshot_ok sn -> generated sn plain opts peers built rules -> r ∈ rules ->
  r.(r_action) ∈ RuleActions -> rule_verdict sn peers r = Route tag -> tag ∈ out_tags opts.
Proof.
  intros Hok Hg Hr Hact Hv. destruct (out_tags_generated _ _ _ _ _ _ Hok Hg) as (Htun & Hchain & Hdir & _).
  assert (Hce : Some (r_via r, r_tunnel r) = chain_entry sn peers r ->
    chain_tag (r_via r, r_tunnel r) ∈ out_tags opts).
  { intros Hce. destruct (Hchain (r_via r, r_tunnel r)) as (e & fs & d & He & Het & _).
    - rewrite Hce. by apply list_elem_of_fmap_2.
    - rewrite <- Het. unfold out_tags, all_tags. apply elem_of_app. left. by apply list_elem_of_fmap_2. }
  unfold chain_entry in Hce. rewrite Hv in Hce. unfold rule_verdict in Hv.
  destruct (decide (r_action r = ActionBlock)); [done|]. destruct (negb _); [done|].
  destruct (decide (r_action r = ActionDirect)); [by injection Hv as <-|].
  destruct (links_usable sn r) eqn:Hl; [|done]. injection Hv as <-. unfold links_usable in Hl.
  apply andb_true_iff in Hl as [Hu _]. unfold link_tag.
  destruct (decide (r_via r = EmptyString)) as [Hvia|Hvia]; [by apply Htun|].
  apply Hce. rewrite decide_True; [done|]. split; [|done].
  unfold RuleActions in Hact. rewrite !elem_of_cons, elem_of_nil in Hact. naive_solver.
Qed.

Lemma generated_actions sn plain opts peers built rules :
  snapshot_ok sn -> generated sn plain opts peers built rules ->
  Forall (fun r => r.(r_action) ∈ RuleActions) rules.
Proof.
  intros [_ Hact] Hg. rewrite (g_rules _ _ _ _ _ _ Hg). apply sortedRules_Forall in Hact.
  rewrite Forall_forall in *. intros r [_ Hr]%list_elem_of_filter. auto.
Qed.

Lemma sets_generated sn plain opts peers built rules :
  generated sn plain opts peers built rules ->
  NoDup (map st_tag opts.(op_sets)) /\
  forall r t, r ∈ rules -> t ∈ (buildRuleSets r plain).(rs_route) \/ t ∈ (buildRuleSets r plain).(rs_dns) ->
    t ∈ map st_tag opts.(op_sets).
Proof.
  intros Hg. rewrite (g_sets _ _ _ _ _ _ Hg).
  destruct (fold_sets_tags (fun r => rs_sets (buildRuleSets r plain)) rules []) as [H1 H2]; [constructor|].
  split; [done|]. intros r t Hr Ht. apply H2. right. exists r. split; [done|].
  destruct (buildRuleSets_inv r plain) as [Ha Hb]. destruct Ht as [Ht|Ht]; [by apply Ha|by apply Hb].
Qed.

(** Where a route rule and a DNS rule come from. *)
Lemma route_cases sn plain opts peers built rules r :
  generated sn plain opts peers built rules -> r ∈ opts.(op_routes) ->
  r = MkRoute (MkMatch [TagDNSIn] [] [] []) HijackDNS \/
  (exists p, p ∈ sn.(sn_peers) /\ r ∈ egress_routes sn p) \/
  (exists x, x ∈ rules /\ r = route_entry sn plain peers x).
Proof.
  intros Hg Hr. rewrite (g_routes _ _ _ _ _ _ Hg) in Hr.
  apply elem_of_cons in Hr as [->|[Hr|Hr]%elem_of_app]; [by left|right; left|right; right].
  - apply list_elem_of_In, in_flat_map in Hr as (p & Hp%list_elem_of_In & Hr%list_elem_of_In). by exists p.
  - apply list_elem_of_fmap in Hr as (x & -> & Hx). by exists x.
Qed.

Lemma dns_cases sn plain opts peers built rules r :
  generated sn plain opts peers built rules -> r ∈ opts.(op_dns).(do_rules) ->
  r ∈ dns_guards \/ (exists p, p ∈ sn.(sn_peers) /\ egress_dns sn p = Some r) \/
  (exists x, x ∈ rules /\ dns_entry sn plain peers x = Some r).
Proof.
  intros Hg Hr. rewrite (g_dns _ _ _ _ _ _ Hg) in Hr.
  apply elem_of_app in Hr as [Hr|[Hr|Hr]%elem_of_app]; [by left|right; left|right; right];
    by apply list_elem_of_omap in Hr.
Qed.

Lemma egress_routes_sets sn p r : r ∈ egress_routes sn p -> rm_sets (rt_match r) = [].
Proof.
  unfold egress_routes. destruct (egress_source p) as [[id source]|]; [|by intros ?%elem_of_nil].
  destruct (_ && _); rewrite !elem_of_cons, elem_of_nil; naive_solver.
Qed.

(** A verdict that names a chain comes from the rule's two links. *)
Lemma chain_of_verdict sn peers r via first :
  rule_verdict sn peers r = Route (ChainTag via first) -> r.(r_action) ∈ RuleActions ->
  exists c, Some c = chain_entry sn peers r /\ chain_tag c = ChainTag via first.
Proof.
  intros Hv Hact. unfold chain_entry. rewrite Hv. unfold rule_verdict in Hv.
  case_decide; [done|]. destruct (negb _); [done|]. case_decide; [done|].
  destruct (links_usable sn r); [|done]. injection Hv as Hv. unfold link_tag in Hv.
  case_decide; [done|]. exists (r_via r, r_tunnel r). rewrite decide_True; [done|].
  split; [|done]. unfold RuleActions in Hact. rewrite !elem_of_cons, elem_of_nil in Hact. naive_solver.
Qed.

(** ** Properties *)

(** C20: every outbound the configuration sends traffic to is defined in it: the
    target of each route rule and the final one, every member of a pool's group
    and of a selector, and the channel through which a DNS server is asked; and
    each chain a rule uses has an endpoint whose detour is defined. *)
Theorem Generate_outbounds_defined sn plain opts diags :
  snapshot_ok sn -> GeneratePolicyWithDiag sn plain = Ok (opts, diags) ->
  (forall r tag, r ∈ opts.(op_routes) -> r.(rt_action) = Route tag -> tag ∈ out_tags opts) /\
  opts.(op_final) ∈ out_tags opts /\
  (forall ob t, ob ∈ opts.(op_outbounds) -> t ∈ member_tags ob.(ob_options) -> t ∈ out_tags opts) /\
  (forall x, x ∈ opts.(op_dns).(do_servers) -> x.(ds_detour) <> EmptyString -> x.(ds_detour) ∈ out_tags opts) /\
  (forall r via first, r ∈ opts.(op_routes) -> r.(rt_action) = Route (ChainTag via first) ->
     exists e fs d, e ∈ opts.(op_endpoints) /\ e.(ep_tag) = ChainTag via first /\ e.(ep_body) = Some fs /\
       get_field "detour" fs = Some (JStr d) /\ d ∈ out_tags opts).
Proof.
  intros Hok (peers & built & rules & Hg)%Generate_inv; [|done].
  destruct (out_tags_generated _ _ _ _ _ _ Hok Hg) as (Htun & Hchain & Hdir & Hmem).
  pose proof (generated_actions _ _ _ _ _ _ Hok Hg) as Hact. rewrite Forall_forall in Hact.
  assert (Hroute : forall r tag, r ∈ op_routes opts -> rt_action r = Route tag ->
    (exists id, usable sn id = true /\ tag = TunnelTag id) \/
    exists x, x ∈ rules /\ rule_verdict sn peers x = Route tag).
  { intros r tag Hr Ha. rewrite (g_routes _ _ _ _ _ _ Hg) in Hr.
    apply elem_of_cons in Hr as [->|[Hr|Hr]%elem_of_app]; [done| |].
    - left. apply list_elem_of_In, in_flat_map in Hr as (p & _ & Hp%list_elem_of_In).
      unfold egress_routes in Hp. destruct (egress_source p) as [[id source]|]; [|by apply elem_of_nil in Hp].
      destruct (p_enabled p && usable sn id) eqn:Hu.
      + apply andb_true_iff in Hu as [_ Hu]. exists id. split; [done|].
        rewrite !elem_of_cons, elem_of_nil in Hp. destruct Hp as [->|[->|[->|[]]]]; try done.
        by injection Ha as <-.
      + by apply list_elem_of_singleton in Hp as ->.
    - right. apply list_elem_of_fmap in Hr as (x & -> & Hx). by exists x. }
  split_and!.
  - intros r tag Hr Ha. destruct (Hroute r tag Hr Ha) as [(id & Hu & ->)|(x & Hx & Hv)]; [by apply Htun|].
    eapply rule_tag_defined; eauto.
  - by rewrite (g_final _ _ _ _ _ _ Hg).
  - exact Hmem.
  - intros x Hx Hd. destruct (servers_generated _ _ _ _ _ _ Hok Hg) as (_ & _ & Hall).
    rewrite Forall_forall in Hall. destruct (Hall x Hx) as [[He|(id & Hu & ->)] _]; [done|by apply Htun].
  - intros r via first Hr Ha. destruct (Hroute r _ Hr Ha) as [(id & _ & Ht)|(x & Hx & Hv)]; [done|].
    destruct (chain_of_verdict sn peers x via first Hv (Hact x Hx)) as (c & Hc & <-).
    destruct (Hchain c) as (e & fs & d & He & Het & Hfs & Hd & Hdd).
    { rewrite Hc. by apply list_elem_of_fmap_2. }
    exists e, fs, d. split_and!; try done.
    destruct Hdd as [(id & Hu & ->)|Hdd]; [by apply Htun|]. unfold out_tags, all_tags. set_solver.
Qed.

(** every rule set and DNS server the configuration names is defined in it;
    the tags of the rule sets are distinct. *)
Theorem Generate_sets_defined sn plain opts diags :
  snapshot_ok sn -> GeneratePolicyWithDiag sn plain = Ok (opts, diags) ->
  NoDup (map st_tag opts.(op_sets)) /\
  (forall r t, r ∈ opts.(op_routes) -> t ∈ r.(rt_match).(rm_sets) -> t ∈ map st_tag opts.(op_sets)) /\
  (forall r t, r ∈ opts.(op_dns).(do_rules) -> t ∈ r.(dr_match).(dm_sets) -> t ∈ map st_tag opts.(op_sets)) /\
  (forall r s, r ∈ opts.(op_routes) -> r.(rt_action) = Resolve s -> s ∈ map ds_tag opts.(op_dns).(do_servers)) /\
  (forall r s ttl v4, r ∈ opts.(op_dns).(do_rules) -> r.(dr_action) = DNSRoute s ttl v4 ->
     s ∈ map ds_tag opts.(op_dns).(do_servers)) /\
  opts.(op_dns).(do_final) ∈ map ds_tag opts.(op_dns).(do_servers) /\
  (forall x t v4, x ∈ opts.(op_dns).(do_servers) -> x.(ds_resolver) = Some (t, v4) ->
     t ∈ map ds_tag opts.(op_dns).(do_servers)).
Proof.
  intros Hok (peers & built & rules & Hg)%Generate_inv; [|done].
  destruct (sets_generated _ _ _ _ _ _ Hg) as [Hnd Hsets].
  destruct (servers_generated _ _ _ _ _ _ Hok Hg) as (Hbase & Hpeer & Hall).
  pose proof (generated_actions _ _ _ _ _ _ Hok Hg) as Hact. rewrite Forall_forall in Hact. rewrite Forall_forall in Hall.
  unfold server_tags in *.
  assert (Hegress : forall p, p ∈ sn_peers sn -> forall id source, egress_source p = Some (id, source) ->
    p_enabled p && usable sn id = true -> peerDNSTag id ∈ map ds_tag (do_servers (op_dns opts))).
  { intros p Hp id source Hs Hu. apply (Hpeer p); [done| |done]. unfold egress_source in Hs.
    destruct (p_egress p); [|done]. destruct (ParseAddr _) as [[]|]; [|done|done]. by injection Hs as -> _. }
  split_and!; [done| | | | | |].
  - intros r t Hr Ht. apply (route_cases _ _ _ _ _ _ _ Hg) in Hr as [->|[(p & _ & Hp)|(x & Hx & ->)]].
    + by apply elem_of_nil in Ht.
    + apply egress_routes_sets in Hp. rewrite Hp in Ht. by apply elem_of_nil in Ht.
    + apply (Hsets x); [done|by left].
  - intros r t Hr Ht. apply (dns_cases _ _ _ _ _ _ _ Hg) in Hr as [Hr|[(p & _ & Hp)|(x & Hx & Hr)]].
    + exfalso. unfold dns_guards in Hr. rewrite !elem_of_cons, elem_of_nil in Hr.
      destruct Hr as [->|[->|[]]]; by apply elem_of_nil in Ht.
    + exfalso. unfold egress_dns in Hp. destruct (egress_source p) as [[id source]|]; [|done].
      cbn [mbind option_bind] in Hp. injection Hp as <-. destruct (_ && _); by apply elem_of_nil in Ht.
    + rewrite dns_entry_spec in Hr by auto. case_decide; [done|].
      apply fmap_Some in Hr as (a & _ & ->). apply (Hsets x); [done|by right].
  - intros r s Hr Ha. apply (route_cases _ _ _ _ _ _ _ Hg) in Hr as [->|[(p & Hin & Hp)|(x & Hx & ->)]]; [done| |].
    + unfold egress_routes in Hp. destruct (egress_source p) as [[id source]|] eqn:Hs; [|by apply elem_of_nil in Hp].
      destruct (p_enabled p && usable sn id) eqn:Hu; [|by apply list_elem_of_singleton in Hp as ->].
      rewrite !elem_of_cons, elem_of_nil in Hp. destruct Hp as [->|[->|[->|[]]]]; try done.
      injection Ha as <-. by eapply Hegress.
    + simpl in Ha. pose proof (rule_verdict_final sn peers x) as Hf. by rewrite Ha in Hf.
  - intros r s ttl v4 Hr Ha. apply (dns_cases _ _ _ _ _ _ _ Hg) in Hr as [Hr|[(p & Hin & Hp)|(x & Hx & Hr)]].
    + exfalso. unfold dns_guards in Hr. rewrite !elem_of_cons, elem_of_nil in Hr. by destruct Hr as [->|[->|[]]].
    + unfold egress_dns in Hp. destruct (egress_source p) as [[id source]|] eqn:Hs; [|done].
      cbn [mbind option_bind] in Hp. injection Hp as <-.
      destruct (p_enabled p && usable sn id) eqn:Hu; [|done]. injection Ha as <- _ _. by eapply Hegress.
    + rewrite dns_entry_spec in Hr by auto. case_decide; [done|].
      apply fmap_Some in Hr as (a & Hv & ->). simpl in Ha. subst a. unfold rule_dns_verdict in Hv.
      destruct (rule_verdict sn peers x); try done. destruct (_ && _); [|done]. injection Hv as <- _ _.
      apply Hbase. right. by left.
  - rewrite (g_dns_final _ _ _ _ _ _ Hg). apply Hbase. by left.
  - intros x t v4 Hx Hr. destruct (Hall x Hx) as [_ H]. by rewrite Hr in H.
Qed.
End refs.

(** ** Witnesses *)
#[local] Existing Instances ascii_unicode ascii_runes sample_platform sample_source.

Lemma Generate_outbounds_defined_witness :
  exists opts diags, GeneratePolicyWithDiag gen_snapshot gen_plain = Ok (opts, diags) /\
    "tun-pool"%string ∈ out_tags opts /\ "chain-warp-via-vl"%string ∈ out_tags opts.
Proof.
  assert (Hr : match GeneratePolicyWithDiag gen_snapshot gen_plain with
               | Ok (opts, _) => map rt_action (firstn 2 (skipn 4 opts.(op_routes))) =
                                 [Route "tun-pool"; Route "chain-warp-via-vl"]%string
               | Err _ => False end) by (vm_compute; reflexivity).
  destruct gen_generates as (opts & diags & Hg). exists opts, diags. split; [exact Hg|].
  rewrite Hg in Hr.
  destruct (Generate_outbounds_defined _ _ _ _ gen_snapshot_ok Hg) as (Hroute & _).
  destruct (skipn 4 (op_routes opts)) as [|a [|b l]] eqn:Hs; try discriminate Hr. injection Hr as Ha Hb.
  assert (Hin : forall x, x ∈ skipn 4 (op_routes opts) -> x ∈ op_routes opts).
  { intros x Hx. rewrite <- (firstn_skipn 4 (op_routes opts)). apply elem_of_app. right. exact Hx. }
  rewrite Hs in Hin. split; eapply Hroute; [apply Hin| |apply Hin|].
  - apply list_elem_of_here.
  - exact Ha.
  - apply list_elem_of_further, list_elem_of_here.
  - exact Hb.
Defined.

Lemma Generate_sets_defined_witness :
  exists opts diags, GeneratePolicyWithDiag gen_snapshot gen_plain = Ok (opts, diags) /\
    op_routes opts <> [] /\ NoDup (map st_tag opts.(op_sets)).
Proof.
  assert (Hr : match GeneratePolicyWithDiag gen_snapshot gen_plain with
               | Ok (opts, _) => length opts.(op_routes) = 7%nat
               | Err _ => False end) by (vm_compute; reflexivity).
  destruct gen_generates as (opts & diags & Hg). exists opts, diags. split; [exact Hg|].
  rewrite Hg in Hr. split; [intros E; rewrite E in Hr; discriminate Hr|].
  apply (Generate_sets_defined _ _ _ _ gen_snapshot_ok Hg).
Defined.
