(* ===== verification/RouteSpec.v ===== *)
(** * Where a connection goes

    The routing policy stated on the rows of the snapshot, without the
    functions of the generator: which clients a rule selects, which rule sets
    are its destinations and what they contain, which rule decides among those
    that claim a connection, which tunnel can carry traffic.  The generated
    configuration decides every connection this way, and fails closed. *)

From Stdlib Require Import Ascii.
From S2P Require Import Prelude GoStd Netip Model GoJson Db Wf Sample SettingsStore RealityStore PoolFilter SingBox Generate GenerateSpec GenerateRefs.
#[local] Open Scope Z_scope.
#[local] Set Default Proof Using "Type".

Section routes.
Context `{PF : Platform} `{PP : PoolPolicy} `{PS : PoolSource}.
Variables (sn : SnapshotT) (plain : PlainLists).

(** ** Tunnels *)

(** A server of a pool is taken when it is admitted, no admitted server before
    it has its link, and fewer than [poolMaxServers] links are admitted before it. *)
Definition admitted (s : PoolServer) : Prop := s.(ps_url) <> EmptyString /\ Allows sn.(sn_settings).(s_blocklist) s = true.
#[export] Instance admitted_dec s : Decision (admitted s) := _.
Definition links_before (before : list PoolServer) : gset string := list_to_set (ps_url <$> filter admitted before).
Definition taken (pool : list PoolServer) (s : PoolServer) : Prop :=
  exists before after, pool = before ++ s :: after /\ admitted s /\ s.(ps_url) ∉ links_before before /\
    (size (links_before before) < poolMaxServers)%nat.
(** A tunnel carries traffic when it is switched on and, being a pool, has a
    server whose link is understood. *)
Definition carries (id : string) : Prop :=
  exists t, t ∈ sn.(sn_tunnels) /\ t.(t_id) = id /\ t.(t_enabled) = true /\
    (t.(t_source) = SourcePool -> exists s m, taken t.(t_pool) s /\ Parse s.(ps_url) = Some (Some m)).
Definition switched_on (id : string) : Prop := exists t, t ∈ sn.(sn_tunnels) /\ t.(t_id) = id /\ t.(t_enabled) = true.

(** ** Clients of a rule *)
Definition address_prefix (p : Peer) (s : string) : Prop :=
  if ContainsByte p.(p_address) "/" then exists x, ParsePrefix p.(p_address) = Some x /\ s = PrefixString x
  else exists a, ParseAddr p.(p_address) = Some a /\ s = PrefixString (host_prefix a).
Definition picked (r : Rule) (p : Peer) : Prop := p ∈ sn.(sn_peers) /\ p.(p_id) ∈ r.(r_peers).
Definition all_off (r : Rule) : Prop := r.(r_scope) = ScopeSelected /\ forall p, picked r p -> p.(p_enabled) = false.
(** The rule is about everybody, or about the selected clients: those that are
    switched on, or all of them when none is. *)
Definition from_client (pk : packet) (r : Rule) : Prop :=
  r.(r_scope) <> ScopeSelected \/
  exists p s, picked r p /\ address_prefix p s /\ pk.(pk_source) s = true /\ (p.(p_enabled) = true \/ all_off r).

(** ** Destinations of a rule

    The tag of the set in the route rules, its contents, and what the rules of
    the resolver use of it. *)
Definition inline_body (domains subnets : list string) : SetBody :=
  Inline ((if decide (domains = []) then [] else [HDomains domains]) ++ (if decide (subnets = []) then [] else [HCIDRs subnets])).
Definition inline_names (domains : list string) : option SetBody :=
  if decide (domains = []) then None else Some (Inline [HDomains domains]).
Definition native_body (a : NativeArtifact) : SetBody := if a.(na_srs) then LocalBinary a.(na_path) else LocalSource a.(na_path).
Definition native_names (a : NativeArtifact) : option SetBody :=
  if decide (a.(na_dns_path) = EmptyString) then None else Some (LocalSource a.(na_dns_path)).
Inductive destination (r : Rule) : string -> SetBody -> option SetBody -> Prop :=
  | dest_community key l a : key ∈ r.(r_community) -> plain (communityListURL key) = Some l -> l.(pl_native) = Some a ->
      destination r (communityTag key) (native_body a) (native_names a)
  | dest_own : r.(r_domains) <> [] \/ r.(r_subnets) <> [] ->
      destination r (ruleSetTag r.(r_id)) (inline_body r.(r_domains) r.(r_subnets)) (inline_names r.(r_domains))
  | dest_native i raw l a : r.(r_remote) !! i = Some raw -> ruleSetFormat raw = true -> plain raw = Some l -> l.(pl_native) = Some a ->
      destination r (remoteListTag r.(r_id) i) (native_body a) (native_names a)
  | dest_plain i raw l : r.(r_remote) !! i = Some raw -> ruleSetFormat raw = false -> plain raw = Some l ->
      l.(pl_domains) <> [] \/ l.(pl_subnets) <> [] ->
      destination r (plainListTag r.(r_id) i) (inline_body l.(pl_domains) l.(pl_subnets)) (inline_names l.(pl_domains)).
(** A rule set of the configuration belongs to the rule. *)
Definition set_under (r : Rule) (s : RuleSet) : Prop :=
  (exists names, destination r s.(st_tag) s.(st_body) names) \/
  exists tag body, destination r tag body (Some s.(st_body)) /\ s.(st_tag) = dnsTag tag.

(** ** Who decides *)
Definition claims (pk : packet) (r : Rule) : Prop :=
  r.(r_enabled) = true /\ from_client pk r /\ exists tag body names, destination r tag body names /\ pk.(pk_set) tag = true.
(** Among the rules that claim the connection the one with the least priority;
    of several with that priority the first row. *)
Definition decides (pk : packet) (i : nat) (r : Rule) : Prop :=
  sn.(sn_rules) !! i = Some r /\ claims pk r /\
  forall j x, sn.(sn_rules) !! j = Some x -> claims pk x -> j = i \/ r.(r_priority) < x.(r_priority) \/
    r.(r_priority) = x.(r_priority) /\ (i < j)%nat.

(** What the deciding rule does. *)
Inductive ruling (r : Rule) : RuleActionT -> Prop :=
  | verdict_block : r.(r_action) = ActionBlock -> ruling r Reject
  | verdict_off : all_off r -> ruling r Reject
  | verdict_direct : r.(r_action) = ActionDirect -> ~ all_off r -> ruling r (Route TagDirect)
  | verdict_tunnel : r.(r_action) = ActionTunnel -> ~ all_off r -> carries r.(r_tunnel) -> r.(r_via) = EmptyString ->
      ruling r (Route (TunnelTag r.(r_tunnel)))
  | verdict_chain : r.(r_action) = ActionTunnel -> ~ all_off r -> carries r.(r_tunnel) -> r.(r_via) <> EmptyString ->
      switched_on r.(r_via) -> ruling r (Route (ChainTag r.(r_via) r.(r_tunnel)))
  | verdict_down : r.(r_action) = ActionTunnel -> ~ carries r.(r_tunnel) -> ruling r Reject
  | verdict_chain_down : r.(r_action) = ActionTunnel -> r.(r_via) <> EmptyString -> ~ switched_on r.(r_via) -> ruling r Reject.

(** The source belongs to a client whose whole traffic is assigned to tunnel
    [id]; the first row counts. *)
Definition owner (pk : packet) (i : nat) (p : Peer) (id : string) : Prop :=
  sn.(sn_peers) !! i = Some p /\ p.(p_egress) = Some id /\
  exists a, ParseAddr p.(p_address) = Some a /\ pk.(pk_source) (PrefixString (MkPrefix a 32)) = true.
Definition first_owner (pk : packet) (p : Peer) (id : string) : Prop :=
  exists i, owner pk i p id /\ forall j q id', owner pk j q id' -> (i <= j)%nat.
Definition unowned (pk : packet) : Prop := forall i p id, ~ owner pk i p id.
Definition to_lan (pk : packet) : Prop := exists lan, lan ∈ LocalIPv4 /\ pk.(pk_ip) lan = true.

Inductive routed (pk : packet) : RuleActionT -> Prop :=
  | routed_dns : pk.(pk_inbound) = TagDNSIn -> routed pk HijackDNS
  | routed_own p id : pk.(pk_inbound) <> TagDNSIn -> first_owner pk p id -> p.(p_enabled) = true -> carries id -> ~ to_lan pk ->
      routed pk (Route (TunnelTag id))
  | routed_own_off p id : pk.(pk_inbound) <> TagDNSIn -> first_owner pk p id -> p.(p_enabled) = false \/ ~ carries id \/ to_lan pk ->
      routed pk Reject
  | routed_rule i r a : pk.(pk_inbound) <> TagDNSIn -> unowned pk -> decides pk i r -> ruling r a -> routed pk a
  | routed_default : pk.(pk_inbound) <> TagDNSIn -> unowned pk -> (forall r, r ∈ sn.(sn_rules) -> ~ claims pk r) ->
      routed pk (Route TagDirect).
End routes.

(** ** The policy decides every connection at most one way *)
Section unique.
Context `{PF : Platform} `{PP : PoolPolicy} `{PS : PoolSource}.
Variables (sn : SnapshotT) (plain : PlainLists).

Lemma verdict_unique r a b : ruling sn r a -> ruling sn r b -> a = b.
Proof.
  intros Ha Hb. unfold ActionBlock, ActionDirect, ActionTunnel in *. destruct Ha, Hb; try done; exfalso;
    unfold ActionBlock, ActionDirect, ActionTunnel in *; first [congruence|tauto].
Qed.
Lemma decides_unique pk i r j x : decides sn plain pk i r -> decides sn plain pk j x -> i = j /\ r = x.
Proof.
  intros (Hr & Hcr & Hmr) (Hx & Hcx & Hmx). assert (i = j) as <-.
  { destruct (Hmr _ _ Hx Hcx) as [|[|[]]], (Hmx _ _ Hr Hcr) as [|[|[]]]; lia. }
  split; [done|congruence].
Qed.
Lemma first_owner_unique pk p id q id' : first_owner sn pk p id -> first_owner sn pk q id' -> p = q /\ id = id'.
Proof.
  intros (i & Hi & Hmi) (j & Hj & Hmj). assert (i = j) as <- by (pose proof (Hmi _ _ _ Hj); pose proof (Hmj _ _ _ Hi); lia).
  destruct Hi as (Hp & He & _), Hj as (Hq & He' & _). rewrite Hp in Hq. injection Hq as ->. split; [done|congruence].
Qed.
Lemma owned_unowned pk p id : first_owner sn pk p id -> unowned sn pk -> False.
Proof. intros (i & Hi & _) Hu. by eapply Hu. Qed.
Lemma routed_unique pk a b : routed sn plain pk a -> routed sn plain pk b -> a = b.
Proof.
  intros Ha Hb. destruct Ha as [Hi|p id Hi Hp Hen Hc Hl|p id Hi Hp Hoff|i r a Hi Hu Hd Hv|Hi Hu Hno],
    Hb as [Hi'|q id' Hi' Hq Hen' Hc' Hl'|q id' Hi' Hq Hoff'|j x b Hi' Hu' Hd' Hv'|Hi' Hu' Hno']; try done;
    try (exfalso; by eapply owned_unowned);
    try (destruct (first_owner_unique _ _ _ _ _ Hp Hq) as [-> ->]; try done; exfalso; naive_solver congruence).
  - destruct (decides_unique _ _ _ _ _ Hd Hd') as [-> ->]. by eapply verdict_unique.
  - destruct Hd as (Hr & Hcl & _). destruct (Hno' r); [by eapply list_elem_of_lookup_2|done].
  - destruct Hd' as (Hr & Hcl & _). destruct (Hno x); [by eapply list_elem_of_lookup_2|done].
Qed.
End unique.

(** ** The order of the rules *)
Definition first_of (P : Rule -> bool) (l : list Rule) : option Rule := head (filter (fun r => P r = true) l).
Definition sorted_rules (l : list Rule) : Prop := Sorted (fun a b => a.(r_priority) <= b.(r_priority)) l.

Lemma insert_sorted r l : sorted_rules l -> sorted_rules (insert_by_priority r l).
Proof.
  unfold sorted_rules. induction 1 as [|x l Hl IH Hd]; cbn [insert_by_priority]; [by repeat constructor|].
  case_decide as Hp; [by repeat constructor|]. constructor; [exact IH|].
  destruct l as [|y l]; cbn [insert_by_priority]; [constructor; lia|]. inversion_clear Hd. case_decide; constructor; lia.
Qed.
Lemma sortedRules_sorted l : sorted_rules (sortedRules l).
Proof. unfold sortedRules. induction (filter _ l) as [|r k IH]; [constructor|]. by apply insert_sorted. Qed.

Lemma first_of_cons P r l : first_of P (r :: l) = if P r then Some r else first_of P l.
Proof. unfold first_of. rewrite filter_cons. destruct (P r); [by rewrite decide_True|by rewrite decide_False]. Qed.
Lemma first_of_insert P r l : sorted_rules l ->
  first_of P (insert_by_priority r l) =
  if P r then match first_of P l with Some x => if decide (r.(r_priority) <= x.(r_priority)) then Some r else Some x | None => Some r end
  else first_of P l.
Proof.
  intros Hs%Sorted_StronglySorted; [|intros a b c; lia].
  induction Hs as [|x l Hs IH Hall]; cbn [insert_by_priority]; rewrite ?first_of_cons; [done|].
  destruct (decide (r.(r_priority) <= x.(r_priority))) as [Hp|Hp]; rewrite !first_of_cons.
  - destruct (P r); [|done]. destruct (P x); [by rewrite decide_True|]. destruct (first_of P l) as [y|] eqn:Hy; [|done].
    rewrite decide_True; [done|]. unfold first_of in Hy. apply head_Some_elem_of, list_elem_of_filter in Hy as [_ Hy].
    rewrite Forall_forall in Hall. specialize (Hall y Hy). lia.
  - rewrite IH. destruct (P x); [|done]. destruct (P r); [|done]. by rewrite decide_False.
Qed.

(** The first row with the least priority among those that qualify. *)
Definition least (P : Rule -> bool) (l : list Rule) (i : nat) (r : Rule) : Prop :=
  l !! i = Some r /\ r.(r_enabled) = true /\ P r = true /\
  forall j x, l !! j = Some x -> x.(r_enabled) = true -> P x = true -> j = i \/ r.(r_priority) < x.(r_priority) \/
    r.(r_priority) = x.(r_priority) /\ (i < j)%nat.
Lemma first_of_sorted P l :
  match first_of P (sortedRules l) with
  | Some r => exists i, least P l i r
  | None => forall x, x ∈ l -> x.(r_enabled) = true -> P x = false
  end.
Proof.
  induction l as [|r l IH]; [by intros x ?%elem_of_nil|].
  assert (Hskip : r.(r_enabled) = false \/ P r = false -> match first_of P (sortedRules l) with
    | Some x => exists i, least P (r :: l) i x | None => forall x, x ∈ r :: l -> x.(r_enabled) = true -> P x = false end).
  { intros Hr. destruct (first_of P (sortedRules l)) as [y|].
    - destruct IH as (i & Hy & Hen & HP & Hm). exists (S i). split; [done|]. split; [done|]. split; [done|].
      intros [|j] x Hx Hxe HPx; [injection Hx as <-; destruct Hr; congruence|]. destruct (Hm j x Hx Hxe HPx) as [->|[|[]]]; [by left|lia|lia].
    - intros x [->|Hx]%elem_of_cons Hen; [destruct Hr; [congruence|done]|by apply IH]. }
  unfold sortedRules in *. rewrite filter_cons. destruct (r_enabled r) eqn:Hen; [rewrite decide_True by done|rewrite decide_False by done; by apply Hskip; left].
  cbn [foldr]. rewrite first_of_insert by apply sortedRules_sorted. destruct (P r) eqn:HP; [|by apply Hskip; right].
  fold (sortedRules l) in *. destruct (first_of P (sortedRules l)) as [y|] eqn:Hy; [case_decide as Hp|].
  - exists O. split; [done|]. split; [done|]. split; [done|]. destruct IH as (i & Hi & _ & _ & Hm).
    intros [|j] x Hx Hxe HPx; [by left|]. destruct (Hm j x Hx Hxe HPx) as [->|[|[]]]; [|lia|lia]. right.
    assert (Some y = Some x) as [= ->] by (rewrite <- Hi; exact Hx). lia.
  - destruct IH as (i & Hi & Hye & HPy & Hm). exists (S i). split; [done|]. split; [done|]. split; [done|].
    intros [|j] x Hx Hxe HPx; [injection Hx as <-; lia|]. destruct (Hm j x Hx Hxe HPx) as [->|[|[]]]; [by left|lia|lia].
  - exists O. split; [done|]. split; [done|]. split; [done|]. intros [|j] x Hx Hxe HPx; [by left|].
    rewrite (IH x) in HPx; [done|by eapply list_elem_of_lookup_2|done].
Qed.

(** ** The clients *)
Section clients.
Context `{PF : Platform} `{PP : PoolPolicy} `{PS : PoolSource}.

Lemma cidr_prefix p s : cidr p.(p_address) = Ok s <-> address_prefix p s.
Proof.
  unfold cidr, address_prefix. destruct (ContainsByte _ _); [destruct (ParsePrefix _)|destruct (ParseAddr _)]; naive_solver.
Qed.
Lemma peer_addresses_spec l m : peer_addresses l = Ok m -> NoDup (p_id <$> l) ->
  (forall id s e, m !! id = Some (s, e) <-> exists p, p ∈ l /\ p.(p_id) = id /\ address_prefix p s /\ e = p.(p_enabled)) /\
  (forall p, p ∈ l -> p.(p_enabled) = true -> exists s, address_prefix p s).
Proof.
  unfold peer_addresses. apply (fold_result_inv _ (fun seen m => NoDup (p_id <$> seen) ->
    (forall id s e, m !! id = Some (s, e) <-> exists p, p ∈ seen /\ p.(p_id) = id /\ address_prefix p s /\ e = p.(p_enabled)) /\
    (forall p, p ∈ seen -> p.(p_enabled) = true -> exists s, address_prefix p s))).
  { intros _. split; [|set_solver]. intros id s e. rewrite lookup_empty. set_solver. }
  intros seen x b b' IH _ Hb. rewrite fmap_app. intros (Hnd & Hdis & _)%NoDup_app. destruct (IH Hnd) as [H1 H2]. clear IH.
  assert (Hx : forall q, q ∈ seen -> q.(p_id) <> x.(p_id)).
  { intros q Hq E. apply (Hdis (p_id q)); [by apply list_elem_of_fmap_2|]. rewrite E. by left. }
  unfold add_peer in Hb. destruct (cidr (p_address x)) as [addr|e0] eqn:Hc.
  - injection Hb as <-. apply cidr_prefix in Hc as Ha. split.
    + intros id s e. destruct (decide (id = p_id x)) as [->|Hid].
      * rewrite lookup_insert_eq. split.
        { intros [= <- <-]. exists x. split; [set_solver|by split_and!]. }
        { intros (q & [Hq| ->%list_elem_of_singleton]%elem_of_app & Hid & Hs & ->); [by destruct (Hx q)|].
          apply cidr_prefix in Hs. congruence. }
      * rewrite lookup_insert_ne, H1 by done. split; intros (q & Hq & Hr); exists q; (split; [|exact Hr]); [set_solver|].
        apply elem_of_app in Hq as [Hq| ->%list_elem_of_singleton]; [done|]. by destruct Hr as [<- _].
    + intros p [Hp| ->%list_elem_of_singleton]%elem_of_app Hen; [by apply H2|by exists addr].
  - destruct (p_enabled x) eqn:Hen; [done|]. injection Hb as <-. split.
    + intros id s e. rewrite H1. split; intros (q & Hq & Hr); exists q; (split; [|exact Hr]); [set_solver|].
      apply elem_of_app in Hq as [Hq| ->%list_elem_of_singleton]; [done|]. destruct Hr as (_ & Hs%cidr_prefix & _). congruence.
    + intros p [Hp| ->%list_elem_of_singleton]%elem_of_app Hp'; [by apply H2|congruence].
Qed.

Variables (sn : SnapshotT) (peers : gmap string (string * bool)).
Hypothesis Hpeers : peer_addresses sn.(sn_peers) = Ok peers.
Hypothesis Hnd : NoDup (p_id <$> sn.(sn_peers)).

Lemma found_selected r s e : (s, e) ∈ omap (fun id => peers !! id) r.(r_peers) <->
  exists p, picked sn r p /\ address_prefix p s /\ e = p.(p_enabled).
Proof using Hpeers Hnd.
  destruct (peer_addresses_spec _ _ Hpeers Hnd) as [H1 _]. rewrite list_elem_of_omap. unfold picked. split.
  - intros (id & Hid & (p & Hp & <- & Hr)%H1). by exists p.
  - intros (p & [Hp Hid] & Hr). exists (p_id p). split; [done|]. apply H1. by exists p.
Qed.
Lemma sources_spec f r :
  ((sourceCIDRs r peers).2 = false <-> all_off sn r) /\
  (bool_decide (r.(r_scope) <> ScopeSelected) || existsb f (sourceCIDRs r peers).1 = true <->
   r.(r_scope) <> ScopeSelected \/
   exists p s, picked sn r p /\ address_prefix p s /\ f s = true /\ (p.(p_enabled) = true \/ all_off sn r)).
Proof using Hpeers Hnd.
  unfold sourceCIDRs, all_off. destruct (decide (r_scope r <> ScopeSelected)) as [Hs|Hs].
  { rewrite bool_decide_eq_true_2 by done. split; [split; [done|by intros []]|]. split; [by left|done]. }
  rewrite bool_decide_eq_false_2 by done. apply dec_stable in Hs as Hsel. cbn [orb].
  set (found := omap (fun id => peers !! id) (r_peers r)). set (enabled := filter (fun p => p.2 = true) found).
  assert (Hen : enabled = [] <-> forall p, picked sn r p -> p.(p_enabled) = false).
  { split.
    - intros He p Hp. destruct (p_enabled p) eqn:Hpe; [|done]. exfalso.
      destruct (proj2 (peer_addresses_spec _ _ Hpeers Hnd) p (proj1 Hp) Hpe) as [s Ha].
      assert (Hin : (s, true) ∈ enabled) by (apply list_elem_of_filter; split; [done|]; apply found_selected; exists p; by rewrite Hpe).
      rewrite He in Hin. by apply elem_of_nil in Hin.
    - intros Hoff. destruct enabled as [|[s e] l] eqn:He; [done|]. assert (Hin : (s, e) ∈ enabled) by (rewrite He; by left).
      apply list_elem_of_filter in Hin as [He1 (p & Hp & _ & ->)%found_selected]. cbn in He1. rewrite Hoff in He1 by done. done. }
  destruct (decide (enabled = [])) as [He|He]; cbn [fst snd].
  - split; [split; [intros _; split; [done|by apply Hen]|done]|]. rewrite existsb_exists. split.
    + intros (s & ([s' e] & -> & Hin)%list_elem_of_In%list_elem_of_fmap & Hf). apply found_selected in Hin as (p & Hp & Ha & _).
      right. exists p, s'. split_and!; try done. right. split; [done|by apply Hen].
    + intros [?|(p & s & Hp & Ha & Hf & _)]; [done|]. exists s. split; [|done]. apply list_elem_of_In, list_elem_of_fmap. exists (s, p_enabled p).
      split; [done|]. apply found_selected. by exists p.
  - split; [split; [done|intros [_ Hoff]; by destruct He; apply Hen]|]. rewrite existsb_exists. split.
    + intros (s & ([s' e] & -> & Hin)%list_elem_of_In%list_elem_of_fmap & Hf). apply list_elem_of_filter in Hin as [Hpe (p & Hp & Ha & ->)%found_selected].
      right. exists p, s'. split_and!; try done. by left.
    + intros [?|(p & s & Hp & Ha & Hf & Hor)]; [done|]. exists s. split; [|done]. apply list_elem_of_In, list_elem_of_fmap. exists (s, p_enabled p).
      split; [done|]. apply list_elem_of_filter. split; [|apply found_selected; by exists p]. cbn.
      destruct Hor as [|[_ Hoff]]; [done|]. by destruct He; apply Hen.
Qed.
End clients.

(** ** The destinations *)
Section destinations.
Context `{PF : Platform} `{PP : PoolPolicy} `{PS : PoolSource}.
Variable plain : PlainLists.
#[local] Abbreviation pieces := (string -> SetBody -> option SetBody -> Prop).

Definition piece_of (D : pieces) (s : RuleSet) : Prop :=
  (exists names, D s.(st_tag) s.(st_body) names) \/ exists tag body, D tag body (Some s.(st_body)) /\ s.(st_tag) = dnsTag tag.
(** What is built so far has exactly these destinations. *)
Definition described (D : pieces) (b : RuleSets) : Prop :=
  (forall tag, tag ∈ b.(rs_route) <-> exists body names, D tag body names) /\ (forall s, s ∈ b.(rs_sets) -> piece_of D s).
Lemma covers_ext (D D' : pieces) b : (forall t x n, D t x n <-> D' t x n) -> described D b -> described D' b.
Proof.
  intros HD [H1 H2]. split.
  - intros tag. rewrite H1. split; intros (x & n & Hx); exists x, n; by apply HD.
  - intros s Hs. destruct (H2 s Hs) as [[n Hn]|(t & x & Hx & Ht)]; [left; exists n|right; exists t, x; split; [|done]]; by apply HD.
Qed.
Lemma covers_add D tag body names b b' : described D b -> b'.(rs_route) = b.(rs_route) ++ [tag] ->
  b'.(rs_sets) = b.(rs_sets) ++ MkSet tag body :: option_list (MkSet (dnsTag tag) <$> names) ->
  described (fun t x n => D t x n \/ t = tag /\ x = body /\ n = names) b'.
Proof.
  intros [H1 H2] Hr Hs. split.
  - intros t. rewrite Hr, elem_of_app, list_elem_of_singleton, H1. naive_solver.
  - intros s. rewrite Hs, elem_of_app, elem_of_cons. intros [Hin|[->|Hin]].
    + destruct (H2 s Hin) as [[n Hn]|(t & x & Hx & Ht)]; [left; exists n; by left|right; exists t, x; split; [by left|done]].
    + left. exists names. by right.
    + right. destruct names as [d|]; [|by apply elem_of_nil in Hin]. apply list_elem_of_singleton in Hin as ->. exists tag, body. split; [by right|done].
Qed.

Lemma addNative_spec D tag raw b : described D b -> rs_err (addNative plain tag raw b) = false ->
  rs_err b = false -> exists l a, plain raw = Some l /\ l.(pl_native) = Some a /\
    described (fun t x n => D t x n \/ t = tag /\ x = native_body a /\ n = native_names a) (addNative plain tag raw b).
Proof.
  intros HD. unfold addNative. destruct (rs_err b) eqn:Eb; [by rewrite Eb|].
  destruct (plain raw) as [[dom sub [a|] tr co]|]; [|done..]. intros _ _. eexists _, a. split; [done|]. split; [done|].
  apply (covers_add D _ _ _ b); [done|done|]. cbn [rs_sets app]. unfold native_names. by case_decide.
Qed.
Lemma addNative_err tag raw b : rs_err (addNative plain tag raw b) = false -> rs_err b = false.
Proof. unfold addNative. destruct (rs_err b) eqn:E; [by rewrite E|done]. Qed.
Lemma addInline_spec D tag l b : described D b ->
  match addInline tag l b with
  | None => l.(pl_domains) = [] /\ l.(pl_subnets) = []
  | Some b' => (l.(pl_domains) <> [] \/ l.(pl_subnets) <> []) /\ rs_err b' = rs_err b /\
      described (fun t x n => D t x n \/ t = tag /\ x = inline_body l.(pl_domains) l.(pl_subnets) /\ n = inline_names l.(pl_domains)) b'
  end.
Proof.
  intros HD. unfold addInline, inlineRuleSet. cbn [pl_domains pl_subnets].
  destruct (decide (pl_domains l = [])) as [Hd|Hd], (decide (pl_subnets l = [])) as [Hs|Hs]; cbn [app decide]; [done|..];
    (rewrite decide_False by done); (split; [tauto|]); (split; [done|]);
    (apply (covers_add D _ _ _ b); [done|done|]); cbn [rs_sets]; unfold inline_body, inline_names;
    rewrite ?(decide_True (P:=pl_domains l = [])), ?(decide_False (P:=pl_domains l = [])),
      ?(decide_True (P:=pl_subnets l = [])), ?(decide_False (P:=pl_subnets l = [])) by done; done.
Qed.

Definition community_piece (keys : list string) : pieces := fun t x n =>
  exists key l a, key ∈ keys /\ plain (communityListURL key) = Some l /\ l.(pl_native) = Some a /\
    t = communityTag key /\ x = native_body a /\ n = native_names a.
Lemma community_covers D b keys : described D b ->
  let b' := foldl (fun b key => addNative plain (communityTag key) (communityListURL key) b) b keys in
  rs_err b' = false -> described (fun t x n => D t x n \/ community_piece keys t x n) b'.
Proof.
  intros HD. induction keys as [|key keys IH] using rev_ind; cbn zeta.
  { intros _. revert HD. apply covers_ext. intros t x n. split; [by left|]. intros [?|(k & _ & _ & Hk & _)]; [done|by apply elem_of_nil in Hk]. }
  rewrite foldl_app. cbn [foldl]. intros He. assert (He' := addNative_err _ _ _ He). specialize (IH He').
  destruct (addNative_spec _ _ _ _ IH He He') as (l & a & Hl & Ha & Hc). revert Hc. apply covers_ext. intros t x n. split.
  - intros [[?|(k & l' & a' & Hk & Hr)]|(-> & -> & ->)]; [by left|right|right].
    + exists k, l', a'. split; [set_solver|done].
    + exists key, l, a. split; [set_solver|by split_and!].
  - intros [?|(k & l' & a' & [Hk| ->%list_elem_of_singleton]%elem_of_app & Hl' & Ha' & Hr)]; [by left; left|left; right|right].
    + by exists k, l', a'.
    + rewrite Hl in Hl'. injection Hl' as <-. rewrite Ha in Ha'. by injection Ha' as <-.
Qed.

Definition remote_piece (id : string) (lists : list (nat * string)) : pieces := fun t x n =>
  exists i raw l, (i, raw) ∈ lists /\ plain raw = Some l /\
    ((ruleSetFormat raw = true /\ exists a, l.(pl_native) = Some a /\ t = remoteListTag id i /\ x = native_body a /\ n = native_names a) \/
     (ruleSetFormat raw = false /\ (l.(pl_domains) <> [] \/ l.(pl_subnets) <> []) /\ t = plainListTag id i /\
        x = inline_body l.(pl_domains) l.(pl_subnets) /\ n = inline_names l.(pl_domains))).
Lemma remote_piece_snoc id lists p t x n :
  remote_piece id (lists ++ [p]) t x n <-> remote_piece id lists t x n \/ remote_piece id [p] t x n.
Proof.
  unfold remote_piece. split.
  - intros (i & raw & l & Hin & Hr). apply elem_of_app in Hin as [Hin|Hin]; [left|right]; by exists i, raw, l.
  - intros [(i & raw & l & Hin & Hr)|(i & raw & l & Hin & Hr)]; exists i, raw, l; (split; [apply elem_of_app; auto|done]).
Qed.
Lemma add_remote_err id b p : rs_err (add_remote plain id b p) = false -> rs_err b = false.
Proof.
  destruct p as [i raw]. unfold add_remote. destruct (ruleSetFormat raw); [apply addNative_err|].
  unfold addInline. destruct (plain raw) as [l|]; cbn [mbind option_bind]; [|done]. by destruct (inlineRuleSet _ l).
Qed.
Lemma add_remote_covers D id b p : described D b -> rs_err (add_remote plain id b p) = false ->
  described (fun t x n => D t x n \/ remote_piece id [p] t x n) (add_remote plain id b p).
Proof.
  intros HD He. assert (He' := add_remote_err _ _ _ He). destruct p as [i raw]. unfold add_remote in *.
  assert (Hone : forall t x n, remote_piece id [(i, raw)] t x n <-> exists l, plain raw = Some l /\
    ((ruleSetFormat raw = true /\ exists a, l.(pl_native) = Some a /\ t = remoteListTag id i /\ x = native_body a /\ n = native_names a) \/
     (ruleSetFormat raw = false /\ (l.(pl_domains) <> [] \/ l.(pl_subnets) <> []) /\ t = plainListTag id i /\
        x = inline_body l.(pl_domains) l.(pl_subnets) /\ n = inline_names l.(pl_domains)))).
  { intros t x n. unfold remote_piece. split.
    - intros (j & raw' & l & Hin%list_elem_of_singleton & Hr). injection Hin as -> ->. by exists l.
    - intros (l & Hr). exists i, raw, l. split; [by left|done]. }
  destruct (ruleSetFormat raw).
  - destruct (addNative_spec _ _ _ _ HD He He') as (l & a & Hl & Ha & Hc). revert Hc. apply covers_ext. intros t x n.
    rewrite Hone. split.
    + intros [?|Hr]; [by left|right]. exists l. split; [done|]. left. split; [done|by exists a].
    + intros [?|(l' & Hl' & [(_ & a' & Ha' & Hr)|[? _]])]; [by left|right|done]. rewrite Hl in Hl'. injection Hl' as <-. rewrite Ha in Ha'. by injection Ha' as <-.
  - destruct (plain raw) as [l|] eqn:Hl; cbn [mbind option_bind].
    + pose proof (addInline_spec D (plainListTag id i) l b HD) as Hi. destruct (addInline _ l b) as [b'|].
      * destruct Hi as (Hne & _ & Hc). revert Hc. apply covers_ext. intros t x n. rewrite Hone. split.
        { intros [?|Hr]; [by left|right]. exists l. split; [done|]. right. by split. }
        { intros [?|(l' & [= <-] & [[? _]|(_ & _ & Hr)])]; [by left|done|by right]. }
      * apply (covers_ext D); [|exact HD]. intros t x n. rewrite Hone. naive_solver.
    + apply (covers_ext D); [|exact HD]. intros t x n. rewrite Hone. naive_solver.
Qed.
Lemma remote_err id b lists : rs_err (foldl (add_remote plain id) b lists) = false -> rs_err b = false.
Proof. induction lists as [|p lists IH] using rev_ind; [done|]. rewrite foldl_app. cbn [foldl]. by intros ?%add_remote_err%IH. Qed.
Lemma remote_covers D id b lists : described D b -> rs_err (foldl (add_remote plain id) b lists) = false ->
  described (fun t x n => D t x n \/ remote_piece id lists t x n) (foldl (add_remote plain id) b lists).
Proof.
  intros HD. induction lists as [|p lists IH] using rev_ind; intros He.
  { revert HD. apply covers_ext. intros t x n. split; [by left|]. intros [?|(i & raw & _ & Hk & _)]; [done|by apply elem_of_nil in Hk]. }
  rewrite foldl_app in *. cbn [foldl] in *. specialize (IH (add_remote_err _ _ _ He)).
  apply (add_remote_covers _ _ _ _ IH) in He. revert He. apply covers_ext. intros t x n. rewrite remote_piece_snoc. tauto.
Qed.

Lemma buildRuleSets_covers r : rs_err (buildRuleSets r plain) = false -> described (destination plain r) (buildRuleSets r plain).
Proof.
  unfold buildRuleSets. set (b0 := MkRuleSets [] [] [] [] false false [] false).
  assert (H0 : described (fun _ _ _ => False) b0) by (split; [intros t; split; [by intros ?%elem_of_nil|naive_solver]|by intros s ?%elem_of_nil]).
  set (b1 := foldl _ b0 _). set (own := MkPlain (r_domains r) (r_subnets r) None [] false). set (b2 := default b1 _). intros He.
  assert (Hsub : rs_err b2 = false -> rs_err b1 = false /\ described (fun t x n => community_piece r.(r_community) t x n \/
    (r.(r_domains) <> [] \/ r.(r_subnets) <> []) /\ t = ruleSetTag r.(r_id) /\ x = inline_body r.(r_domains) r.(r_subnets) /\ n = inline_names r.(r_domains)) b2).
  { intros He2. assert (He1 : rs_err b1 = false).
    { revert He2. unfold b2, addInline. by destruct (inlineRuleSet _ own). }
    split; [done|]. pose proof (community_covers _ b0 r.(r_community) H0 He1) as Hc1. fold b1 in Hc1.
    pose proof (addInline_spec _ (ruleSetTag (r_id r)) own b1 Hc1) as Hi. unfold b2. destruct (addInline _ own b1) as [b'|]; cbn [default].
    - destruct Hi as (Hne & _ & Hc). revert Hc. apply covers_ext. intros t x n. cbn [own pl_domains pl_subnets] in *. tauto.
    - revert Hc1. apply covers_ext. intros t x n. cbn [own pl_domains pl_subnets] in Hi. destruct Hi as [-> ->]. tauto. }
  assert (He2 := remote_err _ _ _ He).
  pose proof (remote_covers _ (r_id r) b2 (enum 0 (r_remote r)) (proj2 (Hsub He2)) He) as Hc. revert Hc. apply covers_ext.
  intros t x n. split.
  - intros [[(key & l & a & Hk & Hl & Ha & -> & -> & ->)|(Hne & -> & -> & ->)]|(i & raw & l & [_ Hi]%elem_of_enum & Hl & Hor)].
    + by eapply dest_community.
    + by apply dest_own.
    + rewrite Nat.sub_0_r in Hi. destruct Hor as [(Hf & a & Ha & -> & -> & ->)|(Hf & Hne & -> & -> & ->)]; [by eapply dest_native|by eapply dest_plain].
  - destruct 1 as [key l a Hk Hl Ha|Hne|i raw l a Hi Hf Hl Ha|i raw l Hi Hf Hl Hne].
    + left. left. by exists key, l, a.
    + left. by right.
    + right. exists i, raw, l. split; [apply elem_of_enum; rewrite Nat.sub_0_r; split; [lia|done]|]. split; [done|]. left. split; [done|by exists a].
    + right. exists i, raw, l. split; [apply elem_of_enum; rewrite Nat.sub_0_r; split; [lia|done]|]. split; [done|]. right. by split_and!.
Qed.
End destinations.

(** ** The tunnels *)
Section tunnels.
Context `{PF : Platform} `{PP : PoolPolicy} `{PS : PoolSource}.
Variable sn : SnapshotT.
#[local] Abbreviation countries := (sn.(sn_settings).(s_blocklist)).

Lemma links_app a b : links_before sn (a ++ b) = links_before sn a ∪ links_before sn b.
Proof. unfold links_before. by rewrite filter_app, fmap_app, list_to_set_app_L. Qed.
Lemma links_one x : links_before sn [x] = if decide (admitted sn x) then {[x.(ps_url)]} else ∅.
Proof. unfold links_before. rewrite filter_cons, filter_nil. case_decide; cbn; [by rewrite (right_id_L ∅ (∪))|done]. Qed.
(** The loop knows the links of the admitted servers before it. *)
Lemma select_taken before pool seen uniq s :
  list_to_set seen =@{gset string} links_before sn before -> length uniq = size (links_before sn before) -> (length uniq < poolMaxServers)%nat ->
  s ∈ select_loop countries pool seen uniq <->
  s ∈ uniq \/ exists b a, pool = b ++ s :: a /\ admitted sn s /\ s.(ps_url) ∉ links_before sn (before ++ b) /\
    (size (links_before sn (before ++ b)) < poolMaxServers)%nat.
Proof.
  revert before seen uniq. induction pool as [|x pool IH]; intros before seen uniq Hs Hu Hl; cbn [select_loop].
  { split; [by left|]. intros [?|([|] & a & Ha & _)]; done. }
  assert (Hstep : forall b, before ++ x :: b = (before ++ [x]) ++ b) by (intros b; by rewrite <- app_assoc).
  assert (Hsnoc : links_before sn (before ++ [x]) = if decide (admitted sn x) then {[x.(ps_url)]} ∪ links_before sn before else links_before sn before).
  { rewrite links_app, links_one. case_decide; [by rewrite (comm_L (∪))|by rewrite (right_id_L ∅ (∪))]. }
  destruct (decide (_ \/ _ \/ _)) as [Hskip|Htake].
  - assert (Hsame : links_before sn (before ++ [x]) = links_before sn before).
    { rewrite Hsnoc. case_decide as Ha; [|done]. destruct Ha as [Hne Hal]. destruct Hskip as [?|[Hin|Hf]]; [done| |congruence].
      apply (elem_of_list_to_set (C:=gset string)) in Hin. rewrite Hs in Hin. set_solver. }
    rewrite (IH (before ++ [x])) by (rewrite ?Hsame; done). split; (intros [?|(b & a & Hp & Ha & Hn & Hz)]; [by left|right]).
    + exists (x :: b), a. rewrite Hstep. split; [by rewrite Hp|done].
    + destruct b as [|y b]; injection Hp as -> Hp; [|exists b, a; by rewrite <- Hstep]. exfalso.
      rewrite app_nil_r in Hn. destruct Ha as [Hne Hal]. destruct Hskip as [?|[Hin|Hf]]; [done| |congruence].
      apply (elem_of_list_to_set (C:=gset string)) in Hin. by rewrite Hs in Hin.
  - assert (Hax : admitted sn x) by (split; [tauto|destruct (Allows _ x); tauto]).
    assert (Hnew : x.(ps_url) ∉ links_before sn before).
    { intros Hin. rewrite <- Hs in Hin. apply elem_of_list_to_set in Hin. tauto. }
    rewrite decide_True in Hsnoc by done. assert (Hsize : size (links_before sn (before ++ [x])) = S (length uniq)) by (rewrite Hsnoc, size_union, size_singleton; [lia|set_solver]).
    assert (Hx : forall b a, x :: pool = b ++ s :: a /\ admitted sn s /\ s.(ps_url) ∉ links_before sn (before ++ b) /\ (size (links_before sn (before ++ b)) < poolMaxServers)%nat ->
      s = x \/ exists b', b = x :: b' /\ pool = b' ++ s :: a).
    { intros [|y b] a (Hp & _); injection Hp as -> Hp; [by left|right]. by exists b. }
    rewrite length_app. cbn [length]. case_decide as Hfull.
    + rewrite elem_of_app, list_elem_of_singleton. split.
      * intros [?| ->]; [by left|right]. exists [], pool. rewrite app_nil_r. split_and!; try done. by rewrite <- Hu.
      * intros [?|(b & a & Hp)]; [by left|right]. destruct (Hx b a Hp) as [->|(b' & -> & Hb)]; [done|]. exfalso.
        destruct Hp as (_ & _ & _ & Hz). rewrite Hstep in Hz.
        assert (links_before sn (before ++ [x]) ⊆ links_before sn ((before ++ [x]) ++ b')) as Hsub%subseteq_size by (rewrite (links_app (before ++ [x])); apply union_subseteq_l).
        lia.
    + rewrite (IH (before ++ [x])); [|rewrite Hsnoc, list_to_set_cons, Hs; done|rewrite length_app, Hsize; cbn; lia|rewrite length_app; cbn; lia].
      rewrite elem_of_app, list_elem_of_singleton. split.
      * intros [[?| ->]|(b & a & Hp & Hr)]; [by left|right|right].
        { exists [], pool. rewrite app_nil_r. split_and!; try done. by rewrite <- Hu. }
        { exists (x :: b), a. rewrite Hstep. split; [by rewrite Hp|done]. }
      * intros [?|(b & a & Hp)]; [by left; left|]. destruct (Hx b a Hp) as [->|(b' & -> & Hb)]; [by left; right|right].
        exists b', a. rewrite Hstep in Hp. by destruct Hp as (_ & ?).
Qed.
Lemma taken_select pool s : taken sn pool s <-> s ∈ selectPoolServers pool countries.
Proof.
  unfold selectPoolServers. rewrite (select_taken []); [|done|done|cbn; unfold poolMaxServers; lia]. unfold taken. split; [by right|].
  by intros [?%elem_of_nil|?].
Qed.

Lemma pool_member_Some id p : is_Some (pool_member id p) <-> exists m, Parse p.2.(ps_url) = Some (Some m).
Proof. unfold pool_member. destruct (Parse _) as [[m|]|]; split; naive_solver. Qed.
Lemma buildPool_taken t : is_Some (buildPool t countries) <-> exists s m, taken sn t.(t_pool) s /\ Parse s.(ps_url) = Some (Some m).
Proof.
  unfold buildPool. set (l := selectPoolServers _ _).
  assert (Hl : omap (pool_member (t_id t)) (enum 0 l) <> [] <-> exists s m, taken sn t.(t_pool) s /\ Parse s.(ps_url) = Some (Some m)).
  { setoid_rewrite taken_select. fold l. split.
    - intros Hne. destruct (omap _ _) as [|o k] eqn:Ho; [done|]. assert (Hin : o ∈ omap (pool_member (t_id t)) (enum 0 l)) by (rewrite Ho; by left).
      apply list_elem_of_omap in Hin as ([i s] & [_ Hi]%elem_of_enum & Hm). destruct (proj1 (pool_member_Some _ _) (mk_is_Some _ _ Hm)) as [m Hp].
      exists s, m. split; [by eapply list_elem_of_lookup_2|done].
    - intros (s & m & [i Hi]%list_elem_of_lookup & Hp) Hn. destruct (proj2 (pool_member_Some (t_id t) (i, s)) (ex_intro _ m Hp)) as [o Ho].
      assert (Hin : o ∈ omap (pool_member (t_id t)) (enum 0 l)).
      { apply list_elem_of_omap. exists (i, s). split; [apply elem_of_enum; rewrite Nat.sub_0_r; split; [lia|done]|done]. }
      rewrite Hn in Hin. by apply elem_of_nil in Hin. }
  rewrite <- Hl. by case_decide; split.
Qed.

Hypothesis Hids : NoDup (t_id <$> sn.(sn_tunnels)).
Lemma usable_carries id : usable sn id = true <-> carries sn id.
Proof using Hids.
  unfold usable, carries. split.
  - destruct (tunnel_map _ !! id) as [t|] eqn:Ht; [|done]. apply tunnel_map_Some in Ht as [Hin Hid]. intros [Hen Hor]%andb_true_iff.
    exists t. split_and!; try done. intros Hp. rewrite bool_decide_eq_false_2 in Hor by tauto. cbn in Hor. apply buildPool_taken.
    destruct (buildPool t _); [by eexists|done].
  - intros (t & Hin & <- & Hen & Hp). rewrite (tunnel_map_elem _ _ Hids Hin), Hen. cbn [andb].
    destruct (decide (t_source t = SourcePool)) as [Hs|Hs]; [|by rewrite bool_decide_eq_true_2].
    destruct (proj2 (buildPool_taken t) (Hp Hs)) as [g ->]. apply orb_true_r.
Qed.
Lemma via_switched id : via_usable sn id = true <-> switched_on sn id.
Proof using Hids.
  unfold via_usable, switched_on. split.
  - destruct (tunnel_map _ !! id) as [t|] eqn:Ht; [|done]. apply tunnel_map_Some in Ht as [Hin Hid]. intros Hen. by exists t.
  - intros (t & Hin & <- & Hen). by rewrite (tunnel_map_elem _ _ Hids Hin).
Qed.

Lemma rule_verdict_spec peers r : r.(r_action) ∈ RuleActions -> ((sourceCIDRs r peers).2 = false <-> all_off sn r) ->
  ruling sn r (rule_verdict sn peers r).
Proof using Hids.
  intros Hact Hoff. unfold rule_verdict. destruct (decide (r_action r = ActionBlock)) as [Hb|Hb]; [by apply verdict_block|].
  destruct (sourceCIDRs r peers).2; cbn [negb]; [|by apply verdict_off, Hoff]. assert (Hon : ~ all_off sn r) by (by intros ?%Hoff). clear Hoff.
  destruct (decide (r_action r = ActionDirect)) as [Hd|Hd]; [by apply verdict_direct|].
  assert (Ht : r.(r_action) = ActionTunnel) by (unfold RuleActions in Hact; rewrite !elem_of_cons, elem_of_nil in Hact; tauto).
  unfold links_usable, link_tag. destruct (usable sn (r_tunnel r)) eqn:Hu; cbn [andb].
  - apply usable_carries in Hu. destruct (decide (r_via r = EmptyString)) as [Hv|Hv].
    + rewrite bool_decide_eq_true_2 by done. by apply verdict_tunnel.
    + rewrite bool_decide_eq_false_2 by done. cbn [orb]. destruct (via_usable sn (r_via r)) eqn:Hvu.
      * apply via_switched in Hvu. by apply verdict_chain.
      * apply verdict_chain_down; [done..|]. intros ?%via_switched. congruence.
  - apply verdict_down; [done|]. intros ?%usable_carries. congruence.
Qed.

(** *** Clients with a tunnel of their own *)
Lemma egress_verdict_owner pk l k :
  (forall i, l !! i = sn.(sn_peers) !! (k + i)%nat) -> (forall j q id, owner sn pk j q id -> (k <= j)%nat) ->
  match egress_verdict sn pk l with
  | None => unowned sn pk
  | Some v => exists p id, first_owner sn pk p id /\
      v = if p.(p_enabled) && usable sn id && negb (existsb pk.(pk_ip) LocalIPv4) then Route (TunnelTag id) else Reject
  end.
Proof.
  revert k. induction l as [|p l IH]; intros k Hl Hk; cbn [egress_verdict].
  { intros i q id Ho. specialize (Hk _ _ _ Ho). destruct Ho as (Hi & _). specialize (Hl (i - k)%nat). rewrite lookup_nil in Hl.
    replace (k + (i - k))%nat with i in Hl by lia. congruence. }
  assert (Hp : sn.(sn_peers) !! k = Some p) by (specialize (Hl O); rewrite Nat.add_0_r in Hl; by rewrite <- Hl).
  assert (Hrec : (forall id, ~ owner sn pk k p id) -> match egress_verdict sn pk l with
    | None => unowned sn pk
    | Some v => exists p id, first_owner sn pk p id /\
        v = if p.(p_enabled) && usable sn id && negb (existsb pk.(pk_ip) LocalIPv4) then Route (TunnelTag id) else Reject
    end).
  { intros Hno. apply (IH (S k)).
    - intros i. specialize (Hl (S i)). rewrite <- plus_n_Sm in Hl. exact Hl.
    - intros j q id Ho. assert (j <> k); [|specialize (Hk _ _ _ Ho); lia]. intros ->. apply (Hno id). destruct Ho as (Hq & Ho). rewrite Hp in Hq. by injection Hq as ->. }
  destruct (p_egress p) as [id|] eqn:He; [|apply Hrec; intros id' (_ & He' & _); congruence].
  destruct (ParseAddr (p_address p)) as [a|] eqn:Ha; [|apply Hrec; intros id' (_ & _ & a' & Ha' & _); congruence].
  destruct (pk_source pk _) eqn:Hs; [|apply Hrec; intros id' (_ & _ & a' & Ha' & Hs'); congruence].
  exists p, id. split; [|done]. exists k. split; [split; [done|]; split; [done|by exists a]|done].
Qed.
Lemma to_lan_existsb pk : existsb pk.(pk_ip) LocalIPv4 = true <-> to_lan pk.
Proof. rewrite existsb_exists. split; intros (x & Hx & Hp); exists x; (split; [by apply list_elem_of_In|done]). Qed.
End tunnels.

(** ** The generated configuration *)
Section generated.
Context `{PF : Platform} `{PP : PoolPolicy} `{PS : PoolSource}.
Variables (sn : SnapshotT) (plain : PlainLists) (peers : gmap string (string * bool)).

(** Generation fails on a native list that is not there, unless the rule has
    no client at all. *)
Lemma rules_no_err built l acc acc' : fold_result (rule_step (tunnel_map sn.(sn_tunnels)) built.(tu_skipped) peers plain) acc l = Ok acc' ->
  Forall (fun r => ~ (r.(r_scope) = ScopeSelected /\ (sourceCIDRs r peers).1 = []) -> rs_err (buildRuleSets r plain) = false) l.
Proof.
  apply (fold_result_inv _ (fun seen _ => Forall _ seen)); [constructor|]. intros seen r b b' Hseen _ Hb. apply Forall_app. split; [exact Hseen|].
  constructor; [|constructor]. intros Hn. unfold rule_step in Hb. destruct (sourceCIDRs r peers) as [src live]. cbn [fst] in Hn.
  rewrite decide_False in Hb by done. apply result_bind_Ok in Hb as ([tag un] & _ & Hb). cbv zeta in Hb. by destruct (rs_err _).
Qed.
Lemma Generate_no_err opts diags : GeneratePolicyWithDiag sn plain = Ok (opts, diags) -> peer_addresses sn.(sn_peers) = Ok peers ->
  Forall (fun r => ~ (r.(r_scope) = ScopeSelected /\ (sourceCIDRs r peers).1 = []) -> rs_err (buildRuleSets r plain) = false) (sortedRules sn.(sn_rules)).
Proof.
  intros ([[o d] plan] & Hg & _)%result_bind_Ok Hp. revert Hg. unfold generatePolicyWithPlan. cbv zeta.
  intros (built & _ & (peers' & Hp' & (dns & _ & ([egress dns1] & _ & (acc & Ha & _)%result_bind_Ok)%result_bind_Ok)%result_bind_Ok)%result_bind_Ok)%result_bind_Ok.
  assert (peers' = peers) as -> by congruence. by eapply rules_no_err.
Qed.

Hypothesis Hok : snapshot_ok sn.
Hypothesis Hpeers : peer_addresses sn.(sn_peers) = Ok peers.
Hypothesis Hnd : NoDup (p_id <$> sn.(sn_peers)).
Hypothesis Herr : Forall (fun r => ~ (r.(r_scope) = ScopeSelected /\ (sourceCIDRs r peers).1 = []) -> rs_err (buildRuleSets r plain) = false) (sortedRules sn.(sn_rules)).

Lemma enabled_sorted r : r ∈ sn.(sn_rules) -> r.(r_enabled) = true -> r ∈ sortedRules sn.(sn_rules).
Proof. intros Hr Hen. rewrite sortedRules_Permutation. by apply list_elem_of_filter. Qed.
Lemma applies_claims pk r : r ∈ sn.(sn_rules) -> r.(r_enabled) = true -> applies plain peers pk r = true <-> claims sn plain pk r.
Proof using Hpeers Hnd Herr.
  intros Hr Hen. rewrite Forall_forall in Herr. specialize (Herr r (enabled_sorted r Hr Hen)).
  destruct (sources_spec sn peers Hpeers Hnd pk.(pk_source) r) as [_ Hsrc]. fold (from_client sn pk r) in Hsrc.
  assert (Hne : from_client sn pk r -> rs_err (buildRuleSets r plain) = false).
  { intros Hf%Hsrc. apply Herr. intros [Hs Hn]. rewrite Hn, bool_decide_eq_false_2 in Hf by tauto. done. }
  unfold applies, in_force, claims. rewrite !andb_true_iff, Hsrc. split.
  - intros [[_ Hd] Hf]. split; [done|]. split; [done|]. apply existsb_exists in Hd as (tag & Ht%list_elem_of_In & Hs).
    apply (buildRuleSets_covers plain r (Hne Hf)) in Ht as (body & names & Hd). by exists tag, body, names.
  - intros (_ & Hf & tag & body & names & Hd & Hs).
    assert (Ht : tag ∈ rs_route (buildRuleSets r plain)) by (apply (buildRuleSets_covers plain r (Hne Hf)); by exists body, names).
    split; [split; [split|]|done].
    + apply Hsrc in Hf. destruct (decide (r_scope r = ScopeSelected)) as [Hsc|Hsc]; [|by rewrite bool_decide_eq_false_2].
      rewrite bool_decide_eq_false_2 in Hf by tauto. destruct (sourceCIDRs r peers).1; [done|]. by rewrite (bool_decide_eq_false_2 (_ :: _ = [])), andb_false_r.
    + apply bool_decide_eq_true_2. intros Hn. rewrite Hn in Ht. by apply elem_of_nil in Ht.
    + apply existsb_exists. exists tag. split; [by apply list_elem_of_In|done].
Qed.

Lemma rules_verdict_first_of pk l :
  rules_verdict sn plain peers pk l = match first_of (applies plain peers pk) l with Some r => rule_verdict sn peers r | None => Route TagDirect end.
Proof. induction l as [|r l IH]; [done|]. cbn [rules_verdict]. rewrite first_of_cons. by destruct (applies _ _ _ r). Qed.

Lemma rules_routed pk : match first_of (applies plain peers pk) (sortedRules sn.(sn_rules)) with
  | Some r => exists i, decides sn plain pk i r /\ ruling sn r (rule_verdict sn peers r)
  | None => forall r, r ∈ sn.(sn_rules) -> ~ claims sn plain pk r
  end.
Proof using Hpeers Hnd Herr Hok.
  pose proof (first_of_sorted (applies plain peers pk) sn.(sn_rules)) as Hf. destruct (first_of _ _) as [r|].
  - destruct Hf as (i & Hi & Hen & Ha & Hm). assert (Hr : r ∈ sn.(sn_rules)) by (by eapply list_elem_of_lookup_2). exists i. split.
    + split; [done|]. split; [by apply applies_claims|]. intros j x Hx Hc. assert (Hxe : x.(r_enabled) = true) by apply Hc.
      apply (Hm j x Hx Hxe). apply applies_claims; [by eapply list_elem_of_lookup_2|done..].
    + apply rule_verdict_spec; [apply Hok| |apply (sources_spec sn peers Hpeers Hnd (fun _ => false) r)].
      pose proof (so_actions _ Hok) as Hact. rewrite Forall_forall in Hact. by apply Hact.
  - intros r Hr Hc. assert (Hen : r.(r_enabled) = true) by apply Hc. apply (applies_claims pk r Hr Hen) in Hc. rewrite (Hf r Hr Hen) in Hc. done.
Qed.

Lemma policy_routed pk : routed sn plain pk (policy sn plain peers pk).
Proof using Hpeers Hnd Herr Hok.
  unfold policy. destruct (decide (pk_inbound pk = TagDNSIn)) as [Hi|Hi]; [by apply routed_dns|].
  pose proof (egress_verdict_owner sn pk sn.(sn_peers) 0 (fun _ => eq_refl) (fun _ _ _ _ => Nat.le_0_l _)) as He.
  destruct (egress_verdict sn pk (sn_peers sn)) as [v|].
  - destruct He as (p & id & Ho & ->). pose proof (usable_carries sn (so_ids _ Hok) id) as Hu. pose proof (to_lan_existsb pk) as Hl.
    destruct (p_enabled p) eqn:Hen; cbn [andb]; [|apply (routed_own_off _ _ _ p id); tauto].
    destruct (usable sn id); cbn [andb]; [|apply (routed_own_off _ _ _ p id); [done|done|right; left; intros Hc%Hu; done]].
    destruct (existsb _ _); cbn [negb]; [apply (routed_own_off _ _ _ p id); tauto|]. apply (routed_own _ _ _ p id); [done|done|done|by apply Hu|by intros ?%Hl].
  - rewrite rules_verdict_first_of. pose proof (rules_routed pk) as Hr. destruct (first_of _ _) as [r|]; [|by apply routed_default].
    destruct Hr as (i & Hd & Hv). by apply (routed_rule _ _ _ i r).
Qed.

(** The sets of the configuration belong to its rules. *)
Lemma add_sets_elem sets known s : s ∈ add_sets sets known -> s ∈ known \/ s ∈ sets.
Proof.
  unfold add_sets. revert known. induction sets as [|x sets IH]; intros known; cbn [foldl]; [by left|]. intros [Hs|Hs]%IH; [|right; by right].
  case_decide; [by left|]. apply elem_of_app in Hs as [?| ->%list_elem_of_singleton]; [by left|right; by left].
Qed.
Lemma sets_elem l s known : s ∈ foldl (fun known r => add_sets (buildRuleSets r plain).(rs_sets) known) known l ->
  s ∈ known \/ exists r, r ∈ l /\ s ∈ (buildRuleSets r plain).(rs_sets).
Proof.
  revert known. induction l as [|r l IH]; intros known; cbn [foldl]; [by left|]. intros [[Hs|Hs]%add_sets_elem|(x & Hx & Hs)]%IH; [by left|right|right].
  - exists r. split; [by left|done].
  - exists x. split; [by right|done].
Qed.
Lemma forced_set s : s ∈ foldl (fun known r => add_sets (buildRuleSets r plain).(rs_sets) known) [] (forced plain peers (sortedRules sn.(sn_rules))) ->
  exists r, r ∈ sn.(sn_rules) /\ r.(r_enabled) = true /\ set_under plain r s.
Proof using Herr.
  intros [?%elem_of_nil|(r & [Hf Hr]%list_elem_of_filter & Hs)]%sets_elem; [done|]. rewrite Forall_forall in Herr. specialize (Herr r Hr).
  rewrite sortedRules_Permutation in Hr. apply list_elem_of_filter in Hr as [Hen Hr]. exists r. split; [done|]. split; [done|].
  apply (buildRuleSets_covers plain r); [|done]. apply Herr. intros [Hsc Hn]. unfold in_force in Hf. rewrite Hn, !bool_decide_eq_true_2 in Hf by done. done.
Qed.
End generated.

(** ** Properties *)
Section properties.
Context `{PF : Platform} `{PP : PoolPolicy} `{PS : PoolSource}.

Lemma Generate_parts sn plain opts diags : snapshot_ok sn -> NoDup (p_id <$> sn.(sn_peers)) -> GeneratePolicyWithDiag sn plain = Ok (opts, diags) ->
  exists peers built rules, generated sn plain opts peers built rules /\
    Forall (fun r => ~ (r.(r_scope) = ScopeSelected /\ (sourceCIDRs r peers).1 = []) -> rs_err (buildRuleSets r plain) = false) (sortedRules sn.(sn_rules)).
Proof.
  intros Hok Hnd Hg. destruct (Generate_inv _ _ _ _ Hok Hg) as (peers & built & rules & Hgen). exists peers, built, rules. split; [done|].
  eapply Generate_no_err; [exact Hg|apply Hgen].
Qed.
Lemma Generate_routed sn plain opts diags pk : snapshot_ok sn -> NoDup (p_id <$> sn.(sn_peers)) -> GeneratePolicyWithDiag sn plain = Ok (opts, diags) ->
  routed sn plain pk (decide_route opts.(op_routes) opts.(op_final) pk).
Proof.
  intros Hok Hnd Hg. destruct (Generate_parts _ _ _ _ Hok Hnd Hg) as (peers & built & rules & Hgen & Herr).
  rewrite (decide_generated _ _ _ _ _ _ pk Hgen). apply policy_routed; try done. apply Hgen.
Qed.
Lemma decider_tag_defined sn plain opts diags pk i r tag body names : snapshot_ok sn -> NoDup (p_id <$> sn.(sn_peers)) ->
  GeneratePolicyWithDiag sn plain = Ok (opts, diags) -> decides sn plain pk i r -> destination plain r tag body names -> tag ∈ map st_tag opts.(op_sets).
Proof.
  intros Hok Hnd Hg (Hi & Hc & _) Hd. destruct (Generate_parts _ _ _ _ Hok Hnd Hg) as (peers & built & rules & Hgen & Herr).
  assert (Hr : r ∈ sn.(sn_rules)) by (by eapply list_elem_of_lookup_2). assert (Hen : r.(r_enabled) = true) by apply Hc.
  apply (applies_claims sn plain peers (g_peers _ _ _ _ _ _ Hgen) Hnd Herr pk r Hr Hen) in Hc. unfold applies in Hc. rewrite !andb_true_iff in Hc.
  destruct Hc as [[Hf _] _]. assert (Hin : r ∈ rules) by (rewrite (g_rules _ _ _ _ _ _ Hgen); apply list_elem_of_filter; split; [done|by apply enabled_sorted]).
  destruct (sets_generated _ _ _ _ _ _ Hgen) as [_ Hsets]. apply (Hsets r); [done|left]. rewrite Forall_forall in Herr.
  apply (buildRuleSets_covers plain r); [|by exists body, names]. apply Herr; [by apply enabled_sorted|].
  intros [Hs Hn]. unfold in_force in Hf. by rewrite Hn, !bool_decide_eq_true_2 in Hf.
Qed.

(** C17: the generated route rules decide every connection exactly as the rows
    of the snapshot say: DNS traffic is answered by the resolver; the traffic of
    a client with a tunnel of its own goes through it, or is refused when the
    client or the tunnel is off or the destination is a local network;
    everything else is decided by the enabled rule of least priority whose
    clients and destinations it meets; what no rule claims goes out directly.
    Every rule set of the configuration has a tag of its own and holds what
    some enabled rule asks for under this tag, and the destinations of a rule
    that decides are among them. *)
Theorem Generate_routes sn plain opts diags :
  snapshot_ok sn -> NoDup (p_id <$> sn.(sn_peers)) -> GeneratePolicyWithDiag sn plain = Ok (opts, diags) ->
  (forall pk a, routed sn plain pk a <-> decide_route opts.(op_routes) opts.(op_final) pk = a) /\
  NoDup (map st_tag opts.(op_sets)) /\
  (forall s, s ∈ opts.(op_sets) -> exists r, r ∈ sn.(sn_rules) /\ r.(r_enabled) = true /\ set_under plain r s) /\
  (forall pk i r tag body names, decides sn plain pk i r -> destination plain r tag body names -> tag ∈ map st_tag opts.(op_sets)).
Proof.
  intros Hok Hnd Hg. destruct (Generate_parts _ _ _ _ Hok Hnd Hg) as (peers & built & rules & Hgen & Herr). split; [|split; [|split]].
  - intros pk a. pose proof (Generate_routed _ _ _ _ pk Hok Hnd Hg) as Hr. split; [intros Ha; by eapply routed_unique|by intros <-].
  - apply (sets_generated _ _ _ _ _ _ Hgen).
  - intros s Hs. rewrite (g_sets _ _ _ _ _ _ Hgen), (g_rules _ _ _ _ _ _ Hgen) in Hs. by eapply forced_set.
  - intros pk i r tag body names. by eapply decider_tag_defined.
Qed.

(** C18: the configuration fails closed (ADR 0013).  Traffic from the address of
    a client with a tunnel of its own leaves through that tunnel of that client
    while both are on and never for a local network, and is refused otherwise;
    traffic that a tunnel rule decides leaves through exactly the links of this
    rule when all of them can carry it and a selected client is on, and is
    refused otherwise.  Only unowned traffic leaves directly, and only when a
    direct rule decides it or no rule claims it; every other exit is one of
    those two. *)
Theorem Generate_fail_closed sn plain opts diags pk :
  snapshot_ok sn -> NoDup (p_id <$> sn.(sn_peers)) -> GeneratePolicyWithDiag sn plain = Ok (opts, diags) -> pk.(pk_inbound) <> TagDNSIn ->
  let decision := decide_route opts.(op_routes) opts.(op_final) pk in
  (forall p id, first_owner sn pk p id ->
     p.(p_enabled) = true /\ carries sn id /\ ~ to_lan pk /\ decision = Route (TunnelTag id) \/
     (p.(p_enabled) = false \/ ~ carries sn id \/ to_lan pk) /\ decision = Reject) /\
  (forall i r, unowned sn pk -> decides sn plain pk i r -> r.(r_action) = ActionTunnel ->
     ~ all_off sn r /\ carries sn r.(r_tunnel) /\
       (r.(r_via) = EmptyString /\ decision = Route (TunnelTag r.(r_tunnel)) \/
        r.(r_via) <> EmptyString /\ switched_on sn r.(r_via) /\ decision = Route (ChainTag r.(r_via) r.(r_tunnel))) \/
     (all_off sn r \/ ~ carries sn r.(r_tunnel) \/ r.(r_via) <> EmptyString /\ ~ switched_on sn r.(r_via)) /\ decision = Reject) /\
  (decision = Route TagDirect -> unowned sn pk /\
     ((exists i r, decides sn plain pk i r /\ r.(r_action) = ActionDirect) \/ forall r, r ∈ sn.(sn_rules) -> ~ claims sn plain pk r)) /\
  (forall tag, decision = Route tag -> tag <> TagDirect ->
     (exists p id, first_owner sn pk p id /\ tag = TunnelTag id) \/
     (exists i r, unowned sn pk /\ decides sn plain pk i r /\ r.(r_action) = ActionTunnel /\
        tag = if decide (r.(r_via) = EmptyString) then TunnelTag r.(r_tunnel) else ChainTag r.(r_via) r.(r_tunnel))).
Proof.
  intros Hok Hnd Hg Hi decision. pose proof (Generate_routed _ _ _ _ pk Hok Hnd Hg) as Hr. fold decision in Hr. clearbody decision.
  destruct Hr as [?|p id _ Ho Hen Hc Hl|p id _ Ho Hoff|i r a _ Hu Hd Hv|_ Hu Hno]; [done|..].
  - split; [|split; [intros; exfalso; by eapply owned_unowned|split; [intros [=]|intros tag [= <-] _; left; by exists p, id]]].
    intros q id' Hq. destruct (first_owner_unique _ _ _ _ _ _ Ho Hq) as [-> ->]. left. by split_and!.
  - split; [|split; [intros; exfalso; by eapply owned_unowned|split; [intros [=]|intros tag [=]]]].
    intros q id' Hq. destruct (first_owner_unique _ _ _ _ _ _ Ho Hq) as [-> ->]. right. by split.
  - split; [intros p id Hp; exfalso; by eapply owned_unowned|]. split; [|split].
    + intros j x _ Hx Hact. destruct (decides_unique _ _ _ _ _ _ _ Hd Hx) as [-> ->]. revert Hact.
      destruct Hv as [Hb|Hb|Hb Hon|Hb Hon Hc He|Hb Hon Hc He Hs|Hb Hc|Hb He Hs]; intros Hact; try (rewrite Hact in Hb; discriminate Hb); tauto.
    + intros ->. split; [done|]. left. exists i, r. split; [done|]. by inversion Hv.
    + intros tag -> Ht. right. exists i, r. split; [done|]. split; [done|].
      inversion Hv as [| |Hb|Hb Hon Hc He|Hb Hon Hc He Hs| |]; subst; [done|split; [done|by rewrite decide_True]|split; [done|by rewrite decide_False]].
  - split; [intros p id Hp; exfalso; by eapply owned_unowned|]. split; [|split; [intros _; by split; [|right]|by intros tag [= <-]]].
    intros i r _ (Hx & Hcl & _) _. exfalso. apply (Hno r); [by eapply list_elem_of_lookup_2|done].
Qed.
End properties.

(** ** Witnesses *)
#[local] Existing Instances ascii_unicode ascii_runes sample_platform sample_source.

Lemma gen_peers_distinct : NoDup (p_id <$> gen_snapshot.(sn_peers)).
Proof. apply (bool_decide_eq_true_1 (NoDup (p_id <$> gen_peers))). by vm_compute. Qed.
Definition generated_decision (pk : packet) : option RuleActionT :=
  match GeneratePolicyWithDiag gen_snapshot gen_plain with
  | Ok (opts, _) => Some (decide_route opts.(op_routes) opts.(op_final) pk)
  | Err _ => None
  end.

(** Alice's rule goes through the chain, so by the policy it must. *)
Lemma Generate_routes_witness :
  routed gen_snapshot gen_plain (gen_packet "10.8.0.2/32" "rule-r1") (Route "chain-warp-via-vl") /\
  routed gen_snapshot gen_plain (gen_packet "10.8.0.4/32" "rule-r1") (Route "tun-vl").
Proof.
  assert (H1 : generated_decision (gen_packet "10.8.0.2/32" "rule-r1") = Some (Route "chain-warp-via-vl")) by (vm_compute; reflexivity).
  assert (H2 : generated_decision (gen_packet "10.8.0.4/32" "rule-r1") = Some (Route "tun-vl")) by (vm_compute; reflexivity).
  destruct gen_generates as (opts & diags & Hg). unfold generated_decision in H1, H2. rewrite Hg in H1, H2. injection H1 as H1. injection H2 as H2.
  destruct (Generate_routes _ _ _ _ gen_snapshot_ok gen_peers_distinct Hg) as [Hd _]. split; apply Hd; [exact H1|exact H2].
Defined.

(** Nobody owns this source and no direct rule exists, so a connection to the
    set of a rule whose tunnel is off is refused, not let out. *)
Lemma Generate_fail_closed_witness :
  exists opts diags, GeneratePolicyWithDiag gen_snapshot gen_plain = Ok (opts, diags) /\
    decide_route opts.(op_routes) opts.(op_final) (gen_packet "10.8.0.9/32" "rule-r2") = Reject /\
    exists p, first_owner gen_snapshot (gen_packet "10.8.0.4/32" "rule-r2") p "vl" /\
      decide_route opts.(op_routes) opts.(op_final) (gen_packet "10.8.0.4/32" "rule-r2") = Route (TunnelTag "vl").
Proof.
  assert (H1 : generated_decision (gen_packet "10.8.0.9/32" "rule-r2") = Some Reject) by (vm_compute; reflexivity).
  assert (H2 : generated_decision (gen_packet "10.8.0.4/32" "rule-r2") = Some (Route (TunnelTag "vl"))) by (vm_compute; reflexivity).
  destruct gen_generates as (opts & diags & Hg). exists opts, diags. split; [exact Hg|].
  unfold generated_decision in H1, H2. rewrite Hg in H1, H2. injection H1 as H1. injection H2 as H2. split; [exact H1|].
  assert (Hi : pk_inbound (gen_packet "10.8.0.4/32" "rule-r2") <> TagDNSIn) by (intros Hi; discriminate Hi).
  destruct (Generate_fail_closed _ _ _ _ (gen_packet "10.8.0.4/32" "rule-r2") gen_snapshot_ok gen_peers_distinct Hg Hi) as (_ & _ & _ & H).
  destruct (H _ H2 ltac:(discriminate)) as [(p & id & Ho & Ht)|(i & r & Hu & _)].
  - assert (E : id = "vl"%string) by (vm_compute in Ht; by injection Ht as <-). subst id. exists p. split; [exact Ho|exact H2].
  - exfalso. apply (Hu 1%nat (MkPeer false false "" 0 (Some "vl"%string) "carol" "Carol" "pubC" "privC" "pskC" "10.8.0.4" true 0) "vl"%string).
    split; [reflexivity|]. split; [reflexivity|]. eexists. split; [vm_compute; reflexivity|vm_compute; reflexivity].
Defined.
