(* ===== verification/Reality.v ===== *)
(** * The REALITY entrance of the configuration

    [internal/singbox/reality.go], [reality_denial.go] and [reality_client.go]:
    the public inbound with the users that are live at the moment of
    publication, and the rules of the gateway rewritten for its connections. *)

From Stdlib Require Import Ascii.
From S2P Require Import Prelude GoStd Model GoJson Db Wf SettingsStore RealityStore PoolFilter SingBox Generate.
#[local] Open Scope Z_scope.

Definition TagRealityIn : string := "reality-in".
Definition realityDenialBudget : Z := 1000000.
Definition uint16 (n : Z) : Z := n mod 2 ^ 16.

(** ** Matchers

    [option.RawDefaultRule] with the fields this file sets, and logical rules
    over them. *)
Record RawRule := MkRaw {
  rw_inbound : list string;
  rw_user : list string;
  rw_sets : list string;
  rw_source : list string;
  rw_ip : list string;
  rw_version : option Z;
  rw_port : list Z;
  rw_domain : list string;
  rw_network : list string;
  rw_invert : bool
}.
Definition no_raw : RawRule := MkRaw [] [] [] [] [] None [] [] [] false.

Inductive Matcher :=
  | Leaf (raw : RawRule)
  | Logical (is_or invert : bool) (children : list Matcher).

Inductive XAction :=
  | XHijackDNS
  | XReject
  | XRoute (outbound : string)
  | XResolve (server : string)
  | XSniff.                           (** TLS and HTTP, 300 ms *)
Record XRule := MkXRule { xr_match : Matcher; xr_action : XAction }.
Record XDNSRule := MkXDNS { xd_inbound : list string; xd_user : list string; xd_match : DNSMatch; xd_action : DNSAction }.

Definition lift_action (a : RuleActionT) : XAction :=
  match a with HijackDNS => XHijackDNS | Reject => XReject | Route t => XRoute t | Resolve s => XResolve s end.
Definition lift_match (m : RouteMatch) : RawRule :=
  MkRaw m.(rm_inbound) [] m.(rm_sets) m.(rm_source) m.(rm_ip) None [] [] [] false.
Definition lift_rule (r : RouteRule) : XRule := MkXRule (Leaf (lift_match r.(rt_match))) (lift_action r.(rt_action)).
Definition lift_dns (r : DNSRule) : XDNSRule := MkXDNS [] [] r.(dr_match) r.(dr_action).

(** [raw] for connections of the given inbound and users. *)
Definition for_inbound (inbound user source : list string) (raw : RawRule) : RawRule :=
  MkRaw inbound user raw.(rw_sets) source raw.(rw_ip) raw.(rw_version) raw.(rw_port) raw.(rw_domain)
    raw.(rw_network) raw.(rw_invert).
Definition of_users (auth : list string) : RawRule := MkRaw [] auth [] [] [] None [] [] [] false.
Definition of_sets (tags : list string) : RawRule := MkRaw [] [] tags [] [] None [] [] [] false.
Definition of_version (v : Z) : RawRule := MkRaw [] [] [] [] [] (Some v) [] [] [] false.
Definition of_port (p : Z) : RawRule := MkRaw [] [] [] [] [] None [p] [] [] false.
Definition of_ip (l : list string) : RawRule := MkRaw [] [] [] [] l None [] [] [] false.
Definition of_domain (d : string) : RawRule := MkRaw [] [] [] [] [] None [] [d] [] false.
Definition at_reality (raw : RawRule) : RawRule := for_inbound [TagRealityIn] raw.(rw_user) raw.(rw_source) raw.

(** ** The preflight of refused names *)
Record positiveScope := MkScope { ps_auth : list string; ps_tags : list string; ps_address : bool }.
Record Preflight := MkPreflight { pf_positives : list positiveScope; pf_out : list XRule; pf_cost : Z }.

(** [denialMatcherCost] *)
Fixpoint denialMatcherCost (m : Matcher) : Z :=
  match m with
  | Leaf raw => 1 + Z.of_nat (length raw.(rw_user)) + Z.of_nat (length raw.(rw_sets))
  | Logical _ _ l => 1 + foldr Z.add 0 (map denialMatcherCost l)
  end.

(** The closure [charge]. *)
Definition charge (n : Z) (p : Preflight) : result Preflight :=
  let cost := p.(pf_cost) + n in
  if decide (realityDenialBudget < cost) then fail ErrOther "preflight exceeds construction budget"
  else Ok (MkPreflight p.(pf_positives) p.(pf_out) cost).

(** No address: neither IPv4 nor IPv6. *)
Definition hostname : Matcher := Logical true true [Leaf (of_version 4); Leaf (of_version 6)].

Definition shadow_of (g : positiveScope) : Matcher :=
  if g.(ps_address) then Leaf (of_users g.(ps_auth))
  else Logical false false [Leaf (of_users g.(ps_auth)); Leaf (of_sets g.(ps_tags))].

(** The key of a group: [strings.Join(auth, NUL)]. *)
Definition group_key (auth : list string) : string := Join auth (byte_string [0]).
Definition find_group (auth : list string) (l : list positiveScope) : option (nat * positiveScope) :=
  list_find (fun g => group_key g.(ps_auth) = group_key auth) l.

Definition with_positives (l : list positiveScope) (p : Preflight) : Preflight :=
  MkPreflight l p.(pf_out) p.(pf_cost).

Section selected.
Variable selected : list string -> list string.

Definition deny_step (auth : list string) (d : compiledDestination) (p : Preflight) : result Preflight :=
  if decide (d.(cd_dns_tags) = []) then Ok p
  else
    let shadow := map shadow_of p.(pf_positives) in
    let children := [Leaf (at_reality no_raw); Leaf (of_users auth); hostname; Leaf (of_sets d.(cd_dns_tags))] ++
      (if decide (p.(pf_positives) = []) then [] else [Logical true true shadow]) in
    let n := 8 + Z.of_nat (length auth) + Z.of_nat (length d.(cd_dns_tags)) +
      (if decide (p.(pf_positives) = []) then 0 else 1 + foldr Z.add 0 (map denialMatcherCost shadow)) in
    p ← charge n p;
    Ok (MkPreflight p.(pf_positives) (p.(pf_out) ++ [MkXRule (Logical false false children) XReject]) p.(pf_cost)).

Definition route_step (auth : list string) (d : compiledDestination) (p : Preflight) : result Preflight :=
  if negb d.(cd_addr) && bool_decide (d.(cd_dns_tags) = []) then Ok p
  else
    '(i, g, p) ←
      match find_group auth p.(pf_positives) with
      | Some (i, g) => Ok (i, g, p)
      | None =>
          p ← charge (1 + Z.of_nat (length auth)) p;
          let g := MkScope auth [] false in
          Ok (length p.(pf_positives), g, with_positives (p.(pf_positives) ++ [g]) p)
      end;
    if g.(ps_address) then Ok p
    else if d.(cd_addr) then Ok (with_positives (<[i := MkScope g.(ps_auth) [] true]> p.(pf_positives)) p)
    else
      p ← charge (Z.of_nat (length d.(cd_dns_tags))) p;
      Ok (with_positives (<[i := MkScope g.(ps_auth) (g.(ps_tags) ++ d.(cd_dns_tags)) false]> p.(pf_positives)) p).

Definition preflight_step (p : Preflight) (d : compiledDestination) : result Preflight :=
  let auth := selected d.(cd_route).(rt_match).(rm_source) in
  if decide (auth = []) then Ok p
  else match d.(cd_route).(rt_action) with
       | Reject => deny_step auth d p
       | Route _ => route_step auth d p
       | _ => Ok p
       end.

(** [realityDenialPreflight] *)
Definition realityDenialPreflight (plan : list compiledDestination) : result (list XRule) :=
  p ← fold_result preflight_step (MkPreflight [] [] 0) plan; Ok p.(pf_out).
End selected.

(** ** The entrance *)

(** [store.RealityRuntime] with the addresses of the gateway the publisher
    adds. *)
Record Live := MkLive { lv_runtime : RealityRuntimeT; lv_local : list string }.

Record RealityInbound := MkRealityIn {
  rn_addr : Addr; rn_port : Z; rn_users : list (string * string); rn_server : string;
  rn_private : string; rn_short : string; rn_handshake : string; rn_handshake_port : Z }.

(** [opts] with the fields [GenerateWithReality] rewrites. *)
Record RealityOptions := MkRealityOptions {
  ro_base : Options;
  ro_inbound : option RealityInbound;
  ro_routes : list XRule;
  ro_dns : list XDNSRule
}.
Definition plain_options (opts : Options) : RealityOptions :=
  MkRealityOptions opts None (map lift_rule opts.(op_routes)) (map lift_dns opts.(op_dns).(do_rules)).

(** The loop over [live.Users]: the map [byPeer] and the names. *)
Definition add_user (acc : gmap string string * list string) (u : RealityUser) : result (gmap string string * list string) :=
  if decide (u.(ru_peer) = EmptyString \/ u.(ru_name) <> RealityUserName u.(ru_peer) \/ u.(ru_uuid) = EmptyString)
  then fail ErrOther "invalid live REALITY user"
  else if decide (is_Some (acc.1 !! u.(ru_peer))) then fail ErrOther "duplicate REALITY user"
  else Ok (<[u.(ru_peer) := u.(ru_name)]> acc.1, acc.2 ++ [u.(ru_name)]).

(** [nameByCIDR] *)
Definition add_name (byPeer : gmap string string) (m : gmap string string) (p : Peer) : result (gmap string string) :=
  match byPeer !! p.(p_id) with
  | Some name => prefix ← cidr p.(p_address); Ok (<[prefix := name]> m)
  | None => Ok m
  end.

(** The closure [selected]. *)
Definition selected (names : list string) (nameByCIDR : gmap string string) (sources : list string) : list string :=
  if decide (sources = []) then names else omap (fun ip => nameByCIDR !! ip) sources.

Section entrance.
Variables (st : Settings) (names : list string) (deniedCIDRs : list string) (select : list string -> list string).

Definition privateReject (auth : list string) : XRule :=
  MkXRule (Leaf (for_inbound [TagRealityIn] auth [] (of_ip deniedCIDRs))) XReject.
Definition unknown_user : XRule :=
  MkXRule (Logical false false [Leaf (at_reality no_raw); Leaf (MkRaw [] names [] [] [] None [] [] [] true)]) XReject.

(** The closure [rejectEndpointName]. *)
Definition rejectEndpointName : list XRule :=
  if decide (st.(s_endpoint) <> EmptyString) then
    match ParseAddr st.(s_endpoint) with
    | None => [MkXRule (Leaf (at_reality (of_domain st.(s_endpoint)))) XReject]
    | Some _ => []
    end
  else [].

Definition entrance_rules : list XRule :=
  [unknown_user;
   MkXRule (Leaf (at_reality (of_version 6))) XReject;
   MkXRule (Leaf (at_reality (of_port 853))) XReject;
   MkXRule (Leaf (at_reality (of_port 53))) XHijackDNS;
   privateReject names] ++ rejectEndpointName.

(** The closure [sharedResolve]. *)
Definition sharedResolve (withDestinationRules : bool) : list XRule :=
  [MkXRule (Leaf (at_reality no_raw)) (XResolve TagDNSUpstream); privateReject names] ++
  (if withDestinationRules
   then MkXRule (Leaf (MkRaw [TagRealityIn] [] [] [] [] (Some 4) [] [] ["tcp"%string] false)) XSniff :: rejectEndpointName
   else []).

(** What a rule of the gateway becomes. *)
Definition reality_rule (r : RouteRule) : list XRule :=
  let raw := lift_match r.(rt_match) in
  let action := lift_action r.(rt_action) in
  if decide (r.(rt_match).(rm_source) = [] /\ r.(rt_match).(rm_sets) = []) then [lift_rule r]
  else
    MkXRule (Leaf (for_inbound [TagTProxyIn] raw.(rw_user) raw.(rw_source) raw)) action ::
    let auth := select r.(rt_match).(rm_source) in
    if decide (auth = []) then []
    else
      let alternative users := MkXRule (Leaf (for_inbound [TagRealityIn] users [] raw)) action in
      match r.(rt_action) with
      | Route _ => map (fun user => alternative [user]) auth
      | Resolve _ => [alternative auth; privateReject auth]
      | _ => [alternative auth]
      end.

(** The loop over [opts.Route.Rules]; [inserted] is its flag. *)
Fixpoint rewrite_rules (preflight : list XRule) (inserted : bool) (l : list RouteRule) : list XRule :=
  match l with
  | [] => if inserted then [] else sharedResolve false
  | r :: l =>
      let first := negb inserted && bool_decide (r.(rt_match).(rm_sets) <> []) in
      (if first then preflight ++ sharedResolve true else []) ++ reality_rule r ++
      rewrite_rules preflight (inserted || first) l
  end.

Definition direct_rules : list XRule :=
  map (fun user => MkXRule (Leaf (MkRaw [TagRealityIn] [user] [] [] [] None [] [] [] false)) (XRoute TagDirect)) names.

Definition reality_dns_rule (r : DNSRule) : list XDNSRule :=
  let m := r.(dr_match) in
  if decide (m.(dm_source) = [] /\ m.(dm_sets) = []) then [lift_dns r]
  else
    MkXDNS [TagDNSIn; TagTProxyIn] [] m r.(dr_action) ::
    let auth := select m.(dm_source) in
    if decide (auth = []) then []
    else [MkXDNS [TagRealityIn] auth (MkDNSMatch m.(dm_types) m.(dm_suffix) m.(dm_sets) []) r.(dr_action)].

Definition dns_rules (l : list DNSRule) : list XDNSRule :=
  MkXDNS [TagRealityIn] [] (MkDNSMatch [28] [] [] []) DNSReject :: flat_map reality_dns_rule l.
End entrance.

Section generate.
Context `{Platform} `{PoolPolicy} `{PoolSource}.

(** [GenerateWithReality] *)
Definition GenerateWithReality (sn : SnapshotT) (plain : PlainLists) (live : option Live) : result RealityOptions :=
  '(opts, _, plan) ← generatePolicyWithPlan sn plain;
  let st := sn.(sn_settings) in
  if negb st.(s_reality) then Ok (plain_options opts)
  else match live with
  | None => fail ErrOther "REALITY generation requires live authentication context"
  | Some (MkLive rt localAddresses) =>
      match rt.(rr_identity) with
      | None => Ok (plain_options opts)
      | Some i =>
          if decide (rt.(rr_users) = []) then Ok (plain_options opts)
          else if decide (i.(ri_id) <> sn.(sn_identity)) then fail ErrOther "identity does not match committed admission"
          else match ParseAddr "0.0.0.0" with
          | None => fail ErrOther "address does not parse"
          | Some any =>
              '(byPeer, names) ← fold_result add_user (∅, []) rt.(rr_users);
              nameByCIDR ← fold_result (add_name byPeer) ∅ sn.(sn_peers);
              let select := selected names nameByCIDR in
              let denied := LocalIPv4 ++ localAddresses in
              preflight ← realityDenialPreflight select plan;
              Ok (MkRealityOptions opts
                    (Some (MkRealityIn any (uint16 st.(s_reality_port))
                             (map (fun u => (u.(ru_name), u.(ru_uuid))) rt.(rr_users)) st.(s_reality_server)
                             i.(ri_private) i.(ri_short) st.(s_handshake_server) (uint16 st.(s_handshake_port))))
                    (entrance_rules st names denied ++
                     rewrite_rules st names denied select preflight false opts.(op_routes) ++
                     direct_rules names)
                    (dns_rules select opts.(op_dns).(do_rules)))
          end
      end
  end.
End generate.

(** ** The profile of a client *)

(** [RealityClientProfile], by what it takes from the state: the rest of the
    profile is constant. *)
Record ClientProfile := MkProfile {
  cp_mtu : Z; cp_server : string; cp_port : Z; cp_uuid : string; cp_server_name : string;
  cp_public : string; cp_short : string }.
Definition RealityClientProfile (st : Settings) (credential publicKey shortID : string) : result ClientProfile :=
  if decide (st.(s_endpoint) = EmptyString \/ credential = EmptyString \/ publicKey = EmptyString \/ shortID = EmptyString)
  then fail ErrOther "profile requires a configured endpoint and credential"
  else if decide (st.(s_mtu) < MinClientMTU \/ MaxClientMTU < st.(s_mtu)) then fail ErrOther "invalid configured client MTU"
  else Ok (MkProfile st.(s_mtu) st.(s_endpoint) (uint16 st.(s_reality_port)) credential st.(s_reality_server) publicKey shortID).
