(* ===== verification/RealitySpec.v ===== *)
(** * What the REALITY entrance does

    A reading of the rewritten rules, and the theorems: WireGuard connections
    are decided as without the entrance, and a REALITY user's connections are
    decided by the policy of the gateway for that user's WireGuard address. *)

From Stdlib Require Import Ascii.
From S2P Require Import Prelude GoStd Model GoJson Db Wf Sample SettingsStore RealityStore PoolFilter SingBox Generate GenerateSpec Reality.
#[local] Open Scope Z_scope.
#[local] Set Default Proof Using "Type".

(** ** Reading the rules *)

(** What is known of a destination changes while the rules are read: after
    [XResolve] its addresses are known, after [XSniff] perhaps its name. *)
Record stage := MkStage { sg_resolved : bool; sg_sniffed : bool }.
Definition arrival : stage := MkStage false false.

Record conn := MkConn {
  cn_inbound : string;
  cn_user : string;
  cn_set : stage -> string -> bool;
  cn_source : string -> bool;
  cn_ip : stage -> string -> bool;
  cn_version : option Z;              (** of a numeric destination *)
  cn_port : Z;
  cn_domain : stage -> string -> bool;
  cn_network : string
}.

Definition same (x : string) (y : string) : bool := bool_decide (y = x).
Definition raw_matches (c : conn) (s : stage) (r : RawRule) : bool :=
  xorb r.(rw_invert)
    (cond (same c.(cn_inbound)) r.(rw_inbound) && cond (same c.(cn_user)) r.(rw_user) &&
     cond (c.(cn_set) s) r.(rw_sets) && cond c.(cn_source) r.(rw_source) && cond (c.(cn_ip) s) r.(rw_ip) &&
     match r.(rw_version) with Some v => bool_decide (c.(cn_version) = Some v) | None => true end &&
     (bool_decide (r.(rw_port) = []) || existsb (fun p => bool_decide (p = c.(cn_port))) r.(rw_port)) &&
     cond (c.(cn_domain) s) r.(rw_domain) && cond (same c.(cn_network)) r.(rw_network)).
Fixpoint xmatches (c : conn) (s : stage) (m : Matcher) : bool :=
  match m with
  | Leaf raw => raw_matches c s raw
  | Logical is_or invert l =>
      xorb invert (if is_or then existsb (xmatches c s) l else forallb (xmatches c s) l)
  end.

Definition after_resolve (s : stage) : stage := MkStage true s.(sg_sniffed).
Definition after_sniff (s : stage) : stage := MkStage s.(sg_resolved) true.

Fixpoint decide_x (rules : list XRule) (final : string) (s : stage) (c : conn) : XAction :=
  match rules with
  | [] => XRoute final
  | r :: rules =>
      if xmatches c s r.(xr_match) then
        match r.(xr_action) with
        | XResolve _ => decide_x rules final (after_resolve s) c
        | XSniff => decide_x rules final (after_sniff s) c
        | a => a
        end
      else decide_x rules final s c
  end.

Record xquery := MkXQuery { xq_inbound : string; xq_user : string; xq_query : query }.
Definition xdns_matches (x : xquery) (r : XDNSRule) : bool :=
  cond (same x.(xq_inbound)) r.(xd_inbound) && cond (same x.(xq_user)) r.(xd_user) &&
  dns_matches x.(xq_query) r.(xd_match).
Fixpoint decide_xdns (rules : list XDNSRule) (final : string) (x : xquery) : DNSAction :=
  match rules with
  | [] => DNSRoute final None false
  | r :: rules => if xdns_matches x r then r.(xd_action) else decide_xdns rules final x
  end.

(** ** Lemmas on matching *)

Lemma cond_same x l : cond (same x) l = bool_decide (l = [] \/ x ∈ l).
Proof.
  unfold cond, same. destruct (decide (l = [])) as [->|Hl]; [done|].
  rewrite (bool_decide_eq_false_2 (l = [])) by done. cbn [orb]. apply eq_true_iff_eq.
  rewrite existsb_exists, bool_decide_eq_true. setoid_rewrite bool_decide_eq_true.
  setoid_rewrite <- list_elem_of_In. naive_solver.
Qed.

Lemma cond_addr (addr : string) l : cond (fun a => bool_decide (a = addr)) l = bool_decide (l = [] \/ addr ∈ l).
Proof. apply (cond_same addr). Qed.

Lemma decide_skip l rest final s c :
  Forall (fun r => xmatches c s r.(xr_match) = false) l ->
  decide_x (l ++ rest) final s c = decide_x rest final s c.
Proof. induction 1 as [|r l Hr _ IH]; [done|]. cbn [app decide_x]. by rewrite Hr. Qed.

(** Rules of another inbound never match. *)
Lemma raw_other_inbound c s raw :
  raw.(rw_inbound) <> [] -> c.(cn_inbound) ∉ raw.(rw_inbound) -> raw.(rw_invert) = false -> raw_matches c s raw = false.
Proof. intros Hne Hno Hi. unfold raw_matches. rewrite Hi, (cond_same (cn_inbound c)), (bool_decide_eq_false_2 (_ \/ cn_inbound c ∈ _)) by naive_solver. done. Qed.

Ltac other_inbound := apply raw_other_inbound; [done| |done]; cbn [rw_inbound for_inbound]; rewrite list_elem_of_singleton.

Lemma charge_Ok n p p' : charge n p = Ok p' -> p'.(pf_positives) = p.(pf_positives) /\ p'.(pf_out) = p.(pf_out).
Proof. unfold charge. case_decide; [done|]. by intros [= <-]. Qed.

(** ** A connection of a REALITY user *)
Section user.
#[local] Set Default Proof Using "All".
Variables (st : Settings) (names denied : list string) (select : list string -> list string).
Variables (c : conn) (addr : string) (final : string).
Hypothesis Hin : c.(cn_inbound) = TagRealityIn.
Hypothesis Hname : c.(cn_user) ∈ names.
Hypothesis Hsel : forall src, c.(cn_user) ∈ select src <-> src = [] \/ addr ∈ src.
Hypothesis Hdenied : denied <> [].

Notation u := (c.(cn_user)).
Definition private (s : stage) : bool := existsb (c.(cn_ip) s) denied.

Lemma at_reality_cond : cond (same (cn_inbound c)) [TagRealityIn] = true.
Proof. rewrite cond_same, Hin, bool_decide_eq_true_2; [done|]. right. by left. Qed.

Lemma alt_matches users m s :
  users <> [] ->
  xmatches c s (Leaf (for_inbound [TagRealityIn] users [] (lift_match m))) =
  bool_decide (u ∈ users) && cond (c.(cn_set) s) m.(rm_sets) && cond (c.(cn_ip) s) m.(rm_ip).
Proof.
  intros Hu. cbn [xmatches]. unfold raw_matches, for_inbound, lift_match. cbn [rw_inbound rw_user rw_sets rw_source rw_ip
    rw_version rw_port rw_domain rw_network rw_invert xorb]. rewrite at_reality_cond, (cond_same _ users).
  rewrite (bool_decide_ext (users = [] \/ cn_user c ∈ users) (u ∈ users)) by naive_solver.
  change (cond (cn_source c) []) with true. change (cond (cn_domain c s) []) with true.
  change (cond (same (cn_network c)) []) with true. rewrite (bool_decide_eq_true_2 (@nil Z = [])) by done. cbn [orb andb].
  by rewrite !andb_true_r.
Qed.

Lemma original_matches m s :
  xmatches c s (Leaf (for_inbound [TagTProxyIn] (rw_user (lift_match m)) (rw_source (lift_match m)) (lift_match m))) = false.
Proof. cbn [xmatches]. other_inbound. by rewrite Hin. Qed.

Lemma private_matches auth s :
  auth <> [] -> xmatches c s (privateReject denied auth).(xr_match) = bool_decide (u ∈ auth) && private s.
Proof.
  intros Ha. unfold privateReject. cbn [xr_match xmatches]. unfold raw_matches, for_inbound, of_ip.
  cbn [rw_inbound rw_user rw_sets rw_source rw_ip rw_version rw_port rw_domain rw_network rw_invert xorb].
  rewrite at_reality_cond, (cond_same _ auth).
  rewrite (bool_decide_ext (auth = [] \/ cn_user c ∈ auth) (u ∈ auth)) by naive_solver.
  change (cond (cn_source c) []) with true. change (cond (cn_domain c s) []) with true. change (cond (cn_set c s) []) with true.
  change (cond (same (cn_network c)) []) with true. rewrite (bool_decide_eq_true_2 (@nil Z = [])) by done. cbn [orb andb].
  unfold cond, private. rewrite (bool_decide_eq_false_2 (denied = [])) by done. cbn [orb]. by rewrite !andb_true_r.
Qed.

(** The routes of a rule, one per user. *)
Lemma decide_per_user users m tag rest s :
  decide_x (map (fun x => MkXRule (Leaf (for_inbound [TagRealityIn] [x] [] (lift_match m))) (XRoute tag)) users ++ rest) final s c =
  if bool_decide (u ∈ users) && cond (c.(cn_set) s) m.(rm_sets) && cond (c.(cn_ip) s) m.(rm_ip)
  then XRoute tag else decide_x rest final s c.
Proof.
  induction users as [|x l IH]; cbn [map app decide_x].
  { by rewrite bool_decide_eq_false_2 by apply not_elem_of_nil. }
  cbn [xr_match xr_action]. rewrite alt_matches by done. rewrite IH.
  destruct (cond (cn_set c s) (rm_sets m) && cond (cn_ip c s) (rm_ip m)) eqn:Hm.
  - rewrite <- !andb_assoc, Hm, !andb_true_r. destruct (decide (x = u)) as [->|Hne].
    + rewrite !bool_decide_eq_true_2; [done|by left|by left].
    + rewrite (bool_decide_eq_false_2 (u ∈ [x])) by (rewrite list_elem_of_singleton; congruence).
      rewrite (bool_decide_ext (u ∈ x :: l) (u ∈ l)); [done|]. rewrite elem_of_cons. naive_solver congruence.
  - by rewrite <- !andb_assoc, Hm, !andb_false_r.
Qed.

(** An entry of the policy: with the source condition read as the user's
    address, the rewritten rules decide as the entry does. *)
Lemma decide_entry m a rest s :
  (m.(rm_source) <> [] \/ m.(rm_sets) <> []) -> (a = Reject \/ exists tag, a = Route tag) ->
  decide_x (reality_rule denied select (MkRoute m a) ++ rest) final s c =
  if bool_decide (m.(rm_source) = [] \/ addr ∈ m.(rm_source)) && cond (c.(cn_set) s) m.(rm_sets) && cond (c.(cn_ip) s) m.(rm_ip)
  then lift_action a else decide_x rest final s c.
Proof.
  intros Hscope Ha. unfold reality_rule. cbn [rt_match rt_action]. rewrite decide_False by tauto.
  cbn [app decide_x]. cbn [xr_match]. rewrite original_matches. cbv zeta.
  rewrite (bool_decide_ext (rm_source m = [] \/ addr ∈ rm_source m) (u ∈ select (rm_source m))) by by rewrite Hsel.
  destruct (decide (select (rm_source m) = [])) as [->|Hne].
  { by rewrite bool_decide_eq_false_2 by apply not_elem_of_nil. }
  destruct Ha as [->|[tag ->]].
  - cbn [app decide_x xr_match xr_action lift_action]. by rewrite alt_matches.
  - apply (decide_per_user _ m tag).
Qed.

Lemma decide_resolve src server rest s :
  src <> [] ->
  decide_x (reality_rule denied select (MkRoute (MkMatch [] [] src []) (Resolve server)) ++ rest) final s c =
  if bool_decide (addr ∈ src)
  then (if private (after_resolve s) then XReject else decide_x rest final (after_resolve s) c)
  else decide_x rest final s c.
Proof.
  intros Hsrc. unfold reality_rule. cbn [rt_match rt_action rm_source rm_sets]. rewrite decide_False by naive_solver.
  cbn [app decide_x]. cbn [xr_match]. rewrite original_matches. cbv zeta.
  rewrite (bool_decide_ext (addr ∈ src) (u ∈ select src)) by (rewrite Hsel; naive_solver).
  destruct (decide (select src = [])) as [->|Hne].
  { by rewrite bool_decide_eq_false_2 by apply not_elem_of_nil. }
  cbn [app decide_x xr_match xr_action lift_action]. rewrite alt_matches by done. cbn [rm_sets rm_ip].
  change (cond (cn_set c s) []) with true. change (cond (cn_ip c s) []) with true. rewrite !andb_true_r.
  rewrite !(private_matches (select src)) by done. destruct (bool_decide (u ∈ select src)); cbn [andb]; [|done].
  by destruct (private (after_resolve s)).
Qed.

Section egress.
Context `{PF : Platform} `{PP : PoolPolicy} `{PS : PoolSource}.
Variable sn : SnapshotT.
Hypothesis Hlocal : forall x, x ∈ LocalIPv4 -> x ∈ denied.

(** The WireGuard connection of the same client. *)
Definition wg_packet (s : stage) : packet :=
  MkPacket TagTProxyIn (c.(cn_set) s) (fun a => bool_decide (a = addr)) (c.(cn_ip) (MkStage true false)).

Lemma local_private s : private s = false -> existsb (c.(cn_ip) s) LocalIPv4 = false.
Proof.
  unfold private. intros Hp. apply not_true_iff_false. intros (x & Hx & Hm)%existsb_exists.
  apply not_true_iff_false in Hp. apply Hp, existsb_exists. exists x. split; [|done].
  apply list_elem_of_In, Hlocal, list_elem_of_In, Hx.
Qed.

Lemma decide_egress_x s1 ps rest :
  Forall (fun p => is_Some p.(p_egress) -> is_Some (egress_source p)) ps ->
  decide_x (flat_map (reality_rule denied select) (flat_map (egress_routes sn) ps) ++ rest) final arrival c =
  match egress_verdict sn (wg_packet s1) ps with
  | Some v => if private (MkStage true false) then XReject else lift_action v
  | None => decide_x rest final arrival c
  end.
Proof.
  induction 1 as [|p ps Hp Hps IH]; [done|]. cbn [flat_map egress_verdict]. rewrite flat_map_app, <- app_assoc.
  unfold egress_routes, egress_source in *.
  destruct (p_egress p) as [id|]; [|exact IH].
  destruct (ParseAddr (p_address p)) as [[ip|ip z]|]; [|by destruct Hp|by destruct Hp].
  set (a := PrefixString (MkPrefix (V4 ip) 32)). cbn [pk_source wg_packet].
  assert (Ha : bool_decide (addr ∈ [a]) = bool_decide (a = addr)).
  { apply bool_decide_ext. rewrite list_elem_of_singleton. naive_solver. }
  destruct (p_enabled p && usable sn id) eqn:Hu.
  - cbn [flat_map]. rewrite app_nil_r, <- !app_assoc. rewrite decide_resolve by done. rewrite Ha.
    destruct (decide (a = addr)) as [He|He].
    + rewrite !(bool_decide_eq_true_2 (a = addr)) by done. unfold after_resolve, arrival. cbn [sg_sniffed].
      destruct (private (MkStage true false)) eqn:Hpr; [done|].
      rewrite !decide_entry by (try (by left); (try by right; eexists); naive_solver).
      cbn [rm_source rm_sets rm_ip pk_ip]. change (cond (cn_set c _) []) with true.
      assert (bool_decide ([a] = [] \/ addr ∈ [a]) = true) as ->.
      { apply bool_decide_eq_true_2. right. rewrite He. by left. }
      cbn [andb]. change (cond (cn_ip c (MkStage true false)) LocalIPv4) with (existsb (c.(cn_ip) (MkStage true false)) LocalIPv4).
      rewrite (local_private _ Hpr). change (cond (cn_ip c (MkStage true false)) []) with true.
      change (pk_ip (wg_packet s1)) with (c.(cn_ip) (MkStage true false)). by rewrite (local_private _ Hpr).
    + rewrite !(bool_decide_eq_false_2 (a = addr)) by done.
      rewrite !decide_entry by (try (by left); (try by right; eexists); naive_solver).
      cbn [rm_source rm_sets rm_ip].
      assert (bool_decide ([a] = [] \/ addr ∈ [a]) = false) as ->; [|exact IH].
      apply bool_decide_eq_false_2. rewrite list_elem_of_singleton. naive_solver.
  - cbn [flat_map]. rewrite app_nil_r. rewrite decide_entry by (try (by left); naive_solver). cbn [rm_source rm_sets rm_ip].
    change (cond (cn_set c _) []) with true. change (cond (cn_ip c arrival) []) with true. rewrite !andb_true_r.
    rewrite (bool_decide_ext ([a] = [] \/ addr ∈ [a]) (a = addr)) by (rewrite list_elem_of_singleton; naive_solver).
    destruct (decide (a = addr)) as [He|He].
    + rewrite !bool_decide_eq_true_2 by done. cbn [andb]. by destruct (private _).
    + rewrite !bool_decide_eq_false_2 by done. exact IH.
Qed.
End egress.

(** *** The rules *)
Definition entry_ok (r : RouteRule) : Prop :=
  r.(rt_match).(rm_inbound) = [] /\ r.(rt_match).(rm_ip) = [] /\ r.(rt_match).(rm_sets) <> [] /\
  (r.(rt_action) = Reject \/ exists tag, r.(rt_action) = Route tag).

(** Does the entry apply to the connection? *)
Definition entry_applies (s : stage) (m : RouteMatch) : bool :=
  bool_decide (m.(rm_source) = [] \/ addr ∈ m.(rm_source)) && cond (c.(cn_set) s) m.(rm_sets).

Lemma entry_matches s r : entry_ok r -> matches (wg_packet s) r.(rt_match) = entry_applies s r.(rt_match).
Proof.
  intros (Hi & Hip & _ & _). unfold matches, entry_applies. rewrite Hi, Hip. cbn [pk_source pk_set wg_packet].
  rewrite (cond_addr addr). change (cond _ []) with true. cbn [andb]. rewrite andb_true_r. apply andb_comm.
Qed.

Lemma decide_entry_ok r rest s :
  entry_ok r ->
  decide_x (reality_rule denied select r ++ rest) final s c =
  if entry_applies s r.(rt_match) then lift_action r.(rt_action) else decide_x rest final s c.
Proof.
  destruct r as [m a]. intros (Hi & Hip & Hs & Ha). cbn [rt_match rt_action] in *.
  rewrite decide_entry by tauto. unfold entry_applies. rewrite Hip. change (cond (cn_ip c s) []) with true.
  by rewrite andb_true_r.
Qed.

Lemma decide_direct s : decide_x (direct_rules names) final s c = XRoute TagDirect.
Proof.
  pose proof (decide_per_user names (MkMatch [] [] [] []) TagDirect [] s) as H. rewrite app_nil_r in H.
  unfold direct_rules. etransitivity; [exact H|]. cbn [rm_sets rm_ip]. by rewrite bool_decide_eq_true_2.
Qed.

Lemma decide_rules_x s l :
  Forall entry_ok l ->
  decide_x (flat_map (reality_rule denied select) l ++ direct_rules names) final s c =
  lift_action (decide_route l TagDirect (wg_packet s)).
Proof.
  induction 1 as [|r l Hr Hl IH]; [apply decide_direct|]. cbn [flat_map decide_route]. rewrite <- app_assoc.
  rewrite decide_entry_ok, entry_matches by done. destruct (entry_applies s (rt_match r)); [|exact IH].
  destruct Hr as (_ & _ & _ & [->|[tag ->]]); done.
Qed.

(** *** Resolution and sniffing *)
Definition sniffs : bool := bool_decide (c.(cn_version) = Some 4) && bool_decide (c.(cn_network) = "tcp"%string).
Definition rules_stage (with_rules : bool) : stage := MkStage true (with_rules && sniffs).

(** The name of the gateway itself. *)
Definition endpoint_name (s : stage) : bool :=
  bool_decide (st.(s_endpoint) <> EmptyString) && bool_decide (ParseAddr st.(s_endpoint) = None) &&
  c.(cn_domain) s st.(s_endpoint).

Lemma decide_endpoint s rest :
  decide_x (rejectEndpointName st ++ rest) final s c = if endpoint_name s then XReject else decide_x rest final s c.
Proof.
  unfold rejectEndpointName, endpoint_name. case_decide as He.
  2: { by rewrite (bool_decide_eq_false_2 (s_endpoint st <> EmptyString)) by (intros Hn; by apply Hn). }
  rewrite (bool_decide_eq_true_2 (s_endpoint st <> EmptyString)) by done.
  destruct (ParseAddr (s_endpoint st)) as [a|] eqn:Ha.
  { by rewrite (bool_decide_eq_false_2 (Some a = None)). }
  rewrite (bool_decide_eq_true_2 (None = None)) by done. cbn [app decide_x andb xr_match xr_action].
  assert (xmatches c s (Leaf (at_reality (of_domain (s_endpoint st)))) = cn_domain c s (s_endpoint st)) as ->; [|done].
  cbn [xmatches]. unfold raw_matches, at_reality, of_domain, for_inbound.
  cbn [rw_inbound rw_user rw_sets rw_source rw_ip rw_version rw_port rw_domain rw_network rw_invert xorb].
  rewrite at_reality_cond. unfold cond. rewrite !(bool_decide_eq_true_2 (@nil string = [])) by done.
  rewrite (bool_decide_eq_true_2 (@nil Z = [])) by done. rewrite (bool_decide_eq_false_2 ([_] = [])) by done.
  cbn [orb andb existsb]. by rewrite orb_false_r, andb_true_r.
Qed.

Lemma names_not_nil : names <> [].
Proof. intros He. pose proof Hname as Hn. rewrite He in Hn. by apply elem_of_nil in Hn. Qed.

(** *** The entrance *)
Definition entrance_verdict : option XAction :=
  if decide (c.(cn_version) = Some 6) then Some XReject
  else if decide (c.(cn_port) = 853) then Some XReject
  else if decide (c.(cn_port) = 53) then Some XHijackDNS
  else if private arrival || endpoint_name arrival then Some XReject else None.

Lemma at_reality_leaf (ver : option Z) (port : list Z) s :
  xmatches c s (Leaf (at_reality (MkRaw [] [] [] [] [] ver port [] [] false))) =
  match ver with Some v => bool_decide (c.(cn_version) = Some v) | None => true end &&
  (bool_decide (port = []) || existsb (fun p => bool_decide (p = c.(cn_port))) port).
Proof.
  cbn [xmatches]. unfold raw_matches, at_reality, for_inbound.
  cbn [rw_inbound rw_user rw_sets rw_source rw_ip rw_version rw_port rw_domain rw_network rw_invert xorb].
  rewrite at_reality_cond. unfold cond. rewrite !(bool_decide_eq_true_2 (@nil string = [])) by done.
  cbn [orb andb]. by rewrite !andb_true_r.
Qed.

Lemma decide_entrance rest :
  decide_x (entrance_rules st names denied ++ rest) final arrival c =
  match entrance_verdict with Some a => a | None => decide_x rest final arrival c end.
Proof.
  unfold entrance_rules, entrance_verdict. cbn [app decide_x]. unfold unknown_user. cbn [xr_match xr_action].
  assert (Hunknown : xmatches c arrival (Logical false false [Leaf (at_reality no_raw);
    Leaf (MkRaw [] names [] [] [] None [] [] [] true)]) = false).
  { cbn [xmatches forallb xorb]. apply andb_false_iff. right. rewrite andb_true_r.
    unfold raw_matches. cbn [rw_inbound rw_user rw_sets rw_source rw_ip rw_version rw_port rw_domain rw_network rw_invert].
    rewrite (cond_same _ names). unfold cond. rewrite !(bool_decide_eq_true_2 (@nil string = [])) by done.
    rewrite (bool_decide_eq_true_2 (names = [] \/ u ∈ names)) by by right.
    by rewrite (bool_decide_eq_true_2 (@nil Z = [])). }
  rewrite Hunknown. unfold of_version, of_port. rewrite !at_reality_leaf. cbn [existsb].
  rewrite (bool_decide_eq_true_2 (@nil Z = [])) by done.
  rewrite !(bool_decide_eq_false_2 ([_] = [])) by done. cbn [orb andb]. rewrite !orb_false_r, andb_true_r.
  destruct (decide (cn_version c = Some 6)) as [H6|H6].
  { by rewrite bool_decide_eq_true_2. }
  rewrite (bool_decide_eq_false_2 (cn_version c = Some 6)) by done.
  destruct (decide (cn_port c = 853)) as [H853|H853].
  { by rewrite (bool_decide_eq_true_2 (853 = cn_port c)). }
  rewrite (bool_decide_eq_false_2 (853 = cn_port c)) by congruence.
  destruct (decide (cn_port c = 53)) as [H53|H53].
  { by rewrite (bool_decide_eq_true_2 (53 = cn_port c)). }
  rewrite (bool_decide_eq_false_2 (53 = cn_port c)) by congruence.
  rewrite private_matches by apply names_not_nil. rewrite (bool_decide_eq_true_2 (u ∈ names)) by done. cbn [andb].
  destruct (private arrival); cbn [orb]; [done|]. rewrite decide_endpoint. by destruct (endpoint_name arrival).
Qed.

Hypothesis Hversion : c.(cn_version) = None \/ c.(cn_version) = Some 4.

Lemma decide_sharedResolve b s rest :
  s.(sg_sniffed) = false ->
  decide_x (sharedResolve st names denied b ++ rest) final s c =
  if private (MkStage true false) then XReject
  else if b && endpoint_name (rules_stage b) then XReject
  else decide_x rest final (rules_stage b) c.
Proof.
  intros Hs. unfold sharedResolve. rewrite <- app_assoc. cbn [app decide_x].
  assert (Hall : xmatches c s (Leaf (at_reality no_raw)) = true).
  { cbn [xmatches]. unfold raw_matches, at_reality, no_raw, for_inbound.
    cbn [rw_inbound rw_user rw_sets rw_source rw_ip rw_version rw_port rw_domain rw_network rw_invert xorb].
    rewrite at_reality_cond. unfold cond. rewrite !(bool_decide_eq_true_2 (@nil string = [])) by done.
    by rewrite (bool_decide_eq_true_2 (@nil Z = [])). }
  cbn [xr_match xr_action]. rewrite Hall. rewrite private_matches by apply names_not_nil.
  rewrite bool_decide_eq_true_2 by done. cbn [andb]. unfold after_resolve. rewrite Hs.
  destruct (private (MkStage true false)); [done|].
  unfold rules_stage. destruct b; cbn [andb app]; [|done].
  cbn [decide_x xr_match xr_action].
  assert (Hsniff : xmatches c (MkStage true false)
    (Leaf (MkRaw [TagRealityIn] [] [] [] [] (Some 4) [] [] ["tcp"%string] false)) = sniffs).
  { cbn [xmatches]. unfold raw_matches, sniffs.
    cbn [rw_inbound rw_user rw_sets rw_source rw_ip rw_version rw_port rw_domain rw_network rw_invert xorb].
    rewrite at_reality_cond. unfold cond. rewrite !(bool_decide_eq_true_2 (@nil string = [])) by done.
    rewrite (bool_decide_eq_true_2 (@nil Z = [])) by done. rewrite (bool_decide_eq_false_2 ([_] = [])) by done.
    cbn [orb andb existsb]. rewrite orb_false_r, !andb_true_r. unfold same.
    by rewrite (bool_decide_ext ("tcp"%string = cn_network c) (cn_network c = "tcp"%string)). }
  rewrite Hsniff. destruct sniffs; cbn [after_sniff sg_resolved]; by rewrite decide_endpoint.
Qed.

(** *** The preflight

    It refuses a name early, before the shared resolution would ask for it.
    [projected] is what a rule's sets promise: its DNS sets name what its full
    sets match by name, and all of it unless the rule has addresses. *)
Variable s1 : stage.
Hypothesis Hnul : forall src x, x ∈ select src -> no_byte "000" x.

Definition projected (d : compiledDestination) : Prop :=
  entry_ok d.(cd_route) /\
  (existsb (c.(cn_set) arrival) d.(cd_dns_tags) = true -> existsb (c.(cn_set) s1) d.(cd_route).(rt_match).(rm_sets) = true) /\
  (d.(cd_addr) = false -> existsb (c.(cn_set) s1) d.(cd_route).(rt_match).(rm_sets) = true ->
   existsb (c.(cn_set) arrival) d.(cd_dns_tags) = true).

Definition shadowed (l : list positiveScope) : Prop :=
  exists g, g ∈ l /\ u ∈ g.(ps_auth) /\ (g.(ps_address) = true \/ existsb (c.(cn_set) arrival) g.(ps_tags) = true).

Lemma users_matches auth s : raw_matches c s (of_users auth) = bool_decide (auth = [] \/ u ∈ auth).
Proof.
  unfold raw_matches, of_users. cbn [rw_inbound rw_user rw_sets rw_source rw_ip rw_version rw_port rw_domain rw_network rw_invert xorb].
  rewrite (cond_same _ auth). unfold cond. rewrite !(bool_decide_eq_true_2 (@nil string = [])) by done.
  rewrite (bool_decide_eq_true_2 (@nil Z = [])) by done. cbn [orb andb]. by rewrite !andb_true_r.
Qed.
Lemma sets_matches tags s : raw_matches c s (of_sets tags) = cond (c.(cn_set) s) tags.
Proof.
  unfold raw_matches, of_sets. cbn [rw_inbound rw_user rw_sets rw_source rw_ip rw_version rw_port rw_domain rw_network rw_invert xorb].
  unfold cond at 1 2 4 5 6 7. rewrite !(bool_decide_eq_true_2 (@nil string = [])) by done.
  rewrite (bool_decide_eq_true_2 (@nil Z = [])) by done. cbn [orb andb]. by rewrite !andb_true_r.
Qed.

Lemma shadowed_matches l : shadowed l -> existsb (xmatches c arrival) (map shadow_of l) = true.
Proof.
  intros (g & Hg & Hu & Hm). apply existsb_exists. exists (shadow_of g).
  split; [by apply in_map, list_elem_of_In|]. unfold shadow_of. destruct (ps_address g).
  - cbn [xmatches]. rewrite users_matches. apply bool_decide_eq_true_2. by right.
  - destruct Hm as [?|Hm]; [done|]. cbn [xmatches forallb xorb]. rewrite users_matches, sets_matches.
    rewrite bool_decide_eq_true_2 by by right. unfold cond. by rewrite Hm, orb_true_r.
Qed.

Lemma group_same auth auth' :
  (exists src, auth = select src) -> (exists src, auth' = select src) -> auth <> [] -> auth' <> [] ->
  group_key auth = group_key auth' -> auth = auth'.
Proof.
  intros [src ->] [src' ->] Hne Hne' Hk. unfold group_key in Hk.
  rewrite <- (Split_Join "000" (select src)), <- (Split_Join "000" (select src')); [by f_equal|done|apply Hnul|done|apply Hnul].
Qed.

Definition is_route (r : RouteRule) : Prop := exists tag, r.(rt_action) = Route tag.

Lemma decide_reject_app l l' pk : decide_route l TagDirect pk = Reject -> decide_route (l ++ l') TagDirect pk = Reject.
Proof.
  induction l as [|r l IH]; [done|]. cbn [app decide_route]. destruct (matches pk (rt_match r)); [|exact IH].
  by destruct (rt_action r).
Qed.

(** A refusal that no carried rule comes before. *)
Lemma decide_reject_snoc l r :
  Forall entry_ok (l ++ [r]) ->
  (forall x, x ∈ l -> is_route x -> entry_applies s1 x.(rt_match) = false) ->
  entry_applies s1 r.(rt_match) = true -> r.(rt_action) = Reject ->
  decide_route (l ++ [r]) TagDirect (wg_packet s1) = Reject.
Proof.
  intros Hok Hno Hr Ha. induction l as [|x l IH]; cbn [app decide_route].
  - apply Forall_cons in Hok as [Hok _]. by rewrite entry_matches, Hr, Ha.
  - apply Forall_cons in Hok as [Hx Hok]. rewrite entry_matches by done.
    destruct (entry_applies s1 (rt_match x)) eqn:Hap.
    + destruct Hx as (_ & _ & _ & [->|Hroute]); [done|]. rewrite (Hno x) in Hap; [done|by left|exact Hroute].
    + apply IH; [exact Hok|]. intros y Hy. apply Hno. by right.
Qed.

Record pre_inv (seen : list compiledDestination) (p : Preflight) : Prop := {
  pi_auth : forall g, g ∈ p.(pf_positives) -> g.(ps_auth) <> [] /\ exists src, g.(ps_auth) = select src;
  pi_shadow : forall d, d ∈ seen -> is_route d.(cd_route) -> entry_applies s1 d.(cd_route).(rt_match) = true ->
    shadowed p.(pf_positives);
  pi_out : forall r, r ∈ p.(pf_out) -> r.(xr_action) = XReject /\
    (xmatches c arrival r.(xr_match) = true -> decide_route (map cd_route seen) TagDirect (wg_packet s1) = Reject)
}.

Lemma pre_inv_skip seen d p :
  pre_inv seen p -> (is_route d.(cd_route) -> entry_applies s1 d.(cd_route).(rt_match) = true -> shadowed p.(pf_positives)) ->
  pre_inv (seen ++ [d]) p.
Proof.
  intros [Ha Hs Ho] Hd. split; [done| |].
  - intros x [Hx| ->%list_elem_of_singleton]%elem_of_app; [by apply Hs|exact Hd].
  - intros r Hr. destruct (Ho r Hr) as [H1 H2]. split; [done|]. intros Hm. rewrite map_app. by apply decide_reject_app, H2.
Qed.

Lemma applies_auth d :
  entry_applies s1 d.(cd_route).(rt_match) = true -> projected d ->
  u ∈ select d.(cd_route).(rt_match).(rm_source) /\ existsb (c.(cn_set) s1) d.(cd_route).(rt_match).(rm_sets) = true.
Proof.
  intros [Hsrc Hset]%andb_true_iff ((_ & _ & Hne & _) & _). apply bool_decide_eq_true_1 in Hsrc.
  unfold cond in Hset. rewrite bool_decide_eq_false_2 in Hset by done. by rewrite Hsel.
Qed.

Lemma hostname_None s : xmatches c s hostname = true -> c.(cn_version) = None.
Proof.
  intros H. destruct Hversion as [?|H4]; [done|]. exfalso. revert H. unfold hostname. cbn [xmatches existsb].
  assert (raw_matches c s (of_version 4) = true) as ->; [|done].
  unfold raw_matches, of_version. cbn [rw_inbound rw_user rw_sets rw_source rw_ip rw_version rw_port rw_domain rw_network rw_invert xorb].
  rewrite H4. unfold cond. rewrite !(bool_decide_eq_true_2 (@nil string = [])) by done.
  rewrite (bool_decide_eq_true_2 (@nil Z = [])) by done. by rewrite bool_decide_eq_true_2.
Qed.

Lemma pre_inv_deny seen d p p' :
  pre_inv seen p -> Forall projected (seen ++ [d]) -> d.(cd_route).(rt_action) = Reject ->
  select d.(cd_route).(rt_match).(rm_source) <> [] ->
  deny_step (select d.(cd_route).(rt_match).(rm_source)) d p = Ok p' -> pre_inv (seen ++ [d]) p'.
Proof.
  intros Hinv Hpr Ha Hne. unfold deny_step. set (auth := select _).
  assert (Hnr : is_route (cd_route d) -> False) by (intros [tag Ht]; congruence).
  case_decide as Hd. { intros [= <-]. apply pre_inv_skip; [done|]. intros Hr. by destruct (Hnr Hr). }
  intros (p1 & [Hp1 Ho1]%charge_Ok & Hf)%result_bind_Ok. injection Hf as <-.
  assert (Hinv1 : pre_inv (seen ++ [d]) p) by (apply pre_inv_skip; [done|intros Hr; by destruct (Hnr Hr)]).
  destruct Hinv1 as [H1 H2 H3]. rewrite Hp1, Ho1. split; cbn [pf_positives pf_out]; [done|done|].
  intros r [Hr| ->%list_elem_of_singleton]%elem_of_app; [by apply H3|]. cbn [xr_action xr_match]. split; [done|].
  intros Hm. cbn [xmatches xorb] in Hm.
  cbn [forallb] in Hm. apply andb_true_iff in Hm as [_ Hm]. apply andb_true_iff in Hm as [Hu Hm].
  apply andb_true_iff in Hm as [_ Hm]. apply andb_true_iff in Hm as [Hset Hshadow].
  rewrite map_app. cbn [map]. apply decide_reject_snoc.
  - replace [cd_route d] with (map cd_route [d]) by done. rewrite <- map_app. apply Forall_map.
    eapply Forall_impl; [exact Hpr|]. by intros x [? _].
  - intros x (y & -> & Hy)%list_elem_of_fmap Hroute. apply not_true_iff_false. intros Hap.
    assert (Hs : shadowed p.(pf_positives)) by (by apply (pi_shadow _ _ Hinv y)).
    destruct Hs as (g & Hg & Hs). destruct (decide (pf_positives p = [])) as [He|_]; [rewrite He in Hg; by apply elem_of_nil in Hg|].
    cbn [forallb] in Hshadow. rewrite andb_true_r in Hshadow. cbn [xmatches xorb] in Hshadow.
    rewrite shadowed_matches in Hshadow by (by exists g). done.
  - apply Forall_app in Hpr as [_ Hpr]. apply Forall_singleton in Hpr as ((_ & _ & Hsets & _) & Hdns & _).
    unfold entry_applies. apply andb_true_iff. cbn [xmatches] in Hu, Hset. rewrite users_matches in Hu.
    apply bool_decide_eq_true_1 in Hu. rewrite sets_matches in Hset. unfold cond in Hset |- *.
    rewrite (bool_decide_eq_false_2 (cd_dns_tags d = [])) in Hset by done. split.
    + apply bool_decide_eq_true_2. destruct Hu as [Hu|Hu]; [done|by apply Hsel].
    + by rewrite Hdns, orb_true_r.
  - done.
Qed.

(** A group that is put in place of another, with at least its users and
    names, and the users of a rule that is carried. *)
Lemma shadowed_update l i g g' :
  l !! i = Some g -> g'.(ps_auth) = g.(ps_auth) ->
  (g.(ps_address) = true -> g'.(ps_address) = true) ->
  (existsb (c.(cn_set) arrival) g.(ps_tags) = true ->
   g'.(ps_address) = true \/ existsb (c.(cn_set) arrival) g'.(ps_tags) = true) ->
  shadowed l -> shadowed (<[i := g']> l).
Proof.
  intros Hi Hau Had Htags (x & Hx & Hu & Hm). apply list_elem_of_lookup in Hx as [j Hj].
  destruct (decide (i = j)) as [<-|Hne].
  - rewrite Hi in Hj. injection Hj as <-. exists g'. split.
    + apply list_elem_of_lookup. exists i. apply list_lookup_insert_eq. by eapply lookup_lt_Some.
    + rewrite Hau. split; [done|]. destruct Hm as [Hm|Hm]; [left; by apply Had|by apply Htags].
  - exists x. split; [|done]. apply list_elem_of_lookup. exists j. by rewrite list_lookup_insert_ne.
Qed.

Lemma shadowed_here l i g :
  l !! i = Some g -> u ∈ g.(ps_auth) ->
  (g.(ps_address) = true \/ existsb (c.(cn_set) arrival) g.(ps_tags) = true) -> shadowed l.
Proof. intros Hi Hu Hm. exists g. split; [|done]. apply list_elem_of_lookup. by exists i. Qed.

Lemma pre_inv_update seen d p p' i g g' :
  pre_inv seen p -> p'.(pf_out) = p.(pf_out) -> p'.(pf_positives) = <[i := g']> p.(pf_positives) ->
  p.(pf_positives) !! i = Some g -> g'.(ps_auth) = g.(ps_auth) ->
  (g.(ps_address) = true -> g'.(ps_address) = true) ->
  (existsb (c.(cn_set) arrival) g.(ps_tags) = true ->
   g'.(ps_address) = true \/ existsb (c.(cn_set) arrival) g'.(ps_tags) = true) ->
  (entry_applies s1 d.(cd_route).(rt_match) = true -> u ∈ g'.(ps_auth) /\
    (g'.(ps_address) = true \/ existsb (c.(cn_set) arrival) g'.(ps_tags) = true)) ->
  pre_inv (seen ++ [d]) p'.
Proof.
  intros Hinv Ho Hp Hi Hau Had Htags Hd. apply pre_inv_skip.
  - destruct Hinv as [H1 H2 H3]. split; rewrite ?Hp, ?Ho; [| |done].
    + intros x (j & Hj)%list_elem_of_lookup. apply list_lookup_insert_Some in Hj as [(<- & <- & _)|[_ Hj]].
      * rewrite Hau. apply H1, list_elem_of_lookup. by exists i.
      * apply H1, list_elem_of_lookup. by exists j.
    + intros x Hx Hr Hap. eapply shadowed_update; [done..|]. by eapply H2.
  - intros _ Hap. destruct (Hd Hap) as [Hu Hm]. rewrite Hp. eapply shadowed_here; [|exact Hu|exact Hm].
    apply list_lookup_insert_eq. by eapply lookup_lt_Some.
Qed.

(** The group of a rule: found by its key, or appended. *)
Lemma group_spec seen auth p i g p1 :
  pre_inv seen p -> auth <> [] -> (exists src, auth = select src) ->
  match find_group auth p.(pf_positives) with
  | Some (i, g) => Ok (i, g, p)
  | None =>
      p ← charge (1 + Z.of_nat (length auth)) p;
      let g := MkScope auth [] false in
      Ok (length p.(pf_positives), g, with_positives (p.(pf_positives) ++ [g]) p)
  end = Ok (i, g, p1) ->
  pre_inv seen p1 /\ p1.(pf_positives) !! i = Some g /\ g.(ps_auth) = auth.
Proof.
  intros Hinv Hne Hsrc. destruct (find_group auth (pf_positives p)) as [[j x]|] eqn:Hf.
  - intros [= <- <- <-]. apply list_find_Some in Hf as (Hj & Hk & _). split; [done|]. split; [done|].
    destruct (pi_auth _ _ Hinv x) as [H1 H2]; [apply list_elem_of_lookup; by exists j|]. by apply group_same.
  - intros (p2 & [Hp2 Ho2]%charge_Ok & Hg)%result_bind_Ok. injection Hg as <- <- <-. unfold with_positives.
    cbn [pf_positives]. rewrite Hp2. split; [|split; [|done]].
    + destruct Hinv as [H1 H2 H3]. split; cbn [pf_positives pf_out]; rewrite ?Ho2; [| |done].
      * intros y [Hy| ->%list_elem_of_singleton]%elem_of_app; [by apply H1|]. cbn [ps_auth]. done.
      * intros y Hy Hr Hap. destruct (H2 y Hy Hr Hap) as (z & Hz & Hrest). exists z. split; [|done].
        apply elem_of_app. by left.
    + rewrite lookup_app_r by done. by rewrite Nat.sub_diag.
Qed.

Lemma pre_inv_route seen d p p' :
  pre_inv seen p -> projected d -> select d.(cd_route).(rt_match).(rm_source) <> [] ->
  route_step (select d.(cd_route).(rt_match).(rm_source)) d p = Ok p' -> pre_inv (seen ++ [d]) p'.
Proof.
  intros Hinv Hpr Hne. unfold route_step.
  destruct (negb (cd_addr d) && bool_decide (cd_dns_tags d = [])) eqn:Hnone.
  { intros [= <-]. apply pre_inv_skip; [done|]. intros _ Hap. apply applies_auth in Hap as [_ Hset]; [|done].
    apply andb_true_iff in Hnone as [Hadr Hdns]. apply negb_true_iff in Hadr. apply bool_decide_eq_true_1 in Hdns.
    destruct Hpr as (_ & _ & H2). specialize (H2 Hadr Hset). by rewrite Hdns in H2. }
  intros ([[i g] p1] & Hg & Hf)%result_bind_Ok.
  apply (group_spec seen) in Hg as (Hinv1 & Hi & Hau); [|done|done|by eexists].
  assert (Happlies : entry_applies s1 (rt_match (cd_route d)) = true -> u ∈ g.(ps_auth)).
  { intros Hap. apply applies_auth in Hap as [Hu _]; [|done]. by rewrite Hau. }
  destruct (ps_address g) eqn:Hadr.
  { injection Hf as <-. apply pre_inv_skip; [done|]. intros _ Hap. eapply shadowed_here; [done|by apply Happlies|by left]. }
  destruct (cd_addr d) eqn:Hd.
  - injection Hf as <-. apply (pre_inv_update seen d p1 _ i g (MkScope (ps_auth g) [] true)); try done; cbn [ps_auth ps_tags ps_address]; [by left|]. intros Hap.
    split; [by apply Happlies|by left].
  - apply result_bind_Ok in Hf as (p2 & [Hp2 Ho2]%charge_Ok & Hf). injection Hf as <-.
    apply (pre_inv_update seen d p1 _ i g (MkScope (ps_auth g) (ps_tags g ++ cd_dns_tags d) false)); try done; unfold with_positives; cbn [pf_positives pf_out ps_auth ps_tags ps_address].
    + by rewrite Hp2.
    + by rewrite Hadr.
    + intros Ht. right. by rewrite existsb_app, Ht.
    + intros Hap. split; [by apply Happlies|]. right. rewrite existsb_app. apply orb_true_iff. right.
      apply applies_auth in Hap as [_ Hset]; [|done]. by apply Hpr.
Qed.

Lemma preflight_inv plan p :
  Forall projected plan -> fold_result (preflight_step select) (MkPreflight [] [] 0) plan = Ok p -> pre_inv plan p.
Proof.
  intros Hpr Hf. revert Hpr. pattern plan, p. revert Hf. apply fold_result_inv.
  - intros _. split; [by intros g ?%elem_of_nil|by intros d ?%elem_of_nil|by intros r ?%elem_of_nil].
  - intros seen d p1 p2 IH _ Hstep Hpr. assert (Hinv : pre_inv seen p1).
    { apply IH. by apply Forall_app in Hpr as [? _]. }
    assert (Hd : projected d) by (apply Forall_app in Hpr as [_ Hpr]; by apply Forall_cons in Hpr as [? _]).
    unfold preflight_step in Hstep. destruct (decide (select _ = [])) as [Hnil|Hne].
    + injection Hstep as <-. apply pre_inv_skip; [done|]. intros _ Hap. apply applies_auth in Hap as [Hu _]; [|done].
      rewrite Hnil in Hu. by apply elem_of_nil in Hu.
    + pose proof Hd as ((_ & _ & _ & [Ha|[tag Ha]]) & _); rewrite Ha in Hstep.
      * by eapply pre_inv_deny.
      * by eapply pre_inv_route.
Qed.

Lemma preflight_only_hostnames plan p :
  fold_result (preflight_step select) (MkPreflight [] [] 0) plan = Ok p ->
  forall r, r ∈ p.(pf_out) -> r.(xr_action) = XReject /\ (forall s, xmatches c s r.(xr_match) = true -> c.(cn_version) = None).
Proof.
  apply (fold_result_inv (preflight_step select) (fun _ p => forall r, r ∈ p.(pf_out) ->
    r.(xr_action) = XReject /\ (forall s, xmatches c s r.(xr_match) = true -> c.(cn_version) = None))).
  { by intros r ?%elem_of_nil. }
  intros _ d p1 p2 Hinv _. unfold preflight_step. case_decide; [by intros [= <-]|].
  destruct (rt_action (cd_route d)); [by intros [= <-]| | |by intros [= <-]].
  - unfold deny_step. case_decide; [by intros [= <-]|]. intros (p3 & [Hp3 Ho3]%charge_Ok & Hf)%result_bind_Ok.
    injection Hf as <-. cbn [pf_out]. rewrite Ho3. intros r [Hr| ->%list_elem_of_singleton]%elem_of_app; [by apply Hinv|].
    split; [done|]. cbn [xr_match xmatches xorb forallb app]. intros s Hm.
    apply andb_true_iff in Hm as [_ Hm]. apply andb_true_iff in Hm as [_ Hm]. apply andb_true_iff in Hm as [Hm _].
    by apply (hostname_None s).
  - unfold route_step. destruct (_ && _); [by intros [= <-]|]. intros ([[i g] p3] & Hg & Hf)%result_bind_Ok.
    assert (H3 : p3.(pf_out) = p1.(pf_out)).
    { destruct (find_group _ _) as [[j x]|]; [by injection Hg as _ _ <-|].
      apply result_bind_Ok in Hg as (p4 & [Hp4 Ho4]%charge_Ok & Hg). by injection Hg as _ _ <-. }
    assert (H2 : p2.(pf_out) = p3.(pf_out)); [|by rewrite H2, H3].
    destruct (ps_address g); [by injection Hf as <-|]. destruct (cd_addr d); [by injection Hf as <-|].
    apply result_bind_Ok in Hf as (p4 & [Hp4 Ho4]%charge_Ok & Hf). by injection Hf as <-.
Qed.

Lemma decide_preflight plan pre rest :
  realityDenialPreflight select plan = Ok pre ->
  (c.(cn_version) = None -> Forall projected plan) ->
  decide_x (pre ++ rest) final arrival c = decide_x rest final arrival c \/
  decide_x (pre ++ rest) final arrival c = XReject /\
  decide_route (map cd_route plan) TagDirect (wg_packet s1) = Reject.
Proof.
  unfold realityDenialPreflight. intros (p & Hf & Hp)%result_bind_Ok Hpr. injection Hp as <-.
  pose proof (preflight_only_hostnames plan p Hf) as Hhost.
  destruct (existsb (fun r => xmatches c arrival (xr_match r)) (pf_out p)) eqn:He.
  - right. apply existsb_exists in He as (r & Hr & Hm). apply list_elem_of_In in Hr.
    destruct (Hhost r Hr) as [_ Hv]. specialize (Hpr (Hv _ Hm)). split.
    + apply list_elem_of_split in Hr as (l1 & l2 & Hl). revert Hl.
      assert (Hact : forall x, x ∈ pf_out p -> xr_action x = XReject) by (intros x Hx; apply (Hhost x Hx)).
      revert Hact. generalize (pf_out p) as l. intros l Hact ->. clear - Hact Hm.
      induction l1 as [|x l1 IH]; cbn [app decide_x].
      * rewrite Hm, (Hact r); [done|]. by left.
      * destruct (xmatches c arrival (xr_match x)); [rewrite (Hact x); [done|by left]|].
        apply IH. intros y Hy. apply Hact. by right.
    + apply preflight_inv in Hf; [|done]. by apply (pi_out _ _ Hf r).
  - left. apply decide_skip. apply Forall_forall. intros r Hr. apply not_true_iff_false. intros Hm.
    apply not_true_iff_false in He. apply He, existsb_exists. exists r. split; [by apply list_elem_of_In|done].
Qed.

(** *** All rules *)
Lemma rewrite_no_sets pre l0 l :
  Forall (fun r => r.(rt_match).(rm_sets) = []) l0 ->
  rewrite_rules st names denied select pre false (l0 ++ l) =
  flat_map (reality_rule denied select) l0 ++ rewrite_rules st names denied select pre false l.
Proof.
  induction 1 as [|r l0 Hr _ IH]; [done|]. cbn [app rewrite_rules flat_map].
  rewrite (bool_decide_eq_false_2 (_ <> [])) by (intros Hn; by apply Hn). cbn [negb andb orb app].
  by rewrite IH, app_assoc.
Qed.

Lemma rewrite_inserted pre l :
  rewrite_rules st names denied select pre true l = flat_map (reality_rule denied select) l.
Proof. induction l as [|r l IH]; [done|]. cbn [rewrite_rules negb andb orb app flat_map]. by rewrite IH. Qed.

Lemma rewrite_entries pre l :
  Forall entry_ok l ->
  rewrite_rules st names denied select pre false l =
  (if decide (l = []) then [] else pre) ++ sharedResolve st names denied (bool_decide (l <> [])) ++
  flat_map (reality_rule denied select) l.
Proof.
  destruct 1 as [|r l (_ & _ & Hs & _) _]; [by rewrite app_nil_r|]. cbn [rewrite_rules flat_map].
  rewrite (bool_decide_eq_true_2 (_ <> [])) by done. cbn [negb andb orb]. rewrite rewrite_inserted.
  rewrite decide_False, bool_decide_eq_true_2 by done. by rewrite <- !app_assoc.
Qed.

Section all.
Context `{PF : Platform} `{PP : PoolPolicy} `{PS : PoolSource}.
Variables (sn : SnapshotT) (entries : list RouteRule) (plan : list compiledDestination) (pre : list XRule).
Hypothesis Hlocal : forall x, x ∈ LocalIPv4 -> x ∈ denied.
Hypothesis Hegress : Forall (fun p => is_Some p.(p_egress) -> is_Some (egress_source p)) sn.(sn_peers).
Hypothesis Hentries : Forall entry_ok entries.
Hypothesis Hplan : map cd_route plan = entries.
Hypothesis Hpre : realityDenialPreflight select plan = Ok pre.
Hypothesis Hprojected : c.(cn_version) = None -> Forall projected plan.
Hypothesis Hs1 : s1 = rules_stage (bool_decide (entries <> [])).

Lemma egress_no_sets ps : Forall (fun r => r.(rt_match).(rm_sets) = []) (flat_map (egress_routes sn) ps).
Proof.
  induction ps as [|p ps IH]; [constructor|]. cbn [flat_map]. apply Forall_app. split; [|exact IH].
  unfold egress_routes. destruct (egress_source p) as [[id src]|]; [|constructor].
  destruct (_ && _); repeat constructor.
Qed.

Lemma decide_tail :
  decide_x ((if decide (entries = []) then [] else pre) ++ sharedResolve st names denied (bool_decide (entries <> [])) ++
    flat_map (reality_rule denied select) entries ++ direct_rules names) final arrival c =
  if private (MkStage true false) then XReject
  else if bool_decide (entries <> []) && endpoint_name s1 then XReject
  else lift_action (decide_route entries TagDirect (wg_packet s1)).
Proof.
  set (rest := sharedResolve _ _ _ _ ++ _).
  assert (Hrest : decide_x rest final arrival c =
    if private (MkStage true false) then XReject
    else if bool_decide (entries <> []) && endpoint_name s1 then XReject
    else lift_action (decide_route entries TagDirect (wg_packet s1))).
  { unfold rest. rewrite decide_sharedResolve by done. rewrite <- Hs1, decide_rules_x by done. done. }
  case_decide as He; [exact Hrest|].
  destruct (decide_preflight plan pre rest Hpre Hprojected) as [->|[-> Hr]]; [exact Hrest|].
  rewrite Hplan in Hr. rewrite Hr. by repeat case_match.
Qed.

Lemma decide_user :
  decide_x (entrance_rules st names denied ++
    rewrite_rules st names denied select pre false
      (MkRoute (MkMatch [TagDNSIn] [] [] []) HijackDNS :: flat_map (egress_routes sn) sn.(sn_peers) ++ entries) ++
    direct_rules names) final arrival c =
  match entrance_verdict with
  | Some a => a
  | None =>
      if private (MkStage true false) then XReject
      else match egress_verdict sn (wg_packet s1) sn.(sn_peers) with
           | Some v => lift_action v
           | None => if bool_decide (entries <> []) && endpoint_name s1 then XReject
                     else lift_action (decide_route entries TagDirect (wg_packet s1))
           end
  end.
Proof.
  rewrite decide_entrance. destruct entrance_verdict; [done|].
  rewrite (app_comm_cons _ entries), rewrite_no_sets by (constructor; [done|apply egress_no_sets]).
  rewrite rewrite_entries by done. rewrite <- !app_assoc. cbn [flat_map].
  assert (reality_rule denied select (MkRoute (MkMatch [TagDNSIn] [] [] []) HijackDNS) =
    [lift_rule (MkRoute (MkMatch [TagDNSIn] [] [] []) HijackDNS)]) as -> by done.
  rewrite <- !app_assoc. cbn [app decide_x xr_match lift_rule rt_match].
  assert (Hhijack : xmatches c arrival (Leaf (lift_match (MkMatch [TagDNSIn] [] [] []))) = false).
  { cbn [xmatches]. apply raw_other_inbound; [done| |done]. cbn [rw_inbound lift_match rm_inbound].
    by rewrite list_elem_of_singleton, Hin. }
  rewrite Hhijack. rewrite (decide_egress_x sn Hlocal s1) by done.
  destruct (egress_verdict sn (wg_packet s1) (sn_peers sn)); [done|]. apply decide_tail.
Qed.
End all.
End user.

(** ** Connections of other inbounds *)
Section other.
#[local] Set Default Proof Using "All".
Variables (st : Settings) (names denied : list string) (select : list string -> list string) (c : conn) (final : string).
Hypothesis Hother : c.(cn_inbound) <> TagRealityIn.

Definition never (r : XRule) : Prop := forall s, xmatches c s r.(xr_match) = false.

Lemma never_leaf raw a : raw.(rw_inbound) = [TagRealityIn] -> raw.(rw_invert) = false -> never (MkXRule (Leaf raw) a).
Proof. intros Hi Hv s. cbn. apply raw_other_inbound; [by rewrite Hi| |done]. by rewrite Hi, list_elem_of_singleton. Qed.

Lemma never_and l a : never (MkXRule (Logical false false (Leaf (at_reality no_raw) :: l)) a).
Proof.
  intros s. cbn [xr_match xmatches forallb xorb]. apply andb_false_iff. left.
  by apply (never_leaf (at_reality no_raw) XReject).
Qed.

Lemma never_endpoint : Forall never (rejectEndpointName st).
Proof. unfold rejectEndpointName. case_decide; [|done]. case_match; [done|]. constructor; [by apply never_leaf|done]. Qed.

Lemma never_entrance : Forall never (entrance_rules st names denied).
Proof.
  unfold entrance_rules. apply Forall_app. split; [|apply never_endpoint].
  repeat constructor; try (by apply never_leaf). apply never_and.
Qed.

Lemma never_resolve b : Forall never (sharedResolve st names denied b).
Proof.
  unfold sharedResolve. apply Forall_app. split; [repeat constructor; by apply never_leaf|].
  destruct b; [|done]. constructor; [by apply never_leaf|apply never_endpoint].
Qed.

Lemma never_direct : Forall never (direct_rules names).
Proof. apply Forall_map, Forall_forall. intros x _. by apply never_leaf. Qed.

Lemma never_preflight plan p :
  fold_result (preflight_step select) (MkPreflight [] [] 0) plan = Ok p -> Forall never p.(pf_out).
Proof.
  apply (fold_result_inv (preflight_step select) (fun _ p => Forall never p.(pf_out))); [constructor|].
  intros _ d p1 p2 Hinv _. unfold preflight_step. case_decide; [by intros [= <-]|].
  destruct (rt_action (cd_route d)); [by intros [= <-]| | |by intros [= <-]].
  - unfold deny_step. case_decide; [by intros [= <-]|]. intros (p3 & [Hp3 Ho3]%charge_Ok & Hf)%result_bind_Ok.
    injection Hf as <-. cbn [pf_out]. rewrite Ho3. apply Forall_app. split; [done|]. constructor; [apply never_and|done].
  - unfold route_step. destruct (_ && _); [by intros [= <-]|]. intros ([[i g] p3] & Hg & Hf)%result_bind_Ok.
    assert (H3 : p3.(pf_out) = p1.(pf_out)).
    { destruct (find_group _ _) as [[j x]|]; [by injection Hg as _ _ <-|].
      apply result_bind_Ok in Hg as (p4 & [Hp4 Ho4]%charge_Ok & Hg). by injection Hg as _ _ <-. }
    assert (H2 : p2.(pf_out) = p3.(pf_out)); [|by rewrite H2, H3].
    destruct (ps_address g); [by injection Hf as <-|]. destruct (cd_addr d); [by injection Hf as <-|].
    apply result_bind_Ok in Hf as (p4 & [Hp4 Ho4]%charge_Ok & Hf). by injection Hf as <-.
Qed.

Lemma decide_never l rest s : Forall never l -> decide_x (l ++ rest) final s c = decide_x rest final s c.
Proof. intros Hl. apply decide_skip. eapply Forall_impl; [exact Hl|]. intros r Hr. apply Hr. Qed.

(** What a scoped rule is for the transparent proxy. *)
Definition scoped_ok (r : RouteRule) : Prop :=
  (r.(rt_match).(rm_source) = [] /\ r.(rt_match).(rm_sets) = []) \/ r.(rt_match).(rm_inbound) = [].

Lemma decide_reality_rule r rest s :
  c.(cn_inbound) = TagTProxyIn -> scoped_ok r ->
  decide_x (reality_rule denied select r ++ rest) final s c = decide_x (lift_rule r :: rest) final s c.
Proof.
  intros Hin Hok. unfold reality_rule. case_decide as Hs; [done|].
  destruct Hok as [?|Hi]; [done|]. cbv zeta. cbn [app decide_x].
  assert (Hm : xmatches c s (Leaf (for_inbound [TagTProxyIn] (rw_user (lift_match (rt_match r)))
      (rw_source (lift_match (rt_match r))) (lift_match (rt_match r)))) = xmatches c s (xr_match (lift_rule r))).
  { unfold lift_rule. cbn [xr_match xmatches]. unfold raw_matches, for_inbound, lift_match.
    cbn [rw_inbound rw_user rw_sets rw_source rw_ip rw_version rw_port rw_domain rw_network rw_invert].
    rewrite Hi, Hin, (cond_same TagTProxyIn [TagTProxyIn]), bool_decide_eq_true_2 by (right; by left). done. }
  cbn [xr_match]. rewrite Hm. change (xr_action (lift_rule r)) with (lift_action (rt_action r)). cbn [xr_action].
  assert (Hskip : forall s', decide_x ((let auth := select (rm_source (rt_match r)) in
      if decide (auth = []) then []
      else match rt_action r with
           | Route _ => map (fun user => MkXRule (Leaf (for_inbound [TagRealityIn] [user] [] (lift_match (rt_match r)))) (lift_action (rt_action r))) auth
           | Resolve _ => [MkXRule (Leaf (for_inbound [TagRealityIn] auth [] (lift_match (rt_match r)))) (lift_action (rt_action r)); privateReject denied auth]
           | _ => [MkXRule (Leaf (for_inbound [TagRealityIn] auth [] (lift_match (rt_match r)))) (lift_action (rt_action r))]
           end) ++ rest) final s' c = decide_x rest final s' c).
  { intros s'. apply decide_never. cbv zeta. case_decide; [done|].
    destruct (rt_action r); [| |apply Forall_map, Forall_forall; intros x _; by apply never_leaf|];
      repeat constructor; by apply never_leaf. }
  cbv zeta in Hskip. destruct (rt_action r); cbn [lift_action] in *; by rewrite ?Hskip.
Qed.

Lemma decide_rewritten pre l rest s inserted :
  c.(cn_inbound) = TagTProxyIn -> Forall scoped_ok l -> Forall never pre -> Forall never rest ->
  decide_x (rewrite_rules st names denied select pre inserted l ++ rest) final s c =
  decide_x (map lift_rule l) final s c.
Proof.
  intros Hin Hl Hpre Hrest. revert s inserted. induction Hl as [|r l Hr _ IH]; intros s inserted; cbn [rewrite_rules map].
  - rewrite decide_never; [by rewrite <- (app_nil_r rest), decide_never|]. destruct inserted; [done|apply never_resolve].
  - rewrite <- !app_assoc. rewrite decide_never.
    + rewrite decide_reality_rule by done. cbn [decide_x]. destruct (xmatches c s _); [|apply IH].
      destruct (xr_action (lift_rule r)); try done; apply IH.
    + destruct (_ && _); [|done]. apply Forall_app. split; [done|apply never_resolve].
Qed.

Lemma decide_other pre l s :
  c.(cn_inbound) = TagTProxyIn -> Forall scoped_ok l -> Forall never pre ->
  decide_x (entrance_rules st names denied ++ rewrite_rules st names denied select pre false l ++ direct_rules names) final s c =
  decide_x (map lift_rule l) final s c.
Proof.
  intros Hin Hl Hpre. rewrite decide_never by apply never_entrance.
  apply decide_rewritten; [done|done|done|apply never_direct].
Qed.

(** The resolver's own inbound is decided by the first rule. *)
Lemma decide_dns_in pre l s :
  c.(cn_inbound) = TagDNSIn ->
  let hijack := MkRoute (MkMatch [TagDNSIn] [] [] []) HijackDNS in
  decide_x (entrance_rules st names denied ++ rewrite_rules st names denied select pre false (hijack :: l) ++ direct_rules names) final s c =
  decide_x (map lift_rule (hijack :: l)) final s c.
Proof.
  intros Hin hijack. rewrite decide_never by apply never_entrance. cbn [rewrite_rules map].
  assert (Hm : xmatches c s (xr_match (lift_rule hijack)) = true).
  { cbn [xr_match lift_rule hijack rt_match xmatches]. unfold raw_matches, lift_match.
    cbn [rw_inbound rw_user rw_sets rw_source rw_ip rw_version rw_port rw_domain rw_network rw_invert rm_inbound rm_sets rm_source rm_ip].
    rewrite Hin, (cond_same TagDNSIn [TagDNSIn]), bool_decide_eq_true_2 by (right; by left). done. }
  replace (reality_rule denied select hijack) with [lift_rule hijack] by done. 
  rewrite (bool_decide_eq_false_2 (rm_sets (rt_match hijack) <> [])) by (intros Hn; by apply Hn).
  cbn [negb andb app decide_x]. by rewrite Hm.
Qed.
End other.

(** ** Names *)

Lemma add_user_spec us byPeer names :
  fold_result add_user (∅, []) us = Ok (byPeer, names) ->
  names = map ru_name us /\ (forall u, u ∈ us -> u.(ru_name) = RealityUserName u.(ru_peer)) /\
  (forall k n, byPeer !! k = Some n <-> exists u, u ∈ us /\ u.(ru_peer) = k /\ u.(ru_name) = n).
Proof.
  apply (fold_result_inv add_user (fun us acc =>
    acc.2 = map ru_name us /\ (forall u, u ∈ us -> u.(ru_name) = RealityUserName u.(ru_peer)) /\
    (forall k n, acc.1 !! k = Some n <-> exists u, u ∈ us /\ u.(ru_peer) = k /\ u.(ru_name) = n))).
  - split; [done|]. split; [by intros u ?%elem_of_nil|]. intros k n. cbn [fst]. split; [by rewrite lookup_empty|].
    by intros (u & []%elem_of_nil & _).
  - intros seen u [m l] [m' l'] (Hl & Hn & Hm) _. unfold add_user. cbn [fst snd].
    destruct (decide _) as [|Hok]; [done|]. destruct (decide (is_Some (m !! ru_peer u))) as [|Hfresh]; [done|].
    intros [= <- <-]. assert (Hname : ru_name u = RealityUserName (ru_peer u)).
    { destruct (decide (ru_name u = RealityUserName (ru_peer u))); [done|]. exfalso. apply Hok. tauto. }
    cbn [fst snd] in Hl, Hm. split_and!.
    + rewrite map_app, Hl. done.
    + intros x [Hx| ->%list_elem_of_singleton]%elem_of_app; [by apply Hn|done].
    + intros k n. cbn [fst]. rewrite lookup_insert_Some, Hm. split.
      * intros [[<- <-]|[Hne (x & Hx & Hrest)]]; [exists u|exists x]; rewrite elem_of_app; [|naive_solver].
        split; [right; by left|done].
      * intros (x & [Hx| ->%list_elem_of_singleton]%elem_of_app & Hk & Hxn); [|by left]. right. split; [|by exists x].
        intros He. apply Hfresh. rewrite He, <- Hk. exists (ru_name x). apply Hm. by exists x.
Qed.

Lemma add_name_spec byPeer ps m :
  fold_result (add_name byPeer) ∅ ps = Ok m ->
  (forall p n, p ∈ ps -> byPeer !! p.(p_id) = Some n -> exists a, cidr p.(p_address) = Ok a /\ is_Some (m !! a)) /\
  (forall a n, m !! a = Some n -> exists p, p ∈ ps /\ byPeer !! p.(p_id) = Some n /\ cidr p.(p_address) = Ok a).
Proof.
  apply (fold_result_inv (add_name byPeer) (fun ps m =>
    (forall p n, p ∈ ps -> byPeer !! p.(p_id) = Some n -> exists a, cidr p.(p_address) = Ok a /\ is_Some (m !! a)) /\
    (forall a n, m !! a = Some n -> exists p, p ∈ ps /\ byPeer !! p.(p_id) = Some n /\ cidr p.(p_address) = Ok a))).
  - split; [by intros p n ?%elem_of_nil|]. by intros a n; rewrite lookup_empty.
  - intros seen q m1 m2 [H1 H2] _. unfold add_name. destruct (byPeer !! p_id q) as [name|] eqn:Hq.
    + intros (prefix & Hc & Hf)%result_bind_Ok. injection Hf as <-. split.
      * intros p n [Hp| ->%list_elem_of_singleton]%elem_of_app Hn.
        -- destruct (H1 p n Hp Hn) as (a & Ha & Hs). exists a. split; [done|]. rewrite lookup_insert. by case_decide.
        -- exists prefix. split; [done|]. rewrite lookup_insert_eq. by eexists.
      * intros a n [[<- <-]|[_ Ha]]%lookup_insert_Some.
        -- exists q. rewrite elem_of_app. split_and!; [right; by left|done|done].
        -- destruct (H2 a n Ha) as (p & ? & ? & ?). exists p. rewrite elem_of_app. naive_solver.
    + intros [= <-]. split.
      * intros p n [Hp| ->%list_elem_of_singleton]%elem_of_app Hn; [by apply (H1 p n)|congruence].
      * intros a n Ha. destruct (H2 a n Ha) as (p & ? & ? & ?). exists p. rewrite elem_of_app. naive_solver.
Qed.

(** What the store guarantees of the clients, and of the identifiers (UUIDs). *)
Record clients_ok (sn : SnapshotT) (rt : RealityRuntimeT) : Prop := {
  co_ids : NoDup (map p_id sn.(sn_peers));
  co_addresses : forall p q a, p ∈ sn.(sn_peers) -> q ∈ sn.(sn_peers) ->
    cidr p.(p_address) = Ok a -> cidr q.(p_address) = Ok a -> p = q;
  co_bytes : forall u, u ∈ rt.(rr_users) -> no_byte "000" u.(ru_peer)
}.

Lemma RealityUserName_inj x y : RealityUserName x = RealityUserName y -> x = y.
Proof. unfold RealityUserName. by intros ?%(inj (String.append _)). Qed.

Lemma no_byte_app sep a b : no_byte sep a -> no_byte sep b -> no_byte sep (a +:+ b).
Proof. induction a as [|x a IH]; [done|]. intros [? ?] ?. split; [done|]. by apply IH. Qed.

Section names.
Variables (sn : SnapshotT) (rt : RealityRuntimeT) (byPeer nameByCIDR : gmap string string) (names : list string).
Hypothesis Hclients : clients_ok sn rt.
Hypothesis Husers : fold_result add_user (∅, []) rt.(rr_users) = Ok (byPeer, names).
Hypothesis Hcidrs : fold_result (add_name byPeer) ∅ sn.(sn_peers) = Ok nameByCIDR.

Lemma selected_spec p addr src :
  p ∈ sn.(sn_peers) -> p.(p_id) ∈ map ru_peer rt.(rr_users) -> cidr p.(p_address) = Ok addr ->
  RealityUserName p.(p_id) ∈ selected names nameByCIDR src <-> src = [] \/ addr ∈ src.
Proof using Hclients Husers Hcidrs.
  intros Hp Hlive Ha. apply add_user_spec in Husers as (-> & Hname & Hby). apply add_name_spec in Hcidrs as [H1 H2].
  apply list_elem_of_fmap in Hlive as (u & Hpu & Hu).
  assert (Hb : byPeer !! p_id p = Some (RealityUserName (p_id p))).
  { apply Hby. exists u. rewrite Hname, Hpu by done. done. }
  assert (Hm : nameByCIDR !! addr = Some (RealityUserName (p_id p))).
  { destruct (H1 p _ Hp Hb) as (a & Ha' & [n Hn]). assert (a = addr) as -> by congruence. rewrite Hn. f_equal.
    destruct (H2 _ _ Hn) as (q & Hq & Hbq & Haq). rewrite (co_addresses _ _ Hclients q p addr) in Hbq by done. congruence. }
  unfold selected. case_decide as Hsrc.
  { split; [by left|]. intros _. rewrite Hpu, <- Hname by done. by apply list_elem_of_fmap_2. }
  rewrite list_elem_of_omap. split.
  - intros (a & Hin & Hn). right. destruct (H2 _ _ Hn) as (q & Hq & Hbq & Haq).
    apply Hby in Hbq as (v & Hv & Hvp & Hvn). rewrite Hname, Hvp in Hvn by done. apply RealityUserName_inj in Hvn.
    assert (q = p) as -> by (by apply (NoDup_map_inj p_id sn.(sn_peers) q p (co_ids _ _ Hclients))). congruence.
  - intros [?|Hin]; [done|]. by exists addr.
Qed.

Lemma selected_bytes src x : x ∈ selected names nameByCIDR src -> no_byte "000" x.
Proof using Hclients Husers Hcidrs.
  apply add_user_spec in Husers as (-> & Hname & Hby). apply add_name_spec in Hcidrs as [_ H2].
  assert (Hu : forall u, u ∈ rt.(rr_users) -> no_byte "000" u.(ru_name)).
  { intros u Hu. rewrite Hname by done. unfold RealityUserName. apply no_byte_app; [by repeat split|].
    by apply (co_bytes _ _ Hclients). }
  unfold selected. case_decide.
  - intros (u & -> & Hin)%list_elem_of_fmap. by apply Hu.
  - intros (a & _ & Hn)%list_elem_of_omap. destruct (H2 _ _ Hn) as (q & _ & Hb & _).
    apply Hby in Hb as (u & Hin & _ & <-). by apply Hu.
Qed.
End names.

(** ** The entrance and the policy *)
Section policy.
Context `{PF : Platform} `{PP : PoolPolicy} `{PS : PoolSource}.

(** The name sets of a rule agree with its full sets on a connection to a host
    name: they match by name what the full sets match later, and for a rule
    without addresses they match all of it. *)
Definition names_projected (sn : SnapshotT) (plain : PlainLists) (c : conn) (s : stage) : Prop :=
  forall r, r ∈ sn.(sn_rules) ->
    let b := buildRuleSets r plain in
    (existsb (c.(cn_set) arrival) b.(rs_dns) = true -> existsb (c.(cn_set) s) b.(rs_route) = true) /\
    (b.(rs_addr) = false -> existsb (c.(cn_set) s) b.(rs_route) = true -> existsb (c.(cn_set) arrival) b.(rs_dns) = true).

(** Is any rule in force? *)
Definition any_rule (sn : SnapshotT) (plain : PlainLists) (peers : gmap string (string * bool)) : bool :=
  existsb (in_force plain peers) (sortedRules sn.(sn_rules)).

(** The verdict for a connection of the REALITY user whose WireGuard address
    is [addr]. *)
Definition reality_policy (sn : SnapshotT) (plain : PlainLists) (peers : gmap string (string * bool))
  (local : list string) (c : conn) (addr : string) : XAction :=
  let st := sn.(sn_settings) in
  let denied := LocalIPv4 ++ local in
  match entrance_verdict st denied c with
  | Some a => a
  | None =>
      let s := rules_stage c (any_rule sn plain peers) in
      let pk := wg_packet c addr s in
      if private denied c (MkStage true false) then XReject
      else if bool_decide (egress_verdict sn pk sn.(sn_peers) = None) && any_rule sn plain peers && endpoint_name st c s
      then XReject
      else lift_action (policy sn plain peers pk)
  end.

Lemma forced_entries_ok sn plain peers rs :
  Forall entry_ok (map (route_entry sn plain peers) (forced plain peers rs)).
Proof.
  apply Forall_map, Forall_forall. intros r [Hf _]%list_elem_of_filter. unfold route_entry. split_and!; try done; cbn.
  - unfold in_force in Hf. apply andb_true_iff in Hf as [_ Hf]. by reflect_bools.
  - pose proof (rule_verdict_final sn peers r). destruct (rule_verdict sn peers r); naive_solver.
Qed.

Lemma forced_any sn plain peers :
  bool_decide (map (route_entry sn plain peers) (forced plain peers (sortedRules sn.(sn_rules))) <> []) = any_rule sn plain peers.
Proof.
  unfold any_rule. apply eq_true_iff_eq. rewrite bool_decide_eq_true, existsb_exists. unfold forced. split.
  - intros Hne. destruct (filter _ (sortedRules (sn_rules sn))) as [|r l] eqn:Hf; [done|]. exists r.
    assert (Hr : r ∈ r :: l) by by left. rewrite <- Hf in Hr. apply list_elem_of_filter in Hr as [H1 H2].
    split; [by apply list_elem_of_In|done].
  - intros (r & Hr & Hf) Hnil. apply list_elem_of_In in Hr.
    assert (Hin : r ∈ filter (fun r => in_force plain peers r = true) (sortedRules (sn_rules sn))) by by apply list_elem_of_filter.
    destruct (filter _ (sortedRules (sn_rules sn))); [by apply elem_of_nil in Hin|done].
Qed.

Lemma egress_scoped sn ps : Forall scoped_ok (flat_map (egress_routes sn) ps).
Proof.
  induction ps as [|p ps IH]; [constructor|]. cbn [flat_map]. apply Forall_app. split; [|exact IH].
  unfold egress_routes. destruct (egress_source p) as [[id src]|]; [|constructor].
  destruct (_ && _); repeat constructor; by right.
Qed.

Lemma sorted_in r l : r ∈ sortedRules l -> r ∈ l.
Proof. rewrite sortedRules_Permutation. by intros [_ ?]%list_elem_of_filter. Qed.

(** A run of the generator with the entrance. *)
Record entered (sn : SnapshotT) (plain : PlainLists) (rt : RealityRuntimeT) (local : list string)
  (opts : RealityOptions) (peers : gmap string (string * bool)) (names : list string)
  (select : list string -> list string) (pre : list XRule) : Prop := {
  en_base : exists built rules, generated sn plain opts.(ro_base) peers built rules /\
    realityDenialPreflight select (map (plan_entry sn plain peers) rules) = Ok pre;
  en_users : rt.(rr_users) <> [];
  en_names : exists byPeer nameByCIDR, fold_result add_user (∅, []) rt.(rr_users) = Ok (byPeer, names) /\
    fold_result (add_name byPeer) ∅ sn.(sn_peers) = Ok nameByCIDR /\ select = selected names nameByCIDR;
  en_routes : opts.(ro_routes) = entrance_rules sn.(sn_settings) names (LocalIPv4 ++ local) ++
    rewrite_rules sn.(sn_settings) names (LocalIPv4 ++ local) select pre false opts.(ro_base).(op_routes) ++ direct_rules names;
  en_dns : opts.(ro_dns) = dns_rules select opts.(ro_base).(op_dns).(do_rules)
}.

Lemma GenerateWithReality_inv sn plain rt local opts :
  snapshot_ok sn -> GenerateWithReality sn plain (Some (MkLive rt local)) = Ok opts -> is_Some opts.(ro_inbound) ->
  exists peers names select pre, entered sn plain rt local opts peers names select pre.
Proof.
  intros Hok Hg Hin. unfold GenerateWithReality in Hg. apply result_bind_Ok in Hg as ([[o d] plan] & Hplan & Hg).
  destruct (Generate_plan_inv _ _ _ _ _ Hok Hplan) as (peers & built & rules & Hgen & ->).
  destruct (s_reality (sn_settings sn)); cbn [negb] in Hg; [|injection Hg as <-; by destruct Hin].
  destruct (rr_identity rt) as [i|]; [|injection Hg as <-; by destruct Hin].
  destruct (decide (rr_users rt = [])) as [|Hus]; [injection Hg as <-; by destruct Hin|].
  destruct (decide (ri_id i <> _)); [done|]. destruct (ParseAddr "0.0.0.0"); [|done].
  apply result_bind_Ok in Hg as ([byPeer names] & Hu & Hg). apply result_bind_Ok in Hg as (nameByCIDR & Hn & Hg).
  apply result_bind_Ok in Hg as (pre & Hpre & Hg). injection Hg as <-.
  exists peers, names, (selected names nameByCIDR), pre. split; cbn [ro_base ro_routes ro_dns]; [by exists built, rules|done| |done|done].
  by exists byPeer, nameByCIDR.
Qed.

Lemma decide_entered sn plain rt local opts peers names select pre c p addr :
  entered sn plain rt local opts peers names select pre -> clients_ok sn rt ->
  c.(cn_inbound) = TagRealityIn -> p ∈ sn.(sn_peers) -> p.(p_id) ∈ map ru_peer rt.(rr_users) ->
  c.(cn_user) = RealityUserName p.(p_id) -> cidr p.(p_address) = Ok addr ->
  c.(cn_version) ∈ [None; Some 4; Some 6] ->
  (c.(cn_version) = None -> names_projected sn plain c (rules_stage c (any_rule sn plain peers))) ->
  decide_x opts.(ro_routes) opts.(ro_base).(op_final) arrival c = reality_policy sn plain peers local c addr.
Proof.
  intros [(built & rules & Hgen & Hpre) Hne (byPeer & nameByCIDR & Hu & Hn & Hselect) Hroutes _] Hco Hin Hp Hlive Huser Haddr Hver Hproj.
  rewrite Hroutes, (g_routes _ _ _ _ _ _ Hgen). unfold reality_policy.
  assert (Hsel : forall src, cn_user c ∈ select src <-> src = [] \/ addr ∈ src).
  { intros src. rewrite Hselect, Huser. by apply (selected_spec sn rt byPeer). }
  assert (Hname : cn_user c ∈ names).
  { pose proof (proj2 (Hsel []) (or_introl eq_refl)) as H. by rewrite Hselect in H. }
  assert (Hdenied : LocalIPv4 ++ local <> []) by done.
  destruct (decide (cn_version c = Some 6)) as [H6|H6].
  { rewrite (decide_entrance _ _ _ select c addr) by done. unfold entrance_verdict. by rewrite decide_True. }
  assert (Hv4 : cn_version c = None \/ cn_version c = Some 4).
  { rewrite !elem_of_cons, elem_of_nil in Hver. naive_solver. }
  pose proof (g_rules _ _ _ _ _ _ Hgen) as Hrules.
  set (entries := map (route_entry sn plain peers) rules) in *.
  assert (Hany : bool_decide (entries <> []) = any_rule sn plain peers).
  { unfold entries. rewrite Hrules. apply forced_any. }
  set (s1 := rules_stage c (any_rule sn plain peers)) in *.
  assert (Hnul : forall src x, x ∈ select src -> no_byte "000" x).
  { intros src x. rewrite Hselect. by apply (selected_bytes sn rt byPeer). }
  erewrite (decide_user _ names _ select c addr _ Hin Hname Hsel Hdenied Hv4 s1 Hnul
    sn _ (map (plan_entry sn plain peers) rules)); cycle 1.
  - intros x Hx. apply elem_of_app. by left.
  - apply Hgen.
  - unfold entries. rewrite Hrules. apply forced_entries_ok.
  - unfold entries. rewrite map_map. reflexivity.
  - exact Hpre.
  - intros Hnone. specialize (Hproj Hnone). apply Forall_map, Forall_forall. intros r Hr.
    assert (Hin' : r ∈ sn_rules sn).
    { rewrite Hrules in Hr. by apply list_elem_of_filter in Hr as [_ ?%sorted_in]. }
    split; [|apply (Hproj r Hin')]. pose proof (forced_entries_ok sn plain peers (sortedRules (sn_rules sn))) as Hall.
    rewrite <- Hrules in Hall. rewrite Forall_forall in Hall. apply Hall.
    by apply (list_elem_of_fmap_2 (route_entry sn plain peers)).
  - by rewrite Hany.
  - rewrite Hany. destruct (entrance_verdict _ _ c); [done|]. destruct (private _ c _); [done|].
    unfold policy. rewrite decide_False by done. cbn [pk_inbound wg_packet].
    destruct (egress_verdict _ _ _) as [v|]; [by rewrite bool_decide_eq_false_2|].
    rewrite bool_decide_eq_true_2 by done. cbn [andb]. destruct (_ && _); [done|]. f_equal.
    unfold entries. rewrite Hrules. apply decide_rules.
Qed.

Lemma decide_stranger sn plain rt local opts peers names select pre c :
  entered sn plain rt local opts peers names select pre ->
  c.(cn_inbound) = TagRealityIn -> c.(cn_user) ∉ map ru_name rt.(rr_users) ->
  decide_x opts.(ro_routes) opts.(ro_base).(op_final) arrival c = XReject.
Proof.
  intros [_ Hne (byPeer & nameByCIDR & Hu & _ & _) Hroutes _] Hin Hno. rewrite Hroutes.
  apply add_user_spec in Hu as (-> & _ & _). unfold entrance_rules. cbn [app decide_x]. unfold unknown_user.
  cbn [xr_match xr_action].
  assert (xmatches c arrival (Logical false false [Leaf (at_reality no_raw);
    Leaf (MkRaw [] (map ru_name (rr_users rt)) [] [] [] None [] [] [] true)]) = true) as ->; [|done].
  cbn [xmatches forallb xorb]. unfold raw_matches, at_reality, no_raw, for_inbound.
  cbn [rw_inbound rw_user rw_sets rw_source rw_ip rw_version rw_port rw_domain rw_network rw_invert xorb].
  rewrite Hin, (cond_same TagRealityIn [TagRealityIn]), (cond_same _ (map ru_name (rr_users rt))).
  rewrite bool_decide_eq_true_2 by (right; by left).
  rewrite (bool_decide_eq_false_2 (_ \/ cn_user c ∈ _)); [done|]. intros [Hnil|?]; [|done].
  by apply Hne, (fmap_nil_inv ru_name).
Qed.

(** *** DNS *)

(** The query as the client's WireGuard address would send it. *)
Definition wg_query (addr : string) (q : query) : query :=
  MkQuery q.(qu_type) q.(qu_under) q.(qu_set) (fun a => bool_decide (a = addr)).

Lemma decide_dns_user select x addr final l :
  x.(xq_inbound) = TagRealityIn -> (forall src, x.(xq_user) ∈ select src <-> src = [] \/ addr ∈ src) ->
  decide_xdns (flat_map (reality_dns_rule select) l) final x = decide_dns l final (wg_query addr x.(xq_query)).
Proof.
  intros Hin Hsel. induction l as [|r l IH]; [done|]. cbn [flat_map decide_dns].
  unfold reality_dns_rule. destruct (decide (dm_source (dr_match r) = [] /\ dm_sets (dr_match r) = [])) as [[Hs Ht]|Hs].
  - cbn [app decide_xdns]. assert (xdns_matches x (lift_dns r) = dns_matches (wg_query addr (xq_query x)) (dr_match r)) as ->.
    { unfold xdns_matches, lift_dns, dns_matches. cbn [xd_inbound xd_user xd_match]. by rewrite Hs, Ht. }
    destruct (dns_matches _ _); [done|exact IH].
  - cbv zeta. cbn [app decide_xdns].
    assert (xdns_matches x (MkXDNS [TagDNSIn; TagTProxyIn] [] (dr_match r) (dr_action r)) = false) as ->.
    { unfold xdns_matches. cbn [xd_inbound]. by rewrite Hin. }
    set (auth := select (dm_source (dr_match r))).
    assert (Hm : dns_matches (wg_query addr (xq_query x)) (dr_match r) =
      bool_decide (xq_user x ∈ auth) && dns_matches (xq_query x) (MkDNSMatch (dm_types (dr_match r)) (dm_suffix (dr_match r)) (dm_sets (dr_match r)) [])).
    { unfold dns_matches, wg_query. cbn [qu_type qu_under qu_set qu_source dm_types dm_suffix dm_sets dm_source].
      rewrite (cond_addr addr). change (cond (qu_source (xq_query x)) []) with true. rewrite andb_true_r.
      rewrite (bool_decide_ext (xq_user x ∈ auth) (dm_source (dr_match r) = [] \/ addr ∈ dm_source (dr_match r))) by apply Hsel.
      apply andb_comm. }
    rewrite Hm. destruct (decide (auth = [])) as [Hnil|Hne].
    + rewrite bool_decide_eq_false_2 by (rewrite Hnil; apply not_elem_of_nil). exact IH.
    + cbn [app decide_xdns]. unfold xdns_matches. cbn [xd_inbound xd_user xd_match xd_action].
      rewrite Hin, (cond_same TagRealityIn), (cond_same (xq_user x) auth), bool_decide_eq_true_2 by (right; by left).
      rewrite (bool_decide_ext (auth = [] \/ xq_user x ∈ auth) (xq_user x ∈ auth)) by naive_solver. cbn [andb].
      destruct (_ && _); [done|exact IH].
Qed.

Lemma decide_dns_wg select x final l :
  x.(xq_inbound) ∈ [TagDNSIn; TagTProxyIn] ->
  decide_xdns (flat_map (reality_dns_rule select) l) final x = decide_dns l final x.(xq_query).
Proof.
  intros Hin. assert (Hno : xq_inbound x <> TagRealityIn).
  { intros He. rewrite He, !elem_of_cons, elem_of_nil in Hin. naive_solver. }
  induction l as [|r l IH]; [done|]. cbn [flat_map decide_dns]. unfold reality_dns_rule. case_decide as Hs.
  - cbn [app decide_xdns]. change (xdns_matches x (lift_dns r)) with (dns_matches (xq_query x) (dr_match r)).
    destruct (dns_matches _ _); [done|exact IH].
  - cbv zeta. cbn [app decide_xdns].
    assert (xdns_matches x (MkXDNS [TagDNSIn; TagTProxyIn] [] (dr_match r) (dr_action r)) = dns_matches (xq_query x) (dr_match r)) as ->.
    { unfold xdns_matches. cbn [xd_inbound xd_user xd_match]. rewrite (cond_same (xq_inbound x)), bool_decide_eq_true_2 by by right. done. }
    destruct (dns_matches _ _); [done|]. case_decide; [exact IH|]. cbn [app decide_xdns]. unfold xdns_matches at 1. cbn [xd_inbound].
    rewrite (cond_same (xq_inbound x)), bool_decide_eq_false_2; [exact IH|]. rewrite list_elem_of_singleton. naive_solver.
Qed.

(** C29: DNS through the entrance.  A live REALITY user is answered as the DNS
    policy answers the client's WireGuard address, except that IPv6 addresses
    are refused; the answers to everybody else do not change. *)
Theorem Reality_dns sn plain rt local opts :
  snapshot_ok sn -> clients_ok sn rt ->
  GenerateWithReality sn plain (Some (MkLive rt local)) = Ok opts -> is_Some opts.(ro_inbound) ->
  let answer x := decide_xdns opts.(ro_dns) opts.(ro_base).(op_dns).(do_final) x in
  exists peers, peer_addresses sn.(sn_peers) = Ok peers /\
    (forall x, x.(xq_inbound) ∈ [TagDNSIn; TagTProxyIn] -> answer x = dns_policy sn plain peers x.(xq_query)) /\
    (forall x p addr, x.(xq_inbound) = TagRealityIn -> p ∈ sn.(sn_peers) -> p.(p_id) ∈ map ru_peer rt.(rr_users) ->
       x.(xq_user) = RealityUserName p.(p_id) -> cidr p.(p_address) = Ok addr ->
       answer x = if decide (x.(xq_query).(qu_type) = 28) then DNSReject
                  else dns_policy sn plain peers (wg_query addr x.(xq_query))).
Proof.
  intros Hok Hco Hg Hin. cbv zeta.
  apply GenerateWithReality_inv in Hg as (peers & names & select & pre & He); [|done|done].
  pose proof (en_base _ _ _ _ _ _ _ _ _ He) as (built & rules & Hgen & _).
  exists peers. split; [apply Hgen|]. rewrite (en_dns _ _ _ _ _ _ _ _ _ He). unfold dns_rules. cbn [decide_xdns].
  assert (Hpol : forall q, decide_dns (do_rules (op_dns (ro_base opts))) (do_final (op_dns (ro_base opts))) q = dns_policy sn plain peers q).
  { intros q. by apply (decide_dns_generated sn plain (ro_base opts) peers built rules). }
  assert (Haaaa : forall x, xdns_matches x (MkXDNS [TagRealityIn] [] (MkDNSMatch [28] [] [] []) DNSReject) =
    bool_decide (x.(xq_inbound) = TagRealityIn) && bool_decide (x.(xq_query).(qu_type) = 28)).
  { intros x. unfold xdns_matches, dns_matches. cbn [xd_inbound xd_user xd_match dm_types dm_suffix dm_sets dm_source existsb].
    rewrite (cond_same (xq_inbound x)). unfold cond. rewrite !(bool_decide_eq_true_2 (@nil string = [])) by done.
    rewrite (bool_decide_eq_false_2 ([28] = [])) by done. cbn [orb]. rewrite !andb_true_r, orb_false_r. f_equal.
    - apply bool_decide_ext. rewrite list_elem_of_singleton. naive_solver.
    - by apply bool_decide_ext. }
  split.
  - intros x Hx. rewrite Haaaa, bool_decide_eq_false_2; cbn [andb]; [by rewrite decide_dns_wg|].
    intros Hr. rewrite Hr, !elem_of_cons, elem_of_nil in Hx. naive_solver.
  - intros x p addr Hx Hp Hlive Huser Haddr. rewrite Haaaa, bool_decide_eq_true_2 by done. cbn [andb].
    case_decide; [by rewrite bool_decide_eq_true_2|]. rewrite bool_decide_eq_false_2 by done. rewrite <- Hpol.
    apply decide_dns_user; [done|]. pose proof (en_names _ _ _ _ _ _ _ _ _ He) as (byPeer & nameByCIDR & Hu & Hn & ->).
    intros src. rewrite Huser. by apply (selected_spec sn rt byPeer).
Qed.

(** C28: the REALITY entrance adds clients without touching the gateway.  What
    comes through the transparent proxy or to the resolver's inbound is decided
    as if the entrance were not there.  A connection through the entrance is
    refused unless its user is one of the users that are live; the connection
    of a live user is decided by the routing policy for the WireGuard address
    of that client: it is refused where the policy refuses it, it leaves through
    the tunnel the policy names, and on top of that IPv6, DNS over TLS, the
    gateway's own addresses and name, and every local network are refused and
    port 53 is answered by the resolver.  The early refusal of names before
    their resolution never refuses what the policy allows. *)
Theorem Reality_routes sn plain rt local opts :
  snapshot_ok sn -> clients_ok sn rt ->
  GenerateWithReality sn plain (Some (MkLive rt local)) = Ok opts -> is_Some opts.(ro_inbound) ->
  let decide_conn c := decide_x opts.(ro_routes) opts.(ro_base).(op_final) arrival c in
  exists peers, peer_addresses sn.(sn_peers) = Ok peers /\
    (forall c, c.(cn_inbound) = TagTProxyIn \/ c.(cn_inbound) = TagDNSIn ->
       decide_conn c = decide_x (map lift_rule opts.(ro_base).(op_routes)) opts.(ro_base).(op_final) arrival c) /\
    (forall c, c.(cn_inbound) = TagRealityIn -> c.(cn_user) ∉ map ru_name rt.(rr_users) -> decide_conn c = XReject) /\
    (forall c p addr, c.(cn_inbound) = TagRealityIn -> p ∈ sn.(sn_peers) -> p.(p_id) ∈ map ru_peer rt.(rr_users) ->
       c.(cn_user) = RealityUserName p.(p_id) -> cidr p.(p_address) = Ok addr ->
       c.(cn_version) ∈ [None; Some 4; Some 6] ->
       (c.(cn_version) = None -> names_projected sn plain c (rules_stage c (any_rule sn plain peers))) ->
       decide_conn c = reality_policy sn plain peers local c addr).
Proof.
  intros Hok Hco Hg Hin. cbv zeta.
  apply GenerateWithReality_inv in Hg as (peers & names & select & pre & He); [|done|done].
  pose proof (en_base _ _ _ _ _ _ _ _ _ He) as (built & rules & Hgen & Hpre).
  exists peers. split; [apply Hgen|]. split; [|split].
  - intros c Hc. rewrite (en_routes _ _ _ _ _ _ _ _ _ He), (g_routes _ _ _ _ _ _ Hgen).
    assert (Hother : cn_inbound c <> TagRealityIn) by (by destruct Hc as [->| ->]).
    destruct Hc as [Hc|Hc]; [|by apply (decide_dns_in _ _ _ _ c)].
    apply decide_other; [done|done| |].
    + constructor; [by left|]. apply Forall_app. split; [apply egress_scoped|].
      apply Forall_map, Forall_forall. intros r _. by right.
    + unfold realityDenialPreflight in Hpre. apply result_bind_Ok in Hpre as (p & Hf & Hpre). injection Hpre as <-.
      eapply (never_preflight sn.(sn_settings) names [] select c TagDirect Hother); exact Hf.
  - intros c. by eapply decide_stranger.
  - intros c p addr. by eapply decide_entered.
Qed.
End policy.

(** ** Witnesses *)
#[local] Existing Instances ascii_unicode ascii_runes sample_platform sample_source.

(** The gateway of [GenerateSpec] with [alice] live on the entrance. *)
Definition entrance_snapshot : SnapshotT :=
  MkSnapshot (with_reality true DefaultSettings) gen_tunnels gen_rules gen_peers "id-1"
    [MkAdmission "alice" "cred-1" 1].
Definition entrance_runtime : RealityRuntimeT :=
  MkRuntime (Some (MkRealityIdentity "id-1" "private" "public" "abcd")) [MkUser "alice" "client-alice" "uuid-1"].
Definition entrance_options : RealityOptions :=
  match GenerateWithReality entrance_snapshot gen_plain (Some (MkLive entrance_runtime ["203.0.113.9/32"])) with
  | Ok o => o
  | Err _ => MkRealityOptions (MkOptions "" (MkDNS [] [] "") [] [] [] [] [] "" "" "" "") None [] []
  end.

Lemma entrance_generates :
  GenerateWithReality entrance_snapshot gen_plain (Some (MkLive entrance_runtime ["203.0.113.9/32"])) = Ok entrance_options /\
  is_Some entrance_options.(ro_inbound).
Proof.
  assert (Hr : is_ok (GenerateWithReality entrance_snapshot gen_plain (Some (MkLive entrance_runtime ["203.0.113.9/32"]))) = true)
    by (vm_compute; reflexivity).
  unfold entrance_options. split.
  - apply is_ok_Ok in Hr as [o Ho]. by rewrite Ho.
  - vm_compute. by eexists.
Qed.

Lemma entrance_ok : snapshot_ok entrance_snapshot /\ clients_ok entrance_snapshot entrance_runtime.
Proof.
  split; [destruct gen_snapshot_ok as [H1 H2]; by split|]. split.
  - apply (bool_decide_eq_true_1 (NoDup (map p_id gen_peers))). by vm_compute.
  - intros p q a Hp Hq Ha Hb. change (sn_peers entrance_snapshot) with gen_peers in Hp, Hq. unfold gen_peers in Hp, Hq.
    apply elem_of_cons in Hp as [->|[->|[]%elem_of_nil]%elem_of_cons];
    apply elem_of_cons in Hq as [->|[->|[]%elem_of_nil]%elem_of_cons]; try done;
    vm_compute in Ha, Hb; congruence.
  - intros u [->|[]%elem_of_nil]%elem_of_cons. by repeat split.
Qed.

(** A connection through the entrance to a host name that belongs to a list of
    sets. *)
Definition entrance_conn (user : string) (version : option Z) (sets : list string) : conn :=
  MkConn TagRealityIn user (fun _ t => bool_decide (t ∈ sets)) (fun _ => false) (fun _ _ => false) version 443
    (fun _ _ => false) "tcp".

(** [names_projected], computed. *)
Definition projected_now (sn : SnapshotT) (plain : PlainLists) (c : conn) (s : stage) : bool :=
  forallb (fun r => let b := buildRuleSets r plain in
    let early := existsb (c.(cn_set) arrival) b.(rs_dns) in let late := existsb (c.(cn_set) s) b.(rs_route) in
    implb early late && (b.(rs_addr) || implb late early)) sn.(sn_rules).
Lemma projected_true sn plain c s : projected_now sn plain c s = true -> names_projected sn plain c s.
Proof.
  unfold projected_now. rewrite forallb_forall. intros H r Hr. cbv zeta. specialize (H r (proj1 (list_elem_of_In _ _) Hr)).
  cbv zeta in H. apply andb_true_iff in H as [H1 H2]. split.
  - intros He. by rewrite He in H1.
  - intros Ha Hl. rewrite Ha, Hl in H2. exact H2.
Qed.

Lemma Reality_routes_witness :
  let decide_conn c := decide_x entrance_options.(ro_routes) entrance_options.(ro_base).(op_final) arrival c in
  decide_conn (entrance_conn "client-mallory" (Some 4) []) = XReject /\
  decide_conn (entrance_conn "client-alice" (Some 4) ["rule-r1"]) = XRoute "chain-warp-via-vl" /\
  decide_conn (entrance_conn "client-alice" None ["rule-r2"; "rule-r2-dns"]) = XReject.
Proof.
  destruct entrance_ok as [H1 H2], entrance_generates as [H3 H4].
  destruct (Reality_routes _ _ _ _ _ H1 H2 H3 H4) as (peers & Hp & _ & Hno & Hyes).
  assert (Hq : Ok peers = Ok gen_addresses) by (rewrite <- Hp; apply gen_peer_addresses). injection Hq as ->.
  assert (Halice : forall version sets, version ∈ [None; Some 4; Some 6] ->
    (version = None -> names_projected entrance_snapshot gen_plain (entrance_conn "client-alice" version sets)
       (rules_stage (entrance_conn "client-alice" version sets) (any_rule entrance_snapshot gen_plain gen_addresses))) ->
    decide_x entrance_options.(ro_routes) entrance_options.(ro_base).(op_final) arrival (entrance_conn "client-alice" version sets) =
    reality_policy entrance_snapshot gen_plain gen_addresses ["203.0.113.9/32"] (entrance_conn "client-alice" version sets) "10.8.0.2/32").
  { intros version sets Hv Hn. apply (Hyes _ (nth 0 gen_peers sample_alice)); [reflexivity|by left|by left|reflexivity| |exact Hv|exact Hn].
    vm_compute. reflexivity. }
  cbv zeta. split; [|split].
  - apply Hno; [done|]. change (map ru_name (rr_users entrance_runtime)) with ["client-alice"%string].
    by intros ?%list_elem_of_singleton.
  - rewrite Halice; [vm_compute; reflexivity| |done]. right. by left.
  - rewrite Halice; [vm_compute; reflexivity|by left|]. intros _. apply projected_true. vm_compute. reflexivity.
Defined.

Lemma Reality_dns_witness :
  let answer x := decide_xdns entrance_options.(ro_dns) entrance_options.(ro_base).(op_dns).(do_final) x in
  let query t := MkQuery t (fun _ => false) (fun s => bool_decide (s = "rule-r0-dns"%string)) (fun _ => false) in
  answer (MkXQuery TagRealityIn "client-alice" (query 28)) = DNSReject /\
  answer (MkXQuery TagRealityIn "client-alice" (query 1)) = DNSRoute TagDNSFakeIP (Some fakeIPTTL) false.
Proof.
  destruct entrance_ok as [H1 H2], entrance_generates as [H3 H4].
  destruct (Reality_dns _ _ _ _ _ H1 H2 H3 H4) as (peers & Hp & _ & Hyes).
  assert (Hq : Ok peers = Ok gen_addresses) by (rewrite <- Hp; apply gen_peer_addresses). injection Hq as ->.
  cbv zeta. split; (erewrite (Hyes _ (nth 0 gen_peers sample_alice)); [|reflexivity|by left|by left|reflexivity|vm_compute; reflexivity]);
    vm_compute; reflexivity.
Defined.
