(* ===== verification/Apply.v ===== *)
(** * Application of a configuration

    [internal/singbox/apply.go], [apply_exec.go] and [pool_reject.go]: the
    configuration is generated, checked by the runtime in a temporary file,
    renamed over the published one and the service restarted.  A pool member
    that the runtime refuses is dropped and the configuration built again. *)

From Stdlib Require Import Ascii.
From S2P Require Import Prelude GoStd Model GoJson Db Wf SettingsStore RealityStore PoolFilter SingBox Generate Reality.
#[local] Open Scope Z_scope.

(** ** What the runtime says *)

(** [strings.TrimSpace] of the first [maxToolOutput] bytes. *)
Definition maxToolOutput : nat := 2048.
Fixpoint take_string (n : nat) (s : string) : string :=
  match n, s with
  | S n, String c s => String c (take_string n s)
  | _, _ => EmptyString
  end.
Definition trimOutput (out : string) : string := TrimSpace (take_string maxToolOutput out).

(** [sing-box check]: accepted, or refused with an output and an exit error. *)
Inductive CheckRun := Accepted | Refused (output exit : string).
Definition ErrCheckFailed : string := "конфиг sing-box не прошёл проверку".

(** [BinaryChecker.Check]: the text of its error. *)
Definition Check_ (run : CheckRun) : option string :=
  match run with
  | Accepted => None
  | Refused out exit =>
      let detail := trimOutput out in
      Some (ErrCheckFailed +:+ ": " +:+ (if decide (detail <> EmptyString) then detail else exit))
  end.

(** The longest run of digits and what follows it. *)
Fixpoint span_digits (s : string) : string * string :=
  match s with
  | String c s' => if Json.is_digit c then let p := span_digits s' in (String c p.1, p.2) else (EmptyString, s)
  | EmptyString => (EmptyString, EmptyString)
  end.

(** [initIndexRe] at the beginning of a text, and leftmost in it: the kind of
    the object and the digits of its index. *)
Definition match_init (s : string) : option (string * string) :=
  rest ← strip_prefix "initialize " s;
  '(kind, rest) ← match strip_prefix "outbound" rest with
                  | Some rest => Some ("outbound"%string, rest)
                  | None => rest ← strip_prefix "endpoint" rest; Some ("endpoint"%string, rest)
                  end;
  rest ← strip_prefix "[" rest;
  let '(digits, rest) := span_digits rest in
  if decide (digits = EmptyString) then None
  else _ ← strip_prefix "]" rest; Some (kind, digits).
Fixpoint initIndexRe (s : string) : option (string * string) :=
  match match_init s with
  | Some m => Some m
  | None => match s with String _ s => initIndexRe s | EmptyString => None end
  end.

(** ** Refused pool members *)

(** [rejectedMember], without what is only logged. *)
Record rejectedMember := MkRejected { rm_tunnel : string; rm_url : string }.

Section reject.
Context `{PoolPolicy} `{PoolSource}.

(** [poolMembersByTag] *)
Definition members_of (countries : list string) (m : gmap string rejectedMember) (t : Tunnel) : gmap string rejectedMember :=
  if decide (t.(t_enabled) = false \/ t.(t_source) <> SourcePool) then m
  else foldl (fun m p => <[poolMemberTag t.(t_id) p.1 := MkRejected t.(t_id) p.2.(ps_url)]> m) m
         (enum 0 (selectPoolServers t.(t_pool) countries)).
Definition poolMembersByTag (sn : SnapshotT) : gmap string rejectedMember :=
  foldl (members_of sn.(sn_settings).(s_blocklist)) ∅ sn.(sn_tunnels).

(** [rejectedPoolMember] *)
Definition rejectedPoolMember (outbounds : list Outbound) (sn : SnapshotT) (text : string) : option rejectedMember :=
  '(kind, digits) ← initIndexRe text;
  if decide (kind <> "outbound"%string) then None
  else
    idx ← Atoi digits;
    if decide (idx < 0 \/ Z.of_nat (length outbounds) <= idx) then None
    else ob ← outbounds !! Z.to_nat idx; poolMembersByTag sn !! ob.(ob_tag).
End reject.

(** [withoutPoolServer]: only the first tunnel with this identifier. *)
Definition without_server (url : string) (t : Tunnel) : Tunnel :=
  MkTunnel t.(t_id) t.(t_name) t.(t_type) t.(t_source) t.(t_raw) t.(t_parsed) t.(t_enabled) t.(t_created)
    (filter (fun s => s.(ps_url) <> url) t.(t_pool)) t.(t_pool_updated) t.(t_builtin) t.(t_country).
Fixpoint prune_tunnels (id url : string) (l : list Tunnel) : list Tunnel :=
  match l with
  | [] => []
  | t :: l => if decide (t.(t_id) <> id) then t :: prune_tunnels id url l else without_server url t :: l
  end.
Definition with_tunnels (l : list Tunnel) (sn : SnapshotT) : SnapshotT :=
  MkSnapshot sn.(sn_settings) l sn.(sn_rules) sn.(sn_peers) sn.(sn_identity) sn.(sn_admissions).
Definition withoutPoolServer (sn : SnapshotT) (id url : string) : SnapshotT :=
  with_tunnels (prune_tunnels id url sn.(sn_tunnels)) sn.

(** [poolServerCount] *)
Definition pool_size (t : Tunnel) : nat := if decide (t.(t_source) = SourcePool) then length t.(t_pool) else 0.
Definition poolServerCount (sn : SnapshotT) : nat := sum_list_with pool_size sn.(sn_tunnels).

(** ** Files *)

(** The published file and the temporary files beside it. *)
Record Disk := MkDisk { dk_config : option string; dk_temps : gmap string string }.

Inductive ApplyError :=
  | ErrGenerateFailed (e : error)
  | CheckFailed (text : string)
  | ErrReloadFailed
  | EDisk (what : string).

#[export] Instance ApplyError_eq_dec : EqDecision ApplyError.
Proof. solve_decision. Defined.

(** What the system answers during one pass of the loop: is the published file
    unreadable, can the directory be made, the name [os.CreateTemp] takes, what
    a failed write leaves in the file, do removals work, and the verdict. *)
Record Pass := MkPass {
  pa_unreadable : bool;
  pa_mkdir : bool;
  pa_name : option string;
  pa_partial : option string;
  pa_remove : bool;
  pa_check : CheckRun
}.

(** [sameOnDisk] *)
Definition sameOnDisk (p : Pass) (data : string) (d : Disk) : ApplyError + bool :=
  if p.(pa_unreadable) then inl (EDisk "read configuration") else inr (bool_decide (d.(dk_config) = Some data)).

(** [os.Remove], its error ignored. *)
Definition remove (works : bool) (name : string) (d : Disk) : Disk :=
  if works then MkDisk d.(dk_config) (delete name d.(dk_temps)) else d.

(** [writeTemp]; [os.CreateTemp] never takes a name that exists. *)
Definition writeTemp (p : Pass) (data : string) (d : Disk) : (ApplyError + string) * Disk :=
  match p.(pa_name) with
  | None => (inl (EDisk "create temporary file"), d)
  | Some name =>
      if decide (is_Some (d.(dk_temps) !! name)) then (inl (EDisk "create temporary file"), d)
      else match p.(pa_partial) with
           | Some part => (inl (EDisk "write temporary file"),
                           remove p.(pa_remove) name (MkDisk d.(dk_config) (<[name := part]> d.(dk_temps))))
           | None => (inr name, MkDisk d.(dk_config) (<[name := data]> d.(dk_temps)))
           end
  end.

(** [Prepared]: the temporary file it owns. *)
Record Prepared := MkPrepared { pr_temporary : option string }.
Definition Changed (pr : Prepared) : bool := bool_decide (is_Some pr.(pr_temporary)).
(** [Prepared.ConfigData]: [None] when the file cannot be read. *)
Definition ConfigData (pr : Prepared) (d : Disk) : option string :=
  match pr.(pr_temporary) with Some tmp => d.(dk_temps) !! tmp | None => d.(dk_config) end.
Inductive Outcome := Finished (r : ApplyError + Prepared) | Retry (sn : SnapshotT).

Section prepare.
Context `{Platform} `{PoolPolicy} `{PoolSource}.

(** [Marshal]: the encoder of the sing-box options. *)
Variable Marshal : RealityOptions -> result string.
Variables (plain : PlainLists) (live : option Live).

Definition candidate (sn : SnapshotT) : result (RealityOptions * string) :=
  opts ← GenerateWithReality sn plain live; data ← Marshal opts; Ok (opts, data).

(** One pass of the loop of [prepare]; [more] is [drop < maxDrops]. *)
Definition pass (forceCheck more : bool) (p : Pass) (sn : SnapshotT) (d : Disk) : Outcome * Disk :=
  match candidate sn with
  | Err e => (Finished (inl (ErrGenerateFailed e)), d)
  | Ok (opts, data) =>
      match sameOnDisk p data d with
      | inl e => (Finished (inl e), d)
      | inr same =>
          if same && negb forceCheck then (Finished (inr (MkPrepared None)), d)
          else if negb p.(pa_mkdir) then (Finished (inl (EDisk "create configuration directory")), d)
          else match writeTemp p data d with
          | (inl e, d) => (Finished (inl e), d)
          | (inr tmp, d) =>
              match Check_ p.(pa_check) with
              | Some text =>
                  let d := remove p.(pa_remove) tmp d in
                  match rejectedPoolMember opts.(ro_base).(op_outbounds) sn text with
                  | Some m => if more then (Retry (withoutPoolServer sn m.(rm_tunnel) m.(rm_url)), d)
                              else (Finished (inl (CheckFailed text)), d)
                  | None => (Finished (inl (CheckFailed text)), d)
                  end
              | None =>
                  if same then (Finished (inr (MkPrepared None)), remove p.(pa_remove) tmp d)
                  else (Finished (inr (MkPrepared (Some tmp))), d)
              end
          end
      end
  end.

(** The loop of [prepare]: [None] when the fuel runs out. *)
Fixpoint prepare_from (fuel : nat) (forceCheck : bool) (maxDrops drop : nat) (passes : nat -> Pass)
  (sn : SnapshotT) (d : Disk) : option ((ApplyError + Prepared) * Disk) :=
  match fuel with
  | O => None
  | S fuel =>
      match pass forceCheck (bool_decide (drop < maxDrops)%nat) (passes drop) sn d with
      | (Finished r, d) => Some (r, d)
      | (Retry sn, d) => prepare_from fuel forceCheck maxDrops (S drop) passes sn d
      end
  end.
Definition prepare (fuel : nat) (forceCheck : bool) (passes : nat -> Pass) (sn : SnapshotT) (d : Disk) :=
  prepare_from fuel forceCheck (poolServerCount sn) 0 passes sn d.

(** ** Publication *)

(** The disk and the configuration the service runs, if it runs. *)
Record System := MkSystem { sy_disk : Disk; sy_running : option string }.
Record CommitAnswers := MkCommitAnswers { ca_rename : bool; ca_sync : bool; ca_reload : bool; ca_remove : bool }.
Record ApplyResult := MkApplyResult { ar_changed : bool; ar_reloaded : bool }.

(** The second half of [Prepared.Commit]. *)
Definition reload (a : CommitAnswers) (changed force : bool) (s : System) : ApplyResult * option ApplyError * System :=
  if negb (changed || force) then (MkApplyResult changed false, None, s)
  else if negb a.(ca_sync) then (MkApplyResult changed false, Some (EDisk "sync configuration directory"), s)
  else if negb a.(ca_reload) then (MkApplyResult changed false, Some ErrReloadFailed, MkSystem s.(sy_disk) None)
  else (MkApplyResult changed true, None, MkSystem s.(sy_disk) s.(sy_disk).(dk_config)).

(** [Prepared.Commit]: the result, the error and what [Prepared] still owns. *)
Definition Commit (a : CommitAnswers) (force : bool) (pr : Prepared) (s : System)
  : ApplyResult * option ApplyError * Prepared * System :=
  match pr.(pr_temporary) with
  | None => let '(res, err, s) := reload a false force s in (res, err, pr, s)
  | Some tmp =>
      match s.(sy_disk).(dk_temps) !! tmp with
      | Some data =>
          if a.(ca_rename) then
            let '(res, err, s) := reload a true force
              (MkSystem (MkDisk (Some data) (delete tmp s.(sy_disk).(dk_temps))) s.(sy_running)) in
            (res, err, MkPrepared None, s)
          else (MkApplyResult false false, Some (EDisk "publish configuration"), pr, s)
      | None => (MkApplyResult false false, Some (EDisk "publish configuration"), pr, s)
      end
  end.

(** [Prepared.Close] *)
Definition Close (a : CommitAnswers) (pr : Prepared) (s : System) : System :=
  match pr.(pr_temporary) with
  | Some tmp => MkSystem (remove a.(ca_remove) tmp s.(sy_disk)) s.(sy_running)
  | None => s
  end.

(** A preparation, its commit and the deferred [Close]: [Applier.Apply] when
    neither flag is set, the recovery of the daemon when both are. *)
Definition publish (fuel : nat) (forceCheck force : bool) (passes : nat -> Pass) (a : CommitAnswers)
  (sn : SnapshotT) (s : System) : option (ApplyResult * option ApplyError * System) :=
  match prepare fuel forceCheck passes sn s.(sy_disk) with
  | None => None
  | Some (inl e, d) => Some (MkApplyResult false false, Some e, MkSystem d s.(sy_running))
  | Some (inr pr, d) =>
      let '(res, err, pr, s) := Commit a force pr (MkSystem d s.(sy_running)) in
      Some (res, err, Close a pr s)
  end.
Definition Apply (fuel : nat) := publish fuel false false.
End prepare.
