(* ===== verification/ApplySpec.v ===== *)
(** * What application promises

    The loop of [prepare] ends and drops only pool members that the runtime
    named; a commit publishes only what the runtime accepted. *)

From Stdlib Require Import Ascii DecimalString DecimalZ DecimalPos.
From S2P Require Import Prelude GoStd Model GoJson Db Wf SettingsStore RealityStore PoolFilter SingBox Generate GenerateSpec Reality Apply.
#[local] Open Scope Z_scope.

(** ** Tags of pool members *)
Lemma dash_cons x s : ContainsByte (String x s) "-" = bool_decide (x = "-"%char) || ContainsByte s "-".
Proof.
  unfold ContainsByte. simpl. destruct (decide (x = "-"%char)) as [->|Hx].
  - by rewrite bool_decide_eq_true_2.
  - rewrite bool_decide_eq_false_2 by done. simpl. by destruct (Cut s "-") as [[]|].
Qed.

Lemma dash_app a b : ContainsByte (a +:+ b) "-" = ContainsByte a "-" || ContainsByte b "-".
Proof. induction a as [|x a IH]; [done|]. 
  change (String x a +:+ b) with (String x (a +:+ b)). rewrite !dash_cons, IH. apply orb_assoc. Qed.

Lemma dash_between a x : ContainsByte (a +:+ String "-" x) "-" = true.
Proof. rewrite dash_app, dash_cons. apply orb_true_r. Qed.

(** The text before the last dash and the text after it. *)
Lemma last_dash a b x y :
  ContainsByte x "-" = false -> ContainsByte y "-" = false -> a +:+ String "-" x = b +:+ String "-" y -> a = b /\ x = y.
Proof.
  intros Hx Hy. revert b. induction a as [|c a IH]; intros [|c' b] H; cbv [String.append] in H; fold String.append in H.
  - by injection H as ->.
  - injection H as <- ->. by rewrite dash_between in Hx.
  - injection H as -> <-. by rewrite dash_between in Hy.
  - injection H as -> H. by destruct (IH b H) as [-> ->].
Qed.

Lemma uint_no_dash u : ContainsByte (NilEmpty.string_of_uint u) "-" = false.
Proof. induction u; [done|..]; cbn [NilEmpty.string_of_uint]; by rewrite dash_cons, IHu. Qed.

Lemma Itoa_no_dash i : ContainsByte (Itoa (Z.of_nat i)) "-" = false.
Proof.
  unfold Itoa. assert (Hu : exists u, Z.to_int (Z.of_nat i) = Decimal.Pos u).
  { destruct (Z.of_nat i) as [|p|p] eqn:E; [by eexists..|lia]. }
  destruct Hu as [u ->]. simpl. unfold NilZero.string_of_uint.
  destruct u; try apply uint_no_dash. done.
Qed.

Lemma Itoa_inj i j : Itoa (Z.of_nat i) = Itoa (Z.of_nat j) -> i = j.
Proof.
  unfold Itoa. intros H. apply (f_equal NilZero.int_of_string) in H.
  assert (Hz : forall z, NilZero.int_of_string (NilZero.string_of_int (Z.to_int z)) = Some (Z.to_int z)).
  { intros z. apply NilZero.isi; destruct z as [|p|p]; simpl; try done; intros [=]; by apply (DecimalPos.Unsigned.to_uint_nonnil p). }
  rewrite !Hz in H. injection H as H. apply (f_equal Z.of_int) in H. rewrite !DecimalZ.of_to in H. lia.
Qed.

Lemma TunnelTag_inj a b : TunnelTag a = TunnelTag b -> a = b.
Proof. intros H. by injection H. Qed.

Lemma poolMemberTag_inj id id' i j : poolMemberTag id i = poolMemberTag id' j -> id = id' /\ i = j.
Proof.
  unfold poolMemberTag, TunnelTag. intros H.
  apply (last_dash _ _ _ _ (Itoa_no_dash i) (Itoa_no_dash j)) in H as [H1 H2]. split; [by apply TunnelTag_inj|by apply Itoa_inj].
Qed.

(** ** Where outbounds come from *)
Section origin.
Context `{Platform} `{PoolPolicy} `{PoolSource}.

(** The [i]-th server in the window of an enabled pool of the snapshot. *)
Definition pool_server (sn : SnapshotT) (t : Tunnel) (i : nat) (s : PoolServer) : Prop :=
  t ∈ sn.(sn_tunnels) /\ t.(t_enabled) = true /\ t.(t_source) = SourcePool /\
  selectPoolServers t.(t_pool) sn.(sn_settings).(s_blocklist) !! i = Some s.

Lemma foldl_inv {A B} (P : B -> Prop) (f : B -> A -> B) l b :
  P b -> (forall b x, x ∈ l -> P b -> P (f b x)) -> P (foldl f b l).
Proof.
  revert b. induction l as [|x l IH]; intros b Hb Hf; [done|]. apply IH; [apply Hf; [by left|done]|].
  intros b' y Hy. apply Hf. by right.
Qed.

Lemma members_lookup sn tag m :
  poolMembersByTag sn !! tag = Some m ->
  exists t i s, pool_server sn t i s /\ tag = poolMemberTag t.(t_id) i /\ m = MkRejected t.(t_id) s.(ps_url).
Proof.
  unfold poolMembersByTag. revert tag m. apply foldl_inv; [intros tag m Hm; by rewrite lookup_empty in Hm|].
  intros b t Ht Hb. unfold members_of. case_decide as Hd; [done|]. apply foldl_inv; [done|].
  intros b' [i s] Hi Hb' tag m [[<- <-]|[_ Hm]]%lookup_insert_Some; [|by apply Hb'].
  apply elem_of_enum in Hi as [_ Hi]. rewrite Nat.sub_0_r in Hi. exists t, i, s. split; [|done].
  destruct (t_enabled t) eqn:He; [|naive_solver]. destruct (decide (t_source t = SourcePool)); [|naive_solver]. done.
Qed.

(** The outbounds of a candidate: the direct one, those of tunnels, those of
    pool members and the selectors in front of WireGuard parents. *)
Definition outbound_origin (sn : SnapshotT) (ob : Outbound) : Prop :=
  ob.(ob_tag) = TagDirect \/
  (exists t, t ∈ sn.(sn_tunnels) /\ ob.(ob_tag) = TunnelTag t.(t_id)) \/
  (exists t i s, pool_server sn t i s /\ pool_member t.(t_id) (i, s) = Some ob) \/
  (exists parent, ob.(ob_tag) = wireGuardParentTag parent).

Lemma buildTunnels_origin sn built ob :
  buildTunnels sn.(sn_tunnels) sn.(sn_settings).(s_blocklist) = Ok built -> ob ∈ built.(tu_outbounds) -> outbound_origin sn ob.
Proof.
  intros Hb. revert ob. revert Hb. unfold buildTunnels.
  apply (fold_result_inv _ (fun _ b => forall ob, ob ∈ tu_outbounds b -> outbound_origin sn ob)); [by intros ob ?%elem_of_nil|].
  intros seen t b b' Hinv Ht. unfold add_tunnel. destruct (t_enabled t) eqn:He; [|intros [= <-]; exact Hinv]. cbn [negb].
  case_decide as Hs.
  - unfold buildPool. case_decide as Hout; intros [= <-]; [exact Hinv|]. cbn [tu_outbounds].
    intros ob [Hob|[Hob|Hob]%elem_of_app]%elem_of_app; [by apply Hinv| |].
    + apply list_elem_of_omap in Hob as ([i s] & Hi & Hm). apply elem_of_enum in Hi as [_ Hi]. rewrite Nat.sub_0_r in Hi.
      right; right; left. by exists t, i, s.
    + apply list_elem_of_singleton in Hob as ->. right; left. by exists t.
  - intros ([typ body] & _ & Hr)%result_bind_Ok. case_decide; injection Hr as <-; cbn [tu_outbounds]; [exact Hinv|].
    intros ob [Hob| ->%list_elem_of_singleton]%elem_of_app; [by apply Hinv|]. right; left. by exists t.
Qed.

Lemma stabilize_origin eps obs eps' obs' ob :
  stabilizeWireGuardDetours eps obs = Ok (eps', obs') -> ob ∈ obs' ->
  ob ∈ obs \/ exists parent, ob.(ob_tag) = wireGuardParentTag parent.
Proof.
  unfold stabilizeWireGuardDetours. intros (acc & Hf & Hr)%result_bind_Ok. injection Hr as _ <-. revert ob. revert Hf.
  apply (fold_result_inv _ (fun _ a => forall ob, ob ∈ al_outbounds a -> ob ∈ obs \/ exists parent, ob_tag ob = wireGuardParentTag parent));
    [by left|]. intros seen ep a a' Hinv _. unfold alias_step.
  destruct (decide (ep_type ep <> TypeWireGuard)); [intros [= <-]; exact Hinv|].
  destruct (decode_peer (ep_body ep)) as [[detour ps]|]; [|done]. destruct (_ || _); [intros [= <-]; exact Hinv|]. cbv zeta.
  destruct (list_find _ _) as [[? []]|]; [intros [= <-]; exact Hinv|]. case_decide; [done|]. intros [= <-]. cbn [al_outbounds].
  intros ob [Hob| ->%list_elem_of_singleton]%elem_of_app; [by apply Hinv|]. right. by exists detour.
Qed.

Lemma policy_origin sn plain opts diags plan ob :
  generatePolicyWithPlan sn plain = Ok (opts, diags, plan) -> ob ∈ opts.(op_outbounds) -> outbound_origin sn ob.
Proof.
  unfold generatePolicyWithPlan. intros (built & Hb & Hg)%result_bind_Ok.
  apply result_bind_Ok in Hg as (peers & _ & Hg). apply result_bind_Ok in Hg as (dns & _ & Hg).
  apply result_bind_Ok in Hg as ([egress dns'] & _ & Hg). apply result_bind_Ok in Hg as (acc & _ & Hg).
  apply result_bind_Ok in Hg as (chained & _ & Hg). apply result_bind_Ok in Hg as ([eps obs] & Hst & Hg).
  apply result_bind_Ok in Hg as (dnsIn & _ & Hg). apply result_bind_Ok in Hg as (tproxyIn & _ & Hg).
  injection Hg as <- _ _. cbn [op_outbounds]. intros [->|Hob]%elem_of_cons; [by left|].
  apply (stabilize_origin _ _ _ _ _ Hst) in Hob as [Hob|Hob]; [|by right; right; right]. by eapply buildTunnels_origin.
Qed.

Lemma reality_base sn plain live opts :
  GenerateWithReality sn plain live = Ok opts ->
  exists diags plan, generatePolicyWithPlan sn plain = Ok (opts.(ro_base), diags, plan).
Proof.
  unfold GenerateWithReality. intros ([[base diags] plan] & Hg & Hr)%result_bind_Ok. exists diags, plan. rewrite Hg. clear Hg.
  assert (Heq : ro_base opts = base); [|by rewrite Heq].
  destruct (negb _); [by injection Hr as <-|]. destruct live as [[rt local]|]; [|done].
  destruct (rr_identity rt); [|by injection Hr as <-]. case_decide; [by injection Hr as <-|]. case_decide; [done|].
  destruct (ParseAddr _); [|done]. apply result_bind_Ok in Hr as ([byPeer names] & _ & Hr).
  apply result_bind_Ok in Hr as (? & _ & Hr). apply result_bind_Ok in Hr as (? & _ & Hr). by injection Hr as <-.
Qed.
End origin.

(** ** Dropping *)

(** No identifier of a tunnel is that of another one followed by an index. *)
Definition ids_apart (sn : SnapshotT) : Prop :=
  NoDup (map t_id sn.(sn_tunnels)) /\
  forall t t' i, t ∈ sn.(sn_tunnels) -> t' ∈ sn.(sn_tunnels) -> t'.(t_id) <> t.(t_id) +:+ "-" +:+ Itoa (Z.of_nat i).

(** The same snapshot but for pool servers that are gone from enabled pools. *)
Definition thinned (t t' : Tunnel) : Prop :=
  t' = t \/ (t.(t_enabled) = true /\ t.(t_source) = SourcePool /\
    exists pool, pool `sublist_of` t.(t_pool) /\
      t' = MkTunnel t.(t_id) t.(t_name) t.(t_type) t.(t_source) t.(t_raw) t.(t_parsed) t.(t_enabled) t.(t_created) pool
             t.(t_pool_updated) t.(t_builtin) t.(t_country)).
Definition fewer_servers (sn sn' : SnapshotT) : Prop :=
  sn' = with_tunnels sn'.(sn_tunnels) sn /\ Forall2 thinned sn.(sn_tunnels) sn'.(sn_tunnels).

Lemma thinned_id t t' : thinned t t' -> t'.(t_id) = t.(t_id).
Proof. by intros [->|(_ & _ & pool & _ & ->)]. Qed.
Lemma thinned_trans t t' t'' : thinned t t' -> thinned t' t'' -> thinned t t''.
Proof.
  intros [->|(He & Hs & pool & Hp & ->)] [->|(He' & Hs' & pool' & Hp' & ->)]; [by left| | |].
  - right. split_and!; [done..|]. by exists pool'.
  - right. split_and!; [done..|]. by exists pool.
  - right. split_and!; [done..|]. exists pool'. split; [|done]. by etrans.
Qed.
Lemma fewer_servers_refl sn : fewer_servers sn sn.
Proof. split; [by destruct sn|]. apply Forall_Forall2_diag, Forall_forall. by left. Qed.
Lemma fewer_servers_trans sn sn' sn'' : fewer_servers sn sn' -> fewer_servers sn' sn'' -> fewer_servers sn sn''.
Proof.
  intros [H1 H2] [H3 H4]. split; [by rewrite H3, H1|].
  eapply Forall2_trans; [exact thinned_trans|exact H2|exact H4].
Qed.
Lemma fewer_ids sn sn' : fewer_servers sn sn' -> map t_id sn'.(sn_tunnels) = map t_id sn.(sn_tunnels).
Proof. intros [_ Hf]. induction Hf as [|t t' l l' Ht _ IH]; [done|]. cbn [map]. by rewrite IH, (thinned_id _ _ Ht). Qed.

Lemma fewer_apart sn sn' : fewer_servers sn sn' -> ids_apart sn -> ids_apart sn'.
Proof.
  intros Hf [Hn Ha]. pose proof (fewer_ids _ _ Hf) as Hids. split; [by rewrite Hids|].
  assert (Hin : forall t, t ∈ sn_tunnels sn' -> exists t0, t0 ∈ sn_tunnels sn /\ t_id t0 = t_id t).
  { intros t Ht. apply (list_elem_of_fmap_2 t_id) in Ht. change (t_id <$> sn_tunnels sn') with (map t_id (sn_tunnels sn')) in Ht.
    rewrite Hids in Ht. apply list_elem_of_fmap in Ht as (t0 & ? & ?). by exists t0. }
  intros t t' i (t0 & Ht0 & <-)%Hin (t1 & Ht1 & <-)%Hin. by apply Ha.
Qed.

Lemma prune_tunnels_spec l t url :
  NoDup (map t_id l) -> t ∈ l -> t.(t_enabled) = true -> t.(t_source) = SourcePool ->
  Forall2 thinned l (prune_tunnels t.(t_id) url l) /\
  ((exists s, s ∈ t.(t_pool) /\ s.(ps_url) = url) ->
   (sum_list_with pool_size (prune_tunnels t.(t_id) url l) < sum_list_with pool_size l)%nat).
Proof.
  intros Hn Ht He Hs. induction l as [|x l IH]; [by apply elem_of_nil in Ht|].
  cbn [map] in Hn. apply NoDup_cons in Hn as [Hx Hn]. cbn [prune_tunnels]. case_decide as Hid.
  - apply elem_of_cons in Ht as [->|Ht]; [done|]. destruct (IH Hn Ht) as [H1 H2]. split; [by constructor; [left|]|].
    intros Hex. specialize (H2 Hex). cbn [sum_list_with]. lia.
  - assert (x = t) as ->.
    { apply elem_of_cons in Ht as [->|Ht]; [done|]. destruct Hx. rewrite Hid. by apply list_elem_of_fmap_2. }
    split.
    + constructor; [|apply Forall_Forall2_diag, Forall_forall; by left]. right. split_and!; [done..|].
      eexists. split; [|reflexivity]. apply sublist_filter.
    + intros (s & Hin & Hu). cbn [sum_list_with]. unfold pool_size. cbn [without_server t_source t_pool]. rewrite Hs, !decide_True by done.
      assert ((length (filter (fun s => ps_url s <> url) (t_pool t)) < length (t_pool t))%nat); [|lia].
      apply length_filter_lt with s; naive_solver.
Qed.

(** The same snapshot, but the tunnel [id] has lost the servers with this link
    from its pool, and nothing else. *)
Definition loses (id url : string) (sn sn' : SnapshotT) : Prop :=
  sn'.(sn_settings) = sn.(sn_settings) /\ sn'.(sn_rules) = sn.(sn_rules) /\ sn'.(sn_peers) = sn.(sn_peers) /\
  sn'.(sn_identity) = sn.(sn_identity) /\ sn'.(sn_admissions) = sn.(sn_admissions) /\
  Forall2 (fun t t' =>
    if decide (t.(t_id) = id) then
      t' = MkTunnel t.(t_id) t.(t_name) t.(t_type) t.(t_source) t.(t_raw) t.(t_parsed) t.(t_enabled) t.(t_created) t'.(t_pool)
             t.(t_pool_updated) t.(t_builtin) t.(t_country) /\
      t'.(t_pool) = filter (fun s => s.(ps_url) <> url) t.(t_pool)
    else t' = t) sn.(sn_tunnels) sn'.(sn_tunnels).
Lemma withoutPoolServer_loses sn id url : NoDup (map t_id sn.(sn_tunnels)) -> loses id url sn (withoutPoolServer sn id url).
Proof.
  intros Hn. do 5 (split; [done|]). cbn [withoutPoolServer with_tunnels sn_tunnels]. revert Hn.
  induction (sn_tunnels sn) as [|t l IH]; [constructor|]. cbn [map]. intros [Ht Hn]%NoDup_cons. cbn [prune_tunnels]. case_decide as Hid.
  - constructor; [by rewrite decide_False|by apply IH].
  - subst id. constructor; [by rewrite decide_True|].
    apply Forall_Forall2_diag, Forall_forall. intros x Hx. rewrite decide_False; [done|]. intros He. apply Ht. rewrite <- He. by apply list_elem_of_fmap_2.
Qed.

(** What drops [s] from the pool [t] and why: the runtime refused the candidate
    and named the outbound that was made of this server. *)
Section drops.
Context `{Platform} `{PoolPolicy} `{PoolSource}.
Variable Marshal : RealityOptions -> result string.
Variables (plain : PlainLists) (live : option Live).

Definition blames (sn : SnapshotT) (run : CheckRun) (t : Tunnel) (s : PoolServer) : Prop :=
  exists opts data text digits idx i ob,
    candidate Marshal plain live sn = Ok (opts, data) /\
    Check_ run = Some text /\ initIndexRe text = Some ("outbound"%string, digits) /\ Atoi digits = Some (Z.of_nat idx) /\
    opts.(ro_base).(op_outbounds) !! idx = Some ob /\
    pool_server sn t i s /\ pool_member t.(t_id) (i, s) = Some ob.

Lemma rejected_exact sn opts data run text m :
  ids_apart sn -> candidate Marshal plain live sn = Ok (opts, data) -> Check_ run = Some text ->
  rejectedPoolMember opts.(ro_base).(op_outbounds) sn text = Some m ->
  exists t s, blames sn run t s /\ m = MkRejected t.(t_id) s.(ps_url).
Proof.
  intros [Hn Ha] Hc Ht Hr. unfold rejectedPoolMember in Hr.
  destruct (initIndexRe text) as [[kind digits]|] eqn:Hi; [|done]. simpl in Hr.
  destruct (decide (kind <> "outbound"%string)) as [|Hk]; [done|]. apply dec_stable in Hk as ->.
  destruct (Atoi digits) as [z|] eqn:Hz; [|done]. simpl in Hr. case_decide as Hb; [done|].
  destruct (op_outbounds (ro_base opts) !! Z.to_nat z) as [ob|] eqn:Hob; [|done]. simpl in Hr.
  apply members_lookup in Hr as (t & i & s & Hs & Htag & ->).
  exists t, s. split; [|done]. exists opts, data, text, digits, (Z.to_nat z), i, ob.
  rewrite Z2Nat.id by lia. split_and!; try done.
  apply list_elem_of_lookup_2 in Hob. unfold candidate in Hc. apply result_bind_Ok in Hc as (o & Hg & Hc).
  apply result_bind_Ok in Hc as (d & _ & Hc). injection Hc as -> ->. apply reality_base in Hg as (diags & plan & Hg).
  destruct (policy_origin _ _ _ _ _ _ Hg Hob) as [Hd|[(t' & Ht' & Htt)|[(t' & j & s' & Hs' & Hm)|(parent & Hp)]]].
  - rewrite Htag in Hd. done.
  - rewrite Htag in Htt. destruct (Ha t t' i); [apply Hs|done|]. 
    change (TunnelTag (t_id t +:+ "-" +:+ Itoa (Z.of_nat i)) = TunnelTag (t_id t')) in Htt.
    by apply TunnelTag_inj in Htt as <-.
  - assert (Htag' : ob_tag ob = poolMemberTag (t_id t') j).
    { revert Hm. unfold pool_member. destruct (Parse _) as [[]|]; [|done..]. by intros [= <-]. }
    rewrite Htag in Htag'. apply poolMemberTag_inj in Htag' as [Hid ->].
    assert (t = t') as <-. { apply (NoDup_map_inj t_id (sn_tunnels sn)); [done|apply Hs|apply Hs'|done]. }
    destruct Hs as (_ & _ & _ & Hs), Hs' as (_ & _ & _ & Hs'). by rewrite Hs in Hs'; injection Hs' as <-.
  - rewrite Htag in Hp. done.
Qed.

(** The passes from [k] on, up to [n], each dropping one server. *)
Inductive drops (passes : nat -> Pass) : nat -> SnapshotT -> nat -> SnapshotT -> Prop :=
  | drops_done k sn : drops passes k sn k sn
  | drops_more k sn t s sn1 n sn' :
      blames sn (passes k).(pa_check) t s -> loses t.(t_id) s.(ps_url) sn sn1 ->
      drops passes (S k) sn1 n sn' ->
      drops passes k sn n sn'.

Lemma select_loop_sub countries pool seen uniq s :
  s ∈ select_loop countries pool seen uniq -> s ∈ uniq \/ s ∈ pool.
Proof.
  revert seen uniq. induction pool as [|x pool IH]; intros seen uniq Hs; [by left|]. cbn [select_loop] in Hs.
  case_decide; [apply IH in Hs; set_solver|]. case_decide; [set_solver|]. apply IH in Hs. set_solver.
Qed.

Lemma blames_thins sn run t s :
  ids_apart sn -> blames sn run t s ->
  fewer_servers sn (withoutPoolServer sn t.(t_id) s.(ps_url)) /\
  (poolServerCount (withoutPoolServer sn t.(t_id) s.(ps_url)) < poolServerCount sn)%nat.
Proof.
  intros [Hn _] (opts & data & text & digits & idx & i & ob & _ & _ & _ & _ & _ & (Ht & He & Hs & Hi) & _).
  apply list_elem_of_lookup_2, select_loop_sub in Hi as [Hi|Hi]; [by apply elem_of_nil in Hi|].
  destruct (prune_tunnels_spec _ t s.(ps_url) Hn Ht He Hs) as [HA HB].
  split; [by split|]. apply HB. by exists s.
Qed.

(** What one finished pass leaves, the disk before the loop being [d]. *)
Definition outcome (forceCheck : bool) (p : Pass) (sn : SnapshotT) (d : Disk) (out : ApplyError + Prepared) (d' : Disk) : Prop :=
  d'.(dk_config) = d.(dk_config) /\ d.(dk_temps) ⊆ d'.(dk_temps) /\
  match out with
  | inr pr => exists opts data, candidate Marshal plain live sn = Ok (opts, data) /\
      (p.(pa_check) = Accepted \/ (forceCheck = false /\ pr.(pr_temporary) = None)) /\
      match pr.(pr_temporary) with
      | Some tmp => d.(dk_config) <> Some data /\ d.(dk_temps) !! tmp = None /\ d'.(dk_temps) !! tmp = Some data
      | None => d.(dk_config) = Some data
      end
  | inl (CheckFailed text) => exists opts data, candidate Marshal plain live sn = Ok (opts, data) /\
      Check_ p.(pa_check) = Some text /\ rejectedPoolMember opts.(ro_base).(op_outbounds) sn text = None
  | inl (ErrGenerateFailed e) => candidate Marshal plain live sn = Err e
  | inl ErrReloadFailed => False
  | inl (EDisk _) => True
  end.
(** The temporary files that are not owned by the result. *)
Definition others (out : ApplyError + Prepared) (d : Disk) : gmap string string :=
  match out with inr (MkPrepared (Some tmp)) => delete tmp d.(dk_temps) | _ => d.(dk_temps) end.

Lemma remove_fresh works name part d :
  d.(dk_temps) !! name = None ->
  let d' := remove works name (MkDisk d.(dk_config) (<[name := part]> d.(dk_temps))) in
  d'.(dk_config) = d.(dk_config) /\ d.(dk_temps) ⊆ d'.(dk_temps) /\ (works = true -> d'.(dk_temps) = d.(dk_temps)).
Proof.
  intros Hn. destruct works; cbn [remove dk_config dk_temps].
  - rewrite delete_insert_id by done. by repeat split.
  - split; [done|]. split; [by apply insert_subseteq|done].
Qed.

Lemma pass_spec forceCheck more p sn d :
  ids_apart sn -> (more = true \/ poolServerCount sn = 0%nat) ->
  match pass Marshal plain live forceCheck more p sn d with
  | (Finished out, d') => outcome forceCheck p sn d out d' /\ (p.(pa_remove) = true -> others out d' = d.(dk_temps))
  | (Retry sn', d') =>
      (exists t s, blames sn p.(pa_check) t s /\ sn' = withoutPoolServer sn t.(t_id) s.(ps_url)) /\
      d'.(dk_config) = d.(dk_config) /\ d.(dk_temps) ⊆ d'.(dk_temps) /\ (p.(pa_remove) = true -> d'.(dk_temps) = d.(dk_temps))
  end.
Proof.
  intros Ha Hmore. unfold pass. destruct (candidate Marshal plain live sn) as [[opts data]|e] eqn:Hc; [|by repeat split].
  unfold sameOnDisk. destruct (pa_unreadable p); [by repeat split|].
  destruct (bool_decide (dk_config d = Some data) && negb forceCheck) eqn:Hsame.
  { apply andb_true_iff in Hsame as [Hs Hf]. reflect_bools. split; [|done]. split_and!; [done..|].
    exists opts, data. split; [done|]. split; [|done]. right. by destruct forceCheck. }
  destruct (pa_mkdir p); [|by repeat split]. cbn [negb]. unfold writeTemp. destruct (pa_name p) as [name|]; [|by repeat split].
  destruct (decide (is_Some (dk_temps d !! name))) as [Hex|Hex]; [by repeat split|]. assert (Hn : dk_temps d !! name = None) by (by apply eq_None_not_Some).
  destruct (pa_partial p) as [part|].
  { destruct (remove_fresh p.(pa_remove) name part d Hn) as (H1' & H2' & H3'). split; [|done]. by split_and!. }
  destruct (remove_fresh p.(pa_remove) name data d Hn) as (H1' & H2' & H3').
  destruct (Check_ (pa_check p)) as [text|] eqn:Ht.
  - destruct (rejectedPoolMember _ sn text) as [m|] eqn:Hr.
    + destruct (rejected_exact _ _ _ _ _ _ Ha Hc Ht Hr) as (t & s & Hb & ->).
      destruct more; [by split; [exists t, s|]|]. destruct Hmore as [|Hz]; [done|].
      apply blames_thins in Hb as [_ Hb]; [lia|done].
    + split; [|done]. split_and!; [done..|]. by exists opts, data.
  - assert (Hacc : pa_check p = Accepted) by (by destruct (pa_check p)).
    case_bool_decide as Hcfg.
    + split; [|done]. split_and!; [done..|]. exists opts, data. split_and!; [done|by left|done].
    + split.
      * split; [done|]. split; [by apply insert_subseteq|]. exists opts, data. split; [done|]. split; [by left|]. split_and!; [done..|].
        cbn [pr_temporary dk_temps]. by rewrite lookup_insert_eq.
      * intros _. cbn [others dk_temps]. by rewrite delete_insert_id.
Qed.

Lemma prepare_from_spec fuel forceCheck maxDrops passes drop sn d :
  ids_apart sn -> (drop + poolServerCount sn <= maxDrops)%nat -> (poolServerCount sn < fuel)%nat ->
  exists out d' n sn',
    prepare_from Marshal plain live fuel forceCheck maxDrops drop passes sn d = Some (out, d') /\
    drops passes drop sn n sn' /\ fewer_servers sn sn' /\ (n <= drop + poolServerCount sn)%nat /\
    outcome forceCheck (passes n) sn' d out d' /\
    ((forall k, (passes k).(pa_remove) = true) -> others out d' = d.(dk_temps)).
Proof.
  revert drop sn d. induction fuel as [|fuel IH]; intros drop sn d Ha Hmax Hfuel; [lia|]. cbn [prepare_from].
  pose proof (pass_spec forceCheck (bool_decide (drop < maxDrops)%nat) (passes drop) sn d Ha) as Hp.
  destruct (pass _ _ _ _ _ _ sn d) as [[out|sn1] d1].
  - exists out, d1, drop, sn. destruct Hp as [Hp Hr].
    { destruct (decide (drop < maxDrops)%nat); [by left; apply bool_decide_eq_true_2|right; lia]. }
    split_and!; [done|constructor|apply fewer_servers_refl|lia|done|]. intros Hall. by apply Hr.
  - destruct Hp as ((t & s & Hb & ->) & Hcfg & Hsub & Hrem).
    { destruct (decide (drop < maxDrops)%nat); [by left; apply bool_decide_eq_true_2|right; lia]. }
    destruct (blames_thins _ _ _ _ Ha Hb) as [Hthin Hless].
    destruct (IH (S drop) (withoutPoolServer sn t.(t_id) s.(ps_url)) d1) as (out & d' & n & sn' & H1' & H2' & H3' & H4' & (H5' & H6' & H7') & H8');
      [by eapply fewer_apart|lia..|].
    exists out, d', n, sn'. split_and!; [done|eapply drops_more; [exact Hb|apply withoutPoolServer_loses, Ha|done]|by eapply fewer_servers_trans|lia| |].
    + split; [by rewrite H5'|]. split; [by etrans|]. destruct out as [[]|[[tmp|]]]; try done.
      all: destruct H7' as (opts & data & Hc & Hacc & Hpr); exists opts, data; cbn [pr_temporary] in *.
      * destruct Hpr as (Hne & Hno & Hyes). split_and!; try done; [by rewrite <- Hcfg|].
        destruct (dk_temps d !! tmp) as [x|] eqn:E; [|done]. by rewrite (lookup_weaken _ _ _ _ E Hsub) in Hno.
      * by rewrite <- Hcfg.
    + intros Hall. by rewrite H8', Hrem.
Qed.

(** C30: preparation ends and is selective.  Whatever the disk and the runtime
    answer, at most as many passes as there are pool servers fail before the
    last one; every pass but the last took from the pool whose outbound the
    runtime named exactly the servers with the link of this outbound, and
    nothing else from the state.  The published
    file is not touched and no file of others is; a temporary file remains only
    in the hands of the result, with the bytes the runtime accepted.  An error
    of the check is returned only when it does not name a pool member: the bound
    on drops is never what stops the loop. *)
Theorem prepare_correct fuel forceCheck passes sn d :
  ids_apart sn -> (poolServerCount sn < fuel)%nat ->
  exists out d' n sn',
    prepare Marshal plain live fuel forceCheck passes sn d = Some (out, d') /\
    drops passes 0 sn n sn' /\ fewer_servers sn sn' /\ (n <= poolServerCount sn)%nat /\
    outcome forceCheck (passes n) sn' d out d' /\
    ((forall k, (passes k).(pa_remove) = true) -> others out d' = d.(dk_temps)).
Proof.
  intros Ha Hfuel. by apply (prepare_from_spec fuel forceCheck (poolServerCount sn) passes 0 sn d).
Qed.

(** C31: publication.  Whatever happens, the published file holds either what
    it held or bytes that the runtime accepted, generated from the state less
    the refused pool members; success means that the file holds that candidate
    and that the service was restarted on it exactly when the file changed or a
    restart was forced.  An error never comes with a restart; the service keeps
    running what it ran unless its own restart failed.  No temporary file is
    left behind. *)
Theorem publish_correct fuel forceCheck force passes a sn s :
  ids_apart sn -> (poolServerCount sn < fuel)%nat ->
  exists res err s' n sn',
    publish Marshal plain live fuel forceCheck force passes a sn s = Some (res, err, s') /\
    drops passes 0 sn n sn' /\ fewer_servers sn sn' /\
    (if res.(ar_changed) then
       exists opts data, candidate Marshal plain live sn' = Ok (opts, data) /\ (passes n).(pa_check) = Accepted /\
         s.(sy_disk).(dk_config) <> Some data /\ s'.(sy_disk).(dk_config) = Some data
     else s'.(sy_disk).(dk_config) = s.(sy_disk).(dk_config)) /\
    (err = None ->
       exists opts data, candidate Marshal plain live sn' = Ok (opts, data) /\ s'.(sy_disk).(dk_config) = Some data /\
         res.(ar_reloaded) = res.(ar_changed) || force /\
         s'.(sy_running) = if res.(ar_reloaded) then Some data else s.(sy_running)) /\
    (err <> None -> res.(ar_reloaded) = false /\
       s'.(sy_running) = if decide (err = Some ErrReloadFailed) then None else s.(sy_running)) /\
    ((forall k, (passes k).(pa_remove) = true) -> a.(ca_remove) = true -> s'.(sy_disk).(dk_temps) = s.(sy_disk).(dk_temps)).
Proof.
  intros Ha Hfuel. destruct (prepare_from_spec fuel forceCheck (poolServerCount sn) passes 0 sn s.(sy_disk) Ha (Nat.le_refl _) Hfuel)
    as (out & d' & n & sn' & Hp & Hd & Hf & _ & (Hcfg & _ & Hout) & Hrem).
  unfold publish, prepare. rewrite Hp. destruct out as [e|[[tmp|]]].
  - do 2 eexists. exists (MkSystem d' s.(sy_running)), n, sn'. split; [done|]. split; [done|]. split; [done|].
    cbn [ar_changed ar_reloaded sy_disk sy_running]. split; [done|]. split; [done|]. split; [|by intros Hall _; apply Hrem].
    intros _. split; [done|]. rewrite decide_False; [done|]. by intros [= ->].
  - destruct Hout as (opts & data & Hc & Hacc & Hne & Hno & Hyes). cbn [pr_temporary] in *.
    destruct Hacc as [Hacc|[_ ?]]; [|done]. unfold Commit. cbn [pr_temporary sy_disk]. rewrite Hyes.
    destruct (ca_rename a).
    + unfold reload. cbn [orb negb]. destruct (ca_sync a); cbn [negb]; [destruct (ca_reload a); cbn [negb]|].
      all: do 2 eexists; eexists _, n, sn'; split; [done|]; split; [done|]; split; [done|].
      all: cbn [Close pr_temporary ar_changed ar_reloaded sy_disk sy_running dk_config dk_temps].
      all: split; [by exists opts, data|]; split; [intros Herr; first [done|by exists opts, data]|].
      all: split; [intros Herr; first [done|split; [done|by case_decide]]|by intros Hall _; apply Hrem].
    + do 2 eexists; eexists _, n, sn'; split; [done|]; split; [done|]; split; [done|].
      cbn [Close pr_temporary ar_changed ar_reloaded sy_disk sy_running].
      assert (Hr : dk_config (remove (ca_remove a) tmp d') = dk_config d') by by destruct (ca_remove a).
      split; [by rewrite Hr|]. split; [done|]. split; [intros _; split; [done|]; by rewrite decide_False|].
      intros Hall ->. by apply Hrem.
  - destruct Hout as (opts & data & Hc & Hacc & Heq). unfold Commit, reload. cbn [pr_temporary orb].
    destruct force; cbn [negb]; [destruct (ca_sync a); cbn [negb]; [destruct (ca_reload a); cbn [negb]|]|].
    all: do 2 eexists; eexists _, n, sn'; split; [done|]; split; [done|]; split; [done|].
    all: cbn [Close pr_temporary ar_changed ar_reloaded sy_disk sy_running dk_config dk_temps].
    all: split; [done|]; split; [intros Herr; first [done|exists opts, data; split_and!; [done|by rewrite Hcfg|done|by rewrite ?Hcfg]]|].
    all: split; [intros Herr; first [done|split; [done|by case_decide]]|by intros Hall _; apply Hrem].
Qed.

(** After a restart that failed, applying the same state again does nothing:
    only the forced recovery restarts the service. *)
Lemma failed_restart_needs_force fuel passes a sn opts data s :
  candidate Marshal plain live sn = Ok (opts, data) -> s.(sy_disk).(dk_config) = Some data ->
  (passes 0%nat).(pa_unreadable) = false -> (0 < fuel)%nat ->
  Apply Marshal plain live fuel passes a sn s = Some (MkApplyResult false false, None, s).
Proof.
  intros Hc Hd Hr Hf. destruct fuel as [|fuel]; [lia|]. unfold Apply, publish, prepare. cbn [prepare_from]. unfold pass.
  rewrite Hc. unfold sameOnDisk. rewrite Hr, bool_decide_eq_true_2 by done. cbn. by destruct s.
Qed.
End drops.

(** ** Witnesses *)
#[local] Existing Instances ascii_unicode ascii_runes sample_platform sample_source.

(** An encoder that lists the outbounds. *)
Definition tags_only (opts : RealityOptions) : result string := Ok (Join (map ob_tag opts.(ro_base).(op_outbounds)) ",").
(** The runtime refuses the first server of the pool and then accepts. *)
Definition refuse_once (k : nat) : Pass :=
  MkPass false true (Some "config.json.tmp-1"%string) None true
    match k with O => Refused "FATAL initialize outbound[1]: unknown transport" "exit status 1" | _ => Accepted end.
Definition sample_system : System := MkSystem (MkDisk (Some "old"%string) ∅) (Some "old"%string).
Definition all_well : CommitAnswers := MkCommitAnswers true true true true.

Lemma gen_ids_apart : ids_apart gen_snapshot.
Proof.
  split; [apply (bool_decide_eq_true_1 (NoDup (map t_id gen_tunnels))); by vm_compute|].
  intros t t' i _ Ht' He. apply (f_equal (fun s => ContainsByte s "-")) in He.
  change ("-" +:+ Itoa (Z.of_nat i)) with (String "-" (Itoa (Z.of_nat i))) in He. rewrite dash_between in He.
  assert (Hno : forallb (fun t => negb (ContainsByte t.(t_id) "-")) gen_tunnels = true) by (vm_compute; reflexivity).
  rewrite forallb_forall in Hno. specialize (Hno t' (proj1 (list_elem_of_In _ _) Ht')). by rewrite He in Hno.
Qed.

Lemma prepare_correct_witness :
  exists out d' n sn',
    prepare tags_only gen_plain None 3 false refuse_once gen_snapshot sample_system.(sy_disk) = Some (out, d') /\
    fewer_servers gen_snapshot sn' /\ (n <= 2)%nat.
Proof.
  destruct (prepare_correct tags_only gen_plain None 3 false refuse_once gen_snapshot sample_system.(sy_disk))
    as (out & d' & n & sn' & Hp & _ & Hf & Hn & _); [exact gen_ids_apart|apply Nat.ltb_lt; vm_compute; reflexivity|].
  exists out, d', n, sn'. split; [exact Hp|]. split; [exact Hf|exact Hn].
Defined.

Lemma publish_correct_witness :
  exists s', publish tags_only gen_plain None 3 false false refuse_once all_well gen_snapshot sample_system =
      Some (MkApplyResult true true, None, s') /\
    s'.(sy_running) = s'.(sy_disk).(dk_config) /\ s'.(sy_disk).(dk_temps) = ∅.
Proof.
  destruct (publish_correct tags_only gen_plain None 3 false false refuse_once all_well gen_snapshot sample_system)
    as (res & err & s' & n & sn' & Hp & _ & _ & _ & Hok & _ & Ht); [exact gen_ids_apart|apply Nat.ltb_lt; vm_compute; reflexivity|].
  assert (Hres : (res, err) = (MkApplyResult true true, None)).
  { assert (Hc : fst <$> publish tags_only gen_plain None 3 false false refuse_once all_well gen_snapshot sample_system =
      Some (MkApplyResult true true, None)) by (vm_compute; reflexivity).
    rewrite Hp in Hc. by injection Hc as -> ->. }
  injection Hres as -> ->. exists s'. split; [exact Hp|].
  destruct (Hok eq_refl) as (opts & data & _ & Hd & _ & Hr). split; [by rewrite Hr, Hd|].
  rewrite Ht; [done|intros [|]; done|done].
Defined.
