(* ===== verification/Nft.v ===== *)
(** * The packet filter

    [internal/netstack/nft_rules.go]: the nftables rules as data.  The sets of
    addresses are built by [go4.org/netipx], a class here.  The second part says
    what a rule means for a packet; [NftExpr] compiles the rules as [nft.go]
    does and shows that the kernel's expressions have this meaning. *)

From Stdlib Require Import Ascii.
From S2P Require Import Prelude GoStd Model IPPolicy.
#[local] Open Scope Z_scope.

(** An interval of IPv4 addresses, both ends included. *)
Abbreviation IPRange := (Z * Z)%type (only parsing).
Definition in_range (ip : Z) (r : IPRange) : bool := bool_decide (r.1 <= ip <= r.2).
Definition in_ranges (rs : list IPRange) (ip : Z) : bool := existsb (in_range ip) rs.

(** Sorted, with a gap between neighbours. *)
Fixpoint ranges_ok (low : Z) (rs : list IPRange) : Prop :=
  match rs with
  | [] => True
  | r :: rs => low <= r.1 <= r.2 /\ r.2 < 2 ^ 32 /\ ranges_ok (r.2 + 2) rs
  end.

(** [netipx.IPSetBuilder]: [Ranges] of the set built from the given intervals
    is the minimum sorted list of intervals that covers them. *)
Class IPSets := {
  Ranges : list IPRange -> list IPRange;
  Ranges_in l ip : in_ranges (Ranges l) ip = in_ranges l ip;
  Ranges_ok l : Forall (fun r => 0 <= r.1 <= r.2 /\ r.2 < 2 ^ 32) l -> ranges_ok 0 (Ranges l)
}.

(** ** Data *)
Definition NftTable : string := "razdacha".
Definition ChainMangle : string := "mangle".
Definition ChainProxy : string := "proxy".
Definition ChainDNSNat : string := "dnsnat".
Definition ChainForward : string := "forward".
Definition ChainPostrouting : string := "postrouting".
Definition SetLocalV4 : string := "local_v4".
Definition SetSubnets : string := "razdacha_subnets".
Definition SetTransportSubnets : string := "transport_subnets".
Definition SetPeerEgress : string := "peer_egress".

Definition FwMark : Z := 0x00100000.
Definition TProxyAddr : Z := 127 * 2 ^ 24 + 1.
Definition TProxyPort : Z := 1602.
Definition DNSPort : Z := 53.
Definition DoTPort : Z := 853.
Definition DefaultWGInterface : string := "wg0".
Definition DefaultResolverAddr : string := "10.8.0.1".
Definition FakeIPRange : Prefix := MkPrefix (V4 (198 * 2 ^ 24 + 18 * 2 ^ 16)) 15.

Record NftConfig := MkNftConfig {
  nc_peer_egress : list string;
  nc_wg : string;
  nc_wan : string;
  nc_resolver : string;
  nc_subnets : list string;
  nc_transport : list string
}.

Inductive NftAction :=
  | ActionReturn | ActionMark | ActionTProxy | ActionMasquerade | ActionClampMSS
  | ActionRejectICMPv6 | ActionRejectICMP | ActionDNAT.

Inductive nfproto := AnyFamily | IPv4 | IPv6.
Inductive l4proto := AnyL4 | TCP | UDP.
#[export] Instance nfproto_eq_dec : EqDecision nfproto.
Proof. solve_decision. Defined.
#[export] Instance l4proto_eq_dec : EqDecision l4proto.
Proof. solve_decision. Defined.

(** An empty interface or set, port 0, mark 0 and [None] are no condition. *)
Record NftRule := MkNftRule {
  IIf : string; IIfNeq : bool; OIf : string;
  NFProto : nfproto;
  DstPrefix : option Prefix; DstPrefixNeq : bool;
  DstSet : string; SrcSet : string;
  L4Proto : l4proto; DstPort : Z;
  MarkMatch : Z; TCPSyn : bool;
  DNATAddr : option Addr; DNATPort : Z;
  Action : NftAction
}.

(** Go's composite literals: a rule with nothing but an action, and the fields
    set one by one. *)
Definition bare (a : NftAction) : NftRule :=
  MkNftRule "" false "" AnyFamily None false "" "" AnyL4 0 0 false None 0 a.
Definition on_iif (i : string) (neq : bool) (r : NftRule) : NftRule :=
  MkNftRule i neq r.(OIf) r.(NFProto) r.(DstPrefix) r.(DstPrefixNeq) r.(DstSet) r.(SrcSet) r.(L4Proto) r.(DstPort)
    r.(MarkMatch) r.(TCPSyn) r.(DNATAddr) r.(DNATPort) r.(Action).
Definition on_oif (o : string) (r : NftRule) : NftRule :=
  MkNftRule r.(IIf) r.(IIfNeq) o r.(NFProto) r.(DstPrefix) r.(DstPrefixNeq) r.(DstSet) r.(SrcSet) r.(L4Proto) r.(DstPort)
    r.(MarkMatch) r.(TCPSyn) r.(DNATAddr) r.(DNATPort) r.(Action).
Definition on_family (f : nfproto) (r : NftRule) : NftRule :=
  MkNftRule r.(IIf) r.(IIfNeq) r.(OIf) f r.(DstPrefix) r.(DstPrefixNeq) r.(DstSet) r.(SrcSet) r.(L4Proto) r.(DstPort)
    r.(MarkMatch) r.(TCPSyn) r.(DNATAddr) r.(DNATPort) r.(Action).
Definition to_prefix (p : Prefix) (neq : bool) (r : NftRule) : NftRule :=
  MkNftRule r.(IIf) r.(IIfNeq) r.(OIf) r.(NFProto) (Some p) neq r.(DstSet) r.(SrcSet) r.(L4Proto) r.(DstPort)
    r.(MarkMatch) r.(TCPSyn) r.(DNATAddr) r.(DNATPort) r.(Action).
Definition to_set (s : string) (r : NftRule) : NftRule :=
  MkNftRule r.(IIf) r.(IIfNeq) r.(OIf) r.(NFProto) r.(DstPrefix) r.(DstPrefixNeq) s r.(SrcSet) r.(L4Proto) r.(DstPort)
    r.(MarkMatch) r.(TCPSyn) r.(DNATAddr) r.(DNATPort) r.(Action).
Definition from_set (s : string) (r : NftRule) : NftRule :=
  MkNftRule r.(IIf) r.(IIfNeq) r.(OIf) r.(NFProto) r.(DstPrefix) r.(DstPrefixNeq) r.(DstSet) s r.(L4Proto) r.(DstPort)
    r.(MarkMatch) r.(TCPSyn) r.(DNATAddr) r.(DNATPort) r.(Action).
Definition on_l4 (p : l4proto) (r : NftRule) : NftRule :=
  MkNftRule r.(IIf) r.(IIfNeq) r.(OIf) r.(NFProto) r.(DstPrefix) r.(DstPrefixNeq) r.(DstSet) r.(SrcSet) p r.(DstPort)
    r.(MarkMatch) r.(TCPSyn) r.(DNATAddr) r.(DNATPort) r.(Action).
Definition to_port (p : Z) (r : NftRule) : NftRule :=
  MkNftRule r.(IIf) r.(IIfNeq) r.(OIf) r.(NFProto) r.(DstPrefix) r.(DstPrefixNeq) r.(DstSet) r.(SrcSet) r.(L4Proto) p
    r.(MarkMatch) r.(TCPSyn) r.(DNATAddr) r.(DNATPort) r.(Action).
Definition on_mark (m : Z) (r : NftRule) : NftRule :=
  MkNftRule r.(IIf) r.(IIfNeq) r.(OIf) r.(NFProto) r.(DstPrefix) r.(DstPrefixNeq) r.(DstSet) r.(SrcSet) r.(L4Proto) r.(DstPort)
    m r.(TCPSyn) r.(DNATAddr) r.(DNATPort) r.(Action).
Definition on_syn (r : NftRule) : NftRule :=
  MkNftRule r.(IIf) r.(IIfNeq) r.(OIf) r.(NFProto) r.(DstPrefix) r.(DstPrefixNeq) r.(DstSet) r.(SrcSet) r.(L4Proto) r.(DstPort)
    r.(MarkMatch) true r.(DNATAddr) r.(DNATPort) r.(Action).
Definition dnat_to (a : Addr) (p : Z) (r : NftRule) : NftRule :=
  MkNftRule r.(IIf) r.(IIfNeq) r.(OIf) r.(NFProto) r.(DstPrefix) r.(DstPrefixNeq) r.(DstSet) r.(SrcSet) r.(L4Proto) r.(DstPort)
    r.(MarkMatch) r.(TCPSyn) (Some a) p r.(Action).

Inductive ChainType := Filter | NAT.
Inductive Hook := Prerouting | Forward | Postrouting.
Record NftChain := MkNftChain {
  ch_name : string; ch_type : ChainType; ch_hook : Hook; ch_priority : Z; ch_rules : list NftRule }.
Record NftSet := MkNftSet { set_name : string; set_elements : list IPRange }.
Record NftRuleset := MkNftRuleset {
  rs_table : string; rs_sets : list NftSet; rs_chains : list NftChain; rs_skipped : Z }.

Inductive nft_error := ErrNftNoWG | ErrNftNoWAN | ErrNftBadResolver | ErrNftBadSource.

Definition priorityMangle : Z := -150.
Definition priorityProxy : Z := -100.
Definition priorityDstNAT : Z := -100.
Definition prioritySrcNAT : Z := 100.

(** ** Building the rules *)
Definition RuleMarksSubnets (r : Rule) : bool := r.(r_enabled).
Definition PeerEgressSources (peers : list Peer) : list string :=
  omap (fun p => match p.(p_egress) with Some _ => Some p.(p_address) | None => None end) peers.

Definition portRules (base : NftRule) : list NftRule := [on_l4 UDP base; on_l4 TCP base].

Definition resolverAddr (s : string) : option Z :=
  let s := if decide (TrimSpace s = EmptyString) then DefaultResolverAddr else s in
  match ParseAddr (TrimSpace s) with Some (V4 ip) => Some ip | _ => None end.

(** [Prefix.Range] of a masked IPv4 prefix. *)
Definition prefix_range (ip bits : Z) : IPRange :=
  let n := 2 ^ (32 - bits) in (ip / n * n, ip / n * n + n - 1).
(** What one line of a list adds to the set, [None] if it is skipped. *)
Definition subnet_entry (raw : string) : option IPRange :=
  let s := TrimSpace raw in
  if decide (s = EmptyString) then None
  else if ContainsByte s "/" then
    match ParsePrefix s with Some (MkPrefix (V4 ip) bits) => Some (prefix_range ip bits) | _ => None end
  else match ParseAddr s with Some (V4 ip) => Some (ip, ip) | _ => None end.
Definition omap_count {A B} (f : A -> option B) (l : list A) : list B * Z :=
  (omap f l, Z.of_nat (length (filter (fun x => f x = None) l))).

Section build.
Context `{IPS : IPSets}.

(** [MergeSubnets]: the set and the number of lines skipped. *)
Definition MergeSubnets (l : list string) : list IPRange * Z :=
  let '(rs, skipped) := omap_count subnet_entry l in (Ranges rs, skipped).

Definition from_client (wg : string) (a : NftAction) : NftRule := on_family IPv4 (on_iif wg false (bare a)).

(** The rules of [mangle]; [egress] and [transport] say whether the set is
    there. *)
Definition mangle_rules (wg : string) (resolver : Z) (egress transport : bool) : list NftRule :=
  let v4 := fun a => on_family IPv4 (bare a) in
  [on_iif wg true (bare ActionReturn)] ++
  portRules (to_port DNSPort (v4 ActionReturn)) ++
  portRules (to_port DoTPort (v4 ActionReturn)) ++
  (if egress
   then [to_prefix (MkPrefix (V4 resolver) 32) false (from_set SetPeerEgress (v4 ActionReturn))] else []) ++
  [to_set SetLocalV4 (v4 ActionReturn)] ++
  (if egress
   then portRules (from_set SetPeerEgress (v4 ActionMark)) ++ [from_set SetPeerEgress (v4 ActionReturn)] else []) ++
  [to_prefix FakeIPRange false (v4 ActionMark); to_set SetSubnets (v4 ActionMark)] ++
  (if transport then portRules (to_set SetTransportSubnets (v4 ActionMark)) else []).

Definition dnsnat_rules (wg : string) (resolver : Z) : list NftRule :=
  portRules (dnat_to (V4 resolver) DNSPort
    (to_prefix (MkPrefix (V4 resolver) 32) true (to_port DNSPort (from_client wg ActionDNAT)))).

Definition proxy_rules : list NftRule :=
  [on_l4 TCP (on_mark FwMark (on_family IPv4 (bare ActionTProxy)));
   on_l4 UDP (on_mark FwMark (on_family IPv4 (bare ActionTProxy)))].

Definition forward_rules (wg : string) (egress : bool) : list NftRule :=
  [on_syn (on_l4 TCP (from_client wg ActionClampMSS));
   on_syn (on_l4 TCP (on_family IPv4 (on_oif wg (bare ActionClampMSS))));
   on_family IPv6 (on_iif wg false (bare ActionRejectICMPv6))] ++
  (if egress then [from_set SetPeerEgress (from_client wg ActionRejectICMP)] else []) ++
  portRules (to_port DoTPort (from_client wg ActionRejectICMP)).

Definition wg_interface (cfg : NftConfig) : string :=
  if decide (cfg.(nc_wg) = EmptyString) then DefaultWGInterface else cfg.(nc_wg).

(** [BuildNftRuleset] *)
Definition BuildNftRuleset (cfg : NftConfig) : NftRuleset + nft_error :=
  let wg := wg_interface cfg in
  if decide (TrimSpace wg = EmptyString) then inr ErrNftNoWG
  else if decide (TrimSpace cfg.(nc_wan) = EmptyString) then inr ErrNftNoWAN
  else match resolverAddr cfg.(nc_resolver) with
  | None => inr ErrNftBadResolver
  | Some resolver =>
      if negb (forallb (fun s => match ParseAddr s with Some (V4 _) => true | _ => false end) cfg.(nc_peer_egress))
      then inr ErrNftBadSource
      else
        let '(egress, _) := MergeSubnets cfg.(nc_peer_egress) in
        let '(local, _) := MergeSubnets LocalIPv4 in
        let '(subnets, skipped) := MergeSubnets cfg.(nc_subnets) in
        let '(transport, transportSkipped) := MergeSubnets cfg.(nc_transport) in
        let has_egress := bool_decide (egress <> []) in
        let has_transport := bool_decide (transport <> []) in
        inl (MkNftRuleset NftTable
          ([MkNftSet SetLocalV4 local; MkNftSet SetSubnets subnets] ++
           (if has_transport then [MkNftSet SetTransportSubnets transport] else []) ++
           (if has_egress then [MkNftSet SetPeerEgress egress] else []))
          [MkNftChain ChainMangle Filter Prerouting priorityMangle (mangle_rules wg resolver has_egress has_transport);
           MkNftChain ChainProxy Filter Prerouting priorityProxy proxy_rules;
           MkNftChain ChainDNSNat NAT Prerouting priorityDstNAT (dnsnat_rules wg resolver);
           MkNftChain ChainForward Filter Forward priorityMangle (forward_rules wg has_egress);
           MkNftChain ChainPostrouting NAT Postrouting prioritySrcNAT
             [on_oif cfg.(nc_wan) (on_iif wg false (bare ActionMasquerade))]]
          (skipped + transportSkipped))
  end.
End build.

(** ** What a rule means *)

(** A packet: the metadata, and the bytes of the network and of the transport
    header. *)
Record packet := MkPacket {
  pk_iif : string; pk_oif : string;
  pk_family : Z; pk_l4 : Z; pk_mark : Z;
  pk_net : list Z; pk_th : list Z
}.
Definition set_mark (m : Z) (pk : packet) : packet :=
  MkPacket pk.(pk_iif) pk.(pk_oif) pk.(pk_family) pk.(pk_l4) m pk.(pk_net) pk.(pk_th).

Definition slice (off len : nat) (l : list Z) : option (list Z) :=
  if decide (off + len <= length l)%nat then Some (take len (drop off l)) else None.
Definition be_val (l : list Z) : Z := foldl (fun acc b => acc * 256 + b) 0 l.
Definition src_ip (pk : packet) : option Z := be_val <$> slice 12 4 pk.(pk_net).
Definition dst_ip (pk : packet) : option Z := be_val <$> slice 16 4 pk.(pk_net).
Definition dst_port (pk : packet) : option Z := be_val <$> slice 2 2 pk.(pk_th).
Definition tcp_flags (pk : packet) : option Z := be_val <$> slice 13 1 pk.(pk_th).

Definition family_number (f : nfproto) : Z := match f with IPv6 => 10 | _ => 2 end.
Definition l4_number (p : l4proto) : Z := match p with UDP => 17 | _ => 6 end.

Definition holds {A} (o : option A) (p : A -> bool) : bool := match o with Some a => p a | None => false end.

Section meaning.
(** The members of a set by its name. *)
Variable sets : string -> option (Z -> bool).

Definition in_set (name : string) (ip : Z) : bool := match sets name with Some m => m ip | None => false end.

(** Every condition of the rule that is given holds. *)
Definition matches (r : NftRule) (pk : packet) : bool :=
  (bool_decide (r.(IIf) = EmptyString) || xorb r.(IIfNeq) (bool_decide (pk.(pk_iif) = r.(IIf)))) &&
  (bool_decide (r.(OIf) = EmptyString) || bool_decide (pk.(pk_oif) = r.(OIf))) &&
  (bool_decide (r.(NFProto) = AnyFamily) || bool_decide (pk.(pk_family) = family_number r.(NFProto))) &&
  (bool_decide (r.(MarkMatch) = 0) || bool_decide (Z.land pk.(pk_mark) r.(MarkMatch) = r.(MarkMatch))) &&
  (bool_decide (r.(L4Proto) = AnyL4) || bool_decide (pk.(pk_l4) = l4_number r.(L4Proto))) &&
  match r.(DstPrefix) with
  | None => true
  | Some p => holds (dst_ip pk) (fun ip => xorb r.(DstPrefixNeq) (Contains p (V4 ip)))
  end &&
  (bool_decide (r.(SrcSet) = EmptyString) || holds (src_ip pk) (in_set r.(SrcSet))) &&
  (bool_decide (r.(DstSet) = EmptyString) || holds (dst_ip pk) (in_set r.(DstSet))) &&
  (bool_decide (r.(DstPort) = 0) || holds (dst_port pk) (fun p => bool_decide (p = r.(DstPort)))) &&
  (negb r.(TCPSyn) || holds (tcp_flags pk) (fun f => bool_decide (Z.land f 6 = 2))).

(** What happens to a packet: it goes on, leaves the chain, is accepted, is
    handed to the proxy at an address, has its destination rewritten, its source
    masqueraded, is refused, or dropped. *)
Inductive outcome :=
  | Continue | Return | Accepted
  | TProxied (addr port : Z) | DNATed (addr port : Z) | Masqueraded | Rejected (code : Z) | Dropped.

Definition act (r : NftRule) (pk : packet) : outcome * packet :=
  match r.(Action) with
  | ActionReturn => (Return, pk)
  | ActionMark => (Continue, set_mark FwMark pk)
  | ActionTProxy => (TProxied TProxyAddr TProxyPort, pk)
  | ActionMasquerade => (Masqueraded, pk)
  | ActionClampMSS => (Continue, pk)
  | ActionRejectICMPv6 => (Rejected 1, pk)
  | ActionRejectICMP => (Rejected 13, pk)
  | ActionDNAT => (DNATed match r.(DNATAddr) with Some (V4 ip) => ip | _ => 0 end r.(DNATPort), pk)
  end.

(** A chain: the rules in order, until one ends it. *)
Fixpoint run_rules (rs : list NftRule) (pk : packet) : outcome * packet :=
  match rs with
  | [] => (Continue, pk)
  | r :: rs =>
      if matches r pk then
        match act r pk with
        | (Continue, pk) => run_rules rs pk
        | res => res
        end
      else run_rules rs pk
  end.
End meaning.
