(* ===== verification/NftExpr.v ===== *)
(** * Compilation of the packet filter

    [internal/netstack/nft.go]: a rule as a list of the kernel's expressions,
    and an interval set as a list of its boundaries.  [exec] is the register
    machine of nftables as far as these expressions use it; the theorem says
    that the compiled rule does to a packet what the rule means. *)

From Stdlib Require Import Ascii.
From S2P Require Import Prelude GoStd Nft.
#[local] Open Scope Z_scope.

(** ** Expressions *)
Inductive metakey := IIFNAME | OIFNAME | NFPROTO | MARK | L4PROTO.
Inductive hbase := NetworkHeader | TransportHeader.
Inductive expr :=
  | EMeta (key : metakey) (reg : Z)
  | EMetaSet (key : metakey) (reg : Z)
  | ECmp (neq : bool) (reg : Z) (data : list Z)
  | EBitwise (src dst : Z) (mask xor : list Z)
  | EPayload (base : hbase) (off len : nat) (dst : Z)
  | ELookup (src : Z) (set : string)
  | EImmediate (reg : Z) (data : list Z)
  | EReturn | EAccept
  | ETProxy (reg_addr reg_port : Z)
  | EMasq
  | ERt (reg : Z) | EByteorder (src dst : Z) | EExthdr (src : Z)
  | EReject (code : Z)
  | EDrop
  | ENAT (reg_addr reg_port : Z).

(** [binaryutil.BigEndian.PutUint32], [PutUint16] and [Addr.As4]. *)
Definition be32 (v : Z) : list Z := [v / 2 ^ 24 mod 256; v / 2 ^ 16 mod 256; v / 2 ^ 8 mod 256; v mod 256].
Definition be16 (v : Z) : list Z := [v / 2 ^ 8 mod 256; v mod 256].
Definition name_bytes (s : string) : list Z := map byte_of (String.list_ascii_of_string s).
Definition ifname (name : string) : list Z := name_bytes name ++ [0].

Definition icmpv6AdminProhibited : Z := 1.
Definition icmpAdminProhibited : Z := 13.

(** The elements of a set: boundaries, with the flag of an end. *)
Definition setElements (ranges : list (Z * Z)) : list (Z * bool) :=
  concat (map (fun r : Z * Z => (r.1, false) :: if decide (r.2 + 1 < 2 ^ 32) then [(r.2 + 1, true)] else []) ranges).

Definition prefixMask (bits : Z) : list Z :=
  be32 (if decide (0 < bits) then Z.land (Z.shiftl (2 ^ 32 - 1) (32 - bits)) (2 ^ 32 - 1) else 0).

Section endian.
(** The byte order of the machine. *)
Variable little : bool.
Definition native32 (v : Z) : list Z := if little then reverse (be32 v) else be32 v.
Definition native_val (l : list Z) : Z := be_val (if little then reverse l else l).

(** [dstMatch] *)
Definition dstMatch (p : Prefix) (neq : bool) : list expr :=
  let addr := match prefix_addr p with V4 ip => be32 (mask_value (V4 ip) (prefix_bits p) ip) | V6 _ _ => [] end in
  let load := EPayload NetworkHeader 16 4 1 in
  if decide (prefix_bits p = 32) then [load; ECmp neq 1 addr]
  else [load; EBitwise 1 1 (prefixMask (prefix_bits p)) [0; 0; 0; 0]; ECmp neq 1 addr].

(** [actionExprs] *)
Definition actionExprs (r : NftRule) : option (list expr) :=
  match r.(Action) with
  | ActionReturn => Some [EReturn]
  | ActionMark => Some [EImmediate 1 (native32 FwMark); EMetaSet MARK 1]
  | ActionTProxy => Some [EImmediate 1 (be32 TProxyAddr); EImmediate 2 (be16 TProxyPort); ETProxy 1 2; EAccept]
  | ActionMasquerade => Some [EMasq]
  | ActionClampMSS => Some [ERt 1; EByteorder 1 1; EExthdr 1]
  | ActionRejectICMPv6 => Some [EReject icmpv6AdminProhibited]
  | ActionRejectICMP => Some [EReject icmpAdminProhibited]
  | ActionDNAT =>
      match r.(DNATAddr) with
      | Some (V4 ip) =>
          if decide (r.(DNATPort) = 0) then None
          else Some [EImmediate 1 (be32 ip); EImmediate 2 (be16 r.(DNATPort)); ENAT 1 2]
      | _ => None
      end
  end.

(** [ruleExprs]; [known] are the names of the sets of the table. *)
Definition iif_exprs (r : NftRule) : list expr :=
  if decide (r.(IIf) = EmptyString) then [] else [EMeta IIFNAME 1; ECmp r.(IIfNeq) 1 (ifname r.(IIf))].
Definition oif_exprs (r : NftRule) : list expr :=
  if decide (r.(OIf) = EmptyString) then [] else [EMeta OIFNAME 1; ECmp false 1 (ifname r.(OIf))].
Definition family_exprs (r : NftRule) : list expr :=
  if decide (r.(NFProto) = AnyFamily) then []
  else [EMeta NFPROTO 1; ECmp false 1 [if decide (r.(NFProto) = IPv6) then 10 else 2]].
Definition mark_exprs (r : NftRule) : list expr :=
  if decide (r.(MarkMatch) = 0) then []
  else let mask := native32 r.(MarkMatch) in
       [EMeta MARK 1; EBitwise 1 1 mask [0; 0; 0; 0]; ECmp false 1 mask].
Definition l4_exprs (r : NftRule) : list expr :=
  if decide (r.(L4Proto) = AnyL4) then []
  else [EMeta L4PROTO 1; ECmp false 1 [if decide (r.(L4Proto) = UDP) then 17 else 6]].
Definition prefix_exprs (r : NftRule) : list expr :=
  match r.(DstPrefix) with None => [] | Some p => dstMatch p r.(DstPrefixNeq) end.
Definition src_set_exprs (known : list string) (r : NftRule) : option (list expr) :=
  if decide (r.(SrcSet) = EmptyString) then Some []
  else if decide (r.(SrcSet) ∈ known) then Some [EPayload NetworkHeader 12 4 1; ELookup 1 r.(SrcSet)] else None.
Definition dst_set_exprs (known : list string) (r : NftRule) : option (list expr) :=
  if decide (r.(DstSet) = EmptyString) then Some []
  else if decide (r.(DstSet) ∈ known) then Some [EPayload NetworkHeader 16 4 1; ELookup 1 r.(DstSet)] else None.
Definition port_exprs (r : NftRule) : option (list expr) :=
  if decide (r.(DstPort) = 0) then Some []
  else if decide (r.(L4Proto) = AnyL4) then None
  else Some [EPayload TransportHeader 2 2 1; ECmp false 1 (be16 r.(DstPort))].
Definition syn_exprs (r : NftRule) : list expr :=
  if r.(TCPSyn) then [EPayload TransportHeader 13 1 1; EBitwise 1 1 [6] [0]; ECmp false 1 [2]] else [].

Definition ruleExprs (known : list string) (r : NftRule) : option (list expr) :=
  src ← src_set_exprs known r;
  dst ← dst_set_exprs known r;
  port ← port_exprs r;
  action ← actionExprs r;
  Some (iif_exprs r ++ oif_exprs r ++ family_exprs r ++ mark_exprs r ++ l4_exprs r ++ prefix_exprs r ++
        src ++ dst ++ port ++ syn_exprs r ++ action).

(** ** The register machine *)
Section machine.
(** The elements of a set of the table, and the MSS of the packet's route. *)
Variables (table : string -> option (list (Z * bool))) (route_mss : list Z).

Definition set_reg (k : Z) (v : list Z) (regs : Z -> list Z) : Z -> list Z :=
  fun i => if decide (i = k) then v else regs i.
(** An interface name fills a register of 16 bytes. *)
Definition load_meta (k : metakey) (pk : packet) : list Z :=
  let padded s := take 16 (name_bytes s ++ replicate 16 0) in
  match k with
  | IIFNAME => padded pk.(pk_iif)
  | OIFNAME => padded pk.(pk_oif)
  | NFPROTO => [pk.(pk_family)]
  | L4PROTO => [pk.(pk_l4)]
  | MARK => native32 pk.(pk_mark)
  end.

(** An address is in the set if the boundary nearest below it opens an
    interval. *)
Definition nearest (ip : Z) (best : option (Z * bool)) (e : Z * bool) : option (Z * bool) :=
  if decide (e.1 <= ip /\ default (-1) (fst <$> best) <= e.1) then Some e else best.
Definition lookup_interval (elements : list (Z * bool)) (ip : Z) : bool :=
  match foldl (nearest ip) None elements with Some (_, is_end) => negb is_end | None => false end.

(** [None]: an expression did not match, the next rule is tried. *)
Fixpoint exec (es : list expr) (regs : Z -> list Z) (proxied : option (Z * Z)) (pk : packet)
  : option outcome * packet :=
  match es with
  | [] => (Some Continue, pk)
  | e :: es =>
      match e with
      | EMeta k reg => exec es (set_reg reg (load_meta k pk) regs) proxied pk
      | EMetaSet MARK reg => exec es regs proxied (set_mark (native_val (regs reg)) pk)
      | EMetaSet _ _ => exec es regs proxied pk
      | ECmp neq reg data =>
          if xorb neq (bool_decide (take (length data) (regs reg) = data))
          then exec es regs proxied pk else (None, pk)
      | EBitwise src dst mask xor =>
          exec es (set_reg dst (zip_with Z.lxor (zip_with Z.land (regs src) mask) xor) regs) proxied pk
      | EPayload base off len dst =>
          match slice off len (match base with NetworkHeader => pk.(pk_net) | TransportHeader => pk.(pk_th) end) with
          | Some v => exec es (set_reg dst v regs) proxied pk
          | None => (None, pk)
          end
      | ELookup src set =>
          if match table set with Some l => lookup_interval l (be_val (regs src)) | None => false end
          then exec es regs proxied pk else (None, pk)
      | EImmediate reg data => exec es (set_reg reg data regs) proxied pk
      | EReturn => (Some Return, pk)
      | EAccept => (Some match proxied with Some (a, p) => TProxied a p | None => Accepted end, pk)
      | ETProxy ra rp => exec es regs (Some (be_val (regs ra), be_val (regs rp))) pk
      | EMasq => (Some Masqueraded, pk)
      | ERt reg => exec es (set_reg reg route_mss regs) proxied pk
      | EByteorder src dst => exec es (set_reg dst (reverse (regs src)) regs) proxied pk
      | EExthdr _ => exec es regs proxied pk
      | EReject code => (Some (Rejected code), pk)
      | EDrop => (Some Dropped, pk)
      | ENAT ra rp => (Some (DNATed (be_val (regs ra)) (be_val (regs rp))), pk)
      end
  end.

(** A compiled chain: the rules in order, until one ends it. *)
Fixpoint run_compiled (rules : list (list expr)) (pk : packet) : outcome * packet :=
  match rules with
  | [] => (Continue, pk)
  | es :: rules =>
      match exec es (fun _ => []) None pk with
      | (None, pk) | (Some Continue, pk) => run_compiled rules pk
      | (Some o, pk) => (o, pk)
      end
  end.
End machine.
End endian.

(** ** Lemmas *)
Definition is_byte (b : Z) : Prop := 0 <= b < 256.

Lemma be_val_app l b : be_val (l ++ [b]) = be_val l * 256 + b.
Proof. unfold be_val. by rewrite foldl_app. Qed.

Lemma be_val_nonneg l : Forall is_byte l -> 0 <= be_val l.
Proof.
  induction l as [|b l IH] using rev_ind; [done|]. intros [Hl [Hb _]%Forall_cons]%Forall_app. rewrite be_val_app.
  specialize (IH Hl). unfold is_byte in Hb. lia.
Qed.

Lemma be_val_inj l1 l2 :
  length l1 = length l2 -> Forall is_byte l1 -> Forall is_byte l2 -> be_val l1 = be_val l2 -> l1 = l2.
Proof.
  revert l2. induction l1 as [|b l1 IH] using rev_ind; intros l2; [by destruct l2|].
  destruct l2 as [|c l2 _] using rev_ind; rewrite !length_app; simpl; [lia|].
  intros Hlen [H1 [Hb _]%Forall_cons]%Forall_app [H2 [Hc _]%Forall_cons]%Forall_app. rewrite !be_val_app.
  unfold is_byte in *. intros He. assert (be_val l1 = be_val l2 /\ b = c) as [Hv ->] by lia.
  f_equal. apply IH; [lia|done..].
Qed.

Lemma land_is_byte b c : is_byte b -> is_byte c -> is_byte (Z.land b c).
Proof.
  unfold is_byte. change 256 with (2 ^ 8). intros Hb Hc. assert (0 <= Z.land b c) by (apply Z.land_nonneg; lia).
  split; [done|]. destruct (decide (Z.land b c = 0)) as [->|]; [lia|]. apply Z.log2_lt_pow2; [lia|].
  apply Z.le_lt_trans with (Z.min (Z.log2 b) (Z.log2 c)); [apply Z.log2_land; lia|].
  destruct (decide (b = 0)) as [->|]; [rewrite Z.land_0_l in *; lia|].
  apply Z.le_lt_trans with (Z.log2 b); [lia|]. by apply Z.log2_lt_pow2; lia.
Qed.

Lemma land_bytes l1 l2 : Forall is_byte l1 -> Forall is_byte l2 -> Forall is_byte (zip_with Z.land l1 l2).
Proof.
  intros H1. revert l2. induction H1 as [|x l1 Hx _ IH]; intros l2 H2; [constructor|].
  destruct H2 as [|y l2 Hy H2]; [constructor|]. cbn. constructor; [by apply land_is_byte|by apply IH].
Qed.

Lemma land_byte x y b c : is_byte b -> is_byte c -> Z.land (x * 256 + b) (y * 256 + c) = Z.land x y * 256 + Z.land b c.
Proof.
  unfold is_byte. intros Hb Hc. change 256 with (2 ^ 8) in *.
  assert (Hsplit : forall u v, 0 <= v < 2 ^ 8 -> u * 2 ^ 8 + v = Z.lor (Z.shiftl u 8) v).
  { intros u v Hv. rewrite <- Z.shiftl_mul_pow2 by lia. rewrite <- Z.add_lor_land.
    assert (Z.land (Z.shiftl u 8) v = 0) as ->; [|lia].
    apply Z.bits_inj'. intros n Hn. rewrite Z.land_spec, Z.bits_0.
    destruct (decide (n < 8)); [by rewrite Z.shiftl_spec_low by lia|].
    rewrite andb_comm, (Z.bits_above_log2 v); [done|lia|].
    destruct (decide (v = 0)) as [->|]; [simpl; lia|]. apply Z.log2_lt_pow2; [lia|].
    apply Z.lt_le_trans with (2 ^ 8); [lia|]. apply Z.pow_le_mono_r; lia. }
  assert (Hland : 0 <= Z.land b c < 2 ^ 8) by (by apply land_is_byte).
  rewrite !Hsplit by lia. apply Z.bits_inj'. intros n Hn.
  rewrite !Z.land_spec, !Z.lor_spec, !Z.land_spec. destruct (decide (n < 8)).
  - by rewrite !Z.shiftl_spec_low by lia.
  - rewrite !Z.shiftl_spec_high, Z.land_spec by lia.
    assert (Hhigh : forall v, 0 <= v < 2 ^ 8 -> Z.testbit v n = false).
    { intros v Hv. destruct (decide (v = 0)) as [->|]; [apply Z.bits_0|]. apply Z.bits_above_log2; [lia|].
      apply Z.log2_lt_pow2; [lia|]. apply Z.lt_le_trans with (2 ^ 8); [lia|]. apply Z.pow_le_mono_r; lia. }
    rewrite (Hhigh b), (Hhigh c) by lia. by rewrite !orb_false_r.
Qed.

Lemma be_val_land l1 l2 :
  length l1 = length l2 -> Forall is_byte l1 -> Forall is_byte l2 ->
  be_val (zip_with Z.land l1 l2) = Z.land (be_val l1) (be_val l2).
Proof.
  revert l2. induction l1 as [|b l1 IH] using rev_ind; intros l2; [by destruct l2|].
  destruct l2 as [|c l2 _] using rev_ind; rewrite !length_app; simpl; [lia|].
  intros Hlen [H1 [Hb _]%Forall_cons]%Forall_app [H2 [Hc _]%Forall_cons]%Forall_app.
  rewrite zip_with_app by lia. simpl. rewrite !be_val_app, land_byte by done. f_equal. f_equal. apply IH; [lia|done..].
Qed.

Lemma be32_bytes v : Forall is_byte (be32 v).
Proof. unfold be32, is_byte. repeat constructor; apply Z.mod_pos_bound; lia. Qed.
Lemma be16_bytes v : Forall is_byte (be16 v).
Proof. unfold be16, is_byte. repeat constructor; apply Z.mod_pos_bound; lia. Qed.

Lemma be_val_be32 v : 0 <= v < 2 ^ 32 -> be_val (be32 v) = v.
Proof.
  intros Hv. unfold be_val, be32. simpl. change (2 ^ 24) with (256 * 256 * 256). change (2 ^ 16) with (256 * 256).
  change (2 ^ 8) with 256. rewrite <- !Z.div_div by lia. assert (v / 256 / 256 / 256 < 256).
  { apply Z.div_lt_upper_bound; [lia|]. apply Z.div_lt_upper_bound; [lia|]. apply Z.div_lt_upper_bound; lia. }
  assert (0 <= v / 256 / 256 / 256) by (repeat apply Z.div_pos; lia).
  rewrite (Z.mod_small (v / 256 / 256 / 256)) by lia.
  pose proof (Z.div_mod v 256). pose proof (Z.div_mod (v / 256) 256). pose proof (Z.div_mod (v / 256 / 256) 256). lia.
Qed.
Lemma be_val_be16 v : 0 <= v < 2 ^ 16 -> be_val (be16 v) = v.
Proof.
  intros Hv. unfold be_val, be16. simpl. change (2 ^ 8) with 256. assert (v / 256 < 256) by (apply Z.div_lt_upper_bound; lia).
  assert (0 <= v / 256) by (apply Z.div_pos; lia). rewrite (Z.mod_small (v / 256)) by lia.
  pose proof (Z.div_mod v 256). lia.
Qed.

Lemma be_val_range4 l : length l = 4%nat -> Forall is_byte l -> be_val l < 2 ^ 32 /\ 0 <= be_val l.
Proof.
  intros Hl Hb. split; [|by apply be_val_nonneg]. destruct l as [|a [|b [|c [|d [|e l]]]]]; try done.
  rewrite !Forall_cons in Hb. unfold is_byte in Hb. unfold be_val. simpl. lia.
Qed.

Lemma eq_be32 l v : length l = 4%nat -> Forall is_byte l -> 0 <= v < 2 ^ 32 -> l = be32 v <-> be_val l = v.
Proof.
  intros Hlen Hl Hv. split; [intros ->; by apply be_val_be32|]. intros He.
  apply be_val_inj; [done|done|apply be32_bytes|]. by rewrite be_val_be32.
Qed.

(** Masking with the mask of a prefix. *)
Lemma land_mask ip bits :
  0 <= ip < 2 ^ 32 -> 0 <= bits <= 32 -> Z.land ip (be_val (prefixMask bits)) = mask_value (V4 ip) bits ip.
Proof.
  intros Hip Hb. unfold prefixMask, mask_value. cbn [BitLen Is4]. case_decide as Hpos.
  - assert (Hm : 0 <= Z.land (Z.shiftl (2 ^ 32 - 1) (32 - bits)) (2 ^ 32 - 1) < 2 ^ 32).
    { replace (2 ^ 32 - 1) with (Z.ones 32) by done. rewrite Z.land_ones by lia. apply Z.mod_pos_bound. lia. }
    rewrite be_val_be32 by done. replace (2 ^ 32 - 1) with (Z.ones 32) by done.
    rewrite <- Z.shiftr_div_pow2, <- Z.shiftl_mul_pow2 by lia.
    apply Z.bits_inj'. intros n Hn. rewrite !Z.land_spec.
    destruct (decide (n < 32 - bits)) as [Hlow|Hhigh].
    + rewrite !Z.shiftl_spec_low by lia. by rewrite andb_false_r.
    + rewrite !Z.shiftl_spec_high, Z.shiftr_spec by lia. replace (n - (32 - bits) + (32 - bits)) with n by lia.
      destruct (decide (n < 32)).
      * rewrite !Z.ones_spec_low by lia. by rewrite !andb_true_r.
      * rewrite (Z.bits_above_log2 ip); [done|lia|]. destruct (decide (ip = 0)) as [->|]; [simpl; lia|].
        apply Z.log2_lt_pow2; [lia|]. apply Z.lt_le_trans with (2 ^ 32); [lia|]. apply Z.pow_le_mono_r; lia.
  - assert (bits = 0) as -> by lia. change (be_val (be32 0)) with 0. rewrite Z.land_0_r.
    change (32 - 0) with 32. rewrite Z.div_small by lia. done.
Qed.

(** *** Interval sets *)
Lemma nearest_take ip best e : e.1 <= ip -> default (-1) (fst <$> best) <= e.1 -> nearest ip best e = Some e.
Proof. intros. unfold nearest. by rewrite decide_True. Qed.
Lemma nearest_skip ip best e : ip < e.1 -> nearest ip best e = best.
Proof. intros. unfold nearest. rewrite decide_False; [done|lia]. Qed.

Lemma nearest_keep ip best l :
  (forall e, e ∈ l -> ip < e.1) -> foldl (nearest ip) best l = best.
Proof.
  induction l as [|e l IH]; intros Hl; [done|]. cbn [foldl]. rewrite nearest_skip by (apply Hl; by left).
  apply IH. intros; apply Hl. by right.
Qed.

Lemma elements_above low rs e : ranges_ok low rs -> e ∈ setElements rs -> low <= e.1.
Proof.
  revert low. induction rs as [|[a b] rs IH]; intros low; [by intros _ ?%elem_of_nil|].
  cbn [ranges_ok fst snd]. intros ((Hab & Hb) & _ & Hok). unfold setElements. cbn [map concat fst snd].
  intros [He|He]%elem_of_app.
  - apply elem_of_cons in He as [->|He]; [done|]. case_decide; [|by apply elem_of_nil in He].
    apply elem_of_cons in He as [->|He%elem_of_nil]; [simpl; lia|done].
  - apply (IH (b + 2)) in He; [lia|done].
Qed.

Lemma in_ranges_below low rs ip : ranges_ok low rs -> ip < low -> in_ranges rs ip = false.
Proof.
  revert low. induction rs as [|[a b] rs IH]; intros low; [done|]. cbn [ranges_ok fst snd].
  intros ((Hab & Hb) & _ & Hok) Hip. cbn [in_ranges existsb]. unfold in_range at 1. cbn [fst snd].
  rewrite bool_decide_eq_false_2 by lia. apply (IH (b + 2)); [done|lia].
Qed.

Lemma interval_fold low rs ip best :
  ranges_ok low rs -> ip < 2 ^ 32 -> default (-1) (fst <$> best) <= low -> from_option snd true best = true ->
  match foldl (nearest ip) best (setElements rs) with Some (_, is_end) => negb is_end | None => false end = in_ranges rs ip.
Proof.
  revert low best. induction rs as [|[a b] rs IH]; intros low best; cbn [ranges_ok fst snd].
  { intros _ _ _ Hb. destruct best as [[x e]|]; [|done]. simpl in Hb. by subst. }
  intros ((Hla & Hab) & Hb32 & Hok) Hip Hbest Hend.
  cbn [in_ranges existsb]. unfold in_range at 1. cbn [fst snd]. fold (in_ranges rs ip).
  destruct (decide (ip < a)) as [Hlt|Hge].
  - rewrite nearest_keep.
    + rewrite bool_decide_eq_false_2 by lia. rewrite (in_ranges_below (b + 2)) by (done || lia).
      destruct best as [[x e]|]; [|done]. simpl in Hend. by subst.
    + intros e He. apply (elements_above a) in He; [lia|]. cbn. split_and!; [lia|lia|done|done].
  - unfold setElements. cbn [map concat fst snd]. fold (setElements rs).
    replace (concat (map (fun r : Z * Z => (r.1, false) :: if decide (r.2 + 1 < 2 ^ 32) then [(r.2 + 1, true)] else []) rs))
      with (setElements rs) by done.
    rewrite foldl_app. cbn [foldl]. rewrite nearest_take by (cbn [fst]; lia).
    destruct (decide (ip <= b)) as [Hle|Hgt].
    + rewrite bool_decide_eq_true_2 by lia. cbn [orb].
      assert (Hmid : foldl (nearest ip) (Some (a, false)) (if decide (b + 1 < 2 ^ 32) then [(b + 1, true)] else []) = Some (a, false)).
      { case_decide; [|done]. cbn [foldl]. apply nearest_skip. cbn [fst]. lia. }
      rewrite Hmid, nearest_keep; [done|]. intros e He. apply (elements_above (b + 2)) in He; [lia|done].
    + rewrite bool_decide_eq_false_2 by lia. cbn [orb]. rewrite (decide_True (P := b + 1 < 2 ^ 32)) by lia.
      cbn [foldl]. rewrite nearest_take by (cbn; lia).
      apply (IH (b + 2)); [done|done|simpl; lia|done].
Qed.

Lemma lookup_interval_correct rs ip :
  ranges_ok 0 rs -> 0 <= ip < 2 ^ 32 -> lookup_interval (setElements rs) ip = in_ranges rs ip.
Proof. intros Hok Hip. by apply (interval_fold 0); [done|lia|simpl; lia|done]. Qed.

Lemma exec_ext little t1 t2 mss :
  (forall n, t1 n = t2 n) -> forall es regs p pk, exec little t1 mss es regs p pk = exec little t2 mss es regs p pk.
Proof.
  intros Ht es. induction es as [|e es IH]; intros regs p pk; [done|]. destruct e as [| [] |b ? ?| | [] ? ? ?| | | | | | | | | | | |]; cbn [exec];
    try done; rewrite ?Ht; repeat case_match; by try apply IH.
Qed.

Lemma run_compiled_ext little t1 t2 mss :
  (forall n, t1 n = t2 n) -> forall rules pk, run_compiled little t1 mss rules pk = run_compiled little t2 mss rules pk.
Proof.
  intros Ht rules. induction rules as [|es rules IH]; intros pk; [done|]. cbn [run_compiled].
  rewrite (exec_ext _ _ _ _ Ht). repeat case_match; by try apply IH.
Qed.

(** When a rule compiles. *)
Lemma ruleExprs_is_Some little known r :
  r.(SrcSet) = EmptyString \/ r.(SrcSet) ∈ known -> r.(DstSet) = EmptyString \/ r.(DstSet) ∈ known ->
  r.(DstPort) = 0 \/ r.(L4Proto) <> AnyL4 ->
  (r.(Action) = ActionDNAT -> exists ip, r.(DNATAddr) = Some (V4 ip) /\ r.(DNATPort) <> 0) ->
  is_Some (ruleExprs little known r).
Proof.
  intros Hs Hd Hp Ha. unfold ruleExprs.
  assert (is_Some (src_set_exprs known r)) as [a ->] by (unfold src_set_exprs; repeat case_decide; by eauto || tauto).
  assert (is_Some (dst_set_exprs known r)) as [b ->] by (unfold dst_set_exprs; repeat case_decide; by eauto || tauto).
  assert (is_Some (port_exprs r)) as [c ->] by (unfold port_exprs; repeat case_decide; by eauto || tauto).
  assert (is_Some (actionExprs little r)) as [e ->]; [|by eexists].
  unfold actionExprs. destruct (Action r); try by eexists. destruct (Ha eq_refl) as (ip & -> & Hn).
  rewrite decide_False by done. by eexists.
Qed.

(** *** Compiled conditions *)
Definition name_ok (s : string) : Prop := Forall (fun b => b <> 0) (name_bytes s) /\ (length (name_bytes s) <= 15)%nat.
Definition packet_ok (pk : packet) : Prop :=
  name_ok pk.(pk_iif) /\ name_ok pk.(pk_oif) /\ Forall is_byte pk.(pk_net) /\ Forall is_byte pk.(pk_th) /\
  0 <= pk.(pk_mark) < 2 ^ 32.
Definition prefix_ok (p : Prefix) : Prop :=
  exists ip bits, p = MkPrefix (V4 ip) bits /\ 0 <= ip < 2 ^ 32 /\ 0 <= bits <= 32.
Definition rule_ok (r : NftRule) : Prop :=
  name_ok r.(IIf) /\ name_ok r.(OIf) /\ match r.(DstPrefix) with Some p => prefix_ok p | None => True end /\
  0 <= r.(DstPort) < 2 ^ 16 /\ 0 <= r.(MarkMatch) < 2 ^ 32 /\
  match r.(DNATAddr) with Some (V4 ip) => 0 <= ip < 2 ^ 32 | _ => True end /\ 0 <= r.(DNATPort) < 2 ^ 16.

Lemma name_bytes_inj s t : name_bytes s = name_bytes t -> s = t.
Proof.
  revert t. induction s as [|c s IH]; intros [|d t] H; try done.
  unfold name_bytes in H. cbn [String.list_ascii_of_string map] in H. injection H as Hc Hs. f_equal; [|by apply IH].
  unfold byte_of in Hc. apply N2Z.inj in Hc. rewrite <- (ascii_N_embedding c), <- (ascii_N_embedding d). by rewrite Hc.
Qed.

(** Comparing with the name and its terminator is comparing the names. *)
Lemma load_name s n :
  name_ok s -> name_ok n ->
  take (length (ifname n)) (take 16 (name_bytes s ++ replicate 16 0)) = ifname n <-> s = n.
Proof.
  intros [Hs Hls] [Hn Hln]. unfold ifname. rewrite length_app. cbn [length]. rewrite take_take.
  replace (length (name_bytes n) + 1)%nat with (S (length (name_bytes n))) by lia.
  rewrite Nat.min_l by lia. split.
  - intros H. apply name_bytes_inj. revert Hs Hls Hn Hln H. generalize (name_bytes s) (name_bytes n). clear.
    intros l1. induction l1 as [|a l1 IH]; intros [|b l2] H1 L1 H2 L2 H; cbn [app length take replicate] in H.
    + done.
    + injection H as <- H. apply Forall_cons in H2 as [? _]. done.
    + injection H as ->. apply Forall_cons in H1 as [? _]. done.
    + injection H as <- H. f_equal. apply Forall_cons in H1 as [_ H1], H2 as [_ H2]. simpl in L1, L2.
      assert (Hgen : forall k, (15 - length l1 <= k)%nat -> take (S (length l2)) (l1 ++ replicate 16 0) = l2 ++ [0] -> l1 = l2) by
        (intros k _ Hk; by apply IH; [|lia| |lia|]).
      by apply (Hgen 15%nat); [lia|].
  - intros ->. change (replicate 16 0) with ([0] ++ replicate 15 0). rewrite app_assoc. apply take_app_length'.
    rewrite length_app. simpl. lia.
Qed.

Section groups.
Context (little : bool) (ranges : string -> option (list (Z * Z))) (route_mss : list Z).
Hypothesis ranges_sorted : forall n rs, ranges n = Some rs -> ranges_ok 0 rs.
Let table (n : string) : option (list (Z * bool)) := setElements <$> ranges n.
Let sets (n : string) : option (Z -> bool) := in_ranges <$> ranges n.
Let run := exec little table route_mss.
Implicit Types (r : NftRule) (pk : packet) (rest : list expr) (out : option outcome * packet).

(** The expressions after a condition give [out], whatever is in the
    registers. *)
Definition gives rest pk out : Prop := forall regs, run rest regs None pk = out.

Lemma set_reg_eq k v regs : set_reg k v regs k = v.
Proof. unfold set_reg. by rewrite decide_True. Qed.

Lemma guard_eq (c b : bool) out1 out2 pk : c = b -> out1 = out2 ->
  (if c then out1 else (@None outcome, pk)) = if b then out2 else (None, pk).
Proof. by intros -> ->. Qed.

Lemma iif_gives r rest pk out :
  name_ok r.(IIf) -> name_ok pk.(pk_iif) -> gives rest pk out ->
  gives (iif_exprs r ++ rest) pk
    (if bool_decide (r.(IIf) = EmptyString) || xorb r.(IIfNeq) (bool_decide (pk.(pk_iif) = r.(IIf))) then out else (None, pk)).
Proof.
  intros Hr Hpk H regs. unfold iif_exprs. case_decide as He.
  - rewrite bool_decide_eq_true_2 by done. apply H.
  - rewrite (bool_decide_eq_false_2 (IIf r = EmptyString)) by done. cbn [app orb]. unfold run. cbn [exec].
    rewrite set_reg_eq. cbn [load_meta].
    apply guard_eq; [|apply H]. f_equal. apply bool_decide_ext. by apply load_name.
Qed.

Lemma oif_gives r rest pk out :
  name_ok r.(OIf) -> name_ok pk.(pk_oif) -> gives rest pk out ->
  gives (oif_exprs r ++ rest) pk
    (if bool_decide (r.(OIf) = EmptyString) || bool_decide (pk.(pk_oif) = r.(OIf)) then out else (None, pk)).
Proof.
  intros Hr Hpk H regs. unfold oif_exprs. case_decide as He.
  - rewrite bool_decide_eq_true_2 by done. apply H.
  - rewrite (bool_decide_eq_false_2 (OIf r = EmptyString)) by done. cbn [app orb]. unfold run. cbn [exec].
    rewrite set_reg_eq. cbn [load_meta].
    apply guard_eq; [|apply H]. rewrite xorb_false_l. apply bool_decide_ext. by apply load_name.
Qed.

Lemma family_gives r rest pk out :
  gives rest pk out ->
  gives (family_exprs r ++ rest) pk
    (if bool_decide (r.(NFProto) = AnyFamily) || bool_decide (pk.(pk_family) = family_number r.(NFProto)) then out else (None, pk)).
Proof.
  intros H regs. unfold family_exprs. case_decide as He.
  - rewrite bool_decide_eq_true_2 by done. apply H.
  - rewrite (bool_decide_eq_false_2 (NFProto r = AnyFamily)) by done. cbn [app orb]. unfold run. cbn [exec].
    apply guard_eq; [|apply H]. rewrite xorb_false_l. apply bool_decide_ext. rewrite set_reg_eq.
    cbn [load_meta length take]. destruct (NFProto r); [done|..]; cbn; (split; [by intros [= ->]|by intros ->]).
Qed.

Lemma l4_gives r rest pk out :
  gives rest pk out ->
  gives (l4_exprs r ++ rest) pk
    (if bool_decide (r.(L4Proto) = AnyL4) || bool_decide (pk.(pk_l4) = l4_number r.(L4Proto)) then out else (None, pk)).
Proof.
  intros H regs. unfold l4_exprs. case_decide as He.
  - rewrite bool_decide_eq_true_2 by done. apply H.
  - rewrite (bool_decide_eq_false_2 (L4Proto r = AnyL4)) by done. cbn [app orb]. unfold run. cbn [exec].
    apply guard_eq; [|apply H]. rewrite xorb_false_l. apply bool_decide_ext. rewrite set_reg_eq.
    cbn [load_meta length take]. destruct (L4Proto r); [done|..]; cbn; (split; [by intros [= ->]|by intros ->]).
Qed.

Lemma slice_spec off len l v :
  slice off len l = Some v -> Forall is_byte l -> length v = len /\ Forall is_byte v.
Proof.
  unfold slice. case_decide; [|done]. intros [= <-] Hl. split.
  - rewrite length_take, length_drop. lia.
  - by apply Forall_take, Forall_drop.
Qed.

Lemma take_all {A} (l : list A) n : length l = n -> take n l = l.
Proof. intros <-. apply firstn_all. Qed.

Lemma zip_lxor_zero (l z : list Z) : length l = length z -> Forall (fun x => x = 0) z -> zip_with Z.lxor l z = l.
Proof.
  revert z. induction l as [|a l IH]; intros [|b z] Hlen; try done. intros [-> Hz]%Forall_cons. cbn.
  rewrite Z.lxor_0_r. f_equal. apply IH; [simpl in Hlen; lia|done].
Qed.

(** A 4-byte register, masked, compared with an address. *)
Lemma masked_cmp l m v :
  length l = 4%nat -> Forall is_byte l -> 0 <= m < 2 ^ 32 -> 0 <= v < 2 ^ 32 ->
  zip_with Z.lxor (zip_with Z.land l (be32 m)) [0; 0; 0; 0] = be32 v <-> Z.land (be_val l) m = v.
Proof.
  intros Hlen Hl Hm Hv. pose proof (be32_bytes m) as Hmb.
  assert (Hz : length (zip_with Z.land l (be32 m)) = 4%nat) by (rewrite length_zip_with, Hlen; done).
  rewrite zip_lxor_zero; [|done|by repeat constructor].
  assert (Hval : be_val (zip_with Z.land l (be32 m)) = Z.land (be_val l) m).
  { rewrite be_val_land by done. by rewrite be_val_be32. }
  rewrite <- Hval. apply eq_be32; [done| |done].
by apply land_bytes.
Qed.

Lemma mask_value_range ip bits : 0 <= ip < 2 ^ 32 -> 0 <= bits <= 32 -> 0 <= mask_value (V4 ip) bits ip < 2 ^ 32.
Proof.
  intros Hip Hb. unfold mask_value. cbn [BitLen Is4].
  assert (Hn : 0 < 2 ^ (32 - bits)) by (apply Z.pow_pos_nonneg; lia).
  pose proof (Z.div_pos ip (2 ^ (32 - bits))). pose proof (Z.mul_div_le ip (2 ^ (32 - bits)) Hn). nia.
Qed.

Lemma prefix_gives r rest pk out :
  match r.(DstPrefix) with Some p => prefix_ok p | None => True end -> Forall is_byte pk.(pk_net) ->
  gives rest pk out ->
  gives (prefix_exprs r ++ rest) pk
    (if match r.(DstPrefix) with
        | None => true
        | Some p => holds (dst_ip pk) (fun ip => xorb r.(DstPrefixNeq) (Contains p (V4 ip)))
        end then out else (None, pk)).
Proof.
  intros Hp Hnet H regs. unfold prefix_exprs. destruct (DstPrefix r) as [p|]; [|apply H].
  destruct Hp as (a & bits & -> & Ha & Hbits). unfold dstMatch. cbn [prefix_addr prefix_bits].
  pose proof (mask_value_range a bits Ha Hbits) as Hav. unfold dst_ip.
  assert (Hlen32 : length (be32 (mask_value (V4 a) bits a)) = 4%nat) by done.
  case_decide as H32; cbn [app]; unfold run; cbn [exec];
    (destruct (slice 16 4 (pk_net pk)) as [v|] eqn:Hv; cbn [fmap option_fmap option_map holds]; [|done]);
    destruct (slice_spec _ _ _ _ Hv Hnet) as [Hlen Hbytes]; rewrite !set_reg_eq;
    (apply guard_eq; [|apply H]); f_equal; apply bool_decide_ext; cbn [Contains prefix_addr prefix_bits];
    rewrite Hlen32.
  - rewrite take_all by done. rewrite eq_be32 by done. unfold mask_value. cbn [BitLen Is4]. rewrite H32.
    change (2 ^ (32 - 32)) with 1. rewrite !Z.div_1_r, !Z.mul_1_r. split; congruence.
  - rewrite take_all by (by rewrite !length_zip_with, Hlen).
    assert (Hval : be_val v < 2 ^ 32 /\ 0 <= be_val v) by (by apply be_val_range4). unfold prefixMask.
    set (m := if decide (0 < bits) then _ else _). assert (Hm : 0 <= m < 2 ^ 32).
    { unfold m. case_decide; [|lia]. change (2 ^ 32 - 1) with (Z.ones 32). rewrite Z.land_ones by lia.
      apply Z.mod_pos_bound. lia. }
    rewrite masked_cmp by done. replace m with (be_val (prefixMask bits)) by (by apply be_val_be32).
    rewrite land_mask by lia. change (mask_value (V4 (be_val v)) bits a) with (mask_value (V4 a) bits a).
    split; congruence.
Qed.

Lemma native32_length v : length (native32 little v) = 4%nat.
Proof. unfold native32. by destruct little. Qed.

Lemma zip_with_reverse {A B C} (f : A -> B -> C) l1 l2 :
  length l1 = length l2 -> zip_with f (reverse l1) (reverse l2) = reverse (zip_with f l1 l2).
Proof.
  revert l2. induction l1 as [|a l1 IH]; intros [|b l2] Hlen; try done. simpl in Hlen.
  rewrite !reverse_cons, zip_with_app by (rewrite !length_reverse; lia). rewrite IH by lia.
  cbn [zip_with]. by rewrite reverse_cons.
Qed.

Lemma native_masked_cmp v m :
  0 <= v < 2 ^ 32 -> 0 <= m < 2 ^ 32 ->
  zip_with Z.lxor (zip_with Z.land (native32 little v) (native32 little m)) [0; 0; 0; 0] = native32 little m <->
  Z.land v m = m.
Proof.
  intros Hv Hm.
  assert (Hbe : zip_with Z.lxor (zip_with Z.land (be32 v) (be32 m)) [0; 0; 0; 0] = be32 m <-> Z.land v m = m).
  { rewrite masked_cmp by (done || apply be32_bytes). by rewrite be_val_be32. }
  rewrite <- Hbe. unfold native32. destruct little; [|done].
  change [0; 0; 0; 0] with (reverse [0; 0; 0; 0]) at 1. rewrite !zip_with_reverse by done.
  split; [|by intros ->]. apply (inj reverse).
Qed.

Lemma mark_gives r rest pk out :
  0 <= r.(MarkMatch) < 2 ^ 32 -> 0 <= pk.(pk_mark) < 2 ^ 32 -> gives rest pk out ->
  gives (mark_exprs little r ++ rest) pk
    (if bool_decide (r.(MarkMatch) = 0) || bool_decide (Z.land pk.(pk_mark) r.(MarkMatch) = r.(MarkMatch)) then out else (None, pk)).
Proof.
  intros Hr Hpk H regs. unfold mark_exprs. case_decide as He.
  - rewrite bool_decide_eq_true_2 by done. apply H.
  - rewrite (bool_decide_eq_false_2 (MarkMatch r = 0)) by done. cbn [app orb]. unfold run. cbn [exec].
    apply guard_eq; [|apply H]. rewrite xorb_false_l, !set_reg_eq, native32_length. cbn [load_meta].
    rewrite take_all by (rewrite !length_zip_with, !native32_length; done).
    apply bool_decide_ext. by apply native_masked_cmp.
Qed.

Lemma set_lookup_eq n ip :
  0 <= ip < 2 ^ 32 ->
  match table n with Some l => lookup_interval l ip | None => false end = in_set sets n ip.
Proof.
  intros Hip. unfold table, sets, in_set. destruct (ranges n) as [rs|] eqn:Hrs; [|done].
  cbn [fmap option_fmap option_map]. apply lookup_interval_correct; [by eapply ranges_sorted|done].
Qed.

Lemma src_set_gives known es r rest pk out :
  src_set_exprs known r = Some es -> Forall is_byte pk.(pk_net) -> gives rest pk out ->
  gives (es ++ rest) pk
    (if bool_decide (r.(SrcSet) = EmptyString) || holds (src_ip pk) (in_set sets r.(SrcSet)) then out else (None, pk)).
Proof.
  intros Hes Hnet H regs. unfold src_set_exprs in Hes. case_decide as He.
  - injection Hes as <-. rewrite bool_decide_eq_true_2 by done. apply H.
  - rewrite (bool_decide_eq_false_2 (SrcSet r = EmptyString)) by done. case_decide; [|done]. injection Hes as <-.
    cbn [app orb]. unfold run. cbn [exec]. unfold src_ip.
    destruct (slice 12 4 (pk_net pk)) as [v|] eqn:Hv; cbn [fmap option_fmap option_map holds]; [|done].
    destruct (slice_spec _ _ _ _ Hv Hnet) as [Hlen Hbytes]. rewrite set_reg_eq.
    apply guard_eq; [|apply H]. apply set_lookup_eq. pose proof (be_val_range4 v Hlen Hbytes). lia.
Qed.

Lemma dst_set_gives known es r rest pk out :
  dst_set_exprs known r = Some es -> Forall is_byte pk.(pk_net) -> gives rest pk out ->
  gives (es ++ rest) pk
    (if bool_decide (r.(DstSet) = EmptyString) || holds (dst_ip pk) (in_set sets r.(DstSet)) then out else (None, pk)).
Proof.
  intros Hes Hnet H regs. unfold dst_set_exprs in Hes. case_decide as He.
  - injection Hes as <-. rewrite bool_decide_eq_true_2 by done. apply H.
  - rewrite (bool_decide_eq_false_2 (DstSet r = EmptyString)) by done. case_decide; [|done]. injection Hes as <-.
    cbn [app orb]. unfold run. cbn [exec]. unfold dst_ip.
    destruct (slice 16 4 (pk_net pk)) as [v|] eqn:Hv; cbn [fmap option_fmap option_map holds]; [|done].
    destruct (slice_spec _ _ _ _ Hv Hnet) as [Hlen Hbytes]. rewrite set_reg_eq.
    apply guard_eq; [|apply H]. apply set_lookup_eq. pose proof (be_val_range4 v Hlen Hbytes). lia.
Qed.

Lemma port_gives es r rest pk out :
  port_exprs r = Some es -> 0 <= r.(DstPort) < 2 ^ 16 -> Forall is_byte pk.(pk_th) -> gives rest pk out ->
  gives (es ++ rest) pk
    (if bool_decide (r.(DstPort) = 0) || holds (dst_port pk) (fun p => bool_decide (p = r.(DstPort))) then out else (None, pk)).
Proof.
  intros Hes Hr Hth H regs. unfold port_exprs in Hes. case_decide as He.
  - injection Hes as <-. rewrite bool_decide_eq_true_2 by done. apply H.
  - rewrite (bool_decide_eq_false_2 (DstPort r = 0)) by done. case_decide; [done|]. injection Hes as <-.
    cbn [app orb]. unfold run. cbn [exec]. unfold dst_port.
    destruct (slice 2 2 (pk_th pk)) as [v|] eqn:Hv; cbn [fmap option_fmap option_map holds]; [|done].
    destruct (slice_spec _ _ _ _ Hv Hth) as [Hlen Hbytes]. rewrite set_reg_eq.
    apply guard_eq; [|apply H]. rewrite xorb_false_l. apply bool_decide_ext. change (length (be16 (DstPort r))) with 2%nat.
    rewrite take_all by done. split; [intros ->; by apply be_val_be16|]. intros Hp.
    apply be_val_inj; [done|done|apply be16_bytes|]. by rewrite be_val_be16.
Qed.

Lemma syn_gives r rest pk out :
  gives rest pk out ->
  gives (syn_exprs r ++ rest) pk
    (if negb r.(TCPSyn) || holds (tcp_flags pk) (fun f => bool_decide (Z.land f 6 = 2)) then out else (None, pk)).
Proof.
  intros H regs. unfold syn_exprs. destruct (TCPSyn r); [|apply H]. cbn [app orb negb]. unfold run. cbn [exec].
  unfold tcp_flags. destruct (slice 13 1 (pk_th pk)) as [v|] eqn:Hv; cbn [fmap option_fmap option_map holds]; [|done].
  apply guard_eq; [|apply H]. rewrite xorb_false_l, !set_reg_eq. apply bool_decide_ext.
  assert (Hlen : length v = 1%nat). { unfold slice in Hv. case_decide; [|done]. injection Hv as <-. rewrite length_take, length_drop. lia. }
  destruct v as [|f [|? ?]]; try done. cbn [zip_with length take]. rewrite Z.lxor_0_r. unfold be_val. cbn [foldl].
  rewrite Z.mul_0_l, Z.add_0_l. split; [by intros [= ->]|by intros ->].
Qed.

Lemma action_gives r es pk :
  actionExprs little r = Some es -> rule_ok r -> gives es pk (Some (act r pk).1, (act r pk).2).
Proof.
  intros Hes (_ & _ & _ & _ & _ & Hd & Hp) regs. unfold actionExprs in Hes. unfold act, run. destruct (Action r).
  1, 2, 3, 4, 5, 6, 7: injection Hes as <-; try done.
  - cbn [exec fst snd]. rewrite set_reg_eq. unfold native_val, native32.
    assert (Hv : be_val (if little then reverse (if little then reverse (be32 FwMark) else be32 FwMark)
                         else if little then reverse (be32 FwMark) else be32 FwMark) = FwMark) by (by destruct little).
    by rewrite Hv.
  - destruct (DNATAddr r) as [[ip|? ?]|]; try done. case_decide; [done|]. injection Hes as <-.
    cbn [exec fst snd]. do 2 f_equal. rewrite set_reg_eq. unfold set_reg at 1. rewrite decide_False by done.
    rewrite set_reg_eq, be_val_be32, be_val_be16 by done. done.
Qed.

Lemma gives_and (b c : bool) es pk out :
  gives es pk (if b then (if c then out else (None, pk)) else (None, pk)) -> gives es pk (if b && c then out else (None, pk)).
Proof. by destruct b. Qed.

Lemma compile_correct known r es pk :
  ruleExprs little known r = Some es -> rule_ok r -> packet_ok pk ->
  gives es pk (if matches sets r pk then (Some (act r pk).1, (act r pk).2) else (None, pk)).
Proof.
  intros Hes Hr Hpk. pose proof Hr as (Hi & Ho & Hp & Hport & Hmark & _). destruct Hpk as (Ki & Ko & Knet & Kth & Kmark).
  unfold ruleExprs in Hes. destruct (src_set_exprs known r) as [src|] eqn:Hsrc; [|done].
  destruct (dst_set_exprs known r) as [dst|] eqn:Hdst; [|done]. destruct (port_exprs r) as [port|] eqn:Hpo; [|done].
  destruct (actionExprs little r) as [action|] eqn:Hact; [|done]. cbn [mbind option_bind] in Hes. injection Hes as <-.
  unfold matches. rewrite <- !andb_assoc.
  apply gives_and, iif_gives; [done..|]. apply gives_and, oif_gives; [done..|].
  apply gives_and, family_gives. apply gives_and, mark_gives; [done..|]. apply gives_and, l4_gives.
  apply gives_and, prefix_gives; [done..|]. apply gives_and. eapply src_set_gives; [done..|].
  apply gives_and. eapply dst_set_gives; [done..|]. apply gives_and. eapply port_gives; [done..|].
  apply syn_gives. by apply action_gives.
Qed.

Lemma act_packet_ok r pk : packet_ok pk -> packet_ok (act r pk).2.
Proof.
  intros H. unfold act. destruct (Action r); try exact H.
  destruct H as (Ki & Ko & Knet & Kth & _). unfold packet_ok. cbn [snd set_mark pk_iif pk_oif pk_net pk_th pk_mark].
  unfold FwMark. split_and!; [exact Ki|exact Ko|exact Knet|exact Kth|lia|lia].
Qed.

Lemma chain_correct known rules compiled pk :
  Forall2 (fun r es => ruleExprs little known r = Some es /\ rule_ok r) rules compiled -> packet_ok pk ->
  run_compiled little table route_mss compiled pk = run_rules sets rules pk.
Proof.
  intros Hall. revert pk. induction Hall as [|r es rules compiled [Hes Hr] _ IH]; intros pk Hpk; [done|].
  cbn [run_compiled run_rules]. pose proof (compile_correct known r es pk Hes Hr Hpk (fun _ => [])) as Hrun.
  unfold run in Hrun. rewrite Hrun.
  destruct (matches sets r pk); [|by apply IH]. pose proof (act_packet_ok r pk Hpk) as Hok.
  destruct (act r pk) as [o pk']. cbn [fst snd] in *. destruct o; try done. by apply IH.
Qed.

(** ** Properties *)

(** C23: the expressions that a rule compiles to do what the rule means.  On
    every packet the kernel's machine goes past the last condition exactly when
    each condition of the rule holds (interface names, family, mark under its
    mask, protocol, destination prefix, membership in the interval sets with
    their exclusive end markers, port, SYN flag), and then performs the action;
    otherwise the packet is left alone.  This holds for both byte orders, for
    packets with truncated headers, and whatever earlier rules left in the
    registers. *)
Theorem ruleExprs_correct known r es pk regs :
  ruleExprs little known r = Some es -> rule_ok r -> packet_ok pk ->
  exec little table route_mss es regs None pk =
    if matches sets r pk then (Some (act r pk).1, (act r pk).2) else (None, pk).
Proof. intros Hes Hr Hpk. exact (compile_correct known r es pk Hes Hr Hpk regs). Qed.
End groups.

(** ** Witnesses *)

(** Conditions on concrete bytes. *)
Ltac finite := vm_compute; repeat first [discriminate | reflexivity | split | constructor | intros ?].

(** A UDP packet from [wg0] to 10.0.0.9, port 53. *)
Definition dns_packet : packet :=
  MkPacket "wg0" "eth0" 2 17 0
    [69; 0; 0; 60; 0; 0; 0; 0; 64; 17; 0; 0; 10; 8; 0; 2; 10; 0; 0; 9] [200; 0; 0; 53; 0; 40; 0; 0].
Definition sample_ranges (n : string) : option (list (Z * Z)) :=
  if decide (n = SetLocalV4) then Some [(10 * 2 ^ 24, 11 * 2 ^ 24 - 1); (240 * 2 ^ 24, 2 ^ 32 - 1)] else None.
Definition dnat_rule : NftRule :=
  to_set SetLocalV4 (on_l4 UDP (dnat_to (V4 (10 * 2 ^ 24 + 8 * 2 ^ 16 + 1)) 53
    (to_prefix (MkPrefix (V4 (10 * 2 ^ 24 + 8 * 2 ^ 16 + 1)) 32) true (to_port 53
      (on_family IPv4 (on_iif "wg0" false (bare ActionDNAT))))))).

Lemma ruleExprs_correct_witness :
  exists es, ruleExprs true [SetLocalV4] dnat_rule = Some es /\
    exec true (fun n => setElements <$> sample_ranges n) [] es (fun _ => []) None dns_packet =
      (Some (DNATed (10 * 2 ^ 24 + 8 * 2 ^ 16 + 1) 53), dns_packet).
Proof.
  destruct (ruleExprs true [SetLocalV4] dnat_rule) as [es|] eqn:Hes; [|vm_compute in Hes; discriminate].
  exists es. split; [reflexivity|].
  rewrite (ruleExprs_correct true sample_ranges []) with (known := [SetLocalV4]) (r := dnat_rule); [vm_compute; reflexivity| |exact Hes| |].
  - intros n rs. unfold sample_ranges. destruct (decide (n = SetLocalV4)); [|discriminate]. intros [= <-]. finite.
  - split; [finite|]. split; [finite|]. split; [|finite]. exists (10 * 2 ^ 24 + 8 * 2 ^ 16 + 1), 32. finite.
  - finite.
Defined.
