(* ===== verification/NftPolicy.v ===== *)
(** * The packet filter's policy

    [Nft.Apply] and [Nft.Clear] of [internal/netstack/nft.go]: the whole table is
    replaced in one transaction.  The theorem runs the compiled table on
    packets: what is sent to the proxy, what happens to DNS, and that a client
    whose whole traffic is assigned to a tunnel is never forwarded. *)

From S2P Require Import Prelude GoStd Model IPPolicy Nft NftExpr.
#[local] Open Scope Z_scope.

Record CompiledChain := MkCompiled {
  cc_name : string; cc_type : ChainType; cc_hook : Hook; cc_priority : Z; cc_rules : list (list expr) }.
Record Table := MkTable { tb_sets : list (string * list (Z * bool)); tb_chains : list CompiledChain }.

Inductive apply_error := BuildError (e : nft_error) | RuleError | NetlinkError.

Section apply.
Context `{IPS : IPSets} (little : bool).

Definition compile_chain (known : list string) (ch : NftChain) : option CompiledChain :=
  rules ← mapM (ruleExprs little known) ch.(ch_rules);
  Some (MkCompiled ch.(ch_name) ch.(ch_type) ch.(ch_hook) ch.(ch_priority) rules).
Definition compile_table (rs : NftRuleset) : option Table :=
  chains ← mapM (compile_chain (map set_name rs.(rs_sets))) rs.(rs_chains);
  Some (MkTable (map (fun s => (s.(set_name), setElements s.(set_elements))) rs.(rs_sets)) chains).

(** [Apply]; [list_ok] and [flush_ok] say whether the kernel answers the
    listing and accepts the transaction, [kernel] is our table there. *)
Definition Apply (list_ok flush_ok : bool) (cfg : NftConfig) (kernel : option Table)
  : (NftRuleset + apply_error) * option Table :=
  match BuildNftRuleset cfg with
  | inr e => (inr (BuildError e), kernel)
  | inl rs =>
      if negb list_ok then (inr NetlinkError, kernel)
      else match compile_table rs with
           | None => (inr RuleError, kernel)
           | Some tb => if flush_ok then (inl rs, Some tb) else (inr NetlinkError, kernel)
           end
  end.

(** [Clear]: was it done? *)
Definition Clear (list_ok flush_ok : bool) (kernel : option Table) : bool * option Table :=
  if negb list_ok then (false, kernel)
  else match kernel with
       | None => (true, None)
       | Some _ => if flush_ok then (true, None) else (false, kernel)
       end.

(** Running a chain of the table on a packet. *)
Definition table_set (tb : Table) (name : string) : option (list (Z * bool)) :=
  snd <$> head (filter (fun p : string * list (Z * bool) => p.1 = name) tb.(tb_sets)).
Definition run_chain (tb : Table) (name : string) (pk : packet) : outcome * packet :=
  match head (filter (fun c => c.(cc_name) = name) tb.(tb_chains)) with
  | Some c => run_compiled little (table_set tb) [] c.(cc_rules) pk
  | None => (Continue, pk)
  end.
End apply.

(** ** The policy *)

(** Is the address in the set that a list of lines makes? *)
Definition in_list (l : list string) (ip : Z) : bool :=
  existsb (fun s => match subnet_entry s with Some r => in_range ip r | None => false end) l.
Definition tcp_udp (pk : packet) : bool := bool_decide (pk.(pk_l4) = 17) || bool_decide (pk.(pk_l4) = 6).
Definition goes_to (port : Z) (pk : packet) : bool := tcp_udp pk && holds (dst_port pk) (fun p => bool_decide (p = port)).

(** Which IPv4 packets of clients, from [s] to [d], are marked for the proxy. *)
Definition marked (cfg : NftConfig) (resolver s d : Z) (pk : packet) : bool :=
  negb (goes_to 53 pk || goes_to 853 pk) &&
  negb (in_list cfg.(nc_peer_egress) s && bool_decide (d = resolver)) &&
  negb (in_list LocalIPv4 d) &&
  (if in_list cfg.(nc_peer_egress) s then tcp_udp pk
   else Contains FakeIPRange (V4 d) || in_list cfg.(nc_subnets) d || (tcp_udp pk && in_list cfg.(nc_transport) d)).

(** ** Lemmas *)
Section policy.
Context `{IPS : IPSets} (little : bool).

Definition ranges_of (rs : NftRuleset) (name : string) : option (list (Z * Z)) :=
  set_elements <$> head (filter (fun s => s.(set_name) = name) rs.(rs_sets)).

Lemma in_list_ranges l ip : in_ranges (MergeSubnets l).1 ip = in_list l ip.
Proof.
  unfold MergeSubnets, omap_count. cbn [fst]. rewrite Ranges_in. unfold in_list, in_ranges.
  induction l as [|s l IH]; [done|]. cbn [omap list_omap existsb]. destruct (subnet_entry s) as [r|]; [|exact IH].
  cbn [existsb]. by rewrite IH.
Qed.

Lemma prefix_range_ok ip bits : 0 <= ip < 2 ^ 32 -> 0 <= bits <= 32 ->
  0 <= (prefix_range ip bits).1 <= (prefix_range ip bits).2 /\ (prefix_range ip bits).2 < 2 ^ 32.
Proof.
  intros Hip Hb. unfold prefix_range. cbn [fst snd]. set (n := 2 ^ (32 - bits)).
  assert (Hn : 0 < n) by (apply Z.pow_pos_nonneg; lia).
  assert (Hpow : 2 ^ 32 = 2 ^ bits * n) by (unfold n; rewrite <- Z.pow_add_r by lia; f_equal; lia).
  pose proof (Z.div_pos ip n). assert (ip / n < 2 ^ bits) by (apply Z.div_lt_upper_bound; lia). nia.
Qed.

Lemma subnet_entry_ok s r : subnet_entry s = Some r -> 0 <= r.1 <= r.2 /\ r.2 < 2 ^ 32.
Proof.
  unfold subnet_entry. case_decide; [done|]. destruct (ContainsByte _ _).
  - destruct (ParsePrefix (TrimSpace s)) as [[[ip|? ?] bits]|] eqn:Hp; try done. intros [= <-].
    unfold ParsePrefix in Hp. destruct (CutLast _ _) as [[a b]|]; [|done]. destruct (ParseAddr a) as [x|] eqn:Ha; [|done].
    destruct (_ || _); [done|]. destruct (Atoi b) as [n|]; [|done]. case_decide; [|done]. injection Hp as -> ->.
    apply ParseAddr_V4_range in Ha. cbn [BitLen Is4] in *. by apply prefix_range_ok.
  - destruct (ParseAddr (TrimSpace s)) as [[ip|? ?]|] eqn:Ha; try done. intros [= <-].
    apply ParseAddr_V4_range in Ha. cbn. lia.
Qed.

Lemma MergeSubnets_ok l : ranges_ok 0 (MergeSubnets l).1.
Proof.
  unfold MergeSubnets, omap_count. cbn [fst]. apply Ranges_ok. apply Forall_forall. intros r Hr.
  apply list_elem_of_omap in Hr as (s & _ & Hs). by apply subnet_entry_ok with s.
Qed.

Lemma inl_inv {A B} (a b : A) : inl a = inl b :> A + B -> a = b.
Proof. by intros [=]. Qed.

(** What a successful build gives. *)
Lemma Build_inv cfg rs :
  BuildNftRuleset cfg = inl rs ->
  let wg := wg_interface cfg in
  wg <> EmptyString /\ cfg.(nc_wan) <> EmptyString /\
  exists resolver (eg tr : bool), resolverAddr cfg.(nc_resolver) = Some resolver /\
    eg = bool_decide ((MergeSubnets cfg.(nc_peer_egress)).1 <> []) /\
    tr = bool_decide ((MergeSubnets cfg.(nc_transport)).1 <> []) /\
    rs.(rs_sets) =
      ([MkNftSet SetLocalV4 (MergeSubnets LocalIPv4).1; MkNftSet SetSubnets (MergeSubnets cfg.(nc_subnets)).1] ++
       (if tr then [MkNftSet SetTransportSubnets (MergeSubnets cfg.(nc_transport)).1] else []) ++
       (if eg then [MkNftSet SetPeerEgress (MergeSubnets cfg.(nc_peer_egress)).1] else [])) /\
    rs.(rs_chains) =
      [MkNftChain ChainMangle Filter Prerouting priorityMangle (mangle_rules wg resolver eg tr);
       MkNftChain ChainProxy Filter Prerouting priorityProxy proxy_rules;
       MkNftChain ChainDNSNat NAT Prerouting priorityDstNAT (dnsnat_rules wg resolver);
       MkNftChain ChainForward Filter Forward priorityMangle (forward_rules wg eg);
       MkNftChain ChainPostrouting NAT Postrouting prioritySrcNAT
         [on_oif cfg.(nc_wan) (on_iif wg false (bare ActionMasquerade))]].
Proof.
  unfold BuildNftRuleset. cbv zeta. set (wg := wg_interface cfg). intros H.
  destruct (decide (TrimSpace wg = EmptyString)) as [|Hwg]; [done|].
  destruct (decide (TrimSpace (nc_wan cfg) = EmptyString)) as [|Hwan]; [done|].
  destruct (resolverAddr (nc_resolver cfg)) as [resolver|]; [|done]. destruct (negb _); [done|].
  rewrite (surjective_pairing (MergeSubnets (nc_peer_egress cfg))), (surjective_pairing (MergeSubnets LocalIPv4)),
    (surjective_pairing (MergeSubnets (nc_subnets cfg))), (surjective_pairing (MergeSubnets (nc_transport cfg))) in H.
  apply inl_inv in H as <-. split; [intros He; by rewrite He in Hwg|]. split; [intros He; by rewrite He in Hwan|].
  exists resolver, (bool_decide ((MergeSubnets (nc_peer_egress cfg)).1 <> [])),
    (bool_decide ((MergeSubnets (nc_transport cfg)).1 <> [])). done.
Qed.

Lemma table_set_eq rs tb n :
  compile_table little rs = Some tb -> table_set tb n = setElements <$> ranges_of rs n.
Proof.
  unfold compile_table. destruct (mapM _ _); [|done]. intros [= <-]. unfold table_set, ranges_of. cbn [tb_sets].
  induction (rs_sets rs) as [|x xs IH]; [done|]. cbn [map]. rewrite !filter_cons. cbn [fst].
  by destruct (decide (set_name x = n)).
Qed.

Definition set_members (rs : NftRuleset) (n : string) : option (Z -> bool) := in_ranges <$> ranges_of rs n.

Lemma run_chain_eq rs tb name pk :
  compile_table little rs = Some tb -> (forall ch r, ch ∈ rs.(rs_chains) -> r ∈ ch.(ch_rules) -> rule_ok r) ->
  (forall n l, ranges_of rs n = Some l -> ranges_ok 0 l) -> packet_ok pk ->
  run_chain little tb name pk =
  match head (filter (fun c => c.(ch_name) = name) rs.(rs_chains)) with
  | Some ch => run_rules (set_members rs) ch.(ch_rules) pk
  | None => (Continue, pk)
  end.
Proof.
  intros Htb Hok Hranges Hpk. pose proof (fun n => table_set_eq rs tb n Htb) as Hsets.
  unfold run_chain. unfold compile_table in Htb.
  destruct (mapM _ (rs_chains rs)) as [chains|] eqn:Hch; [|done]. injection Htb as Htb.
  assert (tb_chains tb = chains) as -> by (by rewrite <- Htb). clear Htb. apply mapM_Some in Hch.
  induction Hch as [|ch c chs cs Hc _ IH]; [done|]. rewrite !filter_cons.
  unfold compile_chain in Hc. destruct (mapM _ (ch_rules ch)) as [rules|] eqn:Hr; [|done]. injection Hc as <-.
  cbn [cc_name]. destruct (decide (ch_name ch = name)).
  - cbn [head cc_rules]. rewrite (run_compiled_ext little _ (fun n => setElements <$> ranges_of rs n) [] Hsets).
    unfold set_members. apply (chain_correct little (ranges_of rs) [] Hranges) with (known := map set_name (rs_sets rs)); [|done].
    apply mapM_Some in Hr. assert (Hall : forall r, r ∈ ch_rules ch -> rule_ok r) by (intros r Hin; apply (Hok ch); [by left|done]).
    clear -Hr Hall. induction Hr as [|r es l k Hr _ IH]; constructor.
    + split; [done|]. apply Hall. by left.
    + apply IH. intros; apply Hall. by right.
  - apply IH. intros ch' r Hin. apply Hok. by right.
Qed.

Lemma in_list_empty l ip : bool_decide ((MergeSubnets l).1 <> []) = false -> in_list l ip = false.
Proof.
  intros H%bool_decide_eq_false. apply dec_stable in H. by rewrite <- in_list_ranges, H.
Qed.

Lemma set_members_eq cfg rs ip :
  BuildNftRuleset cfg = inl rs ->
  in_set (set_members rs) SetLocalV4 ip = in_list LocalIPv4 ip /\
  in_set (set_members rs) SetSubnets ip = in_list cfg.(nc_subnets) ip /\
  in_set (set_members rs) SetTransportSubnets ip = in_list cfg.(nc_transport) ip /\
  in_set (set_members rs) SetPeerEgress ip = in_list cfg.(nc_peer_egress) ip.
Proof.
  intros (_ & _ & resolver & eg & tr & _ & Heg & Htr & Hsets & _)%Build_inv.
  unfold in_set, set_members, ranges_of. rewrite Hsets. rewrite <- !in_list_ranges.
  split_and!.
  - reflexivity.
  - reflexivity.
  - destruct tr, eg; try reflexivity;
      (transitivity false; [reflexivity|symmetry; rewrite in_list_ranges; by apply in_list_empty]).
  - destruct tr, eg; try reflexivity;
      (transitivity false; [reflexivity|symmetry; rewrite in_list_ranges; by apply in_list_empty]).
Qed.

Lemma ranges_of_ok cfg rs n l : BuildNftRuleset cfg = inl rs -> ranges_of rs n = Some l -> ranges_ok 0 l.
Proof.
  intros (_ & _ & resolver & eg & tr & _ & _ & _ & Hsets & _)%Build_inv. unfold ranges_of. rewrite Hsets. clear Hsets.
  intros (x & Hx & ->)%fmap_Some. apply head_Some_elem_of in Hx. apply list_elem_of_filter in Hx as [_ Hx].
  assert (exists a, set_elements x = (MergeSubnets a).1) as [a ->]; [|apply MergeSubnets_ok].
  repeat (rewrite elem_of_app in Hx || rewrite elem_of_cons in Hx || rewrite elem_of_nil in Hx).
  destruct Hx as [[->|[->|[]]]|[Hx|Hx]]; [by eexists..| |]; [destruct tr|destruct eg];
    first [by apply elem_of_nil in Hx|apply list_elem_of_singleton in Hx as ->; by eexists].
Qed.

Lemma resolverAddr_range s ip : resolverAddr s = Some ip -> 0 <= ip < 2 ^ 32.
Proof.
  unfold resolverAddr. destruct (ParseAddr _) as [[x|? ?]|] eqn:Hp; try done. intros [= <-].
  by apply ParseAddr_V4_range in Hp.
Qed.

Lemma name_ok_empty : name_ok EmptyString.
Proof. split; [constructor|simpl; lia]. Qed.
Lemma prefix_ok_host ip : 0 <= ip < 2 ^ 32 -> prefix_ok (MkPrefix (V4 ip) 32).
Proof. intros Hip. exists ip, 32. split_and!; try done; lia. Qed.
Lemma prefix_ok_fake : prefix_ok FakeIPRange.
Proof. exists (198 * 2 ^ 24 + 18 * 2 ^ 16), 15. split_and!; try done; lia. Qed.

Lemma ok_bare a : rule_ok (bare a).
Proof. unfold rule_ok, bare. cbn [IIf OIf DstPrefix DstPort MarkMatch DNATAddr DNATPort]. pose proof name_ok_empty. split_and!; done || lia. Qed.
Lemma ok_iif i n r : name_ok i -> rule_ok r -> rule_ok (on_iif i n r).
Proof. intros Hi (_ & H). by split. Qed.
Lemma ok_oif o r : name_ok o -> rule_ok r -> rule_ok (on_oif o r).
Proof. intros Ho (Hi & _ & H). by split; [|split]. Qed.
Lemma ok_family f r : rule_ok r -> rule_ok (on_family f r).
Proof. done. Qed.
Lemma ok_prefix p n r : prefix_ok p -> rule_ok r -> rule_ok (to_prefix p n r).
Proof. intros Hp (Hi & Ho & _ & H). by split; [|split; [|split]]. Qed.
Lemma ok_to_set s r : rule_ok r -> rule_ok (to_set s r).
Proof. done. Qed.
Lemma ok_from_set s r : rule_ok r -> rule_ok (from_set s r).
Proof. done. Qed.
Lemma ok_l4 p r : rule_ok r -> rule_ok (on_l4 p r).
Proof. done. Qed.
Lemma ok_syn r : rule_ok r -> rule_ok (on_syn r).
Proof. done. Qed.
Lemma ok_port p r : 0 <= p < 2 ^ 16 -> rule_ok r -> rule_ok (to_port p r).
Proof. intros Hp (Hi & Ho & Hx & _ & H). by split; [|split; [|split; [|split]]]. Qed.
Lemma ok_mark m r : 0 <= m < 2 ^ 32 -> rule_ok r -> rule_ok (on_mark m r).
Proof. intros Hp (Hi & Ho & Hx & Hy & _ & H). by split; [|split; [|split; [|split; [|split]]]]. Qed.
Lemma ok_dnat ip p r : 0 <= ip < 2 ^ 32 -> 0 <= p < 2 ^ 16 -> rule_ok r -> rule_ok (dnat_to (V4 ip) p r).
Proof. intros Hip Hp (Hi & Ho & Hx & Hy & Hz & _). by split; [|split; [|split; [|split; [|split; [|split]]]]]. Qed.

Lemma dns_port_range : 0 <= DNSPort < 2 ^ 16. Proof. unfold DNSPort. lia. Qed.
Lemma dot_port_range : 0 <= DoTPort < 2 ^ 16. Proof. unfold DoTPort. lia. Qed.
Lemma mark_range : 0 <= FwMark < 2 ^ 32. Proof. unfold FwMark. lia. Qed.

#[local] Hint Resolve prefix_ok_host prefix_ok_fake ok_bare ok_iif ok_oif ok_family ok_prefix ok_to_set
  ok_from_set ok_l4 ok_syn ok_port ok_mark ok_dnat dns_port_range dot_port_range mark_range : nft.

Definition builds (known : list string) (r : NftRule) : Prop := rule_ok r /\ is_Some (ruleExprs little known r).

(** One concrete rule: the facts about its fields. *)
Ltac one_rule :=
  split;
  [unfold from_client; auto 12 with nft
  |apply ruleExprs_is_Some;
   [first [left; reflexivity|right; assumption]|first [left; reflexivity|right; assumption]
   |first [left; reflexivity|right; discriminate]
   |first [intros ?; discriminate|intros _; eexists; split; [reflexivity|discriminate]]]].

Lemma mangle_builds known wg resolver eg tr :
  name_ok wg -> 0 <= resolver < 2 ^ 32 -> SetLocalV4 ∈ known -> SetSubnets ∈ known ->
  (tr = true -> SetTransportSubnets ∈ known) -> (eg = true -> SetPeerEgress ∈ known) ->
  Forall (builds known) (mangle_rules wg resolver eg tr).
Proof.
  intros Hwg Hr H1 H2 H3 H4. unfold mangle_rules, portRules.
  destruct eg, tr; try specialize (H3 eq_refl); try specialize (H4 eq_refl); cbn [app];
    repeat (apply List.Forall_cons; [one_rule|]); apply List.Forall_nil.
Qed.

Lemma others_build known wg wan resolver eg :
  name_ok wg -> name_ok wan -> 0 <= resolver < 2 ^ 32 -> (eg = true -> SetPeerEgress ∈ known) ->
  Forall (builds known)
    (proxy_rules ++ dnsnat_rules wg resolver ++ forward_rules wg eg ++ [on_oif wan (on_iif wg false (bare ActionMasquerade))]).
Proof.
  intros Hwg Hwan Hr H4. unfold proxy_rules, dnsnat_rules, forward_rules, portRules.
  destruct eg; try specialize (H4 eq_refl); cbn [app];
    repeat (apply List.Forall_cons; [one_rule|]); apply List.Forall_nil.
Qed.

(** Every rule of a built set compiles. *)
Lemma Build_builds cfg rs :
  BuildNftRuleset cfg = inl rs -> name_ok (wg_interface cfg) -> name_ok cfg.(nc_wan) ->
  forall ch r, ch ∈ rs.(rs_chains) -> r ∈ ch.(ch_rules) -> builds (map set_name rs.(rs_sets)) r.
Proof.
  intros (_ & _ & resolver & eg & tr & Hres & _ & _ & Hsets & Hchains)%Build_inv Hwg Hwan ch r.
  apply resolverAddr_range in Hres. rewrite Hchains. set (known := map set_name (rs_sets rs)).
  assert (Hk : known = [SetLocalV4; SetSubnets] ++ (if tr then [SetTransportSubnets] else []) ++ (if eg then [SetPeerEgress] else [])).
  { unfold known. rewrite Hsets. by destruct eg, tr. }
  assert (Hm : Forall (builds known) (mangle_rules (wg_interface cfg) resolver eg tr)).
  { apply mangle_builds; [exact Hwg|exact Hres|..]; rewrite Hk; [by left|by right; left| |]; intros ->.
    - rewrite !elem_of_app. right. left. by left.
    - rewrite !elem_of_app. right. right. by left. }
  assert (Ho := others_build known (wg_interface cfg) (nc_wan cfg) resolver eg Hwg Hwan Hres).
  assert (Heg : eg = true -> SetPeerEgress ∈ known) by (rewrite Hk; intros ->; rewrite !elem_of_app; right; right; by left).
  specialize (Ho Heg).
  rewrite !Forall_app in Ho. destruct Ho as (Hp & Hd & Hf & Hpo). rewrite Forall_forall in *.
  intros Hch Hr. repeat (apply elem_of_cons in Hch as [->|Hch]; [by eauto|]). by apply elem_of_nil in Hch.
Qed.

Lemma compile_table_is_Some rs :
  (forall ch r, ch ∈ rs.(rs_chains) -> r ∈ ch.(ch_rules) -> builds (map set_name rs.(rs_sets)) r) ->
  is_Some (compile_table little rs).
Proof.
  intros H. unfold compile_table.
  assert (is_Some (mapM (compile_chain little (map set_name (rs_sets rs))) (rs_chains rs))) as [chains ->]; [|by eexists].
  apply mapM_is_Some. apply Forall_forall. intros ch Hch. unfold compile_chain at 1.
  assert (is_Some (mapM (ruleExprs little (map set_name (rs_sets rs))) (ch_rules ch))) as [rules Hrules].
  { apply mapM_is_Some. apply Forall_forall. intros r Hr. by apply (H ch r). }
  unfold compose. rewrite Hrules. by eexists.
Qed.

(** *** The chains on IPv4 packets *)
Ltac closed_bools :=
  repeat match goal with
  | |- context [bool_decide (?x = ?y)] =>
      first [change (bool_decide (x = y)) with true | change (bool_decide (x = y)) with false]
  end.

(** The conditions of one concrete rule. *)
Ltac eval_rule :=
  unfold matches;
  cbn [IIf IIfNeq OIf NFProto DstPrefix DstPrefixNeq DstSet SrcSet L4Proto DstPort MarkMatch TCPSyn DNATAddr DNATPort
       Action on_iif on_oif on_family to_prefix to_set from_set on_l4 to_port on_mark on_syn dnat_to from_client bare
       family_number l4_number negb xorb];
  closed_bools; rewrite ?orb_true_l, ?orb_false_l, ?andb_true_l, ?andb_true_r.

Lemma matches_set_mark sets r m pk : r.(MarkMatch) = 0 -> matches sets r (set_mark m pk) = matches sets r pk.
Proof. intros Hr. unfold matches. by rewrite Hr. Qed.

Lemma Contains_host ip d : Contains (MkPrefix (V4 ip) 32) (V4 d) = bool_decide (d = ip).
Proof.
  unfold Contains, mask_value. cbn [prefix_addr prefix_bits BitLen Is4]. change (2 ^ (32 - 32)) with 1.
  apply bool_decide_ext. rewrite !Z.div_1_r. lia.
Qed.

Section chains.
Context (sets : string -> option (Z -> bool)) (pk : packet) (wg : string) (s d : Z).
Hypothesis (Hwg : wg <> EmptyString) (Hfam : pk.(pk_family) = 2).
Hypothesis (Hsrc : src_ip pk = Some s) (Hdst : dst_ip pk = Some d).
Let E := in_set sets SetPeerEgress s.

Lemma goes_to_eq p : goes_to p pk =
  (bool_decide (pk.(pk_l4) = 17) && holds (dst_port pk) (fun q => bool_decide (q = p))) ||
  (bool_decide (pk.(pk_l4) = 6) && holds (dst_port pk) (fun q => bool_decide (q = p))).
Proof. unfold goes_to, tcp_udp. by destruct (bool_decide _), (bool_decide _), (holds _ _). Qed.

Ltac rule_eval :=
  eval_rule; rewrite ?Hfam, ?Hsrc, ?Hdst; closed_bools; cbn [holds orb];
  rewrite ?(bool_decide_eq_false_2 (wg = EmptyString)) by exact Hwg; cbn [orb andb xorb];
  rewrite ?xorb_false_l, ?andb_true_l, ?andb_true_r; try reflexivity.

Let l4 (p : l4proto) : bool := bool_decide (pk.(pk_l4) = l4_number p).
Let port (p : Z) : bool := holds (dst_port pk) (fun q => bool_decide (q = p)).

Lemma m_not_client a : matches sets (on_iif wg true (bare a)) pk = negb (bool_decide (pk.(pk_iif) = wg)).
Proof. rule_eval. Qed.
Lemma m_port p n a : p <> AnyL4 -> n <> 0 ->
  matches sets (on_l4 p (to_port n (on_family IPv4 (bare a)))) pk = l4 p && port n.
Proof. intros Hp Hn. rule_eval. rewrite (bool_decide_eq_false_2 (p = AnyL4)), (bool_decide_eq_false_2 (n = 0)) by done. done. Qed.
Lemma m_prefix q a : matches sets (to_prefix q false (on_family IPv4 (bare a))) pk = Contains q (V4 d).
Proof. rule_eval. Qed.
Lemma m_prefix_from q n a : n <> EmptyString ->
  matches sets (to_prefix q false (from_set n (on_family IPv4 (bare a)))) pk = Contains q (V4 d) && in_set sets n s.
Proof. intros Hn. rule_eval. by rewrite (bool_decide_eq_false_2 (n = EmptyString)) by done. Qed.
Lemma m_to n a : n <> EmptyString -> matches sets (to_set n (on_family IPv4 (bare a))) pk = in_set sets n d.
Proof. intros Hn. rule_eval. by rewrite (bool_decide_eq_false_2 (n = EmptyString)) by done. Qed.
Lemma m_to_l4 p n a : p <> AnyL4 -> n <> EmptyString ->
  matches sets (on_l4 p (to_set n (on_family IPv4 (bare a)))) pk = l4 p && in_set sets n d.
Proof. intros Hp Hn. rule_eval. by rewrite (bool_decide_eq_false_2 (p = AnyL4)), (bool_decide_eq_false_2 (n = EmptyString)) by done. Qed.
Lemma m_from n a : n <> EmptyString -> matches sets (from_set n (on_family IPv4 (bare a))) pk = in_set sets n s.
Proof. intros Hn. rule_eval. by rewrite (bool_decide_eq_false_2 (n = EmptyString)) by done. Qed.
Lemma m_from_l4 p n a : p <> AnyL4 -> n <> EmptyString ->
  matches sets (on_l4 p (from_set n (on_family IPv4 (bare a)))) pk = l4 p && in_set sets n s.
Proof. intros Hp Hn. rule_eval. by rewrite (bool_decide_eq_false_2 (p = AnyL4)), (bool_decide_eq_false_2 (n = EmptyString)) by done. Qed.

(** A chain of marks and returns: the first rule that matches decides. *)
Definition plain (r : NftRule) : bool := match r.(Action) with ActionReturn | ActionMark => true | _ => false end.

Lemma plain_marked rs : forallb plain rs = true -> (run_rules sets rs (set_mark FwMark pk)).2 = set_mark FwMark pk.
Proof.
  induction rs as [|r rs IH]; [done|]. cbn [forallb run_rules]. intros [Hr Hrs]%andb_true_iff.
  destruct (matches _ _ _); [|by apply IH]. unfold plain in Hr. unfold act. destruct (Action r); try done. by apply IH.
Qed.

Lemma plain_step r rs :
  forallb plain (r :: rs) = true ->
  (run_rules sets (r :: rs) pk).2 =
  if matches sets r pk then match r.(Action) with ActionMark => set_mark FwMark pk | _ => pk end
  else (run_rules sets rs pk).2.
Proof.
  cbn [forallb run_rules]. intros [Hr Hrs]%andb_true_iff. destruct (matches _ _ _); [|done].
  unfold plain in Hr. unfold act. destruct (Action r); try done. by apply plain_marked.
Qed.

Lemma mangle_eval resolver eg tr :
  pk.(pk_iif) = wg -> (eg = false -> E = false) -> (tr = false -> in_set sets SetTransportSubnets d = false) ->
  (run_rules sets (mangle_rules wg resolver eg tr) pk).2 =
  if negb (goes_to 53 pk || goes_to 853 pk) && negb (E && bool_decide (d = resolver)) &&
     negb (in_set sets SetLocalV4 d) &&
     (if E then tcp_udp pk
      else Contains FakeIPRange (V4 d) || in_set sets SetSubnets d || (tcp_udp pk && in_set sets SetTransportSubnets d))
  then set_mark FwMark pk else pk.
Proof.
  intros Hiif Heg Htr. rewrite !goes_to_eq. unfold tcp_udp, mangle_rules, portRules, DNSPort, DoTPort.
  change (bool_decide (pk_l4 pk = 17)) with (l4 UDP). change (bool_decide (pk_l4 pk = 6)) with (l4 TCP).
  fold (port 53) (port 853). destruct eg, tr; cbn [app];
    rewrite !plain_step by reflexivity;
    rewrite m_not_client, ?m_port, ?m_prefix_from, ?m_prefix, ?m_to_l4, ?m_to, ?m_from_l4, ?m_from, ?Contains_host by discriminate;
    rewrite Hiif, (bool_decide_eq_true_2 (wg = wg)) by done; fold E; try rewrite (Heg eq_refl); try rewrite (Htr eq_refl);
    cbn [negb Action on_l4 to_port on_family bare to_prefix from_set to_set run_rules snd];
    generalize (l4 UDP) (l4 TCP) (port 53) (port 853) E (bool_decide (d = resolver)) (in_set sets SetLocalV4 d)
      (Contains FakeIPRange (V4 d)) (in_set sets SetSubnets d) (in_set sets SetTransportSubnets d); clear;
    intros [] [] [] [] [] [] [] [] [] []; reflexivity.
Qed.

Lemma mangle_foreign resolver eg tr :
  pk.(pk_iif) <> wg -> run_rules sets (mangle_rules wg resolver eg tr) pk = (Return, pk).
Proof.
  intros Hiif. unfold mangle_rules. cbn [app run_rules]. rewrite m_not_client.
  by rewrite bool_decide_eq_false_2 by done.
Qed.

Lemma m_client_from n a : n <> EmptyString ->
  matches sets (from_set n (from_client wg a)) pk = bool_decide (pk.(pk_iif) = wg) && in_set sets n s.
Proof. intros Hn. rule_eval. by rewrite (bool_decide_eq_false_2 (n = EmptyString)) by done. Qed.
Lemma m_client_port p n a : p <> AnyL4 -> n <> 0 ->
  matches sets (on_l4 p (to_port n (from_client wg a))) pk = bool_decide (pk.(pk_iif) = wg) && l4 p && port n.
Proof. intros Hp Hn. rule_eval. by rewrite (bool_decide_eq_false_2 (p = AnyL4)), (bool_decide_eq_false_2 (n = 0)) by done. Qed.
Lemma m_client_dnat p to q n m a : p <> AnyL4 -> n <> 0 ->
  matches sets (on_l4 p (dnat_to to m (to_prefix q true (to_port n (from_client wg a))))) pk =
  bool_decide (pk.(pk_iif) = wg) && l4 p && negb (Contains q (V4 d)) && port n.
Proof. intros Hp Hn. rule_eval. by rewrite (bool_decide_eq_false_2 (p = AnyL4)), (bool_decide_eq_false_2 (n = 0)) by done. Qed.
Lemma m_proxy p a : p <> AnyL4 ->
  matches sets (on_l4 p (on_mark FwMark (on_family IPv4 (bare a)))) pk =
  bool_decide (Z.land pk.(pk_mark) FwMark = FwMark) && l4 p.
Proof. intros Hp. rule_eval. by rewrite (bool_decide_eq_false_2 (p = AnyL4)) by done. Qed.
Lemma m_v6 a : matches sets (on_family IPv6 (on_iif wg false (bare a))) pk = false.
Proof. rule_eval. by rewrite andb_false_r. Qed.

Lemma clamp_skip r rs : r.(Action) = ActionClampMSS -> run_rules sets (r :: rs) pk = run_rules sets rs pk.
Proof. intros Ha. cbn [run_rules]. unfold act. rewrite Ha. by destruct (matches _ _ _). Qed.

Lemma dnsnat_eval resolver :
  run_rules sets (dnsnat_rules wg resolver) pk =
  (if bool_decide (pk.(pk_iif) = wg) && goes_to 53 pk && negb (bool_decide (d = resolver))
   then DNATed resolver 53 else Continue, pk).
Proof.
  unfold dnsnat_rules, portRules, DNSPort. rewrite goes_to_eq. cbn [run_rules]. rewrite !m_client_dnat, !Contains_host by discriminate.
  change (bool_decide (pk_l4 pk = 17)) with (l4 UDP). change (bool_decide (pk_l4 pk = 6)) with (l4 TCP). fold (port 53).
  destruct (bool_decide (pk_iif pk = wg)), (l4 UDP), (l4 TCP), (port 53), (bool_decide (d = resolver)); reflexivity.
Qed.

Lemma proxy_eval :
  run_rules sets proxy_rules pk =
  (if bool_decide (Z.land pk.(pk_mark) FwMark = FwMark) && tcp_udp pk then TProxied TProxyAddr TProxyPort else Continue, pk).
Proof.
  unfold proxy_rules, tcp_udp. cbn [run_rules]. rewrite !m_proxy by discriminate.
  change (bool_decide (pk_l4 pk = 17)) with (l4 UDP). change (bool_decide (pk_l4 pk = 6)) with (l4 TCP).
  destruct (bool_decide _), (l4 UDP), (l4 TCP); reflexivity.
Qed.

Lemma forward_eval eg :
  (eg = false -> E = false) ->
  run_rules sets (forward_rules wg eg) pk =
  (if bool_decide (pk.(pk_iif) = wg) && (E || goes_to 853 pk) then Rejected 13 else Continue, pk).
Proof.
  intros Heg. unfold forward_rules, portRules, DoTPort. rewrite goes_to_eq.
  change (bool_decide (pk_l4 pk = 17)) with (l4 UDP). change (bool_decide (pk_l4 pk = 6)) with (l4 TCP). fold (port 853).
  rewrite <- app_comm_cons, <- app_comm_cons, !clamp_skip by reflexivity.
  destruct eg; cbn [app run_rules]; rewrite m_v6, ?m_client_from, ?m_client_port by discriminate; fold E;
    try rewrite (Heg eq_refl); unfold act; cbn [Action on_syn on_l4 from_client on_oif on_family on_iif bare from_set to_port];
    destruct (bool_decide (pk_iif pk = wg)), (l4 UDP), (l4 TCP), (port 853);
    try destruct E; reflexivity.
Qed.
End chains.

Lemma forward_v6 sets pk wg eg :
  wg <> EmptyString -> pk.(pk_family) = 10 -> pk.(pk_iif) = wg ->
  run_rules sets (forward_rules wg eg) pk = (Rejected 1, pk).
Proof.
  intros Hwg Hfam Hiif. unfold forward_rules. cbn [app run_rules].
  assert (matches sets (on_syn (on_l4 TCP (from_client wg ActionClampMSS))) pk = false) as ->.
  { eval_rule. rewrite Hfam. closed_bools. by rewrite ?andb_false_r. }
  assert (matches sets (on_syn (on_l4 TCP (on_family IPv4 (on_oif wg (bare ActionClampMSS))))) pk = false) as ->.
  { eval_rule. rewrite Hfam. closed_bools. by rewrite ?andb_false_r. }
  assert (matches sets (on_family IPv6 (on_iif wg false (bare ActionRejectICMPv6))) pk = true) as ->; [|done].
  eval_rule. rewrite Hfam, Hiif. closed_bools. rewrite (bool_decide_eq_true_2 (wg = wg)) by done.
  by rewrite orb_true_r.
Qed.

(** ** Properties *)

(** C24: the packet filter, as the kernel runs it, implements the documented
    policy.  A configuration that builds always compiles, is put in place of
    the old table in one step, and a failure leaves the old table.  Of the
    packets of clients exactly these are marked for the proxy: no DNS or
    DNS-over-TLS, nothing to local addresses, and then everything over TCP or
    UDP from a client whose whole traffic is assigned to a tunnel (except to
    the resolver), and from others what goes to the fake addresses, to the
    listed subnets, or over TCP or UDP to the transport subnets.  Marked
    TCP and UDP goes to the proxy.  Plain DNS to any other address is rewritten
    to the resolver.  DNS-over-TLS, IPv6, and anything of a whole-traffic client
    that would be forwarded past the proxy is refused; packets of others are
    left alone. *)
Theorem Nft_policy cfg old rs :
  BuildNftRuleset cfg = inl rs -> name_ok (wg_interface cfg) -> name_ok cfg.(nc_wan) ->
  exists tb resolver,
    Apply little true true cfg old = (inl rs, Some tb) /\
    (forall l f e k, Apply little l f cfg old = (inr e, k) -> k = old) /\
    resolverAddr cfg.(nc_resolver) = Some resolver /\
    forall pk s d, packet_ok pk -> src_ip pk = Some s -> dst_ip pk = Some d -> pk.(pk_family) = 2 ->
      let client := bool_decide (pk.(pk_iif) = wg_interface cfg) in
      (run_chain little tb ChainMangle pk).2 =
        (if client && marked cfg resolver s d pk then set_mark FwMark pk else pk) /\
      run_chain little tb ChainProxy pk =
        (if bool_decide (Z.land pk.(pk_mark) FwMark = FwMark) && tcp_udp pk then TProxied TProxyAddr TProxyPort else Continue, pk) /\
      run_chain little tb ChainDNSNat pk =
        (if client && goes_to 53 pk && negb (bool_decide (d = resolver)) then DNATed resolver 53 else Continue, pk) /\
      run_chain little tb ChainForward pk =
        (if client && (in_list cfg.(nc_peer_egress) s || goes_to 853 pk) then Rejected 13 else Continue, pk) /\
      forall pk6, packet_ok pk6 -> pk6.(pk_family) = 10 -> pk6.(pk_iif) = wg_interface cfg ->
        run_chain little tb ChainForward pk6 = (Rejected 1, pk6).
Proof.
  intros Hb Hwg Hwan. pose proof (Build_builds cfg rs Hb Hwg Hwan) as Hbuilds.
  destruct (compile_table_is_Some rs Hbuilds) as [tb Htb].
  pose proof (Build_inv cfg rs Hb) as (Hwg' & _ & resolver & eg & tr & Hres & Heg & Htr & _ & Hchains).
  exists tb, resolver. split_and!.
  - unfold Apply. by rewrite Hb, Htb.
  - intros l f e k. unfold Apply. rewrite Hb, Htb. destruct l, f; cbn [negb]; congruence.
  - done.
  - intros pk s d Hpk Hsrc Hdst Hfam client.
    assert (Hrun : forall name pk, packet_ok pk -> run_chain little tb name pk =
      match head (filter (fun c => c.(ch_name) = name) rs.(rs_chains)) with
      | Some ch => run_rules (set_members rs) ch.(ch_rules) pk | None => (Continue, pk) end).
    { intros name pk0 Hpk0. apply run_chain_eq; [done| | |done].
      - intros ch r Hch Hr. by apply (Hbuilds ch r).
      - intros n l. by apply (ranges_of_ok cfg). }
    pose proof (fun ip => set_members_eq cfg rs ip Hb) as Hset.
    assert (HE : eg = false -> in_set (set_members rs) SetPeerEgress s = false).
    { intros He. destruct (Hset s) as (_ & _ & _ & ->). apply in_list_empty. by rewrite <- Heg. }
    assert (HT : tr = false -> in_set (set_members rs) SetTransportSubnets d = false).
    { intros He. destruct (Hset d) as (_ & _ & -> & _). apply in_list_empty. by rewrite <- Htr. }
    destruct (Hset d) as (Hl & Hs & Ht & _). destruct (Hset s) as (_ & _ & _ & He).
    rewrite Hchains in Hrun. split_and!.
    + rewrite Hrun by done. change (head _) with (Some (MkNftChain ChainMangle Filter Prerouting priorityMangle (mangle_rules (wg_interface cfg) resolver eg tr))).
      cbn [ch_rules]. unfold client. destruct (decide (pk_iif pk = wg_interface cfg)) as [Hc|Hc];
        [rewrite (bool_decide_eq_true_2 _ Hc)|rewrite (bool_decide_eq_false_2 _ Hc)].
      * rewrite (mangle_eval (set_members rs) pk (wg_interface cfg) s d Hwg' Hfam Hsrc Hdst resolver eg tr Hc HE HT). rewrite Hl, Hs, Ht, He. reflexivity.
      * by rewrite (mangle_foreign (set_members rs) pk (wg_interface cfg) Hwg' resolver eg tr Hc).
    + rewrite Hrun by done. change (head _) with (Some (MkNftChain ChainProxy Filter Prerouting priorityProxy proxy_rules)).
      cbn [ch_rules]. by eapply proxy_eval.
    + rewrite Hrun by done. change (head _) with (Some (MkNftChain ChainDNSNat NAT Prerouting priorityDstNAT (dnsnat_rules (wg_interface cfg) resolver))).
      cbn [ch_rules]. by eapply dnsnat_eval.
    + rewrite Hrun by done. change (head _) with (Some (MkNftChain ChainForward Filter Forward priorityMangle (forward_rules (wg_interface cfg) eg))).
      cbn [ch_rules]. rewrite (forward_eval (set_members rs) pk (wg_interface cfg) s Hwg' Hfam Hsrc eg HE). by rewrite He.
    + intros pk6 Hpk6 Hfam6 Hi6. rewrite Hrun by done.
      change (head _) with (Some (MkNftChain ChainForward Filter Forward priorityMangle (forward_rules (wg_interface cfg) eg))).
      by apply forward_v6.
Qed.
End policy.

(** ** Witnesses *)

(** A set builder: each interval is merged into a sorted list. *)
Fixpoint add_range (a b : Z) (l : list (Z * Z)) : list (Z * Z) :=
  match l with
  | [] => [(a, b)]
  | (c, d) :: l' =>
      if decide (b + 1 < c) then (a, b) :: l
      else if decide (d + 1 < a) then (c, d) :: add_range a b l'
      else add_range (Z.min a c) (Z.max b d) l'
  end.
Definition merged_ranges (l : list (Z * Z)) : list (Z * Z) :=
  foldr (fun r acc => if decide (r.1 <= r.2) then add_range r.1 r.2 acc else acc) [] l.

Lemma add_range_proper a b l :
  a <= b -> Forall (fun r => r.1 <= r.2) l ->
  Forall (fun r => r.1 <= r.2) (add_range a b l) /\
  forall ip, in_ranges (add_range a b l) ip = in_range ip (a, b) || in_ranges l ip.
Proof.
  intros Hab Hl. revert a b Hab. induction Hl as [|[c d] l Hcd Hl IH]; intros a b Hab; cbn [add_range fst snd] in *.
  { split; [by repeat constructor|done]. }
  repeat case_decide.
  - split; [|done]. by repeat constructor.
  - destruct (IH a b Hab) as [H1 H2]. split; [by constructor|]. intros ip. cbn [in_ranges existsb].
    fold (in_ranges (add_range a b l) ip) (in_ranges l ip). rewrite H2. by destruct (in_range ip (a, b)), (in_range ip (c, d)).
  - destruct (IH (Z.min a c) (Z.max b d)) as [H1 H2]; [lia|]. split; [done|]. intros ip. rewrite H2.
    cbn [in_ranges existsb]. fold (in_ranges l ip). rewrite orb_assoc. f_equal. unfold in_range. cbn [fst snd].
    rewrite <- bool_decide_or. apply bool_decide_ext. lia.
Qed.

Lemma ranges_ok_mono low low' l : ranges_ok low l -> low' <= low -> ranges_ok low' l.
Proof. destruct l as [|[c d] l]; [done|]. cbn. intuition lia. Qed.

Lemma add_range_ok low a b l :
  ranges_ok low l -> low <= a -> a <= b -> b < 2 ^ 32 -> ranges_ok low (add_range a b l).
Proof.
  revert low a b. induction l as [|[c d] l IH]; intros low a b Hl Ha Hab Hb; cbn [add_range].
  { cbn. lia. }
  cbn [ranges_ok fst snd] in Hl. destruct Hl as (Hcd & Hd & Hl). repeat case_decide.
  - cbn [ranges_ok fst snd]. split_and!; [lia|lia|lia|lia|lia|lia|done].
  - cbn [ranges_ok fst snd]. split_and!; [lia|lia|lia|]. by apply IH; [|lia..].
  - apply IH; [|lia..]. by apply (ranges_ok_mono (d + 2)); [|lia].
Qed.

Lemma merged_ranges_spec l :
  Forall (fun r => r.1 <= r.2) (merged_ranges l) /\ forall ip, in_ranges (merged_ranges l) ip = in_ranges l ip.
Proof.
  induction l as [|[a b] l [IH1 IH2]]; [done|]. cbn [merged_ranges foldr fst snd]. fold (merged_ranges l). case_decide.
  - destruct (add_range_proper a b (merged_ranges l)) as [H1 H2]; [done..|]. split; [done|]. intros ip. by rewrite H2, IH2.
  - split; [done|]. intros ip. rewrite IH2. cbn [in_ranges existsb].
    assert (in_range ip (a, b) = false) as ->; [|done]. apply bool_decide_eq_false. cbn [fst snd]. lia.
Qed.

#[local] Program Instance merging_sets : IPSets := {| Ranges := merged_ranges |}.
Next Obligation. intros l ip. by apply merged_ranges_spec. Qed.
Next Obligation.
  intros l. induction 1 as [|[a b] l Hr _ IH]; [done|]. cbn [merged_ranges foldr fst snd] in *. fold (merged_ranges l).
  case_decide; [|done]. by apply add_range_ok; [|lia..].
Qed.

Definition sample_cfg : NftConfig :=
  MkNftConfig ["10.8.0.7"]%string "" "eth0" "" ["91.108.4.0/22"; "91.108.8.0/22"; "#"]%string [].

(** A TCP packet of the whole-traffic client 10.8.0.7 to 93.184.216.34:443. *)
Definition web_packet : packet :=
  MkPacket "wg0" "eth0" 2 6 0
    [69; 0; 0; 60; 0; 0; 0; 0; 64; 6; 0; 0; 10; 8; 0; 7; 93; 184; 216; 34] [200; 0; 1; 187; 0; 0; 0; 0; 0; 0; 0; 0; 80; 2].

Lemma web_packet_ok : packet_ok web_packet.
Proof. finite. Qed.
Lemma marked_packet_ok : packet_ok (set_mark FwMark web_packet).
Proof. finite. Qed.

Lemma sample_names_ok : name_ok (wg_interface sample_cfg) /\ name_ok (nc_wan sample_cfg).
Proof. finite. Qed.

Lemma Nft_policy_witness :
  exists rs tb, BuildNftRuleset sample_cfg = inl rs /\ rs.(rs_skipped) = 1 /\
    Apply true true true sample_cfg None = (inl rs, Some tb) /\
    (run_chain true tb ChainMangle web_packet).2 = set_mark FwMark web_packet /\
    run_chain true tb ChainProxy (set_mark FwMark web_packet) = (TProxied TProxyAddr 1602, set_mark FwMark web_packet) /\
    run_chain true tb ChainForward web_packet = (Rejected 13, web_packet).
Proof.
  destruct (BuildNftRuleset sample_cfg) as [rs|e] eqn:Hb; [|vm_compute in Hb; discriminate].
  destruct sample_names_ok as [Hw Hn].
  destruct (Nft_policy true sample_cfg None rs Hb Hw Hn) as (tb & resolver & Ha & _ & Hres & H).
  exists rs, tb. split; [reflexivity|]. split; [apply inl_inv in Hb; rewrite <- Hb; vm_compute; reflexivity|].
  split; [exact Ha|]. assert (Hr : resolver = 10 * 2 ^ 24 + 8 * 2 ^ 16 + 1).
  { vm_compute in Hres. injection Hres as <-. reflexivity. }
  clear Hres. subst resolver.
  pose proof (H web_packet (10 * 2 ^ 24 + 8 * 2 ^ 16 + 7) 1572395042 web_packet_ok eq_refl eq_refl eq_refl) as (Hm & _ & _ & Hf & _).
  pose proof (H (set_mark FwMark web_packet) (10 * 2 ^ 24 + 8 * 2 ^ 16 + 7) 1572395042 marked_packet_ok eq_refl eq_refl eq_refl)
    as (_ & Hp & _).
  split; [|split].
  - rewrite Hm. vm_compute. reflexivity.
  - rewrite Hp. vm_compute. reflexivity.
  - rewrite Hf. vm_compute. reflexivity.
Defined.
