(* ===== verification/TunnelEvents.v ===== *)
(** * Notifications about tunnels

    [internal/api/notify_events.go]: when a sequence of checks of a tunnel is
    worth a message.  The state lives in memory; what was already told lives in
    the database.  Times are nanoseconds. *)

From S2P Require Import Prelude GoStd Model.
#[local] Open Scope Z_scope.

Definition tunnelUnknown : string := "unknown".
Definition tunnelUp : string := "up".
Definition tunnelSlow : string := "slow".
Definition tunnelDown : string := "down".
Definition tunnelNotApplied : string := "not_applied".

Definition confirmChecks : Z := 3.
Definition unstableWindow : Z := hour.
Definition unstableChanges : nat := 4.
Definition unstableMute : Z := hour.
Definition eventUp : string := "up".
Definition eventDown : string := "down".

Definition eventFor (status : string) : string :=
  if decide (status = tunnelUp \/ status = tunnelSlow) then eventUp
  else if decide (status = tunnelDown) then eventDown else EmptyString.

Record tunnelEventState := MkEventState {
  candidate : string; streak : Z; changes : list Z; mutedTill : Z }.
Definition new_event_state : tunnelEventState := MkEventState EmptyString 0 [] zero_time.

(** The texts of the messages, as constructors. *)
Inductive message := Unstable (name : string) (changes : nat) | FellDown (name : string) | BackUp (name : string).
Record verdict := MkVerdict { Confirmed : string; Message : option message }.

Definition pruneBefore (times : list Z) (edge : Z) : list Z := filter (fun t => edge < t) times.
Definition eventMessage (name state : string) : message :=
  if decide (state = eventDown) then FellDown name else BackUp name.

(** [observe], on the state of one tunnel. *)
Definition observe (st : tunnelEventState) (name status notified : string) (now : Z) : verdict * tunnelEventState :=
  let got := eventFor status in
  if decide (got = EmptyString)
  then (MkVerdict EmptyString None, MkEventState EmptyString 0 st.(changes) st.(mutedTill))
  else
    let streak := if decide (got = st.(candidate)) then st.(streak) + 1 else 1 in
    let st := MkEventState got streak st.(changes) st.(mutedTill) in
    if decide (streak < confirmChecks) then (MkVerdict EmptyString None, st)
    else if decide (got = notified) then (MkVerdict got None, st)
    else if decide (notified = EmptyString /\ got = eventUp) then (MkVerdict got None, st)
    else
      let changes := pruneBefore st.(changes) (now - unstableWindow) ++ [now] in
      let st := MkEventState got streak changes st.(mutedTill) in
      if decide (unstableChanges < length changes)%nat then
        if decide (now < st.(mutedTill)) then (MkVerdict got None, st)
        else (MkVerdict got (Some (Unstable name (length changes))),
              MkEventState got streak changes (now + unstableMute))
      else (MkVerdict got (Some (eventMessage name got)), st).

(** The table of all tunnels: [observe] and [forget]. *)
Definition observe_at (m : gmap string tunnelEventState) (id name status notified : string) (now : Z)
  : verdict * gmap string tunnelEventState :=
  let '(v, st) := observe (default new_event_state (m !! id)) name status notified now in (v, <[id := st]> m).
Definition forget (m : gmap string tunnelEventState) (alive : list string) : gmap string tunnelEventState :=
  filter (fun p => p.1 ∈ alive) m.

(** ** A tunnel under watch *)

(** One check: its status and time, and whether the new status could be
    stored before the message was to be sent. *)
Record check := MkCheckObs { o_status : string; o_at : Z; o_stored : bool }.

(** One round for the tunnel: the state, what was told, and what is sent. *)
Definition watch_step (name : string) (st : tunnelEventState) (notified : string) (o : check)
  : option message * tunnelEventState * string :=
  let '(v, st) := observe st name o.(o_status) notified o.(o_at) in
  if decide (v.(Confirmed) = EmptyString \/ v.(Confirmed) = notified) then (None, st, notified)
  else if o.(o_stored) then (v.(Message), st, v.(Confirmed))
  else (None, st, notified).

Fixpoint watch (name : string) (st : tunnelEventState) (notified : string) (l : list check) : list (Z * message) :=
  match l with
  | [] => []
  | o :: l =>
      let '(m, st, notified) := watch_step name st notified o in
      match m with Some m => [(o.(o_at), m)] | None => [] end ++ watch name st notified l
  end.

(** ** Lemmas *)
Definition about (m : message) : bool := match m with Unstable _ _ => true | _ => false end.

(** How a step can send something. *)
Lemma watch_step_inv name st notified o m st' notified' :
  watch_step name st notified o = (m, st', notified') ->
  (* nothing is sent, and the marks of the state only get fewer or one more *)
  (m = None /\ (st'.(changes) = st.(changes) /\ st'.(mutedTill) = st.(mutedTill) \/
                st'.(changes) = pruneBefore st.(changes) (o.(o_at) - hour) ++ [o.(o_at)] /\
                (st'.(mutedTill) = st.(mutedTill) \/ st'.(mutedTill) = o.(o_at) + hour /\ st.(mutedTill) <= o.(o_at)))) \/
  (exists x, m = Some x /\ notified' = eventFor o.(o_status) /\ notified' <> EmptyString /\ notified' <> notified /\
    st'.(changes) = pruneBefore st.(changes) (o.(o_at) - hour) ++ [o.(o_at)] /\
    st'.(streak) >= 3 /\ st'.(candidate) = notified' /\
    ((exists n, x = Unstable name n /\ st.(mutedTill) <= o.(o_at) /\ st'.(mutedTill) = o.(o_at) + hour) \/
     (x = eventMessage name notified' /\ (length st'.(changes) <= 4)%nat /\ st'.(mutedTill) = st.(mutedTill)))).
Proof.
  unfold watch_step, observe. set (got := eventFor (o_status o)).
  destruct (decide (got = EmptyString)) as [Hg|Hg]; [rewrite decide_True by (by left); intros [= <- <- <-]; left; naive_solver|].
  cbn [candidate streak changes mutedTill]. set (k := if decide (got = candidate st) then _ else _).
  destruct (decide (k < confirmChecks)) as [Hk|Hk]; [rewrite decide_True by (by left); intros [= <- <- <-]; left; naive_solver|].
  destruct (decide (got = notified)) as [Hn|Hn]; [rewrite decide_True by (by right); intros [= <- <- <-]; left; naive_solver|].
  unfold confirmChecks in Hk.
  destruct (decide (notified = EmptyString /\ got = eventUp)) as [Hu|Hu].
  { cbn [Confirmed Message]. rewrite decide_False by tauto. destruct (o_stored o); intros [= <- <- <-]; left; naive_solver. }
  destruct (decide (unstableChanges < _)%nat) as [Hc|Hc].
  - destruct (decide (o_at o < mutedTill st)) as [Hm|Hm]; cbn [Confirmed Message]; rewrite decide_False by tauto.
    + destruct (o_stored o); intros [= <- <- <-]; left; (split; [done|]); right; cbn; auto.
    + destruct (o_stored o); intros [= <- <- <-].
      * right. eexists. split_and!; try done; cbn; first [lia|left; eexists; split_and!; [done|lia|done]].
      * left. split; [done|]. right. cbn. split; [done|]. right. split; [done|lia].
  - cbn [Confirmed Message]. rewrite decide_False by tauto. destruct (o_stored o); intros [= <- <- <-].
    + right. unfold unstableChanges in Hc. eexists. split_and!; try done; cbn; first [lia|right; split_and!; [done|lia|done]].
    + left. split; [done|]. right. cbn. auto.
Qed.

(** *** The rate of messages *)
Definition in_window (T t : Z) : Prop := T <= t < T + hour.
#[export] Instance in_window_dec T t : Decision (in_window T t).
Proof. unfold in_window. apply _. Defined.

Definition ordinary (l : list (Z * message)) : list Z := map fst (filter (fun x => about x.2 = false) l).
Definition alarms (l : list (Z * message)) : list Z := map fst (filter (fun x => about x.2 = true) l).

Lemma window_split T l :
  length (filter (fun x => in_window T x.1) l) =
  (length (filter (in_window T) (ordinary l)) + length (filter (in_window T) (alarms l)))%nat.
Proof.
  unfold ordinary, alarms. induction l as [|[t m] l IH]; [done|]. rewrite !filter_cons. cbn [fst snd].
  destruct (about m); [rewrite (decide_False (P := true = false)) by done; rewrite (decide_True (P := true = true)) by done
    |rewrite (decide_True (P := false = false)) by done; rewrite (decide_False (P := false = true)) by done];
    cbn [map fst]; rewrite filter_cons; destruct (decide (in_window T t)); cbn [length]; lia.
Qed.

Lemma ordinary_app l k : ordinary (l ++ k) = ordinary l ++ ordinary k.
Proof. unfold ordinary. by rewrite filter_app, map_app. Qed.
Lemma alarms_app l k : alarms (l ++ k) = alarms l ++ alarms k.
Proof. unfold alarms. by rewrite filter_app, map_app. Qed.

(** What the state remembers of the messages sent until the time [c]. *)
Record rated (past : list (Z * message)) (st : tunnelEventState) (c : Z) : Prop := {
  rt_past : forall x, x ∈ past -> x.1 <= c;
  rt_changes : exists c0, c0 <= c /\ filter (fun t => c0 - hour < t) (ordinary past) ⊆+ st.(changes);
  rt_muted : forall t, t ∈ alarms past -> t + hour <= st.(mutedTill);
  rt_ordinary : forall T, (length (filter (in_window T) (ordinary past)) <= 4)%nat;
  rt_alarms : forall T, (length (filter (in_window T) (alarms past)) <= 1)%nat
}.

Lemma rated_new c : rated [] new_event_state c.
Proof. split; try done; [by intros x ?%elem_of_nil|exists c; split; [lia|done]|by intros t ?%elem_of_nil|cbn; lia|cbn; lia]. Qed.

Lemma filter_submseteq {A} (P : A -> Prop) `{!forall x, Decision (P x)} (l k : list A) : l ⊆+ k -> filter P l ⊆+ filter P k.
Proof.
  intros [k' ->]%submseteq_Permutation. rewrite filter_app. by apply submseteq_inserts_r.
Qed.
Lemma filter_none {A} (P : A -> Prop) `{!forall x, Decision (P x)} (l : list A) : (forall x, x ∈ l -> ~ P x) -> filter P l = [].
Proof.
  induction l as [|x l IH]; intros Hn; [done|]. rewrite filter_cons, decide_False by (apply Hn; by left).
  apply IH. intros; apply Hn; by right.
Qed.

Lemma pruned_submseteq c0 c (l k : list Z) :
  c0 <= c -> filter (fun t => c0 - hour < t) l ⊆+ k -> filter (fun t => c - hour < t) l ⊆+ pruneBefore k (c - hour).
Proof.
  intros Hc H. apply (filter_submseteq (fun t => c - hour < t)) in H. unfold pruneBefore.
  rewrite list_filter_filter_l in H; [done|]. intros t Ht. lia.
Qed.

Lemma ordinary_In l t : t ∈ ordinary l -> exists m, (t, m) ∈ l.
Proof. intros ([u m] & -> & [_ H]%list_elem_of_filter)%list_elem_of_fmap. by exists m. Qed.
Lemma alarms_In l t : t ∈ alarms l -> exists m, (t, m) ∈ l.
Proof. intros ([u m] & -> & [_ H]%list_elem_of_filter)%list_elem_of_fmap. by exists m. Qed.

Lemma filter_length_le {A} (P Q : A -> Prop) `{!forall x, Decision (P x), !forall x, Decision (Q x)} l :
  (forall x, x ∈ l -> P x -> Q x) -> (length (filter P l) <= length (filter Q l))%nat.
Proof.
  induction l as [|x l IH]; intros Hpq; [done|]. rewrite !filter_cons.
  assert (IH' : (length (filter P l) <= length (filter Q l))%nat) by (apply IH; intros y Hy; apply Hpq; by right).
  destruct (decide (P x)) as [Hp|Hp]; destruct (decide (Q x)) as [Hq|Hq]; cbn [length]; try lia.
  exfalso. apply Hq, Hpq; [by left|done].
Qed.

Lemma hour_pos : 0 < hour.
Proof. done. Qed.

Lemma rated_step past name st notified o m st' notified' c :
  rated past st c -> c <= o.(o_at) -> watch_step name st notified o = (m, st', notified') ->
  rated (past ++ match m with Some m => [(o.(o_at), m)] | None => [] end) st' o.(o_at).
Proof.
  pose proof hour_pos as Hh. intros [Hpast (c0 & Hc0 & Hch) Hmute Hord Hal] Hc Hstep. set (t := o_at o) in *.
  assert (Hpast' : forall x, x ∈ past -> x.1 <= t) by (intros x Hx; specialize (Hpast x Hx); lia).
  pose proof (pruned_submseteq c0 t _ _ ltac:(lia) Hch) as Hpr.
  apply watch_step_inv in Hstep as [(-> & Hst)|(x & -> & _ & _ & _ & Hst & _ & _ & Hx)].
  - rewrite app_nil_r. split; try done.
    + destruct Hst as [[-> _]|[-> _]].
      * exists c0. split; [lia|done].
      * exists t. split; [lia|]. etransitivity; [exact Hpr|]. apply submseteq_inserts_r. done.
    + intros u Hu. specialize (Hmute u Hu). destruct Hst as [[_ ->]|[_ [->|[-> Hle]]]]; [lia|lia|fold t in Hle |- *; lia].
  - assert (Hall : forall y, y ∈ past ++ [(t, x)] -> y.1 <= t).
    { intros y [Hy|Hy%list_elem_of_singleton]%elem_of_app; [by apply Hpast'|subst y; cbn; lia]. }
    destruct Hx as [(n & -> & Hm & Hm')|(-> & Hlen & Hm')].
    + assert (Ho : ordinary (past ++ [(t, Unstable name n)]) = ordinary past) by (rewrite ordinary_app; apply app_nil_r).
      assert (Ha : alarms (past ++ [(t, Unstable name n)]) = alarms past ++ [t]) by (by rewrite alarms_app).
      split; [done| | | |]; rewrite ?Ho, ?Ha.
      * exists t. split; [lia|]. rewrite Hst. etransitivity; [exact Hpr|]. apply submseteq_inserts_r. done.
      * intros u [Hu|Hu%list_elem_of_singleton]%elem_of_app; [specialize (Hmute u Hu); lia|subst u; lia].
      * done.
      * intros T. rewrite filter_app, length_app. destruct (decide (in_window T t)) as [Hw|Hw].
        -- assert (filter (in_window T) (alarms past) = []) as ->.
           { apply filter_none. intros u Hu Hwu. specialize (Hmute u Hu). unfold in_window in *. lia. }
           by rewrite filter_cons, decide_True.
        -- rewrite filter_cons, decide_False by done. specialize (Hal T). cbn. lia.
    + assert (Hab : about (eventMessage name notified') = false) by (unfold eventMessage; by case_decide).
      assert (Ho : ordinary (past ++ [(t, eventMessage name notified')]) = ordinary past ++ [t]).
      { rewrite ordinary_app. f_equal. unfold ordinary. rewrite filter_cons. cbn [snd]. by rewrite decide_True. }
      assert (Ha : alarms (past ++ [(t, eventMessage name notified')]) = alarms past).
      { rewrite alarms_app. unfold alarms at 2. rewrite filter_cons. cbn [snd]. rewrite decide_False by congruence. apply app_nil_r. }
      split; [done| | | |]; rewrite ?Ho, ?Ha.
      * exists t. split; [lia|]. rewrite Hst, filter_app. apply submseteq_app; [done|].
        rewrite filter_cons. case_decide; [done|]. apply submseteq_nil_l.
      * intros u Hu. specialize (Hmute u Hu). lia.
      * intros T. rewrite filter_app, length_app. destruct (decide (in_window T t)) as [Hw|Hw].
        -- rewrite (filter_cons _ t), decide_True by done. cbn [length filter list_filter].
           apply submseteq_length in Hpr. rewrite Hst, length_app in Hlen. cbn [length] in Hlen.
           assert (length (filter (in_window T) (ordinary past)) <= length (filter (fun u => (t - hour < u)%Z) (ordinary past)))%nat; [|unfold t in *; lia].
           apply filter_length_le. intros u _ Hu. unfold in_window in *. lia.
        -- rewrite (filter_cons _ t), decide_False by done. specialize (Hord T). cbn. lia.
      * done.
Qed.

Lemma rated_watch past name st notified l c :
  rated past st c -> Forall (fun o => c <= o.(o_at)) l -> StronglySorted (fun a b => a.(o_at) <= b.(o_at)) l ->
  exists st' c', rated (past ++ watch name st notified l) st' c'.
Proof.
  intros Hr Hc Hs. revert past st notified c Hr Hc. induction Hs as [|o l Hs IH Ho]; intros past st notified c Hr Hc.
  { exists st, c. by rewrite app_nil_r. }
  apply Forall_cons in Hc as [Hc _]. cbn [watch]. destruct (watch_step name st notified o) as [[m st'] notified'] eqn:Hstep.
  pose proof (rated_step _ _ _ _ _ _ _ _ _ Hr Hc Hstep) as Hr'. rewrite app_assoc. by apply (IH _ _ _ (o_at o)).
Qed.

(** *** Confirmation *)

(** The state counts the last checks with the same event. *)
Definition counted (hist : list check) (st : tunnelEventState) : Prop :=
  0 <= st.(streak) /\
  exists pre last, hist = pre ++ last /\ Z.of_nat (length last) = st.(streak) /\
    Forall (fun o => eventFor o.(o_status) = st.(candidate)) last.

Lemma counted_step hist name st notified o m st' notified' :
  counted hist st -> watch_step name st notified o = (m, st', notified') ->
  counted (hist ++ [o]) st' /\
  (eventFor o.(o_status) <> EmptyString ->
   st'.(candidate) = eventFor o.(o_status) /\
   st'.(streak) = if decide (eventFor o.(o_status) = st.(candidate)) then st.(streak) + 1 else 1).
Proof.
  intros (Hk & pre & last & -> & Hlen & Hall) Hstep.
  assert (Hst' : if decide (eventFor o.(o_status) = EmptyString) then st'.(candidate) = EmptyString /\ st'.(streak) = 0
    else st'.(candidate) = eventFor o.(o_status) /\
         st'.(streak) = if decide (eventFor o.(o_status) = st.(candidate)) then st.(streak) + 1 else 1).
  { unfold watch_step, observe in Hstep. destruct (decide (eventFor (o_status o) = EmptyString)).
    - rewrite decide_True in Hstep by (by left). by injection Hstep as _ <- _.
    - repeat (case_decide || case_match); simplify_eq; cbn in *; simplify_eq; done. }
  destruct (decide (eventFor (o_status o) = EmptyString)) as [He|He].
  - destruct Hst' as [H1 H2]. split; [|done]. split; [lia|]. exists ((pre ++ last) ++ [o]), []. rewrite app_nil_r, H2. done.
  - split; [|done]. destruct Hst' as [H1 H2]. unfold counted. rewrite H2, H1. case_decide as Hc.
    + split; [lia|]. exists pre, (last ++ [o]). rewrite app_assoc, length_app. cbn [length]. split_and!; [done|lia|].
      apply Forall_app. split; [|by constructor]. by rewrite Hc.
    + split; [lia|]. exists (pre ++ last), [o]. split_and!; [done|done|]. by constructor.
Qed.

Lemma counted_new : counted [] new_event_state.
Proof. split; [done|]. by exists [], []. Qed.

(** Three consecutive checks that agree. *)
Definition confirmed_by (hist : list check) (e : string) : Prop :=
  exists pre a b c, hist = pre ++ [a; b; c] /\
    eventFor a.(o_status) = e /\ eventFor b.(o_status) = e /\ eventFor c.(o_status) = e.

Lemma counted_three hist st : counted hist st -> 3 <= st.(streak) -> confirmed_by hist st.(candidate).
Proof.
  intros (_ & pre & last & -> & Hlen & Hall) Hk.
  destruct last as [|c last _] using rev_ind; [simpl in Hlen; lia|]. rewrite length_app in Hlen. simpl in Hlen.
  destruct last as [|b last _] using rev_ind; [simpl in Hlen; lia|]. rewrite length_app in Hlen. simpl in Hlen.
  destruct last as [|a last _] using rev_ind; [simpl in Hlen; lia|].
  rewrite !Forall_app, !Forall_cons in Hall. exists (pre ++ last), a, b, c.
  split; [|naive_solver]. by rewrite <- !app_assoc.
Qed.

Lemma watch_confirmed hist name st notified l t m :
  counted hist st -> (t, m) ∈ watch name st notified l ->
  exists e pre o post, l = pre ++ o :: post /\ o.(o_at) = t /\ e <> EmptyString /\ confirmed_by (hist ++ pre ++ [o]) e /\
    (m = eventMessage name e \/ exists n, m = Unstable name n).
Proof.
  revert hist st notified. induction l as [|o l IH]; intros hist st notified Hc; cbn [watch]; [by intros ?%elem_of_nil|].
  destruct (watch_step name st notified o) as [[x st'] notified'] eqn:Hstep.
  destruct (counted_step _ _ _ _ _ _ _ _ Hc Hstep) as [Hc' _]. intros [Hin|Hin]%elem_of_app.
  - destruct x as [x|]; [|by apply elem_of_nil in Hin]. apply list_elem_of_singleton in Hin as [= -> ->].
    apply watch_step_inv in Hstep as [[? _]|(y & [= <-] & Hn & Hne & _ & _ & Hk & Hcand & Hx)]; [done|].
    exists notified', [], o, l. split_and!; try done.
    + rewrite <- Hcand. apply counted_three; [done|lia].
    + destruct Hx as [(n & -> & _)|(-> & _)]; [right; by exists n|by left].
  - destruct (IH (hist ++ [o]) st' notified' Hc' Hin) as (e & pre & o' & post & -> & Ht & He & Hconf & Hm).
    exists e, (o :: pre), o', post. split_and!; try done. by rewrite <- app_assoc in Hconf.
Qed.

(** What is told, after the checks. *)
Fixpoint told (name : string) (st : tunnelEventState) (notified : string) (l : list check) : string :=
  match l with
  | [] => notified
  | o :: l => let '(_, st, notified) := watch_step name st notified o in told name st notified l
  end.

Lemma step_told name st notified o m st' notified' :
  watch_step name st notified o = (m, st', notified') -> o.(o_stored) = true -> eventFor o.(o_status) <> EmptyString ->
  (notified' = notified \/ notified' = eventFor o.(o_status)) /\
  (3 <= st'.(streak) -> notified' = eventFor o.(o_status)).
Proof.
  intros Hstep Hs He. unfold watch_step, observe in Hstep. rewrite (decide_False (P := eventFor _ = _)) in Hstep by done.
  rewrite Hs in Hstep. unfold confirmChecks in Hstep.
  repeat (case_decide || case_match); simplify_eq; cbn in *; simplify_eq; split; try tauto; try lia; intros _;
    rename select (_ \/ _) into Ho; destruct Ho; congruence.
Qed.

Lemma told_three name e pre hist st notified a b c :
  counted hist st -> e <> EmptyString ->
  Forall (fun o => eventFor o.(o_status) = e /\ o.(o_stored) = true) [a; b; c] ->
  told name st notified (pre ++ [a; b; c]) = e.
Proof.
  intros Hc He Hall. revert hist st notified Hc. induction pre as [|o pre IH]; intros hist st notified Hc; cbn [app told].
  - rewrite !Forall_cons in Hall. destruct Hall as ((Ha & Sa) & (Hb & Sb) & (Hcc & Sc) & _).
    destruct (watch_step name st notified a) as [[m1 s1] n1] eqn:H1.
    destruct (watch_step name s1 n1 b) as [[m2 s2] n2] eqn:H2.
    destruct (watch_step name s2 n2 c) as [[m3 s3] n3] eqn:H3.
    destruct (counted_step _ _ _ _ _ _ _ _ Hc H1) as [C1 D1]. destruct (counted_step _ _ _ _ _ _ _ _ C1 H2) as [C2 D2].
    destruct (counted_step _ _ _ _ _ _ _ _ C2 H3) as [C3 D3].
    destruct (step_told _ _ _ _ _ _ _ H3 Sc) as [_ Ht]; [congruence|]. rewrite Ht; [done|].
    destruct D1 as [K1 S1]; [congruence|]. destruct D2 as [K2 S2]; [congruence|]. destruct D3 as [K3 S3]; [congruence|].
    rewrite S3, (decide_True (P := eventFor (o_status c) = candidate s2)) by congruence.
    rewrite S2, (decide_True (P := eventFor (o_status b) = candidate s1)) by congruence.
    destruct Hc as (Hk & _). enough (1 <= streak s1) by lia. rewrite S1. destruct (decide (eventFor (o_status a) = candidate st)); lia.
  - destruct (watch_step name st notified o) as [[m st'] notified'] eqn:Hstep.
    destruct (counted_step _ _ _ _ _ _ _ _ Hc Hstep) as [Hc' _]. by apply (IH (hist ++ [o])).
Qed.

(** *** Silence *)
Fixpoint state_after (name : string) (st : tunnelEventState) (notified : string) (l : list check) : tunnelEventState :=
  match l with
  | [] => st
  | o :: l => let '(_, st, notified) := watch_step name st notified o in state_after name st notified l
  end.
Lemma watch_snoc name st notified l o :
  watch name st notified (l ++ [o]) =
  watch name st notified l ++ match (watch_step name (state_after name st notified l) (told name st notified l) o).1.1 with Some m => [(o.(o_at), m)] | None => [] end.
Proof.
  revert st notified. induction l as [|x l IH]; intros st notified; cbn [app watch state_after told].
  - destruct (watch_step name st notified o) as [[m st'] n']. cbn [fst]. by rewrite app_nil_r.
  - destruct (watch_step name st notified x) as [[m st'] n']. by rewrite IH, app_assoc.
Qed.
Lemma told_snoc name st notified l o :
  told name st notified (l ++ [o]) = (watch_step name (state_after name st notified l) (told name st notified l) o).2.
Proof.
  revert st notified. induction l as [|x l IH]; intros st notified; cbn [app state_after told].
  - by destruct (watch_step name st notified o) as [[m st'] n'].
  - destruct (watch_step name st notified x) as [[m st'] n']. apply IH.
Qed.
Lemma state_snoc name st notified l o :
  state_after name st notified (l ++ [o]) = (watch_step name (state_after name st notified l) (told name st notified l) o).1.2.
Proof.
  revert st notified. induction l as [|x l IH]; intros st notified; cbn [app state_after told].
  - by destruct (watch_step name st notified o) as [[m st'] n'].
  - destruct (watch_step name st notified x) as [[m st'] n']. apply IH.
Qed.

(** How a step can mute, and how it can change what was told in silence. *)
Lemma watch_step_mute name st notified o m st' notified' : watch_step name st notified o = (m, st', notified') ->
  st'.(mutedTill) = st.(mutedTill) \/ st'.(mutedTill) = o.(o_at) + hour /\ ((exists n, m = Some (Unstable name n)) \/ o.(o_stored) = false).
Proof.
  unfold watch_step, observe, unstableMute. intros H. repeat (case_decide || case_match); simplify_eq; cbn in *; simplify_eq;
    first [by left|right; split; [done|]; first [by right|left; by eexists]|exfalso; tauto].
Qed.
Lemma watch_step_silent name st notified o st' notified' : watch_step name st notified o = (None, st', notified') -> notified' <> notified ->
  notified = EmptyString /\ notified' = eventUp \/ o.(o_at) < st.(mutedTill).
Proof.
  unfold watch_step, observe. intros H Hn. repeat (case_decide || case_match); simplify_eq; cbn in *; simplify_eq; try done; try tauto.
Qed.

(** An hour without messages starts at an announcement that the tunnel is
    unstable, or at one that was lost with its write. *)
Definition muted_by (name : string) (notified : string) (pre : list check) (now : Z) : Prop :=
  exists x, x ∈ pre /\ now < x.(o_at) + hour /\
    ((exists n, (x.(o_at), Unstable name n) ∈ watch name new_event_state notified pre) \/ x.(o_stored) = false).
Lemma muted_since name notified l now : zero_time <= now -> now < (state_after name new_event_state notified l).(mutedTill) -> muted_by name notified l now.
Proof.
  intros Hz. induction l as [|o l IH] using rev_ind; [cbn; lia|]. rewrite state_snoc.
  destruct (watch_step name (state_after name new_event_state notified l) (told name new_event_state notified l) o) as [[m st'] n'] eqn:Hs.
  cbn [fst snd]. unfold muted_by. rewrite watch_snoc, Hs. cbn [fst]. intros Hm. destruct (watch_step_mute _ _ _ _ _ _ _ Hs) as [He|[He Hor]].
  - rewrite He in Hm. destruct (IH Hm) as (x & Hx & Hlt & Hor). exists x. split; [apply elem_of_app; by left|]. split; [done|].
    destruct Hor as [[n Hn]|]; [left; exists n; apply elem_of_app; by left|by right].
  - exists o. split; [apply elem_of_app; right; by left|]. split; [lia|]. destruct Hor as [[n ->]|]; [left; exists n; apply elem_of_app; right; by left|by right].
Qed.

(** ** Properties *)


(** ** Witnesses *)
Definition at_minute (n : Z) (status : string) : check := MkCheckObs status (n * minute) true.
Definition flapping : list check :=
  [at_minute 0 "up"; at_minute 2 "down"; at_minute 4 "down"; at_minute 6 "not_applied";
   at_minute 8 "down"; at_minute 10 "down"; at_minute 12 "down"; at_minute 14 "slow"; at_minute 16 "up"; at_minute 18 "up"].


(** A tunnel that flaps, is announced as unstable and then fails for good
    within the hour: what was told becomes that it is down, and nobody hears
    it, then or later. *)
Definition settling : list check :=
  map (fun i => at_minute (2 * i) (if bool_decide (i mod 6 < 3) then "down" else "up")%string) (seqZ 0 18) ++
  map (fun i => at_minute (2 * i) "down") (seqZ 18 60).
Lemma settles_unreported :
  watch "Home" new_event_state "up" settling =
    [(4 * minute, FellDown "Home"); (10 * minute, BackUp "Home"); (16 * minute, FellDown "Home"); (22 * minute, BackUp "Home");
     (28 * minute, Unstable "Home" 5)] /\
  told "Home" new_event_state "up" settling = "down"%string /\ map o_status (drop 18 settling) = replicate 60 "down"%string.
Proof. split_and!; vm_compute; reflexivity. Qed.
