(* ===== verification/TunnelWatch.v ===== *)
(** * The schedule of tunnel checks

    [internal/api/tunnels_watch.go] and the cache of [tunnels_check.go]: one
    round over all tunnels, with its effects on the cache, on the database and
    on the messages.  The answers of the Clash API and the clock are arguments,
    and so is whatever other requests do to the database between two tunnels. *)

From S2P Require Import Prelude GoStd Model Db Wf SettingsStore TunnelsStore SingBox TunnelEvents Sample.
#[local] Open Scope Z_scope.

Definition SlowThreshold : Z := 1500 * (second / 1000).
Definition statusFor (d : Z) : string := if decide (SlowThreshold <= d) then tunnelSlow else tunnelUp.

(** ** The cache *)
Record tunnelCheck := MkCheckRes { k_status : string; k_latency : option Z; k_at : Z; k_ok_at : Z }.
Definition okStamp (res : tunnelCheck) : Z :=
  if decide (res.(k_status) = tunnelUp \/ res.(k_status) = tunnelSlow) then res.(k_at) else zero_time.
Definition with_ok_at (t : Z) (res : tunnelCheck) : tunnelCheck :=
  MkCheckRes res.(k_status) res.(k_latency) res.(k_at) t.

Definition put (last : gmap string tunnelCheck) (id : string) (res : tunnelCheck) : gmap string tunnelCheck :=
  let previous := from_option k_ok_at zero_time (last !! id) in
  let ok := okStamp res in
  let res :=
    if negb (IsZero ok) then with_ok_at (Z.max ok previous) res
    else if IsZero res.(k_ok_at) then with_ok_at previous res else res in
  <[id := res]> last.
Definition keep (last : gmap string tunnelCheck) (alive : list string) : gmap string tunnelCheck :=
  filter (fun p => p.1 ∈ alive) last.

(** [loadChecks]: the saved checks, without a latency and as unknown. *)
Definition loadChecks (d : db) (last : gmap string tunnelCheck) : gmap string tunnelCheck :=
  foldr (fun p last => put last p.1 (MkCheckRes tunnelUnknown None p.2.(tc_checked_at) p.2.(tc_ok_at)))
    last (map_to_list (TunnelChecks d)).

(** ** The Clash API *)
Record Proxy := MkProxy { px_all : list string; px_history : list (Z * Z) }.
(** [Proxy.Latency] *)
Definition Latency (p : Proxy) : option Z :=
  match last p.(px_history) with
  | Some (_, delay) => if decide (delay = 0) then None else Some (delay * (second / 1000))
  | None => None
  end.
Inductive delay_answer := Measured (d : Z) | DelayNotFound | DelayProbeFailed | DelayOther.

(** What the outside gives for one tunnel: the answer of the probe, the
    readings of the clock, and the transactions of others before its turn. *)
Record outside := MkOutside {
  ou_delay : delay_answer;
  ou_start : Z; ou_probed : Z; ou_age1 : Z; ou_age2 : Z;
  ou_others : db -> db
}.

(** [checkOne] *)
Definition checkOne (t : Tunnel) (proxies : gmap string Proxy) (o : outside) : option tunnelCheck :=
  let res := fun status latency at_ => Some (MkCheckRes status latency at_ zero_time) in
  if negb t.(t_enabled) then res tunnelNotApplied None o.(ou_start)
  else match proxies !! TunnelTag t.(t_id) with
  | None => res tunnelNotApplied None o.(ou_start)
  | Some p =>
      if decide (p.(px_all) <> []) then
        match Latency p, last p.(px_history) with
        | Some delay, Some (at_, _) =>
            if IsZero at_ then None else res (statusFor delay) (Some (delay / (second / 1000))) at_
        | _, _ => None
        end
      else match o.(ou_delay) with
      | Measured delay => res (statusFor delay) (Some (delay / (second / 1000))) o.(ou_probed)
      | DelayNotFound => res tunnelNotApplied None o.(ou_probed)
      | DelayProbeFailed => res tunnelUnknown None o.(ou_probed)
      | DelayOther => None
      end
  end.

(** [Signals.HTTPS.Fresh] of [observeSignals]. *)
Definition fresh (o : outside) (res : tunnelCheck) : bool :=
  (0 <=? time_Sub o.(ou_age1) res.(k_at)) && (time_Sub o.(ou_age2) res.(k_at) <=? 5 * minute).

(** ** A round *)
Record World := MkWorld {
  w_db : db;
  w_checks : gmap string tunnelCheck;
  w_events : gmap string tunnelEventState;
  w_sent : list message
}.

(** [announce] *)
Definition announce (cfg : NotifyConfig) (m : option message) (sent : list message) : list message :=
  match m with Some m => if NotifyReady cfg then sent ++ [m] else sent | None => sent end.

(** [Time.Truncate(time.Second)] *)
Definition truncate_second (t : Z) : Z := t / second * second.

Section round.
Context (proxies : gmap string Proxy) (saved : gmap string TunnelCheck) (cfg : NotifyConfig).

Definition saved_ok (id : string) : Z := from_option tc_ok_at zero_time (saved !! id).
Definition saved_at (id : string) : Z := from_option tc_checked_at zero_time (saved !! id).
Definition saved_notified (id : string) : string := from_option tc_notified EmptyString (saved !! id).

(** The body of the loop of [refreshChecks]. *)
Definition refresh_one (w : World) (p : Tunnel * outside) : World :=
  let '(t, o) := p in
  let id := t.(t_id) in
  let w := MkWorld (o.(ou_others) w.(w_db)) w.(w_checks) w.(w_events) w.(w_sent) in
  match checkOne t proxies o with
  | None => w
  | Some res =>
      let checks := put w.(w_checks) id res in
      let successAt := if decide (okStamp res < saved_ok id) then zero_time else okStamp res in
      match run (SaveTunnelCheck id res.(k_status) res.(k_at) successAt) w.(w_db) with
      | (Err _, d) => MkWorld d checks w.(w_events) w.(w_sent)
      | (Ok _, d) =>
          if decide (fresh o res = false \/
                     res.(k_status) ∉ [tunnelUp; tunnelSlow; tunnelNotApplied]) then
            let '(_, events) := observe_at w.(w_events) id t.(t_name) tunnelUnknown (saved_notified id) res.(k_at) in
            MkWorld d checks events w.(w_sent)
          else if decide (truncate_second res.(k_at) <= saved_at id) then MkWorld d checks w.(w_events) w.(w_sent)
          else
            let '(v, events) := observe_at w.(w_events) id t.(t_name) res.(k_status) (saved_notified id) res.(k_at) in
            if decide (v.(Confirmed) = EmptyString \/ v.(Confirmed) = saved_notified id)
            then MkWorld d checks events w.(w_sent)
            else match run (SetNotifiedStatus id v.(Confirmed)) d with
                 | (Err _, d) => MkWorld d checks events w.(w_sent)
                 | (Ok _, d) => MkWorld d checks events (announce cfg v.(Message) w.(w_sent))
                 end
      end
  end.
End round.

(** [refreshChecks]; [None] is an unreachable Clash API.  [others] are given in
    the order of the tunnels. *)
Definition refreshChecks (proxies : option (gmap string Proxy)) (outs : list outside) (w : World) : bool * World :=
  let tunnels := q_tunnels w.(w_db) in
  let saved := TunnelChecks w.(w_db) in
  let cfg := GetNotifyConfig w.(w_db) in
  match proxies with
  | None => (false, w)
  | Some proxies =>
      let w := foldl (refresh_one proxies saved cfg) w (zip tunnels outs) in
      let alive := map t_id tunnels in
      (true, MkWorld w.(w_db) (keep w.(w_checks) alive) (forget w.(w_events) alive) w.(w_sent))
  end.

(** [watchTunnels]: the pause after a round. *)
Definition watchRetry : Z := 15 * second.
Definition watch_wait (interval : Z) (done_ : bool) : Z :=
  if done_ then interval else if decide (watchRetry < interval) then watchRetry else interval.

(** ** Lemmas *)

(** No check of the schedule finds a tunnel down. *)
Lemma checkOne_statuses t proxies o res :
  checkOne t proxies o = Some res ->
  res.(k_status) ∈ [tunnelUp; tunnelSlow; tunnelUnknown; tunnelNotApplied].
Proof.
  assert (Hfor : forall d, statusFor d ∈ [tunnelUp; tunnelSlow; tunnelUnknown; tunnelNotApplied]).
  { intros d. unfold statusFor. case_decide; [by right; left|by left]. }
  unfold checkOne. repeat case_match; intros [=]; subst; cbn [k_status]; try apply Hfor; by repeat constructor.
Qed.

Definition not_a_fall (m : message) : Prop := forall name, m <> FellDown name.

(** What is never observed is never told: a message of a round is that a tunnel
    told to be down is back, or that it is unstable. *)
Lemma observe_up st name status notified now v st' :
  status ∈ [tunnelUp; tunnelSlow; tunnelUnknown; tunnelNotApplied] ->
  observe st name status notified now = (v, st') ->
  (v.(Confirmed) = EmptyString \/ v.(Confirmed) = eventUp) /\
  (forall m, v.(Message) = Some m -> not_a_fall m /\ notified <> EmptyString /\ notified <> eventUp).
Proof.
  intros Hs. assert (He : eventFor status = EmptyString \/ eventFor status = eventUp).
  { repeat (apply elem_of_cons in Hs as [->|Hs]; [vm_compute; auto|]). by apply elem_of_nil in Hs. }
  unfold observe. destruct He as [->| ->].
  { intros [= <- <-]. cbn. split; [by left|done]. }
  cbn [candidate streak changes mutedTill]. rewrite (decide_False (P := eventUp = EmptyString)) by done.
  destruct (decide (_ < confirmChecks)); [intros [= <- <-]; split; [by left|done]|].
  destruct (decide (eventUp = notified)); [intros [= <- <-]; split; [by right|done]|].
  destruct (decide (notified = EmptyString /\ eventUp = eventUp)); [intros [= <- <-]; split; [by right|done]|].
  repeat case_decide; intros [= <- <-]; (split; [by right|]); cbn; try done; intros m [= <-]; unfold not_a_fall;
    split_and!; try (intros n); naive_solver.
Qed.

Definition harmless (notified : string) : Prop := notified = EmptyString \/ notified = eventUp.
Definition told_harmless (d : db) : Prop := forall id c, TunnelChecks d !! id = Some c -> harmless c.(tc_notified).

Lemma save_harmless d id status at_ okAt :
  told_harmless d -> told_harmless (run (SaveTunnelCheck id status at_ okAt) d).2.
Proof.
  intros Hd. unfold run. destruct (SaveTunnelCheck id status at_ okAt d) as [[[] d']|] eqn:Hs; [|done].
  unfold SaveTunnelCheck in Hs. inv_tx. rename select (sql_upsert_check _ _ _ _ _ = _) into Hu.
  unfold sql_upsert_check in Hu. destruct (tunnel_exists _ _); [|done]. injection Hu as <-. cbn [snd].
  intros k c. unfold TunnelChecks. cbn [tunnel_checks set_checks]. rewrite lookup_fmap. intros (row & Hrow & ->)%fmap_Some.
  destruct (decide (k = id)) as [->|Hk].
  - rewrite lookup_insert_eq in Hrow. injection Hrow as <-. unfold check_upsert.
    destruct (tunnel_checks d !! id) as [old|] eqn:Ho; [|by left]. apply (Hd id (check_read old)).
    unfold TunnelChecks. by rewrite lookup_fmap, Ho.
  - rewrite lookup_insert_ne in Hrow by done. apply (Hd k). unfold TunnelChecks. by rewrite lookup_fmap, Hrow.
Qed.

Lemma notified_harmless d id status :
  told_harmless d -> harmless status -> told_harmless (run (SetNotifiedStatus id status) d).2.
Proof.
  intros Hd Hs. unfold run, SetNotifiedStatus. destruct (tunnel_checks d !! id) as [c|] eqn:Hc; [|done].
  cbn [snd]. intros k x. unfold TunnelChecks. cbn [tunnel_checks set_checks]. rewrite lookup_fmap.
  intros (row & Hrow & ->)%fmap_Some. destruct (decide (k = id)) as [->|Hk].
  - rewrite lookup_insert_eq in Hrow. by injection Hrow as <-.
  - rewrite lookup_insert_ne in Hrow by done. apply (Hd k). unfold TunnelChecks. by rewrite lookup_fmap, Hrow.
Qed.

Lemma refresh_one_silent proxies saved cfg w t o :
  (forall id, harmless (saved_notified saved id)) -> told_harmless (w_db w) ->
  (forall d, told_harmless d -> told_harmless (ou_others o d)) ->
  let w' := refresh_one proxies saved cfg w (t, o) in w_sent w' = w_sent w /\ told_harmless (w_db w').
Proof.
  intros Hsaved Hd Ho. unfold refresh_one. cbn [w_db w_checks w_events w_sent].
  pose proof (Ho _ Hd) as Hd1. destruct (checkOne t proxies o) as [res|] eqn:Hc; [|done].
  pose proof (checkOne_statuses _ _ _ _ Hc) as Hst. set (ok := if decide (_ < _) then _ else _).
  pose proof (save_harmless _ (t_id t) (k_status res) (k_at res) ok Hd1) as Hd2.
  destruct (run (SaveTunnelCheck _ _ _ _) _) as [[[]|e] d]; [|done]. cbn [snd] in Hd2.
  unfold observe_at. destruct (decide (fresh o res = false \/ _)) as [Hf|Hf]; [by destruct (observe _ _ tunnelUnknown _ _)|].
  destruct (decide (truncate_second _ <= _)); [done|].
  destruct (observe _ _ (k_status res) _ _) as [v st'] eqn:Hobs.
  destruct (observe_up _ _ _ _ _ _ _ Hst Hobs) as [Hconf Hmsg].
  destruct (decide (Confirmed v = EmptyString \/ _)) as [Hq|Hq]; [done|].
  assert (Hh : harmless (Confirmed v)) by (destruct Hconf as [->| ->]; [by left|by right]).
  pose proof (notified_harmless _ (t_id t) _ Hd2 Hh) as Hd3.
  destruct (run (SetNotifiedStatus _ _) d) as [[[]|e] d']; [|done]. cbn [snd w_sent w_db] in *. split; [|done].
  unfold announce. destruct (Message v) as [m|] eqn:Hm; [|done].
  destruct (Hmsg m eq_refl) as (_ & H1 & H2). destruct (Hsaved (t_id t)); congruence.
Qed.

Lemma saved_harmless d id : told_harmless d -> harmless (saved_notified (TunnelChecks d) id).
Proof.
  intros Hd. unfold saved_notified. destruct (TunnelChecks d !! id) as [c|] eqn:Hc; [|by left]. by apply (Hd id).
Qed.

(** Unless a tunnel is marked as told to be down, a round sends nothing. *)
Lemma refreshChecks_silent proxies outs w :
  told_harmless (w_db w) ->
  (forall o d, o ∈ outs -> told_harmless d -> told_harmless (ou_others o d)) ->
  let w' := (refreshChecks proxies outs w).2 in w_sent w' = w_sent w /\ told_harmless (w_db w').
Proof.
  intros Hd Ho. unfold refreshChecks. destruct proxies as [proxies|]; [|done]. cbn [snd w_sent w_db].
  pose proof (fun id => saved_harmless (w_db w) id Hd) as Hsaved. revert Hsaved.
  generalize (TunnelChecks (w_db w)) (GetNotifyConfig (w_db w)). intros saved cfg Hsaved.
  assert (Hz : forall t o, (t, o) ∈ zip (q_tunnels (w_db w)) outs -> o ∈ outs).
  { intros t o Hin. by apply elem_of_zip_r in Hin. }
  revert Hz. generalize (zip (q_tunnels (w_db w)) outs). intros l.
  assert (Hgoal : (forall t o, (t, o) ∈ l -> o ∈ outs) -> forall w0, told_harmless (w_db w0) ->
    let w' := foldl (refresh_one proxies saved cfg) w0 l in w_sent w' = w_sent w0 /\ told_harmless (w_db w')).
  { induction l as [|[t o] l IH]; intros Hz w0 Hd0; [done|]. cbn [foldl].
    destruct (refresh_one_silent proxies saved cfg w0 t o Hsaved Hd0) as [H1 H2].
    { intros d. apply Ho. apply (Hz t). by left. }
    destruct (IH (fun t o Hin => Hz t o (list_elem_of_further _ _ _ Hin)) _ H2) as [H3 H4]. split; [congruence|done]. }
  intros Hz. by apply (Hgoal Hz w).
Qed.

Lemma refresh_one_wf proxies saved cfg w t o :
  wf (w_db w) -> (forall d, wf d -> wf (ou_others o d)) -> Forall not_a_fall (w_sent w) ->
  let w' := refresh_one proxies saved cfg w (t, o) in wf (w_db w') /\ Forall not_a_fall (w_sent w').
Proof.
  intros Hd Ho Hm. unfold refresh_one. cbn [w_db w_checks w_events w_sent].
  pose proof (Ho _ Hd) as Hd1. destruct (checkOne t proxies o) as [res|] eqn:Hc; [|done].
  pose proof (checkOne_statuses _ _ _ _ Hc) as Hst. set (ok := if decide (_ < _) then _ else _).
  pose proof (SaveTunnelCheck_wf _ (t_id t) (k_status res) (k_at res) ok Hd1) as Hd2.
  destruct (run (SaveTunnelCheck _ _ _ _) _) as [[[]|e] d]; [|done]. cbn [snd] in Hd2.
  unfold observe_at. destruct (decide (fresh o res = false \/ _)) as [Hf|Hf]; [by destruct (observe _ _ tunnelUnknown _ _)|].
  destruct (decide (truncate_second _ <= _)); [done|].
  destruct (observe _ _ (k_status res) _ _) as [v st'] eqn:Hobs.
  destruct (observe_up _ _ _ _ _ _ _ Hst Hobs) as [_ Hmsg].
  destruct (decide (Confirmed v = EmptyString \/ _)) as [Hq|Hq]; [done|].
  pose proof (SetNotifiedStatus_wf _ (t_id t) (Confirmed v) Hd2) as Hd3.
  destruct (run (SetNotifiedStatus _ _) d) as [[[]|e] d']; [|done]. cbn [snd w_sent w_db] in *. split; [done|].
  unfold announce. destruct (Message v) as [m|] eqn:Hm'; [|done]. destruct (NotifyReady cfg); [|done].
  apply Forall_app. split; [done|]. apply Forall_singleton. by destruct (Hmsg m eq_refl).
Qed.

Lemma keep_alive (last : gmap string tunnelCheck) alive id : is_Some (keep last alive !! id) -> id ∈ alive.
Proof. intros [x Hx]. unfold keep in Hx. by apply map_lookup_filter_Some in Hx as [_ Hx]. Qed.
Lemma forget_alive m alive id : is_Some (forget m alive !! id) -> id ∈ alive.
Proof. intros [x Hx]. unfold forget in Hx. by apply map_lookup_filter_Some in Hx as [_ Hx]. Qed.

(** ** Properties *)

(** C27: a round of the schedule of tunnel checks.  Whatever the Clash API, the
    clock and other requests do, the database stays well formed, and the
    results and the event states that remain belong to tunnels of the
    beginning of the round; an unreachable API changes nothing at all.  No
    message ever says that a tunnel has fallen, because no check of the
    schedule reports one as down; so unless some tunnel is marked as told to be
    down, nothing is sent. *)
Theorem refreshChecks_correct proxies outs w :
  wf (w_db w) -> (forall o d, o ∈ outs -> wf d -> wf (ou_others o d)) -> Forall not_a_fall (w_sent w) ->
  let '(done_, w') := refreshChecks proxies outs w in
  wf (w_db w') /\ (done_ = false -> w' = w) /\ (done_ = false <-> proxies = None) /\
  (done_ = true -> forall id, is_Some (w_checks w' !! id) \/ is_Some (w_events w' !! id) -> is_Some (Db.tunnels (w_db w) !! id)) /\
  Forall not_a_fall (w_sent w') /\
  (told_harmless (w_db w) -> (forall o d, o ∈ outs -> told_harmless d -> told_harmless (ou_others o d)) ->
   w_sent w' = w_sent w).
Proof.
  intros Hd Ho Hm. pose proof (refreshChecks_silent proxies outs w) as Hsilent.
  destruct (refreshChecks proxies outs w) as [done_ w'] eqn:Hr. cbn [snd] in Hsilent.
  unfold refreshChecks in Hr. destruct proxies as [proxies|]; injection Hr as <- <-.
  2: { split_and!; try done. }
  cbn [w_db w_checks w_events w_sent] in *.
  assert (Hz : forall t o, (t, o) ∈ zip (q_tunnels (w_db w)) outs -> o ∈ outs) by (intros t o Hin; by apply elem_of_zip_r in Hin).
  assert (Hfold : forall l w0, (forall t o, (t, o) ∈ l -> o ∈ outs) -> wf (w_db w0) -> Forall not_a_fall (w_sent w0) ->
    let w' := foldl (refresh_one proxies (TunnelChecks (w_db w)) (GetNotifyConfig (w_db w))) w0 l in
    wf (w_db w') /\ Forall not_a_fall (w_sent w')).
  { induction l as [|[t o] l IH]; intros w0 Hl H0 H1; [done|]. cbn [foldl].
    destruct (refresh_one_wf proxies (TunnelChecks (w_db w)) (GetNotifyConfig (w_db w)) w0 t o H0) as [H2 H3]; [|done|].
    - intros d. apply Ho. apply (Hl t). by left.
    - apply IH; [|done|done]. intros t' o' Hin. apply (Hl t'). by right. }
  destruct (Hfold _ w Hz Hd Hm) as [H1 H2]. split_and!; try done.
  - intros _ id Hid. assert (Hin : id ∈ map t_id (q_tunnels (w_db w))).
    { destruct Hid as [Hid|Hid]; [by apply keep_alive in Hid|by apply forget_alive in Hid]. }
    apply list_elem_of_fmap in Hin as (t & -> & Ht). unfold q_tunnels in Ht. rewrite merge_sort_Permutation in Ht.
    apply elem_of_map_rows in Ht as [k Hk]. rewrite (to_id _ (wf_tunnels _ Hd) _ _ Hk). by eexists.
  - intros Hh Hoh. by destruct (Hsilent Hh Hoh).
Qed.

(** ** Witnesses *)

(** The WireGuard tunnel does not answer its probe. *)
Definition sample_outside (at_ : Z) : outside := MkOutside DelayProbeFailed at_ at_ at_ at_ id.
Definition sample_world : World := MkWorld sample_db ∅ ∅ [].
Definition sample_proxies : gmap string Proxy := {[TunnelTag "wg" := MkProxy [] []]}.

Lemma refreshChecks_correct_witness :
  let w := (refreshChecks (Some sample_proxies) (replicate 3 (sample_outside (2000 * second))) sample_world).2 in
  wf (w_db w) /\ w_sent w = [] /\
  (tc_status <$> TunnelChecks (w_db w) !! "wg"%string) = Some tunnelUnknown.
Proof.
  pose proof (refreshChecks_correct (Some sample_proxies) (replicate 3 (sample_outside (2000 * second))) sample_world) as H.
  assert (Hid : forall o d, o ∈ replicate 3 (sample_outside (2000 * second)) -> ou_others o d = d).
  { intros o d Ho. apply elem_of_replicate in Ho as [-> _]. reflexivity. }
  destruct (refreshChecks _ _ _) as [done_ w] eqn:Hr. cbn [snd].
  destruct H as (Hw & _ & _ & _ & _ & Hsilent).
  - exact sample_wf.
  - intros o d Ho Hd. by rewrite Hid.
  - constructor.
  - split; [exact Hw|]. split.
    + apply Hsilent; [|intros o d Ho Hd; by rewrite Hid].
      intros i c. unfold TunnelChecks. rewrite lookup_fmap. intros (row & Hrow & ->)%fmap_Some.
      apply (elem_of_list_to_map_2 (M := gmap string)) in Hrow. apply list_elem_of_singleton in Hrow as [= -> ->]. by left.
    + apply (f_equal (fun x => tc_status <$> TunnelChecks (w_db x.2) !! "wg"%string)) in Hr. cbn [snd] in Hr.
      rewrite <- Hr. vm_compute. reflexivity.
Defined.
