(* ===== verification/WgPeers.v ===== *)
(** * The WireGuard interface

    [internal/netstack/wg.go], [wg_peers.go], [wg_config.go], [wg_keys.go]: the
    parameters of the interface, the difference between the stored clients and
    the peers of the device, the configuration file of a client and the
    server's key.  [wgtypes.Key] is a class; the network link is I/O. *)

From Stdlib Require Import Ascii.
From S2P Require Import Prelude GoStd Netip Model Db Wf SettingsStore Sample.
From S2P Require Nft.
#[local] Open Scope Z_scope.

(** [wgtypes]: a key is its 32 bytes, its text is base64. *)
Class WGKeys := {
  ParseKey : string -> option string;
  KeyString : string -> string;
  PublicKeyOf : string -> string;
  ParseKey_String k : ParseKey (KeyString k) = Some k
}.

(** ** Parameters *)
Record WGConfig := MkWGConfig { wc_name : string; wc_address : Prefix; wc_port : Z; wc_mtu : Z }.

(** [WGConfig.validate] *)
Definition wg_validate (c : WGConfig) : bool :=
  bool_decide (0 <= prefix_bits c.(wc_address) <= BitLen (prefix_addr c.(wc_address))) &&
  Is4 (prefix_addr c.(wc_address)) && bool_decide (1 <= c.(wc_port) <= 65535) &&
  bool_decide (MinClientMTU <= c.(wc_mtu) <= MaxClientMTU).

(** [WGConfigFromSettings] *)
Definition WGConfigFromSettings (s : Settings) : option WGConfig :=
  match ParsePrefix s.(s_wg_pool), ParseAddr s.(s_wg_server) with
  | Some pool, Some (V4 ip) =>
      if negb (Contains pool (V4 ip)) then None
      else let cfg := MkWGConfig Nft.DefaultWGInterface (MkPrefix (V4 ip) (prefix_bits pool)) s.(s_wg_port) s.(s_mtu) in
           if wg_validate cfg then Some cfg else None
  | _, _ => None
  end.

(** [net.JoinHostPort] *)
Definition JoinHostPort (host port : string) : string :=
  if ContainsByte host ":" || ContainsByte host "%" then "[" +:+ host +:+ "]:" +:+ port else host +:+ ":" +:+ port.

Definition wgClientAllowedIPs : string := "0.0.0.0/0, ::/0".
Definition wgClientKeepalive : Z := 25.
Definition nl : string := byte_string [10].

(** [ClientConfig]; [None] is the refusal without a server key or address. *)
Definition ClientConfig (p : Peer) (s : Settings) (serverPublicKey : string) : option string :=
  if decide (serverPublicKey = EmptyString \/ s.(s_endpoint) = EmptyString) then None
  else Some (Join ["[Interface]";
    "PrivateKey = " +:+ p.(p_private);
    "Address    = " +:+ p.(p_address) +:+ "/32";
    "DNS        = " +:+ s.(s_wg_server);
    "MTU        = " +:+ Itoa s.(s_mtu);
    "";
    "[Peer]";
    "PublicKey           = " +:+ serverPublicKey;
    "PresharedKey        = " +:+ p.(p_psk);
    "Endpoint            = " +:+ JoinHostPort s.(s_endpoint) (Itoa s.(s_wg_port));
    "AllowedIPs          = " +:+ wgClientAllowedIPs;
    "PersistentKeepalive = " +:+ Itoa wgClientKeepalive;
    ""]%string nl).

(** ** Peers *)

(** An allowed network is its text ([net.IPNet.String]). *)
Record wgDesiredPeer := MkDesired { dp_key : string; dp_psk : string; dp_nets : list string }.
Record wgPeer := MkWgPeer { wp_key : string; wp_psk : string; wp_nets : list string }.
Record PeerConfig := MkPeerConfig {
  pc_key : string; pc_remove : bool; pc_update_only : bool; pc_psk : option string; pc_nets : list string }.
Record WGPeerChanges := MkChanges { ch_configs : list PeerConfig; ch_added : nat; ch_updated : nat; ch_removed : nat }.

Section peers.
Context `{WK : WGKeys}.

(** [wgDesiredPeers]; [inr] names the client that does not parse. *)
Fixpoint wgDesiredPeers (peers : list Peer) : list wgDesiredPeer + string :=
  match peers with
  | [] => inl []
  | p :: peers =>
      if negb p.(p_enabled) || p.(p_wg_disabled) then wgDesiredPeers peers
      else match ParseKey p.(p_public), ParseKey p.(p_psk), ParseAddr p.(p_address) with
           | Some pub, Some psk, Some (V4 ip) =>
               match wgDesiredPeers peers with
               | inl l => inl (MkDesired pub psk [AddrString (V4 ip) +:+ "/32"] :: l)
               | inr e => inr e
               end
           | _, _, _ => inr p.(p_name)
           end
  end.

(** [wgSameNets]: equal as sorted lists. *)
Definition wgSameNets (a b : list string) : bool :=
  bool_decide (merge_sort String.le a = merge_sort String.le b).
Definition wgPeerChanged (want : wgDesiredPeer) (have : wgPeer) : bool :=
  if decide (want.(dp_psk) <> have.(wp_psk)) then true else negb (wgSameNets want.(dp_nets) have.(wp_nets)).

(** [have[key]]: the last of the dump with the key. *)
Definition have (current : list wgPeer) (k : string) : option wgPeer :=
  last (filter (fun p => p.(wp_key) = k) current).

Definition change_of (current : list wgPeer) (d : wgDesiredPeer) : option PeerConfig :=
  match have current d.(dp_key) with
  | None => Some (MkPeerConfig d.(dp_key) false false (Some d.(dp_psk)) d.(dp_nets))
  | Some p => if wgPeerChanged d p
              then Some (MkPeerConfig d.(dp_key) false true (Some d.(dp_psk)) d.(dp_nets)) else None
  end.
Definition removals (desired : list wgDesiredPeer) (current : list wgPeer) : list PeerConfig :=
  map (fun p => MkPeerConfig p.(wp_key) true false None [])
    (filter (fun p => p.(wp_key) ∉ map dp_key desired) current).

(** [sort.SliceStable] by the text of the key. *)
Fixpoint insert_config (c : PeerConfig) (l : list PeerConfig) : list PeerConfig :=
  match l with
  | [] => [c]
  | x :: l => if decide (~ String.le (KeyString c.(pc_key)) (KeyString x.(pc_key))) then x :: insert_config c l else c :: x :: l
  end.
Definition sort_configs (l : list PeerConfig) : list PeerConfig := foldr insert_config [] l.

(** [wgDiffPeers] *)
Definition wgDiffPeers (desired : list wgDesiredPeer) (current : list wgPeer) : WGPeerChanges :=
  let changes := omap (change_of current) desired in
  let removed := removals desired current in
  MkChanges (sort_configs (changes ++ removed))
    (length (filter (fun c => c.(pc_update_only) = false) changes))
    (length (filter (fun c => c.(pc_update_only) = true) changes)) (length removed).
Definition Empty (c : WGPeerChanges) : bool := bool_decide (c.(ch_configs) = []).
End peers.

(** ** The device *)

(** What the kernel keeps: the pre-shared key of each peer, and for each
    network the peer it is routed to (a network belongs to one peer). *)
Record device := MkDevice { dv_psk : gmap string string; dv_route : gmap string string }.

(** The dump of a device ([wgctrl]'s [Device]). *)
Record dump_of (dev : device) (current : list wgPeer) : Prop := {
  du_keys : NoDup (map wp_key current);
  du_psk : forall k psk, dv_psk dev !! k = Some psk <-> exists p, p ∈ current /\ p.(wp_key) = k /\ p.(wp_psk) = psk;
  du_nets : forall n k, dv_route dev !! n = Some k <-> exists p, p ∈ current /\ p.(wp_key) = k /\ n ∈ p.(wp_nets);
  du_NoDup : forall p, p ∈ current -> NoDup p.(wp_nets)
}.

(** One [PeerConfig], in the order given.  Adding a network to a peer takes it
    from the peer that had it. *)
Definition drop_routes (k : string) (m : gmap string string) : gmap string string := filter (fun p => p.2 <> k) m.
Definition configure (dev : device) (c : PeerConfig) : device :=
  if c.(pc_remove) then MkDevice (delete c.(pc_key) dev.(dv_psk)) (drop_routes c.(pc_key) dev.(dv_route))
  else if c.(pc_update_only) && negb (bool_decide (is_Some (dev.(dv_psk) !! c.(pc_key)))) then dev
  else MkDevice
    match c.(pc_psk) with Some psk => <[c.(pc_key) := psk]> dev.(dv_psk) | None => dev.(dv_psk) end
    (foldr (fun n m => <[n := c.(pc_key)]> m) (drop_routes c.(pc_key) dev.(dv_route)) c.(pc_nets)).

(** [SyncPeers]: the device is written only when something differs. *)
Definition SyncPeers `{WGKeys} (peers : list Peer) (dev : device) (current : list wgPeer)
  : (WGPeerChanges + string) * device :=
  match wgDesiredPeers peers with
  | inr name => (inr name, dev)
  | inl desired =>
      let changes := wgDiffPeers desired current in
      (inl changes, if Empty changes then dev else foldl configure dev changes.(ch_configs))
  end.

(** [WGPeerStat.Online] *)
Definition wgHandshakeTimeout : Z := 3 * minute.
Definition Online (last_handshake now : Z) : bool :=
  negb (IsZero last_handshake) && (time_Sub now last_handshake <? wgHandshakeTimeout).

(** [wgDeviceConfig]: which of the two fields are to be written. *)
Definition wgDeviceConfig (dev : option (string * Z)) (key : string) (port : Z) : option string * option Z :=
  match dev with
  | None => (Some key, Some port)
  | Some (k, p) => (if decide (k <> key) then Some key else None, if decide (p <> port) then Some port else None)
  end.

(** ** The server's key *)
Section keys.
Context `{WGKeys}.
(** [EnsureWGServerKey]; [fresh] is the generated key. *)
Definition EnsureWGServerKey (fresh : string) : Tx string := fun d =>
  let stored := ServerPrivateKey d in
  if decide (stored <> EmptyString) then
    match ParseKey stored with Some k => Ok (k, d) | None => fail ErrInvalid "server key" end
  else (_ ← SetServerPrivateKey (KeyString fresh); mret fresh) d.
(** [WGServerPublicKey] *)
Definition WGServerPublicKey (d : db) : result string :=
  let stored := ServerPrivateKey d in
  if decide (stored = EmptyString) then Ok EmptyString
  else match ParseKey stored with Some k => Ok (KeyString (PublicKeyOf k)) | None => fail ErrInvalid "server key" end.
End keys.

(** ** Lemmas *)

Lemma ParsePrefix_bits s a b : ParsePrefix s = Some (MkPrefix a b) -> 0 <= b <= BitLen a.
Proof.
  unfold ParsePrefix. destruct (CutLast s "/") as [[ip bits]|]; [|done]. destruct (ParseAddr ip); [|done].
  destruct (_ || _); [done|]. destruct (Atoi bits); [|done]. case_decide; [|done]. by intros [= <- <-].
Qed.

(** Settings the store accepts give an interface: [NewWGManager] is never
    refused what [Settings.validate] let in. *)
Lemma validated_settings_WGConfig v u :
  validate_wg v = Ok u -> is_Some (WGConfigFromSettings v).
Proof.
  unfold validate_wg, WGConfigFromSettings. intros H.
  destruct (ParsePrefix (s_wg_pool v)) as [[a b]|] eqn:Hp; [|by inv_result].
  destruct (ParseAddr (s_wg_server v)) as [[ip|? ?]|]; [|by inv_result..].
  inv_result. reflect_bools. apply ParsePrefix_bits in Hp. destruct a as [pool|? ?]; [|done].
  match goal with H : Contains _ _ = true |- _ => rewrite H end. cbn [negb prefix_bits].
  unfold wg_validate. cbn [wc_address wc_port wc_mtu prefix_addr prefix_bits Is4].
  rewrite !bool_decide_eq_true_2; [by eexists|lia..|done].
Qed.

Section lemmas.
Context `{WK : WGKeys}.

Lemma insert_config_perm c l : insert_config c l ≡ₚ c :: l.
Proof. induction l as [|x l IH]; simpl; [done|]. case_decide; [|done]. rewrite IH. by rewrite Permutation_swap. Qed.
Lemma sort_configs_perm l : sort_configs l ≡ₚ l.
Proof. induction l as [|c l IH]; simpl; [done|]. by rewrite insert_config_perm, IH. Qed.

Lemma have_Some current k p :
  NoDup (map wp_key current) -> have current k = Some p <-> p ∈ current /\ p.(wp_key) = k.
Proof.
  intros Hnd. unfold have. split.
  - intros Hl. apply last_Some_elem_of, list_elem_of_filter in Hl as [Hk Hp]. done.
  - intros [Hp Hk]. destruct (last (filter (fun x => wp_key x = k) current)) as [q|] eqn:Hl.
    + apply last_Some_elem_of, list_elem_of_filter in Hl as [Hq Hin]. f_equal.
      apply (NoDup_map_inj wp_key current); [done..|congruence].
    + apply last_None in Hl. assert (Hin : p ∈ filter (fun x => wp_key x = k) current) by (by apply list_elem_of_filter).
      rewrite Hl in Hin. by apply elem_of_nil in Hin.
Qed.

Lemma wgSameNets_one n l : wgSameNets [n] l = true <-> l = [n].
Proof.
  unfold wgSameNets. rewrite bool_decide_eq_true. split; [|by intros ->].
  intros Hs. symmetry. apply Permutation_singleton_l. rewrite <- (merge_sort_Permutation String.le l), <- Hs.
  done.
Qed.

Lemma fold_routes (k : string) (nets : list string) (m : gmap string string) (n : string) :
  foldr (fun n m => <[n := k]> m) m nets !! n = if decide (n ∈ nets) then Some k else m !! n.
Proof.
  induction nets as [|x nets IH]; cbn [foldr].
  - by rewrite decide_False by (apply not_elem_of_nil).
  - destruct (decide (n = x)) as [->|Hne].
    + rewrite lookup_insert_eq, decide_True; [done|by left].
    + rewrite lookup_insert_ne, IH by done. apply decide_ext. rewrite elem_of_cons. tauto.
Qed.

Lemma drop_routes_lookup k (m : gmap string string) n x :
  drop_routes k m !! n = Some x <-> m !! n = Some x /\ x <> k.
Proof. unfold drop_routes. by rewrite map_lookup_filter_Some. Qed.

Section sync.
Context (desired : list wgDesiredPeer).
Hypothesis keys_NoDup : NoDup (map dp_key desired).
Hypothesis nets_NoDup : forall d1 d2 n, d1 ∈ desired -> d2 ∈ desired -> n ∈ d1.(dp_nets) -> n ∈ d2.(dp_nets) -> d1 = d2.

(** A change that is right for what is desired. *)
Definition right_config (c : PeerConfig) : Prop :=
  if c.(pc_remove) then c.(pc_key) ∉ map dp_key desired
  else exists d, d ∈ desired /\ c.(pc_key) = d.(dp_key) /\ c.(pc_psk) = Some d.(dp_psk) /\ c.(pc_nets) = d.(dp_nets).

(** The device is as desired except for the peers that changes are pending
    for. *)
Record pending (cs : list PeerConfig) (dev : device) : Prop := {
  pn_keys : NoDup (map pc_key cs);
  pn_right : forall c, c ∈ cs -> right_config c;
  pn_psk : forall k psk, k ∉ map pc_key cs ->
    dv_psk dev !! k = Some psk <-> exists d, d ∈ desired /\ d.(dp_key) = k /\ d.(dp_psk) = psk;
  pn_update : forall c, c ∈ cs -> c.(pc_update_only) = true -> is_Some (dv_psk dev !! c.(pc_key));
  pn_nets : forall d n, d ∈ desired -> d.(dp_key) ∉ map pc_key cs -> n ∈ d.(dp_nets) -> dv_route dev !! n = Some d.(dp_key);
  pn_route : forall n k, dv_route dev !! n = Some k ->
    (exists d, d ∈ desired /\ d.(dp_key) = k /\ n ∈ d.(dp_nets)) \/ k ∈ map pc_key cs
}.

Lemma pending_step c cs dev : pending (c :: cs) dev -> pending cs (configure dev c).
Proof.
  intros [Hk Hr Hpsk Hup Hnets Hroute]. cbn [map] in *. apply NoDup_cons in Hk as [Hc Hk].
  pose proof (Hr c ltac:(by left)) as Hrc. unfold right_config in Hrc. unfold configure.
  assert (Hothers : forall x, x ∈ cs -> pc_key x <> pc_key c).
  { intros x Hx He. apply Hc. rewrite <- He. by apply list_elem_of_fmap_2. }
  destruct (pc_remove c) eqn:Hrem.
  - split; cbn [dv_psk dv_route]; [done|intros; apply Hr; by right|..].
    + intros k psk Hk'. destruct (decide (k = pc_key c)) as [->|Hne].
      * rewrite lookup_delete_eq. split; [done|]. intros (d & Hd & Hdk & _). exfalso. apply Hrc. rewrite <- Hdk.
        by apply list_elem_of_fmap_2.
      * rewrite lookup_delete_ne by done. apply Hpsk. rewrite not_elem_of_cons. done.
    + intros x Hx Hu. rewrite lookup_delete_ne by (intros He; by apply (Hothers x Hx)). apply Hup; [by right|done].
    + intros d n Hd Hdk Hn. apply drop_routes_lookup.
      assert (dp_key d <> pc_key c) by (intros He; apply Hrc; rewrite <- He; by apply list_elem_of_fmap_2).
      split; [|done]. apply Hnets; [done| |done]. rewrite not_elem_of_cons. done.
    + intros n k [Hn Hne]%drop_routes_lookup. destruct (Hroute n k Hn) as [?|Hin]; [by left|].
      apply elem_of_cons in Hin as [?|?]; [done|by right].
  - destruct Hrc as (d0 & Hd0 & Hck & Hcp & Hcn).
    assert (Hnoskip : pc_update_only c && negb (bool_decide (is_Some (dv_psk dev !! pc_key c))) = false).
    { destruct (pc_update_only c) eqn:Hu; [|done]. rewrite bool_decide_eq_true_2; [done|]. apply Hup; [by left|done]. }
    rewrite Hnoskip, Hcp. split; cbn [dv_psk dv_route]; [done|intros; apply Hr; by right|..].
    + intros k psk Hk'. destruct (decide (k = pc_key c)) as [->|Hne].
      * rewrite lookup_insert_eq. split.
        -- intros [= <-]. by exists d0.
        -- intros (d & Hd & Hdk & <-). by rewrite (NoDup_map_inj dp_key desired d d0 keys_NoDup Hd Hd0) by congruence.
      * rewrite lookup_insert_ne by done. apply Hpsk. rewrite not_elem_of_cons. done.
    + intros x Hx Hu. rewrite lookup_insert_ne by (intros He; by apply (Hothers x Hx)). apply Hup; [by right|done].
    + intros d n Hd Hdk Hn. rewrite fold_routes, Hcn. case_decide as Hin.
      * by rewrite (nets_NoDup d d0 n), Hck.
      * apply drop_routes_lookup. assert (dp_key d <> pc_key c).
        { intros He. apply Hin. by rewrite <- (NoDup_map_inj dp_key desired d d0 keys_NoDup Hd Hd0) by congruence. }
        split; [|done]. apply Hnets; [done| |done]. rewrite not_elem_of_cons. done.
    + intros n k. rewrite fold_routes, Hcn. case_decide as Hin.
      * intros [= <-]. left. by exists d0.
      * intros [Hn Hne]%drop_routes_lookup. destruct (Hroute n k Hn) as [?|Hx]; [by left|].
        apply elem_of_cons in Hx as [?|?]; [done|by right].
Qed.

Lemma pending_done cs dev : pending cs dev -> pending [] (foldl configure dev cs).
Proof. revert dev. induction cs as [|c cs IH]; intros dev H; [done|]. cbn [foldl]. by apply IH, pending_step. Qed.
End sync.

Lemma wgDesiredPeers_nets peers desired :
  wgDesiredPeers peers = inl desired -> forall d, d ∈ desired -> exists n, d.(dp_nets) = [n].
Proof.
  revert desired. induction peers as [|p peers IH]; intros desired; cbn [wgDesiredPeers].
  { intros [= <-] d Hd. by apply elem_of_nil in Hd. }
  destruct (_ || _); [apply IH|]. destruct (ParseKey _); [|done]. destruct (ParseKey _); [|done].
  destruct (ParseAddr _) as [[ip|? ?]|]; try done. destruct (wgDesiredPeers peers) as [l|e]; [|done].
  intros [= <-] d [->|Hd]%elem_of_cons; [by eexists|]. by apply (IH l).
Qed.

Lemma unchanged_iff d p n :
  d.(dp_nets) = [n] -> wgPeerChanged d p = false <-> p.(wp_psk) = d.(dp_psk) /\ p.(wp_nets) = [n].
Proof.
  intros Hn. unfold wgPeerChanged. rewrite Hn. case_decide as Hp; [naive_solver|].
  rewrite negb_false_iff, wgSameNets_one. naive_solver.
Qed.

Lemma changes_In (desired : list wgDesiredPeer) (current : list wgPeer) (c : PeerConfig) :
  c ∈ omap (change_of current) desired <-> exists d, d ∈ desired /\ change_of current d = Some c.
Proof. apply list_elem_of_omap. Qed.

Lemma change_of_key current d c : change_of current d = Some c ->
  c.(pc_key) = d.(dp_key) /\ c.(pc_remove) = false /\ c.(pc_psk) = Some d.(dp_psk) /\ c.(pc_nets) = d.(dp_nets) /\
  (c.(pc_update_only) = true -> is_Some (have current d.(dp_key))).
Proof.
  unfold change_of. destruct (have current (dp_key d)) as [p|]; [|by intros [= <-]].
  destruct (wgPeerChanged d p); [|done]. intros [= <-]. cbn. split_and!; done.
Qed.

Lemma removals_In (desired : list wgDesiredPeer) (current : list wgPeer) (c : PeerConfig) :
  c ∈ removals desired current <->
  exists p, p ∈ current /\ p.(wp_key) ∉ map dp_key desired /\ c = MkPeerConfig p.(wp_key) true false None [].
Proof.
  unfold removals. rewrite list_elem_of_fmap. setoid_rewrite list_elem_of_filter. naive_solver.
Qed.

Lemma NoDup_map_omap {A B C} (f : A -> option B) (g : B -> C) (h : A -> C) (l : list A) :
  (forall x y, f x = Some y -> g y = h x) -> NoDup (map h l) -> NoDup (map g (omap f l)).
Proof.
  intros Hf. induction l as [|x l IH]; [done|]. cbn [map omap list_omap]. intros [Hx Hnd]%NoDup_cons.
  destruct (f x) as [y|] eqn:Hy; [|by apply IH]. cbn [map]. constructor; [|by apply IH].
  intros (z & Hz & (w & Hw & Hfw)%list_elem_of_omap)%list_elem_of_fmap. apply Hx.
  rewrite <- (Hf _ _ Hy), Hz, (Hf _ _ Hfw). by apply list_elem_of_fmap_2.
Qed.

Lemma pending_start desired current dev :
  NoDup (map dp_key desired) -> (forall d, d ∈ desired -> exists n, d.(dp_nets) = [n]) -> dump_of dev current ->
  pending desired (wgDiffPeers desired current).(ch_configs) dev.
Proof.
  intros Hkeys Hnets [Dk Dp Dn _]. set (cs := omap (change_of current) desired ++ removals desired current).
  assert (Hperm : (wgDiffPeers desired current).(ch_configs) ≡ₚ cs) by apply sort_configs_perm.
  assert (Hmem : forall k, k ∈ map pc_key (wgDiffPeers desired current).(ch_configs) <->
    (exists d c, d ∈ desired /\ change_of current d = Some c /\ d.(dp_key) = k) \/
    (exists p, p ∈ current /\ p.(wp_key) ∉ map dp_key desired /\ p.(wp_key) = k)).
  { intros k. rewrite Hperm. unfold cs. rewrite map_app, elem_of_app. f_equiv.
    - rewrite list_elem_of_fmap. setoid_rewrite changes_In. split.
      + intros (c & -> & d & Hd & Hc). exists d, c. split_and!; try done. symmetry. by apply (change_of_key current).
      + intros (d & c & Hd & Hc & <-). exists c. split; [symmetry; by apply (change_of_key current)|by exists d].
    - rewrite list_elem_of_fmap. setoid_rewrite removals_In. naive_solver. }
  assert (Hkeep : forall d, d ∈ desired -> d.(dp_key) ∉ map pc_key (wgDiffPeers desired current).(ch_configs) ->
    exists p, p ∈ current /\ p.(wp_key) = d.(dp_key) /\ p.(wp_psk) = d.(dp_psk) /\ p.(wp_nets) = d.(dp_nets)).
  { intros d Hd Hno. destruct (Hnets d Hd) as [n Hn]. destruct (change_of current d) as [c|] eqn:Hc.
    - exfalso. apply Hno, Hmem. left. by exists d, c.
    - unfold change_of in Hc. destruct (have current (dp_key d)) as [p|] eqn:Hh; [|done].
      destruct (wgPeerChanged d p) eqn:Hch; [done|]. apply (unchanged_iff d p n Hn) in Hch as [H1 H2].
      apply have_Some in Hh as [Hp Hk]; [|done]. exists p. split_and!; try done. congruence. }
  split.
  - rewrite Hperm. unfold cs. rewrite map_app. apply NoDup_app. split_and!.
    + apply NoDup_map_omap with dp_key; [|done]. intros d c Hc. by apply (change_of_key current).
    + intros k (c & -> & (d & Hd & Hc)%changes_In)%list_elem_of_fmap (x & Hx & (p & _ & Hno & ->)%removals_In)%list_elem_of_fmap.
      apply Hno. cbn [pc_key] in Hx. rewrite <- Hx. apply change_of_key in Hc as [-> _]. by apply list_elem_of_fmap_2.
    + unfold removals. rewrite map_map. cbn [pc_key].
      assert (Hnd : forall l, NoDup (map wp_key l) -> NoDup (map wp_key (filter (fun p => wp_key p ∉ map dp_key desired) l))).
      { induction l as [|p l IH]; [done|]. cbn [map]. intros [Hp Hnd]%NoDup_cons. rewrite filter_cons. case_decide; [|by apply IH].
        cbn [map]. constructor; [|by apply IH]. intros (q & Hq & [_ Hin]%list_elem_of_filter)%list_elem_of_fmap. apply Hp.
        rewrite Hq. by apply list_elem_of_fmap_2. }
      by apply Hnd.
  - intros c Hc. rewrite Hperm in Hc. apply elem_of_app in Hc as [(d & Hd & Hc)%changes_In|(p & Hp & Hno & ->)%removals_In]; [|done].
    apply change_of_key in Hc as (H1 & H2 & H3 & H4 & _). unfold right_config. rewrite H2. by exists d.
  - intros k psk Hno. rewrite Dp. split.
    + intros (p & Hp & <- & <-). destruct (decide (wp_key p ∈ map dp_key desired)) as [Hin|Hin].
      * apply list_elem_of_fmap in Hin as (d & Hk & Hd). destruct (Hkeep d Hd) as (q & Hq & Hqk & Hqp & _); [by rewrite <- Hk|].
        exists d. rewrite (NoDup_map_inj wp_key current p q Dk Hp Hq) by congruence. split_and!; [done|congruence|done].
      * exfalso. apply Hno, Hmem. right. by exists p.
    + intros (d & Hd & <- & <-). destruct (Hkeep d Hd Hno) as (p & ? & ? & ? & _). by exists p.
  - intros c Hc Hu. rewrite Hperm in Hc. apply elem_of_app in Hc as [(d & Hd & Hc)%changes_In|(p & Hp & Hno & ->)%removals_In]; [|done].
    apply change_of_key in Hc as (-> & _ & _ & _ & Hh). destruct (Hh Hu) as [p Hp]. apply have_Some in Hp as [Hp Hk]; [|done].
    exists (wp_psk p). apply Dp. by exists p.
  - intros d n Hd Hno Hn. apply Dn. destruct (Hkeep d Hd Hno) as (p & ? & ? & _ & Hpn). exists p. by rewrite Hpn.
  - intros n k (p & Hp & <- & Hn)%Dn. destruct (decide (wp_key p ∈ map pc_key (wgDiffPeers desired current).(ch_configs))) as [?|Hno]; [by right|].
    left. destruct (decide (wp_key p ∈ map dp_key desired)) as [Hin|Hin].
    + apply list_elem_of_fmap in Hin as (d & Hk & Hd). destruct (Hkeep d Hd) as (q & Hq & Hqk & _ & Hqn); [by rewrite <- Hk|].
      exists d. rewrite (NoDup_map_inj wp_key current p q Dk Hp Hq) in Hn by congruence. rewrite <- Hqn. done.
    + exfalso. apply Hno, Hmem. right. by exists p.
Qed.
End lemmas.

Section result.
Context `{WK : WGKeys}.

(** The device holds exactly what is desired. *)
Definition as_desired (desired : list wgDesiredPeer) (dev : device) : Prop :=
  (forall k psk, dv_psk dev !! k = Some psk <-> exists d, d ∈ desired /\ d.(dp_key) = k /\ d.(dp_psk) = psk) /\
  (forall n k, dv_route dev !! n = Some k <-> exists d, d ∈ desired /\ d.(dp_key) = k /\ n ∈ d.(dp_nets)).
Definition nets_disjoint (desired : list wgDesiredPeer) : Prop :=
  forall d1 d2 n, d1 ∈ desired -> d2 ∈ desired -> n ∈ d1.(dp_nets) -> n ∈ d2.(dp_nets) -> d1 = d2.

Lemma pending_nil desired dev : pending desired [] dev -> as_desired desired dev.
Proof.
  intros [_ _ Hp _ Hn Hr]. split; [intros k psk; apply Hp, not_elem_of_nil|]. intros n k. split.
  - intros [?|[]%elem_of_nil]%Hr. done.
  - intros (d & Hd & <- & Hin). apply Hn; [done|apply not_elem_of_nil|done].
Qed.

Lemma diff_of_desired desired dev current :
  NoDup (map dp_key desired) -> (forall d, d ∈ desired -> exists n, d.(dp_nets) = [n]) ->
  as_desired desired dev -> dump_of dev current -> wgDiffPeers desired current = MkChanges [] 0 0 0.
Proof.
  intros Hkeys Hone [Hpsk Hnet] [Dk Dp Dn Dnd].
  assert (Hch : omap (change_of current) desired = []).
  { destruct (omap (change_of current) desired) as [|c l] eqn:Hl; [done|]. exfalso.
    assert (Hin : c ∈ omap (change_of current) desired) by (rewrite Hl; by left).
    apply changes_In in Hin as (d & Hd & Hc). destruct (Hone d Hd) as [n Hn].
    assert (Hp : dv_psk dev !! dp_key d = Some (dp_psk d)) by (apply Hpsk; by exists d).
    apply Dp in Hp as (p & Hp & Hpk & Hpp). unfold change_of in Hc.
    rewrite (proj2 (have_Some current (dp_key d) p Dk)) in Hc by done.
    assert (Hsame : wgPeerChanged d p = false); [|by rewrite Hsame in Hc].
    apply (unchanged_iff d p n Hn). split; [done|].
    apply Permutation_singleton_r, NoDup_Permutation; [by apply Dnd|apply NoDup_singleton|].
    intros m. rewrite list_elem_of_singleton. split.
    - intros Hm. assert (Hr : dv_route dev !! m = Some (dp_key d)) by (apply Dn; by exists p).
      apply Hnet in Hr as (d' & Hd' & Hk' & Hm').
      rewrite (NoDup_map_inj dp_key desired d' d Hkeys Hd' Hd Hk'), Hn in Hm'. by apply list_elem_of_singleton in Hm'.
    - intros ->. assert (Hr : dv_route dev !! n = Some (dp_key d)).
      { apply Hnet. exists d. rewrite Hn. split_and!; [done..|by left]. }
      apply Dn in Hr as (q & Hq & Hqk & Hqn).
      by rewrite (NoDup_map_inj wp_key current p q Dk Hp Hq) by congruence. }
  assert (Hrm : removals desired current = []).
  { destruct (removals desired current) as [|c l] eqn:Hl; [done|]. exfalso.
    assert (Hin : c ∈ removals desired current) by (rewrite Hl; by left).
    apply removals_In in Hin as (p & Hp & Hno & _). apply Hno.
    assert (Hq : dv_psk dev !! wp_key p = Some (wp_psk p)) by (apply Dp; by exists p).
    apply Hpsk in Hq as (d & Hd & <- & _). by apply list_elem_of_fmap_2. }
  unfold wgDiffPeers. by rewrite Hch, Hrm.
Qed.

Lemma SyncPeers_dev peers dev current desired :
  wgDesiredPeers peers = inl desired ->
  SyncPeers peers dev current = (inl (wgDiffPeers desired current), foldl configure dev (wgDiffPeers desired current).(ch_configs)).
Proof.
  intros Hd. unfold SyncPeers. rewrite Hd. f_equal. unfold Empty. case_bool_decide as He; [by rewrite He|done].
Qed.

Lemma sync_as_desired desired dev current :
  NoDup (map dp_key desired) -> nets_disjoint desired -> (forall d, d ∈ desired -> exists n, d.(dp_nets) = [n]) ->
  dump_of dev current -> as_desired desired (foldl configure dev (wgDiffPeers desired current).(ch_configs)).
Proof. intros ? ? ? ?. apply pending_nil, pending_done; [done..|]. by apply pending_start. Qed.

Lemma kept_unwritten desired dev current d p c : dump_of dev current -> NoDup (map dp_key desired) ->
  (forall d, d ∈ desired -> exists n, d.(dp_nets) = [n]) -> d ∈ desired -> p ∈ current -> p.(wp_key) = d.(dp_key) -> p.(wp_psk) = d.(dp_psk) ->
  p.(wp_nets) = d.(dp_nets) -> c ∈ (wgDiffPeers desired current).(ch_configs) -> c.(pc_key) <> d.(dp_key).
Proof.
  intros Hdump Hkeys Hone Hin Hp Hk Hpsk Hn Hc Hck. cbn [ch_configs wgDiffPeers] in Hc. rewrite sort_configs_perm in Hc.
  apply elem_of_app in Hc as [(x & Hx & Hxc)%changes_In|(q & Hq & Hno & ->)%removals_In].
  - pose proof (change_of_key _ _ _ Hxc) as (Hxk & _). rewrite (NoDup_map_inj dp_key desired x d Hkeys Hx Hin) in Hxc by congruence.
    destruct (Hone d Hin) as [n Hn1]. unfold change_of in Hxc. rewrite (proj2 (have_Some current (dp_key d) p (du_keys _ _ Hdump))) in Hxc by done.
    by rewrite (proj2 (unchanged_iff d p n Hn1)) in Hxc by (split; congruence).
  - apply Hno. cbn in Hck. rewrite Hck. by apply list_elem_of_fmap_2.
Qed.

(** *** The target, on the rows *)
Definition active (p : Peer) : Prop := p.(p_enabled) = true /\ p.(p_wg_disabled) = false.
#[export] Instance active_dec p : Decision (active p) := _.
(** A client belongs on the interface with this key, pre-shared key and
    address. *)
Definition belongs (peers : list Peer) (p : Peer) (key psk : string) (ip : Z) : Prop :=
  p ∈ peers /\ active p /\ ParseKey p.(p_public) = Some key /\ ParseKey p.(p_psk) = Some psk /\ ParseAddr p.(p_address) = Some (V4 ip).
Definition readable (p : Peer) : Prop := exists key psk ip, belongs [p] p key psk ip.
Definition host_net (ip : Z) : string := AddrString (V4 ip) +:+ "/32".
(** No key and no address is given to two such clients. *)
Definition distinct_clients (peers : list Peer) : Prop :=
  NoDup (omap (fun p => ParseKey p.(p_public)) (filter active peers)) /\ NoDup (omap (fun p => ParseAddr p.(p_address)) (filter active peers)).

Lemma readable_iff p : readable p <-> active p /\ is_Some (ParseKey p.(p_public)) /\ is_Some (ParseKey p.(p_psk)) /\ exists ip, ParseAddr p.(p_address) = Some (V4 ip).
Proof.
  unfold readable, belongs. split.
  - intros (k & s & ip & _ & Ha & Hk & Hs & Hi). split_and!; [done|by eexists..].
  - intros (Ha & [k Hk] & [s Hs] & ip & Hi). exists k, s, ip. split_and!; try done. by left.
Qed.
Lemma belongs_cons x peers p key psk ip : belongs (x :: peers) p key psk ip <-> belongs [x] p key psk ip \/ belongs peers p key psk ip.
Proof. unfold belongs. rewrite elem_of_cons, list_elem_of_singleton. tauto. Qed.

Lemma wgDesiredPeers_spec peers :
  match wgDesiredPeers peers with
  | inr name => exists before p after, peers = before ++ p :: after /\ active p /\ ~ readable p /\ p.(p_name) = name /\
      forall q, q ∈ before -> active q -> readable q
  | inl l => (forall q, q ∈ peers -> active q -> readable q) /\
      (forall d, d ∈ l <-> exists p key psk ip, belongs peers p key psk ip /\ d = MkDesired key psk [host_net ip]) /\
      map dp_key l = omap (fun p => ParseKey p.(p_public)) (filter active peers)
  end.
Proof.
  induction peers as [|p peers IH]; cbn [wgDesiredPeers].
  { split; [by intros q ?%elem_of_nil|]. split; [|done]. intros d. split; [by intros ?%elem_of_nil|by intros (p & ? & ? & ? & [?%elem_of_nil _] & _)]. }
  rewrite filter_cons. destruct (negb (p_enabled p) || p_wg_disabled p) eqn:Hoff.
  - assert (Hn : ~ active p) by (intros [H1 H2]; by rewrite H1, H2 in Hoff). rewrite decide_False by done.
    destruct (wgDesiredPeers peers) as [l|name].
    + destruct IH as (Hr & Hd & Hk). split; [intros q [->|Hq]%elem_of_cons; [done|by apply Hr]|]. split; [|done]. intros d. rewrite Hd.
      setoid_rewrite belongs_cons. split; [intros (q & k & s & ip & Hb & ->); exists q, k, s, ip; split; [by right|done]|].
      intros (q & k & s & ip & [(->%list_elem_of_singleton & Ha & _)|Hb] & ->); [done|by exists q, k, s, ip].
    + destruct IH as (before & x & after & -> & Ha & Hx & Hname & Hb). exists (p :: before), x, after. split_and!; try done.
      intros q [->|Hq]%elem_of_cons; [done|by apply Hb].
  - apply orb_false_iff in Hoff as [H1%negb_false_iff H2]. assert (Ha : active p) by done. rewrite decide_True by done. cbn [omap list_omap].
    assert (Hbad : ~ readable p -> exists before x after, p :: peers = before ++ x :: after /\ active x /\ ~ readable x /\ p_name x = p_name p /\
      forall q, q ∈ before -> active q -> readable q).
    { intros Hx. exists [], p, peers. split_and!; try done. by intros q ?%elem_of_nil. }
    destruct (ParseKey (p_public p)) as [k|] eqn:Hk; [|apply Hbad; rewrite readable_iff, Hk; by intros (_ & [? ?] & _)].
    destruct (ParseKey (p_psk p)) as [psk|] eqn:Hp; [|apply Hbad; rewrite readable_iff, Hp; by intros (_ & _ & [? ?] & _)].
    destruct (ParseAddr (p_address p)) as [[ip|ip z]|] eqn:Hi;
      [|apply Hbad; rewrite readable_iff, Hi; by intros (_ & _ & _ & ? & ?)|apply Hbad; rewrite readable_iff, Hi; by intros (_ & _ & _ & ? & ?)].
    assert (Hr : readable p) by (rewrite readable_iff, Hk, Hp, Hi; split_and!; by eexists).
    destruct (wgDesiredPeers peers) as [l|name].
    + destruct IH as (Hall & Hd & Hkeys). split; [intros q [->|Hq]%elem_of_cons; [done|by apply Hall]|]. split; [|cbn [map dp_key]; by rewrite Hkeys].
      intros d. rewrite elem_of_cons, Hd. setoid_rewrite belongs_cons. split.
      * intros [->|(q & k' & s & ip' & Hb & ->)]; [|exists q, k', s, ip'; split; [by right|done]].
        exists p, k, psk, ip. split; [left|done]. split_and!; try done. by left.
      * intros (q & k' & s & ip' & [(->%list_elem_of_singleton & _ & Hk' & Hs' & Hi')|Hb] & ->); [left|right; by exists q, k', s, ip'].
        by assert (k' = k) as -> by congruence; assert (s = psk) as -> by congruence; assert (ip' = ip) as -> by congruence.
    + destruct IH as (before & x & after & -> & Hx & Hn & Hname & Hb). exists (p :: before), x, after. split_and!; try done.
      intros q [->|Hq]%elem_of_cons; [done|by apply Hb].
Qed.

Lemma host_net_inj p q k k' s s' ip ip' peers : belongs peers p k s ip -> belongs peers q k' s' ip' -> host_net ip = host_net ip' -> ip = ip'.
Proof.
  intros (_ & _ & _ & _ & H1%ParseAddr_V4_range) (_ & _ & _ & _ & H2%ParseAddr_V4_range) He%append_inv_tail.
  assert (Hi : V4 ip = V4 ip'); [|by injection Hi]. by apply AddrString_inj.
Qed.
(** Clients in a list without repetitions of [f] are one when [f] is. *)
Lemma NoDup_omap_inj {A B} (f : A -> option B) l x y b : NoDup (omap f l) -> x ∈ l -> y ∈ l -> f x = Some b -> f y = Some b -> x = y.
Proof.
  induction l as [|z l IH]; [by intros _ ?%elem_of_nil|]. cbn [omap list_omap]. intros Hnd Hx Hy Hfx Hfy.
  assert (Hin : forall w, w ∈ l -> f w = Some b -> b ∈ omap f l) by (intros w Hw Hf; apply list_elem_of_omap; by exists w).
  apply elem_of_cons in Hx as [->|Hx], Hy as [->|Hy]; [done|rewrite Hfx in Hnd; apply NoDup_cons in Hnd as [Hn _]; exfalso; by apply Hn, (Hin y)| |].
  - rewrite Hfy in Hnd. apply NoDup_cons in Hnd as [Hn _]. exfalso. by apply Hn, (Hin x).
  - apply IH; try done. destruct (f z); [by apply NoDup_cons in Hnd as [_ ?]|done].
Qed.
Lemma distinct_nets peers desired : distinct_clients peers -> wgDesiredPeers peers = inl desired ->
  NoDup (map dp_key desired) /\ nets_disjoint desired.
Proof.
  intros [Hk Ha] Hd. pose proof (wgDesiredPeers_spec peers) as Hs. rewrite Hd in Hs. destruct Hs as (_ & Hel & Hkeys). split; [by rewrite Hkeys|].
  intros d1 d2 n (p & k & s & ip & Hp & ->)%Hel (q & k' & s' & ip' & Hq & ->)%Hel. cbn [dp_nets]. intros Hn1%list_elem_of_singleton Hn2%list_elem_of_singleton.
  assert (ip = ip') as <- by (eapply host_net_inj; [exact Hp|exact Hq|congruence]).
  destruct Hp as (Hp & Hap & Hkp & Hsp & Hip), Hq as (Hq & Haq & Hkq & Hsq & Hiq).
  assert (p = q) as <- by (eapply (NoDup_omap_inj _ _ _ _ _ Ha); [by apply list_elem_of_filter|by apply list_elem_of_filter|exact Hip|exact Hiq]). congruence.
Qed.

(** C25: [SyncPeers], from any device whose dump it reads, leaves exactly the
    stored clients that are switched on and have WireGuard: each with its own
    pre-shared key and its own address routed to it, every other peer and route
    gone.  A client already right is not written, so its session is not
    touched, and a second pass finds nothing to write.  It stops at the first
    such client whose keys or address do not parse, names it and leaves the
    device as it was. *)
Theorem SyncPeers_correct peers dev current :
  dump_of dev current -> distinct_clients peers ->
  match SyncPeers peers dev current with
  | (inr name, dev') => dev' = dev /\
      exists before p after, peers = before ++ p :: after /\ active p /\ ~ readable p /\ p.(p_name) = name /\
        forall q, q ∈ before -> active q -> readable q
  | (inl changes, dev') => (forall q, q ∈ peers -> active q -> readable q) /\
      (forall key psk, dv_psk dev' !! key = Some psk <-> exists p ip, belongs peers p key psk ip) /\
      (forall net key, dv_route dev' !! net = Some key <-> exists p psk ip, belongs peers p key psk ip /\ net = host_net ip) /\
      (forall p key psk ip q, belongs peers p key psk ip -> q ∈ current -> q.(wp_key) = key -> q.(wp_psk) = psk -> q.(wp_nets) = [host_net ip] ->
        forall c, c ∈ changes.(ch_configs) -> c.(pc_key) <> key) /\
      (forall current', dump_of dev' current' -> SyncPeers peers dev' current' = (inl (MkChanges [] 0 0 0), dev'))
  end.
Proof.
  intros Hdump Hdis. pose proof (wgDesiredPeers_spec peers) as Hspec. destruct (wgDesiredPeers peers) as [desired|name] eqn:Hd;
    [|unfold SyncPeers; by rewrite Hd].
  rewrite (SyncPeers_dev _ _ _ desired Hd). destruct Hspec as (Hall & Hel & _). destruct (distinct_nets _ _ Hdis Hd) as [Hkeys Hnets].
  pose proof (wgDesiredPeers_nets _ _ Hd) as Hone. pose proof (sync_as_desired desired dev current Hkeys Hnets Hone Hdump) as Has.
  split; [done|]. split; [|split; [|split]].
  - intros key psk. rewrite (proj1 Has key psk). split.
    + intros (d & (p & k & s & ip & Hb & ->)%Hel & <- & <-). by exists p, ip.
    + intros (p & ip & Hb). exists (MkDesired key psk [host_net ip]). split; [|done]. apply Hel. by exists p, key, psk, ip.
  - intros net key. rewrite (proj2 Has net key). split.
    + intros (d & (p & k & s & ip & Hb & ->)%Hel & <- & ->%list_elem_of_singleton). by exists p, s, ip.
    + intros (p & psk & ip & Hb & ->). exists (MkDesired key psk [host_net ip]). split; [apply Hel; by exists p, key, psk, ip|]. split; [done|by left].
  - intros p key psk ip q Hb Hq Hk Hs Hn c Hc.
    assert (Hin : MkDesired key psk [host_net ip] ∈ desired) by (apply Hel; by exists p, key, psk, ip).
    apply (kept_unwritten desired dev current _ q c Hdump Hkeys Hone Hin Hq Hk Hs Hn Hc).
  - intros current' Hdump'. rewrite (SyncPeers_dev _ _ _ desired Hd). by rewrite (diff_of_desired desired _ current' Hkeys Hone Has Hdump').
Qed.
End result.

(** ** An example *)

(** Keys written as themselves. *)
#[local] Instance sample_keys : WGKeys :=
  {| ParseKey k := Some k; KeyString k := k; PublicKeyOf k := "pub:" +:+ k; ParseKey_String _ := eq_refl |}.

Definition sample_desired : list wgDesiredPeer :=
  [MkDesired "pubA" "pskA" ["10.77.0.2/32"]; MkDesired "pubB" "pskB" ["10.77.0.3/32"]]%string.
(** The device has [alice] right, and a client that is gone holding [bob]'s
    address. *)
Definition sample_dump : list wgPeer :=
  [MkWgPeer "pubA" "pskA" ["10.77.0.2/32"]; MkWgPeer "gone" "pskC" ["10.77.0.3/32"]]%string.
Definition sample_device : device := MkDevice
  (<["pubA":="pskA"]> (<["gone":="pskC"]> ∅))%string
  (<["10.77.0.2/32":="pubA"]> (<["10.77.0.3/32":="gone"]> ∅))%string.

Lemma sample_dump_of : dump_of sample_device sample_dump.
Proof.
  split.
  - by apply (bool_decide_unpack _).
  - intros k psk. unfold sample_device, sample_dump. cbn [dv_psk]. rewrite !lookup_insert_Some, lookup_empty.
    split; [intros [[<- <-]|[_ [[<- <-]|[_ ?]]]]|].
    + eexists. split; [by left|done].
    + eexists. split; [right; by left|done].
    + done.
    + intros (p & [->|[->|[]%elem_of_nil]%elem_of_cons]%elem_of_cons & <- & <-); [by left|]. right. split; [done|by left].
  - intros n k. unfold sample_device, sample_dump. cbn [dv_route]. rewrite !lookup_insert_Some, lookup_empty.
    split; [intros [[<- <-]|[_ [[<- <-]|[_ ?]]]]|].
    + eexists. split; [by left|]. split; [done|by left].
    + eexists. split; [right; by left|]. split; [done|by left].
    + done.
    + intros (p & [->|[->|[]%elem_of_nil]%elem_of_cons]%elem_of_cons & <- & [->|[]%elem_of_nil]%elem_of_cons); [by left|].
      right. split; [done|by left].
  - intros p [->|[->|[]%elem_of_nil]%elem_of_cons]%elem_of_cons; apply NoDup_singleton.
Qed.

Lemma sample_clients_distinct : distinct_clients [sample_alice; sample_bob].
Proof. split; apply (bool_decide_unpack _); by vm_compute. Qed.

(** Of Alice, who is right on the device, and Bob, who is not there, and of
    Bob switched off. *)
Definition bob_off : Peer :=
  MkPeer sample_bob.(p_wg_disabled) sample_bob.(p_reality) sample_bob.(p_cred_id) sample_bob.(p_revision) sample_bob.(p_egress) sample_bob.(p_id) sample_bob.(p_name)
    sample_bob.(p_public) sample_bob.(p_private) sample_bob.(p_psk) sample_bob.(p_address) false sample_bob.(p_created).
Lemma SyncPeers_correct_witness :
  map pc_key (wgDiffPeers sample_desired sample_dump).(ch_configs) = ["gone"; "pubB"]%string /\
  (exists changes dev', SyncPeers [sample_alice; sample_bob] sample_device sample_dump = (inl changes, dev') /\
    dv_psk dev' !! "pubB"%string = Some "pskB"%string /\ dv_psk dev' !! "gone"%string = None) /\
  forall psk, dv_psk (SyncPeers [sample_alice; bob_off] sample_device sample_dump).2 !! "pubB"%string <> Some psk.
Proof.
  split; [vm_compute; reflexivity|]. split.
  - pose proof (SyncPeers_correct [sample_alice; sample_bob] sample_device sample_dump sample_dump_of sample_clients_distinct) as H.
    assert (Hok : exists changes dev', SyncPeers [sample_alice; sample_bob] sample_device sample_dump = (inl changes, dev')) by (do 2 eexists; vm_compute; reflexivity).
    destruct Hok as (changes & dev' & Hok). rewrite Hok in H. destruct H as (_ & Hpsk & _). exists changes, dev'. split; [exact Hok|]. split.
    + apply Hpsk. exists sample_bob. eexists. split; [right; by left|]. split; [by split|]. split; [reflexivity|]. split; [reflexivity|]. vm_compute. reflexivity.
    + destruct (dv_psk dev' !! "gone"%string) as [psk|] eqn:Hg; [|reflexivity]. exfalso.
      apply Hpsk in Hg as (p & ip & Hp & _ & Hk & _). apply elem_of_cons in Hp as [->|[->|[]%elem_of_nil]%elem_of_cons]; discriminate Hk.
  - assert (Hdis : distinct_clients [sample_alice; bob_off]) by (split; apply (bool_decide_unpack _); by vm_compute).
    pose proof (SyncPeers_correct [sample_alice; bob_off] sample_device sample_dump sample_dump_of Hdis) as H.
    assert (Hok : exists changes dev', SyncPeers [sample_alice; bob_off] sample_device sample_dump = (inl changes, dev')) by (do 2 eexists; vm_compute; reflexivity).
    destruct Hok as (changes & dev' & Hok). rewrite Hok in H |- *. destruct H as (_ & Hpsk & _). intros psk (p & ip & Hp & Ha & Hk & _)%Hpsk.
    apply elem_of_cons in Hp as [->|[->|[]%elem_of_nil]%elem_of_cons]; [discriminate Hk|by destruct Ha].
Defined.
