(* ===== verification/Qr.v ===== *)
(** * The QR encoder

    [internal/qr/qr.go] and [terminal.go]: byte mode, error correction level L,
    versions 1 to 40.  A bit of the stream, in the source a byte 0 or 1, is a
    [bool]; bytes are [Z] below 256; a slice is a list. *)

From Stdlib Require Import Ascii.
From S2P Require Import Prelude GoStd.
#[local] Open Scope Z_scope.

(** ** Tables *)
Definition minVersion : Z := 1.
Definition maxVersion : Z := 40.

Definition total : list Z :=
  [26; 44; 70; 100; 134; 172; 196; 242; 292; 346; 404; 466; 532; 581; 655;
   733; 815; 901; 991; 1085; 1156; 1258; 1364; 1474; 1588; 1706; 1828; 1921; 2051; 2185;
   2323; 2465; 2611; 2761; 2876; 3034; 3196; 3362; 3532; 3706].
Definition eccPerBlock : list Z :=
  [7; 10; 15; 20; 26; 18; 20; 24; 30; 18; 20; 24; 26; 30; 22; 24; 28; 30; 28;
   28; 28; 28; 30; 30; 26; 28; 30; 30; 30; 30; 30; 30; 30; 30; 30; 30; 30; 30; 30; 30].
Definition blocks : list Z :=
  [1; 1; 1; 1; 1; 2; 2; 2; 2; 4; 4; 4; 4; 4; 6; 6; 6; 6; 7; 8; 8; 9; 9; 10;
   12; 12; 12; 13; 14; 15; 16; 17; 18; 19; 19; 20; 21; 22; 24; 25].
Definition align : list (list Z) :=
  [[]; [6; 18]; [6; 22]; [6; 26]; [6; 30]; [6; 34]; [6; 22; 38]; [6; 24; 42]; [6; 26; 46]; [6; 28; 50];
   [6; 30; 54]; [6; 32; 58]; [6; 34; 62]; [6; 26; 46; 66]; [6; 26; 48; 70]; [6; 26; 50; 74]; [6; 30; 54; 78];
   [6; 30; 56; 82]; [6; 30; 58; 86]; [6; 34; 62; 90]; [6; 28; 50; 72; 94]; [6; 26; 50; 74; 98];
   [6; 30; 54; 78; 102]; [6; 28; 54; 80; 106]; [6; 32; 58; 84; 110]; [6; 30; 58; 86; 114]; [6; 34; 62; 90; 118];
   [6; 26; 50; 74; 98; 122]; [6; 30; 54; 78; 102; 126]; [6; 26; 52; 78; 104; 130]; [6; 30; 56; 82; 108; 134];
   [6; 34; 60; 86; 112; 138]; [6; 30; 58; 86; 114; 142]; [6; 34; 62; 90; 118; 146]; [6; 30; 54; 78; 102; 126; 150];
   [6; 24; 50; 76; 102; 128; 154]; [6; 28; 54; 80; 106; 132; 158]; [6; 32; 58; 84; 110; 136; 162];
   [6; 26; 54; 82; 110; 138; 166]; [6; 30; 58; 86; 114; 142; 170]].

(** [table[version-1]] *)
Definition entry {A} (d : A) (l : list A) (version : Z) : A := nth (Z.to_nat (version - 1)) l d.

(** ** The field with 256 elements *)

(** The loop that fills [gfExp] and [gfLog] up to 255. *)
Definition gf_step (t : Z * list Z * list Z) (i : Z) : Z * list Z * list Z :=
  let '(x, exp, log) := t in
  let x' := Z.shiftl x 1 in
  ((if decide (Z.land x' 0x100 <> 0) then Z.lxor x' 0x11d else x'), exp ++ [x], <[Z.to_nat x := i]> log).
Definition gf_tables : list Z * list Z :=
  let '(_, exp, log) := foldl gf_step (1, [], replicate 256 0) (seqZ 0 255) in
  (foldl (fun exp i => exp ++ [nth (i - 255)%nat exp 0]) exp (seq 255 257), log).
Definition gfExp : list Z := gf_tables.1.
Definition gfLog : list Z := gf_tables.2.

Definition gfMul (a b : Z) : Z :=
  if decide (a = 0 \/ b = 0) then 0
  else nth (Z.to_nat (nth (Z.to_nat a) gfLog 0 + nth (Z.to_nat b) gfLog 0)) gfExp 0.

(** [r[j] ^= x] *)
Definition xor_at (r : list Z) (j : nat) (x : Z) : list Z := <[j := Z.lxor (nth j r 0) x]> r.

(** [genPoly] *)
Definition gen_step (p : list Z) (i : nat) : list Z :=
  foldl (fun r j => xor_at (xor_at r j (nth j p 0)) (S j) (gfMul (nth j p 0) (nth i gfExp 0)))
    (replicate (S (length p)) 0) (seq 0 (length p)).
Definition genPoly (n : nat) : list Z := foldl gen_step [1] (seq 0 n).

(** [rsRemainder] *)
Definition rs_step (gen : list Z) (res : list Z) (i : nat) : list Z :=
  let c := nth i res 0 in
  if decide (c = 0) then res
  else foldl (fun res j => xor_at res (i + j) (gfMul (nth j gen 0) c)) res (seq 0 (length gen)).
Definition rsRemainder (data : list Z) (ecLen : nat) : list Z :=
  drop (length data) (foldl (rs_step (genPoly ecLen)) (data ++ replicate ecLen 0) (seq 0 (length data))).

(** ** The stream of bits *)
Definition dataCodewords (version : Z) : Z :=
  entry 0 total version - entry 0 eccPerBlock version * entry 0 blocks version.
Definition countBits (version : Z) : nat := if decide (10 <= version) then 16 else 8.

Definition pickVersion (length : Z) : result Z :=
  match list_find (fun v => 4 + Z.of_nat (countBits v) + 8 * length <= dataCodewords v * 8) (seqZ minVersion maxVersion) with
  | Some (_, v) => Ok v
  | None => fail ErrOther "ErrTooLong"
  end.

(** The closure [push]: the bits of a value, the highest first. *)
Fixpoint bits_of (value : Z) (length : nat) : list bool :=
  match length with O => [] | S n => Z.testbit value (Z.of_nat n) :: bits_of value n end.
(** The bytes of a text. *)
Definition bytes (text : string) : list Z := map byte_of (String.list_ascii_of_string text).

(** Up to four zeros, not past the data; zeros up to a whole byte. *)
Fixpoint terminate (i : nat) (capacity : nat) (bits : list bool) : list bool :=
  match i with
  | O => bits
  | S i => if decide (length bits < capacity)%nat then terminate i capacity (bits ++ [false]) else bits
  end.
Fixpoint align_byte (fuel : nat) (bits : list bool) : list bool :=
  match fuel with
  | O => bits
  | S fuel => if decide (length bits mod 8 = 0)%nat then bits else align_byte fuel (bits ++ [false])
  end.
(** Eight bits are a byte; the length is a multiple of eight. *)
Definition pack8 (l : list bool) : Z := foldl (fun v b => Z.lor (Z.shiftl v 1 mod 256) (Z.b2z b)) 0 l.
Fixpoint pack (fuel : nat) (bits : list bool) : list Z :=
  match fuel, bits with
  | S fuel, _ :: _ => pack8 (take 8 bits) :: pack fuel (drop 8 bits)
  | _, _ => []
  end.
Fixpoint fill (fuel : nat) (i : nat) (size : nat) (cw : list Z) : list Z :=
  match fuel with
  | O => cw
  | S fuel => if decide (length cw < size)%nat
              then fill fuel (S i) size (cw ++ [nth (i mod 2) [0xec; 0x11] 0]) else cw
  end.
Definition codewords (text : string) (version : Z) : list Z :=
  let data := bytes text in
  let dataCw := Z.to_nat (dataCodewords version) in
  let bits := bits_of 4 4 ++ bits_of (Z.of_nat (length data)) (countBits version) ++ flat_map (fun b => bits_of b 8) data in
  let bits := align_byte 8 (terminate 4 (dataCw * 8) bits) in
  fill dataCw 0 dataCw (pack (length bits) bits).

(** The lengths of the data blocks and the blocks themselves. *)
Definition block_lengths (version : Z) : list nat :=
  let dataCw := Z.to_nat (dataCodewords version) in
  let nBlocks := Z.to_nat (entry 0 blocks version) in
  let shortLen := (dataCw / nBlocks)%nat in let longCount := (dataCw mod nBlocks)%nat in
  map (fun i => if decide (nBlocks - longCount <= i)%nat then S shortLen else shortLen) (seq 0 nBlocks).
Fixpoint split_blocks (lengths : list nat) (cw : list Z) : list (list Z) :=
  match lengths with [] => [] | n :: lengths => take n cw :: split_blocks lengths (drop n cw) end.

Definition interleave (version : Z) (cw : list Z) : list Z :=
  let ecLen := Z.to_nat (entry 0 eccPerBlock version) in
  let nBlocks := Z.to_nat (entry 0 blocks version) in
  let shortLen := (Z.to_nat (dataCodewords version) / nBlocks)%nat in
  let dataBlocks := split_blocks (block_lengths version) cw in
  let ecBlocks := map (fun d => rsRemainder d ecLen) dataBlocks in
  flat_map (fun i => omap (fun d : list Z => d !! i) dataBlocks) (seq 0 (S shortLen)) ++
  flat_map (fun i => map (fun e => nth i e 0) ecBlocks) (seq 0 ecLen).

Definition bitStream (text : string) (version : Z) : list bool :=
  flat_map (fun b => bits_of b 8) (interleave version (codewords text version)).

(** ** The matrix *)
Record Matrix := MkMatrix { mx_size : Z; mx_dark : list bool }.

Definition cell (size row col : Z) : nat := Z.to_nat (row * size + col).
Definition inside (size row col : Z) : bool := (0 <=? row) && (0 <=? col) && (row <? size) && (col <? size).
Definition Dark (m : Matrix) (row col : Z) : bool :=
  inside m.(mx_size) row col && nth (cell m.(mx_size) row col) m.(mx_dark) false.
Definition set (m : Matrix) (row col : Z) (v : bool) : Matrix :=
  if inside m.(mx_size) row col then MkMatrix m.(mx_size) (<[cell m.(mx_size) row col := v]> m.(mx_dark)) else m.

Definition maskFn (mask row col : Z) : bool :=
  if decide (mask = 0) then (row + col) mod 2 =? 0
  else if decide (mask = 1) then row mod 2 =? 0
  else if decide (mask = 2) then col mod 3 =? 0
  else if decide (mask = 3) then (row + col) mod 3 =? 0
  else if decide (mask = 4) then (row / 2 + col / 3) mod 2 =? 0
  else if decide (mask = 5) then (row * col) mod 2 + (row * col) mod 3 =? 0
  else if decide (mask = 6) then ((row * col) mod 2 + (row * col) mod 3) mod 2 =? 0
  else ((row + col) mod 2 + (row * col) mod 3) mod 2 =? 0.

(** One step of the divisions of [bchFormat] and [bchVersion]. *)
Definition bch_step (poly low : Z) (d i : Z) : Z :=
  if decide (Z.land (Z.shiftr d i) 1 = 1) then Z.lxor d (Z.shiftl poly (i - low)) else d.
Definition bchFormat (data : Z) : Z :=
  let d := foldl (bch_step 0x537 10) (Z.shiftl data 10) [14; 13; 12; 11; 10] in
  Z.lxor (Z.lor (Z.shiftl data 10) d) 0x5412.
Definition bchVersion (v : Z) : Z :=
  let d := foldl (bch_step 0x1f25 12) (Z.shiftl v 12) [17; 16; 15; 14; 13; 12] in Z.lor (Z.shiftl v 12) d.

(** *** The function patterns *)

(** The matrix under construction and the map of its function modules. *)
Record Skeleton := MkSkeleton { sk_matrix : Matrix; sk_functional : list bool }.
Definition sk_set (s : Skeleton) (op : Z * Z * bool) : Skeleton :=
  let '(row, col, v) := op in
  let size := s.(sk_matrix).(mx_size) in
  if inside size row col
  then MkSkeleton (set s.(sk_matrix) row col v) (<[cell size row col := true]> s.(sk_functional)) else s.
Definition paint (ops : list (Z * Z * bool)) (s : Skeleton) : Skeleton := foldl sk_set s ops.

(** The calls of [set] that draw a finder at a corner. *)
Definition finder_on (r c : Z) : bool :=
  ((0 <=? r) && (r <=? 6) && ((c =? 0) || (c =? 6))) ||
  ((0 <=? c) && (c <=? 6) && ((r =? 0) || (r =? 6))) ||
  ((2 <=? r) && (r <=? 4) && (2 <=? c) && (c <=? 4)).
Definition finder (baseRow baseCol : Z) : list (Z * Z * bool) :=
  flat_map (fun r => map (fun c => (baseRow + r, baseCol + c, finder_on r c)) (seqZ (-1) 9)) (seqZ (-1) 9).

Definition alignments (version size : Z) : list (Z * Z * bool) :=
  let centers := entry [] align version in
  flat_map (fun r => flat_map (fun c =>
    if ((r <=? 8) && (c <=? 8)) || ((r <=? 8) && (size - 9 <=? c)) || ((size - 9 <=? r) && (c <=? 8)) then []
    else flat_map (fun dr => map (fun dc =>
           (r + dr, c + dc, negb (Z.max (Z.abs dr) (Z.abs dc) =? 1))) (seqZ (-2) 5)) (seqZ (-2) 5))
    centers) centers.

Definition timing (size : Z) : list (Z * Z * bool) :=
  flat_map (fun i => [(6, i, i mod 2 =? 0); (i, 6, i mod 2 =? 0)]) (seqZ 8 (size - 16)).

(** The format field is reserved where nothing is drawn yet. *)
Definition reserve_one (s : Skeleton) (p : Z * Z) : Skeleton :=
  if nth (cell s.(sk_matrix).(mx_size) p.1 p.2) s.(sk_functional) false then s else sk_set s (p.1, p.2, false).
Definition format_area (size : Z) : list (Z * Z) :=
  flat_map (fun i => [(8, i); (i, 8)]) (seqZ 0 9 ++ seqZ (size - 8) 8).

Definition version_field (version size : Z) : list (Z * Z * bool) :=
  let bits := bchVersion version in
  flat_map (fun i => let on := Z.land (Z.shiftr bits i) 1 =? 1 in
    [(i / 3, i mod 3 + size - 11, on); (i mod 3 + size - 11, i / 3, on)]) (seqZ 0 18).

Definition skeleton (version : Z) : Skeleton :=
  let size := version * 4 + 17 in
  let blank := replicate (Z.to_nat (size * size)) false in
  let s := MkSkeleton (MkMatrix size blank) blank in
  let s := paint (finder 0 0 ++ finder 0 (size - 7) ++ finder (size - 7) 0) s in
  let s := paint (alignments version size) s in
  let s := paint (timing size ++ [(size - 8, 8, true)]) s in
  let s := foldl reserve_one s (format_area size) in
  if decide (7 <= version) then paint (version_field version size) s else s.

(** *** The data *)

(** The modules, and the part of the stream that is not placed yet. *)
Record Placing := MkPlacing { pl_dark : list bool; pl_rest : list bool }.

Section place.
Variables (functional : list bool) (size mask : Z).

Definition place_cell (row : Z) (p : Placing) (c : Z) : Placing :=
  if nth (cell size row c) functional false then p
  else
    let '(dark, rest) := match p.(pl_rest) with b :: rest => (b, rest) | [] => (false, []) end in
    MkPlacing (<[cell size row c := xorb dark (maskFn mask row c)]> p.(pl_dark)) rest.

(** The loop over the rows of a pair of columns; the row and the direction for
    the next pair. *)
Fixpoint strip (fuel : nat) (col row dir : Z) (p : Placing) : Placing * Z * Z :=
  match fuel with
  | O => (p, row, dir)
  | S fuel =>
      let p := foldl (place_cell row) p [col; col - 1] in
      let row := row + dir in
      if (row <? 0) || (size <=? row) then (p, row - dir, - dir) else strip fuel col row dir p
  end.
(** The loop over the pairs of columns, which steps over the sixth column. *)
Fixpoint strips (fuel : nat) (col row dir : Z) (p : Placing) : Placing :=
  match fuel with
  | O => p
  | S fuel =>
      if decide (0 < col) then
        let col := if decide (col = 6) then 5 else col in
        let '(p, row, dir) := strip (Z.to_nat size) col row dir p in
        strips fuel (col - 2) row dir p
      else p
  end.
End place.

(** The calls of [set] that write the format field. *)
Definition format_cells (size i : Z) : list (Z * Z) :=
  [(if i <? 6 then (i, 8) else if i <? 8 then (i + 1, 8) else (size - 15 + i, 8));
   (if i <? 8 then (8, size - i - 1) else if i <? 9 then (8, 15 - i) else (8, 14 - i))].
Definition put_format (mask : Z) (m : Matrix) : Matrix :=
  let format := bchFormat (Z.lor (Z.shiftl 1 3) mask) in
  foldl (fun m i => let on := Z.land (Z.shiftr format i) 1 =? 1 in
           foldl (fun m p => set m p.1 p.2 on) m (format_cells m.(mx_size) i)) m (seqZ 0 15).

Definition place (version : Z) (stream : list bool) (mask : Z) : Matrix :=
  let s := skeleton version in
  let size := s.(sk_matrix).(mx_size) in
  let p := strips s.(sk_functional) size mask (Z.to_nat size) (size - 1) (size - 1) (-1)
             (MkPlacing s.(sk_matrix).(mx_dark) stream) in
  let m := put_format mask (MkMatrix size p.(pl_dark)) in
  set m (size - 8) 8 true.

(** ** The penalty *)
Section penalty.
Variable m : Matrix.
Let size := m.(mx_size).

Definition run_score (run : Z) : Z := if decide (5 <= run) then 3 + (run - 5) else 0.
(** One line: the score, the current run and its colour. *)
Definition run_step (get : Z -> bool) (t : Z * Z * option bool) (b : Z) : Z * Z * option bool :=
  let '(score, run, prev) := t in
  let v := get b in
  if decide (Some v = prev) then (score, run + 1, prev) else (score + run_score run, 1, Some v).
Definition line_runs (get : Z -> bool) : Z :=
  let '(score, run, _) := foldl (run_step get) (0, 1, None) (seqZ 0 size) in score + run_score run.
Definition sum_over (l : list Z) (f : Z -> Z) : Z := foldl (fun acc x => acc + f x) 0 l.
Definition rule1 : Z :=
  sum_over (seqZ 0 size) (fun a => line_runs (fun b => Dark m a b)) +
  sum_over (seqZ 0 size) (fun a => line_runs (fun b => Dark m b a)).

Definition rule2 : Z :=
  sum_over (seqZ 0 (size - 1)) (fun r => sum_over (seqZ 0 (size - 1)) (fun c =>
    let v := Dark m r c in
    if Bool.eqb v (Dark m r (c + 1)) && Bool.eqb v (Dark m (r + 1) c) && Bool.eqb v (Dark m (r + 1) (c + 1))
    then 3 else 0)).

Definition pattern : list bool := [true; false; true; true; true; false; true; false; false; false; false].
Definition matches (get : Z -> bool) (start : Z) : bool :=
  let window := map (fun k => get (start + k)) (seqZ 0 11) in
  bool_decide (window = pattern) || bool_decide (window = rev pattern).
Definition rule3 : Z :=
  sum_over (seqZ 0 size) (fun r => sum_over (seqZ 0 (size - 10)) (fun c =>
    if matches (fun i => Dark m r i) c then 40 else 0)) +
  sum_over (seqZ 0 size) (fun c => sum_over (seqZ 0 (size - 10)) (fun r =>
    if matches (fun i => Dark m i c) r then 40 else 0)).

Definition rule4 : Z :=
  let dark := sum_over (seqZ 0 size) (fun r => sum_over (seqZ 0 size) (fun c => if Dark m r c then 1 else 0)) in
  let area := size * size in
  Z.abs (dark * 100 - 50 * area) / (5 * area) * 10.

Definition penalty : Z := rule1 + rule2 + rule3 + rule4.
End penalty.

(** ** [Encode] *)
Definition better (version : Z) (stream : list bool) (acc : option (Matrix * Z)) (mask : Z) : option (Matrix * Z) :=
  let m := place version stream mask in
  let score := penalty m in
  match acc with
  | Some (best, bestScore) => if decide (score < bestScore) then Some (m, score) else acc
  | None => Some (m, score)
  end.
Definition Encode (text : string) : result Matrix :=
  version ← pickVersion (Z.of_nat (String.length text));
  let stream := bitStream text version in
  Ok match foldl (better version stream) None (seqZ 0 8) with Some (best, _) => best | None => MkMatrix 0 [] end.

(** ** The picture for a terminal *)
Definition QuietZone : Z := 4.
Definition blockBoth : string := "█".
Definition blockUpper : string := "▀".
Definition blockLower : string := "▄".
Definition blockNeither : string := " ".
Definition ansiOn : string := byte_string [0x1b] +:+ "[47;30m".
Definition ansiOff : string := byte_string [0x1b] +:+ "[0m".
Definition newline : string := byte_string [10].

Definition block (upper lower : bool) : string :=
  if upper && lower then blockBoth else if upper then blockUpper else if lower then blockLower else blockNeither.
(** The rows the loop visits: every second one from the quiet zone on. *)
Definition picture_rows (size : Z) : list Z :=
  map (fun i => - QuietZone + 2 * i) (seqZ 0 ((size + 2 * QuietZone + 1) / 2)).
Definition picture_line (color : bool) (m : Matrix) (row : Z) : string :=
  (if color then ansiOn else EmptyString) +:+
  foldr String.append EmptyString
    (map (fun col => block (Dark m row col) (Dark m (row + 1) col)) (seqZ (- QuietZone) (m.(mx_size) + 2 * QuietZone))) +:+
  (if color then ansiOff else EmptyString) +:+ newline.
Definition picture (m : Matrix) (color : bool) : string :=
  foldr String.append EmptyString (map (picture_line color m) (picture_rows m.(mx_size))).
Definition Terminal (text : string) (color : bool) : result string :=
  m ← Encode text; Ok (picture m color).
