(* ===== verification/QrField.v ===== *)
(** * Reed-Solomon codes of the QR encoder

    The tables of [qr.go] are the field with 256 elements, [genPoly] has the
    first powers of the generator as its roots, and a block followed by its
    [rsRemainder] vanishes at them. *)

From S2P Require Import Prelude GoStd Qr.
#[local] Open Scope Z_scope.

(** ** The field *)
#[local] Opaque gfExp gfLog.

Definition is_byte (z : Z) : Prop := 0 <= z < 256.
Definition gf_e (i : nat) : Z := nth i gfExp 0.
Definition gf_l (a : Z) : nat := Z.to_nat (nth (Z.to_nat a) gfLog 0).
(** Powers of the generator. *)
Definition pw (i : nat) : Z := gf_e (i mod 255).
(** Multiplication by the generator. *)
Definition xtime (x : Z) : Z := if decide (Z.land (2 * x) 0x100 <> 0) then Z.lxor (2 * x) 0x11d else 2 * x.

Lemma forall_seq n (p : nat -> bool) : forallb p (seq 0 n) = true -> forall i, (i < n)%nat -> p i = true.
Proof. rewrite forallb_forall. intros H i Hi. apply H, in_seq. lia. Qed.
Lemma forall_bytes (p : Z -> bool) : forallb p (seqZ 0 256) = true -> forall x, is_byte x -> p x = true.
Proof. rewrite forallb_forall. intros H x Hx. apply H, list_elem_of_In, elem_of_seqZ. unfold is_byte in Hx. lia. Qed.

Lemma exp_period i : (i < 257)%nat -> gf_e (i + 255) = gf_e i.
Proof.
  intros Hi. apply Z.eqb_eq. revert i Hi. apply (forall_seq 257 (fun i => gf_e (i + 255) =? gf_e i)). vm_compute. reflexivity.
Qed.
Lemma log_exp i : (i < 255)%nat -> 0 < gf_e i < 256 /\ gf_l (gf_e i) = i.
Proof.
  intros Hi. pose proof (forall_seq 255 (fun i => (0 <? gf_e i) && (gf_e i <? 256) && (gf_l (gf_e i) =? i)%nat)) as H.
  specialize (H ltac:(vm_compute; reflexivity) i Hi). cbv beta in H. apply andb_true_iff in H as [[H1%Z.ltb_lt H2%Z.ltb_lt]%andb_true_iff H3%Nat.eqb_eq].
  exact (conj (conj H1 H2) H3).
Qed.
Lemma exp_log a : 0 < a < 256 -> (gf_l a < 255)%nat /\ gf_e (gf_l a) = a /\ 0 <= nth (Z.to_nat a) gfLog 0.
Proof.
  intros Ha. pose proof (forall_bytes (fun a => (a =? 0) || ((gf_l a <? 255)%nat && (gf_e (gf_l a) =? a) && (0 <=? nth (Z.to_nat a) gfLog 0)))) as H.
  specialize (H ltac:(vm_compute; reflexivity) a ltac:(unfold is_byte; lia)). cbv beta in H.
  apply orb_true_iff in H as [H%Z.eqb_eq|H]; [lia|].
  apply andb_true_iff in H as [[H1%Nat.ltb_lt H2%Z.eqb_eq]%andb_true_iff H3%Z.leb_le]. exact (conj H1 (conj H2 H3)).
Qed.

Lemma gfMul_0_l x : gfMul 0 x = 0.
Proof. unfold gfMul. by rewrite decide_True by by left. Qed.
Lemma gfMul_0_r x : gfMul x 0 = 0.
Proof. unfold gfMul. by rewrite decide_True by by right. Qed.

Lemma pw_pos i : 0 < pw i < 256.
Proof. apply log_exp, Nat.mod_upper_bound. lia. Qed.
Lemma pw_mul i j : gfMul (pw i) (pw j) = pw (i + j).
Proof.
  pose proof (pw_pos i). pose proof (pw_pos j). unfold gfMul. rewrite decide_False by lia.
  destruct (exp_log (pw i)) as (_ & _ & Hi); [done|]. destruct (exp_log (pw j)) as (_ & _ & Hj); [done|].
  rewrite Z2Nat.inj_add by done. fold (gf_l (pw i)) (gf_l (pw j)).
  assert (Hl : forall k, gf_l (pw k) = (k mod 255)%nat) by (intros k; apply log_exp, Nat.mod_upper_bound; lia).
  rewrite !Hl. fold (gf_e (i mod 255 + j mod 255)). unfold pw. rewrite (Nat.Div0.add_mod i j).
  pose proof (Nat.mod_upper_bound i 255 ltac:(lia)). pose proof (Nat.mod_upper_bound j 255 ltac:(lia)).
  destruct (decide (i mod 255 + j mod 255 < 255)%nat); [by rewrite (Nat.mod_small (_ + _))|].
  replace (i mod 255 + j mod 255)%nat with ((i mod 255 + j mod 255 - 255) + 255)%nat at 1 by lia.
  rewrite exp_period by lia. f_equal. apply (Nat.mod_unique _ _ 1); lia.
Qed.
Lemma byte_cases a : is_byte a -> a = 0 \/ exists i, a = pw i.
Proof.
  intros Ha. destruct (decide (a = 0)); [by left|right]. destruct (exp_log a) as (H1 & H2 & _); [unfold is_byte in Ha; lia|].
  exists (gf_l a). unfold pw. by rewrite Nat.mod_small, H2.
Qed.

Lemma gfMul_byte a b : is_byte a -> is_byte b -> is_byte (gfMul a b).
Proof.
  intros [->|[i ->]]%byte_cases [->|[j ->]]%byte_cases; rewrite ?gfMul_0_l, ?gfMul_0_r; try (unfold is_byte; lia).
  rewrite pw_mul. pose proof (pw_pos (i + j)). unfold is_byte. lia.
Qed.
Lemma gfMul_comm a b : is_byte a -> is_byte b -> gfMul a b = gfMul b a.
Proof.
  intros [->|[i ->]]%byte_cases [->|[j ->]]%byte_cases; rewrite ?gfMul_0_l, ?gfMul_0_r; try done.
  rewrite !pw_mul. f_equal. lia.
Qed.
Lemma gfMul_assoc a b c : is_byte a -> is_byte b -> is_byte c -> gfMul a (gfMul b c) = gfMul (gfMul a b) c.
Proof.
  intros [->|[i ->]]%byte_cases [->|[j ->]]%byte_cases [->|[k ->]]%byte_cases; rewrite ?gfMul_0_l, ?gfMul_0_r, ?gfMul_0_l, ?gfMul_0_r; try done.
  rewrite !pw_mul. f_equal. lia.
Qed.

Lemma lxor_byte a b : is_byte a -> is_byte b -> is_byte (Z.lxor a b).
Proof.
  unfold is_byte. intros Ha Hb. assert (0 <= Z.lxor a b) by (apply Z.lxor_nonneg; lia). split; [done|].
  destruct (decide (Z.lxor a b = 0)) as [->|]; [lia|]. apply (Z.log2_lt_pow2 _ 8); [lia|].
  pose proof (Z.log2_lxor a b ltac:(lia) ltac:(lia)). 
  assert (forall z, 0 <= z < 256 -> Z.log2 z < 8) as Hl.
  { intros z Hz. destruct (decide (z = 0)) as [->|]; [done|]. apply (Z.log2_lt_pow2 z 8); lia. }
  pose proof (Hl a Ha). pose proof (Hl b Hb). lia.
Qed.
Lemma xtime_bit x : is_byte x -> xtime x = Z.lxor (Z.shiftl x 1) (if Z.testbit x 7 then 0x11d else 0).
Proof. intros Hx. apply Z.eqb_eq. revert x Hx. apply forall_bytes. vm_compute. reflexivity. Qed.
Lemma xtime_linear x y : is_byte x -> is_byte y -> xtime (Z.lxor x y) = Z.lxor (xtime x) (xtime y).
Proof.
  intros Hx Hy. rewrite !xtime_bit by (try apply lxor_byte; done). rewrite Z.lxor_spec, Z.shiftl_lxor.
  destruct (Z.testbit x 7), (Z.testbit y 7); cbn [xorb]; rewrite ?Z.lxor_0_r; [|..|done].
  - rewrite !Z.lxor_assoc. f_equal. by rewrite (Z.lxor_comm 0x11d), Z.lxor_assoc, Z.lxor_nilpotent, Z.lxor_0_r.
  - rewrite !Z.lxor_assoc. f_equal. apply Z.lxor_comm.
  - apply Z.lxor_assoc.
Qed.
Lemma gfMul_2 x : is_byte x -> gfMul 2 x = xtime x.
Proof. intros Hx. apply Z.eqb_eq. revert x Hx. apply forall_bytes. vm_compute. reflexivity. Qed.
Lemma gfMul_1 x : is_byte x -> gfMul 1 x = x.
Proof. intros Hx. apply Z.eqb_eq. revert x Hx. apply forall_bytes. vm_compute. reflexivity. Qed.

Lemma pw_byte i : is_byte (pw i).
Proof. pose proof (pw_pos i). unfold is_byte. lia. Qed.
Lemma pw_0 : pw 0 = 1.
Proof. vm_compute. reflexivity. Qed.
Lemma pw_1 : pw 1 = 2.
Proof. vm_compute. reflexivity. Qed.
#[local] Opaque pw gfMul.

Lemma pw_succ i x : is_byte x -> gfMul (pw (S i)) x = xtime (gfMul (pw i) x).
Proof.
  intros Hx. pose proof (pw_byte i) as Hi. pose proof (pw_byte 1) as H1.
  rewrite <- gfMul_2 by (by apply gfMul_byte). rewrite <- pw_1, (gfMul_assoc _ _ _ H1 Hi Hx). by rewrite pw_mul.
Qed.
Lemma gfMul_lxor a x y : is_byte a -> is_byte x -> is_byte y -> gfMul a (Z.lxor x y) = Z.lxor (gfMul a x) (gfMul a y).
Proof.
  intros Ha Hx Hy. apply byte_cases in Ha as [->|[i ->]]; [by rewrite !gfMul_0_l|].
  pose proof (lxor_byte x y Hx Hy) as Hxy. induction i as [|i IH].
  - rewrite pw_0. by rewrite !gfMul_1.
  - rewrite !pw_succ, IH by done. apply xtime_linear; (apply gfMul_byte; [apply pw_byte|done]).
Qed.

(** ** Polynomials *)

(** The value at [r], the highest coefficient first, by Horner's rule. *)
Definition eval (r : Z) (l : list Z) : Z := foldl (fun acc x => Z.lxor (gfMul acc r) x) 0 l.
Notation bytes_ok l := (Forall is_byte l).

Lemma zero_byte : is_byte 0.
Proof. unfold is_byte. lia. Qed.

Section eval.
Variable r : Z.
Hypothesis Hr : is_byte r.

Lemma eval_from_byte acc l : is_byte acc -> bytes_ok l -> is_byte (foldl (fun acc x => Z.lxor (gfMul acc r) x) acc l).
Proof.
  intros Ha Hl. revert acc Ha. induction Hl as [|x l Hx _ IH]; intros acc Ha; [done|]. apply IH, lxor_byte; [by apply gfMul_byte|done].
Qed.
Lemma eval_byte l : bytes_ok l -> is_byte (eval r l).
Proof. apply eval_from_byte, zero_byte. Qed.

Lemma eval_snoc l x : eval r (l ++ [x]) = Z.lxor (gfMul (eval r l) r) x.
Proof. unfold eval. by rewrite foldl_app. Qed.
Lemma eval_zeros n l : eval r (replicate n 0 ++ l) = eval r l.
Proof.
  unfold eval. rewrite foldl_app. f_equal. induction n as [|n IH]; [done|]. cbn [replicate foldl]. by rewrite gfMul_0_l.
Qed.

(** Addition and multiplication by a constant. *)
Lemma eval_add_from a b l l' :
  is_byte a -> is_byte b -> bytes_ok l -> bytes_ok l' -> length l = length l' ->
  foldl (fun acc x => Z.lxor (gfMul acc r) x) (Z.lxor a b) (zip_with Z.lxor l l') =
  Z.lxor (foldl (fun acc x => Z.lxor (gfMul acc r) x) a l) (foldl (fun acc x => Z.lxor (gfMul acc r) x) b l').
Proof.
  intros Ha Hb Hl. revert a b l' Ha Hb. induction Hl as [|x l Hx _ IH]; intros a b l' Ha Hb Hl' Hlen; [by destruct l'|].
  destruct l' as [|y l']; [done|]. apply Forall_cons in Hl' as [Hy Hl']. cbn [zip_with foldl].
  rewrite <- IH; [|apply lxor_byte; [by apply gfMul_byte|done]..|done|by injection Hlen].
  f_equal. rewrite (gfMul_comm _ r), gfMul_lxor by (try apply lxor_byte; done).
  rewrite (gfMul_comm r a), (gfMul_comm r b) by done.
  rewrite <- !Z.lxor_assoc. f_equal. rewrite !Z.lxor_assoc. f_equal. apply Z.lxor_comm.
Qed.
Lemma eval_add l l' : bytes_ok l -> bytes_ok l' -> length l = length l' ->
  eval r (zip_with Z.lxor l l') = Z.lxor (eval r l) (eval r l').
Proof. intros ???. by apply (eval_add_from 0 0); [apply zero_byte..| | |]. Qed.

Lemma eval_scale_from c a l : is_byte c -> is_byte a -> bytes_ok l ->
  foldl (fun acc x => Z.lxor (gfMul acc r) x) (gfMul c a) (map (fun x => gfMul x c) l) =
  gfMul c (foldl (fun acc x => Z.lxor (gfMul acc r) x) a l).
Proof.
  intros Hc Ha Hl. revert a Ha. induction Hl as [|x l Hx _ IH]; intros a Ha; [done|]. cbn [map foldl].
  pose proof (gfMul_byte a r Ha Hr) as Har. rewrite <- IH by by apply lxor_byte.
  f_equal. rewrite gfMul_lxor, (gfMul_comm x c), gfMul_assoc by done. done.
Qed.
Lemma eval_scale c l : is_byte c -> bytes_ok l -> eval r (map (fun x => gfMul x c) l) = gfMul c (eval r l).
Proof. intros Hc Hl. unfold eval. rewrite <- eval_scale_from by (done || apply zero_byte). by rewrite gfMul_0_r. Qed.
End eval.

(** ** Arrays updated in place *)
Lemma nth_xor_at r j x k : (j < length r)%nat -> nth k (xor_at r j x) 0 = Z.lxor (nth k r 0) (if decide (k = j) then x else 0).
Proof.
  intros Hj. unfold xor_at. case_decide as Hk.
  - subst k. rewrite !nth_lookup, list_lookup_insert_eq by done. done.
  - rewrite !nth_lookup, list_lookup_insert_ne by done. by rewrite Z.lxor_0_r.
Qed.
Lemma length_xor_at r j x : length (xor_at r j x) = length r.
Proof. apply length_insert. Qed.

Lemma list_eq_nth (l l' : list Z) : length l = length l' -> (forall k, (k < length l)%nat -> nth k l 0 = nth k l' 0) -> l = l'.
Proof. intros Hlen Hk. apply (nth_ext l l' 0 0 Hlen Hk). Qed.
Lemma nth_zip l l' k : length l = length l' -> nth k (zip_with Z.lxor l l') 0 = Z.lxor (nth k l 0) (nth k l' 0).
Proof.
  revert l' k. induction l as [|x l IH]; intros [|y l'] k Hlen; try done; [by destruct k|].
  destruct k; [done|]. cbn. apply IH. by injection Hlen.
Qed.
Lemma nth_zeros n k : nth k (replicate n 0) 0 = 0.
Proof. revert k. induction n as [|n IH]; intros [|k]; try done. apply IH. Qed.

(** The division step adds a multiple of the generator polynomial. *)
Definition shifted (i : nat) (l : list Z) (n : nat) : list Z := replicate i 0 ++ l ++ replicate (n - i - length l) 0.
Lemma length_shifted i l n : (i + length l <= n)%nat -> length (shifted i l n) = n.
Proof. intros H. unfold shifted. rewrite !length_app, !length_replicate. lia. Qed.
Lemma nth_shifted i l n k : nth k (shifted i l n) 0 = if decide (i <= k < i + length l)%nat then nth (k - i) l 0 else 0.
Proof.
  unfold shifted. destruct (decide (k < i)%nat).
  - rewrite app_nth1 by (by rewrite length_replicate). rewrite nth_zeros. rewrite decide_False by lia. done.
  - rewrite app_nth2, length_replicate by (rewrite length_replicate; lia). case_decide.
    + rewrite app_nth1 by lia. done.
    + rewrite app_nth2 by lia. apply nth_zeros.
Qed.

Lemma xor_many (f : nat -> Z) i n res : (i + n <= length res)%nat ->
  foldl (fun res j => xor_at res (i + j) (f j)) res (seq 0 n) =
  zip_with Z.lxor res (shifted i (map f (seq 0 n)) (length res)).
Proof.
  intros Hn. assert (H : length (foldl (fun res j => xor_at res (i + j) (f j)) res (seq 0 n)) = length res /\
    forall k, nth k (foldl (fun res j => xor_at res (i + j) (f j)) res (seq 0 n)) 0 =
      Z.lxor (nth k res 0) (if decide (i <= k < i + n)%nat then f (k - i)%nat else 0)).
  { induction n as [|n IH].
    - split; [done|]. intros k. rewrite decide_False by lia. by rewrite Z.lxor_0_r.
    - destruct IH as [IH1 IH2]; [lia|]. rewrite seq_S, foldl_app. cbn [foldl Nat.add]. split; [by rewrite length_xor_at|].
      intros k. rewrite nth_xor_at by lia. rewrite IH2. case_decide as H1; case_decide as H2.
      + lia.
      + rewrite decide_True, Z.lxor_0_r by lia. done.
      + rewrite decide_True, Z.lxor_0_r by lia. do 2 f_equal. lia.
      + rewrite decide_False, Z.lxor_0_r by lia. done. }
  assert (Hlen : length (shifted i (map f (seq 0 n)) (length res)) = length res).
  { apply length_shifted. rewrite length_map, length_seq. lia. }
  apply list_eq_nth; [rewrite length_zip_with; lia|]. intros k _. destruct H as [_ H]. rewrite H, nth_zip, nth_shifted by done.
  rewrite length_map, length_seq. f_equal. case_decide; [|done].
  rewrite (nth_indep _ 0 (f 0%nat)) by (rewrite length_map, length_seq; lia). rewrite map_nth, seq_nth by lia. done.
Qed.

(** ** The generator polynomial *)
Lemma gen_step_sum p i :
  gen_step p i = zip_with Z.lxor (p ++ [0]) (0 :: map (fun x => gfMul x (gf_e i)) p).
Proof.
  unfold gen_step. fold (gf_e i).
  set (f := fun r j => xor_at (xor_at r j (nth j p 0)) (S j) (gfMul (nth j p 0) (gf_e i))).
  assert (H : forall n, (n <= length p)%nat ->
    length (foldl f (replicate (S (length p)) 0) (seq 0 n)) = S (length p) /\
    forall k, nth k (foldl f (replicate (S (length p)) 0) (seq 0 n)) 0 =
      Z.lxor (if decide (k < n)%nat then nth k p 0 else 0)
             (if decide (1 <= k <= n)%nat then gfMul (nth (k - 1) p 0) (gf_e i) else 0)).
  { induction n as [|n IH]; intros Hn.
    - split; [apply length_replicate|]. intros k. cbn [seq foldl]. rewrite nth_zeros. rewrite !decide_False by lia. done.
    - destruct IH as [IH1 IH2]; [lia|]. rewrite seq_S, foldl_app. cbn [foldl Nat.add]. unfold f at 1 3.
      split; [by rewrite !length_xor_at|]. intros k.
      rewrite nth_xor_at by (rewrite length_xor_at; lia). rewrite nth_xor_at by lia. rewrite IH2.
      destruct (decide (k = n)) as [->|Hk1]; [|destruct (decide (k = S n)) as [->|Hk2]].
      + rewrite (decide_False (P := (n < n)%nat)), (decide_True (P := (n < S n)%nat)), (decide_False (P := n = S n)) by lia.
        rewrite Z.lxor_0_r, Z.lxor_0_l, Z.lxor_comm. f_equal.
        destruct (decide (1 <= n <= n)%nat); [by rewrite decide_True by lia|by rewrite decide_False by lia].
      + rewrite (decide_False (P := (S n < n)%nat)), (decide_False (P := (1 <= S n <= n)%nat)), (decide_False (P := (S n < S n)%nat)),
          (decide_True (P := (1 <= S n <= S n)%nat)) by lia. replace (S n - 1)%nat with n by lia. done.
      + rewrite !Z.lxor_0_r. f_equal.
        * destruct (decide (k < n)%nat); [by rewrite decide_True by lia|by rewrite decide_False by lia].
        * destruct (decide (1 <= k <= n)%nat); [by rewrite decide_True by lia|by rewrite decide_False by lia]. }
  destruct (H (length p) (le_n _)) as [H1 H2]. fold f.
  assert (Hlen : length (p ++ [0]) = length (0 :: map (fun x => gfMul x (gf_e i)) p)).
  { rewrite length_app. cbn [length]. rewrite length_map. lia. }
  apply list_eq_nth.
  { rewrite H1, length_zip_with, <- Hlen, length_app. simpl. lia. }
  intros k Hk. rewrite H1 in Hk. rewrite H2, nth_zip by done. f_equal.
  - case_decide; [by rewrite app_nth1|]. rewrite app_nth2 by lia. by replace (k - length p)%nat with 0%nat by lia.
  - destruct k as [|k]; [done|]. rewrite decide_True by lia. replace (S k - 1)%nat with k by lia. cbn [nth].
    rewrite (nth_indep (map _ p) 0 (gfMul 0 (gf_e i))) by (rewrite length_map; lia). by rewrite (map_nth (fun x => gfMul x (gf_e i))).
Qed.

Lemma gf_e_byte i : (i < 255)%nat -> is_byte (gf_e i).
Proof. intros Hi. pose proof (proj1 (log_exp i Hi)). unfold is_byte. lia. Qed.

Lemma zip_lxor_bytes l l' : bytes_ok l -> bytes_ok l' -> bytes_ok (zip_with Z.lxor l l').
Proof.
  intros Hl. revert l'. induction Hl as [|x l Hx _ IH]; intros [|y l'] Hl'; [constructor..|].
  apply Forall_cons in Hl' as [Hy Hl']. constructor; [by apply lxor_byte|by apply IH].
Qed.
Lemma map_mul_bytes c l : is_byte c -> bytes_ok l -> bytes_ok (map (fun x => gfMul x c) l).
Proof. intros Hc Hl. apply Forall_map. eapply Forall_impl; [exact Hl|]. intros x Hx. by apply gfMul_byte. Qed.
Lemma zeros_bytes n : bytes_ok (replicate n 0).
Proof. apply Forall_replicate, zero_byte. Qed.

(** [genPoly n] is monic of degree [n] and vanishes at the first [n] powers. *)
Lemma genPoly_spec n : (n <= 255)%nat ->
  length (genPoly n) = S n /\ bytes_ok (genPoly n) /\ nth 0 (genPoly n) 0 = 1 /\
  forall k, (k < n)%nat -> eval (gf_e k) (genPoly n) = 0.
Proof.
  induction n as [|n IH]; intros Hn.
  { split_and!; [done| |done|lia]. constructor; [unfold is_byte; lia|constructor]. }
  destruct IH as (H1 & H2 & H3 & H4); [lia|]. pose proof (gf_e_byte n ltac:(lia)) as He.
  unfold genPoly. rewrite seq_S, foldl_app. cbn [foldl Nat.add]. fold (genPoly n). rewrite gen_step_sum.
  assert (Hlen : length (genPoly n ++ [0]) = length (0 :: map (fun x => gfMul x (gf_e n)) (genPoly n))).
  { rewrite length_app. cbn [length]. rewrite length_map. lia. }
  assert (Hb1 : bytes_ok (genPoly n ++ [0])) by (apply Forall_app; split; [done|constructor; [apply zero_byte|constructor]]).
  assert (Hb2 : bytes_ok (0 :: map (fun x => gfMul x (gf_e n)) (genPoly n))).
  { constructor; [apply zero_byte|by apply map_mul_bytes]. }
  split_and!.
  - rewrite length_zip_with, <- Hlen, length_app, H1. simpl. lia.
  - by apply zip_lxor_bytes.
  - rewrite nth_zip by done. rewrite app_nth1, H3 by lia. done.
  - intros k Hk. pose proof (gf_e_byte k ltac:(lia)) as Hek. pose proof (eval_byte _ Hek _ H2) as Hv.
    rewrite eval_add by done. rewrite eval_snoc, Z.lxor_0_r.
    change (0 :: ?l) with (replicate 1 0 ++ l). rewrite eval_zeros, eval_scale by done. rewrite (gfMul_comm (gf_e n)) by done.
    destruct (decide (k = n)) as [->|Hne]; [apply Z.lxor_nilpotent|]. rewrite H4 by lia. by rewrite !gfMul_0_l.
Qed.

(** ** The remainder *)
Lemma shifted_bytes i l n : bytes_ok l -> bytes_ok (shifted i l n).
Proof. intros Hl. apply Forall_app. split; [apply zeros_bytes|]. apply Forall_app. split; [done|apply zeros_bytes]. Qed.

Lemma eval_shifted_zero r i l n : is_byte r -> bytes_ok l -> eval r l = 0 -> eval r (shifted i l n) = 0.
Proof.
  intros Hr Hl Hz. unfold shifted. rewrite eval_zeros. generalize (n - i - length l)%nat as m. intros m.
  induction m as [|m IH]; [by rewrite app_nil_r|].
  replace (S m) with (m + 1)%nat by lia. rewrite replicate_add, app_assoc. change (replicate 1 0) with [0]. rewrite eval_snoc, IH. by rewrite gfMul_0_l.
Qed.

Lemma rs_step_spec gen res i n :
  length gen = S n -> bytes_ok gen -> nth 0 gen 0 = 1 -> bytes_ok res -> (i + S n <= length res)%nat ->
  let res' := rs_step gen res i in
  length res' = length res /\ bytes_ok res' /\ nth i res' 0 = 0 /\
  (forall k, (k < i)%nat -> nth k res' 0 = nth k res 0) /\
  (forall r, is_byte r -> eval r gen = 0 -> eval r res' = eval r res).
Proof.
  intros Hlen Hg H1 Hres Hi. cbv zeta. unfold rs_step. set (c := nth i res 0). case_decide as Hc; [done|].
  assert (Hcb : is_byte c) by (apply (proj1 (Forall_nth _ 0 res) Hres); lia).
  rewrite Hlen, xor_many by done.
  assert (Hmap : map (fun j => gfMul (nth j gen 0) c) (seq 0 (S n)) = map (fun x => gfMul x c) gen).
  { rewrite <- Hlen. apply list_eq_nth; [by rewrite !length_map, length_seq|]. intros k Hk. rewrite length_map, length_seq in Hk.
    rewrite (nth_indep _ 0 (gfMul (nth 0 gen 0) c)) by (rewrite length_map, length_seq; lia).
    rewrite (map_nth (fun j => gfMul (nth j gen 0) c)), seq_nth by done.
    rewrite (nth_indep (map _ gen) 0 (gfMul 0 c)) by (by rewrite length_map). by rewrite (map_nth (fun x => gfMul x c)). }
  rewrite Hmap. set (add := shifted i (map (fun x => gfMul x c) gen) (length res)).
  assert (Hadd : length res = length add) by (symmetry; apply length_shifted; rewrite length_map; lia).
  assert (Hab : bytes_ok add) by by apply shifted_bytes, map_mul_bytes.
  split_and!.
  - rewrite length_zip_with. lia.
  - by apply zip_lxor_bytes.
  - rewrite nth_zip by done. unfold add. rewrite nth_shifted, length_map, decide_True, Nat.sub_diag by lia.
    rewrite (nth_indep (map _ gen) 0 (gfMul 0 c)) by (rewrite length_map; lia). rewrite (map_nth (fun x => gfMul x c)), H1, gfMul_1 by done.
    apply Z.lxor_nilpotent.
  - intros k Hk. rewrite nth_zip by done. unfold add. rewrite nth_shifted, decide_False by lia. apply Z.lxor_0_r.
  - intros r Hr Hz. rewrite eval_add by done. unfold add. rewrite (eval_shifted_zero r); [apply Z.lxor_0_r|done|by apply map_mul_bytes|].
    by rewrite eval_scale, Hz, gfMul_0_r.
Qed.

(** A block: its bytes vanish at the first [ec] powers of the generator. *)
Definition codeword (ec : nat) (l : list Z) : Prop := forall k, (k < ec)%nat -> eval (gf_e k) l = 0.

Lemma rs_fold gen n data :
  length gen = S n -> bytes_ok gen -> nth 0 gen 0 = 1 -> bytes_ok data ->
  forall m, (m <= length data)%nat ->
  let res := foldl (rs_step gen) (data ++ replicate n 0) (seq 0 m) in
  length res = (length data + n)%nat /\ bytes_ok res /\ (forall k, (k < m)%nat -> nth k res 0 = 0) /\
  (forall r, is_byte r -> eval r gen = 0 -> eval r res = eval r (data ++ replicate n 0)).
Proof.
  intros Hlen Hg H1 Hd. induction m as [|m IH]; intros Hm; cbv zeta.
  - cbn [seq foldl]. split_and!; [by rewrite length_app, length_replicate| |lia|done]. apply Forall_app. split; [done|apply zeros_bytes].
  - destruct IH as (IH1 & IH2 & IH3 & IH4); [lia|]. rewrite seq_S, foldl_app. cbn [foldl Nat.add].
    destruct (rs_step_spec gen _ m n Hlen Hg H1 IH2) as (S1 & S2 & S3 & S4 & S5); [lia|].
    split_and!; [lia|done| |].
    + intros k Hk. destruct (decide (k = m)) as [->|]; [done|]. rewrite S4 by lia. apply IH3. lia.
    + intros r Hr Hz. by rewrite S5, IH4.
Qed.

Lemma rsRemainder_spec data n : bytes_ok data -> (n <= 255)%nat ->
  length (rsRemainder data n) = n /\ bytes_ok (rsRemainder data n) /\ codeword n (data ++ rsRemainder data n).
Proof.
  intros Hd Hn. destruct (genPoly_spec n Hn) as (G1 & G2 & G3 & G4).
  destruct (rs_fold (genPoly n) n data G1 G2 G3 Hd (length data) (le_n _)) as (R1 & R2 & R3 & R4).
  unfold rsRemainder. set (res := foldl _ _ _) in *.
  assert (Hlen : length (drop (length data) res) = n) by (rewrite length_drop; lia).
  assert (Hb : bytes_ok (drop (length data) res)) by by apply Forall_drop.
  split_and!; [done|done|]. intros k Hk. pose proof (gf_e_byte k ltac:(lia)) as He.
  assert (Hres : res = replicate (length data) 0 ++ drop (length data) res).
  { rewrite <- (take_drop (length data) res) at 1. f_equal. apply list_eq_nth; [rewrite length_take, length_replicate; lia|].
    intros j Hj. rewrite length_take in Hj. rewrite nth_zeros, nth_lookup, lookup_take_lt, <- nth_lookup by lia. apply R3. lia. }
  assert (Hsum : data ++ drop (length data) res =
    zip_with Z.lxor (data ++ replicate n 0) (replicate (length data) 0 ++ drop (length data) res)).
  { rewrite zip_with_app by by rewrite length_replicate. f_equal.
    - clear. induction data as [|x l IH]; [done|]. cbn [length replicate zip_with]. by rewrite Z.lxor_0_r, <- IH.
    - clear -Hlen. revert Hlen. generalize (drop (length data) res) as l. intros l <-. induction l as [|x l IH]; [done|].
      cbn [length replicate zip_with]. by rewrite <- IH. }
  rewrite Hsum, eval_add; [|done|..].
  - rewrite <- Hres, R4 by (try done; by apply G4). apply Z.lxor_nilpotent.
  - apply Forall_app. split; [done|apply zeros_bytes].
  - apply Forall_app. split; [apply zeros_bytes|done].
  - rewrite !length_app, !length_replicate. lia.
Qed.
