(* ===== verification/QrStream.v ===== *)
(** * Reading the stream of a QR code back

    What a reader of the standard does with the bits of the data area: it deals
    the code words back to their blocks, checks every block, and takes the text
    from the data.  The encoder's stream reads as the text. *)

From Stdlib Require Import Ascii.
From S2P Require Import Prelude GoStd Qr QrField.
#[local] Open Scope Z_scope.
#[local] Opaque gfExp gfLog gfMul.

(** ** The reader *)
Definition value_of (l : list bool) : Z := foldl (fun v b => 2 * v + Z.b2z b) 0 l.
(** The bytes of a list of bits, the highest bit first. *)
Fixpoint octets (n : nat) (bits : list bool) : list Z :=
  match n with O => [] | S n => value_of (take 8 bits) :: octets n (drop 8 bits) end.

(** One round of dealing: a code word to every block that still has room at
    position [j]. *)
Fixpoint deal (j : nat) (lengths : list nat) (dealt : list (list Z)) (stream : list Z) : list (list Z) * list Z :=
  match lengths, dealt with
  | n :: lengths, b :: dealt =>
      if decide (j < n)%nat then
        match stream with
        | x :: stream => let r := deal j lengths dealt stream in ((b ++ [x]) :: r.1, r.2)
        | [] => (b :: dealt, [])
        end
      else let r := deal j lengths dealt stream in (b :: r.1, r.2)
  | _, _ => (dealt, stream)
  end.
Definition deal_all (rounds : nat) (lengths : list nat) (stream : list Z) : list (list Z) * list Z :=
  foldl (fun t j => deal j lengths t.1 t.2) (map (fun _ => []) lengths, stream) (seq 0 rounds).

(** The short blocks come first, and the long ones have a code word more. *)
Definition lengths_of (version : Z) : list nat :=
  let words := Z.to_nat (dataCodewords version) in let n := Z.to_nat (entry 0 blocks version) in
  replicate (n - words mod n)%nat (words / n)%nat ++ replicate (words mod n)%nat (S (words / n))%nat.
(** The width of the count of bytes. *)
Definition count_width (version : Z) : nat := if version <=? 9 then 8 else 16.

Definition codeword_b (ec : nat) (l : list Z) : bool := forallb (fun k => eval (gf_e k) l =? 0) (seq 0 ec).

(** The data code words of a stream of code words, if every block is one of the
    code. *)
Definition deinterleave (version : Z) (stream : list Z) : option (list Z) :=
  let ec := Z.to_nat (entry 0 eccPerBlock version) in
  let lengths := lengths_of version in
  let '(data, stream) := deal_all (foldr Nat.max 0%nat lengths) lengths stream in
  let '(check, _) := deal_all ec (map (fun _ => ec) lengths) stream in
  if forallb (fun p => codeword_b ec (p.1 ++ p.2)) (zip data check) then Some (concat data) else None.

(** Byte mode: the indicator, the number of bytes and the bytes. *)
Definition parse_data (version : Z) (cw : list Z) : option (list Z) :=
  let bits := flat_map (fun b => bits_of b 8) cw in
  if decide (value_of (take 4 bits) = 4) then
    let n := Z.to_nat (value_of (take (count_width version) (drop 4 bits))) in
    let rest := drop (4 + count_width version) bits in
    if decide (8 * n <= length rest)%nat then Some (octets n rest) else None
  else None.

Definition text_of (l : list Z) : string := byte_string l.
Definition read_stream (version : Z) (bits : list bool) : option string :=
  let words := Z.to_nat (entry 0 total version) in
  if decide (8 * words <= length bits)%nat then
    cw ← deinterleave version (octets words bits); data ← parse_data version cw; Some (text_of data)
  else None.

(** ** Bits and bytes *)
Lemma length_bits_of v n : length (bits_of v n) = n.
Proof. induction n as [|n IH]; [done|]. cbn. by rewrite IH. Qed.

Lemma value_of_from acc l : foldl (fun v b => 2 * v + Z.b2z b) acc l = acc * 2 ^ Z.of_nat (length l) + value_of l.
Proof.
  unfold value_of. revert acc. induction l as [|b l IH]; intros acc; cbn [foldl length]; [change (2 ^ Z.of_nat 0) with 1; lia|].
  rewrite IH, (IH (2 * 0 + Z.b2z b)). rewrite Nat2Z.inj_succ, Z.pow_succ_r by lia. ring.
Qed.
Lemma value_bits v n : 0 <= v -> value_of (bits_of v n) = v mod 2 ^ Z.of_nat n.
Proof.
  intros Hv. induction n as [|n IH]; [by rewrite Z.mod_1_r|]. cbn [bits_of]. unfold value_of. cbn [foldl].
  rewrite value_of_from, IH, length_bits_of. rewrite Nat2Z.inj_succ, Z.pow_succ_r by lia.
  assert (0 < 2 ^ Z.of_nat n) by (apply Z.pow_pos_nonneg; lia).
  rewrite (Z.mul_comm 2 (2 ^ _)), Z.rem_mul_r by lia. rewrite Z.testbit_spec' by lia. lia.
Qed.
Lemma value_bits_small v n : 0 <= v < 2 ^ Z.of_nat n -> value_of (bits_of v n) = v.
Proof. intros Hv. rewrite value_bits by lia. by apply Z.mod_small. Qed.

Lemma octets_bits l rest : bytes_ok l -> octets (length l) (flat_map (fun b => bits_of b 8) l ++ rest) = l.
Proof.
  intros Hl. induction Hl as [|b l Hb _ IH]; [done|]. cbn [length octets flat_map]. rewrite <- app_assoc.
  rewrite take_app_length', drop_app_length' by by rewrite length_bits_of. rewrite IH. f_equal. by apply value_bits_small.
Qed.
Lemma length_flat_bits l : length (flat_map (fun b => bits_of b 8) l) = (8 * length l)%nat.
Proof. induction l as [|b l IH]; [done|]. cbn [flat_map length]. rewrite length_app, length_bits_of, IH. lia. Qed.

Lemma pack8_spec l : length l = 8%nat -> is_byte (pack8 l) /\ bits_of (pack8 l) 8 = l.
Proof.
  destruct l as [|a [|b [|c [|d [|e [|f [|g [|h [|]]]]]]]]]; try done. intros _.
  destruct a, b, c, d, e, f, g, h; (split; [split; [by apply Z.leb_le|by apply Z.ltb_lt]|reflexivity]).
Qed.

(** Whole bytes are packed without loss. *)
Lemma pack_spec k fuel bits : length bits = (8 * k)%nat -> (k <= fuel)%nat ->
  length (pack fuel bits) = k /\ bytes_ok (pack fuel bits) /\ flat_map (fun b => bits_of b 8) (pack fuel bits) = bits.
Proof.
  revert fuel bits. induction k as [|k IH]; intros fuel bits Hlen Hf.
  - destruct bits; [|by simpl in Hlen; lia]. by destruct fuel.
  - destruct fuel as [|fuel]; [lia|]. destruct bits as [|b bits]; [by simpl in Hlen; lia|].
    set (l := b :: bits) in *. change (pack (S fuel) l) with (pack8 (take 8 l) :: pack fuel (drop 8 l)).
    destruct (pack8_spec (take 8 l)) as [P1 P2]; [rewrite length_take; lia|].
    destruct (IH fuel (drop 8 l)) as (I1 & I2 & I3); [rewrite length_drop; lia|lia|].
    split_and!; [cbn [length]; by rewrite I1|by constructor|]. cbn [flat_map]. by rewrite P2, I3, take_drop.
Qed.

(** The terminator and the padding only add zeros. *)
Lemma terminate_spec i capacity bits : (length bits <= capacity)%nat ->
  exists z, terminate i capacity bits = bits ++ z /\ (length bits + length z <= capacity)%nat.
Proof.
  revert bits. induction i as [|i IH]; intros bits Hb; cbn [terminate]; [exists []; rewrite app_nil_r; simpl; split; [done|lia]|].
  case_decide as Hc; [|exists []; rewrite app_nil_r; simpl; split; [done|lia]].
  destruct (IH (bits ++ [false])) as (z & -> & Hz); [rewrite length_app; simpl; lia|].
  exists (false :: z). rewrite <- app_assoc. split; [done|]. rewrite length_app in Hz. simpl in *. lia.
Qed.
Lemma align_byte_spec fuel bits : (8 <= length bits mod 8 + fuel \/ length bits mod 8 = 0)%nat ->
  exists z k, align_byte fuel bits = bits ++ z /\ (length bits + length z = 8 * k)%nat /\ (length z < 8)%nat.
Proof.
  revert bits. induction fuel as [|fuel IH]; intros bits Hf; cbn [align_byte].
  - pose proof (Nat.mod_upper_bound (length bits) 8 ltac:(lia)). assert (Hz : (length bits mod 8 = 0)%nat) by lia.
    exists [], (length bits / 8)%nat. rewrite app_nil_r. split; [done|]. pose proof (Nat.div_mod_eq (length bits) 8). cbn [length]. lia.
  - pose proof (Nat.div_mod_eq (length bits) 8) as Hd. pose proof (Nat.mod_upper_bound (length bits) 8 ltac:(lia)).
    case_decide as Hz; [exists [], (length bits / 8)%nat; rewrite app_nil_r; cbn [length]; split; [done|lia]|].
    destruct (decide (length bits mod 8 = 7)%nat) as [H7|H7].
    + assert (Hm : ((length bits + 1) mod 8 = 0)%nat).
      { symmetry. apply (Nat.mod_unique _ _ (length bits / 8 + 1)); lia. }
      assert (He : align_byte fuel (bits ++ [false]) = bits ++ [false]).
      { destruct fuel; [done|]. cbn [align_byte]. rewrite decide_True; [done|]. rewrite length_app. exact Hm. }
      exists [false], (length bits / 8 + 1)%nat. rewrite He. split; [done|]. cbn [length]. lia.
    + assert (Hm : ((length bits + 1) mod 8 = length bits mod 8 + 1)%nat).
      { symmetry. apply (Nat.mod_unique _ _ (length bits / 8)); lia. }
      destruct (IH (bits ++ [false])) as (z & k & Hz' & Hk & Hl); [rewrite length_app; cbn [length]; lia|].
      assert (Hl' : (length (false :: z) < 8)%nat).
      { rewrite length_app in Hk. cbn [length] in *. lia. }
      exists (false :: z), k. rewrite Hz', <- app_assoc. split; [done|]. rewrite length_app in Hk. cbn [length] in *. lia.
Qed.
Lemma fill_spec fuel i size cw : (length cw <= size)%nat -> (size <= length cw + fuel)%nat -> bytes_ok cw ->
  exists pad, fill fuel i size cw = cw ++ pad /\ length (fill fuel i size cw) = size /\ bytes_ok (fill fuel i size cw).
Proof.
  revert i cw. induction fuel as [|fuel IH]; intros i cw H1 H2 Hb; cbn [fill]; [exists []; rewrite app_nil_r; split_and!; [done|lia|done]|].
  case_decide as Hs; [|exists []; rewrite app_nil_r; split_and!; [done|lia|done]].
  destruct (IH (S i) (cw ++ [nth (i mod 2) [0xec; 0x11] 0])) as (pad & Hp & Hl & Hok).
  - rewrite length_app. simpl. lia.
  - rewrite length_app. simpl. lia.
  - apply Forall_app. split; [done|]. constructor; [|constructor].
    pose proof (Nat.mod_upper_bound i 2 ltac:(lia)). destruct (i mod 2)%nat as [|[|]] eqn:E; [by split|by split|lia].
  - exists (nth (i mod 2) [0xec; 0x11] 0 :: pad). split_and!; [|done|done]. by rewrite Hp, <- app_assoc.
Qed.

(** ** The data code words *)
Lemma count_width_countBits version : count_width version = countBits version.
Proof. unfold count_width, countBits. destruct (Z.leb_spec version 9); case_decide; lia. Qed.
Lemma byte_of_byte a : is_byte (byte_of a).
Proof. unfold is_byte, byte_of. pose proof (N_ascii_bounded a). lia. Qed.
Lemma bytes_bytes text : bytes_ok (bytes text).
Proof. apply Forall_map, Forall_forall. intros a _. apply byte_of_byte. Qed.
Lemma length_bytes text : length (bytes text) = String.length text.
Proof. unfold bytes. rewrite length_map. induction text as [|c text IH]; [done|]. cbn. by rewrite IH. Qed.
Lemma text_of_bytes text : text_of (bytes text) = text.
Proof.
  unfold text_of, byte_string, bytes. induction text as [|c text IH]; [done|]. cbn [String.list_ascii_of_string map foldr].
  rewrite IH. f_equal. unfold byte_of. rewrite N2Z.id. apply ascii_N_embedding.
Qed.

Definition fits (n : nat) (version : Z) : Prop := 4 + Z.of_nat (countBits version) + 8 * Z.of_nat n <= dataCodewords version * 8.

Lemma count_small n version : fits n version -> dataCodewords version <= 2956 -> (version < 10 -> dataCodewords version <= 256) ->
  0 <= Z.of_nat n < 2 ^ Z.of_nat (countBits version).
Proof.
  unfold fits, countBits. intros Hf H1 H2. case_decide; [change (2 ^ Z.of_nat 16) with 65536; lia|].
  change (2 ^ Z.of_nat 8) with 256. specialize (H2 ltac:(lia)). lia.
Qed.

Lemma codewords_spec text version :
  fits (String.length text) version -> dataCodewords version <= 2956 -> (version < 10 -> dataCodewords version <= 256) ->
  let cw := codewords text version in
  length cw = Z.to_nat (dataCodewords version) /\ bytes_ok cw /\ parse_data version cw = Some (bytes text).
Proof.
  intros Hf Hb1 Hb2. cbv zeta. pose proof (count_small _ _ Hf Hb1 Hb2) as Hcount. unfold codewords.
  set (cap := Z.to_nat (dataCodewords version)). set (data := bytes text).
  set (head := bits_of 4 4 ++ bits_of (Z.of_nat (length data)) (countBits version) ++ flat_map (fun b => bits_of b 8) data).
  assert (Hhead : length head = (4 + countBits version + 8 * String.length text)%nat).
  { unfold head. rewrite !length_app, !length_bits_of, length_flat_bits. unfold data. rewrite length_bytes. lia. }
  assert (Hcap : (length head <= cap * 8)%nat) by (rewrite Hhead; unfold fits in Hf; lia).
  destruct (terminate_spec 4 (cap * 8) head Hcap) as (z1 & -> & Hz1).
  destruct (align_byte_spec 8 (head ++ z1)) as (z2 & k & -> & Hk & Hz2); [left; lia|]. rewrite length_app in Hk.
  assert (Hkc : (k <= cap)%nat) by lia.
  set (all := (head ++ z1) ++ z2). assert (Hall : length all = (8 * k)%nat) by (unfold all; rewrite !length_app; lia).
  destruct (pack_spec k (length all) all Hall) as (P1 & P2 & P3); [lia|].
  destruct (fill_spec cap 0 cap (pack (length all) all)) as (pad & F1 & F2 & F3); [lia|lia|done|].
  split_and!; [done|done|]. rewrite F1. unfold parse_data. rewrite count_width_countBits, flat_map_app, P3. unfold all, head. rewrite <- !app_assoc.
  rewrite take_app_length' by done. rewrite decide_True by done.
  rewrite drop_app_length' by done. rewrite take_app_length' by by rewrite length_bits_of.
  rewrite value_bits_small by (unfold data; by rewrite length_bytes).
  rewrite Nat2Z.id. rewrite <- (drop_drop _ (countBits version) 4). rewrite drop_app_length' by done.
  rewrite drop_app_length' by by rewrite length_bits_of. rewrite decide_True.
  - f_equal. apply octets_bits, bytes_bytes.
  - rewrite length_app, length_flat_bits. lia.
Qed.

(** ** Blocks *)
Lemma deal_column j (blocks : list (list Z)) rest :
  deal j (map length blocks) (map (take j) blocks) (omap (fun d : list Z => d !! j) blocks ++ rest) =
  (map (take (S j)) blocks, rest).
Proof.
  induction blocks as [|b blocks IH]; [done|]. cbn [map deal]. case_decide as Hj.
  - destruct (lookup_lt_is_Some_2 b j Hj) as [x Hx]. cbn [omap list_omap]. rewrite Hx. cbn [app]. fold (omap (fun d : list Z => d !! j) blocks).
    rewrite IH. cbn [fst snd]. by rewrite (take_S_r _ _ _ Hx).
  - assert (Hn : b !! j = None) by (apply lookup_ge_None; lia). cbn [omap list_omap]. rewrite Hn. fold (omap (fun d : list Z => d !! j) blocks).
    rewrite IH. cbn [fst snd]. by rewrite !take_ge by lia.
Qed.
Lemma deal_all_spec rounds (blocks : list (list Z)) rest :
  deal_all rounds (map length blocks) (flat_map (fun j => omap (fun d : list Z => d !! j) blocks) (seq 0 rounds) ++ rest) =
  (map (take rounds) blocks, rest).
Proof.
  unfold deal_all. assert (H : forall rest, foldl (fun t j => deal j (map length blocks) t.1 t.2)
    (map (fun _ => []) (map length blocks), flat_map (fun j => omap (fun d : list Z => d !! j) blocks) (seq 0 rounds) ++ rest) (seq 0 rounds) =
    (map (take rounds) blocks, rest)); [|apply H].
  clear rest. induction rounds as [|n IH]; intros rest.
  - cbn. rewrite map_map. f_equal.
  - rewrite !seq_S, foldl_app, flat_map_app. cbn [foldl flat_map Nat.add]. rewrite app_nil_r, <- app_assoc.
    rewrite IH. cbn [fst snd]. apply deal_column.
Qed.

Lemma max_length (blocks : list (list Z)) b : b ∈ blocks -> (length b <= foldr Nat.max 0%nat (map length blocks))%nat.
Proof. induction blocks as [|c blocks IH]; intros Hb; [by apply elem_of_nil in Hb|]. apply elem_of_cons in Hb as [->|Hb]; cbn; [lia|]. specialize (IH Hb). lia. Qed.

Lemma take_blocks (n : nat) (blocks : list (list Z)) : (forall b, b ∈ blocks -> (length b <= n)%nat) -> map (take n) blocks = blocks.
Proof.
  intros H. induction blocks as [|b blocks IH]; [done|]. cbn [map]. rewrite take_ge by (apply H; by left). f_equal. apply IH.
  intros c Hc. apply H. by right.
Qed.

(** Columns past the longest block are empty. *)
Lemma columns_rest (blocks : list (list Z)) m n : (forall b, b ∈ blocks -> (length b <= m)%nat) -> (m <= n)%nat ->
  flat_map (fun j => omap (fun d : list Z => d !! j) blocks) (seq 0 n) = flat_map (fun j => omap (fun d : list Z => d !! j) blocks) (seq 0 m).
Proof.
  intros Hm Hn. assert (He : forall k s, (m <= s)%nat -> flat_map (fun j => omap (fun d : list Z => d !! j) blocks) (seq s k) = []).
  { induction k as [|k IH]; intros s Hs; [done|]. cbn [seq flat_map]. rewrite IH by lia. rewrite app_nil_r. clear IH.
    induction blocks as [|b blocks IHb]; [done|]. cbn [omap list_omap].
    rewrite (lookup_ge_None_2 b s); [|specialize (Hm b ltac:(by left)); lia]. apply IHb. intros c Hc. apply Hm. by right. }
  replace n with (m + (n - m))%nat by lia. rewrite seq_app, flat_map_app. cbn [Nat.add]. rewrite (He (n - m)%nat m) by lia. apply app_nil_r.
Qed.

Lemma length_split_blocks lengths cw : length cw = sum_list_with id lengths -> map length (split_blocks lengths cw) = lengths.
Proof.
  revert cw. induction lengths as [|n lengths IH]; intros cw Hl; [done|]. cbn [split_blocks map]. cbn [sum_list_with id] in Hl.
  rewrite length_take, Nat.min_l by (unfold id in Hl; lia). f_equal. apply IH. rewrite length_drop, Hl. unfold id. lia.
Qed.
Lemma concat_split_blocks lengths cw : length cw = sum_list_with id lengths -> concat (split_blocks lengths cw) = cw.
Proof.
  revert cw. induction lengths as [|n lengths IH]; intros cw Hl; [by destruct cw|]. cbn [split_blocks concat].
  rewrite IH; [apply take_drop|]. cbn [sum_list_with] in Hl. rewrite length_drop, Hl. unfold id. lia.
Qed.
Lemma split_blocks_bytes lengths cw : bytes_ok cw -> Forall (fun b => bytes_ok b) (split_blocks lengths cw).
Proof.
  revert cw. induction lengths as [|n lengths IH]; intros cw Hc; [constructor|]. constructor; [by apply Forall_take|]. by apply IH, Forall_drop.
Qed.

(** ** The stream reads as the text *)

(** What the tables have to satisfy, for every version. *)
Definition tables_ok (version : Z) : bool :=
  let ec := Z.to_nat (entry 0 eccPerBlock version) in
  let lengths := block_lengths version in
  let dataCw := Z.to_nat (dataCodewords version) in
  let nBlocks := Z.to_nat (entry 0 blocks version) in
  let words := Z.to_nat (entry 0 total version) in
  bool_decide (lengths_of version = lengths) &&
  ((sum_list_with id lengths =? dataCw)%nat &&
  (foldr Nat.max 0%nat lengths <=? S (dataCw / nBlocks))%nat && (ec <=? 255)%nat &&
  (dataCw + ec * length lengths =? words)%nat &&
  (dataCodewords version <=? 2956) && ((10 <=? version) || (dataCodewords version <=? 256))).
Lemma tables_all version : 1 <= version <= 40 -> tables_ok version = true.
Proof.
  intros Hv. assert (H : forallb tables_ok (seqZ 1 40) = true) by (vm_compute; reflexivity).
  rewrite forallb_forall in H. apply H, list_elem_of_In, elem_of_seqZ. lia.
Qed.

Lemma codeword_b_true ec l : codeword ec l -> codeword_b ec l = true.
Proof. intros H. apply forallb_forall. intros k [_ Hk]%in_seq. apply Z.eqb_eq, H. lia. Qed.

Lemma rows_of_columns (es : list (list Z)) ec : Forall (fun e => length e = ec) es ->
  flat_map (fun i => map (fun e => nth i e 0) es) (seq 0 ec) = flat_map (fun i => omap (fun e : list Z => e !! i) es) (seq 0 ec).
Proof.
  intros Hes. assert (Hcol : forall i, (i < ec)%nat -> map (fun e => nth i e 0) es = omap (fun e : list Z => e !! i) es).
  { intros i Hi. induction Hes as [|e es He _ IH]; [done|]. cbn [map omap list_omap].
    destruct (lookup_lt_is_Some_2 e i) as [x Hx]; [lia|]. rewrite Hx. f_equal; [|exact IH]. rewrite nth_lookup, Hx. done. }
  assert (Hall : forall l, (forall i, In i l -> (i < ec)%nat) ->
    flat_map (fun i => map (fun e => nth i e 0) es) l = flat_map (fun i => omap (fun e : list Z => e !! i) es) l).
  { induction l as [|i l IH]; intros Hl; [done|]. cbn [flat_map]. rewrite Hcol, IH; [done| |apply Hl; by left]. intros k Hk. apply Hl. by right. }
  apply Hall. intros i [_ Hi]%in_seq. lia.
Qed.

Lemma length_columns (bs : list (list Z)) n : (forall b, b ∈ bs -> (length b <= n)%nat) ->
  length (flat_map (fun j => omap (fun d : list Z => d !! j) bs) (seq 0 n)) = sum_list_with length bs.
Proof.
  intros Hn. pose proof (deal_all_spec n bs []) as Hd. rewrite app_nil_r in Hd.
  assert (Hstep : forall j ls dealt stream, length ls = length dealt ->
    (sum_list_with length (deal j ls dealt stream).1 + length (deal j ls dealt stream).2 = sum_list_with length dealt + length stream)%nat /\
    length (deal j ls dealt stream).1 = length dealt).
  { intros j. induction ls as [|l ls IH]; intros [|b dealt] stream Hl; try done. cbn [deal]. injection Hl as Hl.
    case_decide; [destruct stream as [|x stream]|]; cbn [fst snd sum_list_with length]; [lia| |].
    - destruct (IH dealt stream Hl) as [I1 I2]. rewrite length_app. cbn [length]. lia.
    - destruct (IH dealt stream Hl) as [I1 I2]. lia. }
  assert (Hfold : forall rounds ls dealt stream, length ls = length dealt ->
    let t := foldl (fun t j => deal j ls t.1 t.2) (dealt, stream) rounds in
    (sum_list_with length t.1 + length t.2 = sum_list_with length dealt + length stream)%nat).
  { induction rounds as [|j rounds IH]; intros ls dealt stream Hl; [done|]. cbn [foldl fst snd].
    destruct (Hstep j ls dealt stream Hl) as [S1 S2]. cbv zeta. destruct (deal j ls dealt stream) as [dealt' stream'].
    cbn [fst snd] in *. specialize (IH ls dealt' stream'). cbv zeta in IH. rewrite IH by lia. lia. }
  unfold deal_all in Hd. match type of Hd with foldl ?f (?a, ?s) ?l = _ => pose proof (Hfold l (map length bs) a s) as Hf end.
  cbv zeta in Hf. rewrite Hd in Hf. cbn [fst snd] in Hf. rewrite take_blocks in Hf by done.
  assert (Hz : forall l : list nat, sum_list_with length (map (fun _ => @nil Z) l) = 0%nat) by (induction l; done).
  rewrite Hz in Hf. specialize (Hf ltac:(by rewrite !length_map)). cbn [length] in Hf. lia.
Qed.

Lemma interleave_spec version cw :
  1 <= version <= 40 -> length cw = Z.to_nat (dataCodewords version) -> bytes_ok cw ->
  length (interleave version cw) = Z.to_nat (entry 0 total version) /\ bytes_ok (interleave version cw) /\
  deinterleave version (interleave version cw) = Some cw.
Proof.
  intros Hv Hlen Hcw. pose proof (tables_all version Hv) as Ht. unfold tables_ok in Ht. cbv zeta in Ht.
  apply andb_true_iff in Ht as [Hlen_of%bool_decide_eq_true_1 Ht].
  apply andb_true_iff in Ht as [[[[[Hsum%Nat.eqb_eq Hmax%Nat.leb_le]%andb_true_iff Hec%Nat.leb_le]%andb_true_iff Htot%Nat.eqb_eq]%andb_true_iff _]%andb_true_iff _].
  unfold interleave, deinterleave. cbv zeta. rewrite Hlen_of.
  set (ec := Z.to_nat (entry 0 eccPerBlock version)) in *. set (lengths := block_lengths version) in *.
  set (bs := split_blocks lengths cw). assert (Hbl : map length bs = lengths) by (apply length_split_blocks; lia).
  pose proof (split_blocks_bytes lengths cw Hcw) as Hbb. fold bs in Hbb.
  set (es := map (fun d => rsRemainder d ec) bs).
  assert (Hes : Forall (fun e => length e = ec) es).
  { apply Forall_map. eapply Forall_impl; [exact Hbb|]. intros b Hb. by apply rsRemainder_spec. }
  assert (Hel : map (fun _ => ec) lengths = map length es).
  { unfold es. rewrite <- Hbl, !map_map. apply map_ext_in. intros b Hb. apply list_elem_of_In in Hb. rewrite Forall_forall in Hbb.
    symmetry. by apply rsRemainder_spec; [apply Hbb|]. }
  rewrite (rows_of_columns es ec Hes).
  assert (Hm : forall b, b ∈ bs -> (length b <= foldr Nat.max 0%nat lengths)%nat) by (rewrite <- Hbl; apply max_length).
  rewrite (columns_rest bs _ _ Hm Hmax).
  assert (He : forall e, e ∈ es -> (length e <= ec)%nat).
  { intros e Hin. rewrite Forall_forall in Hes. rewrite (Hes e Hin). lia. }
  split; [|split].
  - rewrite length_app, !length_columns by done.
    assert (H1 : sum_list_with length bs = sum_list_with id lengths).
    { rewrite <- Hbl. clear. induction bs as [|b bs IH]; [done|]. cbn [map sum_list_with]. by rewrite IH. }
    assert (H2 : sum_list_with length es = (ec * length lengths)%nat).
    { rewrite <- Hbl, length_map. assert (H3 : length es = length bs) by apply length_map. rewrite <- H3. clear -Hes.
      induction Hes as [|e es He _ IH]; cbn [sum_list_with length]; lia. }
    lia.
  - assert (Hcol : forall (bs : list (list Z)) l, Forall (fun b => bytes_ok b) bs -> bytes_ok (flat_map (fun j => omap (fun d : list Z => d !! j) bs) l)).
    { clear. intros bs l Hb. induction l as [|j l IH]; [constructor|]. cbn [flat_map]. apply Forall_app. split; [|done].
      clear IH. apply Forall_forall. intros x Hx. apply list_elem_of_omap in Hx as (b & Hin & Hx). rewrite Forall_forall in Hb.
      specialize (Hb b Hin). rewrite Forall_lookup in Hb. by eapply Hb. }
    apply Forall_app. split; apply Hcol; [done|]. apply Forall_map. eapply Forall_impl; [exact Hbb|]. intros b Hb. by apply rsRemainder_spec.
  - rewrite <- Hbl at 2. rewrite deal_all_spec, (take_blocks _ _ Hm). rewrite Hel. rewrite <- (app_nil_r (flat_map _ (seq 0 ec))).
    rewrite deal_all_spec, (take_blocks _ _ He).
    assert (Hcheck : forallb (fun p => codeword_b ec (p.1 ++ p.2)) (zip bs es) = true).
    { apply forallb_forall. intros [d e] Hin%list_elem_of_In. unfold es in Hin. cbn [fst snd].
      assert (Hde : d ∈ bs /\ e = rsRemainder d ec).
      { clear -Hin. induction bs as [|b bs IH]; [by apply elem_of_nil in Hin|]. cbn [map zip_with] in Hin.
        apply elem_of_cons in Hin as [[= -> ->]|Hin]; [split; [by left|done]|]. destruct (IH Hin). split; [by right|done]. }
      destruct Hde as [Hd ->]. rewrite Forall_forall in Hbb. by apply codeword_b_true, rsRemainder_spec; [apply Hbb|]. }
    rewrite Hcheck. f_equal. apply concat_split_blocks. lia.
Qed.

Lemma stream_facts text version : 1 <= version <= 40 -> fits (String.length text) version ->
  let cw := codewords text version in
  parse_data version cw = Some (bytes text) /\ length (interleave version cw) = Z.to_nat (entry 0 total version) /\
  bytes_ok (interleave version cw) /\ deinterleave version (interleave version cw) = Some cw.
Proof.
  intros Hv Hf. pose proof (tables_all version Hv) as Ht. unfold tables_ok in Ht. cbv zeta in Ht.
  apply andb_true_iff in Ht as [_ [[_ H1%Z.leb_le]%andb_true_iff H2%orb_true_iff]%andb_true_iff].
  destruct (codewords_spec text version Hf H1) as (C1 & C2 & C3).
  { intros Hlt. destruct H2 as [H2%Z.leb_le|H2%Z.leb_le]; lia. }
  split; [done|]. by apply interleave_spec.
Qed.
Lemma length_bitStream text version : 1 <= version <= 40 -> fits (String.length text) version ->
  Z.of_nat (length (bitStream text version)) = 8 * Z.of_nat (Z.to_nat (entry 0 total version)).
Proof. intros Hv Hf. destruct (stream_facts text version Hv Hf) as (_ & H & _). unfold bitStream. rewrite length_flat_bits, H. lia. Qed.

(** The bits after the stream, which fill the last modules, do not matter. *)
Lemma read_stream_spec text version rest :
  1 <= version <= 40 -> fits (String.length text) version -> read_stream version (bitStream text version ++ rest) = Some text.
Proof.
  intros Hv Hf. destruct (stream_facts text version Hv Hf) as (C3 & I1 & I2 & I3).
  unfold read_stream. 
  pose proof (length_bitStream text version Hv Hf). rewrite decide_True by (rewrite length_app; lia).
  unfold bitStream. rewrite <- I1, (octets_bits _ _ I2), I3. cbn [mbind option_bind]. rewrite C3. cbn [mbind option_bind].
  f_equal. apply text_of_bytes.
Qed.
