(* ===== verification/QrMatrix.v ===== *)
(** * Reading the modules of a QR code

    The function patterns as the standard describes them (rings around
    centres, lines, fields), the path of the data, and what the encoder's
    drawing leaves in every module. *)

From S2P Require Import Prelude GoStd Qr QrField QrStream.
#[local] Open Scope Z_scope.

(** ** The modules of the standard *)
Definition index (size : Z) (p : Z * Z) : Z := p.1 * size + p.2.
Definition side (version : Z) : Z := 4 * version + 17.

(** A square of rings around a centre, with the colour of each ring. *)
Definition square (row col radius : Z) (ring : Z -> bool) : list (Z * Z * option bool) :=
  let span := seqZ (- radius) (2 * radius + 1) in
  flat_map (fun dr => map (fun dc => (row + dr, col + dc, Some (ring (Z.max (Z.abs dr) (Z.abs dc))))) span) span.
Definition finder_ring (d : Z) : bool := negb (d =? 2) && negb (d =? 4).
Definition alignment_ring (d : Z) : bool := negb (d =? 1).

(** The centres of the alignment patterns on one axis: evenly spaced from the
    far edge, the last step being what is left. *)
Definition centers (version : Z) : list Z :=
  if decide (version = 1) then []
  else
    let n := version / 7 + 2 in
    let step := (version * 8 + n * 3 + 5) / (n * 4 - 4) * 2 in
    6 :: map (fun k => side version - 7 - step * (n - 2 - k)) (seqZ 0 (n - 1)).
Definition is_corner (version r c : Z) : bool :=
  let far := side version - 7 in
  ((r =? 6) && (c =? 6)) || ((r =? 6) && (c =? far)) || ((r =? far) && (c =? 6)).

(** The words of the version field, from version 7 on. *)
Definition version_words : list Z :=
  [0x07c94; 0x085bc; 0x09a99; 0x0a4d3; 0x0bbf6; 0x0c762; 0x0d847; 0x0e60d; 0x0f928; 0x10b78; 0x1145d; 0x12a17;
   0x13532; 0x149a6; 0x15683; 0x168c9; 0x177ec; 0x18ec4; 0x191e1; 0x1afab; 0x1b08e; 0x1cc1a; 0x1d33f; 0x1ed75;
   0x1f250; 0x209d5; 0x216f0; 0x228ba; 0x2379f; 0x24b0b; 0x2542e; 0x26a64; 0x27541; 0x28c69].
Definition version_modules (version : Z) : list (Z * Z * option bool) :=
  if decide (version < 7) then []
  else
    let word := nth (Z.to_nat (version - 7)) version_words 0 in let s := side version in
    flat_map (fun i => [(i / 3, s - 11 + i mod 3, Some (Z.testbit word i)); (s - 11 + i mod 3, i / 3, Some (Z.testbit word i))])
      (seqZ 0 18).

(** The function modules with their colours, [None] in the format field.  Of
    two entries for a module the first counts. *)
Definition standard_modules (version : Z) : list (Z * Z * option bool) :=
  let s := side version in
  square 3 3 4 finder_ring ++ square 3 (s - 4) 4 finder_ring ++ square (s - 4) 3 4 finder_ring ++
  [(s - 8, 8, Some true)] ++
  flat_map (fun r => flat_map (fun c => if is_corner version r c then [] else square r c 2 alignment_ring)
    (centers version)) (centers version) ++
  flat_map (fun i => [(6, i, Some (Z.even i)); (i, 6, Some (Z.even i))]) (seqZ 8 (s - 16)) ++
  version_modules version ++
  map (fun p : Z * Z => (p, None)) (map (fun i => (8, i)) (seqZ 0 9 ++ seqZ (s - 8) 8) ++ map (fun i => (i, 8)) (seqZ 0 9 ++ seqZ (s - 8) 8)).
Definition on_map {A} (size : Z) (op : Z * Z * A) (m : gmap Z A) : gmap Z A :=
  if inside size op.1.1 op.1.2 then <[index size op.1 := op.2]> m else m.
Definition standard_map (version : Z) : gmap Z (option bool) :=
  foldr (on_map (side version)) ∅ (standard_modules version).

(** The path of the data: pairs of columns from the right, the sixth column left
    out, upwards and downwards in turn. *)
Definition strip_column (size k : Z) : Z := let x := size - 1 - 2 * k in if decide (x <= 6) then x - 1 else x.
Definition strip_rows (size k : Z) : list Z := if Z.even k then reverse (seqZ 0 size) else seqZ 0 size.
Definition strip_cells (size k : Z) : list (Z * Z) :=
  flat_map (fun r => [(r, strip_column size k); (r, strip_column size k - 1)]) (strip_rows size k).
Definition data_path (size : Z) : list (Z * Z) := flat_map (strip_cells size) (seqZ 0 ((size - 1) / 2)).
Definition data_cells (version : Z) : list (Z * Z) :=
  let m := standard_map version in filter (fun p => m !! index (side version) p = None) (data_path (side version)).

(** ** Cells *)
Lemma index_inj size p q : inside size p.1 p.2 = true -> inside size q.1 q.2 = true -> index size p = index size q -> p = q.
Proof.
  unfold inside, index. destruct p as [r c], q as [r' c']. cbn [fst snd]. intros Hp Hq He.
  assert (r = r' /\ c = c') as [-> ->]; [|done]. 
  assert (0 <= r /\ 0 <= c < size /\ 0 <= r' /\ 0 <= c' < size) by lia. assert (r = r') by nia. nia.
Qed.
Lemma inside_range size r c : inside size r c = true <-> 0 <= r < size /\ 0 <= c < size.
Proof. unfold inside. lia. Qed.
Lemma cell_index size r c : cell size r c = Z.to_nat (index size (r, c)).
Proof. done. Qed.
Lemma cell_lt size r c : inside size r c = true -> (cell size r c < Z.to_nat (size * size))%nat.
Proof. rewrite inside_range. unfold cell. intros. nia. Qed.
Lemma index_nonneg size r c : inside size r c = true -> 0 <= index size (r, c).
Proof. rewrite inside_range. unfold index. cbn. nia. Qed.

Lemma nth_insert_bool (l : list bool) i j v : (i < length l)%nat -> nth j (<[i := v]> l) false = if decide (i = j) then v else nth j l false.
Proof.
  intros Hi. rewrite !nth_lookup. case_decide as Hij; [subst j; by rewrite list_lookup_insert_eq|by rewrite list_lookup_insert_ne].
Qed.

(** ** The drawing as a map *)

(** The arrays hold what the map holds: a module is a function module when the
    map has it, and it is dark when the map says so. *)
Record drawn (size : Z) (s : Skeleton) (m : gmap Z bool) : Prop := {
  dr_size : s.(sk_matrix).(mx_size) = size;
  dr_dark_len : length s.(sk_matrix).(mx_dark) = Z.to_nat (size * size);
  dr_fun_len : length s.(sk_functional) = Z.to_nat (size * size);
  dr_fun : forall r c, inside size r c = true ->
    nth (cell size r c) s.(sk_functional) false = bool_decide (is_Some (m !! index size (r, c)));
  dr_dark : forall r c, inside size r c = true ->
    nth (cell size r c) s.(sk_matrix).(mx_dark) false = default false (m !! index size (r, c))
}.

Lemma drawn_set size s m op : drawn size s m -> drawn size (sk_set s op) (on_map size op m).
Proof.
  intros [D1 D2 D3 D4 D5]. destruct op as [[row col] v]. unfold sk_set, on_map. cbn [fst snd]. rewrite D1.
  destruct (inside size row col) eqn:Hin; [|by split]. unfold set. rewrite D1, Hin.
  pose proof (cell_lt _ _ _ Hin) as Hlt.
  split; cbn [sk_matrix sk_functional mx_size mx_dark]; rewrite ?length_insert; try done.
  - intros r c Hrc. rewrite nth_insert_bool by lia. case_decide as Hc.
    + assert (index size (row, col) = index size (r, c)) as <-.
      { rewrite !cell_index in Hc. apply Z2Nat.inj in Hc; [done|by apply index_nonneg..]. }
      by rewrite lookup_insert_eq, bool_decide_eq_true_2.
    + rewrite lookup_insert_ne; [by apply D4|]. intros He. apply Hc. by rewrite !cell_index, He.
  - intros r c Hrc. rewrite nth_insert_bool by lia. case_decide as Hc.
    + assert (index size (row, col) = index size (r, c)) as <-.
      { rewrite !cell_index in Hc. apply Z2Nat.inj in Hc; [done|by apply index_nonneg..]. }
      by rewrite lookup_insert_eq.
    + rewrite lookup_insert_ne; [by apply D5|]. intros He. apply Hc. by rewrite !cell_index, He.
Qed.
Lemma drawn_paint size ops s m : drawn size s m -> drawn size (paint ops s) (foldl (fun m op => on_map size op m) m ops).
Proof. revert s m. induction ops as [|op ops IH]; intros s m Hd; [done|]. cbn [paint foldl]. apply IH. by apply drawn_set. Qed.

(** Reserving keeps what is there. *)
Definition reserve_map (size : Z) (m : gmap Z bool) (p : Z * Z) : gmap Z bool :=
  match m !! index size p with Some _ => m | None => on_map size (p, false) m end.
Lemma drawn_reserve size s m p : inside size p.1 p.2 = true -> drawn size s m -> drawn size (reserve_one s p) (reserve_map size m p).
Proof.
  intros Hp Hd. unfold reserve_one, reserve_map. rewrite (dr_size _ _ _ Hd), (dr_fun _ _ _ Hd) by done.
  destruct p as [r c]. cbn [fst snd]. destruct (m !! index size (r, c)) eqn:E.
  - by rewrite bool_decide_eq_true_2 by by eexists.
  - rewrite bool_decide_eq_false_2 by by intros [? ?]. by apply (drawn_set size s m (r, c, false)).
Qed.
Lemma drawn_reserves size ps s m : Forall (fun p => inside size p.1 p.2 = true) ps -> drawn size s m ->
  drawn size (foldl reserve_one s ps) (foldl (reserve_map size) m ps).
Proof. intros Hps. revert s m. induction Hps as [|p ps Hp _ IH]; intros s m Hd; [done|]. cbn [foldl]. apply IH. by apply drawn_reserve. Qed.

Definition skeleton_map (version : Z) : gmap Z bool :=
  let size := version * 4 + 17 in
  let draw := fun m op => on_map size op m in
  let m := foldl draw ∅ (finder 0 0 ++ finder 0 (size - 7) ++ finder (size - 7) 0) in
  let m := foldl draw m (alignments version size) in
  let m := foldl draw m (timing size ++ [(size - 8, 8, true)]) in
  let m := foldl (reserve_map size) m (format_area size) in
  if decide (7 <= version) then foldl draw m (version_field version size) else m.

Lemma skeleton_drawn version : 1 <= version -> drawn (side version) (skeleton version) (skeleton_map version).
Proof.
  intros Hv. unfold side. replace (4 * version + 17) with (version * 4 + 17) by lia. unfold skeleton, skeleton_map. cbv zeta.
  set (size := version * 4 + 17). set (blank := replicate _ _).
  assert (H0 : drawn size (MkSkeleton (MkMatrix size blank) blank) ∅).
  { split; cbn [sk_matrix sk_functional mx_size mx_dark]; try apply length_replicate; [done|..].
    all: intros r c Hrc; rewrite lookup_empty; unfold blank; rewrite nth_lookup, lookup_replicate_2 by by apply cell_lt.
    all: done. }
  assert (Hf : Forall (fun p => inside size p.1 p.2 = true) (format_area size)).
  { unfold format_area. apply Forall_forall. intros p Hp. apply list_elem_of_In, in_flat_map in Hp as (i & Hi & Hp).
    apply list_elem_of_In, elem_of_app in Hi. rewrite !elem_of_seqZ in Hi. apply inside_range. subst size.
    destruct Hp as [<-|[<-|[]]]; cbn [fst snd]; lia. }
  case_decide; [apply drawn_paint|]; by apply drawn_reserves, drawn_paint, drawn_paint, drawn_paint.
Qed.

(** ** The drawing is the standard's *)

(** Every module of the standard is drawn in its colour, and nothing else is; the
    sixth column belongs to the patterns; there is room for the code words. *)
Definition agree (a : option bool) (b : option bool) : bool :=
  match b with None => false | Some b => match a with Some a => Bool.eqb a b | None => true end end.
Definition layout_ok (version : Z) : bool :=
  let standard := standard_map version in let drawn := skeleton_map version in let s := side version in
  let words := entry 0 total version in
  forallb (fun kv => agree kv.2 (drawn !! kv.1)) (map_to_list standard) &&
  (length (map_to_list drawn) =? length (map_to_list standard))%nat &&
  forallb (fun r => match standard !! index s (r, 6) with Some _ => true | None => false end) (seqZ 0 s) &&
  (8 * words <=? s * s - Z.of_nat (length (map_to_list standard))).
Lemma layout_all : forallb layout_ok (seqZ 1 40) = true.
Proof. vm_compute. reflexivity. Qed.

Lemma layout_facts version : 1 <= version <= 40 ->
  (forall k a, standard_map version !! k = Some a -> exists b, skeleton_map version !! k = Some b /\ (forall c, a = Some c -> b = c)) /\
  (forall k, skeleton_map version !! k = None <-> standard_map version !! k = None) /\
  (forall r, 0 <= r < side version -> is_Some (standard_map version !! index (side version) (r, 6))) /\
  8 * entry 0 total version <= side version * side version - Z.of_nat (size (standard_map version)).
Proof.
  intros Hv. pose proof layout_all as H. rewrite forallb_forall in H.
  specialize (H version ltac:(apply list_elem_of_In, elem_of_seqZ; lia)). unfold layout_ok in H. cbv zeta in H.
  set (S := standard_map version) in *. set (D := skeleton_map version) in *.
  apply andb_true_iff in H as [[[H1 H2%Nat.eqb_eq]%andb_true_iff H3]%andb_true_iff H4%Z.leb_le].
  rewrite forallb_forall in H1, H3.
  assert (Hin : forall k a, S !! k = Some a -> exists b, D !! k = Some b /\ (forall c, a = Some c -> b = c)).
  { intros k a Ha. specialize (H1 (k, a)). cbn [fst snd] in H1. unfold agree in H1.
    specialize (H1 ltac:(by apply list_elem_of_In, elem_of_map_to_list)). destruct (D !! k) as [b|]; [|done].
    exists b. split; [done|]. intros c ->. symmetry. by apply eqb_prop. }
  split; [exact Hin|]. split; [|split].
  - assert (Hdom : dom S = dom D).
    { apply set_eq. apply set_subseteq_antisymm.
      - intros k [a Ha]%elem_of_dom. destruct (Hin k a Ha) as (b & Hb & _). apply elem_of_dom. by exists b.
      - assert (Hsub : dom S ⊆ dom D).
        { intros k [a Ha]%elem_of_dom. destruct (Hin k a Ha) as (b & Hb & _). apply elem_of_dom. by exists b. }
        assert (Hsz : (size (dom D) <= size (dom S))%nat) by (rewrite !size_dom; unfold size, map_size; rewrite !length_map_to_list in H2; unfold size, map_size in H2; lia).
        pose proof (set_subseteq_size_equiv _ _ Hsub Hsz) as He. by rewrite <- He. }
    intros k. rewrite <- !not_elem_of_dom. by rewrite Hdom.
  - intros r Hr. specialize (H3 r ltac:(apply list_elem_of_In, elem_of_seqZ; lia)). destruct (S !! _); [by eexists|done].
  - by rewrite length_map_to_list in H4.
Qed.

(** ** The path *)
Lemma path_inside size p : 0 < size -> p ∈ data_path size -> inside size p.1 p.2 = true.
Proof.
  intros Hs Hp. apply list_elem_of_In, in_flat_map in Hp as (k & Hk & Hp). apply in_flat_map in Hp as (r & Hr & Hp).
  apply list_elem_of_In, elem_of_seqZ in Hk. apply list_elem_of_In in Hr. unfold strip_rows in Hr.
  assert (Hr' : 0 <= r < size).
  { destruct (Z.even k); [rewrite elem_of_reverse in Hr|]; apply elem_of_seqZ in Hr; lia. }
  apply inside_range. unfold strip_column in Hp. pose proof (Z.div_mod (size - 1) 2 ltac:(lia)). pose proof (Z.mod_pos_bound (size - 1) 2 ltac:(lia)).
  destruct Hp as [<-|[<-|[]]]; cbn [fst snd]; case_decide; lia.
Qed.

Lemma NoDup_flat_map {A B} (f : A -> list B) l :
  NoDup l -> (forall x, x ∈ l -> NoDup (f x)) -> (forall x y z, x ∈ l -> y ∈ l -> z ∈ f x -> z ∈ f y -> x = y) -> NoDup (flat_map f l).
Proof.
  intros Hl. induction Hl as [|x l Hx _ IH]; intros Hf Hd; cbn [flat_map]; [constructor|].
  apply NoDup_app. split; [apply Hf; by left|]. split.
  - intros z Hz Hz'. apply list_elem_of_In, in_flat_map in Hz' as (y & Hy & Hz'). apply list_elem_of_In in Hy, Hz'.
    apply Hx. rewrite (Hd x y z); [done|by left|by right|done|done].
  - apply IH; [intros y Hy; apply Hf; by right|]. intros a b z Ha Hb. apply Hd; by right.
Qed.

Lemma path_NoDup size : Z.odd size = true -> NoDup (data_path size).
Proof.
  intros Hodd. apply NoDup_flat_map; [apply NoDup_seqZ| |].
  - intros k _. apply NoDup_flat_map.
    + unfold strip_rows. destruct (Z.even k); [rewrite reverse_Permutation|]; apply NoDup_seqZ.
    + intros r _. apply NoDup_cons. split; [|apply NoDup_singleton]. rewrite list_elem_of_singleton. intros [=]. lia.
    + intros r r' z _ _ Hz Hz'. apply list_elem_of_In in Hz, Hz'. destruct Hz as [<-|[<-|[]]], Hz' as [[=]|[[=]|[]]]; lia.
  - intros k k' z Hk Hk' Hz Hz'. apply elem_of_seqZ in Hk, Hk'.
    apply list_elem_of_In, in_flat_map in Hz as (r & _ & Hz). apply list_elem_of_In, in_flat_map in Hz' as (r' & _ & Hz').
    assert (Hc : strip_column size k = strip_column size k' \/ strip_column size k = strip_column size k' - 1 \/ strip_column size k - 1 = strip_column size k').
    { destruct Hz as [<-|[<-|[]]], Hz' as [[=]|[[=]|[]]]; lia. }
    apply Zodd_bool_iff, Zodd_ex in Hodd as [q Hq]. unfold strip_column in Hc. case_decide; case_decide; lia.
Qed.

(** The path has every module outside the sixth column. *)
Lemma length_path size : Z.odd size = true -> 7 <= size -> Z.of_nat (length (data_path size)) = size * (size - 1).
Proof.
  intros Hodd Hs. apply Zodd_bool_iff, Zodd_ex in Hodd as [q Hq]. unfold data_path.
  assert (Hstrip : forall k, length (strip_cells size k) = (2 * Z.to_nat size)%nat).
  { intros k. unfold strip_cells. rewrite (flat_map_constant_length (c := 2)) by (intros ? _; reflexivity). rewrite Nat.mul_comm. f_equal.
    unfold strip_rows. destruct (Z.even k); rewrite ?length_reverse, length_seqZ; done. }
  rewrite (flat_map_constant_length (c := (2 * Z.to_nat size)%nat)) by (intros ? _; apply Hstrip). rewrite length_seqZ.
  replace ((size - 1) / 2) with q by (subst size; rewrite Z.add_simpl_r, Z.mul_comm, Z.div_mul; lia). nia.
Qed.

Lemma data_cells_room version : 1 <= version <= 40 -> 8 * entry 0 total version <= Z.of_nat (length (data_cells version)).
Proof.
  intros Hv. destruct (layout_facts version Hv) as (_ & _ & Hcol & Hroom). unfold data_cells.
  set (S := standard_map version) in *. set (s := side version) in *.
  assert (Hodd : Z.odd s = true) by (unfold s, side; rewrite Z.odd_add, Z.odd_mul; done).
  assert (Hs : 7 <= s) by (unfold s, side; lia).
  pose proof (length_path s Hodd Hs) as Hlen. set (path := data_path s) in *.
  set (taken := filter (fun p => ~ S !! index s p = None) path).
  assert (Hsplit : length path = (length (filter (fun p => S !! index s p = None) path) + length taken)%nat).
  { unfold taken. clear. induction path as [|p path IH]; [done|]. rewrite !filter_cons. destruct (decide (S !! index s p = None)).
    - rewrite decide_False by tauto. cbn [length]. lia.
    - rewrite decide_True by done. cbn [length]. lia. }
  assert (Htaken : (length taken + Z.to_nat s <= size S)%nat).
  { set (keys := map (index s) taken ++ map (fun r => index s (r, 6)) (seqZ 0 s)).
    assert (Hkeys : NoDup keys).
    { unfold keys. assert (Hin : forall p, p ∈ taken -> inside s p.1 p.2 = true /\ p ∈ path).
      { intros p Hp. apply list_elem_of_filter in Hp as [_ Hp]. split; [|done]. apply path_inside; [lia|done]. }
      apply NoDup_app. split; [|split].
      - apply NoDup_fmap_2_strong; [|apply NoDup_filter, path_NoDup, Hodd]. intros p q Hp Hq. apply index_inj; by apply Hin.
      - intros k Hk Hk'. apply list_elem_of_fmap in Hk as (p & -> & Hp). apply list_elem_of_fmap in Hk' as (r & He & Hr).
        apply elem_of_seqZ in Hr. destruct (Hin p Hp) as [Hip Hpp]. apply index_inj in He; [|done|apply inside_range; cbn; lia].
        subst p. apply list_elem_of_In, in_flat_map in Hpp as (k & Hk & Hpp). apply in_flat_map in Hpp as (r' & _ & Hpp).
        unfold strip_column in Hpp. destruct Hpp as [[=]|[[=]|[]]]; case_decide; unfold s, side in *; lia.
      - apply NoDup_fmap_2_strong; [|apply NoDup_seqZ]. intros a b Ha Hb He. unfold index in He. cbn [fst snd] in He. nia. }
    assert (Hsub : list_to_set keys ⊆ dom S).
    { intros k Hk. apply elem_of_list_to_set in Hk. apply elem_of_app in Hk as [Hk|Hk].
      - apply list_elem_of_fmap in Hk as (p & -> & Hp). apply list_elem_of_filter in Hp as [Hp _]. apply elem_of_dom.
        destruct (S !! index s p); [by eexists|by destruct Hp].
      - apply list_elem_of_fmap in Hk as (r & -> & Hr). apply elem_of_seqZ in Hr. apply elem_of_dom, Hcol. lia. }
    apply subseteq_size in Hsub. rewrite (size_list_to_set keys Hkeys), size_dom in Hsub. unfold keys in Hsub.
    rewrite length_app, !length_map, length_seqZ in Hsub. exact Hsub. }
  lia.
Qed.

(** ** Placing the data *)
Section placing.
Variables (functional : list bool) (s mask : Z).
Hypothesis Hodd : Z.odd s = true.
Hypothesis Hs : 21 <= s.

Definition place_at (p : Placing) (q : Z * Z) : Placing := place_cell functional s mask q.1 p q.2.
Definition row_cells (col r : Z) : list (Z * Z) := [(r, col); (r, col - 1)].

Lemma strip_up n fuel col p : (n < fuel)%nat -> Z.of_nat n < s ->
  strip functional s mask fuel col (Z.of_nat n) (-1) p =
  (foldl place_at p (flat_map (row_cells col) (reverse (seqZ 0 (Z.of_nat n + 1)))), 0, 1).
Proof.
  revert fuel p. induction n as [|n IH]; intros [|fuel] p Hf Hn; try lia; cbn [strip].
  - change (Z.of_nat 0 + -1) with (-1). cbn. done.
  - assert (Hc : ((Z.of_nat (S n) + -1 <? 0) || (s <=? Z.of_nat (S n) + -1)) = false) by (apply orb_false_iff; split; [apply Z.ltb_ge|apply Z.leb_gt]; lia). rewrite Hc.
    replace (Z.of_nat (S n) + -1) with (Z.of_nat n) by lia. rewrite IH by lia.
    replace (Z.of_nat (S n) + 1) with (Z.of_nat (S (S n))) by lia. rewrite seqZ_S, reverse_app, reverse_singleton.
    cbn [app flat_map]. rewrite foldl_app. replace (0 + Z.of_nat (S n)) with (Z.of_nat (S n)) by lia.
    by replace (Z.of_nat n + 1) with (Z.of_nat (S n)) by lia.
Qed.
Lemma strip_down n fuel col p : (n < fuel)%nat -> 0 <= s - 1 - Z.of_nat n ->
  strip functional s mask fuel col (s - 1 - Z.of_nat n) 1 p =
  (foldl place_at p (flat_map (row_cells col) (seqZ (s - 1 - Z.of_nat n) (Z.of_nat n + 1))), s - 1, -1).
Proof.
  revert fuel p. induction n as [|n IH]; intros [|fuel] p Hf Hn; try lia; cbn [strip].
  - change (Z.of_nat 0) with 0. replace (s - 1 - 0) with (s - 1) by lia.
    assert (Hc : ((s - 1 + 1 <? 0) || (s <=? s - 1 + 1)) = true) by (apply orb_true_iff; right; apply Z.leb_le; lia). rewrite Hc.
    change (0 + 1) with 1. rewrite seqZ_cons by lia. replace (s - 1 + 1 - 1) with (s - 1) by lia. done.
  - assert (Hc : ((s - 1 - Z.of_nat (S n) + 1 <? 0) || (s <=? s - 1 - Z.of_nat (S n) + 1)) = false) by (apply orb_false_iff; split; [apply Z.ltb_ge|apply Z.leb_gt]; lia). rewrite Hc.
    replace (s - 1 - Z.of_nat (S n) + 1) with (s - 1 - Z.of_nat n) by lia. rewrite IH by lia.
    rewrite (seqZ_cons (s - 1 - Z.of_nat (S n))) by lia. cbn [flat_map]. rewrite foldl_app.
    replace (Z.succ (s - 1 - Z.of_nat (S n))) with (s - 1 - Z.of_nat n) by lia.
    by replace (Z.pred (Z.of_nat (S n) + 1)) with (Z.of_nat n + 1) by lia.
Qed.

Lemma strip_cells_spec k p : 0 <= k ->
  strip functional s mask (Z.to_nat s) (strip_column s k) (if Z.even k then s - 1 else 0) (if Z.even k then -1 else 1) p =
  (foldl place_at p (strip_cells s k), if Z.even (k + 1) then s - 1 else 0, if Z.even (k + 1) then -1 else 1).
Proof.
  intros Hk. rewrite Z.even_add. unfold strip_cells, strip_rows. destruct (Z.even k) eqn:E; cbn [Z.even Bool.eqb].
  - replace (s - 1) with (Z.of_nat (Z.to_nat (s - 1))) at 1 by lia. rewrite strip_up by lia.
    by replace (Z.of_nat (Z.to_nat (s - 1)) + 1) with s by lia.
  - replace 0 with (s - 1 - Z.of_nat (Z.to_nat (s - 1))) at 1 by lia. rewrite strip_down by lia.
    replace (s - 1 - Z.of_nat (Z.to_nat (s - 1))) with 0 by lia. by replace (Z.of_nat (Z.to_nat (s - 1)) + 1) with s by lia.
Qed.

Lemma strips_spec n fuel k p : 0 <= k -> Z.of_nat n = (s - 1) / 2 - k -> (n < fuel)%nat ->
  strips functional s mask fuel (let x := s - 1 - 2 * k in if decide (x < 6) then x - 1 else x)
    (if Z.even k then s - 1 else 0) (if Z.even k then -1 else 1) p =
  foldl place_at p (flat_map (strip_cells s) (seqZ k (Z.of_nat n))).
Proof.
  pose proof Hodd as Ho. apply Zodd_bool_iff, Zodd_ex in Ho as [q Hq].
  assert (Hh : (s - 1) / 2 = q) by (subst s; rewrite Z.add_simpl_r, Z.mul_comm, Z.div_mul; lia). rewrite Hh.
  revert fuel k p. induction n as [|n IH]; intros [|fuel] k p Hk Hn Hf; try lia; cbn [strips]; cbv zeta.
  - rewrite decide_False; [done|]. case_decide; lia.
  - rewrite decide_True by (case_decide; lia).
    assert (Hcol : (if decide ((if decide (s - 1 - 2 * k < 6) then s - 1 - 2 * k - 1 else s - 1 - 2 * k) = 6) then 5
      else if decide (s - 1 - 2 * k < 6) then s - 1 - 2 * k - 1 else s - 1 - 2 * k) = strip_column s k).
    { unfold strip_column. repeat case_decide; lia. }
    rewrite Hcol, strip_cells_spec by done. rewrite (seqZ_cons k) by lia. cbn [flat_map]. rewrite foldl_app.
    replace (Z.pred (Z.of_nat (S n))) with (Z.of_nat n) by lia. rewrite <- (IH fuel) by lia. cbv zeta. f_equal.
    unfold strip_column. repeat case_decide; lia.
Qed.

Lemma strips_path p : strips functional s mask (Z.to_nat s) (s - 1) (s - 1) (-1) p = foldl place_at p (data_path s).
Proof.
  pose proof Hodd as Ho. apply Zodd_bool_iff, Zodd_ex in Ho as [q Hq].
  assert (Hh : (s - 1) / 2 = q) by (subst s; rewrite Z.add_simpl_r, Z.mul_comm, Z.div_mul; lia).
  pose proof (strips_spec (Z.to_nat ((s - 1) / 2)) (Z.to_nat s) 0 p) as H. cbv zeta in H. rewrite decide_False in H by lia.
  replace (s - 1 - 2 * 0) with (s - 1) in H by lia. cbn [Z.even] in H. rewrite H by lia. unfold data_path. by rewrite Z2Nat.id by lia.
Qed.

(** *** What placing leaves *)
Definition at_ (l : list bool) (q : Z * Z) : bool := nth (cell s q.1 q.2) l false.
Definition all_inside (qs : list (Z * Z)) : Prop := Forall (fun q => inside s q.1 q.2 = true) qs.

Lemma cell_inj p q : inside s p.1 p.2 = true -> inside s q.1 q.2 = true -> cell s p.1 p.2 = cell s q.1 q.2 -> p = q.
Proof.
  intros Hp Hq He. apply (index_inj s); [done..|]. destruct p as [r c], q as [r' c']. rewrite !cell_index in He.
  apply Z2Nat.inj in He; [done|by apply index_nonneg..].
Qed.
Lemma at_insert l p q v : length l = Z.to_nat (s * s) -> inside s p.1 p.2 = true -> inside s q.1 q.2 = true ->
  at_ (<[cell s p.1 p.2 := v]> l) q = if decide (p = q) then v else at_ l q.
Proof.
  intros Hl Hp Hq. unfold at_. rewrite nth_insert_bool by (rewrite Hl; by apply cell_lt).
  destruct (decide (p = q)) as [->|Hne]; [by rewrite decide_True|]. rewrite decide_False; [done|]. intros He. by apply Hne, cell_inj.
Qed.

Lemma place_at_length p q : length (place_at p q).(pl_dark) = length p.(pl_dark).
Proof.
  unfold place_at, place_cell. destruct (nth _ functional false); [done|]. destruct (pl_rest p); cbn [pl_dark]; apply length_insert.
Qed.
Lemma place_at_other p q q' : length p.(pl_dark) = Z.to_nat (s * s) -> inside s q.1 q.2 = true -> inside s q'.1 q'.2 = true ->
  q <> q' \/ at_ functional q = true -> at_ (place_at p q).(pl_dark) q' = at_ p.(pl_dark) q'.
Proof.
  intros Hl Hq Hq' Hne. unfold place_at, place_cell. fold (at_ functional q). destruct (at_ functional q); [done|].
  assert (Hd : q <> q') by (by destruct Hne). destruct (pl_rest p); cbn [pl_dark]; by rewrite at_insert, decide_False.
Qed.
Lemma place_other qs p q : length p.(pl_dark) = Z.to_nat (s * s) -> all_inside qs -> inside s q.1 q.2 = true ->
  q ∉ qs \/ at_ functional q = true -> at_ (foldl place_at p qs).(pl_dark) q = at_ p.(pl_dark) q.
Proof.
  intros Hl Hqs Hq. revert p Hl. induction Hqs as [|x qs Hx Hqs IH]; intros p Hl Hn; [done|]. cbn [foldl].
  rewrite IH; [|by rewrite place_at_length|destruct Hn as [Hn|Hn]; [left; set_solver|by right]].
  apply place_at_other; [done..|]. destruct Hn as [Hn|Hn]; [|destruct (decide (x = q)) as [->|]; [by right|by left]].
  left. intros ->. apply Hn. by left.
Qed.
Lemma length_placed qs p : length (foldl place_at p qs).(pl_dark) = length p.(pl_dark).
Proof. revert p. induction qs as [|q qs IH]; intros p; [done|]. cbn [foldl]. by rewrite IH, place_at_length. Qed.

(** The data modules, unmasked, are the stream and zeros after it. *)
Lemma place_reads qs p : length p.(pl_dark) = Z.to_nat (s * s) -> all_inside qs -> NoDup qs ->
  let cells := filter (fun q => at_ functional q = false) qs in
  map (fun q => xorb (at_ (foldl place_at p qs).(pl_dark) q) (maskFn mask q.1 q.2)) cells =
  take (length cells) (p.(pl_rest) ++ replicate (length cells) false).
Proof.
  intros Hl Hqs Hnd. revert p Hl. induction Hqs as [|q qs Hq Hqs IH]; intros p Hl; [done|]. apply NoDup_cons in Hnd as [Hn Hnd].
  cbv zeta. rewrite filter_cons. case_decide as Hf; cbn [foldl].
  - cbn [map length]. rewrite (place_other qs) by (rewrite ?place_at_length; auto). rewrite IH by (rewrite ?place_at_length; done).
    assert (Hplace : place_at p q = MkPlacing (<[cell s q.1 q.2 := xorb (hd false p.(pl_rest)) (maskFn mask q.1 q.2)]> p.(pl_dark)) (tail p.(pl_rest))).
    { unfold place_at, place_cell. fold (at_ functional q). rewrite Hf. by destruct (pl_rest p). }
    rewrite Hplace. cbn [pl_dark pl_rest]. rewrite at_insert, decide_True by done.
    rewrite xorb_assoc, xorb_nilpotent, xorb_false_r. set (n := length _).
    destruct (pl_rest p) as [|b rest]; cbn [hd tail app].
    + change (replicate (S n) false) with (false :: replicate n false). by rewrite firstn_cons.
    + rewrite firstn_cons. f_equal. change (replicate (S n) false) with (replicate 1 false ++ replicate n false).
      replace (replicate 1 false ++ replicate n false) with (replicate n false ++ [false]).
      2: { clear. induction n as [|n IH]; [done|]. cbn [replicate app] in *. by rewrite IH. }
      rewrite app_assoc. rewrite (take_app_le (rest ++ _)); [done|]. rewrite length_app, length_replicate. lia.
  - rewrite IH by (rewrite ?place_at_length; done). unfold place_at at 1, place_cell. fold (at_ functional q).
    destruct (at_ functional q); [done|by destruct Hf].
Qed.
End placing.
