(* ===== verification/QrSpec.v ===== *)
(** * The QR encoder is readable

    A reader of the standard, which knows nothing of the encoder's drawing,
    takes every text back from the matrix and from the picture printed in a
    terminal. *)

From Stdlib Require Import Ascii.
From S2P Require Import Prelude GoStd Qr QrField QrStream QrMatrix.
#[local] Open Scope Z_scope.

(** ** The reader of a matrix *)

(** The eight words of the format field for level L, by mask, and the places of
    its bits, the lowest first, in the two copies. *)
Definition format_words : list Z := [0x77c4; 0x72f3; 0x7daa; 0x789d; 0x662f; 0x6318; 0x6c41; 0x6976].
Definition copy_corner (i : Z) : Z * Z :=
  if i <? 6 then (i, 8) else if i <? 8 then (i + 1, 8) else if i =? 8 then (8, 7) else (8, 14 - i).
Definition copy_split (s i : Z) : Z * Z := if i <? 8 then (8, s - 1 - i) else (s - 15 + i, 8).
Definition word_bits (w : Z) : list bool := map (Z.testbit w) (seqZ 0 15).

(** The eight masks, by row and column. *)
Definition mask_rule (mask i j : Z) : bool :=
  nth (Z.to_nat mask)
    [Z.even (i + j); Z.even i; j mod 3 =? 0; (i + j) mod 3 =? 0; Z.even (i / 2 + j / 3);
     (i * j) mod 2 + (i * j) mod 3 =? 0; Z.even ((i * j) mod 2 + (i * j) mod 3);
     Z.even ((i * j) mod 3 + (i + j) mod 2)] false.

Section read.
Variables (s : Z) (pixel : Z -> Z -> bool).
Definition pixel_at (p : Z * Z) : bool := pixel p.1 p.2.

Definition read_mask : option Z :=
  let bits := map (fun i => pixel_at (copy_corner i)) (seqZ 0 15) in
  if decide (bits = map (fun i => pixel_at (copy_split s i)) (seqZ 0 15)) then
    '(i, _) ← list_find (fun w => word_bits w = bits) format_words; Some (Z.of_nat i)
  else None.

(** Every function module has the colour of the standard. *)
Definition patterns_match (version : Z) : bool :=
  forallb (fun kv => match kv.2 with Some b => Bool.eqb b (pixel (kv.1 / s) (kv.1 mod s)) | None => true end)
    (map_to_list (standard_map version)).

Definition read_matrix : option string :=
  let version := (s - 17) / 4 in
  if decide (1 <= version <= 40 /\ s = side version) then
    if patterns_match version then
      mask ← read_mask;
      read_stream version (map (fun q => xorb (pixel_at q) (mask_rule mask q.1 q.2)) (data_cells version))
    else None
  else None.
End read.

(** ** The reader of a picture

    The rows of blocks of a terminal back to modules: two modules a block, the
    colour sequences and the quiet zone left out. *)
Definition block_modules (s : string) : option (bool * bool * string) :=
  match strip_prefix blockBoth s with
  | Some s => Some (true, true, s)
  | None => match strip_prefix blockUpper s with
  | Some s => Some (true, false, s)
  | None => match strip_prefix blockLower s with
  | Some s => Some (false, true, s)
  | None => match strip_prefix blockNeither s with
  | Some s => Some (false, false, s)
  | None => None
  end end end end.
(** A line: its upper and its lower modules, and the rest of the picture. *)
Fixpoint scan_blocks (fuel : nat) (s : string) : list (bool * bool) * string :=
  match fuel with
  | O => ([], s)
  | S fuel => match block_modules s with
              | Some (u, l, s) => let r := scan_blocks fuel s in ((u, l) :: r.1, r.2)
              | None => ([], s)
              end
  end.
Definition optional (p s : string) : string := default s (strip_prefix p s).
Definition scan_line (s : string) : option (list (bool * bool) * string) :=
  let r := scan_blocks (String.length s) (optional ansiOn s) in
  rest ← strip_prefix newline (optional ansiOff r.2); Some (r.1, rest).
Fixpoint scan_lines (fuel : nat) (s : string) : option (list (list (bool * bool))) :=
  match fuel, s with
  | _, EmptyString => Some []
  | O, _ => None
  | S fuel, _ => '(l, rest) ← scan_line s; ls ← scan_lines fuel rest; Some (l :: ls)
  end.
Definition picture_pixel (ls : list (list (bool * bool))) (row col : Z) : bool :=
  let line := nth (Z.to_nat ((row + QuietZone) / 2)) ls [] in
  let m := nth (Z.to_nat (col + QuietZone)) line (false, false) in
  if Z.even (row + QuietZone) then m.1 else m.2.
Definition read_picture (s : string) : option string :=
  ls ← scan_lines (String.length s) s;
  read_matrix (Z.of_nat (length (nth 0 ls [])) - 2 * QuietZone) (picture_pixel ls).

(** ** The format field *)
Definition sets (ops : list (Z * Z * bool)) (m : Matrix) : Matrix := foldl (fun m op => set m op.1.1 op.1.2 op.2) m ops.
Definition format_ops (s mask : Z) : list (Z * Z * bool) :=
  let format := bchFormat (Z.lor (Z.shiftl 1 3) mask) in
  flat_map (fun i => map (fun p => (p, Z.land (Z.shiftr format i) 1 =? 1)) (format_cells s i)) (seqZ 0 15).

Lemma set_size m r c v : mx_size (set m r c v) = mx_size m.
Proof. unfold set. by destruct (inside _ _ _). Qed.
Lemma sets_size ops m : mx_size (sets ops m) = mx_size m.
Proof. revert m. induction ops as [|op ops IH]; intros m; [done|]. cbn [sets foldl]. unfold sets in IH. by rewrite IH, set_size. Qed.
Lemma sets_app ops ops' m : sets (ops ++ ops') m = sets ops' (sets ops m).
Proof. apply foldl_app. Qed.

Lemma put_format_sets mask m : put_format mask m = sets (format_ops (mx_size m) mask) m.
Proof.
  unfold put_format, format_ops. cbv zeta. set (f := bchFormat _).
  enough (H : forall l m', mx_size m' = mx_size m ->
    foldl (fun m0 i => foldl (fun m1 p => set m1 p.1 p.2 (Z.land (Z.shiftr f i) 1 =? 1)) m0 (format_cells (mx_size m0) i)) m' l =
    sets (flat_map (fun i => map (fun p => (p, Z.land (Z.shiftr f i) 1 =? 1)) (format_cells (mx_size m) i)) l) m') by by apply H.
  induction l as [|i l IH]; intros m' Hm; [done|]. cbn [foldl flat_map]. rewrite sets_app, Hm.
  assert (Hin : forall ps m1, foldl (fun m1 p => set m1 p.1 p.2 (Z.land (Z.shiftr f i) 1 =? 1)) m1 ps =
    sets (map (fun p => (p, Z.land (Z.shiftr f i) 1 =? 1)) ps) m1).
  { induction ps as [|p ps IHp]; intros m1; [done|]. cbn [foldl map]. rewrite IHp. done. }
  rewrite Hin. apply IH. by rewrite sets_size.
Qed.

(** A matrix with all its modules, and one of them. *)
Definition whole (s : Z) (m : Matrix) : Prop := mx_size m = s /\ length m.(mx_dark) = Z.to_nat (s * s).
Lemma whole_set s m r c v : whole s m -> whole s (set m r c v).
Proof. intros [H1 H2]. unfold set. destruct (inside _ _ _); split; cbn; rewrite ?length_insert; done. Qed.
Lemma Dark_set s m p v q : whole s m -> inside s p.1 p.2 = true -> inside s q.1 q.2 = true ->
  Dark (set m p.1 p.2 v) q.1 q.2 = if decide (p = q) then v else Dark m q.1 q.2.
Proof.
  intros [H1 H2] Hp Hq. unfold Dark. rewrite set_size, H1, Hq. unfold set. rewrite H1, Hp. cbn [mx_dark andb].
  by apply (at_insert s).
Qed.
Lemma sets_spec s ops m : whole s m -> Forall (fun op => inside s op.1.1 op.1.2 = true) ops -> NoDup ops.*1 ->
  whole s (sets ops m) /\ forall q, inside s q.1 q.2 = true ->
    (forall v, (q, v) ∈ ops -> Dark (sets ops m) q.1 q.2 = v) /\ (q ∉ ops.*1 -> Dark (sets ops m) q.1 q.2 = Dark m q.1 q.2).
Proof.
  intros Hm Hops. revert m Hm. induction Hops as [|[p v] ops Hp Hops IH]; intros m Hm Hnd.
  - split; [done|]. intros q _. split; [by intros v ?%elem_of_nil|done].
  - cbn [fmap list_fmap fst] in Hnd. apply NoDup_cons in Hnd as [Hn Hnd]. cbn [fst snd] in Hp.
    destruct (IH (set m p.1 p.2 v) (whole_set _ _ _ _ _ Hm) Hnd) as [I1 I2].
    change (sets ((p, v) :: ops) m) with (sets ops (set m p.1 p.2 v)). split; [done|]. intros q Hq. destruct (I2 q Hq) as [I3 I4]. split.
    + intros w [[= -> ->]|Hw]%elem_of_cons; [|by apply I3]. rewrite I4 by done. by rewrite (Dark_set s), decide_True.
    + cbn [fmap list_fmap fst]. rewrite not_elem_of_cons. intros [Hne Hq']. rewrite I4 by done. by rewrite (Dark_set s), decide_False by done.
Qed.

(** ** What [place] leaves *)
Definition last_ops (s mask : Z) : list (Z * Z * bool) := format_ops s mask ++ [(s - 8, 8, true)].

Definition format_layout_ok (version : Z) : bool :=
  let s := side version in let m := standard_map version in
  let places := flat_map (format_cells s) (seqZ 0 15) in
  bool_decide (NoDup (places ++ [(s - 8, 8)])) &&
  forallb (fun p => inside s p.1 p.2 && bool_decide (m !! index s p = Some None)) places &&
  inside s (s - 8) 8 && bool_decide (m !! index s (s - 8, 8) = Some (Some true)).
Lemma format_layout_all : forallb format_layout_ok (seqZ 1 40) = true.
Proof. vm_compute. reflexivity. Qed.
Definition format_word_ok (mask : Z) : bool :=
  forallb (fun i => Bool.eqb (Z.land (Z.shiftr (bchFormat (Z.lor (Z.shiftl 1 3) mask)) i) 1 =? 1)
    (Z.testbit (nth (Z.to_nat mask) format_words 0) i)) (seqZ 0 15).
Lemma format_words_all : forallb format_word_ok (seqZ 0 8) = true.
Proof. vm_compute. reflexivity. Qed.

Lemma format_ops_places s mask : (format_ops s mask).*1 = flat_map (format_cells s) (seqZ 0 15).
Proof.
  unfold format_ops. cbv zeta. generalize (seqZ 0 15). intros l. induction l as [|i l IH]; [done|]. cbn [flat_map].
  rewrite fmap_app, IH. f_equal.
Qed.

Lemma format_facts version mask : 1 <= version <= 40 -> 0 <= mask < 8 ->
  let s := side version in
  NoDup (last_ops s mask).*1 /\ Forall (fun op => inside s op.1.1 op.1.2 = true) (last_ops s mask) /\
  (forall q b, standard_map version !! index s q = Some (Some b) -> q ∈ (last_ops s mask).*1 -> q = (s - 8, 8) /\ b = true) /\
  (forall q, q ∈ (last_ops s mask).*1 -> is_Some (standard_map version !! index s q)) /\
  (forall i p, 0 <= i < 15 -> p ∈ format_cells s i -> (p, Z.testbit (nth (Z.to_nat mask) format_words 0) i) ∈ last_ops s mask).
Proof.
  intros Hv Hm. cbv zeta. pose proof format_layout_all as H. rewrite forallb_forall in H.
  specialize (H version ltac:(apply list_elem_of_In, elem_of_seqZ; lia)). unfold format_layout_ok in H. cbv zeta in H.
  set (s := side version) in *. set (S := standard_map version) in *.
  apply andb_true_iff in H as [[[H1%bool_decide_eq_true_1 H2]%andb_true_iff H3]%andb_true_iff H4%bool_decide_eq_true_1].
  rewrite forallb_forall in H2.
  assert (Hpl : (last_ops s mask).*1 = flat_map (format_cells s) (seqZ 0 15) ++ [(s - 8, 8)]).
  { unfold last_ops. by rewrite fmap_app, format_ops_places. }
  assert (Hfmt : forall q, q ∈ flat_map (format_cells s) (seqZ 0 15) -> inside s q.1 q.2 = true /\ S !! index s q = Some None).
  { intros q Hq. specialize (H2 q ltac:(by apply list_elem_of_In)). apply andb_true_iff in H2 as [H2 H5%bool_decide_eq_true_1]. done. }
  split_and!.
  - by rewrite Hpl.
  - apply Forall_forall. intros [q b] Hq. apply (list_elem_of_fmap_2 fst) in Hq. cbn [fst] in *. rewrite Hpl in Hq.
    apply elem_of_app in Hq as [Hq|Hq]; [by apply Hfmt|]. apply list_elem_of_singleton in Hq as ->. exact H3.
  - intros q b Hb Hq. rewrite Hpl in Hq. apply elem_of_app in Hq as [Hq|Hq]; [apply Hfmt in Hq as [_ Hq]; by rewrite Hb in Hq|].
    apply list_elem_of_singleton in Hq as ->. split; [done|]. rewrite H4 in Hb. by injection Hb as <-.
  - intros q Hq. rewrite Hpl in Hq. apply elem_of_app in Hq as [Hq|Hq]; [apply Hfmt in Hq as [_ Hq]; by eexists|].
    apply list_elem_of_singleton in Hq as ->. by eexists.
  - intros i p Hi Hp. apply elem_of_app. left. unfold format_ops. cbv zeta. apply list_elem_of_In, in_flat_map. exists i.
    split; [apply list_elem_of_In, elem_of_seqZ; lia|]. apply in_map_iff. exists p. split; [|by apply list_elem_of_In]. f_equal.
    pose proof format_words_all as Hw. rewrite forallb_forall in Hw. specialize (Hw mask ltac:(apply list_elem_of_In, elem_of_seqZ; lia)).
    unfold format_word_ok in Hw. rewrite forallb_forall in Hw. specialize (Hw i ltac:(apply list_elem_of_In, elem_of_seqZ; lia)).
    by apply eqb_prop.
Qed.

Lemma side_odd version : Z.odd (side version) = true.
Proof. unfold side. rewrite Z.odd_add, Z.odd_mul. done. Qed.

Lemma place_spec version stream mask : 1 <= version <= 40 -> 0 <= mask < 8 ->
  let s := side version in let m := place version stream mask in let n := length (data_cells version) in
  whole s m /\
  (forall q b, inside s q.1 q.2 = true -> standard_map version !! index s q = Some (Some b) -> Dark m q.1 q.2 = b) /\
  (forall i p, 0 <= i < 15 -> p ∈ format_cells s i -> Dark m p.1 p.2 = Z.testbit (nth (Z.to_nat mask) format_words 0) i) /\
  map (fun q => xorb (Dark m q.1 q.2) (maskFn mask q.1 q.2)) (data_cells version) = take n (stream ++ replicate n false).
Proof.
  intros Hv Hmask. cbv zeta. destruct (format_facts version mask Hv Hmask) as (F1 & F2 & F3 & F4 & F5). cbv zeta in *.
  set (s := side version) in *. destruct (layout_facts version Hv) as (L1 & L2 & _ & _).
  destruct (skeleton_drawn version ltac:(lia)) as [D1 D2 D3 D4 D5]. fold s in D1, D2, D3, D4, D5.
  assert (Hs : 21 <= s) by (unfold s, side; lia). assert (Hodd : Z.odd s = true) by apply side_odd.
  set (p0 := MkPlacing (mx_dark (sk_matrix (skeleton version))) stream).
  set (fn := sk_functional (skeleton version)) in *.
  set (p := foldl (place_at fn s mask) p0 (data_path s)).
  assert (Hlen : length (pl_dark p0) = Z.to_nat (s * s)) by done.
  assert (Hin : forall q, q ∈ data_path s -> inside s q.1 q.2 = true) by (intros q; apply path_inside; lia).
  assert (Hpath : all_inside s (data_path s)) by by apply Forall_forall.
  assert (Hplace : place version stream mask = sets (last_ops s mask) (MkMatrix s (pl_dark p))).
  { unfold place. cbv zeta. rewrite D1, put_format_sets. fold fn. rewrite strips_path by done. fold p0 p. unfold last_ops. by rewrite sets_app. }
  assert (Hwhole : whole s (MkMatrix s (pl_dark p))) by (split; [done|]; cbn [mx_dark]; unfold p; by rewrite length_placed).
  destruct (sets_spec s (last_ops s mask) _ Hwhole F2 F1) as [S1 S2]. rewrite <- Hplace in S1, S2.
  assert (Hat : forall q, inside s q.1 q.2 = true -> Dark (MkMatrix s (pl_dark p)) q.1 q.2 = at_ s (pl_dark p) q).
  { intros q Hq. unfold Dark, at_. cbn [mx_size mx_dark]. by rewrite Hq. }
  assert (Hfn : forall q, inside s q.1 q.2 = true -> at_ s fn q = bool_decide (is_Some (standard_map version !! index s q))).
  { intros [r c] Hq. unfold at_. cbn [fst snd] in *. rewrite D4 by done. apply bool_decide_ext. rewrite <- !not_eq_None_Some.
    by rewrite L2. }
  split; [done|]. split; [|split].
  - intros q b Hq Hb. destruct (S2 q Hq) as [S3 S4]. destruct (decide (q ∈ (last_ops s mask).*1)) as [Hl|Hl].
    + destruct (F3 q b Hb Hl) as [-> ->]. apply S3. apply elem_of_app. right. by left.
    + rewrite S4, Hat by done. unfold p. rewrite place_other by (try done; right; rewrite Hfn by done; by apply bool_decide_eq_true_2).
      destruct (L1 _ _ Hb) as (b' & Hb' & Heq). rewrite (Heq b eq_refl) in Hb'. unfold at_. cbn [pl_dark p0]. destruct q as [r c].
      cbn [fst snd] in *. rewrite D5 by done. by rewrite Hb'.
  - intros i q Hi Hq. pose proof (F5 i q Hi Hq) as Hop. rewrite Forall_forall in F2. specialize (F2 _ Hop). cbn [fst] in F2.
    by apply (S2 q F2).
  - assert (Hcells : data_cells version = filter (fun q => at_ s fn q = false) (data_path s)).
    { unfold data_cells. apply filter_iff_in. intros q Hq. rewrite Hfn by by apply Hin.
      fold s. rewrite bool_decide_eq_false. apply eq_None_not_Some. }
    pose proof (place_reads fn s mask Hodd Hs (data_path s) p0 Hlen Hpath (path_NoDup s Hodd)) as Hr. cbv zeta in Hr.
    rewrite <- Hcells in Hr. fold p in Hr. cbn [pl_rest p0] in Hr. rewrite <- Hr. rewrite Hcells. apply map_ext_in. intros q Hq%list_elem_of_In. apply list_elem_of_filter in Hq as [Hf Hq].
    destruct (S2 q (Hin q Hq)) as [_ S4]. rewrite S4, Hat; [done|by apply Hin|].
    intros Hl%F4. rewrite Hfn in Hf by by apply Hin. by apply bool_decide_eq_false_1 in Hf.
Qed.

(** ** Reading a matrix *)
Lemma maskFn_rule mask i j : 0 <= mask < 8 -> maskFn mask i j = mask_rule mask i j.
Proof.
  intros Hm. assert (He : forall z, (z mod 2 =? 0) = Z.even z) by (intros z; rewrite Zeven_mod; by destruct (z mod 2) as [|p|p]).
  assert (Hc : mask = 0 \/ mask = 1 \/ mask = 2 \/ mask = 3 \/ mask = 4 \/ mask = 5 \/ mask = 6 \/ mask = 7) by lia.
  destruct Hc as [->|[->|[->|[->|[->|[->|[->| ->]]]]]]]; unfold maskFn; repeat (rewrite decide_False by done); rewrite ?decide_True by done.
  all: cbn -[Z.modulo Z.div Z.even Z.add Z.mul]; rewrite ?He; try done. by rewrite Z.add_comm.
Qed.

Lemma word_found mask : 0 <= mask < 8 ->
  list_find (fun w => word_bits w = word_bits (nth (Z.to_nat mask) format_words 0)) format_words =
  Some (Z.to_nat mask, nth (Z.to_nat mask) format_words 0).
Proof.
  intros Hm. assert (H : forallb (fun mask => bool_decide (list_find (fun w => word_bits w = word_bits (nth (Z.to_nat mask) format_words 0)) format_words =
    Some (Z.to_nat mask, nth (Z.to_nat mask) format_words 0))) (seqZ 0 8) = true) by (vm_compute; reflexivity).
  rewrite forallb_forall in H. specialize (H mask ltac:(apply list_elem_of_In, elem_of_seqZ; lia)). by apply bool_decide_eq_true_1 in H.
Qed.

Lemma copies_in_cells s i : 0 <= i < 15 -> copy_corner i ∈ format_cells s i /\ copy_split s i ∈ format_cells s i.
Proof.
  intros Hi. unfold copy_corner, copy_split, format_cells.
  destruct (Z.ltb_spec i 6), (Z.ltb_spec i 8), (Z.eqb_spec i 8), (Z.ltb_spec i 9); try lia; subst; rewrite !elem_of_cons.
  all: split; repeat (try (left; f_equal; lia); right).
Qed.

Lemma read_mask_spec version stream mask : 1 <= version <= 40 -> 0 <= mask < 8 ->
  read_mask (side version) (Dark (place version stream mask)) = Some mask.
Proof.
  intros Hv Hm. destruct (place_spec version stream mask Hv Hm) as (_ & _ & Hf & _). unfold read_mask.
  assert (Hcopy : forall copy, (forall i, 0 <= i < 15 -> copy i ∈ format_cells (side version) i) ->
    map (fun i => pixel_at (Dark (place version stream mask)) (copy i)) (seqZ 0 15) = word_bits (nth (Z.to_nat mask) format_words 0)).
  { intros copy Hc. unfold word_bits. apply map_ext_in. intros i Hi%list_elem_of_In%elem_of_seqZ. unfold pixel_at. apply Hf; [lia|]. apply Hc. lia. }
  rewrite !Hcopy by (intros i Hi; by apply copies_in_cells). rewrite decide_True by done. rewrite word_found by done.
  cbn [mbind option_bind]. by rewrite Z2Nat.id by lia.
Qed.

Lemma standard_keys version k a : standard_map version !! k = Some a -> 0 <= k < side version * side version.
Proof.
  unfold standard_map. generalize (standard_modules version). intros l. revert k a. induction l as [|[p v] l IH]; intros k a Hk; [done|].
  cbn [foldr] in Hk. unfold on_map at 1 in Hk. cbn [fst snd] in Hk. destruct (inside (side version) p.1 p.2) eqn:Hin; [|by eapply IH].
  apply lookup_insert_Some in Hk as [[<- _]|[_ Hk]]; [|by eapply IH]. apply inside_range in Hin. unfold index. nia.
Qed.

Lemma key_cell version k : 1 <= version -> 0 <= k < side version * side version ->
  inside (side version) (k / side version) (k mod side version) = true /\
  index (side version) (k / side version, k mod side version) = k.
Proof.
  intros Hv Hk. assert (Hs : 0 < side version) by (unfold side; lia). set (s := side version) in *.
  pose proof (Z.div_mod k s ltac:(lia)). pose proof (Z.mod_pos_bound k s Hs). split; [|unfold index; cbn [fst snd]; lia].
  apply inside_range. split; [|lia]. split; [apply Z.div_pos; lia|]. apply Z.div_lt_upper_bound; lia.
Qed.

Lemma data_cells_inside version q : 1 <= version -> q ∈ data_cells version -> inside (side version) q.1 q.2 = true.
Proof. intros Hv Hq. apply list_elem_of_filter in Hq as [_ Hq]. apply path_inside; [unfold side; lia|done]. Qed.

Lemma side_version version : (side version - 17) / 4 = version.
Proof. unfold side. replace (4 * version + 17 - 17) with (version * 4) by lia. apply Z.div_mul. lia. Qed.

Lemma read_place text version mask : 1 <= version <= 40 -> 0 <= mask < 8 -> fits (String.length text) version ->
  read_matrix (side version) (Dark (place version (bitStream text version) mask)) = Some text.
Proof.
  intros Hv Hm Hf. destruct (place_spec version (bitStream text version) mask Hv Hm) as (_ & Hpat & _ & Hdata).
  unfold read_matrix. rewrite side_version, decide_True by (split; [done|]; done).
  assert (Hp : patterns_match (side version) (Dark (place version (bitStream text version) mask)) version = true).
  { apply forallb_forall. intros [k [b|]] Hk; [|done]. apply list_elem_of_In, elem_of_map_to_list in Hk. cbn [fst snd].
    pose proof (standard_keys _ _ _ Hk) as Hr. destruct (key_cell version k ltac:(lia) Hr) as [Hin Hidx].
    pose proof (Hpat (k / side version, k mod side version) b Hin) as Hb. rewrite Hidx in Hb. cbn [fst snd] in Hb.
    rewrite Hb by done. apply eqb_reflx. }
  rewrite Hp, read_mask_spec by done. cbn [mbind option_bind]. cbv zeta in Hdata. unfold pixel_at.
  rewrite (map_ext _ (fun q => xorb (Dark (place version (bitStream text version) mask) q.1 q.2) (maskFn mask q.1 q.2)))
    by (intros q; by rewrite maskFn_rule). rewrite Hdata.
  pose proof (data_cells_room version Hv) as Hroom. pose proof (length_bitStream text version Hv Hf) as Hlen.
  rewrite take_app_ge by lia. by apply read_stream_spec.
Qed.

(** A reader only looks at the modules of the matrix. *)
Lemma read_matrix_ext s pix pix' : (forall r c, 0 <= r < s -> 0 <= c < s -> pix r c = pix' r c) -> read_matrix s pix = read_matrix s pix'.
Proof.
  intros Hext. unfold read_matrix. set (version := (s - 17) / 4). destruct (decide (1 <= version <= 40 /\ s = side version)) as [[Hv Hs]|]; [|done].
  assert (He : forall q, inside s q.1 q.2 = true -> pixel_at pix q = pixel_at pix' q).
  { intros q Hq%inside_range. apply Hext; lia. }
  assert (Hp : patterns_match s pix version = patterns_match s pix' version).
  { unfold patterns_match. assert (Hall : forall kv, kv ∈ map_to_list (standard_map version) -> pix (kv.1 / s) (kv.1 mod s) = pix' (kv.1 / s) (kv.1 mod s)).
    { intros [k a] Hk. apply elem_of_map_to_list in Hk. apply standard_keys in Hk. rewrite Hs. cbn [fst].
      apply (He (k / side version, k mod side version)). rewrite Hs. by apply key_cell; [lia|]. }
    revert Hall. generalize (map_to_list (standard_map version)). induction l as [|kv l IH]; intros Hall; [done|]. cbn [forallb].
    rewrite IH by (intros kv' Hk; apply Hall; by right). rewrite (Hall kv) by by left. done. }
  rewrite Hp. destruct (patterns_match s pix' version); [|done].
  assert (Hm : read_mask s pix = read_mask s pix').
  { destruct (format_facts version 0 Hv ltac:(lia)) as (_ & F & _ & _ & Hc). cbv zeta in *. rewrite <- Hs in F, Hc. rewrite Forall_forall in F.
    assert (Hcopy : forall copy, (forall i, 0 <= i < 15 -> copy i ∈ format_cells s i) ->
      map (fun i => pixel_at pix (copy i)) (seqZ 0 15) = map (fun i => pixel_at pix' (copy i)) (seqZ 0 15)).
    { intros copy Hcp. apply map_ext_in. intros i Hi%list_elem_of_In%elem_of_seqZ. apply He.
      specialize (Hc i (copy i) ltac:(lia) (Hcp i ltac:(lia))). apply F in Hc. exact Hc. }
    unfold read_mask. by rewrite !Hcopy by (intros i Hi; by apply copies_in_cells). }
  rewrite Hm. destruct (read_mask s pix') as [mask|]; [|done]. cbn [mbind option_bind]. f_equal.
  apply map_ext_in. intros q Hq%list_elem_of_In. rewrite He; [done|]. rewrite Hs. apply data_cells_inside; [lia|done].
Qed.

(** ** [Encode] *)
Section best.
Variables (f : Z -> Matrix) (score_of : Matrix -> Z).
Definition pick (acc : option (Matrix * Z)) (mask : Z) : option (Matrix * Z) :=
  match acc with
  | Some (best, bestScore) => if decide (score_of (f mask) < bestScore) then Some (f mask, score_of (f mask)) else acc
  | None => Some (f mask, score_of (f mask))
  end.
Lemma pick_spec masks b0 b score :
  foldl pick (Some (b0, score_of b0)) masks = Some (b, score) ->
  score = score_of b /\ (b = b0 \/ exists mask, mask ∈ masks /\ b = f mask) /\
  score <= score_of b0 /\ (forall mask, mask ∈ masks -> score <= score_of (f mask)).
Proof.
  revert b0. induction masks as [|mask masks IH]; intros b0 Hf; cbn [foldl] in Hf.
  - injection Hf as <- <-. split_and!; [done|by left|lia|by intros m ?%elem_of_nil].
  - cbn [pick] in Hf. case_decide as Hc; apply IH in Hf as (H1 & H2 & H3 & H4).
    all: split_and!; [done| |lia|intros mask' [->|Hin]%elem_of_cons; [lia|by apply H4]].
    + right. destruct H2 as [->|(mask' & Hin & ->)]; [exists mask; split; [by left|done]|exists mask'; split; [by right|done]].
    + destruct H2 as [->|(mask' & Hin & ->)]; [by left|right; exists mask'; split; [by right|done]].
Qed.
Lemma pick_some masks b : exists c, foldl pick (Some b) masks = Some c.
Proof.
  revert b. induction masks as [|mask masks IH]; intros [b s]; [by eexists|]. cbn [foldl pick]. case_decide; apply IH.
Qed.
(** The first of the matrices with the least score. *)
Lemma pick_best n : 0 < n -> exists mask score, 0 <= mask < n /\ foldl pick None (seqZ 0 n) = Some (f mask, score) /\
  forall mask', 0 <= mask' < n -> score_of (f mask) <= score_of (f mask').
Proof.
  intros Hn. rewrite seqZ_cons by done. cbn [foldl pick]. destruct (pick_some (seqZ (Z.succ 0) (Z.pred n)) (f 0, score_of (f 0))) as [[b score] Hb].
  rewrite Hb. apply pick_spec in Hb as (-> & Hfrom & H0 & Hall).
  assert (Hbest : forall mask', 0 <= mask' < n -> score_of b <= score_of (f mask')).
  { intros mask' Hm. destruct (decide (mask' = 0)) as [->|]; [done|]. apply Hall, elem_of_seqZ. lia. }
  destruct Hfrom as [->|(mask & Hmask & ->)]; [exists 0|exists mask; apply elem_of_seqZ in Hmask]; eexists; split_and!; try done; lia.
Qed.
End best.

Lemma Encode_spec text :
  match Encode text with
  | Ok m => exists version mask, 1 <= version <= 40 /\ 0 <= mask < 8 /\ fits (String.length text) version /\
      (forall v, 1 <= v < version -> ~ fits (String.length text) v) /\ m = place version (bitStream text version) mask /\
      forall mask', 0 <= mask' < 8 -> penalty m <= penalty (place version (bitStream text version) mask')
  | Err _ => (2953 < String.length text)%nat
  end.
Proof.
  unfold Encode, pickVersion. destruct (list_find _ _) as [[i v]|] eqn:Hf.
  - apply list_find_Some in Hf as (Hi & Hfit & Hmin). apply lookup_seqZ in Hi as [-> Hi]. cbn [mbind result_bind].
    set (version := minVersion + Z.of_nat i) in *. assert (Hv : 1 <= version <= 40) by (unfold version, minVersion, maxVersion in *; lia).
    set (stream := bitStream text version).
    destruct (pick_best (place version stream) penalty 8 ltac:(lia)) as (mask & score & Hmask & Hb & Hall).
    change (foldl (better version stream) None (seqZ 0 8)) with (foldl (pick (place version stream) penalty) None (seqZ 0 8)).
    rewrite Hb. exists version, mask. split_and!; try done; try lia.
    intros w Hw Hfw. apply (Hmin (Z.to_nat (w - 1)) w); [|unfold version, minVersion in *; lia|exact Hfw].
    apply lookup_seqZ. unfold version, minVersion, maxVersion in *. lia.
  - apply list_find_None in Hf. cbn [mbind result_bind]. rewrite Forall_forall in Hf.
    specialize (Hf 40 ltac:(apply elem_of_seqZ; unfold minVersion, maxVersion; lia)).
    cbv beta in Hf. change (countBits 40) with 16%nat in Hf. change (dataCodewords 40) with 2956 in Hf.
    change (2953 < String.length text)%nat. lia.
Qed.

(** ** Reading a picture *)
Lemma block_modules_block u l s : block_modules (block u l +:+ s) = Some (u, l, s).
Proof. destruct u, l; reflexivity. Qed.
(** What follows the blocks of a line. *)
Definition line_end (color : bool) : string := (if color then ansiOff else EmptyString) +:+ newline.
Lemma text_append_assoc (a b c : string) : (a +:+ b) +:+ c = a +:+ (b +:+ c).
Proof. induction a as [|x a IH]; [done|]. cbv [String.append] in *. fold String.append in *. by rewrite IH. Qed.
Definition concat_strings (l : list string) : string := foldr String.append EmptyString l.
Lemma concat_cons a l s : concat_strings (a :: l) +:+ s = a +:+ (concat_strings l +:+ s).
Proof. apply text_append_assoc. Qed.

Lemma scan_blocks_spec (ps : list (bool * bool)) fuel color rest : (length ps < fuel)%nat ->
  scan_blocks fuel (concat_strings (map (fun p => block p.1 p.2) ps) +:+ (line_end color +:+ rest)) = (ps, line_end color +:+ rest).
Proof.
  revert fuel. induction ps as [|[u l] ps IH]; intros [|fuel] Hf; cbn [length] in Hf; try lia.
  - cbn [map]. change (concat_strings [] +:+ ?s) with s. cbn [scan_blocks]. by destruct color.
  - cbn [map fst snd]. rewrite concat_cons. cbn [scan_blocks]. rewrite block_modules_block. rewrite IH by lia. done.
Qed.

Lemma text_length_app a b : String.length (a +:+ b) = (String.length a + String.length b)%nat.
Proof. induction a as [|x a IH]; [done|]. cbv [String.append] in *. fold String.append in *. cbn [String.length]. by rewrite IH. Qed.
Lemma length_blocks (ps : list (bool * bool)) : (length ps <= String.length (concat_strings (map (fun p => block p.1 p.2) ps)))%nat.
Proof.
  induction ps as [|[u l] ps IH]; [done|]. cbn [map]. change (concat_strings (?a :: ?l)) with (a +:+ concat_strings l).
  rewrite text_length_app. cbn [length fst snd]. assert (1 <= String.length (block u l))%nat by (destruct u, l; cbn; lia). lia.
Qed.

Lemma length_line_end color : (1 <= String.length (line_end color))%nat.
Proof. destruct color; vm_compute; lia. Qed.

Definition line_text (color : bool) (ps : list (bool * bool)) : string :=
  (if color then ansiOn else EmptyString) +:+ concat_strings (map (fun p => block p.1 p.2) ps) +:+ line_end color.
Lemma scan_line_spec color ps rest : ps <> [] -> scan_line (line_text color ps +:+ rest) = Some (ps, rest).
Proof.
  intros Hne. unfold line_text. rewrite !text_append_assoc. unfold scan_line.
  assert (Ho : optional ansiOn ((if color then ansiOn else EmptyString) +:+ (concat_strings (map (fun p => block p.1 p.2) ps) +:+ (line_end color +:+ rest))) =
    concat_strings (map (fun p => block p.1 p.2) ps) +:+ (line_end color +:+ rest)).
  { destruct color; [reflexivity|]. destruct ps as [|[u l] ps]; [done|]. cbn [map fst snd]. rewrite concat_cons.
    change (EmptyString +:+ ?s) with s. by destruct u, l. }
  rewrite Ho. rewrite scan_blocks_spec.
  - cbn [fst snd]. destruct color; reflexivity.
  - pose proof (length_blocks ps). pose proof (length_line_end color). rewrite !text_length_app. lia.
Qed.
Lemma scan_lines_spec color pss fuel : Forall (fun ps => ps <> []) pss ->
  (length pss <= fuel)%nat -> scan_lines fuel (concat_strings (map (line_text color) pss)) = Some pss.
Proof.
  intros Hne. revert fuel. induction Hne as [|ps pss Hps _ IH]; intros fuel Hf; [by destruct fuel|].
  destruct fuel as [|fuel]; [cbn in Hf; lia|]. cbn [map]. change (concat_strings (?a :: ?l)) with (a +:+ concat_strings l).
  pose proof (scan_line_spec color ps (concat_strings (map (line_text color) pss)) Hps) as Hl.
  destruct (line_text color ps +:+ concat_strings (map (line_text color) pss)) eqn:E; [by destruct color|].
  cbn [scan_lines]. rewrite Hl. cbn [mbind option_bind]. rewrite IH by (cbn in Hf; lia). done.
Qed.

(** The modules of a matrix, line by line of its picture. *)
Definition line_modules (m : Matrix) (row : Z) : list (bool * bool) :=
  map (fun col => (Dark m row col, Dark m (row + 1) col)) (seqZ (- QuietZone) (mx_size m + 2 * QuietZone)).
Lemma picture_text m color : picture m color = concat_strings (map (line_text color) (map (line_modules m) (picture_rows (mx_size m)))).
Proof.
  unfold picture. rewrite map_map. unfold concat_strings. f_equal. apply map_ext. intros row.
  unfold picture_line, line_text, line_modules, line_end, concat_strings. by rewrite map_map.
Qed.

Lemma picture_pixel_spec m row col : 0 <= row < mx_size m -> 0 <= col < mx_size m ->
  picture_pixel (map (line_modules m) (picture_rows (mx_size m))) row col = Dark m row col.
Proof.
  intros Hr Hc. unfold picture_pixel, picture_rows. set (i := (row + QuietZone) / 2).
  pose proof (Z.div_mod (row + QuietZone) 2 ltac:(lia)) as Hd. pose proof (Z.mod_pos_bound (row + QuietZone) 2 ltac:(lia)) as Hm. fold i in Hd.
  assert (Hi : 0 <= i < (mx_size m + 2 * QuietZone + 1) / 2).
  { unfold QuietZone in *. split; [lia|]. apply (Z.lt_le_trans _ (i + 1)); [lia|]. apply Z.div_le_lower_bound; lia. }
  assert (Hline : nth (Z.to_nat i) (map (line_modules m) (map (fun i => - QuietZone + 2 * i) (seqZ 0 ((mx_size m + 2 * QuietZone + 1) / 2)))) [] =
    line_modules m (- QuietZone + 2 * i)).
  { rewrite map_map, nth_lookup. change (map ?f ?l) with (f <$> l). rewrite list_lookup_fmap.
    assert (Hs : seqZ 0 ((mx_size m + 2 * QuietZone + 1) / 2) !! Z.to_nat i = Some i) by (apply lookup_seqZ; lia). by rewrite Hs. }
  rewrite Hline. unfold line_modules. rewrite nth_lookup. change (map ?f ?l) with (f <$> l). rewrite list_lookup_fmap.
  assert (Hs : seqZ (- QuietZone) (mx_size m + 2 * QuietZone) !! Z.to_nat (col + QuietZone) = Some col).
  { apply lookup_seqZ. unfold QuietZone in *. lia. }
  rewrite Hs. cbn [fmap option_fmap option_map default from_option id fst snd]. rewrite Zeven_mod.
  destruct (Zeq_bool ((row + QuietZone) mod 2) 0) eqn:E.
  - apply Zeq_bool_eq in E. f_equal. unfold QuietZone in *. lia.
  - apply Zeq_bool_neq in E. f_equal. unfold QuietZone in *. lia.
Qed.

Lemma read_picture_spec m color : 0 < mx_size m -> read_picture (picture m color) = read_matrix (mx_size m) (Dark m).
Proof.
  intros Hs. unfold read_picture. rewrite picture_text.
  set (pss := map (line_modules m) (picture_rows (mx_size m))).
  assert (Hlen : forall row, length (line_modules m row) = Z.to_nat (mx_size m + 2 * QuietZone)).
  { intros row. unfold line_modules. by rewrite length_map, length_seqZ. }
  assert (Hne : Forall (fun ps => ps <> []) pss).
  { apply Forall_map, Forall_forall. intros row _ Hnil. specialize (Hlen row). rewrite Hnil in Hlen. unfold QuietZone in Hlen. cbn in Hlen. lia. }
  rewrite scan_lines_spec; [|done|].
  - cbn [mbind option_bind]. assert (H0 : length (nth 0 pss []) = Z.to_nat (mx_size m + 2 * QuietZone)).
    { unfold pss, picture_rows. rewrite seqZ_cons; [apply Hlen|]. apply Z.div_str_pos. unfold QuietZone. lia. }
    rewrite H0. replace (Z.of_nat (Z.to_nat (mx_size m + 2 * QuietZone)) - 2 * QuietZone) with (mx_size m) by (unfold QuietZone; lia).
    apply read_matrix_ext. intros r c Hr Hc. by apply picture_pixel_spec.
  - clear -Hne. induction Hne as [|ps pss Hps _ IH]; [cbn; lia|]. cbn [map length]. change (concat_strings (?a :: ?l)) with (a +:+ concat_strings l).
    rewrite text_length_app. unfold line_text at 1. rewrite !text_length_app. pose proof (length_line_end color). lia.
Qed.

(** ** The theorems *)

(** C32: every text that fits is readable from its matrix.  [Encode] refuses
    exactly the texts of more than 2953 bytes; for any other it picks the least
    version with room, draws the patterns of the standard, and among the eight
    masks takes one with the least penalty; a reader of the standard, which
    checks every function pattern, both copies of the format field and every
    Reed-Solomon block, takes the text back from the modules. *)
Theorem Encode_readable text :
  match Encode text with
  | Ok m => (String.length text <= 2953)%nat /\
      exists version mask, 1 <= version <= 40 /\ mx_size m = side version /\
        fits (String.length text) version /\ (forall v, 1 <= v < version -> ~ fits (String.length text) v) /\
        read_mask (side version) (Dark m) = Some mask /\
        (forall mask', 0 <= mask' < 8 -> penalty m <= penalty (place version (bitStream text version) mask')) /\
        read_matrix (mx_size m) (Dark m) = Some text
  | Err _ => (2953 < String.length text)%nat
  end.
Proof.
  pose proof (Encode_spec text) as H. destruct (Encode text) as [m|]; [|done].
  destruct H as (version & mask & Hv & Hm & Hf & Hmin & -> & Hpen). split.
  { pose proof (tables_all version Hv) as Ht. unfold tables_ok in Ht. cbv zeta in Ht.
    apply andb_true_iff in Ht as [_ [[_ Ht%Z.leb_le]%andb_true_iff H10%orb_true_iff]%andb_true_iff]. unfold fits, countBits in Hf.
    destruct H10 as [H10%Z.leb_le|H10%Z.leb_le]; case_decide; lia. }
  destruct (place_spec version (bitStream text version) mask Hv Hm) as ([Hs _] & _).
  exists version, mask. split_and!; try done; try lia; [by apply read_mask_spec|]. rewrite Hs. by apply read_place.
Qed.

(** What the installer prints is readable.  Reading the blocks of the
    picture back, with colours or without, gives the text. *)
Theorem Terminal_readable text color :
  match Terminal text color with
  | Ok picture => read_picture picture = Some text
  | Err _ => (2953 < String.length text)%nat
  end.
Proof.
  unfold Terminal. pose proof (Encode_spec text) as H. destruct (Encode text) as [m|]; [|exact H].
  destruct H as (version & mask & Hv & Hm & Hf & _ & -> & _). cbn [mbind result_bind].
  destruct (place_spec version (bitStream text version) mask Hv Hm) as ([Hs _] & _).
  rewrite read_picture_spec; [|rewrite Hs; unfold side; lia]. rewrite Hs. by apply read_place.
Qed.

(** A code of the test vectors of the source. *)
Example encode_razdacha :
  match Encode "razdacha" with
  | Ok m => map (fun r => map (fun c => if Dark m r c then 1 else 0) (seqZ 0 21)) [0; 8; 20]
  | Err _ => []
  end =
  [[1;1;1;1;1;1;1;0;0;0;1;0;1;0;1;1;1;1;1;1;1]; [1;1;1;0;1;1;1;1;1;0;1;0;1;1;1;0;0;0;1;0;0]; [1;1;1;1;1;1;1;0;1;0;0;1;0;1;1;0;1;0;0;1;1]].
Proof. vm_compute. reflexivity. Qed.
