(* ===== verification/Ingress.v ===== *)
(** * Startup authority of the public listeners

    [internal/ingressguard]: the endpoints of a configuration, the manifest
    that authorizes configurations and lists what the barrier covers, the
    checks on the files, and the startup helper that closes the barrier before
    the runtime can bind; [internal/netstack]'s [public_guard.go],
    [public_guard_linux.go] and [guard_linux.go]: the barriers themselves. *)

From Stdlib Require Import Ascii.
From S2P Require Import Prelude GoStd GoJson JsonText SingBox Nft NftExpr.
#[local] Open Scope Z_scope.

(** ** Endpoints *)
Record Endpoint := MkEndpoint { ep_address : string; ep_port : Z }.
#[export] Instance endpoint_eq_dec : EqDecision Endpoint.
Proof. solve_decision. Defined.

Definition maxEndpoints : nat := 64.
Definition Zone (a : Addr) : string := match a with V4 _ => EmptyString | V6 _ z => z end.
Definition IsUnspecified (a : Addr) : bool := bool_decide (a = V4 0 \/ a = V6 0 EmptyString).

(** The canonical form of an endpoint, in the loop of [NormalizeEndpoints]. *)
Definition canonical (e : Endpoint) : result Endpoint :=
  _ ← guard_err (bool_decide (e.(ep_port) = 0)) ErrOther "public ingress port";
  match ParseAddr (if decide (e.(ep_address) = EmptyString) then "::" else e.(ep_address)) with
  | Some a => _ ← guard_err (bool_decide (Zone a <> EmptyString)) ErrOther "public ingress address";
              Ok (MkEndpoint (AddrString (Unmap a)) e.(ep_port))
  | None => fail ErrOther "public ingress address"
  end.

(** [sort.Slice] and [sort.Strings] on lists without duplicates: a total order
    leaves one result. *)
Definition endpoint_le (a b : Endpoint) : Prop :=
  if decide (a.(ep_address) = b.(ep_address)) then a.(ep_port) <= b.(ep_port) else String.le a.(ep_address) b.(ep_address).
#[export] Instance endpoint_le_dec a b : Decision (endpoint_le a b).
Proof. unfold endpoint_le. destruct (decide _); apply _. Defined.

Definition NormalizeEndpoints (l : list Endpoint) : result (list Endpoint) :=
  _ ← guard_err (bool_decide (maxEndpoints < length l)%nat) ErrOther "too many public ingress endpoints";
  l ← mapM canonical l;
  Ok (merge_sort endpoint_le (dedup_from [] l)).

Definition Union (groups : list (list Endpoint)) : result (list Endpoint) := NormalizeEndpoints (concat groups).

(** [covers], on texts that [netip.MustParseAddr] reads. *)
Definition addr_covers (a b : Addr) : bool :=
  if IsUnspecified a then negb (Is4 a) || Is4 b else bool_decide (a = b).
Definition covers (have want : Endpoint) : bool :=
  bool_decide (have.(ep_port) = want.(ep_port)) &&
  match ParseAddr have.(ep_address), ParseAddr want.(ep_address) with
  | Some a, Some b => addr_covers a b
  | _, _ => false
  end.

(** ** Files

    A file system as far as the checks look: what [os.Lstat] says about a
    clean absolute path. *)
Inductive NodeKind := Directory | Regular | Symlink | OtherKind.
#[export] Instance nodekind_eq_dec : EqDecision NodeKind.
Proof. solve_decision. Defined.
Record Node := MkNode { nd_kind : NodeKind; nd_perm : Z; nd_sticky : bool; nd_uid : Z; nd_data : string }.
#[export] Instance node_eq_dec : EqDecision Node.
Proof. solve_decision. Defined.
Definition octal (u g o : Z) : Z := (u * 8 + g) * 8 + o.
Record FS := MkFS { fs_nodes : gmap string Node; fs_euid : Z }.

(** [filepath.IsAbs(path) && filepath.Clean(path) == path], [filepath.Dir] on
    such a path. *)
Definition element_ok (w : string) : bool := bool_decide (w <> EmptyString /\ w <> "."%string /\ w <> ".."%string).
Definition clean_absolute (path : string) : bool :=
  match path with
  | String "/" EmptyString => true
  | String "/" rest => forallb element_ok (Split rest "/")
  | _ => false
  end.
Definition Dir (path : string) : string :=
  match CutLast path "/" with Some (String c d, _) => String c d | _ => "/" end.

(** One round of the loop of [controlledParent]. *)
Definition parent_ok (fs : FS) (private own : bool) (current : string) : result unit :=
  match fs.(fs_nodes) !! current with
  | None => fail ErrNotFound "lstat"
  | Some n =>
      _ ← guard_err (bool_decide (n.(nd_kind) <> Directory)) ErrOther "non-directory or symlink parent";
      _ ← guard_err (own && (bool_decide (n.(nd_uid) <> fs.(fs_euid)) || private && bool_decide (n.(nd_perm) <> octal 7 0 0)))
            ErrOther "directory must be private and owner-controlled";
      guard_err (bool_decide (Z.land n.(nd_perm) (octal 0 2 2) <> 0) && (negb n.(nd_sticky) || bool_decide (n.(nd_uid) <> 0)))
        ErrOther "writable ancestor"
  end.
Fixpoint parents_ok (fuel : nat) (fs : FS) (private : bool) (directory current : string) : option (result unit) :=
  match fuel with
  | O => None
  | S fuel =>
      match parent_ok fs private (bool_decide (current = directory)) current with
      | Err e => Some (Err e)
      | Ok _ => if decide (current = "/"%string) then Some (Ok tt)
                else parents_ok fuel fs private directory (Dir current)
      end
  end.
(** A step to the parent shortens the path, so its length is enough fuel. *)
Definition controlledParent (fs : FS) (path : string) (private : bool) : result unit :=
  _ ← guard_err (negb (clean_absolute path)) ErrOther "paths must be clean and absolute";
  default (fail ErrOther "unreachable") (parents_ok (S (String.length path)) fs private (Dir path) (Dir path)).

Definition private_file (fs : FS) (n : Node) : bool :=
  bool_decide (n.(nd_kind) = Regular) && bool_decide (n.(nd_perm) = octal 6 0 0) && bool_decide (n.(nd_uid) = fs.(fs_euid)).
Definition readControlled (fs : FS) (path : string) (limit : Z) (private : bool) : result string :=
  _ ← controlledParent fs path private;
  match fs.(fs_nodes) !! path with
  | None => fail ErrNotFound "open"
  | Some n =>
      _ ← guard_err (negb (private_file fs n)) ErrOther "file must be private and owner-controlled";
      _ ← guard_err (bool_decide (limit < Z.of_nat (String.length n.(nd_data)))) ErrOther "file exceeds size limit";
      Ok n.(nd_data)
  end.

(** ** Strict JSON *)
(** [uniqueJSON] on the tree of the tokens: no object repeats a key and the
    nesting is at most 64. *)
Fixpoint unique_keys (depth : Z) (v : json) : bool :=
  bool_decide (depth <= 64) &&
  match v with
  | JArr l => forallb (unique_keys (depth + 1)) l
  | JObj l => bool_decide (NoDup (map fst l)) && forallb (fun p => unique_keys (depth + 1) p.2) l
  | _ => true
  end.
Definition uniqueJSON (data : string) : result json :=
  match parse data with
  | Some v => if unique_keys 0 v then Ok v else fail ErrOther "duplicate or invalid JSON object field"
  | None => fail ErrOther "decode"
  end.

(** [json.Unmarshal] into variables that have a value already: [null] leaves
    it, another type is an error. *)
Definition dec_string (v : json) (old : string) : option string :=
  match v with JNull => Some old | JStr s => Some s | _ => None end.
Definition dec_bool (v : json) (old : bool) : option bool :=
  match v with JNull => Some old | JBool b => Some b | _ => None end.
Definition dec_uint16 (v : json) (old : Z) : option Z :=
  match v with JNull => Some old | JNum raw => ParseUint raw 16 | _ => None end.
Definition dec_int (v : json) (old : Z) : option Z :=
  match v with JNull => Some old | JNum raw => Atoi raw | _ => None end.

(** Members are assigned in their order; a key selects a field up to case. *)
Fixpoint dec_members {A} (field : string -> json -> A -> option A) (l : list (string * json)) (a : A) : option A :=
  match l with [] => Some a | (k, v) :: l => a ← field (fold_name k) v a; dec_members field l a end.
Definition dec_struct {A} (field : string -> json -> A -> option A) (v : json) (old : A) : option A :=
  match v with JNull => Some old | JObj l => dec_members field l old | _ => None end.

(** A slice with its capacity: the elements beyond the length stay in place
    and are decoded into when the slice grows again. *)
Record Slice A := MkSlice { sl_slots : list A; sl_length : nat }.
Arguments MkSlice {A}. Arguments sl_slots {A}. Arguments sl_length {A}.
Definition nil_slice {A} : Slice A := MkSlice [] 0.
Definition slice_list {A} (s : Slice A) : list A := take s.(sl_length) s.(sl_slots).
Fixpoint dec_elems {A} (elem : json -> A -> option A) (zero : A) (l : list json) (slots : list A) : option (list A) :=
  match l with
  | [] => Some slots
  | v :: l =>
      a ← elem v (hd zero slots); rest ← dec_elems elem zero l (tl slots); Some (a :: rest)
  end.
Definition dec_slice {A} (elem : json -> A -> option A) (zero : A) (v : json) (old : Slice A) : option (Slice A) :=
  match v with
  | JNull | JArr [] => Some nil_slice
  | JArr l => slots ← dec_elems elem zero l old.(sl_slots); Some (MkSlice slots (length l))
  | _ => None
  end.

(** ** The manifest *)
Record Manifest := MkManifest {
  mf_version : Z; mf_endpoints : list Endpoint; mf_hashes : list string; mf_guarded : bool
}.
#[export] Instance manifest_eq_dec : EqDecision Manifest.
Proof. solve_decision. Defined.

Definition Version : Z := 1.
Definition maxManifestBytes : Z := Z.shiftl 64 10.
Definition maxConfigBytes : Z := Z.shiftl 64 20.

(** [hex.DecodeString] *)
Fixpoint DecodeHex (s : string) : option string :=
  match s with
  | EmptyString => Some EmptyString
  | String a (String b s) =>
      x ← hex_digit a; y ← hex_digit b; rest ← DecodeHex s; Some (String (char (x * 16 + y)) rest)
  | _ => None
  end.
Definition canonical_hash (hash : string) : result string :=
  match DecodeHex hash with
  | Some d => if decide (String.length d = 32%nat) then Ok (EncodeToHex d) else fail ErrOther "configuration hash"
  | None => fail ErrOther "configuration hash"
  end.

Definition normalizeManifest (m : Manifest) : result Manifest :=
  _ ← guard_err (bool_decide (m.(mf_version) <> Version)) ErrOther "manifest version";
  endpoints ← NormalizeEndpoints m.(mf_endpoints);
  let n := length m.(mf_hashes) in
  _ ← guard_err (bool_decide (n = O) || bool_decide (8 < n)%nat) ErrOther "bounded configuration hashes";
  hashes ← mapM canonical_hash m.(mf_hashes);
  Ok (MkManifest m.(mf_version) endpoints (merge_sort String.le (dedup_from [] hashes)) m.(mf_guarded)).

(** What [json.Marshal] writes. *)
Definition endpoint_json (e : Endpoint) : json :=
  JObj [("address", JStr e.(ep_address)); ("port", JNum (Itoa e.(ep_port)))]%string.
Definition manifest_json (m : Manifest) : json :=
  JObj [("version", JNum (Itoa m.(mf_version))); ("endpoints", JArr (map endpoint_json m.(mf_endpoints)));
        ("config_hashes", JArr (map JStr m.(mf_hashes))); ("guarded", JBool m.(mf_guarded))]%string.

(** [Decoder.Decode] with [DisallowUnknownFields]. *)
Definition endpoint_field (k : string) (v : json) (e : Endpoint) : option Endpoint :=
  if decide (k = "address"%string) then a ← dec_string v e.(ep_address); Some (MkEndpoint a e.(ep_port))
  else if decide (k = "port"%string) then p ← dec_uint16 v e.(ep_port); Some (MkEndpoint e.(ep_address) p)
  else None.
Record ManifestVar := MkManifestVar {
  mv_version : Z; mv_endpoints : Slice Endpoint; mv_hashes : Slice string; mv_guarded : bool
}.
Definition manifest_field (k : string) (v : json) (m : ManifestVar) : option ManifestVar :=
  let '(MkManifestVar version endpoints hashes guarded) := m in
  if decide (k = "version"%string) then x ← dec_int v version; Some (MkManifestVar x endpoints hashes guarded)
  else if decide (k = "endpoints"%string) then
    x ← dec_slice (dec_struct endpoint_field) (MkEndpoint EmptyString 0) v endpoints; Some (MkManifestVar version x hashes guarded)
  else if decide (k = "config_hashes"%string) then
    x ← dec_slice dec_string EmptyString v hashes; Some (MkManifestVar version endpoints x guarded)
  else if decide (k = "guarded"%string) then x ← dec_bool v guarded; Some (MkManifestVar version endpoints hashes x)
  else None.
Definition decode_manifest (v : json) : option Manifest :=
  m ← dec_struct manifest_field v (MkManifestVar 0 nil_slice nil_slice false);
  Some (MkManifest m.(mv_version) (slice_list m.(mv_endpoints)) (slice_list m.(mv_hashes)) m.(mv_guarded)).

(** [Read], after the file. *)
Definition parse_manifest (data : string) : result Manifest :=
  v ← uniqueJSON data;
  match v with
  | JObj l =>
      _ ← guard_err (negb (forallb (fun name => bool_decide (is_Some (get_field name l)))
                             ["version"; "endpoints"; "config_hashes"; "guarded"]%string)) ErrOther "manifest has missing fields";
      _ ← guard_err (match get_field "guarded" l with Some (JBool _) => false | _ => true end) ErrOther "guarded marker";
      match decode_manifest v with
      | Some m => normalizeManifest m
      | None => fail ErrOther "decode public ingress manifest"
      end
  | JNull => fail ErrOther "manifest has missing fields"
  | _ => fail ErrOther "manifest must be a JSON object"
  end.
Definition Read (fs : FS) (path : string) : result Manifest :=
  data ← readControlled fs path maxManifestBytes true; parse_manifest data.

(** How far a write gets: it fails before the rename, after it while the
    directory is synced, or it is done. *)
Inductive WriteAnswer := NotWritten | NotSynced | Written.
Definition store_file (fs : FS) (path data : string) : FS :=
  MkFS (<[path := MkNode Regular (octal 6 0 0) false fs.(fs_euid) data]> fs.(fs_nodes)) fs.(fs_euid).
Definition Write (a : WriteAnswer) (fs : FS) (path : string) (m : Manifest) : result unit * FS :=
  match
    (m ← normalizeManifest m;
     _ ← controlledParent fs path true;
     _ ← match fs.(fs_nodes) !! path with
         | Some _ => _ ← readControlled fs path maxManifestBytes true; Ok tt
         | None => Ok tt
         end;
     Ok (encode (manifest_json m)))
  with
  | Err e => (Err e, fs)
  | Ok data =>
      match a with
      | NotWritten => (fail ErrOther "prepare public ingress manifest", fs)
      | NotSynced => (fail ErrOther "sync directory", store_file fs path data)
      | Written => (Ok tt, store_file fs path data)
      end
  end.

(** ** The listeners of a configuration *)
Record Inbound := MkInbound {
  ib_type : string; ib_tag : string; ib_listen : string; ib_port : Z; ib_tls : bool; ib_reality : bool
}.
Definition zero_inbound : Inbound := MkInbound EmptyString EmptyString EmptyString 0 false false.
Definition reality_field (k : string) (v : json) (r : bool) : option bool :=
  if decide (k = "enabled"%string) then dec_bool v r else Some r.
Definition tls_field (k : string) (v : json) (t : bool * bool) : option (bool * bool) :=
  if decide (k = "enabled"%string) then x ← dec_bool v t.1; Some (x, t.2)
  else if decide (k = "reality"%string) then x ← dec_struct reality_field v t.2; Some (t.1, x)
  else Some t.
Definition inbound_field (k : string) (v : json) (i : Inbound) : option Inbound :=
  let '(MkInbound type tag listen port tls reality) := i in
  if decide (k = "type"%string) then x ← dec_string v type; Some (MkInbound x tag listen port tls reality)
  else if decide (k = "tag"%string) then x ← dec_string v tag; Some (MkInbound type x listen port tls reality)
  else if decide (k = "listen"%string) then x ← dec_string v listen; Some (MkInbound type tag x port tls reality)
  else if decide (k = "listen_port"%string) then x ← dec_uint16 v port; Some (MkInbound type tag listen x tls reality)
  else if decide (k = "tls"%string) then x ← dec_struct tls_field v (tls, reality); Some (MkInbound type tag listen port x.1 x.2)
  else Some i.

(** The variable [options]; the map of raw messages keeps its keys sorted. *)
Record ConfigVar := MkConfigVar { cv_inbounds : Slice Inbound; cv_experimental : list (string * json) }.
Definition config_field (k : string) (v : json) (c : ConfigVar) : option ConfigVar :=
  if decide (k = "inbounds"%string) then
    x ← dec_slice (dec_struct inbound_field) zero_inbound v c.(cv_inbounds); Some (MkConfigVar x c.(cv_experimental))
  else if decide (k = "experimental"%string) then
    match v with
    | JNull => Some (MkConfigVar c.(cv_inbounds) [])
    | JObj l => Some (MkConfigVar c.(cv_inbounds) (foldl (fun m p => set_field p.1 p.2 m) c.(cv_experimental) l))
    | _ => None
    end
  else Some c.
Definition decode_config (v : json) : option ConfigVar := dec_struct config_field v (MkConfigVar nil_slice []).

(** [netip.ParseAddrPort] *)
Definition ParseAddrPort (s : string) : option (Addr * Z) :=
  '(ip, port) ← CutLast s ":";
  port ← ParseUint port 16;
  match ip with
  | EmptyString => None
  | String "[" _ =>
      '(ip, last) ← CutLast (String.substring 1 (String.length ip - 1) ip) "]";
      if decide (last = EmptyString) then a ← ParseAddr ip; if Is4 a then None else Some (a, port) else None
  | _ => a ← ParseAddr ip; if Is4 a then Some (a, port) else None
  end.

Definition controller_field (k : string) (v : json) (c : string * string) : option (string * string) :=
  if decide (k = "external_controller"%string) then x ← dec_string v c.1; Some (x, c.2)
  else if decide (k = "listen"%string) then x ← dec_string v c.2; Some (c.1, x)
  else Some c.
Definition private_listener (listener : string) : bool :=
  bool_decide (listener = EmptyString) ||
  match ParseAddrPort listener with
  | Some (a, port) => IsLoopback a && bool_decide (Zone a = EmptyString) && bool_decide (port <> 0)
  | None => false
  end.
Definition private_controller (entry : string * json) : result unit :=
  if decide (entry.1 = "cache_file"%string) then Ok tt
  else if decide (entry.1 = "clash_api" \/ entry.1 = "v2ray_api")%string then
    match dec_struct controller_field entry.2 (EmptyString, EmptyString) with
    | None => fail ErrOther "invalid runtime controller"
    | Some (external, listen) => guard_err (negb (private_listener external && private_listener listen)) ErrOther "controller must be loopback"
    end
  else fail ErrOther "unsupported experimental service".
Definition privateControllers (experimental : list (string * json)) : result unit :=
  _ ← mapM private_controller experimental; Ok tt.

Definition legacyDNSAddress (a : Addr) : bool :=
  match a with
  | V4 ip => bool_decide (ip <> 0) && bool_decide (ip / 2 ^ 28 <> 14) && bool_decide (ip <> 2 ^ 32 - 1)
  | V6 _ _ => false
  end.

(** The body of the loop over the inbounds: the endpoint it appends. *)
Definition inbound_endpoint (i : Inbound) : result (list Endpoint) :=
  let address := ParseAddr i.(ib_listen) in
  if decide (i.(ib_type) = "direct"%string) then
    _ ← guard_err (bool_decide (i.(ib_tag) <> "dns-in"%string) || bool_decide (i.(ib_port) <> 53) ||
                   match address with Some a => negb (legacyDNSAddress a) | None => true end) ErrOther "legacy DNS listener";
    Ok []
  else if decide (i.(ib_type) = "tproxy"%string) then
    _ ← guard_err (bool_decide (i.(ib_tag) <> "tproxy-in"%string) || bool_decide (i.(ib_port) = 0) ||
                   match address with Some a => bool_decide (Zone a <> EmptyString) || negb (IsLoopback a) | None => true end)
          ErrOther "legacy transparent listener";
    Ok []
  else if decide (i.(ib_type) = "vless"%string) then
    _ ← guard_err (negb i.(ib_tls) || negb i.(ib_reality)) ErrOther "public VLESS listener requires REALITY TLS";
    Ok [MkEndpoint i.(ib_listen) i.(ib_port)]
  else fail ErrOther "unsupported inbound listener".

Definition ConfigEndpoints (config : string) : result (list Endpoint) :=
  let n := Z.of_nat (String.length config) in
  _ ← guard_err (bool_decide (n = 0) || bool_decide (maxConfigBytes < n)) ErrOther "configuration size";
  v ← uniqueJSON config;
  match decode_config v with
  | None => fail ErrOther "decode public ingress listeners"
  | Some c =>
      _ ← guard_err (match v with JObj _ => false | _ => true end) ErrOther "configuration must be an object";
      _ ← privateControllers c.(cv_experimental);
      endpoints ← mapM inbound_endpoint (slice_list c.(cv_inbounds));
      NormalizeEndpoints (concat endpoints)
  end.

Section authority.
Context `{Platform}.

Definition HashConfig (config : string) : string := EncodeToHex (Sum256 config).

Definition ValidateConfig (config : string) (m : Manifest) : result unit :=
  m ← normalizeManifest m;
  _ ← guard_err (bool_decide (HashConfig config ∉ m.(mf_hashes))) ErrOther "configuration is not authorized";
  endpoints ← ConfigEndpoints config;
  guard_err (negb (forallb (fun e => existsb (fun allowed => covers allowed e) m.(mf_endpoints)) endpoints))
    ErrOther "listener is outside guard coverage".

Definition startupState (fs : FS) (configPath manifestPath : string) : result (option Manifest) :=
  config ← readControlled fs configPath maxConfigBytes false;
  endpoints ← ConfigEndpoints config;
  match Read fs manifestPath with
  | Err e => if decide (e.(err_kind) = ErrNotFound /\ endpoints = []) then Ok None else Err e
  | Ok m => _ ← ValidateConfig config m; Ok (Some m)
  end.
End authority.

(** ** The barriers in the kernel *)
Inductive GuardHook := HookInput | HookPrerouting.
#[export] Instance guardhook_eq_dec : EqDecision GuardHook.
Proof. solve_decision. Defined.
Record GuardTable := MkGuardTable { gt_hook : GuardHook; gt_priority : Z; gt_rules : list (list expr) }.
Abbreviation tables := (gmap string GuardTable) (only parsing).

Definition PublicClientGuardTable : string := "razdacha_public_guard".
Definition ClientGuardTable : string := "razdacha_guard".

(** [publicGuardRule]; no address means every address of the family. *)
Record publicGuardRule := MkGuardRule { gr_family : Z; gr_address : option Addr; gr_port : Z }.
Definition endpoint_rules (e : Endpoint) : list publicGuardRule :=
  match ParseAddr e.(ep_address) with
  | None => []
  | Some a =>
      if IsUnspecified a then
        MkGuardRule 4 None e.(ep_port) :: (if Is4 a then [] else [MkGuardRule 6 None e.(ep_port)])
      else [MkGuardRule (if Is4 a then 4 else 6) (Some a) e.(ep_port)]
  end.
Definition publicGuardPlan (endpoints : list Endpoint) : result (list publicGuardRule) :=
  endpoints ← NormalizeEndpoints endpoints; Ok (flat_map endpoint_rules endpoints).

(** [Addr.AsSlice] *)
Definition AsSlice (a : Addr) : list Z :=
  match a with
  | V4 ip => be32 ip
  | V6 ip _ => map (fun k => ip / 2 ^ k mod 256) [120; 112; 104; 96; 88; 80; 72; 64; 56; 48; 40; 32; 24; 16; 8; 0]
  end.
Definition publicGuardExpressions (r : publicGuardRule) : list expr :=
  [EMeta NFPROTO 1; ECmp false 1 [if decide (r.(gr_family) = 6) then 10 else 2];
   EMeta L4PROTO 1; ECmp false 1 [6];
   EPayload TransportHeader 2 2 1; ECmp false 1 (be16 r.(gr_port))] ++
  match r.(gr_address) with
  | None => []
  | Some a =>
      [if decide (r.(gr_family) = 6) then EPayload NetworkHeader 24 16 1 else EPayload NetworkHeader 16 4 1;
       ECmp false 1 (AsSlice a)]
  end ++ [EDrop].

(** What netlink answers: a connection, the list of the tables, and whether
    the batch is accepted as a whole. *)
Record NetlinkAnswers := MkNetlink { nl_open : bool; nl_list : bool; nl_flush : bool }.

Definition replace_table (a : NetlinkAnswers) (name : string) (t : option GuardTable) (T : tables) : result unit * tables :=
  if negb a.(nl_open) then (fail ErrOther "open guard connection", T)
  else if negb a.(nl_list) then (fail ErrOther "read guard table", T)
  else if negb a.(nl_flush) then (fail ErrOther "publish guard", T)
  else (Ok tt, match t with Some t => <[name := t]> T | None => delete name T end).

Definition SetPublicClientGuard (a : NetlinkAnswers) (endpoints : list Endpoint) (enabled : bool) (T : tables) : result unit * tables :=
  match publicGuardPlan endpoints with
  | Err e => (Err e, T)
  | Ok rules =>
      replace_table a PublicClientGuardTable
        (if enabled && bool_decide (0 < length rules)%nat
         then Some (MkGuardTable HookInput (-310) (map publicGuardExpressions rules)) else None) T
  end.

(** [SetClientGuard]; the name of the interface fills its 16 bytes. *)
Definition client_guard_rule : list expr :=
  [EMeta IIFNAME 1; ECmp false 1 (take 16 (name_bytes DefaultWGInterface ++ replicate 16 0)); EDrop].
Definition SetClientGuard (a : NetlinkAnswers) (enabled : bool) (T : tables) : result unit * tables :=
  replace_table a ClientGuardTable (if enabled then Some (MkGuardTable HookPrerouting (-310) [client_guard_rule]) else None) T.

(** A packet is dropped at a hook when one of the tables there drops it. *)
Definition table_drops (little : bool) (t : GuardTable) (pk : packet) : bool :=
  match run_compiled little (fun _ => None) [] t.(gt_rules) pk with (Dropped, _) => true | _ => false end.
Definition dropped_at (little : bool) (T : tables) (h : GuardHook) (pk : packet) : bool :=
  existsb (fun t => bool_decide (t.(gt_hook) = h) && table_drops little t pk) (map_to_list T).*2.

(** ** The startup helper *)

(** The lock file beside the manifest. *)
Definition lock_path (manifestPath : string) : string := manifestPath +:+ ".lock".
Definition WithLock (granted : bool) (fs : FS) (manifestPath : string) : result unit * FS :=
  match controlledParent fs manifestPath true with
  | Err e => (Err e, fs)
  | Ok _ =>
      let fs := match fs.(fs_nodes) !! lock_path manifestPath with
                | Some _ => fs | None => store_file fs (lock_path manifestPath) EmptyString end in
      match fs.(fs_nodes) !! lock_path manifestPath with
      | Some n =>
          if negb (private_file fs n) then (fail ErrOther "public ingress lock", fs)
          else if negb granted then (fail ErrOther "acquire public ingress lock", fs)
          else (Ok tt, fs)
      | None => (fail ErrOther "open public ingress lock", fs)
      end
  end.

Record Host := MkHost { ho_fs : FS; ho_tables : tables }.
Record StartupAnswers := MkStartup { sa_lock : bool; sa_write : WriteAnswer; sa_netlink : NetlinkAnswers }.

Section startup.
Context `{Platform}.

Definition Startup (a : StartupAnswers) (configPath manifestPath : string) (h : Host) : result unit * Host :=
  match WithLock a.(sa_lock) h.(ho_fs) manifestPath with
  | (Err e, fs) => (Err e, MkHost fs h.(ho_tables))
  | (Ok _, fs) =>
      match startupState fs configPath manifestPath with
      | Err e => (Err e, MkHost fs h.(ho_tables))
      | Ok None => (Ok tt, MkHost fs h.(ho_tables))
      | Ok (Some m) =>
          match Write a.(sa_write) fs manifestPath (MkManifest m.(mf_version) m.(mf_endpoints) m.(mf_hashes) true) with
          | (Err e, fs) => (Err e, MkHost fs h.(ho_tables))
          | (Ok _, fs) =>
              let '(r, T) := SetPublicClientGuard a.(sa_netlink) m.(mf_endpoints) true h.(ho_tables) in (r, MkHost fs T)
          end
      end
  end.

(** [GuardSavedIngress] of [internal/packaging]: a fresh target has neither
    file. *)
Definition GuardSavedIngress (a : StartupAnswers) (configPath manifestPath : string) (h : Host) : result unit * Host :=
  if negb (clean_absolute configPath && clean_absolute manifestPath) then (fail ErrOther "ingress safety paths", h)
  else if decide (h.(ho_fs).(fs_nodes) !! configPath = None /\ h.(ho_fs).(fs_nodes) !! manifestPath = None) then (Ok tt, h)
  else Startup a configPath manifestPath h.

(** [CheckIngressUninstall]; [readable] is what [os.ReadFile] answers for a
    configuration that exists. *)
Definition CheckIngressUninstall (fs : FS) (readable : bool) (configPath manifestPath : string) : result unit :=
  let refuse := fail ErrOther "disable Reality and Apply before uninstall" in
  let missing r := match r with Err e => bool_decide (e.(err_kind) = ErrNotFound) | Ok _ => false end in
  let manifest := Read fs manifestPath in
  let failed := match manifest with Err e => bool_decide (e.(err_kind) <> ErrNotFound) | Ok _ => false end in
  match fs.(fs_nodes) !! configPath with
  | None => if failed then refuse else if missing manifest then Ok tt else refuse
  | Some n =>
      if negb readable then refuse
      else if failed then refuse
      else match ConfigEndpoints n.(nd_data) with
           | Err _ => refuse
           | Ok endpoints =>
               if negb (bool_decide (endpoints = [])) ||
                  match manifest with Ok m => negb (bool_decide (m.(mf_endpoints) = [])) | Err _ => false end then refuse
               else match manifest with
                    | Ok m => if is_ok (ValidateConfig n.(nd_data) m) then Ok tt else refuse
                    | Err _ => Ok tt
                    end
           end
  end.
End startup.
