(* ===== verification/IngressSpec.v ===== *)
(** * What the startup authority promises

    The barrier drops exactly the TCP packets for its endpoints; the startup
    helper lets the runtime start only behind a barrier that covers every
    public listener of the configuration on disk; a manifest that was written
    is read back. *)

From Stdlib Require Import Ascii.
From S2P Require Import Prelude GoStd Netip GoJson JsonText SingBox Nft NftExpr Ingress.
#[local] Open Scope Z_scope.

(** ** Canonical endpoints *)
Definition endpoint_addr (e : Endpoint) : option Addr :=
  ParseAddr (if decide (e.(ep_address) = EmptyString) then "::" else e.(ep_address)).

(** The address in its text is the canonical one. *)
Definition canonical_endpoint (e : Endpoint) : Prop :=
  exists a, e = MkEndpoint (AddrString a) e.(ep_port) /\ plain_addr a /\ e.(ep_port) <> 0.

Lemma AddrString_nonempty a : plain_addr a -> AddrString a <> EmptyString.
Proof. intros Ha E. pose proof (parse_print a Ha) as H. by rewrite E in H. Qed.

Lemma canonical_Ok e e' : canonical e = Ok e' ->
  exists a, endpoint_addr e = Some a /\ plain_addr (Unmap a) /\ e' = MkEndpoint (AddrString (Unmap a)) e.(ep_port) /\ e.(ep_port) <> 0.
Proof.
  unfold canonical. fold (endpoint_addr e). intros H. inv_result. reflect_bools.
  unfold endpoint_addr in *. destruct (ParseAddr _) as [a|] eqn:Ha; [|done]. inv_result. reflect_bools. simplify_eq.
  exists a. split; [done|]. split; [|done]. apply (Unmap_plain _ _ Ha). destruct a; done.
Qed.

Lemma canonical_endpoint_id e : canonical_endpoint e -> canonical e = Ok e.
Proof.
  intros (a & -> & Ha & Hp). unfold canonical. cbn [ep_address ep_port] in *. rewrite bool_decide_eq_false_2 by done.
  cbn [guard_err mbind result_bind]. rewrite decide_False by (by apply AddrString_nonempty). rewrite parse_print by done.
  rewrite bool_decide_eq_false_2. 2:{ destruct a as [|ip z]; [by intros []|]. cbn in *. naive_solver. }
  cbn [guard_err mbind result_bind]. by rewrite plain_Unmap.
Qed.

Lemma canonical_is_canonical e e' : canonical e = Ok e' -> canonical_endpoint e'.
Proof. intros (a & _ & Ha & -> & Hp)%canonical_Ok. by exists (Unmap a). Qed.

(** ** Normalization *)
#[export] Instance endpoint_le_total : Total endpoint_le.
Proof.
  intros a b. unfold endpoint_le. destruct (decide (a.(ep_address) = b.(ep_address))) as [E|E].
  - rewrite E, decide_True by done. lia.
  - rewrite (decide_False (P := b.(ep_address) = _)) by done. apply total. apply _.
Qed.
#[export] Instance endpoint_le_trans : Transitive endpoint_le.
Proof.
  intros a b c. unfold endpoint_le.
  destruct (decide (a.(ep_address) = b.(ep_address))) as [E1|E1], (decide (b.(ep_address) = c.(ep_address))) as [E2|E2].
  - rewrite decide_True by congruence. lia.
  - rewrite E1. by rewrite decide_False by congruence.
  - rewrite <- E2. rewrite decide_False by done. done.
  - intros H1 H2. destruct (decide _) as [E|E]; [|by etrans].
    exfalso. apply E1. apply (anti_symm String.le); [done|by rewrite E].
Qed.
#[export] Instance endpoint_le_antisymm : AntiSymm (=) endpoint_le.
Proof.
  intros [a p] [b r]. unfold endpoint_le. cbn [ep_address ep_port]. destruct (decide (a = b)) as [->|E].
  - rewrite decide_True by done. intros ? ?. f_equal. lia.
  - rewrite decide_False by done. intros ? ?. exfalso. apply E. by apply (anti_symm String.le).
Qed.

Lemma mapM_Ok {A B} (f : A -> result B) l k : mapM f l = Ok k <-> Forall2 (fun x y => f x = Ok y) l k.
Proof.
  revert k. induction l as [|x l IH]; intros k; cbn [mapM].
  - split; [intros [= <-]; constructor|by inversion 1].
  - split.
    + intros H. inv_result. subst. constructor; [done|by apply IH].
    + inversion 1 as [|? y ? k' Hy Hk]; subst. rewrite Hy. cbn [mbind result_bind]. by rewrite (proj2 (IH _) Hk).
Qed.

Lemma mapM_id {A} (f : A -> result A) l : Forall (fun x => f x = Ok x) l -> mapM f l = Ok l.
Proof. intros H. apply mapM_Ok. by induction H; constructor. Qed.

Lemma dedup_length {A} `{EqDecision A} (seen l : list A) : (length (dedup_from seen l) <= length l)%nat.
Proof.
  revert seen. induction l as [|x l IH]; intros seen; [done|]. cbn [dedup_from].
  destruct (decide _); simpl; [specialize (IH seen)|specialize (IH (x :: seen))]; lia.
Qed.

Lemma NormalizeEndpoints_Ok l k : NormalizeEndpoints l = Ok k ->
  (length k <= maxEndpoints)%nat /\ NoDup k /\ StronglySorted endpoint_le k /\ Forall canonical_endpoint k /\
  forall e, e ∈ k <-> exists e0, e0 ∈ l /\ canonical e0 = Ok e.
Proof.
  unfold NormalizeEndpoints. intros H. inv_result. reflect_bools. rename H0 into Hm. rename x0 into l1. apply mapM_Ok in Hm.
  assert (Hin : forall e, e ∈ merge_sort endpoint_le (dedup_from [] l1) <-> exists e0, e0 ∈ l /\ canonical e0 = Ok e).
  { intros e. rewrite merge_sort_Permutation, elem_of_dedup_from. split.
    - intros [He _]. apply list_elem_of_lookup in He as [i Hi]. destruct (Forall2_lookup_r _ _ _ _ _ Hm Hi) as (e0 & H0 & Hc).
      exists e0. split; [by eapply list_elem_of_lookup_2|done].
    - intros (e0 & He & Hc). apply list_elem_of_lookup in He as [i Hi]. destruct (Forall2_lookup_l _ _ _ _ _ Hm Hi) as (e1 & H1 & Hc1).
      split; [|by apply not_elem_of_nil]. rewrite Hc in Hc1. injection Hc1 as <-. by eapply list_elem_of_lookup_2. }
  split; [|split; [|split; [|split; [|done]]]].
  - rewrite merge_sort_Permutation. apply Nat.le_trans with (length l1).
    + apply dedup_length.
    + rewrite <- (Forall2_length _ _ _ Hm). lia.
  - rewrite merge_sort_Permutation. apply NoDup_dedup_from.
  - apply StronglySorted_merge_sort; apply _.
  - apply Forall_forall. intros e (e0 & _ & He)%Hin. by eapply canonical_is_canonical.
Qed.

Lemma NormalizeEndpoints_id k : (length k <= maxEndpoints)%nat -> NoDup k -> StronglySorted endpoint_le k -> Forall canonical_endpoint k ->
  NormalizeEndpoints k = Ok k.
Proof.
  intros Hl Hd Hs Hc. unfold NormalizeEndpoints. rewrite bool_decide_eq_false_2 by lia. cbn [guard_err mbind result_bind].
  rewrite mapM_id by (eapply Forall_impl; [done|]; intros; by apply canonical_endpoint_id). cbn [mbind result_bind]. f_equal.
  rewrite dedup_from_id by (done || (intros; apply not_elem_of_nil)).
  apply (StronglySorted_unique endpoint_le); [apply StronglySorted_merge_sort; apply _|done|apply merge_sort_Permutation].
Qed.

Lemma NormalizeEndpoints_idemp l k : NormalizeEndpoints l = Ok k -> NormalizeEndpoints k = Ok k.
Proof. intros (H1 & H2 & H3 & H4 & _)%NormalizeEndpoints_Ok. by apply NormalizeEndpoints_id. Qed.

(** ** What a listener accepts *)

(** The destination of a packet, and the addresses a socket bound to [a] takes:
    the IPv6 wildcard is a dual-stack socket. *)
Definition dst_addr (pk : packet) : option Addr :=
  if decide (pk.(pk_family) = 2) then V4 <$> dst_ip pk
  else if decide (pk.(pk_family) = 10) then (fun ip => V6 ip EmptyString) ∘ be_val <$> slice 24 16 pk.(pk_net)
  else None.
Definition takes (a d : Addr) : bool := if IsUnspecified a then negb (Is4 a) || Is4 d else bool_decide (a = d).

(** The packet is TCP for the port and an address of the endpoint. *)
Definition reaches (a : Addr) (port : Z) (pk : packet) : bool :=
  bool_decide (pk.(pk_l4) = 6) && holds (dst_port pk) (fun p => bool_decide (p = port)) && holds (dst_addr pk) (takes a).
Definition reaches_endpoint (e : Endpoint) (pk : packet) : bool :=
  match endpoint_addr e with Some a => reaches (Unmap a) e.(ep_port) pk | None => false end.

(** The headers are made of bytes and have their fixed length. *)
Definition bytes_ok (pk : packet) : Prop :=
  Forall is_byte pk.(pk_net) /\ Forall is_byte pk.(pk_th) /\
  (pk.(pk_family) = 2 -> (20 <= length pk.(pk_net))%nat) /\ (pk.(pk_family) = 10 -> (40 <= length pk.(pk_net))%nat).

Lemma covers_sound have want pk : canonical_endpoint have -> canonical_endpoint want ->
  covers have want = true -> reaches_endpoint want pk = true -> reaches_endpoint have pk = true.
Proof.
  intros (a & -> & Ha & Hp) (b & -> & Hb & Hp'). unfold covers, reaches_endpoint, endpoint_addr. cbn [ep_address ep_port].
  rewrite !decide_False by (by apply AddrString_nonempty). rewrite !parse_print by done. rewrite !plain_Unmap by done.
  intros H. reflect_bools. unfold reaches. intros Hr. reflect_bools.
  match goal with E : ep_port have = _ |- _ => rewrite E end.
  apply andb_true_iff. split; [apply andb_true_iff; split; [by apply bool_decide_eq_true_2|done]|].
  destruct (dst_addr pk) as [d|]; [|done]. cbn [holds] in *. unfold addr_covers, takes in *.
  destruct (IsUnspecified a) eqn:Ea.
  - destruct (IsUnspecified b) eqn:Eb.
    + unfold IsUnspecified in Ea, Eb. reflect_bools. destruct Ea as [-> | ->]; destruct Eb as [-> | ->]; cbn in *; try done; by destruct d.
    + reflect_bools. by subst.
  - reflect_bools. subst b. by rewrite Ea in *.
Qed.

(** ** The expressions of the barrier *)
Lemma be16_slice pk port v : slice 2 2 pk.(pk_th) = Some v -> Forall is_byte pk.(pk_th) -> 0 <= port < 2 ^ 16 ->
  bool_decide (v = be16 port) = bool_decide (be_val v = port).
Proof.
  intros Hs Hb Hp. destruct (slice_spec _ _ _ _ Hs Hb) as [Hl Hv]. apply bool_decide_ext. split; [intros ->; by apply be_val_be16|].
  intros He. apply be_val_inj; [done|done|apply be16_bytes|by rewrite be_val_be16].
Qed.

Lemma AsSlice_val a : plain_addr a -> be_val (AsSlice a) = match a with V4 ip | V6 ip _ => ip end /\ Forall is_byte (AsSlice a) /\
  length (AsSlice a) = (if Is4 a then 4 else 16)%nat.
Proof.
  destruct a as [ip|ip z]; cbn [plain_addr AsSlice Is4].
  - intros H. split; [by apply be_val_be32|]. split; [apply be32_bytes|done].
  - intros (H & _). split; [|split; [|done]].
    + unfold be_val. cbn [map foldl]. Z.to_euclidean_division_equations. lia.
    + apply Forall_forall. intros b Hb. apply list_elem_of_fmap in Hb as (k & -> & _). apply Z.mod_pos_bound. lia.
Qed.

Lemma addr_slice a pk off len v : plain_addr a -> length (AsSlice a) = len -> slice off len pk.(pk_net) = Some v -> Forall is_byte pk.(pk_net) ->
  bool_decide (v = AsSlice a) = bool_decide (be_val v = match a with V4 ip | V6 ip _ => ip end).
Proof.
  intros Ha Hlen Hs Hb. destruct (slice_spec _ _ _ _ Hs Hb) as [Hl Hv]. destruct (AsSlice_val a Ha) as (Hval & Hbytes & _).
  apply bool_decide_ext. split; [by intros ->|]. intros He. apply be_val_inj; [by rewrite Hl|done|done|by rewrite Hval].
Qed.

Definition rule_reaches (r : publicGuardRule) (pk : packet) : bool :=
  bool_decide (pk.(pk_family) = (if decide (r.(gr_family) = 6) then 10 else 2)) && bool_decide (pk.(pk_l4) = 6) &&
  holds (dst_port pk) (fun p => bool_decide (p = r.(gr_port))) &&
  match r.(gr_address) with
  | None => true
  | Some a => holds (be_val <$> (if decide (r.(gr_family) = 6) then slice 24 16 pk.(pk_net) else slice 16 4 pk.(pk_net)))
                (fun ip => bool_decide (ip = match a with V4 x | V6 x _ => x end))
  end.

Definition rule_plain (r : publicGuardRule) : Prop :=
  0 <= r.(gr_port) < 2 ^ 16 /\
  match r.(gr_address) with None => True | Some a => plain_addr a /\ r.(gr_family) = (if Is4 a then 4 else 6) end.

Lemma publicGuardExpressions_exec little r pk regs : rule_plain r -> bytes_ok pk ->
  exec little (fun _ => None) [] (publicGuardExpressions r) regs None pk = (if rule_reaches r pk then Some Dropped else None, pk).
Proof.
  intros [Hport Haddr] (Hn & Ht & _). unfold publicGuardExpressions, rule_reaches. cbn [app exec load_meta].
  rewrite set_reg_eq. cbn [length take xorb].
  assert (Hcmp : forall x y : Z, bool_decide ([x] = [y]) = bool_decide (x = y)) by (intros; apply bool_decide_ext; naive_solver).
  rewrite Hcmp. destruct (bool_decide (pk_family pk = _)); [|done]. cbn [andb]. rewrite set_reg_eq. cbn [take]. rewrite Hcmp.
  destruct (bool_decide (pk_l4 pk = 6)); [|done]. cbn [andb]. unfold dst_port.
  destruct (slice 2 2 pk.(pk_th)) as [v|] eqn:Hs; [|done]. cbn [fmap option_fmap option_map holds]. rewrite set_reg_eq.
  change (length (be16 (gr_port r))) with 2%nat. destruct (slice_spec _ _ _ _ Hs Ht) as [Hl _].
  rewrite take_all by done. rewrite (be16_slice _ _ _ Hs Ht Hport). destruct (bool_decide (be_val v = _)); [|done]. cbn [andb].
  destruct (gr_address r) as [a|]; [|done]. destruct Haddr as [Ha Hf]. cbn [app exec].
  destruct (AsSlice_val a Ha) as (_ & _ & Hlen).
  destruct (decide (gr_family r = 6)) as [E|E]; cbn [exec]; rewrite Hf in E; (destruct (Is4 a); [done || (clear E)|done || (clear E)]).
  - destruct (slice 24 16 pk.(pk_net)) as [w|] eqn:Hw; [|done]. cbn [fmap option_fmap option_map holds]. rewrite set_reg_eq, Hlen.
    destruct (slice_spec _ _ _ _ Hw Hn) as [Hl' _]. rewrite take_all by done. rewrite (addr_slice a pk _ _ _ Ha Hlen Hw Hn).
    by destruct (bool_decide _).
  - destruct (slice 16 4 pk.(pk_net)) as [w|] eqn:Hw; [|done]. cbn [fmap option_fmap option_map holds]. rewrite set_reg_eq, Hlen.
    destruct (slice_spec _ _ _ _ Hw Hn) as [Hl' _]. rewrite take_all by done. rewrite (addr_slice a pk _ _ _ Ha Hlen Hw Hn).
    by destruct (bool_decide _).
Qed.

Lemma run_guard little rules pk : Forall rule_plain rules -> bytes_ok pk ->
  run_compiled little (fun _ => None) [] (map publicGuardExpressions rules) pk =
    (if existsb (fun r => rule_reaches r pk) rules then Dropped else Continue, pk).
Proof.
  intros Hr Hpk. induction Hr as [|r rules Hr Hall IH]; [done|]. cbn [map run_compiled existsb].
  rewrite publicGuardExpressions_exec by done. destruct (rule_reaches r pk); [done|]. by rewrite IH.
Qed.

(** The rules of a canonical endpoint drop what reaches it. *)
Definition port_ok (e : Endpoint) : Prop := 0 <= e.(ep_port) < 2 ^ 16.

Lemma endpoint_rules_plain e : canonical_endpoint e -> port_ok e -> Forall rule_plain (endpoint_rules e).
Proof.
  intros (a & -> & Ha & Hp) Hport. unfold endpoint_rules, port_ok in *. cbn [ep_address ep_port] in *. rewrite parse_print by done.
  destruct (IsUnspecified a); [destruct (Is4 a); repeat constructor; cbn; lia|].
  constructor; [|done]. split; [done|]. split; [done|]. cbn. by destruct (Is4 a).
Qed.

Lemma slice_some off len l : (off + len <= length l)%nat -> is_Some (slice off len l).
Proof. intros H. unfold slice. rewrite decide_True by done. by eexists. Qed.

Lemma dst_addr_family pk : bytes_ok pk ->
  dst_addr pk = if decide (pk.(pk_family) = 2) then V4 <$> dst_ip pk
                else if decide (pk.(pk_family) = 10) then (fun ip => V6 ip EmptyString) <$> (be_val <$> slice 24 16 pk.(pk_net)) else None.
Proof. intros _. unfold dst_addr. destruct (decide _); [done|]. destruct (decide _); [|done]. by destruct (slice _ _ _). Qed.

Lemma holds_fmap {A B} (f : A -> B) (o : option A) p : holds (f <$> o) p = holds o (fun a => p (f a)).
Proof. by destruct o. Qed.
Lemma holds_true {A} (o : option A) : is_Some o -> holds o (fun _ => true) = true.
Proof. by intros [a ->]. Qed.
Lemma holds_ext {A} (o : option A) p p' : (forall a, p a = p' a) -> holds o p = holds o p'.
Proof. intros H. destruct o; [apply H|done]. Qed.
Lemma holds_false {A} (o : option A) : holds o (fun _ => false) = false.
Proof. by destruct o. Qed.

(** The destination as a rule sees it. *)
Lemma dst_wildcard pk : bytes_ok pk ->
  holds (dst_addr pk) (fun d => Is4 d) = bool_decide (pk.(pk_family) = 2) /\
  holds (dst_addr pk) (fun _ => true) = bool_decide (pk.(pk_family) = 2) || bool_decide (pk.(pk_family) = 10).
Proof.
  intros Hb. rewrite dst_addr_family by done. destruct Hb as (_ & _ & H4 & H6).
  destruct (decide (pk.(pk_family) = 2)) as [E|E].
  - rewrite bool_decide_eq_true_2 by done. rewrite !holds_fmap. unfold dst_ip. rewrite !holds_fmap.
    split; apply holds_true, slice_some; specialize (H4 E); lia.
  - rewrite bool_decide_eq_false_2 by done. cbn [orb]. destruct (decide (pk.(pk_family) = 10)) as [E'|E'].
    + rewrite bool_decide_eq_true_2 by done. rewrite !holds_fmap. cbn [Is4]. split; [apply holds_false|].
      apply holds_true, slice_some. specialize (H6 E'). lia.
    + by rewrite bool_decide_eq_false_2.
Qed.

Lemma dst_exact pk a : bytes_ok pk -> plain_addr a ->
  holds (dst_addr pk) (fun d => bool_decide (a = d)) =
  bool_decide (pk.(pk_family) = (if Is4 a then 2 else 10)) &&
  holds (be_val <$> (if Is4 a then slice 16 4 pk.(pk_net) else slice 24 16 pk.(pk_net)))
    (fun ip => bool_decide (ip = match a with V4 x | V6 x _ => x end)).
Proof.
  intros Hb Ha. rewrite dst_addr_family by done. destruct (decide (pk.(pk_family) = 2)) as [E|E].
  - rewrite holds_fmap. unfold dst_ip. destruct a as [x|x z]; cbn [Is4].
    + rewrite bool_decide_eq_true_2 by done. apply holds_ext. intros ip. apply bool_decide_ext. naive_solver.
    + rewrite (bool_decide_eq_false_2 (_ = 10)) by lia. cbn [andb]. rewrite <- (holds_false (be_val <$> slice 16 4 pk.(pk_net))).
      by apply holds_ext.
  - destruct (decide (pk.(pk_family) = 10)) as [E'|E'].
    + rewrite holds_fmap. destruct a as [x|x z]; cbn [Is4].
      * rewrite (bool_decide_eq_false_2 (_ = 2)) by done. cbn [andb]. rewrite <- (holds_false (be_val <$> slice 24 16 pk.(pk_net))).
        by apply holds_ext.
      * rewrite bool_decide_eq_true_2 by done. cbn in Ha. destruct Ha as (_ & -> & _). apply holds_ext. intros ip. apply bool_decide_ext. naive_solver.
    + cbn [holds]. destruct a; cbn [Is4]; by rewrite bool_decide_eq_false_2.
Qed.

Lemma endpoint_rules_reach e pk : canonical_endpoint e -> bytes_ok pk ->
  existsb (fun r => rule_reaches r pk) (endpoint_rules e) = reaches_endpoint e pk.
Proof.
  intros (a & -> & Ha & Hp) Hb. unfold endpoint_rules, reaches_endpoint, endpoint_addr. cbn [ep_address ep_port].
  rewrite decide_False by (by apply AddrString_nonempty). rewrite parse_print, plain_Unmap by done. unfold reaches, takes.
  destruct (dst_wildcard pk Hb) as [H4 H6]. pose proof (dst_exact pk a Hb Ha) as Hex.
  set (tcp := bool_decide (pk_l4 pk = 6)). set (port := holds (dst_port pk) _).
  destruct (IsUnspecified a).
  - destruct (Is4 a); cbn [existsb negb orb]; unfold rule_reaches; cbn [gr_family gr_address gr_port]; fold tcp port.
    + rewrite H4. rewrite decide_False by done. by destruct tcp, port, (bool_decide _).
    + rewrite H6. rewrite decide_False by done. rewrite decide_True by done.
      by destruct tcp, port, (bool_decide _), (bool_decide _).
  - cbn [existsb]. unfold rule_reaches. cbn [gr_family gr_address gr_port]. fold tcp port. rewrite Hex. rewrite orb_false_r.
    destruct (Is4 a); [rewrite !decide_False by done|rewrite !decide_True by done];
      destruct tcp, port; by rewrite ?andb_true_r, ?andb_false_r.
Qed.

(** ** The barrier as a whole *)
Lemma canonical_reaches e e' pk : canonical e = Ok e' -> reaches_endpoint e' pk = reaches_endpoint e pk.
Proof.
  intros (a & Ha & Hp & -> & Hport)%canonical_Ok. unfold reaches_endpoint. rewrite Ha. unfold endpoint_addr. cbn [ep_address ep_port].
  rewrite decide_False by (by apply AddrString_nonempty). rewrite parse_print by done. by rewrite plain_Unmap.
Qed.

Lemma existsb_elem {A} (p : A -> bool) l : existsb p l = true <-> exists x, x ∈ l /\ p x = true.
Proof. rewrite existsb_exists. by setoid_rewrite list_elem_of_In. Qed.

Lemma existsb_same {A B} (p : A -> bool) (p' : B -> bool) l l' :
  (forall x, x ∈ l -> p x = true -> exists y, y ∈ l' /\ p' y = true) ->
  (forall y, y ∈ l' -> p' y = true -> exists x, x ∈ l /\ p x = true) -> existsb p l = existsb p' l'.
Proof. intros H1 H2. apply eq_bool_prop_intro; rewrite !Is_true_true, !existsb_elem; naive_solver. Qed.

Lemma Normalize_reaches l k pk : NormalizeEndpoints l = Ok k ->
  existsb (fun e => reaches_endpoint e pk) k = existsb (fun e => reaches_endpoint e pk) l.
Proof.
  intros H. assert (Hn := H). unfold NormalizeEndpoints in Hn. inv_result. rename x0 into l1. apply NormalizeEndpoints_Ok in H as (_ & _ & _ & _ & Hin).
  apply mapM_Ok in H1. apply existsb_same.
  - intros e He Hr. apply Hin in He as (e0 & He0 & Hc). exists e0. split; [done|]. by rewrite <- (canonical_reaches _ _ _ Hc).
  - intros e0 He0 Hr. apply list_elem_of_lookup in He0 as [i Hi]. destruct (Forall2_lookup_l _ _ _ _ _ H1 Hi) as (e & _ & Hc).
    exists e. split; [apply Hin; exists e0; split; [by eapply list_elem_of_lookup_2|done]|]. by rewrite (canonical_reaches _ _ _ Hc).
Qed.

Lemma Normalize_ports l k : NormalizeEndpoints l = Ok k -> Forall port_ok l -> Forall port_ok k.
Proof.
  intros (_ & _ & _ & _ & Hin)%NormalizeEndpoints_Ok Hl. apply Forall_forall. intros e (e0 & He0 & Hc)%Hin.
  rewrite Forall_forall in Hl. apply canonical_Ok in Hc as (a & _ & _ & -> & _). exact (Hl _ He0).
Qed.

Lemma plan_reaches es rules pk : publicGuardPlan es = Ok rules -> Forall port_ok es -> bytes_ok pk ->
  Forall rule_plain rules /\ existsb (fun r => rule_reaches r pk) rules = existsb (fun e => reaches_endpoint e pk) es.
Proof.
  unfold publicGuardPlan. intros (k & Hk & H)%result_bind_Ok Hp Hb. injection H as <-.
  pose proof (Normalize_ports _ _ Hk Hp) as Hpk. rewrite <- (Normalize_reaches _ _ pk Hk).
  apply NormalizeEndpoints_Ok in Hk as (_ & _ & _ & Hc & _). clear Hp.
  induction k as [|e k IH]; [done|]. apply Forall_cons in Hc as [Hce Hc]. apply Forall_cons in Hpk as [Hpe Hpk].
  destruct (IH Hc Hpk) as [Hr He]. cbn [flat_map existsb]. rewrite existsb_app, He, endpoint_rules_reach by done.
  split; [|done]. apply Forall_app. split; [by apply endpoint_rules_plain|done].
Qed.

Lemma barrier_closed a es T T' little pk : Forall port_ok es -> bytes_ok pk ->
  SetPublicClientGuard a es true T = (Ok tt, T') ->
  match T' !! PublicClientGuardTable with
  | Some t => t.(gt_hook) = HookInput /\ table_drops little t pk = existsb (fun e => reaches_endpoint e pk) es
  | None => existsb (fun e => reaches_endpoint e pk) es = false
  end /\
  forall name, name <> PublicClientGuardTable -> T' !! name = T !! name.
Proof.
  intros Hp Hb. unfold SetPublicClientGuard. destruct (publicGuardPlan es) as [rules|] eqn:Hplan; [|done].
  destruct (plan_reaches _ _ pk Hplan Hp Hb) as [Hr He]. unfold replace_table.
  destruct (nl_open a), (nl_list a), (nl_flush a); cbn [negb]; try done. intros [= <-]. cbn [andb].
  destruct (bool_decide (0 < length rules)%nat) eqn:El; cbn [andb].
  - split; [|intros name Hn; by rewrite lookup_insert_ne]. rewrite lookup_insert_eq. split; [done|].
    unfold table_drops. cbn [gt_rules]. rewrite run_guard by done. rewrite <- He. by destruct (existsb _ _).
  - split; [|intros name Hn; by rewrite lookup_delete_ne]. rewrite lookup_delete_eq. rewrite <- He.
    apply bool_decide_eq_false_1 in El. by destruct rules; [|simpl in El; lia].
Qed.

Lemma dropped_table little T name t hook pk : T !! name = Some t -> t.(gt_hook) = hook -> table_drops little t pk = true ->
  dropped_at little T hook pk = true.
Proof.
  intros Ht Hh Hd. unfold dropped_at. apply existsb_elem. exists t. split.
  - apply list_elem_of_fmap. exists (name, t). split; [done|]. by apply elem_of_map_to_list.
  - rewrite Hd, Hh. by rewrite bool_decide_eq_true_2.
Qed.

Lemma barrier_drops a es T T' little pk e : Forall port_ok es -> bytes_ok pk -> SetPublicClientGuard a es true T = (Ok tt, T') ->
  e ∈ es -> reaches_endpoint e pk = true -> dropped_at little T' HookInput pk = true.
Proof.
  intros Hp Hb Hs He Hr. destruct (barrier_closed _ _ _ _ little pk Hp Hb Hs) as [Ht _].
  assert (Hx : existsb (fun e => reaches_endpoint e pk) es = true) by (apply existsb_elem; by exists e).
  rewrite Hx in Ht. destruct (T' !! PublicClientGuardTable) as [t|] eqn:E; [|done]. destruct Ht as [Hh Hd]. by eapply dropped_table.
Qed.

Lemma SetPublicClientGuard_other a es on T r T' : SetPublicClientGuard a es on T = (r, T') ->
  (r <> Ok tt -> T' = T) /\ forall name, name <> PublicClientGuardTable -> T' !! name = T !! name.
Proof.
  unfold SetPublicClientGuard, replace_table. destruct (publicGuardPlan es) as [rules|e]; [|by intros [= <- <-]].
  destruct (negb _); [by intros [= <- <-]|]. destruct (negb _); [by intros [= <- <-]|]. destruct (negb _); [by intros [= <- <-]|].
  intros [= <- <-]. split; [done|]. intros name Hn. destruct (_ && _); [by rewrite lookup_insert_ne|by rewrite lookup_delete_ne].
Qed.

(** ** Ports that were decoded *)
Section decoding.
Context {A : Type} (P : A -> Prop) (field : string -> json -> A -> option A).
Hypothesis keeps : forall k v a a', field k v a = Some a' -> P a -> P a'.

Lemma dec_struct_keeps v a a' : dec_struct field v a = Some a' -> P a -> P a'.
Proof using keeps.
  destruct v as [| | | | |l]; cbn [dec_struct]; try done; [by intros [= <-]|]. revert a.
  induction l as [|[k v] l IH]; intros a H Ha; [by injection H as <-|]. cbn [dec_members] in H.
  apply bind_Some in H as (b & Hb & H). apply (IH _ H). by eapply keeps.
Qed.
End decoding.

Lemma dec_slice_keeps {A} (P : A -> Prop) elem zero v s s' :
  (forall v a a', elem v a = Some a' -> P a -> P a') -> P zero ->
  dec_slice elem zero v s = Some s' -> Forall P s.(sl_slots) -> Forall P s'.(sl_slots).
Proof.
  intros Hk Hz H Hs. assert (Hgen : forall l slots slots', dec_elems elem zero l slots = Some slots' -> Forall P slots -> Forall P slots').
  { clear - Hk Hz. induction l as [|v l IH]; intros slots slots' H Hs; cbn [dec_elems] in H; [by injection H as <-|].
    apply bind_Some in H as (a & Ha & H). apply bind_Some in H as (rest & Hr & H). injection H as <-. constructor.
    - apply (Hk _ _ _ Ha). destruct Hs; [done|done].
    - apply (IH _ _ Hr). by destruct Hs. }
  destruct v as [| | | |l|]; cbn [dec_slice] in H; try done; [by injection H as <-; constructor|].
  destruct l as [|v l]; [by injection H as <-; constructor|]. apply bind_Some in H as (slots & Hd & H). injection H as <-.
  exact (Hgen _ _ _ Hd Hs).
Qed.

Lemma ParseUint_range s bits v : ParseUint s bits = Some v -> v < 2 ^ bits.
Proof. unfold ParseUint. destruct (all_bytes _ _); [|done]. intros (z & _ & H)%bind_Some. case_decide; [by injection H as <-|done]. Qed.

Lemma ParseUint_nonneg s bits v : ParseUint s bits = Some v -> 0 <= v.
Proof.
  unfold ParseUint. destruct (all_bytes _ s) eqn:Hall; [|done]. intros (z & Hz & H)%bind_Some. case_decide; [|done]. injection H as <-.
  destruct s as [|c s]; [done|]. cbn [all_bytes] in Hall. reflect_bools.
  destruct (ascii_dec c "-") as [->|Hc]; [done|].
  assert (Hu : option_map Z.of_int (option_map Decimal.Pos (DecimalString.NilZero.uint_of_string (String c s))) = Some z).
  { destruct c as [[] [] [] [] [] [] [] []]; try done; by destruct Hc. }
  destruct (DecimalString.NilZero.uint_of_string (String c s)) as [u|]; [|done]. injection Hu as <-. change (0 <= Z.of_N (Pos.of_uint u)). lia.
Qed.

Lemma dec_uint16_range v old p : dec_uint16 v old = Some p -> 0 <= old < 2 ^ 16 -> 0 <= p < 2 ^ 16.
Proof.
  destruct v; cbn [dec_uint16]; try done; [by intros [= <-]|]. intros H _. split; [by eapply ParseUint_nonneg|by eapply ParseUint_range].
Qed.

Lemma endpoint_field_port k v e e' : endpoint_field k v e = Some e' -> port_ok e -> port_ok e'.
Proof.
  unfold endpoint_field, port_ok. intros H Hp. repeat case_decide; [..|done]; apply bind_Some in H as (x & Hx & [= <-]); [done|].
  by eapply dec_uint16_range.
Qed.

Lemma zero_port_ok : port_ok (MkEndpoint EmptyString 0).
Proof. done. Qed.

Lemma Forall_slice {A} (P : A -> Prop) s : Forall P s.(sl_slots) -> Forall P (slice_list s).
Proof. apply Forall_take. Qed.

Lemma decode_manifest_ports v m : decode_manifest v = Some m -> Forall port_ok m.(mf_endpoints).
Proof.
  unfold decode_manifest. intros (x & Hx & [= <-])%bind_Some. cbn [mf_endpoints]. apply Forall_slice.
  apply (dec_struct_keeps (fun x => Forall port_ok x.(mv_endpoints).(sl_slots)) _) in Hx; [done| |by constructor]. clear.
  intros k v [ve es hs g] m' H Hp. unfold manifest_field in H. cbn [mv_endpoints] in *.
  repeat case_decide; try done; apply bind_Some in H as (y & Hy & [= <-]); cbn [mv_endpoints]; try done.
  revert Hy Hp. apply dec_slice_keeps; [|done]. intros v' a a'. apply dec_struct_keeps. by apply endpoint_field_port.
Qed.

(** ** Hashes *)
Lemma byte_of_char b : 0 <= b < 256 -> byte_of (char b) = b.
Proof. intros Hb. unfold byte_of, char. rewrite N_ascii_embedding by lia. lia. Qed.
Lemma byte_of_bounds c : 0 <= byte_of c < 256.
Proof. unfold byte_of. pose proof (N_ascii_bounded c). lia. Qed.

Lemma Encode_length s : String.length (EncodeToHex s) = (2 * String.length s)%nat.
Proof. induction s as [|c s IH]; [done|]. cbn [EncodeToHex String.length]. rewrite IH. lia. Qed.

Lemma DecodeHex_Encode s : DecodeHex (EncodeToHex s) = Some s.
Proof.
  induction s as [|c s IH]; [done|]. cbn [EncodeToHex DecodeHex]. pose proof (byte_of_bounds c).
  rewrite !hex_digit_char by (Z.to_euclidean_division_equations; lia). cbn [mbind option_bind]. rewrite IH. cbn [mbind option_bind].
  do 2 f_equal. unfold char.
  replace (byte_of c / 16 * 16 + byte_of c mod 16) with (byte_of c) by (Z.to_euclidean_division_equations; lia).
  unfold byte_of. rewrite N2Z.id. apply ascii_N_embedding.
Qed.

Definition canonical_digest (h : string) : Prop := exists d, String.length d = 32%nat /\ h = EncodeToHex d.
Lemma canonical_hash_Ok h h' : canonical_hash h = Ok h' -> canonical_digest h'.
Proof. unfold canonical_hash. destruct (DecodeHex h) as [d|]; [|done]. case_decide; [|done]. intros [= <-]. by exists d. Qed.
Lemma canonical_hash_id h : canonical_digest h -> canonical_hash h = Ok h.
Proof. intros (d & Hl & ->). unfold canonical_hash. rewrite DecodeHex_Encode. by rewrite decide_True. Qed.

(** ** Normalized manifests *)
Record manifest_ok (m : Manifest) : Prop := {
  mo_version : m.(mf_version) = Version;
  mo_endpoints : NormalizeEndpoints m.(mf_endpoints) = Ok m.(mf_endpoints);
  mo_count : (0 < length m.(mf_hashes) <= 8)%nat;
  mo_sorted : StronglySorted String.le m.(mf_hashes);
  mo_distinct : NoDup m.(mf_hashes);
  mo_hashes : Forall canonical_digest m.(mf_hashes)
}.

Lemma normalizeManifest_Ok m m' : normalizeManifest m = Ok m' ->
  manifest_ok m' /\ NormalizeEndpoints m.(mf_endpoints) = Ok m'.(mf_endpoints) /\ m'.(mf_guarded) = m.(mf_guarded) /\
  (forall h, h ∈ m'.(mf_hashes) <-> exists h0, h0 ∈ m.(mf_hashes) /\ canonical_hash h0 = Ok h).
Proof.
  unfold normalizeManifest. intros ([] & Hv%guard_err_Ok & H)%result_bind_Ok. apply result_bind_Ok in H as (es & Hes & H).
  apply result_bind_Ok in H as ([] & Hn%guard_err_Ok & H). apply result_bind_Ok in H as (hs & Hhs%mapM_Ok & [= <-]). reflect_bools.
  pose proof (Forall2_length _ _ _ Hhs) as Hlen.
  assert (Hin : forall h, h ∈ merge_sort String.le (dedup_from [] hs) <-> exists h0, h0 ∈ m.(mf_hashes) /\ canonical_hash h0 = Ok h).
  { intros h. rewrite merge_sort_Permutation, elem_of_dedup_from. split.
    - intros [Hh _]. apply list_elem_of_lookup in Hh as [i Hi]. destruct (Forall2_lookup_r _ _ _ _ _ Hhs Hi) as (h0 & Hl0 & Hc).
      exists h0. split; [by eapply list_elem_of_lookup_2|done].
    - intros (h0 & Hh & Hc). split; [|apply not_elem_of_nil]. apply list_elem_of_lookup in Hh as [i Hi].
      destruct (Forall2_lookup_l _ _ _ _ _ Hhs Hi) as (h1 & Hl1 & Hc1). rewrite Hc in Hc1. injection Hc1 as <-. by eapply list_elem_of_lookup_2. }
  split; [|done]. constructor; cbn [mf_version mf_endpoints mf_hashes].
  - done.
  - by eapply NormalizeEndpoints_idemp.
  - rewrite merge_sort_Permutation. split.
    + destruct hs as [|h hs]; [by rewrite Hlen in *|]. cbn. rewrite decide_False by apply not_elem_of_nil. simpl. lia.
    + assert (Hd : (length (dedup_from [] hs) <= length hs)%nat); [|lia]. apply dedup_length.
  - apply StronglySorted_merge_sort; apply _.
  - rewrite merge_sort_Permutation. apply NoDup_dedup_from.
  - apply Forall_forall. intros h (h0 & _ & Hc)%Hin. by eapply canonical_hash_Ok.
Qed.

Lemma normalizeManifest_id m : manifest_ok m -> normalizeManifest m = Ok m.
Proof.
  intros [Hv He [Hn1 Hn2] Hs Hd Hh]. unfold normalizeManifest. rewrite (bool_decide_eq_false_2 (mf_version m <> Version)) by (intros Hne; by apply Hne). cbn [guard_err mbind result_bind].
  rewrite He. cbn [mbind result_bind]. rewrite (bool_decide_eq_false_2 (_ = O)), (bool_decide_eq_false_2 (8 < _)%nat) by lia. cbn [orb guard_err mbind result_bind].
  rewrite mapM_id by (eapply Forall_impl; [done|]; intros; by apply canonical_hash_id). cbn [mbind result_bind].
  rewrite dedup_from_id by (done || (intros; apply not_elem_of_nil)).
  rewrite (StronglySorted_unique String.le (merge_sort String.le m.(mf_hashes)) m.(mf_hashes));
    [by destruct m|apply StronglySorted_merge_sort; apply _|done|apply merge_sort_Permutation].
Qed.

Lemma parse_manifest_Ok data m : parse_manifest data = Ok m -> manifest_ok m /\ Forall port_ok m.(mf_endpoints).
Proof.
  unfold parse_manifest. intros (v & _ & H)%result_bind_Ok. destruct v as [| | | | |l]; try done.
  apply result_bind_Ok in H as ([] & _ & H). apply result_bind_Ok in H as ([] & _ & H).
  destruct (decode_manifest _) as [m0|] eqn:Hd; [|done]. apply decode_manifest_ports in Hd.
  apply normalizeManifest_Ok in H as (Hok & He & _). split; [done|]. by eapply Normalize_ports.
Qed.

(** ** Writing a manifest and reading it back *)
Lemma port_text p : 0 <= p < 2 ^ 16 ->
  plain_number (Itoa p) = true /\ (String.length (Itoa p) <= 16)%nat /\ ParseUint (Itoa p) 16 = Some p.
Proof. intros Hp. split; [apply Itoa_number; lia|]. split; [by apply Itoa_length; [|lia]|by apply ParseUint_Itoa]. Qed.

Lemma all_bytes_ascii (p : Z -> bool) (P : ascii -> Prop) s : (forall c, P c -> p (byte_of c) = true) -> all_ascii P s -> all_bytes p s = true.
Proof. intros H. induction s as [|c s IH]; [done|]. intros [Hc Hs]. cbn [all_bytes]. by rewrite (H c Hc), (IH Hs). Qed.

Lemma all_bytes_append p a b : all_bytes p (a +:+ b) = all_bytes p a && all_bytes p b.
Proof. induction a as [|c a IH]; [done|]. rewrite append_cons. cbn [all_bytes]. by rewrite IH, andb_assoc. Qed.

Lemma hex_digit_safe c : is_Some (hex_digit c) -> html_safe (byte_of c) = true.
Proof. destruct c as [[] [] [] [] [] [] [] []]; cbn; intros [x Hx]; (discriminate Hx || reflexivity). Qed.

Lemma hex_or_colon_safe c : hex_or_colon c -> html_safe (byte_of c) = true.
Proof. intros [->|H]; [done|by apply hex_digit_safe]. Qed.

Lemma octet_text b : 0 <= b < 256 -> plain_text (Itoa b) = true /\ (String.length (Itoa b) <= 3)%nat.
Proof.
  intros Hb.
  assert (Hall : forallb (fun b => plain_text (Itoa b) && (String.length (Itoa b) <=? 3)%nat) (seqZ 0 256) = true) by (vm_compute; reflexivity).
  rewrite forallb_forall in Hall. specialize (Hall b). rewrite <- list_elem_of_In, elem_of_seqZ in Hall. specialize (Hall ltac:(lia)).
  apply andb_true_iff in Hall as [? ?%Nat.leb_le]. done.
Qed.

Lemma ipv4_text ip : plain_text (ipv4_string ip) = true /\ (String.length (ipv4_string ip) <= 15)%nat.
Proof.
  unfold ipv4_string. cbn [map Join]. unfold plain_text. rewrite !all_bytes_append, !string_length_app. cbn [String.length].
  assert (Ho : forall k, all_bytes html_safe (Itoa (ip / 2 ^ k mod 256)) = true /\ (String.length (Itoa (ip / 2 ^ k mod 256)) <= 3)%nat)
    by (intros k; apply octet_text, Z.mod_pos_bound; lia).
  destruct (Ho 24) as [-> H1], (Ho 16) as [-> H2], (Ho 8) as [-> H3], (Ho 0) as [-> H4]. split; [done|lia].
Qed.

Lemma hex_string_length g : 0 <= g < 2 ^ 16 -> (String.length (hex_string g) <= 4)%nat.
Proof.
  intros Hg. destruct (hex_string_shape g Hg) as (d & ds & -> & Hl & _). cbn [String.length].
  assert (forall ds, String.length (foldr (fun d s => String (hex_char d) s) EmptyString ds) = length ds) as ->; [|lia].
  clear. induction ds as [|d ds IH]; [done|]. cbn. by rewrite IH.
Qed.

Lemma Join_length (l : list string) n : Forall (fun s => (String.length s <= n)%nat) l -> (String.length (Join l ",") <= length l * S n)%nat.
Proof.
  induction l as [|x l IH]; intros H; [done|]. apply Forall_cons in H as [Hx Hl]. specialize (IH Hl).
  destruct l as [|y l]; [cbn in *; lia|]. rewrite Join_cons, !string_length_app. change (String.length ",") with 1%nat. cbn [length] in *. lia.
Qed.

Lemma groups_length gs : Forall is_group gs -> (String.length (groups gs) <= 5 * length gs)%nat.
Proof.
  induction gs as [|g gs IH]; intros H; [done|]. apply Forall_cons in H as [Hg H]. specialize (IH H). apply hex_string_length in Hg.
  destruct gs as [|h gs]; [cbn [map Join length]; lia|]. rewrite groups_cons by done. rewrite string_length_app. cbn [String.length length] in *. lia.
Qed.

Lemma address_text a : plain_addr a -> plain_text (AddrString a) = true /\ (String.length (AddrString a) <= 45)%nat.
Proof.
  destruct a as [ip|ip z]; cbn [AddrString plain_addr]; [intros _; destruct (ipv4_text ip); split; [done|lia]|].
  intros (Hip & -> & Hm). rewrite decide_False by done. rewrite decide_True by done. rewrite append_nil. split.
  - apply (all_bytes_ascii _ hex_or_colon); [apply hex_or_colon_safe|apply ipv6_string_all].
  - unfold ipv6_string. fold (groups_of ip). pose proof (groups_of_ok ip) as Hall.
    assert (Hlen : length (groups_of ip) = 8%nat) by done. destruct (longest_zeros _ _ _) as [start n]. destruct (decide _).
    + pose proof (groups_length _ Hall). lia.
    + rewrite !string_length_app. change (String.length "::") with 2%nat.
      pose proof (groups_length _ (Forall_take _ start _ Hall)) as H1. pose proof (groups_length _ (Forall_drop _ (start + n) _ Hall)) as H2.
      rewrite length_take in H1. rewrite length_drop in H2. lia.
Qed.

Lemma digest_text h : canonical_digest h -> plain_text h = true /\ String.length h = 64%nat.
Proof.
  intros (d & Hl & ->). split; [|rewrite Encode_length; lia]. clear. unfold plain_text.
  induction d as [|c d IH]; [done|]. cbn [EncodeToHex all_bytes]. pose proof (byte_of_bounds c).
  rewrite IH, !hex_digit_safe; [done|..]; (rewrite hex_digit_char by (Z.to_euclidean_division_equations; lia); by eexists).
Qed.

Lemma forallb_map {A B} (f : A -> B) p l : forallb p (map f l) = forallb (fun x => p (f x)) l.
Proof. induction l as [|x l IH]; [done|]. cbn. by rewrite IH. Qed.
Lemma forallb_Forall {A} (p : A -> bool) l : Forall (fun x => p x = true) l -> forallb p l = true.
Proof. induction 1 as [|x l Hx _ IH]; [done|]. cbn. by rewrite Hx, IH. Qed.

(** The fields by their names. *)
Lemma field_address a e : endpoint_field "address" (JStr a) e = Some (MkEndpoint a e.(ep_port)).
Proof. reflexivity. Qed.
Lemma field_port raw e : endpoint_field "port" (JNum raw) e = (p ← ParseUint raw 16; Some (MkEndpoint e.(ep_address) p)).
Proof. reflexivity. Qed.
Lemma field_version raw x : manifest_field "version" (JNum raw) x =
  (v ← Atoi raw; Some (MkManifestVar v x.(mv_endpoints) x.(mv_hashes) x.(mv_guarded))).
Proof. by destruct x. Qed.
Lemma field_endpoints v x : manifest_field "endpoints" v x =
  (s ← dec_slice (dec_struct endpoint_field) (MkEndpoint EmptyString 0) v x.(mv_endpoints);
   Some (MkManifestVar x.(mv_version) s x.(mv_hashes) x.(mv_guarded))).
Proof. by destruct x. Qed.
Lemma field_hashes v x : manifest_field "config_hashes" v x =
  (s ← dec_slice dec_string EmptyString v x.(mv_hashes); Some (MkManifestVar x.(mv_version) x.(mv_endpoints) s x.(mv_guarded))).
Proof. by destruct x. Qed.
Lemma field_guarded b x : manifest_field "guarded" (JBool b) x = Some (MkManifestVar x.(mv_version) x.(mv_endpoints) x.(mv_hashes) b).
Proof. by destruct x. Qed.

Section roundtrip.
Context (m : Manifest) (Hm : manifest_ok m) (Hports : Forall port_ok m.(mf_endpoints)).

Lemma endpoints_canonical : Forall canonical_endpoint m.(mf_endpoints) /\ (length m.(mf_endpoints) <= maxEndpoints)%nat.
Proof using Hm. destruct Hm as [_ He _ _ _ _]. by apply NormalizeEndpoints_Ok in He as (? & _ & _ & ? & _). Qed.

Lemma endpoint_json_plain e : canonical_endpoint e -> port_ok e ->
  plain_json (endpoint_json e) = true /\ unique_keys 2 (endpoint_json e) = true /\ (String.length (encode (endpoint_json e)) <= 100)%nat /\
  dec_struct endpoint_field (endpoint_json e) (MkEndpoint EmptyString 0) = Some e.
Proof using.
  intros (a & He & Ha & Hp) Hport. destruct (address_text a Ha) as [Ht Hl]. destruct (port_text _ Hport) as (Hn & Hpl & Hu).
  rewrite He in *. cbn [ep_address ep_port] in *. unfold endpoint_json. cbn [ep_address ep_port].
  split; [cbn [plain_json forallb fst snd]; by rewrite Ht, Hn|]. split; [done|]. split.
  - cbn [encode map Join fst snd]. rewrite (quoted_plain _ Ht), !quoted_plain by done. rewrite !string_length_app. unfold q. cbn [String.length]. lia.
  - cbn [dec_struct dec_members]. change (fold_name "address") with "address"%string. change (fold_name "port") with "port"%string.
    rewrite field_address. cbn [mbind option_bind]. rewrite field_port, Hu. done.
Qed.

Lemma dec_elems_map {A} (elem : json -> A -> option A) zero (f : A -> json) l :
  Forall (fun a => elem (f a) zero = Some a) l -> dec_elems elem zero (map f l) [] = Some l.
Proof using. induction 1 as [|a l Ha _ IH]; [done|]. cbn [map dec_elems hd tl]. rewrite Ha. cbn [mbind option_bind]. by rewrite IH. Qed.

Lemma dec_slice_map {A} (elem : json -> A -> option A) zero (f : A -> json) l :
  Forall (fun a => elem (f a) zero = Some a) l -> exists s, dec_slice elem zero (JArr (map f l)) nil_slice = Some s /\ slice_list s = l.
Proof using.
  intros H. destruct l as [|a l]; [by eexists|]. pose proof (dec_elems_map _ _ _ _ H) as Hd.
  exists (MkSlice (a :: l) (length (map f (a :: l)))). cbn [dec_slice map nil_slice sl_slots]. cbn [map] in Hd. rewrite Hd. split; [done|].
  unfold slice_list. cbn [sl_length sl_slots length]. rewrite length_map. apply (firstn_all (a :: l)).
Qed.

Lemma manifest_json_plain : plain_json (manifest_json m) = true /\ unique_keys 0 (manifest_json m) = true /\
  Z.of_nat (String.length (encode (manifest_json m))) <= maxManifestBytes /\ decode_manifest (manifest_json m) = Some m.
Proof using Hm Hports.
  destruct endpoints_canonical as [Hc Hlen]. pose proof Hm as [Hv _ [Hh1 Hh2] _ _ Hh].
  assert (Hes : Forall (fun e => plain_json (endpoint_json e) = true /\ unique_keys 2 (endpoint_json e) = true /\
    (String.length (encode (endpoint_json e)) <= 100)%nat /\ dec_struct endpoint_field (endpoint_json e) (MkEndpoint EmptyString 0) = Some e) m.(mf_endpoints)).
  { apply Forall_forall. intros e He. rewrite Forall_forall in Hc, Hports. by apply endpoint_json_plain; auto. }
  assert (Hds : Forall (fun h => plain_text h = true /\ String.length h = 64%nat) m.(mf_hashes)).
  { eapply Forall_impl; [done|]. intros h. apply digest_text. }
  unfold manifest_json. rewrite Hv. split; [|split; [|split]].
  - cbn [plain_json forallb fst snd]. rewrite !forallb_map. rewrite (forallb_Forall (fun x => plain_json (endpoint_json x))) by
      (eapply Forall_impl; [done|]; naive_solver). cbn [plain_json]. rewrite (forallb_Forall plain_text); [done|].
    eapply Forall_impl; [done|]. naive_solver.
  - cbn [unique_keys forallb fst snd map]. rewrite !forallb_map. rewrite (forallb_Forall (fun x => unique_keys (0 + 1 + 1) (endpoint_json x))) by
      (eapply Forall_impl; [done|]; naive_solver). rewrite (forallb_Forall (fun x => unique_keys (0 + 1 + 1) (JStr x))); [done|].
    by apply Forall_forall.
  - cbn [encode map Join fst snd]. rewrite !quoted_plain by done. rewrite !string_length_app. unfold q. cbn [String.length].
    rewrite !map_map.
    assert (H1 : (String.length (Join (map (fun x => encode (endpoint_json x)) (mf_endpoints m)) ",") <= length (mf_endpoints m) * 101)%nat).
    { pose proof (Join_length (map (fun x => encode (endpoint_json x)) (mf_endpoints m)) 100) as H. rewrite length_map in H. apply H.
      apply Forall_map. eapply Forall_impl; [done|]. naive_solver. }
    assert (H2 : (String.length (Join (map (fun x => encode (JStr x)) (mf_hashes m)) ",") <= length (mf_hashes m) * 67)%nat).
    { pose proof (Join_length (map (fun x => encode (JStr x)) (mf_hashes m)) 66) as H. rewrite length_map in H. apply H.
      apply Forall_map. eapply Forall_impl; [done|]. intros h [Ht Hl]. cbn [encode]. rewrite quoted_plain by done.
      rewrite !string_length_app, Hl. unfold q. cbn [String.length]. lia. }
    unfold maxEndpoints in Hlen. change maxManifestBytes with 65536. change (String.length (Itoa Version)) with 1%nat. destruct (mf_guarded m); cbn [String.length]; lia.
  - unfold decode_manifest. cbn [dec_struct dec_members]. change (fold_name "version") with "version"%string.
    change (fold_name "endpoints") with "endpoints"%string. change (fold_name "config_hashes") with "config_hashes"%string.
    change (fold_name "guarded") with "guarded"%string.
    destruct (dec_slice_map (dec_struct endpoint_field) (MkEndpoint EmptyString 0) endpoint_json m.(mf_endpoints)) as (s1 & Hs1 & E1).
    { eapply Forall_impl; [done|]. naive_solver. }
    destruct (dec_slice_map dec_string EmptyString JStr m.(mf_hashes)) as (s2 & Hs2 & E2); [by apply Forall_forall|].
    rewrite field_version. change (Atoi (Itoa Version)) with (Some Version). cbn [mbind option_bind].
    rewrite field_endpoints. cbn [mv_endpoints]. rewrite Hs1. cbn [mbind option_bind].
    rewrite field_hashes. cbn [mv_hashes]. rewrite Hs2. cbn [mbind option_bind]. rewrite field_guarded.
    cbn [dec_bool mbind option_bind mv_version mv_endpoints mv_hashes mv_guarded]. rewrite E1, E2. destruct m. cbn in *. by subst.
Qed.

Lemma parse_manifest_text : parse_manifest (encode (manifest_json m)) = Ok m.
Proof using Hm Hports.
  destruct manifest_json_plain as (Hp & Hu & _ & Hd). unfold parse_manifest, uniqueJSON. rewrite parse_encode by done. rewrite Hu.
  cbn [mbind result_bind]. fold (manifest_json m). unfold manifest_json at 1. cbn [forallb get_field].
  change (decode_manifest _) with (decode_manifest (manifest_json m)). rewrite Hd. by apply normalizeManifest_id.
Qed.
End roundtrip.

(** ** Paths *)
Lemma Cut_spec s c a b : Cut s c = Some (a, b) -> s = a +:+ String c b.
Proof.
  revert a. induction s as [|x s IH]; intros a H; [done|]. cbn [Cut] in H. destruct (decide (x = c)) as [->|].
  - by injection H as <- <-.
  - destruct (Cut s c) as [[a' b']|]; [|done]. injection H as <- <-. rewrite append_cons. f_equal. by apply IH.
Qed.

Lemma rev_app_length s acc : String.length (str_rev_app s acc) = (String.length s + String.length acc)%nat.
Proof. revert acc. induction s as [|c s IH]; intros acc; [done|]. cbn. rewrite IH. cbn. lia. Qed.
Lemma rev_length s : String.length (str_rev s) = String.length s.
Proof. unfold str_rev. rewrite rev_app_length. cbn. lia. Qed.

Lemma CutLast_length s c a b : CutLast s c = Some (a, b) -> (String.length a < String.length s)%nat.
Proof.
  unfold CutLast. destruct (Cut (str_rev s) c) as [[x y]|] eqn:E; [|done]. intros [= <- _]. apply Cut_spec in E.
  apply (f_equal String.length) in E. rewrite rev_length, string_length_app in E. rewrite rev_length. cbn in E. lia.
Qed.

(** Going up shortens every path but the root. *)
Lemma Dir_length p : (1 < String.length p)%nat -> (String.length (Dir p) < String.length p)%nat.
Proof.
  intros Hp. unfold Dir. destruct (CutLast p "/") as [[[|c d] b]|] eqn:E; [by cbn|by eapply CutLast_length|by cbn].
Qed.

Lemma Dir_nonempty p : Dir p <> EmptyString.
Proof. unfold Dir. by destruct (CutLast p "/") as [[[|c d] b]|]. Qed.

Lemma short_path p : p <> EmptyString -> (String.length p <= 1)%nat -> Dir p = "/"%string.
Proof.
  intros Hne Hl. unfold Dir. destruct (CutLast p "/") as [[[|c d] b]|] eqn:E; [done| |done].
  apply CutLast_length in E. cbn in E. lia.
Qed.

(** The loop ends. *)
Lemma parents_end fuel fs private directory p : (String.length p < fuel)%nat -> (1 < fuel)%nat -> p <> EmptyString ->
  is_Some (parents_ok fuel fs private directory p).
Proof.
  revert p. induction fuel as [|fuel IH]; intros p Hp Hf Hne; [lia|]. cbn [parents_ok].
  destruct (parent_ok _ _ _ _); [|by eexists]. destruct (decide (p = "/"%string)) as [|Hroot]; [by eexists|].
  destruct (decide (1 < String.length p)%nat) as [Hl|Hl].
  - pose proof (Dir_length p Hl). apply IH; [lia|lia|apply Dir_nonempty].
  - rewrite short_path by (done || lia). destruct fuel as [|fuel]; [lia|]. cbn [parents_ok].
    destruct (parent_ok _ _ _ _); by eexists.
Qed.

Lemma controlledParent_end fs path private : clean_absolute path = true ->
  exists r, parents_ok (S (String.length path)) fs private (Dir path) (Dir path) = Some r /\ controlledParent fs path private = r.
Proof.
  intros Hc. assert (Hlen : (0 < String.length path)%nat) by (destruct path; [done|simpl; lia]).
  assert (Hd : (String.length (Dir path) <= String.length path)%nat).
  { destruct (decide (1 < String.length path)%nat) as [Hl|Hl]; [pose proof (Dir_length path Hl); lia|].
    rewrite short_path by (try lia; by destruct path). simpl. lia. }
  destruct (parents_end (S (String.length path)) fs private (Dir path) (Dir path)) as [r Hr]; [lia|lia|apply Dir_nonempty|].
  exists r. split; [done|]. unfold controlledParent. rewrite Hc. cbn [negb guard_err mbind result_bind]. by rewrite Hr.
Qed.

(** A change of a file does not touch its own parents. *)
Lemma parents_same fuel fs fs' private directory p path :
  fs'.(fs_euid) = fs.(fs_euid) -> (forall q, q <> path -> fs'.(fs_nodes) !! q = fs.(fs_nodes) !! q) ->
  (String.length p < String.length path)%nat -> p <> EmptyString ->
  parents_ok fuel fs' private directory p = parents_ok fuel fs private directory p.
Proof.
  intros He Hn. revert p. induction fuel as [|fuel IH]; intros p Hp Hne; [done|]. cbn [parents_ok].
  assert (parent_ok fs' private (bool_decide (p = directory)) p = parent_ok fs private (bool_decide (p = directory)) p) as ->.
  { unfold parent_ok. rewrite He, Hn by (intros ->; lia). done. }
  destruct (parent_ok _ _ _ _); [|done]. destruct (decide (p = "/"%string)); [done|].
  destruct (decide (1 < String.length p)%nat) as [Hl|Hl].
  - pose proof (Dir_length p Hl). apply IH; [lia|apply Dir_nonempty].
  - assert (String.length p = 1%nat) by (destruct p as [|c [|d p]]; [done|done|simpl in *; lia]).
    rewrite (short_path p) by (done || lia). destruct fuel as [|fuel]; [done|]. cbn [parents_ok].
    unfold parent_ok. rewrite He, Hn; [done|]. intros <-. simpl in *. lia.
Qed.

Lemma controlled_same fs fs' private path : (1 < String.length path)%nat ->
  fs'.(fs_euid) = fs.(fs_euid) -> (forall q, q <> path -> fs'.(fs_nodes) !! q = fs.(fs_nodes) !! q) ->
  controlledParent fs' path private = controlledParent fs path private.
Proof.
  intros Hl He Hn. unfold controlledParent. destruct (negb _); [done|]. cbn [guard_err mbind result_bind].
  f_equal. apply (parents_same _ _ _ _ _ _ path); [done|done|by apply Dir_length|apply Dir_nonempty].
Qed.

(** A controlled parent is a directory, so its path is not the file's. *)
Lemma root_is_directory fs private : controlledParent fs "/" private = Ok tt -> exists n, fs.(fs_nodes) !! "/"%string = Some n /\ n.(nd_kind) = Directory.
Proof.
  destruct (controlledParent_end fs "/" private eq_refl) as (r & Hr & ->). intros ->. revert Hr.
  change (S (String.length "/")) with 2%nat. change (Dir "/") with "/"%string. cbn [parents_ok].
  destruct (parent_ok _ _ _ _) as [[]|] eqn:Hp; [|done]. intros _. unfold parent_ok in Hp.
  destruct (fs_nodes fs !! "/"%string) as [n|]; [|done]. exists n. split; [done|].
  apply result_bind_Ok in Hp as (u & Hk%guard_err_Ok & _). apply bool_decide_eq_false_1 in Hk. by apply dec_stable.
Qed.

Lemma clean_length path : clean_absolute path = true -> path = "/"%string \/ (1 < String.length path)%nat.
Proof.
  destruct path as [|c [|d path]]; [done| |simpl; right; lia]. intros H. left.
  destruct c as [[] [] [] [] [] [] [] []]; done.
Qed.

Lemma Read_Ok fs path m : Read fs path = Ok m -> manifest_ok m /\ Forall port_ok m.(mf_endpoints).
Proof. unfold Read. intros (data & _ & H)%result_bind_Ok. by eapply parse_manifest_Ok. Qed.

Lemma readControlled_Ok fs path limit private data : readControlled fs path limit private = Ok data ->
  exists n, fs.(fs_nodes) !! path = Some n /\ n.(nd_data) = data /\ private_file fs n = true /\ controlledParent fs path private = Ok tt.
Proof.
  unfold readControlled. intros ([] & Hc & H)%result_bind_Ok. destruct (fs_nodes fs !! path) as [n|]; [|done].
  apply result_bind_Ok in H as ([] & Hp%guard_err_Ok & H). apply result_bind_Ok in H as ([] & _ & [= <-]). exists n. by apply negb_false_iff in Hp.
Qed.

(** What a write leaves, whatever it answers. *)
Lemma Write_stores a fs path m r fs' : Write a fs path m = (r, fs') ->
  (fs' = fs /\ r <> Ok tt) \/
  exists m', normalizeManifest m = Ok m' /\ fs' = store_file fs path (encode (manifest_json m')) /\
    controlledParent fs path true = Ok tt /\ (1 < String.length path)%nat.
Proof.
  unfold Write. destruct (normalizeManifest m) as [m'|e] eqn:Hm; cbn [mbind result_bind]; [|by intros [= <- <-]; left].
  destruct (controlledParent fs path true) as [[]|e] eqn:Hc; cbn [mbind result_bind]; [|by intros [= <- <-]; left].
  set (old := match fs_nodes fs !! path with Some _ => _ | None => _ end). destruct old as [[]|e] eqn:Ho; cbn [mbind result_bind]; [|by intros [= <- <-]; left].
  assert (Hl : (1 < String.length path)%nat).
  { destruct (clean_length path) as [->|]; [|exfalso|done].
    - unfold controlledParent in Hc. by apply result_bind_Ok in Hc as ([] & ?%guard_err_Ok%negb_false_iff & _).
    - destruct (root_is_directory _ _ Hc) as (n & Hn & Hk). subst old. rewrite Hn in Ho.
      apply result_bind_Ok in Ho as (data & Hr & _). apply readControlled_Ok in Hr as (n' & Hn' & _ & Hp & _).
      rewrite Hn in Hn'. injection Hn' as <-. unfold private_file in Hp. rewrite Hk in Hp. done. }
  destruct a; intros [= <- <-]; [by left|..]; right; by exists m'.
Qed.

Lemma stored_reads fs path data limit private : controlledParent fs path private = Ok tt -> (1 < String.length path)%nat ->
  Z.of_nat (String.length data) <= limit -> readControlled (store_file fs path data) path limit private = Ok data.
Proof.
  intros Hc Hl Hd. unfold readControlled.
  rewrite (controlled_same fs) by (done || (intros q Hq; cbn; by rewrite lookup_insert_ne)). rewrite Hc. cbn [mbind result_bind].
  cbn [store_file fs_nodes]. rewrite lookup_insert_eq.
  assert (private_file (store_file fs path data) (MkNode Regular (octal 6 0 0) false (fs_euid fs) data) = true) as ->.
  { unfold private_file. cbn. by rewrite !bool_decide_eq_true_2. }
  cbn [negb guard_err mbind result_bind nd_data]. by rewrite bool_decide_eq_false_2 by lia.
Qed.

(** A manifest that reached its file is read back, also when the write
    reports a failed sync. *)
Lemma read_after_write a fs path m r fs' : Forall port_ok m.(mf_endpoints) -> Write a fs path m = (r, fs') -> fs' <> fs \/ r = Ok tt ->
  exists m', normalizeManifest m = Ok m' /\ Read fs' path = Ok m'.
Proof.
  intros Hp Hw Hor. destruct (Write_stores _ _ _ _ _ _ Hw) as [[-> Hr]|(m' & Hm & -> & Hc & Hl)]; [by destruct Hor|].
  exists m'. split; [done|]. destruct (normalizeManifest_Ok _ _ Hm) as (Hok & He & _). pose proof (Normalize_ports _ _ He Hp) as Hp'.
  unfold Read. destruct (manifest_json_plain m' Hok Hp') as (_ & _ & Hsize & _). rewrite stored_reads by done. cbn [mbind result_bind].
  by apply parse_manifest_text.
Qed.

(** ** The listeners of a configuration *)
Definition config_inbounds (config : string) : list Inbound :=
  match v ← parse config; decode_config v with Some c => slice_list c.(cv_inbounds) | None => [] end.

(** The listeners that need no barrier: the legacy DNS listener at a unicast
    IPv4 address and the transparent one at a loopback address. *)
Definition private_inbound (i : Inbound) : Prop :=
  (i.(ib_type) = "direct"%string /\ i.(ib_port) = 53 /\ exists a, ParseAddr i.(ib_listen) = Some a /\ legacyDNSAddress a = true) \/
  (i.(ib_type) = "tproxy"%string /\ exists a, ParseAddr i.(ib_listen) = Some a /\ IsLoopback a = true).
Definition inbound_point (i : Inbound) : Endpoint := MkEndpoint i.(ib_listen) i.(ib_port).

Lemma inbound_endpoint_Ok i l : inbound_endpoint i = Ok l ->
  private_inbound i /\ l = [] \/ i.(ib_type) = "vless"%string /\ i.(ib_tls) = true /\ i.(ib_reality) = true /\ l = [inbound_point i].
Proof.
  unfold inbound_endpoint. cbv zeta. destruct (decide _) as [Hd|_].
  { intros ([] & Hg%guard_err_Ok & [= <-])%result_bind_Ok. left. split; [|done]. left.
    apply orb_false_iff in Hg as [Hg Ha]. apply orb_false_iff in Hg as [_ Hp]. apply bool_decide_eq_false_1, dec_stable in Hp.
    split; [done|]. split; [done|]. destruct (ParseAddr _) as [a|]; [|done]. exists a. by apply negb_false_iff in Ha. }
  destruct (decide _) as [Hd|_].
  { intros ([] & Hg%guard_err_Ok & [= <-])%result_bind_Ok. left. split; [|done]. right.
    apply orb_false_iff in Hg as [_ Ha]. split; [done|]. destruct (ParseAddr _) as [a|]; [|done]. exists a.
    apply orb_false_iff in Ha as [_ Ha]. by apply negb_false_iff in Ha. }
  destruct (decide _) as [Hd|_]; [|done].
  intros ([] & Hg%guard_err_Ok & [= <-])%result_bind_Ok. right. apply orb_false_iff in Hg as [H1%negb_false_iff H2%negb_false_iff]. done.
Qed.

Definition inbound_port_ok (i : Inbound) : Prop := 0 <= i.(ib_port) < 2 ^ 16.

Lemma inbound_field_port k v i i' : inbound_field k v i = Some i' -> inbound_port_ok i -> inbound_port_ok i'.
Proof.
  destruct i as [type tag listen port tls reality]. unfold inbound_field, inbound_port_ok. cbn [ib_port]. intros H Hp.
  repeat case_decide; [..|by injection H as <-]; apply bind_Some in H as (x & Hx & [= <-]); cbn [ib_port]; try done.
  by eapply dec_uint16_range.
Qed.

Lemma decode_config_ports v c : decode_config v = Some c -> Forall inbound_port_ok (slice_list c.(cv_inbounds)).
Proof.
  intros H. apply Forall_slice. unfold decode_config in H. revert H.
  intros H. apply (dec_struct_keeps (fun c => Forall inbound_port_ok c.(cv_inbounds).(sl_slots)) _) in H; [done| |by constructor]. clear.
  intros k v c c' H Hp. unfold config_field in H. destruct (decide _) as [_|_].
  - apply bind_Some in H as (x & Hx & [= <-]). cbn [cv_inbounds]. revert Hx Hp. apply dec_slice_keeps; [|done].
    intros v' a a'. apply dec_struct_keeps. by apply inbound_field_port.
  - destruct (decide _); [|by injection H as <-]. destruct v; try done; by injection H as <-.
Qed.

Lemma ConfigEndpoints_Ok config es : ConfigEndpoints config = Ok es ->
  Forall port_ok es /\ Forall canonical_endpoint es /\
  forall i, i ∈ config_inbounds config -> private_inbound i \/
    i.(ib_tls) = true /\ i.(ib_reality) = true /\ exists e, e ∈ es /\ canonical (inbound_point i) = Ok e.
Proof.
  unfold ConfigEndpoints, config_inbounds. cbv zeta. intros ([] & _ & H)%result_bind_Ok. apply result_bind_Ok in H as (v & Hv & H).
  unfold uniqueJSON in Hv. destruct (parse config) as [v'|]; [|done]. destruct (unique_keys 0 v'); [|done]. injection Hv as ->.
  cbn [mbind option_bind]. destruct (decode_config v) as [c|] eqn:Hd; [|done]. apply decode_config_ports in Hd.
  apply result_bind_Ok in H as ([] & _ & H). apply result_bind_Ok in H as ([] & _ & H). apply result_bind_Ok in H as (l & Hl%mapM_Ok & H).
  set (ins := slice_list (cv_inbounds c)) in *. clearbody ins.
  assert (Hconcat : Forall port_ok (concat l) /\
    forall i, i ∈ ins -> private_inbound i \/ i.(ib_tls) = true /\ i.(ib_reality) = true /\ inbound_point i ∈ concat l).
  { clear H. induction Hl as [|i x ins l Hx Hl IH]; [split; [done|by intros i Hi%elem_of_nil]|].
    apply Forall_cons in Hd as [Hpi Hd]. destruct (IH Hd) as [H1 H2]. cbn [concat].
    apply inbound_endpoint_Ok in Hx as [[Hpr ->]|(_ & Ht & Hr & ->)].
    - split; [done|]. intros j [->|Hj]%elem_of_cons; [by left|by apply H2].
    - split; [by constructor|]. intros j [->|Hj]%elem_of_cons; [right; repeat split; try done; by left|].
      destruct (H2 j Hj) as [|(? & ? & Hin)]; [by left|]. right. repeat split; try done. by right. }
  destruct Hconcat as [Hp Hi]. split; [by eapply Normalize_ports|]. apply NormalizeEndpoints_Ok in H as Hn. destruct Hn as (_ & _ & _ & Hc & Hin).
  split; [done|]. intros i Hii. destruct (Hi i Hii) as [|(Ht & Hr & Hcc)]; [by left|]. right. split; [done|]. split; [done|].
  unfold NormalizeEndpoints in H. apply result_bind_Ok in H as ([] & _ & H). apply result_bind_Ok in H as (l1 & Hm%mapM_Ok & _).
  apply list_elem_of_lookup in Hcc as [k Hk]. destruct (Forall2_lookup_l _ _ _ _ _ Hm Hk) as (e & _ & He).
  exists e. split; [|done]. apply Hin. exists (inbound_point i). split; [by eapply list_elem_of_lookup_2|done].
Qed.

(** Every listener of the configuration is private or behind the barrier. *)
Definition closed (T : tables) (config : string) : Prop :=
  forall i, i ∈ config_inbounds config -> private_inbound i \/
    i.(ib_tls) = true /\ i.(ib_reality) = true /\
    forall little pk, bytes_ok pk -> reaches_endpoint (inbound_point i) pk = true -> dropped_at little T HookInput pk = true.

Section startup.
Context `{Platform}.

Lemma ValidateConfig_Ok config m : ValidateConfig config m = Ok tt -> manifest_ok m ->
  HashConfig config ∈ m.(mf_hashes) /\
  exists es, ConfigEndpoints config = Ok es /\ forall e, e ∈ es -> exists allowed, allowed ∈ m.(mf_endpoints) /\ covers allowed e = true.
Proof.
  unfold ValidateConfig. intros Hv Hm. rewrite normalizeManifest_id in Hv by done. cbn [mbind result_bind] in Hv.
  apply result_bind_Ok in Hv as ([] & Hh%guard_err_Ok & Hv). apply result_bind_Ok in Hv as (es & Hes & Hc%guard_err_Ok).
  apply bool_decide_eq_false_1, dec_stable in Hh. apply negb_false_iff in Hc. split; [done|]. exists es. split; [done|].
  intros e He. rewrite forallb_forall in Hc. specialize (Hc e ltac:(by apply list_elem_of_In)). by apply existsb_elem in Hc.
Qed.

(** The barrier over a manifest that admits a configuration closes it. *)
Lemma manifest_closes a m config T T' : manifest_ok m -> Forall port_ok m.(mf_endpoints) -> ValidateConfig config m = Ok tt ->
  SetPublicClientGuard a m.(mf_endpoints) true T = (Ok tt, T') -> closed T' config.
Proof.
  intros Hm Hp Hv Hs i Hi. destruct (ValidateConfig_Ok _ _ Hv Hm) as (_ & es & Hes & Hcov).
  destruct (ConfigEndpoints_Ok _ _ Hes) as (_ & Hcan & Hin). destruct (Hin i Hi) as [|(Ht & Hr & e & He & Hc)]; [by left|].
  right. split; [done|]. split; [done|]. intros little pk Hb Hreach. destruct (Hcov e He) as (al & Hal & Hcv).
  apply (barrier_drops a m.(mf_endpoints) T T' little pk al); try done. rewrite <- (canonical_reaches _ _ _ Hc) in Hreach.
  apply (covers_sound al e); try done; [|by rewrite Forall_forall in Hcan; apply Hcan].
  destruct Hm as [_ Hne _ _ _ _]. apply NormalizeEndpoints_Ok in Hne as (_ & _ & _ & Hall & _). rewrite Forall_forall in Hall. by apply Hall.
Qed.

Lemma startupState_Ok fs cp mp om : startupState fs cp mp = Ok om ->
  exists n, fs.(fs_nodes) !! cp = Some n /\
  match om with
  | None => ConfigEndpoints n.(nd_data) = Ok []
  | Some m => Read fs mp = Ok m /\ ValidateConfig n.(nd_data) m = Ok tt
  end.
Proof.
  unfold startupState. intros (config & Hr & H1)%result_bind_Ok. apply result_bind_Ok in H1 as (es & He & H1).
  destruct (readControlled_Ok _ _ _ _ _ Hr) as (n & Hn & <- & _). exists n. split; [done|].
  destruct (Read fs mp) as [m|e]; [apply result_bind_Ok in H1 as ([] & Hv & [= <-]); done|].
  revert H1. destruct (decide _) as [[_ ->]|]; [by intros [= <-]|done].
Qed.

Lemma WithLock_other granted fs path r fs' q : WithLock granted fs path = (r, fs') -> q <> lock_path path ->
  fs'.(fs_nodes) !! q = fs.(fs_nodes) !! q.
Proof.
  unfold WithLock. destruct (controlledParent _ _ _); [|by intros [= <- <-]]. cbv zeta.
  set (fs1 := match fs_nodes fs !! lock_path path with Some _ => fs | None => _ end).
  assert (Hq : q <> lock_path path -> fs_nodes fs1 !! q = fs_nodes fs !! q).
  { intros Hne. subst fs1. destruct (fs_nodes fs !! lock_path path); [done|]. cbn. by rewrite lookup_insert_ne. }
  intros Hw Hne. assert (fs' = fs1) as ->; [|by apply Hq]. clearbody fs1. clear Hq. revert Hw.
  destruct (fs_nodes fs1 !! _); [|by intros [= _ <-]]. destruct (negb _); [by intros [= _ <-]|]. destruct (negb granted); by intros [= _ <-].
Qed.

(** C33: the startup helper closes before the runtime can bind.  When it
    answers without error, every listener of the configuration the runtime is
    about to read is private (the DNS listener at a unicast IPv4 address, the
    transparent one at a loopback address) or its TCP packets are dropped by the
    barrier, whatever family and wildcard it uses; the manifest on disk names
    that configuration and is marked as guarded, unless the configuration has no
    public listener and there is no manifest.  When it fails, the barrier is as
    it was and a manifest that changed is marked as guarded.  No other table of
    the kernel is touched. *)
Theorem Startup_closes (a : StartupAnswers) (cp mp : string) (h h' : Host) (r : result unit) :
  cp <> mp -> cp <> lock_path mp -> Startup a cp mp h = (r, h') ->
  (r = Ok tt -> exists n, h'.(ho_fs).(fs_nodes) !! cp = Some n /\ closed h'.(ho_tables) n.(nd_data) /\
     (ConfigEndpoints n.(nd_data) = Ok [] /\ h'.(ho_tables) = h.(ho_tables) \/
      exists m, Read h'.(ho_fs) mp = Ok m /\ m.(mf_guarded) = true /\ HashConfig n.(nd_data) ∈ m.(mf_hashes))) /\
  (r <> Ok tt -> h'.(ho_tables) = h.(ho_tables) /\
     (h'.(ho_fs).(fs_nodes) !! mp = h.(ho_fs).(fs_nodes) !! mp \/ exists m, Read h'.(ho_fs) mp = Ok m /\ m.(mf_guarded) = true)) /\
  (forall name, name <> PublicClientGuardTable -> h'.(ho_tables) !! name = h.(ho_tables) !! name).
Proof.
  intros Hne Hnl. unfold Startup. destruct (WithLock _ _ _) as [lr fs] eqn:Hlock.
  assert (Hmp : fs.(fs_nodes) !! mp = h.(ho_fs).(fs_nodes) !! mp).
  { apply (WithLock_other _ _ _ _ _ _ Hlock). intros E. apply (f_equal String.length) in E. unfold lock_path in E. rewrite string_length_app in E. simpl in E. lia. }
  assert (Hkeep : forall e, (Err e, MkHost fs h.(ho_tables)) = (r, h') ->
    r <> Ok tt /\ h'.(ho_tables) = h.(ho_tables) /\ h'.(ho_fs).(fs_nodes) !! mp = h.(ho_fs).(fs_nodes) !! mp).
  { intros e [= <- <-]. done. }
  destruct lr as [[]|e]; [|intros (Hr & HT & Hf)%Hkeep; rewrite HT; tauto].
  destruct (startupState fs cp mp) as [om|e] eqn:Hst; [|intros (Hr & HT & Hf)%Hkeep; rewrite HT; tauto].
  apply startupState_Ok in Hst as (n & Hn & Hst). destruct om as [m|].
  2:{ intros [= <- <-]. split; [|split; [done|done]]. intros _. exists n. split; [done|]. cbn [ho_tables ho_fs]. split; [|by left].
      intros i Hi. destruct (ConfigEndpoints_Ok _ _ Hst) as (_ & _ & Hin). destruct (Hin i Hi) as [|(_ & _ & e & He%elem_of_nil & _)]; [by left|done]. }
  destruct Hst as [Hread Hv]. destruct (Read_Ok _ _ _ Hread) as [Hok Hports].
  set (m' := MkManifest m.(mf_version) m.(mf_endpoints) m.(mf_hashes) true).
  assert (Hok' : manifest_ok m') by (destruct Hok; by constructor).
  destruct (Write _ fs mp m') as [wr fs'] eqn:Hw.
  assert (Hcp : fs'.(fs_nodes) !! cp = Some n).
  { destruct (Write_stores _ _ _ _ _ _ Hw) as [[-> _]|(? & _ & -> & _)]; [done|]. cbn. by rewrite lookup_insert_ne. }
  assert (Hguard : fs' <> fs \/ wr = Ok tt -> exists m, Read fs' mp = Ok m /\ m.(mf_guarded) = true /\ m.(mf_hashes) = m'.(mf_hashes)).
  { intros Hor. destruct (read_after_write _ _ _ m' _ _ Hports Hw Hor) as (m2 & H2 & Hr2).
    rewrite normalizeManifest_id in H2 by done. injection H2 as <-. by exists m'. }
  assert (Hfs : fs'.(fs_nodes) !! mp = h.(ho_fs).(fs_nodes) !! mp \/ exists m, Read fs' mp = Ok m /\ m.(mf_guarded) = true).
  { destruct (Write_stores _ _ _ _ _ _ Hw) as [[-> _]|(? & _ & E & _)]; [by left|].
    destruct (decide (fs_nodes fs' !! mp = fs_nodes fs !! mp)) as [E'|E']; [left; by rewrite E'|].
    right. destruct Hguard as (m2 & ? & ? & _); [left; by intros ->|by exists m2]. }
  destruct wr as [[]|e]; [|by intros [= <- <-]; cbn [ho_tables ho_fs]].
  destruct (SetPublicClientGuard _ _ _ _) as [gr T] eqn:Hg. intros [= <- <-]. cbn [ho_tables ho_fs].
  assert (Hother : (gr <> Ok tt -> T = h.(ho_tables)) /\ forall name, name <> PublicClientGuardTable -> T !! name = h.(ho_tables) !! name)
    by (by eapply SetPublicClientGuard_other).
  split; [|split; [|apply Hother]].
  - intros ->. exists n. split; [done|]. split; [exact (manifest_closes _ _ _ _ _ Hok Hports Hv Hg)|]. right.
    destruct (Hguard (or_intror eq_refl)) as (m2 & Hr2 & Hgd & Hh). exists m2. split; [done|]. split; [done|].
    rewrite Hh. cbn. by destruct (ValidateConfig_Ok _ _ Hv Hok).
  - intros Hgr. split; [by apply Hother|]. done.
Qed.
End startup.

(** C34: the manifest survives its file.  A write that reaches the file, also one
    that then fails to sync the directory, leaves a manifest that [Read] accepts
    and that is the normalized one: never too long, never refused by the strict
    decoder.  Normalizing keeps what the barrier covers, packet by packet, and
    the admitted hashes up to the case of their digits, and changes nothing the
    second time.  A write that fails before leaves everything as it was. *)
Theorem Write_Read (a : WriteAnswer) (fs fs' : FS) (path : string) (m : Manifest) (r : result unit) :
  Forall port_ok m.(mf_endpoints) -> Write a fs path m = (r, fs') ->
  (fs' = fs /\ r <> Ok tt) \/
  exists m', Read fs' path = Ok m' /\ normalizeManifest m = Ok m' /\ normalizeManifest m' = Ok m' /\
    (forall q, q <> path -> fs'.(fs_nodes) !! q = fs.(fs_nodes) !! q) /\
    (forall pk, existsb (fun e => reaches_endpoint e pk) m'.(mf_endpoints) = existsb (fun e => reaches_endpoint e pk) m.(mf_endpoints)) /\
    (forall h, h ∈ m'.(mf_hashes) <-> exists h0, h0 ∈ m.(mf_hashes) /\ (EncodeToHex <$> DecodeHex h0) = Some h).
Proof.
  intros Hp Hw. destruct (Write_stores _ _ _ _ _ _ Hw) as [?|(m' & Hm & E & Hc & Hl)]; [by left|].
  right. exists m'. destruct (normalizeManifest_Ok _ _ Hm) as (Hok & He & _ & Hh). pose proof (Normalize_ports _ _ He Hp) as Hp'.
  split; [|split; [done|split; [by apply normalizeManifest_id|split; [|split]]]].
  - subst fs'. unfold Read. destruct (manifest_json_plain m' Hok Hp') as (_ & _ & Hsize & _). rewrite stored_reads by done.
    by apply parse_manifest_text.
  - intros q Hq. subst fs'. cbn. by rewrite lookup_insert_ne.
  - intros pk. by apply Normalize_reaches.
  - intros h. rewrite Hh. assert (Hall : Forall (fun h0 => exists h, canonical_hash h0 = Ok h) m.(mf_hashes)).
    { unfold normalizeManifest in Hm. apply result_bind_Ok in Hm as (? & _ & Hm). apply result_bind_Ok in Hm as (? & _ & Hm).
      apply result_bind_Ok in Hm as (? & _ & Hm). apply result_bind_Ok in Hm as (hs & Hhs%mapM_Ok & _). clear - Hhs.
      induction Hhs; constructor; [by eexists|done]. }
    rewrite Forall_forall in Hall. split; intros (h0 & Hin & Heq); exists h0; (split; [done|]).
    + unfold canonical_hash in Heq. destruct (DecodeHex h0) as [d|]; [|done]. destruct (decide _); [|done]. by injection Heq as <-.
    + destruct (Hall h0 Hin) as [h1 H1]. rewrite H1. unfold canonical_hash in H1. destruct (DecodeHex h0) as [d|]; [|done].
      destruct (decide _); [|done]. injection H1 as <-. by injection Heq as <-.
Qed.

(** ** A host *)
Definition sample_config : string :=
  encode (JObj [("inbounds", JArr [
      JObj [("type", JStr "direct"); ("tag", JStr "dns-in"); ("listen", JStr "10.8.0.1"); ("listen_port", JNum "53")];
      JObj [("type", JStr "vless"); ("tag", JStr "reality-in"); ("listen", JStr "0.0.0.0"); ("listen_port", JNum "8443");
            ("tls", JObj [("enabled", JBool true); ("reality", JObj [("enabled", JBool true)])])]]);
    ("experimental", JObj [("clash_api", JObj [("external_controller", JStr "127.0.0.1:9090")])])])%string.
Definition host_platform : Platform := {| URLPath := Some; Sum256 := fun s => byte_string (replicate 32 (Z.of_nat (String.length s) mod 256)) |}.
Definition sample_hash : string := @HashConfig host_platform sample_config.
Definition sample_manifest : Manifest :=
  MkManifest 1 [MkEndpoint "" 8443; MkEndpoint "::ffff:192.0.2.1" 9443] [ToUpperASCII sample_hash; sample_hash] false.
Definition directory (perm : Z) : Node := MkNode Directory perm false 0 EmptyString.
Definition sample_fs : FS :=
  MkFS (list_to_map [("/"%string, directory (octal 7 5 5)); ("/etc"%string, directory (octal 7 5 5)); ("/etc/sing-box"%string, directory (octal 7 5 5));
                     ("/var"%string, directory (octal 7 5 5)); ("/var/lib"%string, directory (octal 7 5 5));
                     ("/var/lib/razdacha"%string, directory (octal 7 0 0));
                     ("/etc/sing-box/config.json"%string, MkNode Regular (octal 6 0 0) false 0 sample_config)]) 0.
Definition manifest_path : string := "/var/lib/razdacha/public-ingress.json".
Definition config_path : string := "/etc/sing-box/config.json".
Definition written_fs : FS := (Write Written sample_fs manifest_path sample_manifest).2.
Definition all_well : StartupAnswers := MkStartup true Written (MkNetlink true true true).

Lemma Write_Read_witness :
  Forall port_ok sample_manifest.(mf_endpoints) /\ Write Written sample_fs manifest_path sample_manifest = (Ok tt, written_fs) /\
  exists m', Read written_fs manifest_path = Ok m' /\ m'.(mf_endpoints) = [MkEndpoint "192.0.2.1" 9443; MkEndpoint "::" 8443] /\
    m'.(mf_hashes) = [sample_hash].
Proof.
  assert (Hp : Forall port_ok sample_manifest.(mf_endpoints)) by (repeat constructor; done).
  assert (Hw : Write Written sample_fs manifest_path sample_manifest = (Ok tt, written_fs))
    by (apply injective_projections; [vm_compute; reflexivity|reflexivity]).
  split; [exact Hp|]. split; [exact Hw|].
  destruct (Write_Read Written sample_fs written_fs manifest_path sample_manifest (Ok tt) Hp Hw) as [[_ Hr]|(m' & Hr & Hn & _)].
  - destruct (Hr eq_refl).
  - exists m'. split; [exact Hr|].
    assert (E : match normalizeManifest sample_manifest with Ok m => m.(mf_endpoints) = [MkEndpoint "192.0.2.1" 9443; MkEndpoint "::" 8443] /\ m.(mf_hashes) = [sample_hash] | Err _ => False end)
      by (vm_compute; split; reflexivity).
    rewrite Hn in E. exact E.
Defined.

Lemma Startup_closes_witness :
  let h := MkHost written_fs ∅ in
  let h' := (@Startup host_platform all_well config_path manifest_path h).2 in
  @Startup host_platform all_well config_path manifest_path h = (Ok tt, h') /\ closed h'.(ho_tables) sample_config.
Proof.
  cbv zeta. assert (Hs : @Startup host_platform all_well config_path manifest_path (MkHost written_fs ∅) =
    (Ok tt, (@Startup host_platform all_well config_path manifest_path (MkHost written_fs ∅)).2))
    by (apply injective_projections; [vm_compute; reflexivity|reflexivity]).
  split; [exact Hs|].
  destruct (@Startup_closes host_platform all_well config_path manifest_path _ _ _ ltac:(discriminate) ltac:(discriminate) Hs) as [Hok _].
  destruct (Hok eq_refl) as (n & Hn & Hc & _).
  assert (E : nd_data <$> (@Startup host_platform all_well config_path manifest_path (MkHost written_fs ∅)).2.(ho_fs).(fs_nodes) !! config_path =
    Some sample_config) by (vm_compute; reflexivity).
  rewrite Hn in E. assert (Hd : n.(nd_data) = sample_config) by (apply (inj Some); exact E).
  rewrite <- Hd. exact Hc.
Defined.
