(* ===== verification/Lists.v ===== *)
(** * Rule lists: sources and schedule

    [internal/lists/lists.go] and [manager.go]: the kind of a list, the sources
    a state needs, and the manager that keeps their parsed contents.  The
    downloads run outside the manager's lock, several at a time; each carries
    the token its source had when the download was planned. *)

From Stdlib Require Import Ascii.
From S2P Require Import Prelude GoStd Model RealityStore SingBox Generate.
#[local] Open Scope Z_scope.

(** ** Kinds and contents *)
Inductive Format := FormatSRS | FormatJSON | FormatPlain.
#[export] Instance format_eq_dec : EqDecision Format.
Proof. solve_decision. Defined.

#[export] Instance native_eq_dec : EqDecision NativeArtifact.
Proof. solve_decision. Defined.

(** [List]; the hashes of a native artifact are part of its paths. *)
Record List_ := MkList {
  l_native : option NativeArtifact;
  l_domains : list string;
  l_subnets : list string;
  l_transport : list string;
  l_skipped : Z
}.
#[export] Instance list_eq_dec_ : EqDecision List_.
Proof. solve_decision. Defined.

Definition communitySubnets : list string :=
  ["twitter"; "meta"; "discord"; "roblox"; "telegram"; "cloudflare"; "hetzner"; "ovh"; "digitalocean"; "cloudfront"]%string.
Definition CommunitySubnetURL (key : string) : option string :=
  if decide (key ∈ communitySubnets)
  then Some ("https://raw.githubusercontent.com/itdoginfo/allow-domains/main/Subnets/IPv4/" +:+ key +:+ ".lst") else None.
Definition CommunitySRSURL (key : string) : string :=
  "https://github.com/itdoginfo/allow-domains/releases/latest/download/" +:+ key +:+ ".srs".

Record Source := MkSource { src_url : string; src_format : Format }.
#[export] Instance source_eq_dec : EqDecision Source.
Proof. solve_decision. Defined.

Section lists.
Context `{Platform}.

Definition FormatOf (raw : string) : Format :=
  let p := match URLPath raw with Some p => if decide (p <> EmptyString) then p else raw | None => raw end in
  let ext := ToLowerASCII (Ext p) in
  if decide (ext = ".srs"%string) then FormatSRS
  else if decide (ext = ".json"%string) then FormatJSON else FormatPlain.

(** [Sources]: the closure [add], the addresses of a rule in their order. *)
Definition add_source (out : list Source) (url : string) : list Source :=
  if decide (url = EmptyString \/ url ∈ map src_url out) then out else out ++ [MkSource url (FormatOf url)].
Definition rule_urls (r : Rule) : list string :=
  if r.(r_enabled) then
    flat_map (fun key => CommunitySRSURL key :: match CommunitySubnetURL key with Some url => [url] | None => [] end) r.(r_community) ++
    r.(r_remote)
  else [].
Definition Sources (sn : SnapshotT) : list Source := foldl add_source [] (flat_map rule_urls sn.(sn_rules)).

(** ** The manager *)

(** Times are when the source answered or failed; [None] is the zero time. *)
Record SourceState := MkState {
  ss_updated : option Z; ss_failed : option Z; ss_err : string; ss_cached : bool }.

(** What [Fetcher.Update] returns: the contents, when the source answered, and
    why the contents are not fresh. *)
Record Refreshed := MkRefreshed { rf_list : List_; rf_fetched : option Z; rf_stale : option string }.

Record Manager := MkManager {
  mg_requested : list Source;
  mg_committed : list Source;
  mg_tokens : gmap string Z;
  mg_next : Z;                      (** [uint64] *)
  mg_sources : list Source;
  mg_lists : gmap string List_;
  mg_states : gmap string SourceState;
  mg_last : option Z
}.
Definition NewManager : Manager := MkManager [] [] ∅ 0 [] ∅ ∅ None.

(** One source of [reconcileSources]: a source keeps its token as long as some
    owner keeps it. *)
Definition own_source (old : gmap string Z) (acc : gmap string Z * list Source * Z) (src : Source)
  : gmap string Z * list Source * Z :=
  let '(tokens, sources, next) := acc in
  if decide (is_Some (tokens !! src.(src_url))) then acc
  else match old !! src.(src_url) with
       | Some token => (<[src.(src_url) := token]> tokens, sources ++ [src], next)
       | None => let next := (next + 1) mod 2 ^ 64 in (<[src.(src_url) := next]> tokens, sources ++ [src], next)
       end.
Definition retained {A} (tokens : gmap string Z) (m : gmap string A) : gmap string A :=
  filter (fun p => is_Some (tokens !! p.1) \/ FormatOf p.1 <> FormatPlain) m.
Definition reconcileSources (m : Manager) : Manager :=
  let '(tokens, sources, next) := foldl (own_source m.(mg_tokens)) (∅, [], m.(mg_next)) (m.(mg_requested) ++ m.(mg_committed)) in
  MkManager m.(mg_requested) m.(mg_committed) tokens next sources (retained tokens m.(mg_lists)) (retained tokens m.(mg_states)) m.(mg_last).

Definition SetSources (src : list Source) (m : Manager) : Manager :=
  reconcileSources (MkManager src m.(mg_committed) m.(mg_tokens) m.(mg_next) m.(mg_sources) m.(mg_lists) m.(mg_states) m.(mg_last)).
Definition SetCommittedSources (src : list Source) (m : Manager) : Manager :=
  reconcileSources (MkManager m.(mg_requested) src m.(mg_tokens) m.(mg_next) m.(mg_sources) m.(mg_lists) m.(mg_states) m.(mg_last)).

(** ** A round of downloads *)

(** What [Refresh] copies under the lock before it downloads. *)
Definition token_of (m : Manager) (url : string) : Z := default 0 (m.(mg_tokens) !! url).
Definition planned (m : Manager) : list (Source * Z) := map (fun src => (src, token_of m src.(src_url))) m.(mg_sources).

Definition state_of (m : Manager) (url : string) : SourceState :=
  default (MkState None None EmptyString false) (m.(mg_states) !! url).
Definition with_states (f : gmap string SourceState -> gmap string SourceState) (m : Manager) : Manager :=
  MkManager m.(mg_requested) m.(mg_committed) m.(mg_tokens) m.(mg_next) m.(mg_sources) m.(mg_lists) (f m.(mg_states)) m.(mg_last).

(** [storeState] and [failState]; [now] is the clock. *)
Definition storeState (url : string) (res : Refreshed) (now : Z) (m : Manager) : Manager :=
  let prev := state_of m url in
  with_states (<[url := match res.(rf_stale) with
                        | Some err => MkState prev.(ss_updated) (Some now) err true
                        | None => MkState res.(rf_fetched) None EmptyString true
                        end]>) m.
Definition failState (url : string) (token : Z) (err : string) (now : Z) (m : Manager) : Manager :=
  if decide (token_of m url <> token) then m
  else let prev := state_of m url in
       with_states (<[url := MkState prev.(ss_updated) (Some now) err prev.(ss_cached)]>) m.

(** The end of one download of the round. *)
Definition finish (url : string) (token : Z) (res : Refreshed + string) (now : Z) (m : Manager) : Manager :=
  match res with
  | inr err => failState url token err now m
  | inl res =>
      if decide (token_of m url = token) then
        storeState url res now
          (MkManager m.(mg_requested) m.(mg_committed) m.(mg_tokens) m.(mg_next) m.(mg_sources)
             (<[url := res.(rf_list)]> m.(mg_lists)) m.(mg_states) m.(mg_last))
      else m
  end.
(** Does the round report an error for this source? *)
Definition reported (src : Source) (res : Refreshed + string) : bool :=
  match res with
  | inr _ => true
  | inl res => bool_decide (is_Some res.(rf_stale) /\ src.(src_format) <> FormatPlain)
  end.
Definition finish_round (now : Z) (m : Manager) : Manager :=
  MkManager m.(mg_requested) m.(mg_committed) m.(mg_tokens) m.(mg_next) m.(mg_sources) m.(mg_lists) m.(mg_states) (Some now).

(** A round that nothing interrupts: the sources in their order, and whether
    it returns an error. *)
Definition Refresh (answer : string -> Refreshed + string) (now : Z) (m : Manager) : bool * Manager :=
  let plan := planned m in
  (existsb (fun p => reported p.1 (answer p.1.(src_url))) plan,
   finish_round now (foldl (fun m p => finish p.1.(src_url) p.2 (answer p.1.(src_url)) now m) m plan)).

(** The pause until the next round: [loop] after a round, with its backoff. *)
Definition defaultRetry : Z := minute.
Definition maxRetryBackoff : Z := 15 * minute.
Definition next_wait (interval retry backoff : Z) (failed : bool) : Z * Z :=
  if failed then (if decide (backoff < interval) then backoff else interval,
                  if decide (backoff < maxRetryBackoff) then backoff * 2 else backoff)
  else (interval, retry).

(** [dedup] of [parse.go] sorts; [Subnets] of the manager. *)
Definition dedup_sorted (l : list string) : list string := merge_sort String.le (dedup_from [] l).
Definition Subnets (m : Manager) : list string := dedup_sorted (flat_map (fun p => p.2.(l_subnets)) (map_to_list m.(mg_lists))).

(** ** Interleavings *)
Inductive Event :=
  | EvSetSources (src : list Source)
  | EvSetCommitted (src : list Source)
  | EvFinish (url : string) (token : Z) (res : Refreshed + string) (now : Z)
  | EvRound (now : Z).
Definition apply_event (m : Manager) (e : Event) : Manager :=
  match e with
  | EvSetSources src => SetSources src m
  | EvSetCommitted src => SetCommittedSources src m
  | EvFinish url token res now => finish url token res now m
  | EvRound now => finish_round now m
  end.
Definition run_events (m : Manager) (es : list Event) : Manager := foldl apply_event m es.
End lists.

(** ** Ownership *)
Section ownership.
Context `{Platform}.

Definition urls (m : Manager) : list string := map src_url m.(mg_sources).
Definition new_in (old : gmap string Z) (l : list Source) : list Source := filter (fun s => old !! s.(src_url) = None) l.

(** The state of [reconcileSources] after some of the sources. *)
Record owning (old : gmap string Z) (n : Z) (l : list Source) (acc : gmap string Z * list Source * Z) : Prop := {
  ow_dom : forall u, is_Some (acc.1.1 !! u) <-> u ∈ map src_url l;
  ow_src : forall u, u ∈ map src_url acc.1.2 <-> u ∈ map src_url l;
  ow_tokens : forall u t, acc.1.1 !! u = Some t -> old !! u = Some t \/ old !! u = None /\ n < t <= acc.2;
  ow_next : n <= acc.2 <= n + Z.of_nat (length (new_in old l));
  ow_NoDup : NoDup (map src_url acc.1.2)
}.

Lemma own_source_step old n l acc src : 0 <= n -> n + Z.of_nat (length (new_in old (l ++ [src]))) < 2 ^ 64 ->
  owning old n l acc -> owning old n (l ++ [src]) (own_source old acc src).
Proof.
  intros Hn Hb [Hd Hs Ht Hx Hnd]. destruct acc as [[tokens sources] next]. cbn [fst snd] in *.
  unfold new_in in *. rewrite filter_app, length_app in Hb.
  assert (Hmem : forall u, u ∈ map src_url (l ++ [src]) <-> u ∈ map src_url l \/ u = src.(src_url)).
  { intros u. rewrite map_app, elem_of_app. cbn [map]. rewrite list_elem_of_singleton. done. }
  unfold own_source. destruct (decide _) as [Hin|Hin].
  { assert (Hu : src.(src_url) ∈ map src_url l) by (by apply Hd). split; cbn [fst snd]; unfold new_in.
    - intros u. rewrite Hmem, Hd. naive_solver.
    - intros u. rewrite Hmem, Hs. naive_solver.
    - done.
    - rewrite filter_app, length_app. lia.
    - done. }
  assert (Hfresh : src.(src_url) ∉ map src_url sources) by (rewrite Hs, <- Hd; done).
  assert (Hdom : forall t u, is_Some (<[src_url src := t]> tokens !! u) <-> u ∈ map src_url (l ++ [src])).
  { intros t u. rewrite Hmem, <- Hd. destruct (decide (u = src.(src_url))) as [->|Hne].
    - rewrite lookup_insert_eq. naive_solver.
    - rewrite lookup_insert_ne by done. naive_solver. }
  assert (Hsrc : forall u, u ∈ map src_url (sources ++ [src]) <-> u ∈ map src_url (l ++ [src])).
  { intros u. rewrite Hmem, <- Hs, map_app, elem_of_app. cbn [map]. rewrite list_elem_of_singleton. done. }
  assert (HND : NoDup (map src_url (sources ++ [src]))).
  { rewrite map_app. apply NoDup_app. split; [done|]. split; [|apply NoDup_singleton]. set_solver. }
  destruct (old !! src_url src) as [token|] eqn:Hold; split; cbn [fst snd]; unfold new_in; try done.
  - intros u t. destruct (decide (u = src.(src_url))) as [->|Hne]; [rewrite lookup_insert_eq|rewrite lookup_insert_ne by done; apply Ht].
    intros [= <-]. by left.
  - rewrite filter_app, length_app. lia.
  - assert (Hone : length (filter (fun s => old !! s.(src_url) = None) [src]) = 1%nat) by (by rewrite filter_cons_True).
    rewrite Hone in Hb. rewrite Z.mod_small by lia. intros u t.
    destruct (decide (u = src.(src_url))) as [->|Hne]; [rewrite lookup_insert_eq|rewrite lookup_insert_ne by done].
    + intros [= <-]. right. split; [done|lia].
    + intros Hu. destruct (Ht u t Hu) as [|[? ?]]; [by left|]. right. split; [done|lia].
  - assert (Hone : length (filter (fun s => old !! s.(src_url) = None) [src]) = 1%nat) by (by rewrite filter_cons_True).
    rewrite filter_app, length_app, Hone in *. rewrite Z.mod_small by lia. lia.
Qed.

Lemma own_sources old n l : 0 <= n -> n + Z.of_nat (length (new_in old l)) < 2 ^ 64 ->
  owning old n l (foldl (own_source old) (∅, [], n) l).
Proof.
  intros Hn. induction l as [|src l IH] using rev_ind; intros Hb.
  - split; cbn [foldl fst snd new_in filter length list_filter map]; intros; try (rewrite lookup_empty in *); try done; [|lia|constructor].
    split; [by intros [? ?]|by intros ?%elem_of_nil].
  - rewrite foldl_app. cbn [foldl]. apply own_source_step; [done|done|]. apply IH.
    unfold new_in in *. rewrite filter_app, length_app in Hb. lia.
Qed.

(** The invariant of the manager. *)
Record manager_ok (m : Manager) : Prop := {
  mo_next : 0 <= m.(mg_next);
  mo_dom : forall u, is_Some (m.(mg_tokens) !! u) <-> u ∈ urls m;
  mo_tokens : forall u t, m.(mg_tokens) !! u = Some t -> 0 < t <= m.(mg_next);
  mo_owned : forall u, u ∈ urls m <-> u ∈ map src_url (m.(mg_requested) ++ m.(mg_committed));
  mo_lists : forall u, is_Some (m.(mg_lists) !! u) -> FormatOf u = FormatPlain -> u ∈ urls m;
  mo_NoDup : NoDup (urls m)
}.
Lemma NewManager_ok : manager_ok NewManager.
Proof.
  split; cbn [NewManager mg_next mg_tokens mg_requested mg_committed mg_lists app map]; unfold urls; cbn [mg_sources map]; try lia.
  - intros u. rewrite lookup_empty. split; [by intros [? ?]|by intros ?%elem_of_nil].
  - done.
  - done.
  - intros u. rewrite lookup_empty. by intros [? ?].
  - constructor.
Qed.

(** How many sources an event may register. *)
Definition registrations (e : Event) : nat :=
  match e with EvSetSources src | EvSetCommitted src => length src | _ => 0 end.

(** The token of a download is one that a source had. *)
Definition planned_event (e : Event) : Prop := match e with EvFinish _ token _ _ => 0 < token | _ => True end.

Lemma reconcile_ok m : 0 <= m.(mg_next) -> (forall u t, m.(mg_tokens) !! u = Some t -> 0 < t <= m.(mg_next)) ->
  m.(mg_next) + Z.of_nat (length (new_in m.(mg_tokens) (m.(mg_requested) ++ m.(mg_committed)))) < 2 ^ 64 ->
  let m' := reconcileSources m in
  manager_ok m' /\ m.(mg_next) <= m'.(mg_next) <= m.(mg_next) + Z.of_nat (length (new_in m.(mg_tokens) (m.(mg_requested) ++ m.(mg_committed)))) /\
  m'.(mg_requested) = m.(mg_requested) /\ m'.(mg_committed) = m.(mg_committed) /\
  (forall u t, m'.(mg_tokens) !! u = Some t -> m.(mg_tokens) !! u = Some t \/ m.(mg_tokens) !! u = None /\ m.(mg_next) < t).
Proof.
  intros Hn Ht Hb. pose proof (own_sources m.(mg_tokens) m.(mg_next) _ Hn Hb) as How. cbv zeta. unfold reconcileSources.
  destruct (foldl _ _ _) as [[tokens sources] next]. destruct How as [Hd Hs Hx Hnx Hnd]. cbn [fst snd] in *.
  cbn [mg_next mg_requested mg_committed mg_tokens]. split; [|split; [lia|split; [done|split; [done|]]]].
  - split; unfold urls; cbn [mg_next mg_tokens mg_sources mg_requested mg_committed mg_lists].
    + lia.
    + intros u. by rewrite Hd, Hs.
    + intros u t Hu. destruct (Hx u t Hu) as [Hold|[_ ?]]; [|lia]. specialize (Ht _ _ Hold). lia.
    + intros u. by rewrite Hs.
    + intros u [l Hl] Hp. apply map_lookup_filter_Some in Hl as [_ [Hin|]]; [|done]. by rewrite Hs, <- Hd.
    + done.
  - intros u t Hu. destruct (Hx u t Hu) as [|[? ?]]; [by left|]. right. split; [done|lia].
Qed.

Lemma new_in_owned old l : (forall u, u ∈ map src_url l -> is_Some (old !! u)) -> new_in old l = [].
Proof.
  intros Hall. unfold new_in. apply filter_nil_iff. intros s Hs E. destruct (Hall s.(src_url)) as [t Ht]; [by apply list_elem_of_fmap_2|]. by rewrite E in Ht.
Qed.
Lemma new_in_length old l : (length (new_in old l) <= length l)%nat.
Proof. apply length_filter. Qed.

(** One event: the invariant holds, tokens only grow, and a source has the same
    token afterwards exactly when it was owned before and is owned now. *)
Lemma event_ok m e : manager_ok m -> planned_event e -> m.(mg_next) + Z.of_nat (registrations e) < 2 ^ 64 ->
  let m' := apply_event m e in
  manager_ok m' /\ m.(mg_next) <= m'.(mg_next) <= m.(mg_next) + Z.of_nat (registrations e) /\
  (forall u t, m'.(mg_tokens) !! u = Some t -> m.(mg_tokens) !! u = Some t \/ m.(mg_tokens) !! u = None /\ m.(mg_next) < t).
Proof.
  intros Hok Hp Hb. destruct Hok as [Hn Hd Ht How Hl Hnd].
  assert (Hold : forall u, u ∈ map src_url m.(mg_requested) \/ u ∈ map src_url m.(mg_committed) -> is_Some (m.(mg_tokens) !! u)).
  { intros u Hu. rewrite Hd, How, map_app, elem_of_app. done. }
  assert (Hsame : forall m', manager_ok m' -> m'.(mg_next) = m.(mg_next) -> m'.(mg_tokens) = m.(mg_tokens) ->
    manager_ok m' /\ m.(mg_next) <= m'.(mg_next) <= m.(mg_next) + Z.of_nat (registrations e) /\
    (forall u t, m'.(mg_tokens) !! u = Some t -> m.(mg_tokens) !! u = Some t \/ m.(mg_tokens) !! u = None /\ m.(mg_next) < t)).
  { intros m' Hm' -> ->. split; [done|]. split; [lia|]. intros u t. by left. }
  destruct e as [src|src|url token res now|now]; cbn [apply_event registrations] in *.
  - unfold SetSources. set (m1 := MkManager src _ _ _ _ _ _ _).
    assert (Hc : (length (new_in (mg_tokens m1) (mg_requested m1 ++ mg_committed m1)) <= length src)%nat).
    { unfold new_in. rewrite filter_app, length_app. fold (new_in (mg_tokens m1) (mg_committed m1)).
      rewrite (new_in_owned _ (mg_committed m1)) by (intros u Hu; apply Hold; by right). pose proof (new_in_length (mg_tokens m1) (mg_requested m1)).
      unfold new_in in *. cbn [length]. cbn [m1 mg_requested] in *. lia. }
    destruct (reconcile_ok m1) as (Hok' & Hnx & _ & _ & Htk); [done|done|cbn [m1 mg_next] in *; lia|].
    split; [exact Hok'|]. split; [cbn [m1 mg_next] in Hnx; lia|exact Htk].
  - unfold SetCommittedSources. set (m1 := MkManager _ src _ _ _ _ _ _).
    assert (Hc : (length (new_in (mg_tokens m1) (mg_requested m1 ++ mg_committed m1)) <= length src)%nat).
    { unfold new_in. rewrite filter_app, length_app. fold (new_in (mg_tokens m1) (mg_requested m1)).
      rewrite (new_in_owned _ (mg_requested m1)) by (intros u Hu; apply Hold; by left). pose proof (new_in_length (mg_tokens m1) (mg_committed m1)).
      unfold new_in in *. cbn [length]. cbn [m1 mg_committed] in *. lia. }
    destruct (reconcile_ok m1) as (Hok' & Hnx & _ & _ & Htk); [done|done|cbn [m1 mg_next] in *; lia|].
    split; [exact Hok'|]. split; [cbn [m1 mg_next] in Hnx; lia|exact Htk].
  - apply Hsame; unfold finish, failState, storeState, with_states; destruct res as [res|err]; destruct (decide _) as [Htok|Htok]; try done.
    split; cbn [mg_next mg_tokens mg_requested mg_committed mg_lists]; try done.
    intros u Hu Hf. destruct (decide (u = url)) as [->|Hne]; [|rewrite lookup_insert_ne in Hu by done; by apply Hl].
    apply Hd. unfold token_of in Htok. destruct (mg_tokens m !! url); [done|]. cbn in Htok, Hp. lia.
  - by apply Hsame.
Qed.

Lemma run_events_app m a b : run_events m (a ++ b) = run_events (run_events m a) b.
Proof. apply foldl_app. Qed.

Definition all_registrations (es : list Event) : nat := sum_list_with registrations es.

Lemma events_ok es m : manager_ok m -> Forall planned_event es -> m.(mg_next) + Z.of_nat (all_registrations es) < 2 ^ 64 ->
  let m' := run_events m es in
  manager_ok m' /\ m.(mg_next) <= m'.(mg_next) <= m.(mg_next) + Z.of_nat (all_registrations es) /\
  (forall u t, m'.(mg_tokens) !! u = Some t -> m.(mg_tokens) !! u = Some t \/ m.(mg_next) < t).
Proof.
  revert m. induction es as [|e es IH]; intros m Hok Hp Hb; cbn [run_events foldl].
  - split; [done|]. split; [cbn; lia|]. intros u t. by left.
  - unfold all_registrations in *. cbn [sum_list_with] in *. apply Forall_cons in Hp as [Hpe Hp].
    destruct (event_ok m e Hok Hpe) as (Hok1 & Hn1 & Ht1); [lia|].
    destruct (IH (apply_event m e) Hok1 Hp) as (Hok2 & Hn2 & Ht2); [lia|]. fold (run_events (apply_event m e) es) in *.
    split; [done|]. split; [lia|]. intros u t Hu. destruct (Ht2 u t Hu) as [Hu1|]; [|right; lia].
    destruct (Ht1 u t Hu1) as [|[_ ?]]; [by left|right; lia].
Qed.

(** A source that stays owned keeps its token. *)
Lemma reconcile_keeps m u t : 0 <= m.(mg_next) -> m.(mg_next) + Z.of_nat (length (new_in m.(mg_tokens) (m.(mg_requested) ++ m.(mg_committed)))) < 2 ^ 64 ->
  m.(mg_tokens) !! u = Some t -> u ∈ urls (reconcileSources m) -> (reconcileSources m).(mg_tokens) !! u = Some t.
Proof.
  intros Hn Hb Ht. pose proof (own_sources m.(mg_tokens) m.(mg_next) _ Hn Hb) as How. unfold reconcileSources.
  destruct (foldl _ _ _) as [[tokens sources] next]. destruct How as [Hd Hs Hx _ _]. unfold urls. cbn [fst snd mg_sources mg_tokens] in *.
  intros Hu%Hs%Hd. destruct Hu as [t' Ht']. destruct (Hx u t' Ht') as [E|[E _]]; [|by rewrite E in Ht].
  rewrite E in Ht. by injection Ht as ->.
Qed.

Lemma event_keeps m e u t : manager_ok m -> m.(mg_next) + Z.of_nat (registrations e) < 2 ^ 64 ->
  m.(mg_tokens) !! u = Some t -> u ∈ urls (apply_event m e) -> (apply_event m e).(mg_tokens) !! u = Some t.
Proof.
  intros [Hn Hd Ht How Hl Hnd] Hb Hu.
  assert (Hold : forall u, u ∈ map src_url m.(mg_requested) \/ u ∈ map src_url m.(mg_committed) -> is_Some (m.(mg_tokens) !! u)).
  { intros v Hv. rewrite Hd, How, map_app, elem_of_app. done. }
  destruct e as [src|src|url token res now|now]; cbn [apply_event registrations] in *; [| | |done].
  - apply reconcile_keeps; [done| |done]. cbn [mg_next mg_tokens mg_requested mg_committed]. unfold new_in. rewrite filter_app, length_app.
    fold (new_in m.(mg_tokens) m.(mg_committed)). rewrite (new_in_owned _ m.(mg_committed)) by (intros v Hv; apply Hold; by right).
    pose proof (new_in_length m.(mg_tokens) src). unfold new_in in *. cbn [length]. lia.
  - apply reconcile_keeps; [done| |done]. cbn [mg_next mg_tokens mg_requested mg_committed]. unfold new_in. rewrite filter_app, length_app.
    fold (new_in m.(mg_tokens) m.(mg_requested)). rewrite (new_in_owned _ m.(mg_requested)) by (intros v Hv; apply Hold; by left).
    pose proof (new_in_length m.(mg_tokens) src). unfold new_in in *. cbn [length]. lia.
  - intros _. unfold finish, failState, storeState, with_states. destruct res; by destruct (decide _).
Qed.

(** Was the source owned after every one of the events? *)
Fixpoint owned_throughout (u : string) (m : Manager) (es : list Event) : Prop :=
  u ∈ urls m /\ match es with [] => True | e :: es => owned_throughout u (apply_event m e) es end.

Lemma token_continuous u es m t : manager_ok m -> Forall planned_event es ->
  m.(mg_next) + Z.of_nat (all_registrations es) < 2 ^ 64 -> m.(mg_tokens) !! u = Some t ->
  (run_events m es).(mg_tokens) !! u = Some t <-> owned_throughout u m es.
Proof.
  revert m. induction es as [|e es IH]; intros m Hok Hp Hb Ht; cbn [run_events foldl owned_throughout].
  { split; [|done]. intros _. split; [|done]. apply (mo_dom _ Hok). by exists t. }
  apply Forall_cons in Hp as [Hpe Hp]. unfold all_registrations in *. cbn [sum_list_with] in *.
  destruct (event_ok m e Hok Hpe) as (Hok1 & Hn1 & Ht1); [lia|]. fold (run_events (apply_event m e) es).
  assert (Hu : u ∈ urls m) by (apply (mo_dom _ Hok); by exists t).
  destruct (decide (u ∈ urls (apply_event m e))) as [Hin|Hout].
  - assert (Ht2 : (apply_event m e).(mg_tokens) !! u = Some t) by (apply event_keeps; [done|lia|done..]).
    rewrite (IH _ Hok1 Hp) by (lia || done). tauto.
  - split.
    + intros Hend. exfalso. destruct (events_ok es (apply_event m e) Hok1 Hp) as (_ & _ & Ht2); [unfold all_registrations; lia|].
      destruct (Ht2 _ _ Hend) as [Hm|Hlt]; [apply Hout, (mo_dom _ Hok1); by exists t|].
      pose proof (mo_tokens _ Hok _ _ Ht). lia.
    + intros [_ Ho]. destruct es; cbn in Ho; tauto.
Qed.

(** the manager drops what arrives late.  Whatever happens while a list is being
    downloaded (sources requested and committed anew, other downloads ending),
    its contents are stored exactly when the source was owned all the time; if
    it was dropped in between, even if it was taken up again since, neither the
    contents nor the failure leave a trace. *)
Theorem late_download u es m t res now : manager_ok m -> Forall planned_event es ->
  m.(mg_next) + Z.of_nat (all_registrations es) < 2 ^ 64 -> m.(mg_tokens) !! u = Some t ->
  let m' := run_events m es in
  (owned_throughout u m es -> (finish u t (inl res) now m').(mg_lists) !! u = Some res.(rf_list)) /\
  (~ owned_throughout u m es -> forall r, finish u t r now m' = m') /\
  (forall v r, v <> u -> (finish u t r now m').(mg_lists) !! v = m'.(mg_lists) !! v).
Proof.
  intros Hok Hp Hb Ht m'. pose proof (token_continuous u es m t Hok Hp Hb Ht) as Hc. fold m' in Hc.
  destruct (events_ok es m Hok Hp Hb) as (Hok' & _ & _). fold m' in Hok'.
  split; [|split].
  - intros Ho%Hc. unfold finish, token_of. rewrite Ho. cbn [default from_option id]. rewrite decide_True by done.
    cbn [storeState with_states mg_lists]. by rewrite lookup_insert_eq.
  - intros Hno r. assert (Hne : token_of m' u <> t).
    { unfold token_of. intros E. apply Hno, Hc. destruct (mg_tokens m' !! u) as [t'|]; cbn in E; [by rewrite E|].
      pose proof (mo_tokens _ Hok _ _ Ht). lia. }
    unfold finish, failState. destruct r; [by rewrite decide_False|by rewrite decide_True].
  - intros v r Hne. unfold finish, failState, storeState, with_states. destruct r; destruct (decide _); try done.
    cbn [mg_lists]. by rewrite lookup_insert_ne.
Qed.

(** What the committed policy uses stays: its sources remain owned and no event
    removes their contents, whatever the scheduler asks for. *)
Lemma committed_retained m e u l : manager_ok m -> m.(mg_next) + Z.of_nat (registrations e) < 2 ^ 64 ->
  u ∈ map src_url (apply_event m e).(mg_committed) -> m.(mg_lists) !! u = Some l ->
  is_Some ((apply_event m e).(mg_lists) !! u).
Proof.
  intros Hok Hb Hc Hl. destruct e as [src|src|url token res now|now]; cbn [apply_event registrations] in *; [| | |by exists l].
  3:{ unfold finish, failState, storeState, with_states in *. destruct res; destruct (decide _); try (by exists l). cbn [mg_lists].
      destruct (decide (u = url)) as [->|]; [rewrite lookup_insert_eq; by eexists|rewrite lookup_insert_ne by done; by exists l]. }
  all: unfold SetSources, SetCommittedSources, reconcileSources in *; cbn [mg_tokens mg_next mg_requested mg_committed mg_lists] in *.
  all: match goal with |- context [foldl (own_source ?T) (∅, [], ?n) ?l] => assert (How : owning T n l (foldl (own_source T) (∅, [], n) l)) end.
  1,3: apply own_sources; [apply Hok|]; destruct Hok as [Hn Hd Ht How Hls Hnd]; unfold new_in; rewrite filter_app, length_app.
  - fold (new_in m.(mg_tokens) m.(mg_committed)). rewrite (new_in_owned _ m.(mg_committed)).
    + pose proof (new_in_length m.(mg_tokens) src). unfold new_in in *. cbn [length]. lia.
    + intros v Hv. rewrite Hd, How, map_app, elem_of_app. by right.
  - fold (new_in m.(mg_tokens) m.(mg_requested)). rewrite (new_in_owned _ m.(mg_requested)).
    + pose proof (new_in_length m.(mg_tokens) src). unfold new_in in *. cbn [length]. lia.
    + intros v Hv. rewrite Hd, How, map_app, elem_of_app. by left.
  - destruct (foldl _ _ _) as [[tokens sources] next]. cbn [mg_lists mg_committed] in *. exists l. apply map_lookup_filter_Some. split; [done|]. left.
    apply How. rewrite map_app, elem_of_app. by right.
  - destruct (foldl _ _ _) as [[tokens sources] next]. cbn [mg_lists mg_committed] in *. exists l. apply map_lookup_filter_Some. split; [done|]. left.
    apply How. rewrite map_app, elem_of_app. by right.
Qed.
End ownership.

(** ** Sources of a state *)
Section sources.
Context `{Platform}.

Lemma add_source_spec l : forall out, NoDup (map src_url out) ->
  let out' := foldl add_source out l in
  NoDup (map src_url out') /\
  (forall u, u ∈ map src_url out' <-> u ∈ map src_url out \/ u ∈ l /\ u <> EmptyString) /\
  (forall s, s ∈ out' -> s ∈ out \/ s.(src_format) = FormatOf s.(src_url)).
Proof.
  induction l as [|u l IH]; intros out Hnd; cbn [foldl].
  { split; [done|]. split; [|by left]. intros v. split; [by left|]. intros [|[?%elem_of_nil _]]; done. }
  assert (Hadd : NoDup (map src_url (add_source out u)) /\
    (forall v, v ∈ map src_url (add_source out u) <-> v ∈ map src_url out \/ v = u /\ u <> EmptyString) /\
    (forall s, s ∈ add_source out u -> s ∈ out \/ s.(src_format) = FormatOf s.(src_url))).
  { unfold add_source. destruct (decide _) as [Hin|Hin].
    - split; [done|]. split; [|by left]. intros v. split; [by left|]. intros [|[-> ?]]; [done|]. by destruct Hin.
    - rewrite map_app. cbn [map src_url]. split; [|split].
      + apply NoDup_app. split; [done|]. split; [|apply NoDup_singleton]. set_solver.
      + intros v. rewrite elem_of_app, list_elem_of_singleton. naive_solver.
      + intros s [|Hs]%elem_of_app; [by left|]. apply list_elem_of_singleton in Hs as ->. by right. }
  destruct Hadd as (Hnd1 & Hin1 & Hf1). destruct (IH _ Hnd1) as (Hnd2 & Hin2 & Hf2). split; [done|]. split.
  - intros v. rewrite Hin2, Hin1, elem_of_cons. naive_solver.
  - intros s Hs. destruct (Hf2 s Hs) as [|]; [by apply Hf1|by right].
Qed.

(** The sources are the addresses of the enabled rules, each once. *)
Lemma Sources_spec sn :
  NoDup (map src_url (Sources sn)) /\
  (forall u, u ∈ map src_url (Sources sn) <->
     u <> EmptyString /\ exists r, r ∈ sn.(sn_rules) /\ r.(r_enabled) = true /\
       (u ∈ r.(r_remote) \/ exists key, key ∈ r.(r_community) /\ (u = communityListURL key \/ CommunitySubnetURL key = Some u))) /\
  (forall s, s ∈ Sources sn -> s.(src_format) = FormatOf s.(src_url)).
Proof.
  destruct (add_source_spec (flat_map rule_urls sn.(sn_rules)) []) as (Hnd & Hin & Hf); [constructor|]. fold (Sources sn) in *.
  split; [done|]. split; [|intros s Hs; by destruct (Hf s Hs) as [?%elem_of_nil|]].
  intros u. rewrite Hin. cbn [map]. rewrite elem_of_nil.
  assert (Hrule : forall r, u ∈ rule_urls r <-> r.(r_enabled) = true /\
    (u ∈ r.(r_remote) \/ exists key, key ∈ r.(r_community) /\ (u = communityListURL key \/ CommunitySubnetURL key = Some u))).
  { intros r. unfold rule_urls. destruct (r_enabled r); [|split; [by intros ?%elem_of_nil|by intros [? _]]].
    rewrite elem_of_app, list_elem_of_In, in_flat_map. split.
    - intros [(key & Hk & Hu)|]; split; try done; [|by left]. right. exists key. rewrite list_elem_of_In. split; [done|].
      destruct Hu as [<-|Hu]; [by left|]. right. destruct (CommunitySubnetURL key); [|done]. by destruct Hu as [->|].
    - intros [_ [|(key & Hk & Hu)]]; [by right|]. left. exists key. rewrite <- list_elem_of_In. split; [done|].
      destruct Hu as [ -> | -> ]; [by left|right; by left]. }
  rewrite list_elem_of_In, in_flat_map. split.
  - intros [Hn0|[(r & Hr & Hu) Hne]]; [done|]. split; [done|]. exists r. rewrite list_elem_of_In. split; [done|]. by apply Hrule, list_elem_of_In.
  - intros [Hne (r & Hr & Hu)]. right. split; [|done]. exists r. rewrite <- list_elem_of_In. split; [done|]. by apply list_elem_of_In, Hrule.
Qed.
End sources.

(** ** Witness *)
Definition list_platform : Platform := {| URLPath := Some; Sum256 := fun s => s |}.
Definition sample_source : Source := MkSource "https://lists.example/a.lst" FormatPlain.
Definition sample_manager : Manager := @SetSources list_platform [sample_source] NewManager.
Definition sample_contents (domain : string) : Refreshed := MkRefreshed (MkList None [domain] [] [] 0) (Some 5) None.

Lemma late_download_witness :
  let u := sample_source.(src_url) in
  let taken_up_again := [EvSetSources []; EvSetSources [sample_source]] in
  let pinned := [EvSetCommitted [sample_source]; EvSetSources []] in
  finish u 1 (inl (sample_contents "late")) 9 (run_events (H:=list_platform) sample_manager taken_up_again) =
    run_events (H:=list_platform) sample_manager taken_up_again /\
  (finish u 1 (inl (sample_contents "kept")) 9 (run_events (H:=list_platform) sample_manager pinned)).(mg_lists) !! u =
    Some (sample_contents "kept").(rf_list).
Proof.
  intros u again pinned.
  assert (Hok : @manager_ok list_platform sample_manager).
  { apply (@event_ok list_platform NewManager (EvSetSources [sample_source])); [apply NewManager_ok|exact I|cbn; lia]. }
  split.
  - apply (@late_download list_platform u again sample_manager 1 (sample_contents "late") 9); [exact Hok|by repeat constructor|vm_compute; reflexivity|vm_compute; reflexivity|].
    intros (_ & Ho & _). vm_compute in Ho. inversion Ho.
  - apply (@late_download list_platform u pinned sample_manager 1 (sample_contents "kept") 9); [exact Hok|by repeat constructor|vm_compute; reflexivity|vm_compute; reflexivity|].
    cbn [owned_throughout pinned]. split_and!; try exact I; vm_compute; constructor.
Defined.
