(* ===== verification/Generation.v ===== *)
(** * Network generations

    [internal/networkstate/state.go]: the committed generation and the bootstrap
    record on disk, their versions and how they lose authority;
    [cmd/razdachad]: what a generation consists of ([network_generation.go],
    [apply.go], [lists.go]) and how it becomes the configuration of the packet
    filter ([netfilter_linux.go]). *)

From Stdlib Require Import Ascii.
From S2P Require Import Prelude GoStd Netip Model Db SettingsStore RealityStore SingBox Generate Ingress Lists WgPeers.
From S2P Require Nft NftPolicy.
#[local] Open Scope Z_scope.

#[export] Instance settings_eq_dec : EqDecision Settings.
Proof. solve_decision. Defined.
#[export] Instance snapshot_eq_dec : EqDecision SnapshotT.
Proof. solve_decision. Defined.

(** ** The record *)
Definition CommittedKind : string := "committed".
Definition BootstrapKind : string := "bootstrap".

(** [Lists] is a map that a record may lack. *)
Record Generation := MkGeneration {
  gn_kind : string;
  gn_version : Z;
  gn_policy : SnapshotT;
  gn_lists : option (gmap string List_)
}.
#[export] Instance generation_eq_dec : EqDecision Generation.
Proof. solve_decision. Defined.

(** A file as [Read] looks at it: is it a regular private file of the daemon's
    user that can be read, is it within the limit, and what it decodes to. *)
Record GenFile := MkGenFile { gf_private : bool; gf_bounded : bool; gf_gen : option Generation }.

Definition has_transport (p : Peer) : bool :=
  p.(p_wg_disabled) || p.(p_reality) || bool_decide (p.(p_cred_id) <> EmptyString) || bool_decide (p.(p_revision) <> 0).
Definition has_public (sn : SnapshotT) : bool :=
  sn.(sn_settings).(s_reality) || bool_decide (sn.(sn_identity) <> EmptyString) || bool_decide (sn.(sn_admissions) <> []).
Definition has_native_transport (l : List_) : bool :=
  bool_decide (l.(l_transport) <> []) || match l.(l_native) with Some a => bool_decide (1 < a.(na_version)) | None => false end.
Definition has_egress (p : Peer) : bool := bool_decide (p.(p_egress) <> None).

(** The checks of [Read] on what it decoded. *)
Definition admit_generation (kind : string) (gen : Generation) : result Generation :=
  _ ← guard_err (negb (bool_decide (gen.(gn_version) ∈ [1; 2; 3; 4; 5])) || bool_decide (gen.(gn_kind) <> kind) ||
                 bool_decide (gen.(gn_lists) = None)) ErrOther "invalid committed network generation";
  _ ← guard_err (bool_decide (gen.(gn_version) < 5) && existsb has_transport gen.(gn_policy).(sn_peers))
        ErrOther "transport admission requires generation version 5";
  _ ← guard_err (bool_decide (gen.(gn_version) < 5) && has_public gen.(gn_policy))
        ErrOther "public authentication requires generation version 5";
  _ ← guard_err (bool_decide (gen.(gn_version) < 4) && existsb (fun p => has_native_transport p.2) (map_to_list (default ∅ gen.(gn_lists))))
        ErrOther "native transport requires generation version 4";
  _ ← guard_err (bool_decide (gen.(gn_version) < 3) && existsb has_egress gen.(gn_policy).(sn_peers))
        ErrOther "peer routing requires generation version 3";
  Ok gen.

Definition Read (file : option GenFile) (kind : string) : result Generation :=
  match file with
  | None => fail ErrNotFound "open"
  | Some f =>
      _ ← guard_err (negb f.(gf_private)) ErrOther "routing generation must be private";
      _ ← guard_err (negb f.(gf_bounded)) ErrOther "routing generation exceeds size limit";
      match f.(gf_gen) with
      | None => fail ErrOther "decode committed network generation"
      | Some gen => admit_generation kind gen
      end
  end.

(** [Write]; [bounded] says whether the record is within the limit of [Read]. *)
Definition Write (a : WriteAnswer) (bounded : bool) (gen : Generation) (file : option GenFile) : result unit * option GenFile :=
  match a with
  | NotWritten => (fail ErrOther "create committed generation", file)
  | NotSynced => (fail ErrOther "sync", Some (MkGenFile true bounded (Some gen)))
  | Written => (Ok tt, Some (MkGenFile true bounded (Some gen)))
  end.

Definition readGeneration (file : option GenFile) : result Generation := Read file CommittedKind.
Definition writeGeneration (a : WriteAnswer) (bounded : bool) (gen : Generation) (file : option GenFile) : result unit * option GenFile :=
  Write a bounded (MkGeneration CommittedKind gen.(gn_version) gen.(gn_policy) gen.(gn_lists)) file.

(** ** Losing authority *)

(** The two records of a directory and the copies kept of them. *)
Record Authority := MkAuthority { au_committed : option GenFile; au_bootstrap : option GenFile; au_backups : list GenFile }.
Inductive AuthorityFile := BootstrapFile | CommittedFile.
Definition file_of (name : AuthorityFile) (d : Authority) : option GenFile :=
  match name with BootstrapFile => d.(au_bootstrap) | CommittedFile => d.(au_committed) end.
Definition rename_away (name : AuthorityFile) (d : Authority) : Authority :=
  let backups := d.(au_backups) ++ match file_of name d with Some f => [f] | None => [] end in
  match name with
  | BootstrapFile => MkAuthority d.(au_committed) None backups
  | CommittedFile => MkAuthority None d.(au_bootstrap) backups
  end.

(** What the system answers for one file: can it be examined, renamed, and the
    directory synced. *)
Record FileAnswers := MkFileAnswers { fa_lstat : bool; fa_rename : bool; fa_sync : bool }.
Definition invalidate_file (a : FileAnswers) (name : AuthorityFile) (d : Authority) : result unit * Authority :=
  if negb a.(fa_lstat) then (fail ErrOther "lstat", d)
  else match file_of name d with
       | None => (Ok tt, d)
       | Some _ =>
           if negb a.(fa_rename) then (fail ErrOther "invalidate routing generation", d)
           else (guard_err (negb a.(fa_sync)) ErrOther "sync directory", rename_away name d)
       end.
Definition invalidate (boot committed : FileAnswers) (sync : bool) (d : Authority) : result unit * Authority :=
  match invalidate_file boot BootstrapFile d with
  | (Err e, d) => (Err e, d)
  | (Ok _, d) =>
      match invalidate_file committed CommittedFile d with
      | (Err e, d) => (Err e, d)
      | (Ok _, d) => (guard_err (negb sync) ErrOther "sync directory", d)
      end
  end.

(** [DiscardBootstrap]; a file that is not there only needs the sync. *)
Definition DiscardBootstrap (removed sync : bool) (file : option GenFile) : result unit * option GenFile :=
  match file with
  | Some _ => if negb removed then (fail ErrOther "discard bootstrap authority", file)
              else (guard_err (negb sync) ErrOther "sync directory", None)
  | None => (guard_err (negb sync) ErrOther "sync directory", None)
  end.

Definition CheckFreshDirectory (lstat : bool) (d : Authority) : result unit :=
  _ ← guard_err (negb lstat) ErrOther "lstat";
  guard_err (bool_decide (is_Some d.(au_committed)) || bool_decide (is_Some d.(au_bootstrap))) ErrOther "orphan routing authority".

(** The record a start recovers: [recover] and [initialWGSettings]; [Ok None]
    when there is neither. *)
Definition recoverable (d : Authority) : result (option Generation) :=
  let missing {A} (r : result A) := match r with Err e => bool_decide (e.(err_kind) = ErrNotFound) | Ok _ => false end in
  let committed := readGeneration d.(au_committed) in
  let gen := if missing committed then Read d.(au_bootstrap) BootstrapKind else committed in
  match gen with
  | Ok gen => Ok (Some gen)
  | Err e => if decide (e.(err_kind) = ErrNotFound) then Ok None else Err e
  end.

(** ** The policy and its copy *)

(** [json.Marshal] compacts a [RawMessage] (the white space outside of its
    strings goes, the characters special in HTML and the two separators of
    JavaScript are escaped) and writes a missing one as [null]; reading keeps
    these bytes.  The other fields of a state are texts that came from JSON or
    from this program, numbers and times, and return as they were. *)
Definition ascii_char (n : nat) : ascii := ascii_of_nat n.
Fixpoint compact (inside : bool) (s : string) : string :=
  match s with
  | EmptyString => EmptyString
  | String c s' =>
      if negb inside then
        if Json.is_ws c then compact false s'
        else String c (compact (bool_decide (byte_of c = 34)) s')
      else if decide (byte_of c = 92) then
        match s' with
        | String e s'' => String c (String e (compact true s''))
        | EmptyString => String c EmptyString
        end
      else if decide (byte_of c = 34) then String c (compact false s')
      else if decide (byte_of c = 60) then "\u003c" +:+ compact true s'
      else if decide (byte_of c = 62) then "\u003e" +:+ compact true s'
      else if decide (byte_of c = 38) then "\u0026" +:+ compact true s'
      else match s' with
           | String a (String b s'') =>
               if decide (byte_of c = 226 /\ byte_of a = 128 /\ byte_of b = 168) then "\u2028" +:+ compact true s''
               else if decide (byte_of c = 226 /\ byte_of a = 128 /\ byte_of b = 169) then "\u2029" +:+ compact true s''
               else String c (compact true s')
           | _ => String c (compact true s')
           end
  end.
Definition copy_raw (raw : string) : result string :=
  if decide (raw = EmptyString) then Ok "null"%string
  else if Json.Valid raw then Ok (compact false raw) else fail ErrOther "copy candidate policy".
Definition copy_tunnel (t : Tunnel) : result Tunnel :=
  parsed ← copy_raw t.(t_parsed);
  Ok (MkTunnel t.(t_id) t.(t_name) t.(t_type) t.(t_source) t.(t_raw) parsed t.(t_enabled) t.(t_created) t.(t_pool)
        t.(t_pool_updated) t.(t_builtin) t.(t_country)).
Definition copy_policy (sn : SnapshotT) : result SnapshotT :=
  tunnels ← mapM copy_tunnel sn.(sn_tunnels);
  Ok (MkSnapshot sn.(sn_settings) tunnels sn.(sn_rules) sn.(sn_peers) sn.(sn_identity) sn.(sn_admissions)).

(** [withPoolServers]: only what a crawl found moves, and only into pools that
    are applied already.  Of several fresh tunnels with one identifier the last
    counts. *)
Definition fresh_pools (fresh : SnapshotT) : gmap string Tunnel :=
  foldl (fun m t => if decide (t.(t_source) = SourcePool) then <[t.(t_id) := t]> m else m) ∅ fresh.(sn_tunnels).
Definition with_servers (pools : gmap string Tunnel) (t : Tunnel) : Tunnel :=
  if decide (t.(t_source) <> SourcePool) then t
  else match pools !! t.(t_id) with
       | None => t
       | Some f => MkTunnel t.(t_id) t.(t_name) t.(t_type) t.(t_source) t.(t_raw) t.(t_parsed) t.(t_enabled) t.(t_created) f.(t_pool)
                     f.(t_pool_updated) t.(t_builtin) t.(t_country)
       end.
Definition withPoolServers (base fresh : SnapshotT) : SnapshotT :=
  MkSnapshot base.(sn_settings) (map (with_servers (fresh_pools fresh)) base.(sn_tunnels)) base.(sn_rules) base.(sn_peers)
    base.(sn_identity) base.(sn_admissions).

(** ** The contents of the lists *)
Section contents.
Context `{Platform}.

Definition frozenPlainLists (contents : gmap string List_) : PlainLists := fun url =>
  l ← contents !! url;
  Some (MkPlain l.(l_domains) l.(l_subnets) l.(l_native) l.(l_transport)
          match l.(l_native) with Some a => bool_decide (a.(na_version) = ProjectionVersion) | None => false end).

Definition ruleSubnets (rules : list Rule) : list string := flat_map (fun r => if Nft.RuleMarksSubnets r then r.(r_subnets) else []) rules.
Definition list_at (contents : gmap string List_) (url : string) : List_ := default (MkList None [] [] [] 0) (contents !! url).
Definition generationSubnets (sn : SnapshotT) (contents : gmap string List_) : list string :=
  ruleSubnets sn.(sn_rules) ++ flat_map (fun src => (list_at contents src.(src_url)).(l_subnets)) (Sources sn).
Definition generationTransportSubnets (sn : SnapshotT) (contents : gmap string List_) : list string :=
  flat_map (fun src => (list_at contents src.(src_url)).(l_transport)) (Sources sn).

(** The configuration that [publish] of [startNetfilter] builds; the interface
    is detected once. *)
Definition nft_config (wan : string) (sn : SnapshotT) (contents : gmap string List_) : Nft.NftConfig :=
  Nft.MkNftConfig (Nft.PeerEgressSources sn.(sn_peers)) EmptyString wan sn.(sn_settings).(s_wg_server)
    (generationSubnets sn contents) (generationTransportSubnets sn contents).

(** The selection at the beginning of [publish]: every source of the policy
    must be loaded, and a list in sing-box's own format must carry a checked
    artifact; [verify] is [NativeArtifact.Verify] on the files of the moment. *)
Fixpoint select_lists (verify : List_ -> bool) (contents : gmap string List_) (l : list Source) (selected : gmap string List_)
  : result (gmap string List_) :=
  match l with
  | [] => Ok selected
  | src :: l =>
      match contents !! src.(src_url) with
      | None => fail ErrOther "required list is not loaded"
      | Some c =>
          if decide (src.(src_format) <> FormatPlain) then
            match c.(l_native) with
            | None => fail ErrOther "native artifact authority missing"
            | Some _ => if verify c then select_lists verify contents l (<[src.(src_url) := c]> selected)
                        else fail ErrOther "native artifact verification"
            end
          else select_lists verify contents l (<[src.(src_url) := c]> selected)
      end
  end.
End contents.

(** ** WireGuard *)

(** [Masked().Addr()] and the end of the range of an IPv4 prefix. *)
Definition network_address (p : Prefix) : Addr :=
  match prefix_addr p with V4 ip => V4 (mask_value (V4 ip) (prefix_bits p) ip) | V6 ip z => V6 (mask_value (V6 ip z) (prefix_bits p) ip) EmptyString end.
Definition last_address (p : Prefix) : Addr :=
  match prefix_addr p with
  | V4 ip => V4 (mask_value (V4 ip) (prefix_bits p) ip + 2 ^ (32 - prefix_bits p) - 1)
  | V6 ip z => V6 (mask_value (V6 ip z) (prefix_bits p) ip + 2 ^ (128 - prefix_bits p) - 1) EmptyString
  end.
Fixpoint peers_fit (address : Prefix) (l : list Peer) : result unit :=
  match l with
  | [] => Ok tt
  | p :: l =>
      match ParseAddr p.(p_address) with
      | None => fail ErrOther "stored peer address is invalid"
      | Some a =>
          _ ← guard_err (negb (Contains address a) || bool_decide (a = network_address address) || bool_decide (a = last_address address))
                ErrOther "candidate WireGuard pool excludes a stored peer";
          _ ← guard_err (bool_decide (a = prefix_addr address)) ErrOther "candidate WireGuard server address collides";
          peers_fit address l
      end
  end.
Definition validateWGPolicy (st : Settings) (peers : list Peer) : result unit :=
  match WGConfigFromSettings st with
  | None => fail ErrOther "WireGuard settings"
  | Some cfg => peers_fit cfg.(wc_address) peers
  end.

(** ** Theorems *)

(** A generation of the current version is never refused for what it uses. *)
Lemma admit_current kind sn lists : admit_generation kind (MkGeneration kind 5 sn (Some lists)) = Ok (MkGeneration kind 5 sn (Some lists)).
Proof. unfold admit_generation. cbn [gn_version gn_kind gn_lists]. rewrite (bool_decide_eq_false_2 (kind <> kind)) by (intros Hk; by apply Hk). reflexivity. Qed.

Lemma admit_Ok kind gen gen' : admit_generation kind gen = Ok gen' -> gen' = gen /\ gen.(gn_kind) = kind /\ is_Some gen.(gn_lists).
Proof.
  unfold admit_generation. intros ([] & H0%guard_err_Ok & H)%result_bind_Ok.
  apply orb_false_iff in H0 as [[_ Hk]%orb_false_iff Hl]. reflect_bools.
  apply result_bind_Ok in H as ([] & _ & H). apply result_bind_Ok in H as ([] & _ & H). apply result_bind_Ok in H as ([] & _ & H).
  apply result_bind_Ok in H as ([] & _ & [= <-]). split; [done|]. split; [by destruct (decide (gn_kind gen = kind))|]. by apply not_eq_None_Some.
Qed.

Lemma generation_read file kind gen : Read file kind = Ok gen ->
  exists f, file = Some f /\ f.(gf_gen) = Some gen /\ gen.(gn_kind) = kind /\ is_Some gen.(gn_lists).
Proof.
  unfold Read. destruct file as [f|]; [|done]. intros ([] & _ & H)%result_bind_Ok. apply result_bind_Ok in H as ([] & _ & H).
  destruct (gf_gen f) as [g|] eqn:Hg; [|done]. destruct (admit_Ok _ _ _ H) as (-> & Hk & Hl). by exists f.
Qed.

Lemma write_read a bounded sn lists file r file' :
  writeGeneration a bounded (MkGeneration EmptyString 5 sn (Some lists)) file = (r, file') ->
  (file' = file /\ r <> Ok tt) \/ (file' = Some (MkGenFile true bounded (Some (MkGeneration CommittedKind 5 sn (Some lists)))) /\
    (bounded = true -> readGeneration file' = Ok (MkGeneration CommittedKind 5 sn (Some lists)))).
Proof.
  unfold writeGeneration, Write. cbn [gn_version gn_policy gn_lists]. destruct a; intros [= <- <-]; [by left|right..].
  all: split; [done|]; intros ->; unfold readGeneration, Read; cbn [gf_private gf_bounded gf_gen]; apply admit_current.
Qed.

(** Only a missing record answers that it is missing. *)
Lemma guard_other c label e : guard_err c ErrOther label = Err e -> e.(err_kind) = ErrOther.
Proof. unfold guard_err. destruct c; [by intros [= <-]|done]. Qed.
Lemma admit_Err kind gen e : admit_generation kind gen = Err e -> e.(err_kind) = ErrOther.
Proof.
  unfold admit_generation. intros H.
  repeat (apply result_bind_Err in H as [H|([] & _ & H)]; [by apply guard_other in H|]). done.
Qed.
Lemma generation_read_Err f kind e : Read (Some f) kind = Err e -> e.(err_kind) = ErrOther.
Proof.
  unfold Read. intros H. do 2 (apply result_bind_Err in H as [H|([] & _ & H)]; [by apply guard_other in H|]).
  destruct (gf_gen f); [by apply admit_Err in H|by injection H as <-].
Qed.
Lemma recoverable_committed d : is_Some d.(au_committed) ->
  recoverable d = match readGeneration d.(au_committed) with Ok g => Ok (Some g) | Err e => Err e end.
Proof.
  intros [f Hf]. unfold recoverable, readGeneration. rewrite Hf. pose proof (generation_read_Err f CommittedKind) as Hk.
  destruct (Read (Some f) CommittedKind) as [g|e]; [done|]. specialize (Hk e eq_refl).
  rewrite (bool_decide_eq_false_2 (err_kind e = ErrNotFound)) by (by rewrite Hk). rewrite decide_False by (by rewrite Hk). done.
Qed.

(** C35: a restore cannot fall back to the first seed.  Whatever fails while the
    records lose their authority, and wherever the process is interrupted, the
    bootstrap record goes first: what a start recovers afterwards is what it
    recovered before, or nothing.  Every record is kept as a copy, and after
    success nothing has authority. *)
Theorem invalidate_never_falls_back boot committed sync d r d' :
  invalidate boot committed sync d = (r, d') ->
  (forall gen, recoverable d' = Ok (Some gen) -> recoverable d = Ok (Some gen)) /\
  (forall f, f = d.(au_committed) \/ f = d.(au_bootstrap) -> f = None \/ f = d'.(au_committed) \/ f = d'.(au_bootstrap) \/ exists g, f = Some g /\ g ∈ d'.(au_backups)) /\
  (r = Ok tt -> recoverable d' = Ok None /\ CheckFreshDirectory true d' = Ok tt).
Proof.
  assert (Hnone : forall b, recoverable (MkAuthority None None b) = Ok None) by done.
  assert (Hboot : forall c b, c <> None -> recoverable (MkAuthority c None b) = recoverable (MkAuthority c d.(au_bootstrap) d.(au_backups))).
  { intros c b Hc%not_eq_None_Some. by rewrite !recoverable_committed. }
  destruct d as [c b backups]. cbn [au_committed au_bootstrap au_backups] in *.
  unfold invalidate, invalidate_file, rename_away. cbn [file_of au_committed au_bootstrap au_backups].
  assert (Hin : forall (f : GenFile) l m, f ∈ (l ++ [f]) ++ m) by (intros; rewrite !elem_of_app, list_elem_of_singleton; auto).
  assert (Hin1 : forall (f : GenFile) l, f ∈ l ++ [f]) by (intros; rewrite elem_of_app, list_elem_of_singleton; auto).
  destruct boot as [l1 r1 s1], committed as [l2 r2 s2], l1, r1, s1, b as [b|], l2, r2, s2, c as [c|], sync;
    cbn [fa_lstat fa_rename fa_sync negb guard_err fail]; intros [= <- <-]; cbn [au_committed au_bootstrap au_backups];
    (split; [intros gen; rewrite ?Hnone; try done; try (by rewrite Hboot by done)
            |split; [intros f [->| ->]; eauto 8|intros Hr; try done]]).
Qed.

(** Every client of an admitted policy has an address of its own in the network
    of the server: not the network's, not the last one, not the server's. *)
Lemma peers_fit_Ok address l : peers_fit address l = Ok tt <->
  Forall (fun p => exists a, ParseAddr p.(p_address) = Some a /\ Contains address a = true /\
    a <> network_address address /\ a <> last_address address /\ a <> prefix_addr address) l.
Proof.
  induction l as [|p l IH]; cbn [peers_fit]; [split; [constructor|done]|]. rewrite Forall_cons, <- IH.
  destruct (ParseAddr (p_address p)) as [a|]; [|split; [done|]; by intros [(a & ? & _) _]].
  rewrite result_bind_Ok. split.
  - intros ([] & H1%guard_err_Ok & Hr). apply result_bind_Ok in Hr as ([] & H2%guard_err_Ok & Hr).
    apply orb_false_iff in H1 as [[Hc%negb_false_iff Hn]%orb_false_iff Hl]. reflect_bools. split; [|done]. by exists a.
  - intros [(a' & [= <-] & Hc & Hn & Hl & Hs) Hr]. exists tt. split.
    + apply guard_err_Ok. rewrite Hc. cbn [negb orb]. by rewrite (bool_decide_eq_false_2 (a = network_address address)), (bool_decide_eq_false_2 (a = last_address address)).
    + apply result_bind_Ok. exists tt. split; [|done]. apply guard_err_Ok. by rewrite (bool_decide_eq_false_2 (a = prefix_addr address)).
Qed.

Section contents_spec.
Context `{Platform}.

Lemma select_lists_Ok verify contents l : forall selected selected',
  select_lists verify contents l selected = Ok selected' ->
  (forall src, src ∈ l -> exists c, contents !! src.(src_url) = Some c /\ selected' !! src.(src_url) = Some c /\
     (src.(src_format) <> FormatPlain -> is_Some c.(l_native) /\ verify c = true)) /\
  (forall url, url ∉ map src_url l -> selected' !! url = selected !! url).
Proof.
  assert (Hkeep : forall l selected selected' url c, select_lists verify contents l selected = Ok selected' ->
    contents !! url = Some c -> selected !! url = Some c -> selected' !! url = Some c).
  { clear l. induction l as [|src l IH]; intros selected selected' url c; cbn [select_lists]; [by intros [= <-]|].
    intros Hs Hc Hsel. destruct (contents !! src_url src) as [c'|] eqn:Hc'; [|done].
    assert (Hins : <[src_url src := c']> selected !! url = Some c).
    { destruct (decide (url = src.(src_url))) as [->|]; [rewrite lookup_insert_eq; congruence|by rewrite lookup_insert_ne]. }
    destruct (decide _); [destruct (l_native c'); [|done]; destruct (verify c'); [|done]|]; by eapply IH. }
  induction l as [|src l IH]; intros selected selected'; cbn [select_lists]; [intros [= <-]; split; [by intros s ?%elem_of_nil|done]|].
  destruct (contents !! src_url src) as [c|] eqn:Hc; [|done]. intros Hs.
  assert (Hrest : select_lists verify contents l (<[src_url src := c]> selected) = Ok selected' /\
    (src_format src <> FormatPlain -> is_Some (l_native c) /\ verify c = true)).
  { revert Hs. destruct (decide _) as [Hf|Hf]; [destruct (l_native c) as [a|]; [|done]; destruct (verify c) eqn:Hv; [|done]|]; intros Hs; by split. }
  destruct Hrest as [Hr Hn]. destruct (IH _ _ Hr) as [Hin Hout]. split.
  - intros s [->|Hs']%elem_of_cons; [|by apply Hin]. exists c. split; [done|]. split; [|done]. eapply Hkeep; [exact Hr|done|]. by rewrite lookup_insert_eq.
  - intros url Hurl. cbn [map] in Hurl. apply not_elem_of_cons in Hurl as [Hne Hurl]. rewrite Hout by done. by rewrite lookup_insert_ne.
Qed.

(** With the selected lists the generator misses none: every address it asks
    for while it builds the rule sets of an enabled rule is there. *)
Lemma selected_complete verify contents sn selected r url :
  select_lists verify contents (Sources sn) ∅ = Ok selected -> r ∈ sn.(sn_rules) -> r.(r_enabled) = true -> url <> EmptyString ->
  url ∈ r.(r_remote) \/ (exists key, key ∈ r.(r_community) /\ url = communityListURL key) ->
  is_Some (frozenPlainLists selected url).
Proof.
  intros Hs Hr He Hne Hurl. destruct (Sources_spec sn) as (_ & Hin & _).
  assert (Hu : url ∈ map src_url (Sources sn)).
  { apply Hin. split; [done|]. exists r. split; [done|]. split; [done|]. destruct Hurl as [|(key & Hk & ->)]; [by left|].
    right. exists key. split; [done|by left]. }
  apply list_elem_of_fmap in Hu as (src & -> & Hsrc). destruct (select_lists_Ok _ _ _ _ _ Hs) as [Hall _].
  destruct (Hall src Hsrc) as (c & _ & Hc & _). unfold frozenPlainLists. rewrite Hc. by eexists.
Qed.
End contents_spec.

(** What a crawl may change in the applied policy. *)
Lemma withPoolServers_spec base fresh :
  let sn := withPoolServers base fresh in
  sn.(sn_settings) = base.(sn_settings) /\ sn.(sn_rules) = base.(sn_rules) /\ sn.(sn_peers) = base.(sn_peers) /\
  sn.(sn_identity) = base.(sn_identity) /\ sn.(sn_admissions) = base.(sn_admissions) /\
  Forall2 (fun t t' => t' = t \/ t.(t_source) = SourcePool /\ exists f, f ∈ fresh.(sn_tunnels) /\ f.(t_source) = SourcePool /\ f.(t_id) = t.(t_id) /\
      t' = MkTunnel t.(t_id) t.(t_name) t.(t_type) t.(t_source) t.(t_raw) t.(t_parsed) t.(t_enabled) t.(t_created) f.(t_pool)
             f.(t_pool_updated) t.(t_builtin) t.(t_country)) base.(sn_tunnels) sn.(sn_tunnels).
Proof.
  split_and!; try done. cbn [withPoolServers sn_tunnels].
  assert (Hf : forall id f, fresh_pools fresh !! id = Some f -> f ∈ fresh.(sn_tunnels) /\ f.(t_source) = SourcePool /\ f.(t_id) = id).
  { unfold fresh_pools. intros id f. rewrite <- (app_nil_l fresh.(sn_tunnels)) at 2.
    assert (Hgen : forall (l : list Tunnel) (m : gmap string Tunnel) (seen : list Tunnel), (forall id f, m !! id = Some f -> f ∈ seen /\ f.(t_source) = SourcePool /\ f.(t_id) = id) ->
      foldl (fun m t => if decide (t.(t_source) = SourcePool) then <[t.(t_id) := t]> m else m) m l !! id = Some f ->
      f ∈ seen ++ l /\ f.(t_source) = SourcePool /\ f.(t_id) = id).
    { induction l as [|t l IH]; intros m seen Hm; cbn [foldl]; [rewrite app_nil_r; apply Hm|].
      intros Hl. rewrite cons_middle, (assoc_L (++)). eapply IH; [|exact Hl]. intros i g. destruct (decide (t_source t = SourcePool)) as [Ht|Ht].
      - destruct (decide (i = t.(t_id))) as [->|Hne]; [rewrite lookup_insert_eq; intros [= <-]|rewrite lookup_insert_ne by done]; [set_solver|].
        intros Hg%Hm. set_solver.
      - intros Hg%Hm. set_solver. }
    apply Hgen. intros i g. by rewrite lookup_empty. }
  induction (sn_tunnels base) as [|t l IH]; cbn [map]; constructor; [|done]. unfold with_servers.
  destruct (decide _) as [Hs|Hs]; [by left|]. apply dec_stable in Hs. destruct (fresh_pools fresh !! t_id t) as [f|] eqn:E; [|by left].
  right. split; [done|]. destruct (Hf _ _ E) as (? & ? & ?). by exists f.
Qed.

Definition sample_record (kind : string) (version : Z) : GenFile :=
  MkGenFile true true (Some (MkGeneration kind version (MkSnapshot DefaultSettings [] [] [] EmptyString []) (Some ∅))).
Lemma invalidate_never_falls_back_witness :
  let d := MkAuthority (Some (sample_record CommittedKind 5)) (Some (sample_record BootstrapKind 1)) [] in
  let interrupted := invalidate (MkFileAnswers true true true) (MkFileAnswers true false true) true d in
  let done_ := invalidate (MkFileAnswers true true true) (MkFileAnswers true true true) true d in
  recoverable interrupted.2 = recoverable d /\ is_ok (recoverable d) = true /\ recoverable done_.2 = Ok None.
Proof.
  intros d interrupted done_. split; [|split; [vm_compute; reflexivity|]].
  - transitivity (Ok (Some (MkGeneration CommittedKind 5 (MkSnapshot DefaultSettings [] [] [] EmptyString []) (Some ∅)))); [vm_compute; reflexivity|].
    symmetry. apply (invalidate_never_falls_back (MkFileAnswers true true true) (MkFileAnswers true false true) true d interrupted.1 interrupted.2);
      [reflexivity|vm_compute; reflexivity].
  - apply (invalidate_never_falls_back (MkFileAnswers true true true) (MkFileAnswers true true true) true d done_.1 done_.2); [reflexivity|].
    vm_compute. reflexivity.
Defined.
