(* ===== verification/Barrier.v ===== *)
(** * The barriers under interleaving

    What one action of the startup helper, of a writer of the manifest or of the
    kernel changes, seen from the others: the lemmas on which the proof of the
    publication gate rests. *)

From S2P Require Import Prelude GoStd GoJson JsonText SingBox Nft NftExpr Netip Ingress IngressSpec.
#[local] Open Scope Z_scope.

(** ** Closed by the public barrier alone *)
Definition public_part (T : gmap string GuardTable) : gmap string GuardTable :=
  match T !! PublicClientGuardTable with Some t => {[PublicClientGuardTable := t]} | None => ∅ end.
Definition shut (T : gmap string GuardTable) (config : string) : Prop := closed (public_part T) config.

Lemma public_part_lookup T : public_part T !! PublicClientGuardTable = T !! PublicClientGuardTable.
Proof. unfold public_part. destruct (T !! _); [by rewrite lookup_singleton_eq|by rewrite lookup_empty]. Qed.
Lemma public_part_sub T : public_part T ⊆ T.
Proof.
  unfold public_part. destruct (T !! PublicClientGuardTable) as [t|] eqn:E; [|apply map_empty_subseteq].
  by apply map_singleton_subseteq_l.
Qed.
Lemma shut_same T T' config : T' !! PublicClientGuardTable = T !! PublicClientGuardTable -> shut T config -> shut T' config.
Proof. intros E. unfold shut, public_part. by rewrite E. Qed.

Lemma dropped_mono little T T' hook pk : T ⊆ T' -> dropped_at little T hook pk = true -> dropped_at little T' hook pk = true.
Proof.
  intros Hs. unfold dropped_at. rewrite !existsb_elem. intros (t & Ht & Hd). exists t. split; [|done].
  apply list_elem_of_fmap in Ht as ([k t'] & -> & Ht). apply list_elem_of_fmap. exists (k, t'). split; [done|].
  apply elem_of_map_to_list in Ht. apply elem_of_map_to_list. by eapply lookup_weaken.
Qed.
Lemma shut_closed T config : shut T config -> closed T config.
Proof.
  intros Hc i Hi. destruct (Hc i Hi) as [|(Ht & Hr & Hd)]; [by left|]. right. split; [done|]. split; [done|].
  intros little pk Hb Hreach. eapply dropped_mono; [apply public_part_sub|]. by apply Hd.
Qed.

(** Every endpoint of the first list is covered by one of the second. *)
Definition covered_by (es E : list Endpoint) : Prop := forall e, e ∈ es -> exists a, a ∈ E /\ covers a e = true.

Lemma covers_refl e : canonical_endpoint e -> covers e e = true.
Proof.
  intros (a & -> & Ha & _). unfold covers. cbn [ep_address ep_port]. rewrite bool_decide_eq_true_2 by done.
  rewrite parse_print by done. cbn [andb]. unfold addr_covers. destruct (IsUnspecified a); [by destruct (Is4 a)|by rewrite bool_decide_eq_true_2].
Qed.
Lemma covered_sub es E : Forall canonical_endpoint es -> es ⊆ E -> covered_by es E.
Proof. intros Hc Hs e He. exists e. split; [by apply Hs|]. rewrite Forall_forall in Hc. by apply covers_refl, Hc. Qed.
Lemma covered_mono es E E' : E ⊆ E' -> covered_by es E -> covered_by es E'.
Proof. intros Hs Hc e He. destruct (Hc e He) as (a & Ha & Hv). exists a. split; [by apply Hs|done]. Qed.

(** A list of endpoints as the barrier takes it. *)
Record barrier_list (E : list Endpoint) : Prop := {
  bl_ports : Forall port_ok E; bl_canonical : Forall canonical_endpoint E; bl_normal : NormalizeEndpoints E = Ok E }.

Lemma ConfigEndpoints_list config es : ConfigEndpoints config = Ok es -> barrier_list es.
Proof.
  intros H. destruct (ConfigEndpoints_Ok _ _ H) as (Hp & Hc & _). split; [done..|].
  unfold ConfigEndpoints in H. apply result_bind_Ok in H as (u & _ & H). apply result_bind_Ok in H as (v & _ & H).
  destruct (decode_config v); [|done]. apply result_bind_Ok in H as (u2 & _ & H). apply result_bind_Ok in H as (u3 & _ & H).
  apply result_bind_Ok in H as (l & _ & H). by apply NormalizeEndpoints_idemp in H.
Qed.

Lemma canonical_normal l e : Forall canonical_endpoint l -> (exists e0, e0 ∈ l /\ canonical e0 = Ok e) <-> e ∈ l.
Proof.
  intros Hc. rewrite Forall_forall in Hc. split.
  - intros (e0 & He & Hk). rewrite (canonical_endpoint_id _ (Hc _ He)) in Hk. by injection Hk as <-.
  - intros He. exists e. split; [done|]. by apply canonical_endpoint_id, Hc.
Qed.

(** [Union] of such lists contains them, and is one. *)
Lemma Union_lists groups E : Forall barrier_list groups -> Union groups = Ok E ->
  barrier_list E /\ forall e, e ∈ E <-> exists l, l ∈ groups /\ e ∈ l.
Proof.
  intros Hg Hu. unfold Union in Hu.
  assert (Hall : Forall port_ok (concat groups) /\ Forall canonical_endpoint (concat groups)).
  { clear Hu. induction Hg as [|l groups [Hp Hc _] _ IH]; [by split; constructor|]. destruct IH as [IHp IHc]. cbn [concat]. by rewrite !Forall_app. }
  destruct Hall as [Hp Hc]. split.
  - apply NormalizeEndpoints_Ok in Hu as Hn. destruct Hn as (_ & _ & _ & Hcan & _).
    split; [by eapply Normalize_ports|done|by eapply NormalizeEndpoints_idemp].
  - intros e. apply NormalizeEndpoints_Ok in Hu as (_ & _ & _ & _ & Hin). rewrite Hin, (canonical_normal _ _ Hc).
    rewrite list_elem_of_In, in_concat. split; intros (l & ? & ?); exists l; rewrite !list_elem_of_In in *; done.
Qed.

Lemma manifest_list m : manifest_ok m -> Forall port_ok m.(mf_endpoints) -> barrier_list m.(mf_endpoints).
Proof.
  intros [_ Hn _ _ _ _] Hp. split; [done| |done]. by apply NormalizeEndpoints_Ok in Hn as (_ & _ & _ & ? & _).
Qed.

(** The barrier over a list shuts every configuration that the list covers. *)
Lemma cover_shuts a E config es T T' : barrier_list E -> ConfigEndpoints config = Ok es -> covered_by es E ->
  SetPublicClientGuard a E true T = (Ok tt, T') -> shut T' config.
Proof.
  intros [HpE HcE _] Hes Hcov Hs i Hi.
  destruct (ConfigEndpoints_Ok _ _ Hes) as (_ & Hcan & Hin). destruct (Hin i Hi) as [|(Ht & Hr & e & He & Hc)]; [by left|].
  right. split; [done|]. split; [done|]. intros little pk Hb Hreach. destruct (Hcov e He) as (al & Hal & Hcv).
  rewrite <- (canonical_reaches _ _ _ Hc) in Hreach. rewrite Forall_forall in HcE, Hcan.
  assert (Hx : existsb (fun e => reaches_endpoint e pk) E = true).
  { apply existsb_elem. exists al. split; [done|]. apply (covers_sound al e); [by apply HcE|by apply Hcan|done..]. }
  destruct (barrier_closed _ _ _ _ little pk HpE Hb Hs) as [Htab _]. rewrite Hx in Htab.
  destruct (T' !! PublicClientGuardTable) as [t|] eqn:E'; [|done]. destruct Htab as [Hh Hd].
  eapply dropped_table; [by rewrite public_part_lookup|done|done].
Qed.
Lemma empty_shut config T : ConfigEndpoints config = Ok [] -> shut T config.
Proof.
  intros Hes i Hi. destruct (ConfigEndpoints_Ok _ _ Hes) as (_ & _ & Hin).
  destruct (Hin i Hi) as [|(_ & _ & e & He%elem_of_nil & _)]; [by left|done].
Qed.

(** ** Files *)
Definition ancestor (path q : string) : Prop := exists n, q = Nat.iter n Dir (Dir path).

Lemma parents_agree fuel fs fs' private directory p :
  fs'.(fs_euid) = fs.(fs_euid) -> (forall n, fs'.(fs_nodes) !! Nat.iter n Dir p = fs.(fs_nodes) !! Nat.iter n Dir p) ->
  parents_ok fuel fs' private directory p = parents_ok fuel fs private directory p.
Proof.
  intros He. revert p. induction fuel as [|fuel IH]; intros p Hn; [done|]. cbn [parents_ok].
  assert (parent_ok fs' private (bool_decide (p = directory)) p = parent_ok fs private (bool_decide (p = directory)) p) as ->.
  { unfold parent_ok. pose proof (Hn 0%nat) as H0. cbn in H0. by rewrite He, H0. }
  destruct (parent_ok _ _ _ _); [|done]. destruct (decide _); [done|]. apply IH. intros k.
  specialize (Hn (S k)). by rewrite Nat.iter_succ_r in Hn.
Qed.
Lemma controlled_agree fs fs' private path :
  fs'.(fs_euid) = fs.(fs_euid) -> (forall q, ancestor path q -> fs'.(fs_nodes) !! q = fs.(fs_nodes) !! q) ->
  controlledParent fs' path private = controlledParent fs path private.
Proof.
  intros He Hn. unfold controlledParent. destruct (negb _); [done|]. cbn [guard_err mbind result_bind]. f_equal.
  apply parents_agree; [done|]. intros n. apply Hn. by exists n.
Qed.

(** A file system that differs away from the manifest and its parents. *)
Definition agree (path : string) (fs fs' : FS) : Prop :=
  fs'.(fs_euid) = fs.(fs_euid) /\ fs'.(fs_nodes) !! path = fs.(fs_nodes) !! path /\
  forall q, ancestor path q -> fs'.(fs_nodes) !! q = fs.(fs_nodes) !! q.
Lemma agree_refl path fs : agree path fs fs.
Proof. by split_and!. Qed.
Lemma agree_trans path a b c : agree path a b -> agree path b c -> agree path a c.
Proof. intros (H1 & H2 & H3) (H4 & H5 & H6). split_and!; [congruence..|]. intros q Hq. by rewrite H6, H3. Qed.
Lemma Read_agree path fs fs' : agree path fs fs' -> Read fs' path = Read fs path.
Proof.
  intros (He & Hp & Hn). unfold Read, readControlled. rewrite (controlled_agree fs fs') by done. rewrite Hp. unfold private_file. by rewrite He.
Qed.

Lemma ancestor_shorter path q : (1 < String.length path)%nat -> ancestor path q -> (String.length q < String.length path)%nat.
Proof.
  intros Hl [n ->]. induction n as [|n IH]; [by apply Dir_length|]. change (Nat.iter (S n) Dir (Dir path)) with (Dir (Nat.iter n Dir (Dir path))).
  destruct (decide (1 < String.length (Nat.iter n Dir (Dir path)))%nat) as [Hd|Hd].
  - pose proof (Dir_length _ Hd). lia.
  - assert (Hne : Nat.iter n Dir (Dir path) <> EmptyString) by (destruct n; apply Dir_nonempty).
    rewrite short_path by (done || lia). simpl. lia.
Qed.
Lemma lock_path_length path : String.length (lock_path path) = (String.length path + 5)%nat.
Proof. unfold lock_path. by rewrite string_length_app. Qed.
Lemma lock_path_ne path : lock_path path <> path.
Proof. intros E%(f_equal String.length). rewrite lock_path_length in E. lia. Qed.

Lemma store_agree path q data fs : q <> path -> ~ ancestor path q -> agree path fs (store_file fs q data).
Proof.
  intros Hne Ha. split_and!; [done| |].
  - cbn. by rewrite lookup_insert_ne.
  - intros q' Hq'. cbn. rewrite lookup_insert_ne; [done|]. by intros ->.
Qed.
Lemma lock_agree path fs data : (1 < String.length path)%nat -> agree path fs (store_file fs (lock_path path) data).
Proof.
  intros Hl. apply store_agree; [apply lock_path_ne|]. intros Ha%ancestor_shorter; [|done]. rewrite lock_path_length in Ha. lia.
Qed.

Lemma controlled_long fs path private : controlledParent fs path private = Ok tt -> path = "/"%string \/ (1 < String.length path)%nat.
Proof. unfold controlledParent. intros (u & Hc%guard_err_Ok%negb_false_iff & _)%result_bind_Ok. by apply clean_length. Qed.

Lemma WithLock_agree granted fs path r fs' : (1 < String.length path)%nat -> WithLock granted fs path = (r, fs') -> agree path fs fs'.
Proof.
  intros Hl. unfold WithLock. destruct (controlledParent _ _ _); [|intros [= <- <-]; apply agree_refl]. cbv zeta.
  set (fs1 := match fs_nodes fs !! lock_path path with Some _ => fs | None => _ end).
  assert (Ha : agree path fs fs1).
  { subst fs1. destruct (fs_nodes fs !! lock_path path); [apply agree_refl|by apply lock_agree]. }
  clearbody fs1. destruct (fs_nodes fs1 !! _); [|by intros [= _ <-]]. destruct (negb _); [by intros [= _ <-]|].
  destruct (negb granted); by intros [= _ <-].
Qed.

(** What a write of the manifest leaves to the next reader. *)
Lemma Write_effect a fs path m r fs' : Forall port_ok m.(mf_endpoints) -> Ingress.Write a fs path m = (r, fs') ->
  (forall q, q <> path -> fs'.(fs_nodes) !! q = fs.(fs_nodes) !! q) /\
  (fs' = fs /\ r <> Ok tt \/ exists m', normalizeManifest m = Ok m' /\ Read fs' path = Ok m').
Proof.
  intros Hp Hw. split.
  - destruct (Write_stores _ _ _ _ _ _ Hw) as [[-> _]|(m' & _ & -> & _)]; [done|]. intros q Hq. cbn. by rewrite lookup_insert_ne.
  - destruct (Write_stores _ _ _ _ _ _ Hw) as [[-> Hr]|(m' & Hm & Hfs & Hc & Hl)]; [by left|]. right.
    exists m'. split; [done|]. destruct (normalizeManifest_Ok _ _ Hm) as (Hok & He & _). pose proof (Normalize_ports _ _ He Hp) as Hp'.
    rewrite Hfs. unfold Read. destruct (manifest_json_plain m' Hok Hp') as (_ & _ & Hsize & _). rewrite stored_reads by done. cbn [mbind result_bind].
    by apply parse_manifest_text.
Qed.

(** ** The startup helper seen from outside *)
Section startup.
Context `{Platform} (cp mp : string) (Hlong : (1 < String.length mp)%nat).

Definition guarded (m : Manifest) : Manifest := MkManifest m.(mf_version) m.(mf_endpoints) m.(mf_hashes) true.

(** The endpoints of the configuration are covered by the manifest, or there
    are none. *)
Definition allowed (fs : FS) (config : string) : Prop :=
  exists es, ConfigEndpoints config = Ok es /\ (es = [] \/ exists m, Read fs mp = Ok m /\ covered_by es m.(mf_endpoints)).

Record startup_effect (h h' : Host) (r : result unit) : Prop := {
  se_files : forall q, q <> mp -> q <> lock_path mp -> h'.(ho_fs).(fs_nodes) !! q = h.(ho_fs).(fs_nodes) !! q;
  se_euid : h'.(ho_fs).(fs_euid) = h.(ho_fs).(fs_euid);
  se_manifest : Read h'.(ho_fs) mp = Read h.(ho_fs) mp \/
                exists m, Read h.(ho_fs) mp = Ok m /\ Read h'.(ho_fs) mp = Ok (guarded m);
  se_tables : h'.(ho_tables) = h.(ho_tables) \/
              exists a m, Read h.(ho_fs) mp = Ok m /\ SetPublicClientGuard a m.(mf_endpoints) true h.(ho_tables) = (Ok tt, h'.(ho_tables));
  se_ok : r = Ok tt -> forall config, nd_data <$> h.(ho_fs).(fs_nodes) !! cp = Some config ->
          allowed h.(ho_fs) config /\ shut h'.(ho_tables) config
}.

Lemma effect_refl h r : r <> Ok tt -> startup_effect h h r.
Proof. intros Hr. split; try done; by left. Qed.

Lemma ValidateConfig_covered config m : ValidateConfig config m = Ok tt -> manifest_ok m ->
  exists es, ConfigEndpoints config = Ok es /\ covered_by es m.(mf_endpoints).
Proof. intros Hv Hm. by destruct (ValidateConfig_Ok _ _ Hv Hm) as (_ & es & Hes & Hc); exists es. Qed.

Lemma WithLock_files granted fs r fs' : WithLock granted fs mp = (r, fs') ->
  fs'.(fs_euid) = fs.(fs_euid) /\ (forall q, q <> lock_path mp -> fs'.(fs_nodes) !! q = fs.(fs_nodes) !! q) /\ agree mp fs fs'.
Proof.
  intros Hw. pose proof (WithLock_agree _ _ _ _ _ Hlong Hw) as Ha. split; [apply Ha|]. split; [|done].
  intros q Hq. by eapply WithLock_other.
Qed.

Lemma Startup_effect a h r h' : cp <> mp -> cp <> lock_path mp -> Startup a cp mp h = (r, h') -> startup_effect h h' r.
Proof.
  intros Hne Hnl. unfold Startup. destruct (WithLock _ _ _) as [lr fs] eqn:Hlock. destruct (WithLock_files _ _ _ _ Hlock) as (He & Hf & Ha).
  assert (HR : Read fs mp = Read h.(ho_fs) mp) by (by apply Read_agree).
  assert (Hkeep : forall r0, (r0 = Ok tt -> forall config, nd_data <$> fs.(fs_nodes) !! cp = Some config -> allowed h.(ho_fs) config /\ shut h.(ho_tables) config) ->
    (r0, MkHost fs h.(ho_tables)) = (r, h') -> startup_effect h h' r).
  { intros r0 Hok [= <- <-]. split; cbn [ho_fs ho_tables]; [by intros; apply Hf|done|by left|by left|]. intros Hr config. rewrite <- Hf by done. by apply Hok. }
  destruct lr as [[]|e]; [|by apply Hkeep].
  destruct (startupState fs cp mp) as [om|e] eqn:Hst; [|by apply Hkeep].
  apply startupState_Ok in Hst as (n & Hn & Hst). destruct om as [m|].
  2:{ apply Hkeep. intros _ config. rewrite Hn. intros [= <-]. split; [|by apply empty_shut]. exists []. split; [done|by left]. }
  destruct Hst as [Hread Hv]. rewrite HR in Hread. destruct (Read_Ok _ _ _ Hread) as [Hok Hports].
  destruct (ValidateConfig_covered _ _ Hv Hok) as (es & Hes & Hcov). fold (guarded m).
  destruct (Ingress.Write _ fs mp (guarded m)) as [wr fs'] eqn:Hw.
  assert (Hok' : manifest_ok (guarded m)) by (destruct Hok; by constructor).
  assert (He' : fs'.(fs_euid) = fs.(fs_euid)) by (destruct (Write_stores _ _ _ _ _ _ Hw) as [[-> _]|(? & _ & -> & _)]; done).
  destruct (Write_effect _ _ _ (guarded m) _ _ Hports Hw) as [Hother Hread'].
  assert (HM : Read fs' mp = Read h.(ho_fs) mp \/ exists m0, Read h.(ho_fs) mp = Ok m0 /\ Read fs' mp = Ok (guarded m0)).
  { destruct Hread' as [[-> _]|(m' & Hm' & HR')]; [by left|]. right. exists m. split; [done|].
    rewrite normalizeManifest_id in Hm' by done. injection Hm' as <-. done. }
  assert (Hfiles : forall q, q <> mp -> q <> lock_path mp -> fs'.(fs_nodes) !! q = h.(ho_fs).(fs_nodes) !! q) by (intros; rewrite Hother, Hf; done).
  destruct wr as [[]|e].
  2:{ intros [= <- <-]. split; cbn [ho_fs ho_tables]; [done|congruence|done|by left|done]. }
  destruct (SetPublicClientGuard _ _ _ _) as [gr T] eqn:Hg. intros [= <- <-].
  split; cbn [ho_fs ho_tables]; [done|congruence|done| |].
  - destruct gr as [[]|e]; [right; by eexists _, m|]. left. by apply (SetPublicClientGuard_other _ _ _ _ _ _ Hg).
  - intros -> config. rewrite <- Hf by done. rewrite Hn. intros [= <-]. split.
    + exists es. split; [done|]. right. by exists m.
    + eapply cover_shuts; [by apply manifest_list|done|done|done].
Qed.

Lemma GuardSavedIngress_effect a h r h' : cp <> mp -> cp <> lock_path mp -> GuardSavedIngress a cp mp h = (r, h') -> startup_effect h h' r.
Proof.
  intros Hne Hnl. unfold GuardSavedIngress. destruct (negb _); [intros [= <- <-]; by apply effect_refl|].
  destruct (decide _) as [[Hc _]|]; [|by apply Startup_effect]. intros [= <- <-]. split; try done; try by left.
  intros _ config. by rewrite Hc.
Qed.
End startup.
