(* ===== verification/Admission.v ===== *)
(** * Who is admitted, and which writes keep it

    The public entrance admits the users of a generation.  The handlers of the
    panel that write to the store beside the gate withdraw nobody's access, and
    neither do the gate's own handlers when they do not revoke: the lemmas with
    which the proof of the gate follows the database. *)

From S2P Require Import Prelude GoStd Model Db Wf Sample RulesStore TunnelsStore PeersStore SettingsStore AuthStore RealityStore StoreSpec WgPeers.
#[local] Open Scope Z_scope.

Section admission.
Context `{Unicode} `{WGKeys}.
Implicit Types (d : db).

(** The access of a client: whether it is enabled with REALITY, and its
    credential. *)
Definition access d (id : string) : option (bool * option string) :=
  (fun p => (p.(p_enabled) && p.(p_reality), cr_uuid <$> reality_credentials d !! id)) <$> peers d !! id.
Definition reality_on d : option bool := match settings d with Ok (st, _) => Some st.(s_reality) | Err _ => None end.

Definition admitted_user d (u : RealityUser) : Prop :=
  reality_on d = Some true /\ access d u.(ru_peer) = Some (true, Some u.(ru_uuid)).

(** A write that withdraws nobody's access, and one that changes the access of
    no client there is. *)
Record keeps_users d d' : Prop := { ku_wf : wf d'; ku_users : forall u, admitted_user d u -> admitted_user d' u }.
Record keeps_access d d' : Prop := {
  ka_wf : wf d';
  ka_reality : forall b, reality_on d = Some b -> reality_on d' = Some b;
  ka_access : forall id x, access d id = Some x -> access d' id = Some x }.

Lemma keeps_access_users d d' : keeps_access d d' -> keeps_users d d'.
Proof. intros [Hw Hr Ha]. split; [done|]. intros u [H1 H2]. split; auto. Qed.
Lemma keeps_access_refl d : wf d -> keeps_access d d.
Proof. by split. Qed.
Lemma keeps_users_refl d : wf d -> keeps_users d d.
Proof. by split. Qed.

Lemma keeps_access_trans d1 d2 d3 : keeps_access d1 d2 -> keeps_access d2 d3 -> keeps_access d1 d3.
Proof. intros [_ Hr Ha] [Hw Hr' Ha']. split; auto. Qed.

Lemma access_Some d id p : peers d !! id = Some p -> access d id = Some (p.(p_enabled) && p.(p_reality), cr_uuid <$> reality_credentials d !! id).
Proof. intros Hp. unfold access. by rewrite Hp. Qed.
Lemma access_inv d id x : access d id = Some x ->
  exists p, peers d !! id = Some p /\ x = (p.(p_enabled) && p.(p_reality), cr_uuid <$> reality_credentials d !! id).
Proof. unfold access. intros (p & Hp & ->)%fmap_Some. by exists p. Qed.
Lemma access_same d d' id : peers d' !! id = peers d !! id -> reality_credentials d' !! id = reality_credentials d !! id -> access d' id = access d id.
Proof. intros Hp Hc. unfold access. by rewrite Hp, Hc. Qed.
Lemma reality_on_same d d' : settings_kv d' = settings_kv d -> reality_on d' = reality_on d.
Proof. intros Hs. unfold reality_on, settings. rewrite Hs. by destruct (read_rows _ _). Qed.

(** [RealityRuntime] hands only admitted users to the proxy. *)
Lemma RealityRuntime_admitted public_of sn d rt u :
  RealityRuntime public_of sn d = Ok rt -> u ∈ rt.(rr_users) -> admitted_user d u.
Proof.
  intros Hrt Hu. destruct (RealityRuntime_user _ _ _ _ _ Hrt Hu) as (p & c & a & q & Hp & He & Hr & Hc & Hid & _).
  split.
  - unfold RealityRuntime in Hrt. apply result_bind_Ok in Hrt as ([cur d0] & Hs & Hrt). unfold reality_on. rewrite Hs.
    destruct (negb _ || negb _) eqn:Hoff; [injection Hrt as <-; by apply elem_of_nil in Hu|].
    apply orb_false_iff in Hoff as [_ Hon%negb_false_iff]. by rewrite Hon.
  - rewrite (access_Some _ _ _ Hp), He, Hr, Hc. cbn. by rewrite Hid.
Qed.

(** ** Keys that are not settings *)
Definition known_rows (kv : gmap string string) : gmap string string := filter (fun p => p.1 ∈ setting_keys) kv.
Lemma read_known kv v w : read_rows (map_to_list kv) v = Ok w <-> read_rows (map_to_list (known_rows kv)) v = Ok w.
Proof.
  set (rest := filter (fun p => p.1 ∉ setting_keys) kv).
  assert (Hunk : forall k x, (k, x) ∈ map_to_list rest -> k ∉ setting_keys).
  { intros k x Hin%elem_of_map_to_list. by apply map_lookup_filter_Some in Hin as [_ ?]. }
  assert (Hsplit : map_to_list kv ≡ₚ map_to_list (known_rows kv) ++ map_to_list rest).
  { assert (Hm : kv = list_to_map (map_to_list (known_rows kv) ++ map_to_list rest)).
    { rewrite list_to_map_app, !list_to_map_to_list. symmetry. apply map_filter_union_complement. }
    rewrite Hm at 1. apply map_to_list_to_map. rewrite fmap_app. apply NoDup_app. split_and!; [apply NoDup_fst_map_to_list| |apply NoDup_fst_map_to_list].
    intros k (q & -> & Hin)%list_elem_of_fmap (q' & Hq & Hin')%list_elem_of_fmap. destruct q as [k x], q' as [k' x']. cbn in Hq. subst k'.
    apply (Hunk k x'); [done|]. apply elem_of_map_to_list in Hin. by apply map_lookup_filter_Some in Hin as [_ ?]. }
  assert (Heq : (forall k x, (k, x) ∈ map_to_list kv -> exists f, set_of k x = Ok f) ->
    read_rows (map_to_list kv) v = read_rows (map_to_list (known_rows kv)) v).
  { intros Hok. rewrite (read_rows_perm _ _ v (NoDup_fst_map_to_list kv) Hsplit Hok), read_rows_app.
    destruct (read_rows (map_to_list (known_rows kv)) v) as [w'|e]; [|done]. by apply read_rows_unknown. }
  split; intros Hr.
  - rewrite <- Heq; [done|]. by eapply read_rows_entries.
  - rewrite Heq; [done|]. intros k x Hin. rewrite Hsplit in Hin. apply elem_of_app in Hin as [Hin|Hin]; [by eapply read_rows_entries|].
    eexists. by eapply set_of_unknown, Hunk.
Qed.
Lemma reality_on_known d d' : known_rows (settings_kv d') = known_rows (settings_kv d) -> forall b, reality_on d = Some b -> reality_on d' = Some b.
Proof.
  intros Hk b. unfold reality_on, settings. destruct (read_rows (map_to_list (settings_kv d)) _) as [w|] eqn:Hr; [|done].
  apply read_known in Hr. rewrite <- Hk in Hr. apply read_known in Hr. by rewrite Hr.
Qed.
Lemma known_insert k x kv : k ∉ setting_keys -> known_rows (<[k := x]> kv) = known_rows kv.
Proof. intros Hk. unfold known_rows. by rewrite map_filter_insert_not by done. Qed.

(** ** Transactions that leave clients and settings alone *)
Record apart d d' : Prop := {
  ap_peers : peers d' = peers d; ap_creds : reality_credentials d' = reality_credentials d;
  ap_known : known_rows (settings_kv d') = known_rows (settings_kv d) }.
Definition quiet {A} (m : Tx A) : Prop := forall d a d', m d = Ok (a, d') -> apart d d'.

Lemma apart_refl d : apart d d.
Proof. done. Qed.
Lemma apart_trans d1 d2 d3 : apart d1 d2 -> apart d2 d3 -> apart d1 d3.
Proof. intros [] []. split; congruence. Qed.
Lemma apart_keeps d d' : wf d' -> apart d d' -> keeps_access d d'.
Proof.
  intros Hw [Hp Hc Hk]. split; [done|by apply reality_on_known|]. intros id x. by rewrite (access_same d d') by (by rewrite ?Hp, ?Hc).
Qed.

Lemma quiet_ret {A} (a : A) : quiet (mret a).
Proof. by intros d ? ? [= _ <-]. Qed.
Lemma quiet_bind {A B} (m : Tx A) (f : A -> Tx B) : quiet m -> (forall a, quiet (f a)) -> quiet (m ≫= f).
Proof. intros Hm Hf d b d' (a & d1 & H1 & H2)%tx_bind_Ok. eapply apart_trans; [by eapply Hm|by eapply Hf]. Qed.
Lemma quiet_lift {A} (r : result A) : quiet (lift r).
Proof. by intros d a d' [_ ->]%lift_Ok. Qed.
Lemma quiet_guard b k l : quiet (guard_tx b k l).
Proof. by intros d a d' [_ ->]%lift_Ok. Qed.
Lemma quiet_gets {A} (f : db -> A) : quiet (gets f).
Proof. by intros d a d' [= _ <-]. Qed.
Lemma quiet_throw {A} k l : quiet (@throw A k l).
Proof. done. Qed.
Lemma quiet_catch {A} (m : Tx A) h : quiet m -> quiet (catch m h).
Proof. by intros Hm d a d' Hx%catch_Ok; eapply Hm. Qed.
Lemma quiet_forM {A} (l : list A) (f : A -> Tx unit) : (forall a, quiet (f a)) -> quiet (forM_ l f).
Proof. intros Hf. induction l as [|a l IH]; [apply quiet_ret|]. rewrite forM_cons. by apply quiet_bind. Qed.
Lemma quiet_if {A} (b : bool) (m n : Tx A) : quiet m -> quiet n -> quiet (if b then m else n).
Proof. by destruct b. Qed.
Lemma quiet_decide {A} P `{Decision P} (m n : Tx A) : quiet m -> quiet n -> quiet (if decide P then m else n).
Proof. by destruct (decide P). Qed.
Lemma quiet_upsert k x : k ∉ setting_keys -> quiet (sql_upsert_setting k x).
Proof. intros Hk d a d' [= _ <-]. split; [done..|]. cbn. by apply known_insert. Qed.
End admission.

(** A statement on another table: its body ends in a write of that table. *)
Ltac quiet_statement := intros ? ? ?; repeat case_match; intros; simplify_eq/=; done.
Create HintDb quiet.
#[export] Hint Resolve quiet_ret quiet_bind quiet_lift quiet_guard quiet_gets quiet_throw quiet_catch quiet_forM quiet_if quiet_decide : quiet.

Section panel.
Context `{Unicode} `{WGKeys}.
Implicit Types (d : db).

Lemma quiet_insert_tunnel t : quiet (sql_insert_tunnel t).
Proof. unfold sql_insert_tunnel. quiet_statement. Qed.
Lemma quiet_update_tunnel id wh f : quiet (sql_update_tunnel id wh f).
Proof. unfold sql_update_tunnel. quiet_statement. Qed.
Lemma quiet_delete_tunnel id : quiet (sql_delete_tunnel id).
Proof. unfold sql_delete_tunnel. quiet_statement. Qed.
Lemma quiet_get_tunnel id : quiet (GetTunnel id).
Proof. unfold GetTunnel. quiet_statement. Qed.
Lemma quiet_insert_warp id w : quiet (sql_insert_warp id w).
Proof. unfold sql_insert_warp. quiet_statement. Qed.
Lemma quiet_upsert_check id s a o : quiet (sql_upsert_check id s a o).
Proof. unfold sql_upsert_check. quiet_statement. Qed.
Lemma quiet_notified id s : quiet (SetNotifiedStatus id s).
Proof. unfold SetNotifiedStatus. quiet_statement. Qed.
Lemma quiet_insert_rule r : quiet (sql_insert_rule r).
Proof. unfold sql_insert_rule. quiet_statement. Qed.
Lemma quiet_update_rule id f : quiet (sql_update_rule id f).
Proof. unfold sql_update_rule. quiet_statement. Qed.
Lemma quiet_delete_rule id : quiet (sql_delete_rule id).
Proof. unfold sql_delete_rule. quiet_statement. Qed.
Lemma quiet_rule_peers r : quiet (validateRulePeers r).
Proof. intros d a d' Hx. unfold validateRulePeers in Hx. case_decide; [apply result_bind_Ok in Hx as (_ & _ & Hx)|]; by injection Hx as _ <-. Qed.
Lemma quiet_insert_session c s : quiet (sql_insert_session c s).
Proof. unfold sql_insert_session. quiet_statement. Qed.
Lemma quiet_sessions f : quiet (modify (fun d => set_sessions (f d) d)).
Proof. by intros d a d' [= _ <-]. Qed.
Lemma quiet_expire now : quiet (DeleteExpiredSessions now).
Proof. by intros d a d' [= _ <-]. Qed.
Lemma quiet_ignore_unique m : quiet m -> quiet (ignore_unique m).
Proof.
  intros Hm d a d'. unfold ignore_unique. destruct (m d) as [[b d1]|] eqn:E; [intros [= _ <-]; by eapply Hm|].
  by destruct (isUniqueViolation _); intros [= _ <-].
Qed.
Lemma quiet_affected b w : quiet (checkAffected b w).
Proof. apply quiet_guard. Qed.
#[local] Hint Resolve quiet_insert_tunnel quiet_update_tunnel quiet_delete_tunnel quiet_get_tunnel quiet_insert_warp quiet_upsert_check quiet_notified
  quiet_insert_rule quiet_update_rule quiet_delete_rule quiet_rule_peers quiet_insert_session quiet_sessions quiet_expire quiet_ignore_unique quiet_affected : quiet.
Ltac quiet_auto := repeat first [progress intros | apply quiet_bind | apply quiet_if | apply quiet_decide | apply quiet_catch | apply quiet_forM | apply quiet_ignore_unique | solve [auto 2 with quiet]].

Lemma quiet_set_prio id n : quiet (set_prio id n).
Proof. unfold set_prio. quiet_auto. Qed.
#[local] Hint Resolve quiet_set_prio : quiet.
Lemma quiet_apply_order ids : quiet (applyOrder ids).
Proof. unfold applyOrder. quiet_auto. Qed.
Lemma quiet_detach id ref : quiet (detach_one id ref).
Proof. unfold detach_one. quiet_auto. Qed.
#[local] Hint Resolve quiet_apply_order quiet_detach : quiet.
Lemma quiet_detach_rules id : quiet (detachRulesFromTunnel id).
Proof. unfold detachRulesFromTunnel. quiet_auto. Qed.
#[local] Hint Resolve quiet_detach_rules : quiet.
Lemma quiet_collapse_loop l : quiet (collapse_loop l).
Proof. induction l; cbn [collapse_loop]; quiet_auto. Qed.
#[local] Hint Resolve quiet_collapse_loop : quiet.
Lemma quiet_builtin_pool newID now url typ : quiet (EnsureBuiltinPool newID now url typ).
Proof.
  unfold EnsureBuiltinPool, collapseBuiltinPools. quiet_auto. case_match; quiet_auto.
Qed.
Lemma unknown_key k : forallb (fun k' => negb (String.eqb k k')) setting_keys = true -> k ∉ setting_keys.
Proof.
  intros Hf Hin. rewrite forallb_forall in Hf. apply list_elem_of_In, Hf in Hin. by rewrite String.eqb_refl in Hin.
Qed.

(** The handlers that the panel and the schedules of the daemon call on the
    store beside the gate. *)
Inductive panel d : db -> Prop :=
  | panel_create_tunnel newID now t : panel d (run (CreateTunnel newID now t) d).2
  | panel_update_tunnel t : panel d (run (UpdateTunnel t) d).2
  | panel_delete_tunnel id : panel d (run (DeleteTunnel id) d).2
  | panel_update_pool id servers at_ : panel d (run (UpdateTunnelPool id servers at_) d).2
  | panel_builtin_pool newID now url typ : panel d (run (EnsureBuiltinPool newID now url typ) d).2
  | panel_warp newID now t reg : panel d (run (CreateWARPTunnel newID now t reg) d).2
  | panel_check id status at_ okAt : panel d (run (SaveTunnelCheck id status at_ okAt) d).2
  | panel_notified id status : panel d (run (SetNotifiedStatus id status) d).2
  | panel_create_rule newID r : panel d (run (CreateRule newID r) d).2
  | panel_update_rule r : panel d (run (UpdateRule r) d).2
  | panel_delete_rule id : panel d (run (DeleteRule id) d).2
  | panel_reorder ids : panel d (run (ReorderRules ids) d).2
  | panel_create_peer newID newCred newUUID now p : newCred <> EmptyString ->
      panel d (run (CreatePeer newID newCred newUUID now p) d).2
  | panel_key key value : key ∉ setting_keys -> panel d (run (setSettingValue key value) d).2
  | panel_notify c : panel d (run (SaveNotifyConfig c) d).2
  | panel_password gen encoded : panel d (run (SetPasswordHash gen encoded) d).2
  | panel_session s : panel d (run (CreateSession s) d).2
  | panel_verified_session s st : panel d (run (CreateVerifiedSession s st) d).2
  | panel_extend token expires : panel d (run (ExtendSession token expires) d).2
  | panel_logout token : panel d (run (DeleteSession token) d).2
  | panel_expire now : panel d (run (DeleteExpiredSessions now) d).2.

Lemma panel_step d d' : panel d d' -> step d d'.
Proof. destruct 1; by constructor. Qed.

Lemma quiet_run {A} (m : Tx A) d : quiet m -> wf (run m d).2 -> keeps_access d (run m d).2.
Proof.
  intros Hm Hw. apply apart_keeps; [done|]. unfold run. destruct (m d) as [[a d']|] eqn:E; [by eapply Hm|done].
Qed.
Lemma CreatePeer_keeps d newID newCred newUUID now p : wf d -> newCred <> EmptyString ->
  keeps_access d (run (CreatePeer newID newCred newUUID now p) d).2.
Proof.
  intros Hd Hne. unfold run. destruct (CreatePeer newID newCred newUUID now p d) as [[p' d']|] eqn:E; [|by apply keeps_access_refl].
  destruct (CreatePeer_inv _ _ _ _ _ _ _ _ Hd Hne E) as (_ & _ & Hn & Hw & Hp & _). cbn [snd].
  assert (Hrest : (forall k, k <> p'.(p_id) -> reality_credentials d' !! k = reality_credentials d !! k) /\ settings_kv d' = settings_kv d).
  { unfold CreatePeer in E. inv_tx. rename select (validatePeerEgress _ _ = _) into He. rename select (sql_insert_peer _ _ = _) into Hi.
    apply validatePeerEgress_Ok in He as [-> _]. apply sql_insert_peer_Ok in Hi as (_ & _ & _ & _ & ->).
    match goal with Hx : (if _ then _ else _) _ = _ |- _ => rename Hx into E end. destruct (p_reality _) in E; [|by injection E as <- <-]. unfold ensurePeerReality in E. cbn [p_cred_id p_revision peer_fill] in E.
    rewrite decide_False in E by (intros [? _]; done). inv_tx. rename select (sql_insert_cred _ _ _ = _) into Hc. rename select (sql_update_peer _ _ _ = _) into Hu.
    apply sql_insert_cred_Ok in Hc as (_ & _ & ->). apply sql_update_peer_Ok in Hu as [(_ & q & _ & _ & _ & _ & ->)|(_ & -> & _)]; cbn; (split; [|done]);
      intros k Hk; by rewrite lookup_insert_ne. }
  destruct Hrest as [Hc Hs]. split; [done|by intros b; rewrite (reality_on_same _ _ Hs)|]. intros id x Hx.
  destruct (decide (id = p'.(p_id))) as [->|Hk]; [by apply access_inv in Hx as (q & Hq & _); rewrite Hn in Hq|].
  rewrite (access_same d d'); [done| |by apply Hc]. by rewrite Hp, lookup_insert_ne.
Qed.

Lemma panel_keeps d d' : wf d -> panel d d' -> keeps_access d d'.
Proof.
  intros Hd Hp. pose proof (step_wf _ _ Hd (panel_step _ _ Hp)) as Hw.
  assert (Hkeys : forall k x, forallb (fun k' => negb (String.eqb k k')) setting_keys = true -> quiet (sql_upsert_setting k x)).
  { intros k x Hk. by apply quiet_upsert, unknown_key. }
  destruct Hp; match goal with |- context [CreatePeer] => by apply CreatePeer_keeps | _ => apply quiet_run; [|exact Hw] end.
  - unfold CreateTunnel. quiet_auto.
  - unfold UpdateTunnel. quiet_auto.
  - unfold DeleteTunnel. quiet_auto.
  - unfold UpdateTunnelPool. quiet_auto.
  - apply quiet_builtin_pool.
  - unfold CreateWARPTunnel. quiet_auto.
  - unfold SaveTunnelCheck. quiet_auto.
  - apply quiet_notified.
  - unfold CreateRule. quiet_auto.
  - unfold UpdateRule. quiet_auto.
  - unfold DeleteRule. quiet_auto.
  - unfold ReorderRules. quiet_auto.
  - by apply quiet_upsert.
  - unfold SaveNotifyConfig. cbn [forM_]. quiet_auto; apply Hkeys; by vm_compute.
  - unfold SetPasswordHash. quiet_auto; first [apply Hkeys; by vm_compute|apply quiet_sessions].
  - unfold CreateSession. quiet_auto.
  - unfold CreateVerifiedSession. quiet_auto.
  - apply quiet_sessions.
  - apply quiet_sessions.
  - apply quiet_expire.
Qed.

(** [EnsureWGServerKey] writes a key that is no setting. *)
Lemma EnsureWGServerKey_keeps fresh d : wf d -> keeps_access d (run (EnsureWGServerKey fresh) d).2.
Proof.
  intros Hd. unfold run. destruct (EnsureWGServerKey fresh d) as [[k d']|] eqn:E; [|by apply keeps_access_refl]. cbn [snd].
  unfold EnsureWGServerKey in E. case_decide.
  - destruct (ParseKey _); [|done]. injection E as _ <-. by apply keeps_access_refl.
  - unfold SetServerPrivateKey, sql_upsert_setting in E. inv_tx. apply apart_keeps; [by apply wf_set_settings|].
    split; [done..|]. cbn. apply known_insert, unknown_key. by vm_compute.
Qed.

(** ** Handlers of the gate that revoke nothing *)
Lemma DeletePeer_keeps d id p : wf d -> peers d !! id = Some p -> p.(p_enabled) && p.(p_reality) = false ->
  keeps_users d (run (DeletePeerWithEffects id) d).2.
Proof.
  intros Hd Hp Hoff. pose proof (DeletePeerWithEffects_run d id Hd) as Hr. rewrite Hp in Hr. destruct Hr as (eff & d' & Hr & Hw & Hps & Hcs & _).
  unfold run. rewrite Hr. cbn [snd]. split; [done|]. intros u [Hon Ha].
  assert (Hne : ru_peer u <> id).
  { intros Heq. rewrite Heq, (access_Some _ _ _ Hp), Hoff in Ha. done. }
  assert (Hkv : known_rows (settings_kv d') = known_rows (settings_kv d)).
  { unfold DeletePeerWithEffects in Hr. apply tx_bind_Ok in Hr as (n & d1 & H1 & Hr). apply tx_bind_Ok in Hr as ([] & d2 & H2 & Hr).
    assert (settings_kv d1 = settings_kv d) as <- by (unfold sql_delete_peer in H1; rewrite Hp in H1; by injection H1 as _ <-).
    apply quiet_affected in H2. rewrite <- (ap_known _ _ H2). eapply ap_known.
    refine ((_ : quiet _) d2 eff d' Hr). apply quiet_bind; [apply quiet_gets|]. intros all. apply quiet_bind; [apply quiet_gets|]. intros P.
    induction all as [|r all IH]; cbn [prune_rules]; [apply quiet_ret|]. apply quiet_bind; [unfold prune_rule; quiet_auto|]. intros e. apply quiet_bind; [exact IH|]. intros es. apply quiet_ret. }
  split; [by apply (reality_on_known _ _ Hkv)|]. rewrite (access_same d d'); [done|by rewrite Hps, lookup_delete_ne|by rewrite Hcs, lookup_delete_ne].
Qed.

Lemma ensurePeerReality_has d p newCred newUUID c : cred_checked (reality_credentials d) (p_id p) p -> reality_credentials d !! p_id p = Some c ->
  ensurePeerReality newCred newUUID p d = Ok (p, d).
Proof.
  unfold cred_checked, ensurePeerReality. intros Hck Hc. rewrite Hc in Hck. destruct Hck as (E1 & E2 & Hn & Hr).
  rewrite decide_True; [done|]. split; [congruence|lia].
Qed.
Lemma PatchPeer_settings d newCred newUUID next id patch p' d' : wf d -> newCred <> EmptyString ->
  PatchPeer newCred newUUID next id patch d = Ok (p', d') -> settings_kv d' = settings_kv d.
Proof.
  intros Hd Hne Hx. unfold PatchPeer in Hx. apply tx_bind_Ok in Hx as (old & d0 & Ho & Hx). unfold GetPeer in Ho. destruct (peers d !! id) as [q|] eqn:Hq; [|done].
  injection Ho as -> <-. apply tx_bind_Ok in Hx as (p & d0 & [Ha ->]%lift_Ok & Hx). unfold Apply in Ha. apply result_bind_Ok in Ha as (_ & _ & [= <-]).
  pose proof (po_id _ _ (wf_peers d Hd) _ _ Hq) as Hid.
  apply tx_bind_Ok in Hx as (p1 & d1 & H1 & Hx). apply tx_bind_Ok in Hx as ([] & d2 & H2 & Hx).
  assert (E1 : settings_kv d1 = settings_kv d /\ wf d1 /\ p_id p1 = id /\ (p_reality p1 = true -> is_Some (reality_credentials d1 !! id))).
  { destruct (p_reality (patch_merge patch old)) eqn:Hr.
    - destruct (ensurePeerReality_wf d (patch_merge patch old) old newCred newUUID p1 d1) as (cid & rev & -> & Hw & _ & _ & _ & _ & [c Hc] & _); try done; [cbn [patch_merge p_id]; by rewrite Hid|].
      cbn [patch_merge p_id] in Hc. rewrite Hid in Hc. split; [|by split_and!]. unfold ensurePeerReality in H1. case_decide; [by inv_tx|]. inv_tx.
      rename select (sql_insert_cred _ _ _ = _) into Hi. rename select (sql_update_peer _ _ _ = _) into Hu.
      apply sql_insert_cred_Ok in Hi as (_ & _ & ->). by apply sql_update_peer_Ok in Hu as [(_ & ? & _ & _ & _ & _ & ->)|(_ & -> & _)].
    - injection H1 as <- <-. split_and!; try done. by rewrite Hr. }
  destruct E1 as (E1 & Hw1 & Hid1 & Hreal). apply updatePeer_inv in H2 as (old1 & _ & -> & Hw2); [|done|by rewrite Hid1].
  destruct (_ && _) in Hx; [|by injection Hx as _ <-]. apply tx_bind_Ok in Hx as (u & d3 & H3 & [= _ <-]).
  apply invalidateReality_run in H3 as (_ & _ & _ & -> & _); [|done]. exact E1.
Qed.
Lemma PatchPeer_keeps d newCred newUUID next id patch old : wf d -> newCred <> EmptyString -> id <> EmptyString ->
  peers d !! id = Some old ->
  (old.(p_enabled) && old.(p_reality) = true -> default old.(p_enabled) patch.(pp_enabled) && default old.(p_reality) patch.(pp_reality) = true) ->
  keeps_users d (run (PatchPeer newCred newUUID next id patch) d).2.
Proof.
  intros Hd Hne Hi Ho Hon. unfold run. destruct (PatchPeer newCred newUUID next id patch d) as [[p' d']|] eqn:E; [|by apply keeps_users_refl]. cbn [snd].
  destruct (PatchPeer_inv _ _ _ _ _ _ _ _ Hd Hne Hi E) as (old0 & Ho0 & Hw & Hp' & (cid & rev & ->) & Hoth & _).
  assert (old0 = old) as -> by congruence. split; [done|]. intros u [Hr Ha].
  split; [by rewrite (reality_on_same _ _ (PatchPeer_settings _ _ _ _ _ _ _ _ Hd Hne E))|].
  destruct (decide (ru_peer u = id)) as [Heq|Hk]; [|rewrite (access_same d d'); [done|by apply Hoth..]].
  rewrite Heq in *. rewrite (access_Some _ _ _ Ho) in Ha. injection Ha as Hbit Hcu. specialize (Hon Hbit).
  rewrite (access_Some _ _ _ Hp'). cbn [peer_set_cred patch_merge p_enabled p_reality]. rewrite Hon. do 2 f_equal. rewrite <- Hcu. f_equal.
  apply fmap_Some in Hcu as (c & Hc & _). rewrite Hc.
  (* the credential is there already, and nothing is invalidated *)
  pose proof (po_id _ _ (wf_peers d Hd) _ _ Ho) as Hid. pose proof (wf_cred_checked d _ _ Hd Ho) as Hck.
  unfold PatchPeer in E. apply tx_bind_Ok in E as (q & d0 & Hq & E). unfold GetPeer in Hq. rewrite Ho in Hq. injection Hq as <- <-.
  apply tx_bind_Ok in E as (p & d0 & [Hap ->]%lift_Ok & E). unfold Apply in Hap. apply result_bind_Ok in Hap as (_ & _ & [= <-]).
  set (m := patch_merge patch old) in *. assert (Hm : p_enabled m && p_reality m = true) by done. apply andb_true_iff in Hm as [Hme Hmr].
  rewrite Hmr in E. apply tx_bind_Ok in E as (p1 & d1 & H1 & E). assert (Hid' : p_id m = id) by done.
  rewrite (ensurePeerReality_has _ _ _ _ c) in H1; [|unfold cred_checked in *; rewrite Hid', Hc in *; exact Hck|by rewrite Hid'].
  injection H1 as <- <-. rewrite Hme, Hmr, andb_false_r in E. apply tx_bind_Ok in E as ([] & d2 & H2 & E).
  assert (d2 = d') as -> by (by injection E). apply updatePeer_inv in H2 as (? & _ & -> & _); [done|done|]. intros _. rewrite Hid'. by exists c.
Qed.

Lemma SaveSettings_keeps dw v d old : wf d -> fits v -> reality_on d = Some old -> old && negb v.(s_reality) = false ->
  keeps_users d (run (SaveSettings dw v) d).2.
Proof.
  intros Hd Hf Hold Hoff. unfold run. destruct (SaveSettings dw v d) as [[[] d']|] eqn:E; [|by apply keeps_users_refl]. cbn [snd].
  unfold SaveSettings in E. apply tx_bind_Ok in E as ([] & d0 & [Hv ->]%lift_Ok & E).
  destruct (saveSettings_inv _ _ _ _ Hd E) as (st & Hst & Hw & Hkv & _ & _ & _ & _ & _ & Hc).
  assert (s_reality st = old) as Est by (unfold reality_on in Hold; rewrite Hst in Hold; by injection Hold).
  rewrite Est, Hoff in Hc. destruct Hc as [Hc Hp]. split; [done|]. intros u [Hon Ha]. rewrite Hold in Hon. injection Hon as ->.
  split; [|by rewrite (access_same d d') by (by rewrite ?Hp, ?Hc)].
  unfold reality_on, settings. rewrite Hkv, read_after_upsert; [|done|by apply validate_countries]. cbn.
  destruct (s_reality v); [done|by cbn in Hoff].
Qed.

End panel.
