(* ===== verification/Gate.v ===== *)
(** * The publication gate

    [cmd/razdachad]: [network_generation.go], [reality.go], [apply.go],
    [wg_sync.go] and the beginning of [main.go].  The daemon publishes a state of
    the database through one gate: the packet filter, the WireGuard interface,
    the configuration of sing-box and the committed generation change while the
    barriers of the kernel keep clients out.

    A handler is a program of single actions on the host.  Between two actions
    the service manager may stop, guard and start sing-box, the panel's other
    requests may write to the store, and the daemon may die after any of them; what the system answers to an action is chosen by the
    environment. *)

From Stdlib Require Import Ascii.
From S2P Require Import Prelude GoStd Model Db SettingsStore PeersStore RealityStore PoolFilter SingBox Generate Reality Apply Ingress Lists WgPeers Generation.
From S2P Require Nft NftExpr NftPolicy.
#[local] Open Scope Z_scope.

(** ** The world *)

(** sing-box: the configuration it runs, and whether the helper of the unit
    ([ExecStartPre]) has allowed it to read its file. *)
Record Runtime := MkRuntimeState { rt_running : option string; rt_starting : bool }.

(** WireGuard and routing: the interface with its parameters (unknown after a
    failure), its peers, the policy route, the table of the packet filter. *)
Inductive WgState := WgDown | WgUnknown | WgUp (cfg : WGConfig).
Record Network := MkNetwork {
  nw_wg : WgState; nw_device : device; nw_route : bool; nw_nft : option NftPolicy.Table }.

(** The fields of [applyGate] and [networkPublication] that change. *)
Record Memory := MkMemory {
  me_base : SnapshotT;
  me_contents : gmap string List_;
  me_initialized : bool;
  me_uncertain : bool;
  me_epoch : Z
}.

(** [w_temps] are the temporary files beside the configuration, [w_locked] is
    the lock of the manifest, held by the daemon. *)
Record World := MkWorld {
  w_db : db;
  w_host : Host;
  w_temps : gmap string string;
  w_runtime : Runtime;
  w_network : Network;
  w_authority : Authority;
  w_locked : bool;
  w_lists : option Manager;
  w_memory : Memory
}.
Definition set_db (d : db) (w : World) : World :=
  MkWorld d w.(w_host) w.(w_temps) w.(w_runtime) w.(w_network) w.(w_authority) w.(w_locked) w.(w_lists) w.(w_memory).
Definition set_host (h : Host) (w : World) : World :=
  MkWorld w.(w_db) h w.(w_temps) w.(w_runtime) w.(w_network) w.(w_authority) w.(w_locked) w.(w_lists) w.(w_memory).
Definition set_temps (t : gmap string string) (w : World) : World :=
  MkWorld w.(w_db) w.(w_host) t w.(w_runtime) w.(w_network) w.(w_authority) w.(w_locked) w.(w_lists) w.(w_memory).
Definition set_runtime (r : Runtime) (w : World) : World :=
  MkWorld w.(w_db) w.(w_host) w.(w_temps) r w.(w_network) w.(w_authority) w.(w_locked) w.(w_lists) w.(w_memory).
Definition set_network (n : Network) (w : World) : World :=
  MkWorld w.(w_db) w.(w_host) w.(w_temps) w.(w_runtime) n w.(w_authority) w.(w_locked) w.(w_lists) w.(w_memory).
Definition set_authority (a : Authority) (w : World) : World :=
  MkWorld w.(w_db) w.(w_host) w.(w_temps) w.(w_runtime) w.(w_network) a w.(w_locked) w.(w_lists) w.(w_memory).
Definition set_locked (b : bool) (w : World) : World :=
  MkWorld w.(w_db) w.(w_host) w.(w_temps) w.(w_runtime) w.(w_network) w.(w_authority) b w.(w_lists) w.(w_memory).
Definition set_lists (m : option Manager) (w : World) : World :=
  MkWorld w.(w_db) w.(w_host) w.(w_temps) w.(w_runtime) w.(w_network) w.(w_authority) w.(w_locked) m w.(w_memory).
Definition set_memory (m : Memory) (w : World) : World :=
  MkWorld w.(w_db) w.(w_host) w.(w_temps) w.(w_runtime) w.(w_network) w.(w_authority) w.(w_locked) w.(w_lists) m.
Definition set_fs (fs : FS) (w : World) : World := set_host (MkHost fs w.(w_host).(ho_tables)) w.
Definition set_tables (T : gmap string GuardTable) (w : World) : World := set_host (MkHost w.(w_host).(ho_fs) T) w.
Definition w_fs (w : World) : FS := w.(w_host).(ho_fs).
Definition w_tables (w : World) : gmap string GuardTable := w.(w_host).(ho_tables).

(** ** Programs *)

(** What the environment answers to an action; each action looks at what
    concerns it. *)
Record Answer := MkAnswer {
  an_ok : bool;
  an_alive : bool;
  an_bounded : bool;
  an_write : WriteAnswer;
  an_netlink : NetlinkAnswers;
  an_startup : StartupAnswers;
  an_passes : nat -> Pass;
  an_verify : List_ -> bool;
  an_addresses : list string;
  an_dump : list wgPeer;
  an_key : string
}.

Inductive prog (A : Type) : Type :=
  | Ret (a : A)
  | Act {X : Type} (op : Answer -> World -> X * World) (k : X -> prog A).
Arguments Ret {A} a.
Arguments Act {A X} op k.

Fixpoint bind {A B} (p : prog A) (f : A -> prog B) : prog B :=
  match p with Ret a => f a | Act op k => Act op (fun x => bind (k x) f) end.
Definition act {X} (op : Answer -> World -> X * World) : prog X := Act op Ret.

(** [errors] as in Go: an early return, or a branch for the error. *)
Definition attempt {A B} (p : prog (result A)) (ok : A -> prog B) (err : error -> prog B) : prog B :=
  bind p (fun r => match r with Ok a => ok a | Err e => err e end).

Declare Scope gate_scope.
Delimit Scope gate_scope with gate.
Notation "x ← p ; q" := (bind p (fun x => q)) (at level 20, p at level 100, q at level 200, only parsing) : gate_scope.
Notation "x ←? p ; q" := (attempt p (fun x => q) (fun e => Ret (Err e)))
  (at level 20, p at level 100, q at level 200, only parsing) : gate_scope.
Notation "' x ← p ; q" := (bind p (fun y => match y with x => q end))
  (at level 20, x pattern, p at level 100, q at level 200, only parsing) : gate_scope.
Notation "' x ←? p ; q" := (attempt p (fun y => match y with x => q end) (fun e => Ret (Err e)))
  (at level 20, x pattern, p at level 100, q at level 200, only parsing) : gate_scope.
#[local] Open Scope gate_scope.

Definition get : prog World := act (fun _ w => (w, w)).
Definition modify (f : World -> World) : prog unit := act (fun _ w => (tt, f w)).
(** A step that can fail and changes nothing. *)
Definition check {A} (f : Answer -> World -> result A) : prog (result A) := act (fun a w => (f a w, w)).
Definition lift {A} (r : result A) : prog (result A) := Ret r.
(** A transaction of the store. *)
Definition tx {A} (m : Tx A) : prog (result A) := act (fun a w =>
  if a.(an_ok) then let '(r, d) := run m w.(w_db) in (r, set_db d w) else (fail ErrOther "database", w)).

Definition errPublicPortBusy : error := MkError ErrOther "public ingress port is occupied".
Definition errNoAppliedGeneration : error := MkError ErrOther "clients are guarded: explicit Apply is required".
Definition ErrNetworkGuarded (label : string) : error := MkError ErrOther label.
(** [fmt.Errorf] with its prefix: the wrapped error stays what it is. *)
Definition ctx_err : prog (result unit) := check (fun a _ => guard_err (negb a.(an_ok)) ErrOther "context canceled").

Section gate.
Context `{Unicode} `{WGKeys} `{Platform} `{PoolPolicy} `{PoolSource} `{Nft.IPSets}.
(** The encoder of the sing-box options, the derivation of REALITY public keys,
    the byte order of the machine, the outgoing interface, and the paths of the
    configuration and of the manifest. *)
Variables (Marshal : RealityOptions -> result string) (public_of : string -> option string).
Variables (little : bool) (wan cp mp : string).

(** ** The service *)
Definition config_data (w : World) : option string := nd_data <$> (w_fs w).(fs_nodes) !! cp.
Definition stop_service (w : World) : World := set_runtime (MkRuntimeState None false) w.
(** [ExecStartPre]: the helper waits while the daemon holds the lock. *)
Definition exec_start_pre (a : StartupAnswers) (w : World) : result unit * World :=
  let '(r, h) := Startup a cp mp w.(w_host) in (r, set_runtime (MkRuntimeState None (is_ok r)) (set_host h w)).
Definition exec_start (w : World) : World :=
  if w.(w_runtime).(rt_starting) then set_runtime (MkRuntimeState (config_data w) false) w else w.

(** What happens beside the daemon. *)
Inductive Happening :=
  | ServiceStops
  | ServiceGuards (a : StartupAnswers)
  | ServiceStarts
  | ListsChange (e : Lists.Event)
  | PanelWrites (f : db -> db).
Definition happen (w : World) (h : Happening) : World :=
  match h with
  | ServiceStops => stop_service w
  | ServiceGuards a => if w.(w_locked) then w else (exec_start_pre a w).2
  | ServiceStarts => exec_start w
  | ListsChange e => set_lists (option_map (fun m => apply_event m e) w.(w_lists)) w
  | PanelWrites f => set_db (f w.(w_db)) w
  end.

(** A turn of the environment: what happens before the next action, and the
    answer to it.  When the turns end the daemon is dead. *)
Definition Turn : Type := list Happening * Answer.
Fixpoint exec {A} (p : prog A) (turns : list Turn) (w : World) : option A * list Turn * World :=
  match p with
  | Ret a => (Some a, turns, w)
  | Act op k =>
      match turns with
      | [] => (None, [], w)
      | (hs, a) :: turns => let '(x, w) := op a (foldl happen w hs) in exec (k x) turns w
      end
  end.

(** [systemctl restart]: it may report a failure, and the process may be dead or
    alive afterwards. *)
Definition restart : prog bool := act (fun a w =>
  let '(r, w) := exec_start_pre a.(an_startup) (stop_service w) in
  match r with
  | Err _ => (false, stop_service w)
  | Ok _ => (a.(an_ok), if a.(an_alive) then exec_start w else stop_service w)
  end).

(** ** Guards and the lock *)
Definition guard (on : bool) : prog (result unit) := act (fun a w =>
  let '(r, T) := SetClientGuard a.(an_netlink) on (w_tables w) in (r, set_tables T w)).
Definition publicGuard (es : list Endpoint) (on : bool) : prog (result unit) := act (fun a w =>
  let '(r, T) := SetPublicClientGuard a.(an_netlink) es on (w_tables w) in (r, set_tables T w)).
Definition write_manifest (m : Manifest) : prog (result unit) := act (fun a w =>
  let '(r, fs) := Ingress.Write a.(an_write) (w_fs w) mp m in (r, set_fs fs w)).
Definition lock : prog (result unit) := act (fun a w =>
  let '(r, fs) := WithLock a.(an_ok) (w_fs w) mp in (r, set_locked (is_ok r) (set_fs fs w))).
Definition unlock : prog unit := modify (set_locked false).
Definition with_lock {A} (operation : prog (result A)) : prog (result A) :=
  _ ←? lock; r ← operation; _ ← unlock; Ret r.

Definition read_manifest : prog (result Manifest) := check (fun _ w => Ingress.Read (w_fs w) mp).
(** [os.ReadFile] of the configuration: [None] when it does not exist. *)
Definition read_config : prog (result (option string)) :=
  check (fun a w => if a.(an_ok) then Ok (config_data w) else fail ErrOther "read configuration").

(** [publicGuarded] *)
Definition publicGuarded (w : World) : bool :=
  match Ingress.Read (w_fs w) mp with Ok m => m.(mf_guarded) | Err _ => true end.

(** ** The public entrance *)

(** The check of the endpoints that the current configuration does not have. *)
Fixpoint probe_ports (current : list Endpoint) (l : list Endpoint) : prog (result unit) :=
  match l with
  | [] => Ret (Ok tt)
  | e :: l =>
      if decide (e ∈ current) then probe_ports current l
      else attempt (check (fun a _ => guard_err (negb a.(an_ok)) ErrOther "listen")) (fun _ => probe_ports current l)
             (fun _ => Ret (Err errPublicPortBusy))
  end.

Definition stagePublic (candidate : string) : prog (result unit) :=
  with_lock (
    m ← read_manifest;
    m ←? lift match m with
              | Ok m => Ok m
              | Err e => if decide (e.(err_kind) = ErrNotFound) then Ok (MkManifest 0 [] [] false) else Err e
              end;
    endpoints ←? lift (ConfigEndpoints candidate);
    old ←? read_config;
    '(endpoints, current, hashes) ←? lift match old with
       | Some old =>
           (current ← ConfigEndpoints old; endpoints ← Union [endpoints; current];
            Ok (endpoints, current,
                HashConfig candidate :: if decide (HashConfig old = HashConfig candidate) then [] else [HashConfig old]))%stdpp
       | None => Ok (endpoints, [], [HashConfig candidate])
       end;
    _ ←? probe_ports current endpoints;
    endpoints ←? lift (Union [m.(mf_endpoints); endpoints]);
    _ ←? write_manifest (MkManifest Version endpoints hashes true);
    publicGuard endpoints true).

(** After a failure both barriers are closed again, as far as that works. *)
Definition reclose (es : list Endpoint) (e : error) : prog (result unit) :=
  _ ← guard true; _ ← publicGuard es true; Ret (Err e).
Definition releasePublic (candidate : string) : prog (result unit) :=
  with_lock (
    current ←? check (fun _ w => readControlled (w_fs w) cp maxConfigBytes false);
    if decide (current <> candidate) then Ret (fail ErrOther "runtime configuration changed")
    else
      es ←? lift (ConfigEndpoints candidate);
      let m := MkManifest Version es [HashConfig candidate] true in
      _ ←? write_manifest m;
      attempt (guard false) (fun _ =>
      attempt (publicGuard es false) (fun _ =>
      attempt (write_manifest (MkManifest Version es [HashConfig candidate] false)) (fun _ => Ret (Ok tt))
        (reclose es)) (reclose es))
        (fun e => _ ← guard true; Ret (Err e))).

Definition emergencyPublicGuard : prog (result unit) :=
  with_lock (
    m ←? read_manifest;
    _ ←? write_manifest (MkManifest m.(mf_version) m.(mf_endpoints) m.(mf_hashes) true);
    publicGuard m.(mf_endpoints) true).

(** ** Memory *)
Definition with_memory (f : Memory -> Memory) : prog unit := modify (fun w => set_memory (f w.(w_memory)) w).
Definition bump_epoch : prog unit := with_memory (fun m =>
  MkMemory m.(me_base) m.(me_contents) m.(me_initialized) m.(me_uncertain) ((m.(me_epoch) + 1) mod 2 ^ 64)).
Definition set_uncertain (b : bool) : prog unit := with_memory (fun m =>
  MkMemory m.(me_base) m.(me_contents) m.(me_initialized) b m.(me_epoch)).
Definition set_applied (sn : SnapshotT) (contents : gmap string List_) (m : Memory) : Memory :=
  MkMemory sn contents true m.(me_uncertain) m.(me_epoch).
Definition SetCommitted (src : list Source) : prog unit :=
  modify (fun w => set_lists (option_map (SetCommittedSources src) w.(w_lists)) w).

(** ** Actions of a publication *)

(** [NativeArtifact.Verify] over the lists that have an artifact. *)
Definition verify_all (contents : gmap string List_) : prog (result unit) := check (fun a _ =>
  guard_err (negb (forallb (fun p => match p.2.(l_native) with Some _ => a.(an_verify) p.2 | None => true end) (map_to_list contents)))
    ErrOther "native artifact verification").
Definition choose_lists (sn : SnapshotT) (contents : gmap string List_) : prog (result (gmap string List_)) :=
  check (fun a _ => select_lists a.(an_verify) contents (Sources sn) ∅).
Definition check_peers (st : Settings) : prog (result unit) := check (fun a w =>
  if a.(an_ok) then validateWGPolicy st (q_peers w.(w_db)) else fail ErrOther "read peers").

(** The addresses of the gateway: the interfaces' and the published host. *)
Definition local_addresses (interfaces : list string) (host : string) : list string :=
  let single a := match Unmap a with V4 ip => [PrefixString (MkPrefix (V4 ip) 32)] | V6 _ _ => [] end in
  flat_map (fun s => match ParsePrefix s with Some p => single (prefix_addr p) | None => [] end) interfaces ++
  match ParseAddr host with Some a => single a | None => [] end.
Definition runtime_admission (sn : SnapshotT) : prog (result Live) := check (fun a w =>
  if negb a.(an_ok) then fail ErrOther "database"
  else (rt ← RealityRuntime public_of sn w.(w_db);
        if negb a.(an_alive) then fail ErrOther "enumerate gateway addresses"
        else Ok (MkLive rt (local_addresses a.(an_addresses) sn.(sn_settings).(s_endpoint))))%stdpp).

Definition disk (w : World) : Disk := MkDisk (config_data w) w.(w_temps).
(** The fuel of [prepare] is one more than it can need. *)
Definition prepare_candidate (plain : PlainLists) (live : Live) (forceCheck : bool) (sn : SnapshotT) : prog (ApplyError + Prepared) := act (fun a w =>
  match Apply.prepare Marshal plain (Some live) (S (poolServerCount sn)) forceCheck a.(an_passes) sn (disk w) with
  | Some (out, d) => (out, set_temps d.(dk_temps) w)
  | None => (inl (EDisk "unreachable"), w)
  end).
Definition candidate_bytes (pr : Prepared) : prog (result string) := check (fun a w =>
  match (if a.(an_ok) then ConfigData pr (disk w) else None) with
  | Some data => Ok data
  | None => fail ErrOther "read candidate"
  end).
Definition close_prepared (pr : Prepared) : prog unit := act (fun a w =>
  (tt, match pr.(pr_temporary) with Some tmp => set_temps (remove a.(an_ok) tmp (disk w)).(dk_temps) w | None => w end)).

(** [os.Rename] of the temporary file, [dir.Sync]. *)
Definition rename_config (tmp : string) : prog bool := act (fun a w =>
  match w.(w_temps) !! tmp with
  | Some data => if a.(an_ok) then (true, set_temps (delete tmp w.(w_temps)) (set_fs (store_file (w_fs w) cp data) w)) else (false, w)
  | None => (false, w)
  end).
Definition sync_directory : prog bool := act (fun a w => (a.(an_ok), w)).

(** [Prepared.Commit]: the result, the error, and what is left to close. *)
Definition reload (changed force : bool) : prog (ApplyResult * option ApplyError) :=
  if negb (changed || force) then Ret (MkApplyResult changed false, None)
  else
    synced ← sync_directory;
    if negb synced then Ret (MkApplyResult changed false, Some (EDisk "sync configuration directory"))
    else
      restarted ← restart;
      if negb restarted then Ret (MkApplyResult changed false, Some ErrReloadFailed)
      else Ret (MkApplyResult changed true, None).
Definition Commit (force : bool) (pr : Prepared) : prog (ApplyResult * option ApplyError * Prepared) :=
  match pr.(pr_temporary) with
  | None => '(res, err) ← reload false force; Ret (res, err, pr)
  | Some tmp =>
      renamed ← rename_config tmp;
      if negb renamed then Ret (MkApplyResult false false, Some (EDisk "publish configuration"), pr)
      else '(res, err) ← reload true force; Ret (res, err, MkPrepared None)
  end.

(** [configureLiveWG]: [startWG] makes the interface (with the server's key),
    [syncLiveWGPeers] its peers.  A step of the link that fails leaves the
    parameters of the interface unknown. *)
Definition setup_wg (st : Settings) (a : Answer) (w : World) : result unit * World :=
  match WGConfigFromSettings st with
  | None => (fail ErrOther "WireGuard settings", w)
  | Some cfg =>
      match run (EnsureWGServerKey a.(an_key)) w.(w_db) with
      | (Err e, d) => (Err e, set_db d w)
      | (Ok _, d) =>
          let n := w.(w_network) in
          let w := set_db d w in
          if a.(an_ok) then (Ok tt, set_network (MkNetwork (WgUp cfg) n.(nw_device) n.(nw_route) n.(nw_nft)) w)
          else (fail ErrOther "configure interface", set_network (MkNetwork WgUnknown n.(nw_device) n.(nw_route) n.(nw_nft)) w)
      end
  end.
Definition startWG (st : Settings) : prog (result unit) := act (setup_wg st).
Definition syncLiveWGPeers : prog (result unit) := act (fun a w =>
  if negb a.(an_ok) then (fail ErrOther "read live WireGuard peers", w)
  else
    let n := w.(w_network) in
    let '(r, dev) := SyncPeers (q_peers w.(w_db)) n.(nw_device) a.(an_dump) in
    (match r with inl _ => guard_err (negb a.(an_alive)) ErrOther "reconcile live WireGuard peers" | inr _ => fail ErrOther "reconcile live WireGuard peers" end,
     if a.(an_alive) then set_network (MkNetwork n.(nw_wg) dev n.(nw_route) n.(nw_nft)) w else w)).
Definition configureLiveWG (st : Settings) : prog (result unit) := _ ←? startWG st; syncLiveWGPeers.

(** The policy route, and [publish] of [startNetfilter]. *)
Definition ensureRoute : prog (result unit) := act (fun a w =>
  let n := w.(w_network) in
  (guard_err (negb a.(an_ok)) ErrOther "policy routing", set_network (MkNetwork n.(nw_wg) n.(nw_device) a.(an_ok) n.(nw_nft)) w)).
Definition publish_nft (sn : SnapshotT) (contents : gmap string List_) : prog (result Z) := act (fun a w =>
  if negb a.(an_ok) then (fail ErrOther "nftables", w)
  else
    let n := w.(w_network) in
    let '(r, t) := NftPolicy.Apply little a.(an_netlink).(nl_list) a.(an_netlink).(nl_flush) (nft_config wan sn contents) n.(nw_nft) in
    (match r with
     | inr _ => fail ErrOther "nftables"
     | inl rs => if decide (rs.(Nft.rs_skipped) <> 0) then fail ErrOther "candidate contains invalid subnets"
                 else Ok (Z.of_nat (length (generationSubnets sn contents) + length (generationTransportSubnets sn contents)))
     end, set_network (MkNetwork n.(nw_wg) n.(nw_device) n.(nw_route) t) w)).

Definition commit_generation (sn : SnapshotT) (contents : gmap string List_) : prog (result unit) := act (fun a w =>
  let d := w.(w_authority) in
  let '(r, f) := writeGeneration a.(an_write) a.(an_bounded) (MkGeneration EmptyString 5 sn (Some contents)) d.(au_committed) in
  (r, set_authority (MkAuthority f d.(au_bootstrap) d.(au_backups)) w)).
Definition discard_bootstrap : prog (result unit) := act (fun a w =>
  let d := w.(w_authority) in
  let '(r, f) := DiscardBootstrap a.(an_ok) a.(an_alive) d.(au_bootstrap) in
  (r, set_authority (MkAuthority d.(au_committed) f d.(au_backups)) w)).

(** ** Publication *)

(** [ApplyResult] with [NftSubnets]. *)
Definition Report : Type := ApplyResult * option Z.
Definition applied (e : ApplyError) : error :=
  match e with ErrGenerateFailed e => e | _ => MkError ErrOther "apply configuration" end.

(** From the commit of the configuration to the release of the guards. *)
Definition publish_committed (sn : SnapshotT) (selected : gmap string List_) (candidate : string) (res : ApplyResult) : prog (result Report) :=
  count ←? publish_nft sn selected;
  _ ←? ctx_err;
  _ ←? verify_all selected;
  _ ←? commit_generation sn selected;
  _ ←? discard_bootstrap;
  _ ← with_memory (set_applied sn selected);
  _ ← SetCommitted (Sources sn);
  _ ←? ctx_err;
  attempt (releasePublic candidate)
    (fun _ => _ ← set_uncertain false; Ret (Ok (res, Some count)))
    (fun e => _ ← guard true; Ret (Err e)).

(** The boundaries: everything after the candidate was prepared; [defer
    prepared.Close()] acts on what is left of it. *)
Definition publish_closed (sn : SnapshotT) (selected : gmap string List_) (candidate : string) (needRestart : bool) (pr : Prepared)
  : prog (result Report * Prepared) :=
  attempt (guard true) (fun _ =>
  attempt (configureLiveWG sn.(sn_settings)) (fun _ =>
  attempt ensureRoute (fun _ =>
    '(res, err, pr) ← Commit needRestart pr;
    match err with
    | Some e => Ret (Err (applied e), pr)
    | None => r ← publish_committed sn selected candidate res; Ret (r, pr)
    end) (fun e => Ret (Err e, pr))) (fun e => Ret (Err e, pr))) (fun e => Ret (Err e, pr)).

Definition publish_prepared (sn : SnapshotT) (selected : gmap string List_) (repair publicUncertain : bool) (pr : Prepared)
  : prog (result Report * Prepared) :=
  w ← get;
  let m := w.(w_memory) in
  let changedGeneration := negb (bool_decide (m.(me_base) = sn)) || negb (bool_decide (m.(me_contents) = selected)) in
  let needRestart := m.(me_uncertain) || publicUncertain || Changed pr || changedGeneration in
  if negb repair && negb needRestart then
    '(res, err, pr) ← Commit false pr;
    let count := Z.of_nat (length (generationSubnets sn selected) + length (generationTransportSubnets sn selected)) in
    Ret (match err with Some e => Err (applied e) | None => Ok (res, Some count) end, pr)
  else
    attempt ctx_err (fun _ =>
    attempt (candidate_bytes pr) (fun candidate =>
    attempt (stagePublic candidate)
      (fun _ => _ ← set_uncertain true; publish_closed sn selected candidate needRestart pr)
      (fun e => if decide (e = errPublicPortBusy) then Ret (Err e, pr)
                else _ ← set_uncertain true; _ ← guard true; Ret (Err e, pr)))
      (fun e => Ret (Err e, pr))) (fun e => Ret (Err e, pr)).

(** [publish] after the active artifacts were looked at. *)
Definition publish_policy (sn : SnapshotT) (recovery repair : bool) : prog (result Report) :=
  sn ←? lift (copy_policy sn);
  _ ←? lift (validateWGPolicy sn.(sn_settings) sn.(sn_peers));
  _ ←? check_peers sn.(sn_settings);
  w ← get;
  let contents := if recovery then w.(w_memory).(me_contents) else from_option mg_lists ∅ w.(w_lists) in
  selected ←? choose_lists sn contents;
  live ←? runtime_admission sn;
  w ← get;
  let publicUncertain := publicGuarded w in
  out ← prepare_candidate (frozenPlainLists selected) live (w.(w_memory).(me_uncertain) || publicUncertain) sn;
  match out with
  | inl e => Ret (Err (applied e))
  | inr pr => '(r, pr) ← publish_prepared sn selected repair publicUncertain pr; _ ← close_prepared pr; Ret r
  end.
Definition publish (sn : SnapshotT) (recovery repair : bool) : prog (result Report) :=
  _ ← bump_epoch;
  w ← get;
  let m := w.(w_memory) in
  attempt (if m.(me_initialized) && negb m.(me_uncertain) then verify_all m.(me_contents) else Ret (Ok tt))
    (fun _ => publish_policy sn recovery repair)
    (fun e => _ ← guard true; _ ← emergencyPublicGuard; _ ← set_uncertain true; Ret (Err e)).

(** ** The operations of the gate; each holds its mutex. *)
Definition unit_result {A} (p : prog (result A)) : prog (result unit) := _ ←? p; Ret (Ok tt).

Definition ApplyCurrent : prog (result Report) := sn ←? tx Snapshot; publish sn false true.
Definition refreshLists : prog (result Report) :=
  w ← get;
  if negb w.(w_memory).(me_initialized) then Ret (Err errNoAppliedGeneration)
  else publish w.(w_memory).(me_base) false false.
(** [watchPools] reads the state before it enters the gate. *)
Definition applyPools (fresh : SnapshotT) : prog (result Report) :=
  w ← get;
  if negb w.(w_memory).(me_initialized) then Ret (Err errNoAppliedGeneration)
  else publish (withPoolServers w.(w_memory).(me_base) fresh) true false.

(** [closeForRevocation]; the file must exist. *)
Definition closeForRevocation : prog (result unit) :=
  _ ← bump_epoch;
  b ←? read_config;
  match b with
  | None => Ret (fail ErrNotFound "read configuration")
  | Some b => _ ←? stagePublic b; _ ← set_uncertain true; guard true
  end.
Definition reconcileRevocation : prog (result unit) :=
  w ← get;
  attempt (publish w.(w_memory).(me_base) true false) (fun _ => Ret (Ok tt))
    (fun e => Ret (Err (ErrNetworkGuarded "authentication revoked; ingress remains guarded"))).

Definition revokes (old : Peer) (patch : PeerPatch) : bool :=
  old.(p_reality) && old.(p_enabled) &&
  (bool_decide (patch.(pp_enabled) = Some false) || bool_decide (patch.(pp_reality) = Some false)).
Definition PatchPeer (newCred newUUID : string) (next : string -> string) (id : string) (patch : PeerPatch) : prog (result Peer) :=
  old ←? tx (GetPeer id);
  _ ←? tx (ValidatePeerPatch old patch);
  let revoke := revokes old patch in
  _ ←? (if revoke then closeForRevocation else Ret (Ok tt));
  p ←? tx (PeersStore.PatchPeer newCred newUUID next id patch);
  _ ← (if decide (old.(p_enabled) <> p.(p_enabled) \/ old.(p_wg_disabled) <> p.(p_wg_disabled) \/ old.(p_reality) <> p.(p_reality))
       then bump_epoch else Ret tt);
  _ ←? (if revoke then reconcileRevocation else Ret (Ok tt));
  Ret (Ok p).
Definition DeletePeer (id : string) : prog (result PeerDeletion) :=
  p ←? tx (GetPeer id);
  let revoke := p.(p_reality) && p.(p_enabled) in
  _ ←? (if revoke then closeForRevocation else Ret (Ok tt));
  effects ←? tx (DeletePeerWithEffects id);
  _ ←? (if revoke then reconcileRevocation else Ret (Ok tt));
  Ret (Ok effects).
Definition RotateReality (newUUID : string) (id : string) (expected : Z) : prog (result Peer) :=
  old ←? tx (GetPeer id);
  if decide (expected <> old.(p_revision)) then Ret (fail ErrConflict "credential revision changed")
  else if negb old.(p_reality) then Ret (fail ErrInvalid "no Reality access")
  else
    _ ←? closeForRevocation;
    p ←? tx (PeersStore.RotateReality newUUID id expected);
    _ ←? reconcileRevocation;
    Ret (Ok p).

Definition saveSettings (dw : SaveDraws) (next : Settings) : prog (result unit) :=
  _ ←? lift (validate next);
  old ←? tx settings;
  let revoke := old.(s_reality) && negb next.(s_reality) in
  _ ←? (if revoke then closeForRevocation else Ret (Ok tt));
  _ ←? tx (SaveSettings dw next);
  if revoke then reconcileRevocation else Ret (Ok tt).
(** [PatchSettings]: the settings before and after. *)
Definition PatchSettings (dw : SaveDraws) (merge : Settings -> Settings) : prog (result (Settings * Settings)) :=
  before ←? tx settings;
  _ ←? saveSettings dw (merge before);
  Ret (Ok (before, merge before)).

(** [Pending]; both sides are compared as they are stored. *)
Definition Pending : prog (result bool) :=
  sn ←? tx Snapshot;
  w ← get;
  let m := w.(w_memory) in
  if negb m.(me_initialized) || m.(me_uncertain) || publicGuarded w then Ret (Ok true)
  else
    applied ←? lift (copy_policy m.(me_base));
    editable ←? lift (copy_policy sn);
    Ret (Ok (negb (bool_decide (applied = editable)))).
Definition networkStatus (w : World) : result unit :=
  let m := w.(w_memory) in
  if negb m.(me_initialized) then Err (ErrNetworkGuarded "no applied generation")
  else if m.(me_uncertain) || publicGuarded w then Err (ErrNetworkGuarded "retry Apply") else Ok tt.
Definition appliedSources (w : World) : list Source :=
  if w.(w_memory).(me_initialized) then Sources w.(w_memory).(me_base) else [].

(** ** The start of the daemon *)
Definition native_source (src : Source) : bool := bool_decide (src.(src_format) <> FormatPlain).
Definition recover : prog (result unit) :=
  gen ←? check (fun _ w => recoverable w.(w_authority));
  match gen with
  | None => Ret (Ok tt)
  | Some gen =>
      if bool_decide (gen.(gn_version) = 1) && existsb native_source (Sources gen.(gn_policy)) then Ret (Ok tt)
      else
        _ ← with_memory (set_applied gen.(gn_policy) (default ∅ gen.(gn_lists)));
        _ ← SetCommitted (Sources gen.(gn_policy));
        unit_result (publish gen.(gn_policy) true false)
  end.

Definition zero_memory : Memory :=
  MkMemory (MkSnapshot (MkSettings false 0 "" "" 0 0 "" "" "" 0 "" "" "" 0 0 [] 0 "") [] [] [] EmptyString []) ∅ false true 0.
(** [guardSavedPublic]: the helper of the unit, called by the daemon. *)
Definition guardSavedPublic : prog (result unit) := act (fun a w =>
  let '(r, h) := GuardSavedIngress a.(an_startup) cp mp w.(w_host) in (r, set_host h w)).
Definition initialWGSettings : prog (result Settings) :=
  gen ←? check (fun _ w => recoverable w.(w_authority));
  match gen with
  | Some gen => Ret (Ok gen.(gn_policy).(sn_settings))
  | None => tx settings
  end.
(** [startLists]: there is no manager when its cache cannot be opened. *)
Definition startLists : prog unit := act (fun a w =>
  let src := match run Snapshot w.(w_db) with (Ok sn, _) => Sources sn | (Err _, _) => [] end in
  (tt, set_lists (if a.(an_ok) then Some (SetSources src NewManager) else None) w)).
(** [run] of [main.go] up to [startApply]: the saved entrance is guarded, then
    the clients, before the interface comes up. *)
Definition start : prog (result unit) :=
  _ ← modify (fun w => set_memory zero_memory (set_locked false w));
  _ ←? guardSavedPublic;
  _ ←? guard true;
  _ ←? ctx_err;
  st ←? initialWGSettings;
  _ ←? startWG st;
  _ ← startLists;
  recover.
End gate.
