(* ===== verification/GateSpec.v ===== *)
(** * What the gate guarantees

    An invariant that holds after every action of every handler, whatever the
    environment answers, wherever the daemon dies and whenever the service
    manager restarts sing-box; and that an application without failures opens
    the guards on the state of the database. *)

From Stdlib Require Import Ascii.
From S2P Require Import Prelude GoStd Model Db Wf SettingsStore PeersStore RealityStore StoreSpec PoolFilter SingBox Generate Reality Apply ApplySpec Nft NftExpr Ingress IngressSpec Barrier Lists WgPeers Generation Admission Gate.
From S2P Require NftPolicy.
#[local] Open Scope Z_scope.
#[local] Open Scope gate_scope.

Section spec.
Context `{Unicode} `{WGKeys} `{Platform} `{PoolPolicy} `{PoolSource} `{Nft.IPSets}.
Variables (Marshal : RealityOptions -> result string) (public_of : string -> option string).
Variables (little : bool) (wan cp mp : string).
Hypotheses (Hlong : (1 < String.length mp)%nat) (Hcp : cp <> mp) (Hcl : cp <> lock_path mp) (Hca : ~ ancestor mp cp).

#[local] Abbreviation config_data := (config_data cp).
#[local] Abbreviation exec := (exec cp mp).
#[local] Abbreviation happen := (happen cp mp).
#[local] Abbreviation Turn := Turn.

(** ** Programs and turns *)
Lemma exec_bind {A B} (p : prog A) (f : A -> prog B) turns w :
  exec (bind p f) turns w =
  match exec p turns w with (Some a, turns, w) => exec (f a) turns w | (None, turns, w) => (None, turns, w) end.
Proof.
  revert turns w. induction p as [a|X op k IH]; intros turns w; [done|]. cbn [bind Gate.exec].
  destruct turns as [|[hs a] turns]; [done|]. destruct (op a _) as [x w']. apply IH.
Qed.

(** ** The states *)

(** A configuration that sing-box runs or is about to read. *)
Definition live_config (w : World) (c : string) : Prop :=
  w.(w_runtime).(rt_running) = Some c \/ w.(w_runtime).(rt_starting) = true /\ config_data w = Some c.

(** The table of [SetClientGuard], or no interface at all. *)
Definition guard_table : GuardTable := MkGuardTable HookPrerouting (-310) [client_guard_rule].
Definition guard_on (w : World) : Prop := w_tables w !! ClientGuardTable = Some guard_table.
Definition sealed (w : World) : Prop :=
  (guard_on w \/ w.(w_network).(nw_wg) = WgDown) /\ forall c, live_config w c -> shut (w_tables w) c.

(** The pool servers that the runtime refuses are dropped one by one. *)
Inductive pruned : SnapshotT -> SnapshotT -> Prop :=
  | pruned_refl sn : pruned sn sn
  | pruned_step sn id url sn' : pruned (withoutPoolServer sn id url) sn' -> pruned sn sn'.
(** The bytes were generated from the policy with these lists and users. *)
Definition compiled (sn : SnapshotT) (lists : gmap string List_) (live : Live) (config : string) : Prop :=
  exists sn' opts, pruned sn sn' /\ candidate Marshal (frozenPlainLists lists) (Some live) sn' = Ok (opts, config).

(** Every user still has the access that the configuration gives. *)
Definition still_admitted (d : db) (live : Live) : Prop := forall u, u ∈ live.(lv_runtime).(rr_users) -> admitted_user d u.

(** What sing-box may run without barriers. *)
Record serving_policy (sn : SnapshotT) (lists : gmap string List_) (live : Live) (c : string) (w : World) : Prop := {
  sv_wf : wf w.(w_db);
  sv_committed : exists bounded, w.(w_authority).(au_committed) = Some (MkGenFile true bounded (Some (MkGeneration CommittedKind 5 sn (Some lists))));
  sv_bootstrap : w.(w_authority).(au_bootstrap) = None;
  sv_wg : exists cfg, WGConfigFromSettings sn.(sn_settings) = Some cfg /\ w.(w_network).(nw_wg) = WgUp cfg;
  sv_route : w.(w_network).(nw_route) = true;
  sv_nft : exists old rs, NftPolicy.Apply little true true (nft_config wan sn lists) old = (inl rs, w.(w_network).(nw_nft)) /\ rs.(rs_skipped) = 0;
  sv_config : config_data w = Some c;
  sv_compiled : compiled sn lists live c;
  sv_admitted : still_admitted w.(w_db) live;
  sv_running : forall c', w.(w_runtime).(rt_running) = Some c' -> c' = c
}.
Definition serving (w : World) : Prop := exists sn lists live c, serving_policy sn lists live c w.

(** The manifest covers every live configuration. *)
Definition authorized (w : World) : Prop := forall c, live_config w c -> allowed mp (w_fs w) c.

Definition safe (w : World) : Prop := wf w.(w_db) /\ authorized w /\ (sealed w \/ serving w).

(** When the gate does not doubt the publication, it serves what it remembers. *)
Definition certain (w : World) : Prop :=
  w.(w_memory).(me_uncertain) = false ->
  exists live c, serving_policy w.(w_memory).(me_base) w.(w_memory).(me_contents) live c w.

(** ** What happens beside the daemon

    The other requests of the panel call the handlers of [Admission.panel]. *)
Definition proper (h : Happening) : Prop := match h with PanelWrites f => forall d, wf d -> panel d (f d) | _ => True end.
Definition proper_turns (turns : list Turn) : Prop := Forall (fun t => Forall proper t.1) turns.
Record same_rest (w w' : World) : Prop := {
  sf_temps : w'.(w_temps) = w.(w_temps);
  sf_network : w'.(w_network) = w.(w_network);
  sf_authority : w'.(w_authority) = w.(w_authority);
  sf_memory : w'.(w_memory) = w.(w_memory);
  sf_config : config_data w' = config_data w
}.
Record same_frame (w w' : World) : Prop := { sf_db : keeps_access w.(w_db) w'.(w_db); sf_rest : same_rest w w' }.
Lemma same_refl w : wf w.(w_db) -> same_frame w w.
Proof. intros Hd. split; [by apply keeps_access_refl|by split]. Qed.
Lemma same_trans a b c : same_frame a b -> same_frame b c -> same_frame a c.
Proof. intros [? []] [? []]. split; [by eapply keeps_access_trans|split; congruence]. Qed.

Lemma exec_start_pre_effect a w r w' : exec_start_pre cp mp a w = (r, w') ->
  startup_effect cp mp w.(w_host) w'.(w_host) r /\ same_rest w w' /\ w'.(w_db) = w.(w_db) /\ w'.(w_runtime) = MkRuntimeState None (is_ok r).
Proof.
  unfold exec_start_pre. destruct (Startup a cp mp _) as [r0 h] eqn:Hs. intros [= <- <-].
  pose proof (Startup_effect cp mp Hlong a _ _ _ Hcp Hcl Hs) as He. split; [done|]. split; [|done].
  split; try done. unfold Gate.config_data, w_fs. cbn [set_runtime set_host w_host]. by rewrite (se_files _ _ _ _ _ He).
Qed.

Lemma happen_locked w h : (happen w h).(w_locked) = w.(w_locked).
Proof.
  destruct h as [|a| |e|f]; cbn [Gate.happen]; [done| |unfold exec_start; by destruct (rt_starting _)|done..].
  destruct (w_locked w) eqn:Hl; [done|]. unfold exec_start_pre. by destruct (Startup _ _ _ _).
Qed.
Lemma happen_rest w h : same_rest w (happen w h).
Proof.
  destruct h as [|a| |e|f]; cbn [Gate.happen]; [by split| |unfold exec_start; destruct (rt_starting _); by split|by split..].
  destruct (w_locked w); [by split|]. destruct (exec_start_pre cp mp a w) as [r w'] eqn:E. cbn [snd].
  by apply exec_start_pre_effect in E as (_ & ? & _).
Qed.
Lemma happen_same w h : wf w.(w_db) -> proper h -> same_frame w (happen w h).
Proof.
  intros Hd Hp. split; [|apply happen_rest]. pose proof (keeps_access_refl _ Hd) as Hk.
  destruct h as [|a| |e|f]; cbn [Gate.happen]; [done| |unfold exec_start; by destruct (rt_starting _)|done|by apply panel_keeps, Hp].
  destruct (w_locked w); [done|]. destruct (exec_start_pre cp mp a w) as [r w'] eqn:E. cbn [snd].
  apply exec_start_pre_effect in E as (_ & _ & -> & _). done.
Qed.

(** Either the helper ran, or the barriers are as they were and nothing new is
    live. *)
Lemma happen_cases w h : let w' := happen w h in
  (w'.(w_host) = w.(w_host) /\ (forall c, live_config w' c -> live_config w c)) \/
  (w.(w_locked) = false /\ exists r, startup_effect cp mp w.(w_host) w'.(w_host) r /\ w'.(w_runtime) = MkRuntimeState None (is_ok r)).
Proof.
  pose proof (happen_rest w h) as Hs. destruct h as [|a| |e|f]; cbn [Gate.happen] in *.
  - left. split; [done|]. by intros c [|[? _]].
  - destruct (w_locked w) eqn:Hl; [by left|]. right. split; [done|]. destruct (exec_start_pre cp mp a w) as [r w'] eqn:E. cbn [snd].
    apply exec_start_pre_effect in E as (? & _ & _ & ?). by exists r.
  - left. unfold exec_start. destruct (rt_starting (w_runtime w)) eqn:E; [|done]. split; [done|].
    intros c [Hc|[Hf _]]; [|done]. right. done.
  - by left.
  - by left.
Qed.

Lemma allowed_effect h h' r c : startup_effect cp mp h h' r -> allowed mp h.(ho_fs) c -> allowed mp h'.(ho_fs) c.
Proof.
  intros He (es & Hes & Hor). exists es. split; [done|]. destruct Hor as [|(m & Hm & Hc)]; [by left|]. right.
  destruct (se_manifest _ _ _ _ _ He) as [HR|(m0 & Hm0 & HR)].
  - exists m. by rewrite HR.
  - rewrite Hm in Hm0. injection Hm0 as <-. by exists (guarded m).
Qed.

Lemma happen_live_effect w h r : let w' := happen w h in
  startup_effect cp mp w.(w_host) w'.(w_host) r -> w'.(w_runtime) = MkRuntimeState None (is_ok r) ->
  forall c, live_config w' c -> r = Ok tt /\ config_data w = Some c.
Proof.
  intros w' He Hr c Hc. unfold live_config in Hc. rewrite Hr in Hc. cbn [rt_running rt_starting] in Hc. destruct Hc as [|[Hok Hc]]; [done|].
  subst w'. rewrite (sf_config _ _ (happen_rest w h)) in Hc. split; [|done]. by destruct r as [[]|].
Qed.

Lemma guard_on_effect h h' r t : startup_effect cp mp h h' r -> h.(ho_tables) !! ClientGuardTable = t -> h'.(ho_tables) !! ClientGuardTable = t.
Proof.
  intros He <-. destruct (se_tables _ _ _ _ _ He) as [->|(a & m & _ & Hs)]; [done|]. by apply (SetPublicClientGuard_other _ _ _ _ _ _ Hs).
Qed.

Lemma authorized_happen w h : authorized w -> authorized (happen w h).
Proof.
  intros Ha c Hc. destruct (happen_cases w h) as [[Hh Hl]|(_ & r & He & Hr)].
  - unfold w_fs. rewrite Hh. by apply Ha, Hl.
  - destruct (happen_live_effect w h r He Hr c Hc) as [Hok Hd]. eapply allowed_effect; [exact He|].
    by destruct (se_ok _ _ _ _ _ He Hok c Hd).
Qed.
Lemma guard_on_happen w h : guard_on w -> guard_on (happen w h).
Proof.
  intros Hg. destruct (happen_cases w h) as [[Hh _]|(_ & r & He & _)]; unfold guard_on, w_tables in *; [by rewrite Hh|by eapply guard_on_effect].
Qed.
Lemma live_shut_happen w h : (forall c, live_config w c -> shut (w_tables w) c) ->
  forall c, live_config (happen w h) c -> shut (w_tables (happen w h)) c.
Proof.
  intros Hs c Hc. destruct (happen_cases w h) as [[Hh Hl]|(_ & r & He & Hr)].
  - unfold w_tables. rewrite Hh. by apply Hs, Hl.
  - destruct (happen_live_effect w h r He Hr c Hc) as [Hok Hd]. by destruct (se_ok _ _ _ _ _ He Hok c Hd).
Qed.
Lemma sealed_happen w h : sealed w -> sealed (happen w h).
Proof.
  intros [Hg Hs]. split; [|by apply live_shut_happen]. rewrite (sf_network _ _ (happen_rest w h)).
  destruct Hg as [Hg|]; [left; by apply guard_on_happen|by right].
Qed.

Definition runs_disk (w : World) : Prop := forall c, w.(w_runtime).(rt_running) = Some c -> config_data w = Some c.
Lemma runs_disk_happen w h : runs_disk w -> runs_disk (happen w h).
Proof.
  intros Hr c. unfold runs_disk in *. rewrite (sf_config _ _ (happen_rest w h)).
  destruct h as [|a| |e|f]; cbn [Gate.happen]; [done| | |apply Hr..].
  - destruct (w_locked w); [apply Hr|]. destruct (exec_start_pre cp mp a w) as [r w'] eqn:E. cbn [snd].
    apply exec_start_pre_effect in E as (_ & _ & _ & ->). done.
  - unfold exec_start. destruct (rt_starting (w_runtime w)); [done|apply Hr].
Qed.

(** The service can only be restarted on its file. *)
Lemma serving_policy_frame sn lists live c w w' : same_frame w w' -> runs_disk w' ->
  serving_policy sn lists live c w -> serving_policy sn lists live c w'.
Proof.
  intros [Hd [Ht Hn Ha Hm Hc]] Hr [H0' H1' H2' H3' H4' H5' H6' H7' H8' H9'].
  split; rewrite ?Hn, ?Ha, ?Hc; try done; [apply Hd| |].
  - intros u Hu. by apply (ku_users _ _ (keeps_access_users _ _ Hd)), H8'.
  - intros c' Hc'. apply Hr in Hc'. rewrite Hc, H6' in Hc'. by injection Hc' as <-.
Qed.
Lemma serving_runs_disk sn lists live c w : serving_policy sn lists live c w -> runs_disk w.
Proof. intros Hs c' Hc'. rewrite (sv_config _ _ _ _ _ Hs). f_equal. symmetry. by apply (sv_running _ _ _ _ _ Hs). Qed.
Lemma serving_policy_happen sn lists live c w h : proper h -> serving_policy sn lists live c w -> serving_policy sn lists live c (happen w h).
Proof.
  intros Hp Hs. eapply serving_policy_frame; [apply happen_same; [apply Hs|done]| |exact Hs]. by apply runs_disk_happen, (serving_runs_disk _ _ _ _ _ Hs).
Qed.
Lemma safe_happen w h : proper h -> safe w -> safe (happen w h).
Proof.
  intros Hp [Hd [Ha Hor]]. split; [apply (happen_same w h Hd Hp)|]. split; [by apply authorized_happen|]. destruct Hor as [|(sn & lists & live & c & Hs)]; [left; by apply sealed_happen|].
  right. exists sn, lists, live, c. by apply serving_policy_happen.
Qed.
Lemma certain_happen w h : proper h -> certain w -> certain (happen w h).
Proof.
  intros Hp Hc. unfold certain. rewrite (sf_memory _ _ (happen_rest w h)). intros (live & c & Hs)%Hc. exists live, c. by apply serving_policy_happen.
Qed.

(** ** The stage: what [stagePublic] leaves *)
Record staged (E : list Endpoint) (w : World) : Prop := {
  sg_list : barrier_list E;
  sg_manifest : exists m, Ingress.Read (w_fs w) mp = Ok m /\ m.(mf_endpoints) = E;
  sg_barrier : forall c es, ConfigEndpoints c = Ok es -> covered_by es E -> shut (w_tables w) c;
  sg_live : forall c, live_config w c -> exists es, ConfigEndpoints c = Ok es /\ covered_by es E
}.
Lemma staged_happen E w h : staged E w -> staged E (happen w h).
Proof.
  intros [Hl (m & Hm & HE) Hb Hv]. destruct (happen_cases w h) as [[Hh Hlive]|(_ & r & He & Hr)].
  - split; unfold w_fs, w_tables in *; rewrite ?Hh; [done|by exists m|done|]. intros c Hc. by apply Hv, Hlive.
  - split; [done| | |].
    + unfold w_fs in *. destruct (se_manifest _ _ _ _ _ He) as [HR|(m0 & Hm0 & HR)]; [exists m; by rewrite HR|].
      rewrite Hm in Hm0. injection Hm0 as <-. by exists (guarded m).
    + intros c es Hes Hc. unfold w_tables in *. destruct (se_tables _ _ _ _ _ He) as [->|(a & m0 & Hm0 & Hs)]; [by eapply Hb|].
      unfold w_fs in Hm. rewrite Hm in Hm0. injection Hm0 as <-. rewrite HE in Hs. by eapply cover_shuts.
    + intros c Hc. destruct (happen_live_effect w h r He Hr c Hc) as [Hok Hd].
      destruct (se_ok _ _ _ _ _ He Hok c Hd) as [(es & Hes & Hor) _]. exists es. split; [done|].
      destruct Hor as [->|(m0 & Hm0 & Hcov)]; [by intros e ?%elem_of_nil|]. unfold w_fs in Hm. rewrite Hm in Hm0. injection Hm0 as <-. by rewrite <- HE.
Qed.
Lemma staged_authorized E w : staged E w -> authorized w.
Proof.
  intros [_ (m & Hm & HE) _ Hv] c (es & Hes & Hc)%Hv. exists es. split; [done|]. right. exists m. by rewrite HE.
Qed.
Lemma staged_shut E w : staged E w -> forall c, live_config w c -> shut (w_tables w) c.
Proof. intros [_ _ Hb Hv] c (es & Hes & Hc)%Hv. by eapply Hb. Qed.
Lemma staged_safe E w : wf w.(w_db) -> staged E w -> guard_on w -> safe w.
Proof. intros Hd Hs Hg. split; [done|]. split; [by eapply staged_authorized|]. left. split; [by left|by eapply staged_shut]. Qed.

(** ** Rules for programs

    An assertion holds before an action whatever happened since; if the daemon
    dies the state is safe. *)
Definition stable (P : World -> Prop) : Prop := forall w h, proper h -> P w -> P (happen w h).
Definition framed (F : World -> Prop) : Prop := forall w w', same_frame w w' -> F w -> F w'.
Definition triple {A} (P : World -> Prop) (p : prog A) (Q : A -> World -> Prop) : Prop :=
  forall turns w, proper_turns turns -> P w ->
  match exec p turns w with (Some a, turns', w') => proper_turns turns' /\ Q a w' | (None, _, w') => safe w' end.

Lemma happenings P w hs : stable P -> Forall proper hs -> P w -> P (foldl happen w hs).
Proof. intros Hs Hp. revert w. induction Hp as [|h hs Hh _ IH]; intros w Hw; [done|]. cbn. by apply IH, Hs. Qed.

Lemma triple_ret {A} (P : World -> Prop) (a : A) (Q : A -> World -> Prop) : (forall w, P w -> Q a w) -> triple P (Ret a) Q.
Proof. intros HQ turns w Hp Hw. split; [done|by apply HQ]. Qed.
Lemma triple_act {X} (P : World -> Prop) (op : Answer -> World -> X * World) (Q : X -> World -> Prop) :
  stable P -> (forall w, P w -> safe w) -> (forall a w, P w -> Q (op a w).1 (op a w).2) -> triple P (act op) Q.
Proof.
  intros Hs Hsafe HQ [|[hs a] turns] w Hp Hw; cbn [Gate.act Gate.exec]; [by apply Hsafe|]. apply Forall_cons in Hp as [Hhs Hp].
  destruct (op a (foldl happen w hs)) as [x w'] eqn:E. pose proof (HQ a _ (happenings P w hs Hs Hhs Hw)) as Hq. by rewrite E in Hq.
Qed.
Lemma triple_bind {A B} (P : World -> Prop) (p : prog A) (f : A -> prog B) R Q :
  triple P p R -> (forall a, triple (R a) (f a) Q) -> triple P (bind p f) Q.
Proof.
  intros Hp Hf turns w Ht Hw. rewrite exec_bind. pose proof (Hp turns w Ht Hw) as H1'. destruct (exec p turns w) as [[[a|] turns'] w'].
  - destruct H1'. by apply Hf.
  - done.
Qed.
Lemma triple_attempt {A B} (P : World -> Prop) (p : prog (result A)) (ok : A -> prog B) (err : error -> prog B) R S Q :
  triple P p (fun r w => match r with Ok a => R a w | Err e => S e w end) ->
  (forall a, triple (R a) (ok a) Q) -> (forall e, triple (S e) (err e) Q) -> triple P (attempt p ok err) Q.
Proof. intros Hp Hok Herr. eapply triple_bind; [exact Hp|]. intros [a|e]; [apply Hok|apply Herr]. Qed.
Lemma triple_weaken {A} (P P' : World -> Prop) (p : prog A) (Q Q' : A -> World -> Prop) :
  triple P p Q -> (forall w, P' w -> P w) -> (forall a w, Q a w -> Q' a w) -> triple P' p Q'.
Proof.
  intros Hp Hpre Hpost turns w Ht Hw. pose proof (Hp turns w Ht (Hpre w Hw)) as H1'.
  destruct (exec p turns w) as [[[a|] turns'] w']; [|done]. destruct H1' as [? Hq]. split; [done|by apply Hpost].
Qed.
Lemma triple_pure {A} (P : World -> Prop) (p : prog A) (Q : A -> World -> Prop) (phi : Prop) :
  (forall w, P w -> phi) -> (phi -> triple P p Q) -> triple P p Q.
Proof. intros Hphi Hp turns w Ht Hw. by apply (Hp (Hphi w Hw)). Qed.

(** Between two operations the gate is ready; [F] is what a program knows. *)
Record ready (F : World -> Prop) (w : World) : Prop := {
  rd_safe : safe w; rd_certain : certain w; rd_unlocked : w.(w_locked) = false; rd_facts : F w }.
Lemma ready_stable F : framed F -> stable (ready F).
Proof.
  intros HF w h Hp [Hs Hc Hl Hf]. pose proof (happen_same w h (proj1 Hs) Hp) as Hsame.
  split; [by apply safe_happen|by apply certain_happen|by rewrite happen_locked|by eapply HF].
Qed.
Lemma ready_weaken F F' w : (F w -> F' w) -> ready F w -> ready F' w.
Proof. intros HF [? ? ? ?]. split; auto. Qed.

(** An action that the barriers, the service and the network do not notice. *)
Record calm (w w' : World) : Prop := {
  cl_db : w'.(w_db) = w.(w_db); cl_host : w'.(w_host) = w.(w_host); cl_runtime : w'.(w_runtime) = w.(w_runtime);
  cl_network : w'.(w_network) = w.(w_network); cl_authority : w'.(w_authority) = w.(w_authority);
  cl_memory : w'.(w_memory).(me_uncertain) = true \/
    w'.(w_memory).(me_base) = w.(w_memory).(me_base) /\ w'.(w_memory).(me_contents) = w.(w_memory).(me_contents) /\
    w'.(w_memory).(me_uncertain) = w.(w_memory).(me_uncertain)
}.
Lemma calm_refl w : calm w w.
Proof. split; try done. by right. Qed.
Lemma calm_config w w' : calm w w' -> config_data w' = config_data w.
Proof. intros Hc. unfold Gate.config_data, w_fs. by rewrite (cl_host _ _ Hc). Qed.
Lemma calm_live w w' c : calm w w' -> live_config w' c -> live_config w c.
Proof. intros Hc. unfold live_config. by rewrite (calm_config _ _ Hc), (cl_runtime _ _ Hc). Qed.
Lemma calm_serving sn lists live c w w' : calm w w' -> serving_policy sn lists live c w -> serving_policy sn lists live c w'.
Proof.
  intros Hc [H0' H1' H2' H3' H4' H5' H6' H7' H8' H9'].
  split; rewrite ?(calm_config _ _ Hc), ?(cl_db _ _ Hc), ?(cl_network _ _ Hc), ?(cl_authority _ _ Hc), ?(cl_runtime _ _ Hc); done.
Qed.
Lemma calm_safe w w' : calm w w' -> safe w -> safe w'.
Proof.
  intros Hc [Hd [Ha Hor]]. split; [by rewrite (cl_db _ _ Hc)|]. split.
  - intros c Hl%(calm_live _ _ _ Hc). unfold w_fs. rewrite (cl_host _ _ Hc). by apply Ha.
  - destruct Hor as [[Hg Hs]|(sn & lists & live & c & Hs)].
    + left. unfold sealed, guard_on, w_tables. rewrite (cl_host _ _ Hc), (cl_network _ _ Hc). split; [done|].
      intros c Hl%(calm_live _ _ _ Hc). by apply Hs.
    + right. exists sn, lists, live, c. by eapply calm_serving.
Qed.
Lemma calm_certain w w' : calm w w' -> certain w -> certain w'.
Proof.
  intros Hc Hce Hu. destruct (cl_memory _ _ Hc) as [Ht|(Hb & Hco & Hun)]; [by rewrite Ht in Hu|].
  rewrite Hun in Hu. destruct (Hce Hu) as (live & c & Hs). exists live, c. rewrite Hb, Hco. by eapply calm_serving.
Qed.
Lemma calm_locked b w : calm w (set_locked b w).
Proof. split; try done. by right. Qed.
Lemma calm_ready F w w' : calm w w' -> w'.(w_locked) = w.(w_locked) -> ready F w -> ready (fun _ => True) w'.
Proof.
  intros Hc Hlk [Hs Hce Hl _]. split; [by eapply calm_safe|by eapply calm_certain|by rewrite Hlk|done].
Qed.

Lemma ready_calm {X} (F : World -> Prop) (op : Answer -> World -> X * World) (G : X -> World -> Prop) :
  framed F -> (forall a w, calm w (op a w).2 /\ (op a w).2.(w_locked) = w.(w_locked)) -> (forall a w, ready F w -> G (op a w).1 (op a w).2) ->
  triple (ready F) (act op) (fun x => ready (G x)).
Proof.
  intros HF Hc HG. apply triple_act; [by apply ready_stable|by intros w []|]. intros a w Hw.
  destruct (Hc a w) as [Hcalm Hlk]. destruct (calm_ready _ _ _ Hcalm Hlk Hw) as [? ? ? _]. split; try done. by apply HG.
Qed.
Lemma ready_check {A} (F : World -> Prop) (f : Answer -> World -> result A) (G : result A -> World -> Prop) :
  framed F -> (forall a w, ready F w -> G (f a w) w) -> triple (ready F) (check f) (fun r => ready (G r)).
Proof. intros HF HG. apply ready_calm; [done|intros; split; [apply calm_refl|done]|]. intros a w. apply HG. Qed.
Lemma ready_get (F : World -> Prop) : framed F -> triple (ready F) get (fun x => ready (fun w => F w /\ same_frame x w /\ ready F x)).
Proof. intros HF. apply ready_calm; [done|intros; split; [apply calm_refl|done]|]. intros a w Hw. cbn. split; [by destruct Hw|]. split; [apply same_refl, (rd_safe _ _ Hw)|done]. Qed.

(** ** Changes of the host *)
Lemma set_host_frame w h : wf w.(w_db) -> nd_data <$> h.(ho_fs).(fs_nodes) !! cp = config_data w -> same_frame w (set_host h w).
Proof. intros Hd Hc. split; [by apply keeps_access_refl|by split]. Qed.
Lemma host_safe w h : nd_data <$> h.(ho_fs).(fs_nodes) !! cp = config_data w ->
  (forall c, live_config w c -> allowed mp (w_fs w) c -> allowed mp h.(ho_fs) c) ->
  (w_tables w !! ClientGuardTable = Some guard_table -> h.(ho_tables) !! ClientGuardTable = Some guard_table) ->
  (forall c, live_config w c -> shut (w_tables w) c -> shut h.(ho_tables) c) ->
  safe w -> safe (set_host h w).
Proof.
  intros Hc Ha Hg Hs [Hd [Hauth Hor]]. pose proof (set_host_frame w h Hd Hc) as Hf.
  assert (Hl : forall c, live_config (set_host h w) c -> live_config w c) by (intros c; unfold live_config; by rewrite (sf_config _ _ (sf_rest _ _ Hf))).
  split; [done|]. split; [intros c Hlc%Hl; apply Ha; [done|by apply Hauth]|]. destruct Hor as [[Hgo Hsh]|(sn & lists & live & c & Hsv)].
  - left. split; [destruct Hgo as [Hgo|]; [left; by apply Hg|by right]|]. intros c Hlc%Hl. apply Hs; [done|by apply Hsh].
  - right. exists sn, lists, live, c. eapply serving_policy_frame; [exact Hf| |exact Hsv]. apply (serving_runs_disk _ _ _ _ _) in Hsv.
    intros c' Hc'. rewrite (sf_config _ _ (sf_rest _ _ Hf)). by apply Hsv.
Qed.
Lemma host_certain w h : nd_data <$> h.(ho_fs).(fs_nodes) !! cp = config_data w -> certain w -> certain (set_host h w).
Proof.
  intros Hc Hce Hu. destruct (Hce Hu) as (live & c & Hs). exists live, c. pose proof (set_host_frame w h (sv_wf _ _ _ _ _ Hs) Hc) as Hf.
  eapply serving_policy_frame; [exact Hf| |exact Hs].
  apply (serving_runs_disk _ _ _ _ _) in Hs. intros c' Hc'. rewrite (sf_config _ _ (sf_rest _ _ Hf)). by apply Hs.
Qed.

Lemma tables_ne : PublicClientGuardTable <> ClientGuardTable.
Proof. done. Qed.
Lemma SetClientGuard_effect a on T r T' : SetClientGuard a on T = (r, T') ->
  (r <> Ok tt -> T' = T) /\ (r = Ok tt -> on = true -> T' !! ClientGuardTable = Some guard_table) /\
  (on = true -> T !! ClientGuardTable = Some guard_table -> T' !! ClientGuardTable = Some guard_table) /\
  T' !! PublicClientGuardTable = T !! PublicClientGuardTable.
Proof.
  unfold SetClientGuard, replace_table. destruct (negb _); [by intros [= <- <-]|]. destruct (negb _); [by intros [= <- <-]|]. destruct (negb _); [by intros [= <- <-]|].
  intros [= <- <-]. split; [done|]. destruct on.
  - split; [intros _ _; apply lookup_insert_eq|]. split; [intros _ _; apply lookup_insert_eq|]. by rewrite lookup_insert_ne by (intros E; by apply tables_ne).
  - split; [done|]. split; [done|]. by rewrite lookup_delete_ne by (intros E; by apply tables_ne).
Qed.

(** Closing the clients' guard never hurts. *)
Lemma guard_true_safe w a r T' : SetClientGuard a true (w_tables w) = (r, T') -> safe w -> safe (set_tables T' w).
Proof.
  intros (_ & _ & Hkeep & Hpub)%SetClientGuard_effect. apply host_safe; [done|done|by apply Hkeep|].
  intros c _. by apply shut_same.
Qed.
Lemma ready_guard F : framed F -> triple (ready F) (guard true) (fun r w => ready F w /\ (r = Ok tt -> guard_on w)).
Proof.
  intros HF. apply triple_act; [by apply ready_stable|by intros w []|]. intros a w [Hs Hc Hl Hf]. unfold guard.
  destruct (SetClientGuard _ _ _) as [r T'] eqn:E. cbn [fst snd]. split.
  - split; [by eapply guard_true_safe|by apply host_certain|done|]. eapply HF; [|exact Hf]. apply set_host_frame; [apply Hs|done].
  - intros ->. apply SetClientGuard_effect in E as (_ & Hon & _). by apply Hon.
Qed.

(** While the lock is held, the helper waits: the files and the barriers are
    what the program found. *)
Definition lframed (F : World -> Prop) : Prop := forall w w', same_frame w w' -> w'.(w_host) = w.(w_host) -> F w -> F w'.
Record held (F : World -> Prop) (w : World) : Prop := {
  hd_safe : safe w; hd_certain : certain w; hd_locked : w.(w_locked) = true; hd_facts : F w }.
Lemma framed_lframed F : framed F -> lframed F.
Proof. intros HF w w' Hs _. by apply HF. Qed.
Lemma lframed_and F G : lframed F -> lframed G -> lframed (fun w => F w /\ G w).
Proof. intros HF HG w w' Hs Hh [? ?]. split; [by eapply HF|by eapply HG]. Qed.
Lemma held_stable F : lframed F -> stable (held F).
Proof.
  intros HF w h Hp [Hs Hc Hl Hf]. pose proof (happen_same w h (proj1 Hs) Hp) as Hsame.
  split; [by apply safe_happen|by apply certain_happen|by rewrite happen_locked|].
  destruct (happen_cases w h) as [[Hh _]|[Hno _]]; [by eapply HF|]. by rewrite Hno in Hl.
Qed.
Lemma held_check {A} (F : World -> Prop) (f : Answer -> World -> result A) (G : result A -> World -> Prop) :
  lframed F -> (forall a w, F w -> G (f a w) w) -> triple (held F) (check f) (fun r => held (fun w => F w /\ G r w)).
Proof.
  intros HF HG. apply triple_act; [by apply held_stable|by intros w []|]. intros a w [? ? ? Hf]. split; try done. cbn. split; [done|by apply HG].
Qed.
Lemma triple_lift {A B} (P : World -> Prop) (r : result A) (ok : A -> prog B) (err : error -> prog B) Q :
  (forall a, r = Ok a -> triple P (ok a) Q) -> (forall e, r = Err e -> triple P (err e) Q) -> triple P (attempt (lift r) ok err) Q.
Proof.
  intros Hok Herr. eapply triple_attempt; [apply (triple_ret _ _ (fun r' w => match r' with Ok a => r = Ok a /\ P w | Err e => r = Err e /\ P w end)); by destruct r| |].
  - intros a turns w Ht [E Hw]. by apply (Hok a E turns w).
  - intros e turns w Ht [E Hw]. by apply (Herr e E turns w).
Qed.

Lemma lock_triple F : framed F ->
  triple (ready F) (lock mp) (fun r w => match r with Ok _ => held F w | Err _ => ready F w end).
Proof.
  intros HF. apply triple_act; [by apply ready_stable|by intros w []|]. intros a w [Hs Hc Hl Hf]. unfold lock.
  destruct (WithLock _ _ _) as [r fs'] eqn:E. cbn [fst snd]. destruct (WithLock_files _ Hlong _ _ _ _ E) as (He & Hn & Ha).
  assert (Hcfg : nd_data <$> fs_nodes fs' !! cp = config_data w) by (unfold Gate.config_data; by rewrite Hn).
  assert (Hsafe : safe (set_fs fs' w)).
  { apply host_safe; cbn [ho_fs ho_tables]; try done. intros c _ (es & Hes & Hor). exists es. split; [done|]. by rewrite (Read_agree _ _ _ Ha). }
  assert (Hcert : certain (set_fs fs' w)) by (by apply host_certain).
  assert (Hframe : same_frame w (set_locked (is_ok r) (set_fs fs' w))) by (split; [apply keeps_access_refl, Hs|by split]).
  assert (HFw : F (set_locked (is_ok r) (set_fs fs' w))) by (by eapply HF).
  assert (Hcalm : safe (set_locked (is_ok r) (set_fs fs' w)) /\ certain (set_locked (is_ok r) (set_fs fs' w))).
  { split; [eapply calm_safe; [apply calm_locked|done]|eapply calm_certain; [apply calm_locked|done]]. }
  destruct Hcalm. destruct r as [[]|e]; by split.
Qed.
Lemma unlock_triple (P : World -> Prop) : stable P -> (forall w, P w -> safe w /\ certain w) ->
  triple P unlock (fun _ w => safe w /\ certain w /\ w.(w_locked) = false /\ exists w0, P w0 /\ w = set_locked false w0).
Proof.
  intros HP Hs. apply triple_act; [done|intros w Hw; by apply Hs|]. intros a w Hw. cbn. destruct (Hs w Hw) as [Hsafe Hcert].
  split_and!; [eapply calm_safe; [apply calm_locked|done]|eapply calm_certain; [apply calm_locked|done]|done|]. by exists w.
Qed.
(** An operation under the lock; what it established about the barriers stays
    when the lock is released. *)
Lemma with_lock_triple {A} F (G : result A -> World -> Prop) (operation : prog (result A)) : framed F ->
  (forall r, stable (G r)) -> (forall r w, G r w -> G r (set_locked false w)) -> (forall e w, ready F w -> G (Err e) w) ->
  triple (held F) operation (fun r w => held F w /\ G r w) ->
  triple (ready F) (with_lock mp operation) (fun r w => ready F w /\ G r w).
Proof.
  intros HF HG Hun Herr Hop. unfold with_lock. eapply (triple_attempt _ _ _ _ (fun _ => held F) (fun _ => ready F)).
  - by apply lock_triple.
  - intros _. eapply triple_bind; [exact Hop|]. intros r. eapply triple_bind.
    + apply unlock_triple; [|by intros w [[? ? _ _] _]]. intros w h Hp [Hh Hg]. split; [by apply (held_stable F); [apply framed_lframed|..]|by apply HG].
    + intros u. apply triple_ret. intros w (Hs & Hc & Hl & w0 & [[_ _ _ Hf] Hg] & Ew). subst w. split; [|by apply Hun].
      split; try done. eapply HF; [|exact Hf]. split; [apply keeps_access_refl, Hs|by split].
  - intros e. apply triple_ret. intros w Hw. split; [done|by apply Herr].
Qed.

(** ** Staging *)
Definition manifest_at (E : list Endpoint) (w : World) : Prop := exists m, Ingress.Read (w_fs w) mp = Ok m /\ m.(mf_endpoints) = E.
Definition staged_for (candidate : string) (w : World) : Prop :=
  exists E es, staged E w /\ ConfigEndpoints candidate = Ok es /\ covered_by es E.

Lemma probe_ports_triple F current l : lframed F -> triple (held F) (probe_ports current l) (fun _ => held F).
Proof.
  intros HF. induction l as [|e l IH]; [by apply triple_ret|]. cbn [probe_ports]. destruct (decide _); [done|].
  eapply (triple_attempt _ _ _ _ (fun _ => held F) (fun _ => held F)).
  - eapply triple_weaken; [by apply (held_check F _ (fun _ _ => True))|done|]. intros [[]|e'] w [? ? ? []]; by split.
  - intros _. apply IH.
  - intros e'. by apply triple_ret.
Qed.

Lemma held_write F F0 next E : lframed F -> framed F0 -> barrier_list E -> next.(mf_endpoints) = E ->
  (forall w, F w -> F0 w /\ forall m, Ingress.Read (w_fs w) mp = Ok m -> m.(mf_endpoints) ⊆ E) ->
  triple (held F) (write_manifest mp next) (fun r => held (fun w => F0 w /\ (r = Ok tt -> manifest_at E w))).
Proof.
  intros HF HF0 HE Hn Hread. apply triple_act; [by apply held_stable|by intros w []|]. intros a w [Hs Hc Hl Hf].
  destruct (Ingress.Write _ _ mp next) as [r fs'] eqn:Hw. cbn [fst snd].
  assert (Hp : Forall port_ok next.(mf_endpoints)) by (rewrite Hn; apply HE).
  destruct (Write_effect _ _ _ _ _ _ Hp Hw) as [Hother Hor]. destruct (Hread w Hf) as [Hf0 Hsub].
  assert (Hat : fs' = w_fs w /\ r <> Ok tt \/ exists m', Ingress.Read fs' mp = Ok m' /\ m'.(mf_endpoints) = E).
  { destruct Hor as [|(m' & Hm' & HR)]; [by left|]. right. exists m'. split; [done|]. destruct (normalizeManifest_Ok _ _ Hm') as (_ & He & _).
    rewrite Hn, (bl_normal _ HE) in He. by injection He. }
  assert (Hcfg : nd_data <$> fs_nodes fs' !! cp = config_data w) by (unfold Gate.config_data; by rewrite Hother).
  assert (Hframe : same_frame w (set_fs fs' w)) by (apply set_host_frame; [apply Hs|done]).
  split; [|by apply host_certain|done|].
  - apply host_safe; cbn [ho_fs ho_tables]; try done. intros c _ (es & Hes & Ho). exists es. split; [done|]. destruct Ho as [|(m & Hm & Hcov)]; [by left|].
    right. destruct Hat as [[-> _]|(m' & Hm' & He)]; [by exists m|]. exists m'. split; [done|]. rewrite He. eapply covered_mono; [|exact Hcov]. by apply Hsub.
  - split; [by eapply HF0|]. intros ->. destruct Hat as [[_ ?]|]; done.
Qed.

Lemma held_public_on F0 E : framed F0 -> barrier_list E ->
  triple (held (fun w => F0 w /\ manifest_at E w)) (publicGuard E true) (fun r w => held F0 w /\ (r = Ok tt -> staged E w)).
Proof.
  intros HF0 HE. assert (HL : lframed (fun w => F0 w /\ manifest_at E w)).
  { apply lframed_and; [by apply framed_lframed|]. intros w w' _ Hh. unfold manifest_at, w_fs. by rewrite Hh. }
  apply triple_act; [by apply held_stable|by intros w []|]. intros a w [Hs Hc Hl [Hf Hm]].
  destruct (SetPublicClientGuard _ _ _ _) as [r T'] eqn:Hg. cbn [fst snd].
  destruct (SetPublicClientGuard_other _ _ _ _ _ _ Hg) as [Hfail Hother].
  assert (Hframe : same_frame w (set_tables T' w)) by (apply set_host_frame; [apply Hs|done]).
  assert (Hlive : forall c, live_config w c -> exists es, ConfigEndpoints c = Ok es /\ covered_by es E).
  { intros c Hlc. destruct Hs as [_ [Ha _]]. destruct (Ha c Hlc) as (es & Hes & Hor). exists es. split; [done|]. destruct Hor as [->|(m & Hrd & Hcov)]; [by intros e ?%elem_of_nil|].
    destruct Hm as (m' & Hm' & <-). rewrite Hrd in Hm'. injection Hm' as <-. done. }
  split.
  - split; [|by apply host_certain|done|by eapply HF0]. apply host_safe; cbn [ho_fs ho_tables]; try done; [by rewrite Hother by (intros E'; by apply tables_ne)|].
    intros c Hlc Hsh. destruct r as [[]|e]; [|by rewrite Hfail]. destruct (Hlive c Hlc) as (es & Hes & Hcov). by eapply cover_shuts.
  - intros ->. split; try done.
    + intros c es Hes Hcov. by eapply cover_shuts.
Qed.

Lemma staged_unlock E w : staged E w -> staged E (set_locked false w).
Proof. by intros []; split. Qed.

Lemma stage_triple F cand : framed F ->
  triple (ready F) (stagePublic cp mp cand) (fun r w => ready F w /\ (r = Ok tt -> staged_for cand w)).
Proof.
  intros HF. pose proof (framed_lframed _ HF) as HL. unfold stagePublic. apply (with_lock_triple F (fun r w => r = Ok tt -> staged_for cand w)); [done| | |done|].
  { intros r w h _ HG Hr. destruct (HG Hr) as (E & es & Hst & Hes & Hcov). exists E, es. split; [by apply staged_happen|done]. }
  { intros r w HG Hr. destruct (HG Hr) as (E & es & Hst & Hes & Hcov). exists E, es. split; [by apply staged_unlock|done]. }
  assert (Hquit : forall (G : World -> Prop) e, (forall w, G w -> F w) -> triple (held G) (Ret (@Err unit e)) (fun r w => held F w /\ (r = Ok tt -> staged_for cand w))).
  { intros G e HG. apply triple_ret. intros w [? ? ? ?]. split; [|done]. split; auto. }
  set (known := fun (r : result Manifest) w => F w /\ Ingress.Read (w_fs w) mp = r).
  assert (Hknown : forall r, lframed (known r)).
  { intros r. apply lframed_and; [done|]. intros w w' _ Hh. unfold w_fs. by rewrite Hh. }
  eapply (triple_bind _ _ _ (fun r => held (known r))); [apply (held_check F _ (fun r w => Ingress.Read (w_fs w) mp = r)); [done|by intros]|].
  intros rm. apply triple_lift; [|intros e _; apply Hquit; by intros w []]. intros m0 Hm0.
  assert (Hsrc : forall w, known rm w -> barrier_list m0.(mf_endpoints) /\ forall m, Ingress.Read (w_fs w) mp = Ok m -> m.(mf_endpoints) = m0.(mf_endpoints)).
  { intros w [_ HR]. destruct rm as [m|e].
    - injection Hm0 as <-. split; [|intros m1 H1'; rewrite HR in H1'; by injection H1' as <-]. destruct (Read_Ok _ _ _ HR). by apply manifest_list.
    - revert Hm0. destruct (decide _); [|done]. intros [= <-]. split; [|intros m1 H1'; by rewrite HR in H1']. split; [constructor..|reflexivity]. }
  eapply triple_pure; [intros w [_ _ _ Hk]; exact (proj1 (Hsrc w Hk))|]. intros Hbl0.
  apply triple_lift; [|intros e _; apply Hquit; by intros w []]. intros es Hes.
  eapply (triple_attempt _ _ _ _ (fun _ => held (known rm)) (fun _ => held (known rm))).
  { eapply triple_weaken; [apply (held_check (known rm) _ (fun _ _ => True)); done|done|]. intros [] w [? ? ? []]; by split. }
  2:{ intros e. apply Hquit. by intros w []. }
  intros old. apply triple_lift; [|intros e _; apply Hquit; by intros w []]. intros [[all current] hashes] Hall.
  assert (Hgroup : barrier_list all /\ covered_by es all).
  { pose proof (ConfigEndpoints_list _ _ Hes) as Hbe. destruct old as [old|].
    - apply result_bind_Ok in Hall as (cur & Hcur & Hall). apply result_bind_Ok in Hall as (u & Hu & [= <- _ _]).
      destruct (Union_lists [es; cur] u) as [Hbu Hin]; [constructor; [exact Hbe|constructor; [exact (ConfigEndpoints_list _ _ Hcur)|constructor]]|done|].
      split; [done|]. apply covered_sub; [apply Hbe|]. intros e He. apply Hin. exists es. split; [left|done].
    - injection Hall as <- _ _. split; [done|]. apply covered_sub; [apply Hbe|by intros e]. }
  destruct Hgroup as [Hba Hcov].
  eapply (triple_attempt _ _ _ _ (fun _ => held (known rm)) (fun _ => held (known rm))).
  { eapply triple_weaken; [apply (probe_ports_triple (known rm)), Hknown|by intros w Hw|]. by intros [] w. }
  2:{ intros e. apply Hquit. by intros w []. }
  intros _. apply triple_lift; [|intros e _; apply Hquit; by intros w []]. intros E HE.
  destruct (Union_lists [m0.(mf_endpoints); all] E) as [HbE Hin]; [constructor; [exact Hbl0|constructor; [exact Hba|constructor]]|done|].
  eapply (triple_attempt _ _ _ _ (fun _ => held (fun w => F w /\ manifest_at E w)) (fun _ => held F)).
  { eapply triple_weaken; [apply (held_write (known rm) F _ E); [done|done|done|done|]|done|].
    - intros w Hk. split; [by destruct Hk|]. intros m Hm. destruct (Hsrc w Hk) as [_ Hsame]. rewrite (Hsame m Hm).
      intros e He. apply Hin. exists m0.(mf_endpoints). split; [left|done].
    - intros [[]|e] w [? ? ? [? Hat]]; split; try done. split; [done|by apply Hat]. }
  2:{ intros e. by apply Hquit. }
  intros _. eapply triple_weaken; [by apply (held_public_on F E)|done|]. intros r w [Hh Hst]. split; [done|]. intros Hr.
  exists E, es. split; [by apply Hst|]. split; [done|]. eapply covered_mono; [|exact Hcov]. intros e He. apply Hin. exists all. split; [right; left|done].
Qed.

Lemma emergency_triple F : framed F -> triple (ready F) (emergencyPublicGuard mp) (fun _ => ready F).
Proof.
  intros HF. pose proof (framed_lframed _ HF) as HL. eapply triple_weaken; [apply (with_lock_triple F (fun _ _ => True)); try done|done|by intros r w [? _]].
  assert (Hquit : forall (G : World -> Prop) e, (forall w, G w -> F w) -> triple (held G) (Ret (@Err unit e)) (fun r w => held F w /\ True)).
  { intros G e HG. apply triple_ret. intros w [? ? ? ?]. split; [|done]. split; auto. }
  set (known := fun (r : result Manifest) w => F w /\ Ingress.Read (w_fs w) mp = r).
  assert (Hknown : forall r, lframed (known r)).
  { intros r. apply lframed_and; [done|]. intros w w' _ Hh. unfold w_fs. by rewrite Hh. }
  eapply (triple_attempt _ _ _ _ (fun m => held (known (Ok m))) (fun e => held (known (Err e)))).
  { eapply triple_weaken; [apply (held_check F _ (fun r w => Ingress.Read (w_fs w) mp = r)); [done|by intros]|done|]. by intros [m|e] w. }
  2:{ intros e. apply Hquit. by intros w []. }
  intros m. eapply triple_pure.
  { intros w [_ _ _ [_ HR]]. destruct (Read_Ok _ _ _ HR). by apply manifest_list. }
  intros Hbl. eapply (triple_attempt _ _ _ _ (fun _ => held (fun w => F w /\ manifest_at m.(mf_endpoints) w)) (fun _ => held F)).
  { eapply triple_weaken; [apply (held_write (known (Ok m)) F _ m.(mf_endpoints)); try done|done|].
    - intros w [Hf HR]. split; [done|]. intros m' Hm'. rewrite HR in Hm'. injection Hm' as <-. done.
    - intros [[]|e] w [? ? ? [? Hat]]; split; try done. split; [done|by apply Hat]. }
  2:{ intros e. by apply Hquit. }
  intros _. eapply triple_weaken; [by apply (held_public_on F m.(mf_endpoints))|done|]. by intros r w [? _].
Qed.

(** ** Behind closed guards *)
Record closed_off (E : list Endpoint) (b : bool) (F : World -> Prop) (w : World) : Prop := {
  co_wf : wf w.(w_db); co_staged : staged E w; co_guard : guard_on w; co_unlocked : w.(w_locked) = false;
  co_uncertain : w.(w_memory).(me_uncertain) = true; co_runs : b = true -> runs_disk w; co_facts : F w }.
Lemma closed_safe E b F w : closed_off E b F w -> safe w.
Proof. intros [? ? ? _ _ _ _]. by eapply staged_safe. Qed.
Lemma uncertain_certain w : w.(w_memory).(me_uncertain) = true -> certain w.
Proof. intros Hu Hf. by rewrite Hu in Hf. Qed.
Lemma closed_ready E b F w : closed_off E b F w -> ready F w.
Proof. intros Hc. split; [by eapply closed_safe|apply uncertain_certain, Hc|apply Hc|apply Hc]. Qed.
Lemma closed_stable E b F : framed F -> stable (closed_off E b F).
Proof.
  intros HF w h Hp [H0' H1' H2' H3' H4' H5' H6']. pose proof (happen_same w h H0' Hp) as Hs.
  split; [apply Hs|by apply staged_happen|by apply guard_on_happen|by rewrite happen_locked|by rewrite (sf_memory _ _ (sf_rest _ _ Hs))| |by eapply HF].
  intros Hb. by apply runs_disk_happen, H5'.
Qed.
Lemma closed_forget E b (F G : World -> Prop) w : (F w -> G w) -> closed_off E b F w -> closed_off E false G w.
Proof. intros HFG [? ? ? ? ? ? Hf]. split; auto. done. Qed.
Lemma closed_weaken E b (F G : World -> Prop) w : (F w -> G w) -> closed_off E b F w -> closed_off E b G w.
Proof. intros HFG [? ? ? ? ? ? Hf]. split; auto. Qed.

(** What the barriers and the service do not notice. *)
Record aside (w w' : World) : Prop := {
  as_wf : wf w'.(w_db); as_host : w'.(w_host) = w.(w_host); as_runtime : w'.(w_runtime) = w.(w_runtime); as_locked : w'.(w_locked) = w.(w_locked);
  as_uncertain : w'.(w_memory).(me_uncertain) = true }.
Lemma aside_staged E w w' : w'.(w_host) = w.(w_host) -> w'.(w_runtime) = w.(w_runtime) -> staged E w -> staged E w'.
Proof.
  intros Hh Hr [Hl Hm Hb Hv]. assert (Hlive : forall c, live_config w' c -> live_config w c) by (intros c; unfold live_config, Gate.config_data, w_fs; by rewrite Hh, Hr).
  split; unfold w_fs, w_tables in *; rewrite ?Hh; try done. intros c Hc. by apply Hv, Hlive.
Qed.
Lemma closed_aside E b F G w w' : aside w w' -> G w' -> closed_off E b F w -> closed_off E b G w'.
Proof.
  intros [Hd Hh Hr Hl Hu] HG [H0' H1' H2' H3' H4' H5' H6'].
  split; [done|by eapply aside_staged| |by rewrite Hl|done| |done].
  - unfold guard_on, w_tables in *. by rewrite Hh.
  - intros Hb c. unfold Gate.config_data, w_fs. rewrite Hh, Hr. by apply H5'.
Qed.
Lemma closed_act {X} E b F (op : Answer -> World -> X * World) (G : X -> World -> Prop) :
  framed F -> (forall a w, wf w.(w_db) -> w.(w_memory).(me_uncertain) = true -> F w -> aside w (op a w).2 /\ G (op a w).1 (op a w).2) ->
  triple (closed_off E b F) (act op) (fun x => closed_off E b (G x)).
Proof.
  intros HF Hop. apply triple_act; [by apply closed_stable|by intros w Hw; eapply closed_safe|]. intros a w Hw.
  destruct (Hop a w (co_wf _ _ _ _ Hw) (co_uncertain _ _ _ _ Hw) (co_facts _ _ _ _ Hw)) as [Ha HG]. by eapply closed_aside.
Qed.
Lemma closed_check {A} E b F (f : Answer -> World -> result A) (G : result A -> World -> Prop) : framed F -> (forall a w, F w -> G (f a w) w) ->
  triple (closed_off E b F) (check f) (fun r => closed_off E b (G r)).
Proof. intros HF HG. apply closed_act; [done|]. intros a w Hd Hu Hf. split; [done|by apply HG]. Qed.

(** [systemctl restart] is a sequence of what may happen anyway. *)
Lemma restart_happens E b F : framed F -> triple (closed_off E b F) (restart cp mp) (fun _ => closed_off E true F).
Proof.
  intros HF. apply triple_act; [by apply closed_stable|by intros w Hw; eapply closed_safe|]. intros a w Hw.
  set (w1 := stop_service w). destruct (exec_start_pre cp mp a.(an_startup) w1) as [r w2] eqn:Hpre.
  assert (H2' : closed_off E b F w2).
  { assert (E2 : w2 = happen (happen w ServiceStops) (ServiceGuards a.(an_startup))).
    { cbn [Gate.happen]. fold w1. change (w_locked w1) with (w_locked w). rewrite (co_unlocked _ _ _ _ Hw), Hpre. done. }
    rewrite E2. apply (closed_stable E b F HF _ (ServiceGuards _) I), (closed_stable E b F HF _ ServiceStops I), Hw. }
  assert (Hdisk : forall w', closed_off E b F w' -> runs_disk w' -> closed_off E true F w') by (intros w' []; split; done).
  assert (Hstop : closed_off E true F (stop_service w2)).
  { apply Hdisk; [by apply (closed_stable E b F HF w2 ServiceStops I)|done]. }
  destruct r as [[]|e]; [|exact Hstop]. cbn [fst snd]. destruct (an_alive a); [|exact Hstop]. apply Hdisk; [by apply (closed_stable E b F HF w2 ServiceStarts I)|].
  apply exec_start_pre_effect in Hpre as (_ & _ & _ & Hrt). unfold exec_start. rewrite Hrt. cbn [rt_starting is_ok]. by intros c [= <-].
Qed.

(** What a prepared candidate owns. *)
Definition holds_candidate (pr : Prepared) (candidate : string) (w : World) : Prop :=
  match pr.(pr_temporary) with Some tmp => w.(w_temps) !! tmp = Some candidate | None => config_data w = Some candidate end.

(** Facts about the database, the network, the records and the memory only. *)
Definition core (F : World -> Prop) : Prop := forall w w',
  keeps_access w.(w_db) w'.(w_db) -> w'.(w_network) = w.(w_network) -> w'.(w_authority) = w.(w_authority) -> w'.(w_memory) = w.(w_memory) -> F w -> F w'.
Lemma core_framed F : core F -> framed F.
Proof. intros HF w w' [? []]. by apply (HF w). Qed.
Lemma framed_and F G : framed F -> framed G -> framed (fun w => F w /\ G w).
Proof. intros HF HG w w' Hs [? ?]. split; [by eapply HF|by eapply HG]. Qed.
Lemma framed_candidate pr candidate : framed (holds_candidate pr candidate).
Proof. intros w w' [Hd [Ht Hn Ha Hm Hc]]. unfold holds_candidate. destruct (pr_temporary pr); [by rewrite Ht|by rewrite Hc]. Qed.
Lemma framed_config c : framed (fun w => config_data w = Some c).
Proof. intros w w' [Hd [Ht Hn Ha Hm Hc]]. by rewrite Hc. Qed.

(** The reload: afterwards the service runs its file, unless nothing had to
    be done. *)
Lemma reload_triple E b F changed force : framed F -> (changed || force = false -> b = true) ->
  triple (closed_off E b F) (reload cp mp changed force)
    (fun x w => match x.2 with None => closed_off E true F w | Some _ => closed_off E false F w end).
Proof.
  intros HF Hb. assert (Hfalse : forall b w, closed_off E b F w -> closed_off E false F w) by (intros b' w []; by split).
  unfold reload. destruct (changed || force); cbn [negb].
  - eapply triple_bind; [by apply (closed_act E b F _ (fun _ => F)); [|intros]|]. intros synced. destruct synced; cbn [negb]; [|apply triple_ret; intros w; apply Hfalse].
    eapply triple_bind; [by apply restart_happens|]. intros restarted. destruct restarted; apply triple_ret; intros w; [done|apply Hfalse].
  - apply triple_ret. cbn [snd]. intros w. rewrite (Hb eq_refl). done.
Qed.

Lemma rename_triple E b F candidate es tmp : core F -> ConfigEndpoints candidate = Ok es -> covered_by es E ->
  triple (closed_off E b (fun w => F w /\ w.(w_temps) !! tmp = Some candidate)) (rename_config cp tmp)
    (fun ok w => if ok : bool then closed_off E false (fun w => F w /\ config_data w = Some candidate) w else closed_off E false F w).
Proof.
  intros HF Hes Hcov. assert (HFr : framed (fun w => F w /\ w.(w_temps) !! tmp = Some candidate)).
  { apply framed_and; [by apply core_framed|]. intros w w' [_ []]. congruence. }
  apply triple_act; [by apply closed_stable|by intros w Hw; eapply closed_safe|]. intros a w [Hd Hs Hg Hl Hu _ [Hf Ht]].
  rewrite Ht. destruct (an_ok a); [|by split]. cbn [fst snd].
  set (fs' := store_file (w_fs w) cp candidate).
  assert (Hag : agree mp (w_fs w) fs') by (by apply store_agree).
  assert (Hcfg : nd_data <$> fs_nodes fs' !! cp = Some candidate) by (cbn; by rewrite lookup_insert_eq).
  split; [done| |done|done|done|done|].
  - destruct Hs as [Hbl (m & Hm & HE) Hb Hv]. split; [done| |done|].
    + exists m. split; [|done]. unfold w_fs. cbn [set_temps set_fs set_host w_host ho_fs]. fold fs'. by rewrite (Read_agree _ _ _ Hag).
    + intros c [Hc|[Hst Hc]]; [apply Hv; by left|]. exists es. unfold Gate.config_data, w_fs in Hc. cbn [set_temps set_fs set_host w_host ho_fs] in Hc.
      fold fs' in Hc. rewrite Hcfg in Hc. by injection Hc as <-.
  - split; [apply (HF w); [by apply keeps_access_refl|reflexivity..|exact Hf]|exact Hcfg].
Qed.

Lemma Commit_triple E b F candidate es force pr : core F -> ConfigEndpoints candidate = Ok es -> covered_by es E -> (force = false -> b = true \/ Changed pr = true) ->
  triple (closed_off E b (fun w => F w /\ holds_candidate pr candidate w)) (Gate.Commit cp mp force pr)
    (fun x w => match x.1.2 with
                | None => closed_off E true (fun w => F w /\ config_data w = Some candidate) w
                | Some _ => closed_off E false F w end).
Proof.
  intros HF Hes Hcov Hb.
  assert (Hdrop : forall b (G : World -> Prop) w, closed_off E b (fun w => F w /\ G w) w -> closed_off E false F w) by (intros b' G w; apply closed_forget; by intros []).
  unfold Gate.Commit, holds_candidate, Changed in *. destruct (pr_temporary pr) as [tmp|].
  - eapply triple_bind; [by apply (rename_triple E b F candidate es tmp)|]. intros ok. destruct ok; cbn [negb]; [|by apply triple_ret].
    eapply triple_bind; [apply (reload_triple E false); [apply framed_and; [by apply core_framed|apply framed_config]|done]|].
    intros [res [err|]]; apply triple_ret; cbn [fst snd]; [|done]. intros w. apply Hdrop.
  - eapply triple_bind; [apply (reload_triple E b); [apply framed_and; [by apply core_framed|apply framed_config]|]|].
    { cbn [orb]. intros Hf. destruct (Hb Hf) as [|Hx]; [done|]. apply bool_decide_eq_true_1 in Hx. by destruct Hx. }
    intros [res [err|]]; apply triple_ret; cbn [fst snd]; [|done]. intros w. apply Hdrop.
Qed.

(** ** The facts a publication gathers *)
Section publication.
Variables (sn : SnapshotT) (sel : gmap string List_) (live : Live) (cand : string).

Definition admits_live (w : World) : Prop := still_admitted w.(w_db) live.
Definition wg_ready (w : World) : Prop := exists cfg, WGConfigFromSettings sn.(sn_settings) = Some cfg /\ w.(w_network).(nw_wg) = WgUp cfg.
Definition linked (w : World) : Prop := admits_live w /\ wg_ready w.
Definition routed (w : World) : Prop := linked w /\ w.(w_network).(nw_route) = true.
Definition filtered (w : World) : Prop := routed w /\
  exists old rs, NftPolicy.Apply little true true (nft_config wan sn sel) old = (inl rs, w.(w_network).(nw_nft)) /\ rs.(rs_skipped) = 0.
Definition recorded (w : World) : Prop := filtered w /\
  exists bounded, w.(w_authority).(au_committed) = Some (MkGenFile true bounded (Some (MkGeneration CommittedKind 5 sn (Some sel)))).
Definition alone (w : World) : Prop := recorded w /\ w.(w_authority).(au_bootstrap) = None.
Definition remembered (w : World) : Prop := w.(w_memory).(me_base) = sn /\ w.(w_memory).(me_contents) = sel.

Lemma admits_keeps w w' : keeps_access w.(w_db) w'.(w_db) -> admits_live w -> admits_live w'.
Proof. intros Hk Ha u Hu. by apply (ku_users _ _ (keeps_access_users _ _ Hk)), Ha. Qed.
Lemma core_admits : core admits_live.
Proof. intros w w' Hk _ _ _. by apply admits_keeps. Qed.
Lemma core_linked : core linked.
Proof. intros w w' Hk Hn _ _ [Ha Hw]. split; [by eapply admits_keeps|]. unfold wg_ready. by rewrite Hn. Qed.
Lemma core_routed : core routed.
Proof. intros w w' Hk Hn Hau Hm [Hl Hr]. split; [by eapply core_linked|by rewrite Hn]. Qed.
Lemma core_filtered : core filtered.
Proof. intros w w' Hk Hn Hau Hm [Hl Hr]. split; [by eapply core_routed|by rewrite Hn]. Qed.
Lemma core_recorded : core recorded.
Proof. intros w w' Hk Hn Hau Hm [Hl Hr]. split; [by eapply core_filtered|by rewrite Hau]. Qed.
Lemma core_alone : core alone.
Proof. intros w w' Hk Hn Hau Hm [Hl Hr]. split; [by eapply core_recorded|by rewrite Hau]. Qed.
Lemma core_remembered : core remembered.
Proof. intros w w' _ _ _ Hm. unfold remembered. by rewrite Hm. Qed.
Lemma core_and F G : core F -> core G -> core (fun w => F w /\ G w).
Proof. intros HF HG w w' Hk Hn Hau Hm [? ?]. split; [by eapply HF|by eapply HG]. Qed.
Lemma framed_with F c : core F -> framed (fun w => F w /\ config_data w = Some c).
Proof. intros HF. apply framed_and; [by apply core_framed|apply framed_config]. Qed.

Lemma apply_good l f cfg old rs t : NftPolicy.Apply little l f cfg old = (inl rs, t) -> NftPolicy.Apply little true true cfg old = (inl rs, t).
Proof.
  unfold NftPolicy.Apply. destruct (BuildNftRuleset cfg); [|done]. destruct l; cbn [negb]; [|done]. destruct (NftPolicy.compile_table _ _); [|done]. by destruct f.
Qed.

(** Each step of the network, behind the guards. *)
Lemma startWG_triple E b pr : triple (closed_off E b (fun w => admits_live w /\ holds_candidate pr cand w)) (startWG sn.(sn_settings))
  (fun r => closed_off E b (fun w => r = Ok tt -> linked w /\ holds_candidate pr cand w)).
Proof.
  apply closed_act; [apply framed_and; [apply core_framed, core_admits|apply framed_candidate]|]. intros a w Hd Hu [Ha Hh].
  unfold setup_wg. destruct (WGConfigFromSettings _) as [cfg|] eqn:Hcfg; [|by split].
  pose proof (EnsureWGServerKey_keeps a.(an_key) _ Hd) as Hk. destruct (run (EnsureWGServerKey _) _) as [r d] eqn:Hrun. cbn [snd] in Hk.
  pose proof (ka_wf _ _ Hk) as Hw.
  destruct r as [k|e]; [|by split]. destruct (an_ok a); cbn [fst snd]; [|by split]. split; [by split|]. intros _. split; [|done].
  split; [|by exists cfg]. by apply (admits_keeps w).
Qed.
Lemma sync_triple E b pr : triple (closed_off E b (fun w => linked w /\ holds_candidate pr cand w)) syncLiveWGPeers
  (fun r => closed_off E b (fun w => linked w /\ holds_candidate pr cand w)).
Proof.
  apply closed_act; [apply framed_and; [apply core_framed, core_linked|apply framed_candidate]|]. intros a w Hd Hu [[Ha Hw] Hh].
  destruct (an_ok a); cbn [negb]; [|by split]. destruct (SyncPeers _ _ _) as [r dev]. cbn [fst snd]. by destruct (an_alive a).
Qed.
Lemma route_triple E b pr : triple (closed_off E b (fun w => linked w /\ holds_candidate pr cand w)) ensureRoute
  (fun r => closed_off E b (fun w => r = Ok tt -> routed w /\ holds_candidate pr cand w)).
Proof.
  apply closed_act; [apply framed_and; [apply core_framed, core_linked|apply framed_candidate]|]. intros a w Hd Hu [[Ha Hw] Hh]. cbn [fst snd]. split; [done|].
  intros Hr%guard_err_Ok%negb_false_iff. by split_and!.
Qed.
Lemma nft_triple E : triple (closed_off E true (fun w => routed w /\ config_data w = Some cand)) (publish_nft little wan sn sel)
  (fun r => closed_off E true (fun w => is_ok r = true -> filtered w /\ config_data w = Some cand)).
Proof.
  apply closed_act; [apply framed_with, core_routed|]. intros a w Hd Hu [Hr Hc]. destruct (an_ok a); cbn [negb]; [|by split].
  destruct (NftPolicy.Apply _ _ _ _ _) as [r t] eqn:Hn. cbn [fst snd]. split; [done|]. destruct r as [rs|]; [|done]. case_decide as Hs; [done|]. intros _.
  try apply dec_stable in Hs. split; [|done]. split; [done|]. exists (nw_nft (w_network w)), rs. split; [|done]. by apply apply_good in Hn.
Qed.
Lemma commit_generation_triple E : triple (closed_off E true (fun w => filtered w /\ config_data w = Some cand)) (commit_generation sn sel)
  (fun r => closed_off E true (fun w => r = Ok tt -> recorded w /\ config_data w = Some cand)).
Proof.
  apply closed_act; [apply framed_with, core_filtered|]. intros a w Hd Hu [Hr Hc]. cbv zeta. destruct (writeGeneration _ _ _ _) as [r f] eqn:Hw. cbn [fst snd].
  split; [done|]. intros ->. apply write_read in Hw as [[_ ?]|[-> _]]; [done|]. split; [|done]. split; [done|]. by eexists.
Qed.
Lemma discard_triple E : triple (closed_off E true (fun w => recorded w /\ config_data w = Some cand)) discard_bootstrap
  (fun r => closed_off E true (fun w => r = Ok tt -> alone w /\ config_data w = Some cand)).
Proof.
  apply closed_act; [apply framed_with, core_recorded|]. intros a w Hd Hu [Hr Hc]. cbv zeta. destruct (DiscardBootstrap _ _ _) as [r f] eqn:Hw. cbn [fst snd].
  split; [done|]. intros ->. split; [|done]. split; [done|]. cbn. unfold DiscardBootstrap in Hw. destruct (au_bootstrap _); [|by injection Hw as _ <-].
  destruct (negb _); [done|]. by injection Hw as _ <-.
Qed.
Lemma remember_triple E : triple (closed_off E true (fun w => alone w /\ config_data w = Some cand)) (with_memory (set_applied sn sel))
  (fun _ => closed_off E true (fun w => (alone w /\ remembered w) /\ config_data w = Some cand)).
Proof. apply closed_act; [apply framed_with, core_alone|]. intros a w Hd Hu [Hr Hc]. cbn. by split. Qed.

(** ** The release *)
Record served (w : World) : Prop := {
  sd_policy : serving_policy sn sel live cand w; sd_allowed : allowed mp (w_fs w) cand; sd_remembered : remembered w }.

Lemma served_live w c : serving_policy sn sel live cand w -> live_config w c -> c = cand.
Proof.
  intros Hs [Hr|[_ Hc]]; [by apply (sv_running _ _ _ _ _ Hs)|]. rewrite (sv_config _ _ _ _ _ Hs) in Hc. by injection Hc.
Qed.
Lemma served_safe w : served w -> safe w.
Proof.
  intros [Hs Ha _]. split; [apply Hs|]. split; [by intros c ->%served_live|]. right. by exists sn, sel, live, cand.
Qed.
Lemma served_stable : stable served.
Proof.
  intros w h Hp [Hs Ha Hm]. pose proof (happen_rest w h) as Hr. split; [by apply serving_policy_happen| |].
  - destruct (happen_cases w h) as [[Hh _]|(_ & r & He & _)]; [unfold w_fs; by rewrite Hh|by eapply allowed_effect].
  - unfold remembered. by rewrite (sf_memory _ _ Hr).
Qed.
(** What only touches the host, and not the configuration. *)
Lemma served_host w h : nd_data <$> h.(ho_fs).(fs_nodes) !! cp = config_data w -> allowed mp h.(ho_fs) cand -> served w -> served (set_host h w).
Proof.
  intros Hc Ha [Hs _ Hm]. split; [|done..]. pose proof (set_host_frame w h (sv_wf _ _ _ _ _ Hs) Hc) as Hf. eapply serving_policy_frame; [exact Hf| |exact Hs].
  intros c' Hc'. rewrite (sf_config _ _ (sf_rest _ _ Hf)). by apply (serving_runs_disk _ _ _ _ _ Hs).
Qed.
Lemma served_locked b w : served w -> served (set_locked b w).
Proof. intros [Hs Ha Hm]. split; [|done..]. eapply calm_serving; [apply calm_locked|done]. Qed.
Lemma served_act {X} (op : Answer -> World -> X * World) (G : X -> Prop) :
  (forall a w, served w -> served (op a w).2 /\ G (op a w).1) -> triple served (act op) (fun x w => served w /\ G x).
Proof. intros Hop. apply triple_act; [apply served_stable|apply served_safe|]. intros a w Hw. by apply Hop. Qed.
Lemma served_tables {X} (op : Answer -> gmap string GuardTable -> X * gmap string GuardTable) :
  triple served (act (fun a w => let '(r, T) := op a (w_tables w) in (r, set_tables T w))) (fun _ => served).
Proof.
  eapply triple_weaken; [apply (served_act _ (fun _ => True))|done|by intros ? ? []]. intros a w Hw. destruct (op a _) as [r T]. split; [|done].
  apply served_host; [done|apply Hw|done].
Qed.
Lemma served_check {A} (f : Answer -> World -> result A) : triple served (check f) (fun _ => served).
Proof. eapply triple_weaken; [apply (served_act _ (fun _ => True))|done|by intros ? ? []]. by intros a w Hw. Qed.

Lemma served_write es m : ConfigEndpoints cand = Ok es -> m.(mf_endpoints) = es -> triple served (write_manifest mp m) (fun _ => served).
Proof.
  intros Hes Hm. eapply triple_weaken; [apply (served_act _ (fun _ => True))|done|by intros ? ? []]. intros a w Hw.
  destruct (Ingress.Write _ _ mp m) as [r fs'] eqn:Hwr. cbn [fst snd]. split; [|done]. pose proof (ConfigEndpoints_list _ _ Hes) as Hbl.
  apply Write_effect in Hwr as [Hother Hor]; [|rewrite Hm; apply Hbl]. apply served_host; [unfold Gate.config_data; cbn; by rewrite Hother| |done].
  destruct Hor as [[-> _]|(m' & Hm' & HR)]; [apply Hw|]. exists es. split; [done|]. right. exists m'. split; [done|].
  destruct (normalizeManifest_Ok _ _ Hm') as (_ & He & _). rewrite Hm, (bl_normal _ Hbl) in He. injection He as <-. apply covered_sub; [apply Hbl|done].
Qed.
Lemma served_with_lock {A} (operation : prog (result A)) :
  triple served operation (fun _ => served) -> triple (fun w => served w /\ w.(w_locked) = false) (with_lock mp operation) (fun _ w => served w /\ w.(w_locked) = false).
Proof.
  intros Hop. assert (Hst : stable (fun w => served w /\ w.(w_locked) = false)).
  { intros w h Hp [? ?]. split; [by apply served_stable|by rewrite happen_locked]. }
  unfold with_lock. eapply (triple_attempt _ _ _ _ (fun _ => served) (fun _ w => served w /\ w.(w_locked) = false)).
  - apply triple_act; [done|intros w []; by apply served_safe|]. intros a w [Hw Hl]. unfold lock.
    destruct (WithLock _ _ _) as [r fs'] eqn:E. cbn [fst snd]. destruct (WithLock_files _ Hlong _ _ _ _ E) as (_ & Hn & Ha).
    assert (Hs : served (set_fs fs' w)).
    { apply served_host; [unfold Gate.config_data; cbn; by rewrite Hn| |done]. destruct Hw as [_ (es & Hes & Hor) _]. exists es. split; [done|]. cbn. by rewrite (Read_agree _ _ _ Ha). }
    destruct r as [[]|e]; [by apply served_locked|]. split; [by apply served_locked|done].
  - intros _. eapply triple_bind; [exact Hop|]. intros r. eapply (triple_bind _ _ _ (fun _ w => served w /\ w.(w_locked) = false)).
    + apply triple_act; [apply served_stable|apply served_safe|]. intros a w Hw. exact (conj (served_locked false w Hw) eq_refl).
    + intros u. by apply triple_ret.
  - intros e. by apply triple_ret.
Qed.

Lemma release_triple : triple (fun w => served w /\ w.(w_locked) = false) (releasePublic cp mp cand) (fun _ w => served w /\ w.(w_locked) = false).
Proof.
  apply served_with_lock. assert (Hret : forall A (r : result A), triple served (Ret r) (fun _ => served)) by (intros A r; by apply triple_ret).
  assert (Hguard : forall on, triple served (guard on) (fun _ => served)) by (intros on; apply (served_tables (fun a T => SetClientGuard a.(an_netlink) on T))).
  assert (Hpub : forall es on, triple served (publicGuard es on) (fun _ => served)) by (intros es on; apply (served_tables (fun a T => SetPublicClientGuard a.(an_netlink) es on T))).
  assert (Hre : forall es e, triple served (reclose es e) (fun _ => served)).
  { intros es e. eapply triple_bind; [apply Hguard|]. intros ?. eapply triple_bind; [apply Hpub|]. intros ?. apply Hret. }
  eapply (triple_attempt _ _ _ _ (fun _ => served) (fun _ => served)); [eapply triple_weaken; [apply served_check|done|by intros [] ?]| |intros e; apply Hret].
  intros current. destruct (decide _); [apply Hret|]. apply triple_lift; [|intros e _; apply Hret]. intros es Hes.
  pose proof (served_write es) as Hw.
  eapply (triple_attempt _ _ _ _ (fun _ => served) (fun _ => served)); [eapply triple_weaken; [by apply Hw|done|by intros [] ?]| |intros e; apply Hret]. intros _.
  eapply (triple_attempt _ _ _ _ (fun _ => served) (fun _ => served)); [eapply triple_weaken; [apply Hguard|done|by intros [] ?]| |]; swap 1 2.
  { intros e. eapply triple_bind; [apply Hguard|]. intros ?. apply Hret. }
  intros ?. eapply (triple_attempt _ _ _ _ (fun _ => served) (fun _ => served)); [eapply triple_weaken; [apply Hpub|done|by intros [] ?]| |intros e; apply Hre]. intros _.
  eapply (triple_attempt _ _ _ _ (fun _ => served) (fun _ => served)); [eapply triple_weaken; [by apply Hw|done|by intros [] ?]|intros u; apply Hret|intros e; apply Hre].
Qed.

(** ** From the commit to the release *)
Definition idle : World -> Prop := ready (fun _ => True).
(** What an answer of [publish] says. *)
Definition published {A} (r : result A) (w : World) : Prop :=
  idle w /\ (is_ok r = true -> w.(w_memory).(me_uncertain) = false /\ w.(w_memory).(me_base) = sn).

Lemma ready_idle F w : ready F w -> idle w.
Proof. by apply ready_weaken. Qed.
Lemma closed_idle E b F w : closed_off E b F w -> idle w.
Proof. intros Hc. by eapply ready_idle, closed_ready. Qed.
Lemma idle_refused {A} e w : idle w -> @published A (Err e) w.
Proof. by split. Qed.
Lemma served_idle w : served w -> w.(w_locked) = false -> idle w.
Proof.
  intros Hs Hl. split; [by apply served_safe| |done..]. intros _. destruct Hs as [Hp _ [-> ->]]. by exists live, cand.
Qed.
Lemma framed_true : framed (fun _ => True).
Proof. done. Qed.

Lemma idle_guard {A} e : triple idle (bind (guard true) (fun _ => Ret (@Err A e))) published.
Proof.
  eapply triple_bind; [apply (ready_guard (fun _ => True)), framed_true|]. intros r. apply triple_ret. intros w [Hr _]. by apply idle_refused.
Qed.
Lemma closed_quit {A} E b (F : World -> Prop) e : triple (closed_off E b F) (Ret (@Err A e)) published.
Proof. apply triple_ret. intros w Hw. by eapply idle_refused, closed_idle. Qed.
(** A check, with the rest of the program. *)
Lemma closed_gate {A B} E b (F : World -> Prop) (p : prog (result A)) (G : result A -> World -> Prop) (ok : A -> prog (result B)) :
  triple (closed_off E b F) p (fun r => closed_off E b (G r)) ->
  (forall a, triple (closed_off E b (G (Ok a))) (ok a) published) ->
  triple (closed_off E b F) (attempt p ok (fun e => Ret (Err e))) published.
Proof.
  intros Hp Hok. eapply (triple_attempt _ _ _ _ (fun a => closed_off E b (G (Ok a))) (fun e => closed_off E b (G (Err e)))).
  - eapply triple_weaken; [exact Hp|done|]. by intros [] w.
  - exact Hok.
  - intros e. apply closed_quit.
Qed.
Lemma closed_known {A} E b (F : World -> Prop) (p : prog A) Q (phi : Prop) : phi -> triple (closed_off E b F) p Q -> triple (closed_off E b (fun w => phi -> F w)) p Q.
Proof. intros Hphi Hp. eapply triple_weaken; [exact Hp| |done]. intros w. apply closed_weaken. auto. Qed.

Lemma facts_served E es : compiled sn sel live cand -> ConfigEndpoints cand = Ok es -> covered_by es E ->
  forall w, closed_off E true (fun w => (alone w /\ remembered w) /\ config_data w = Some cand) w -> served w /\ w.(w_locked) = false.
Proof.
  intros Hcomp Hes Hcov w [Hd Hst Hg Hl Hu Hr [[[[[[[Ha Hw] Hro] Hn] Hau] Hb] Hm] Hc]]. split; [|done]. split; [|
    exists es; split; [done|]; right; destruct Hst as [_ (m & HR & HE) _ _]; exists m; split; [done|by rewrite HE]|done].
  split; try done. intros c' Hc'. apply Hr in Hc'; [|done]. rewrite Hc in Hc'. by injection Hc'.
Qed.

Lemma finish_triple es E res count : compiled sn sel live cand -> ConfigEndpoints cand = Ok es -> covered_by es E ->
  triple (closed_off E true (fun w => (alone w /\ remembered w) /\ config_data w = Some cand))
    (attempt (releasePublic cp mp cand) (fun _ => bind (set_uncertain false) (fun _ => Ret (Ok (res, Some count))))
       (fun e => bind (guard true) (fun _ => Ret (Err e)))) (@published Report).
Proof.
  intros Hcomp Hes Hcov. set (S := fun w => served w /\ w.(w_locked) = false). assert (HS : stable S).
  { intros w h Hp [? ?]. split; [by apply served_stable|by rewrite happen_locked]. }
  assert (Hsafe : forall w, S w -> safe w) by (intros w []; by apply served_safe).
  eapply (triple_weaken S); [|by apply (facts_served E es)|done].
  eapply (triple_attempt _ _ _ _ (fun _ => S) (fun _ => S)); [eapply triple_weaken; [apply release_triple|done|by intros [] ?]| |].
  - intros u. eapply (triple_bind _ _ _ (fun _ w => S w /\ w.(w_memory).(me_uncertain) = false)).
    + apply triple_act; [done|done|]. intros a w [[Hs Ha Hm] Hl]. split; [|done]. split; [|done]. split; [|done..].
      destruct Hs as [? ? ? ? ? ? ? ? ? ?]. by split.
    + intros v. apply triple_ret. intros w [[Hs Hl] Hu]. split; [by apply served_idle|]. intros _. split; [done|]. apply Hs.
  - intros e. eapply triple_weaken; [apply idle_guard| |done]. intros w []. by apply served_idle.
Qed.

Lemma publish_committed_triple es E res : compiled sn sel live cand -> ConfigEndpoints cand = Ok es -> covered_by es E ->
  triple (closed_off E true (fun w => routed w /\ config_data w = Some cand)) (publish_committed little wan cp mp sn sel cand res) (@published Report).
Proof.
  intros Hcomp Hes Hcov. unfold publish_committed.
  eapply closed_gate; [apply nft_triple|]. intros count. apply closed_known; [done|].
  eapply closed_gate; [apply (closed_check _ _ _ _ (fun _ w => filtered w /\ config_data w = Some cand)); [apply framed_with, core_filtered|done]|]. intros u1.
  eapply closed_gate; [apply (closed_check _ _ _ _ (fun _ w => filtered w /\ config_data w = Some cand)); [apply framed_with, core_filtered|done]|]. intros u2.
  eapply closed_gate; [apply commit_generation_triple|]. intros []. apply closed_known; [done|].
  eapply closed_gate; [apply discard_triple|]. intros []. apply closed_known; [done|].
  eapply triple_bind; [apply remember_triple|]. intros u3.
  set (Z := fun w => (alone w /\ remembered w) /\ config_data w = Some cand).
  assert (HZ : framed Z) by (apply framed_with, core_and; [apply core_alone|apply core_remembered]).
  eapply (triple_bind _ _ _ (fun _ => closed_off E true Z)); [by apply (closed_act E true Z _ (fun _ => Z))|]. intros u4.
  eapply closed_gate; [by apply (closed_check _ _ _ _ (fun _ => Z))|]. intros u5. by apply (finish_triple es).
Qed.

(** Staged, and told to be uncertain; the clients' guard is next. *)
Record doubtful (E : list Endpoint) (b : bool) (F : World -> Prop) (w : World) : Prop := {
  db_safe : safe w; db_staged : staged E w; db_unlocked : w.(w_locked) = false;
  db_uncertain : w.(w_memory).(me_uncertain) = true; db_runs : b = true -> runs_disk w; db_facts : F w }.
Lemma doubtful_stable E b F : framed F -> stable (doubtful E b F).
Proof.
  intros HF w h Hp [H0' H1' H3' H4' H5' H6']. pose proof (happen_same w h (proj1 H0') Hp) as Hs.
  split; [by apply safe_happen|by apply staged_happen|by rewrite happen_locked|by rewrite (sf_memory _ _ (sf_rest _ _ Hs))| |by eapply HF].
  intros Hb. by apply runs_disk_happen, H5'.
Qed.
Lemma doubtful_idle E b F w : doubtful E b F w -> idle w.
Proof. intros [? ? ? ? ? ?]. split; [done|by apply uncertain_certain|done..]. Qed.
Lemma tables_staged E w T' : staged E w -> T' !! PublicClientGuardTable = w_tables w !! PublicClientGuardTable -> staged E (set_tables T' w).
Proof. intros [Hl Hm Hb Hv] HT. split; [done..| |done]. intros c es Hes Hcov. eapply shut_same; [exact HT|by eapply Hb]. Qed.
Lemma close_triple E b F : framed F ->
  triple (doubtful E b F) (guard true) (fun r w => match r with Ok _ => closed_off E b F w | Err _ => idle w end).
Proof.
  intros HF. apply triple_act; [by apply doubtful_stable|by intros w []|]. intros a w Hw.
  destruct (SetClientGuard _ _ _) as [r T'] eqn:Hg. cbn [fst snd]. pose proof (SetClientGuard_effect _ _ _ _ _ Hg) as (Hfail & Hon & _ & Hpub).
  pose proof Hw as [Hs Hst Hl Hu Hr Hf]. destruct r as [[]|e].
  - split; try done; [apply Hs|by apply tables_staged|by apply Hon|]. eapply HF; [|exact Hf]. apply set_host_frame; [apply Hs|done].
  - rewrite (Hfail ltac:(done)). assert (Ew : set_tables (w_tables w) w = w) by (destruct w as [? [? ?] ? ? ? ? ? ? ?]; done). rewrite Ew. by eapply doubtful_idle.
Qed.

Definition settled {A} (x : result A * Prepared) (w : World) : Prop := published x.1 w.
Lemma closed_leave {A} E b (F : World -> Prop) e pr : triple (closed_off E b F) (Ret (@Err A e, pr)) settled.
Proof. apply triple_ret. intros w Hw. by eapply idle_refused, closed_idle. Qed.

Lemma publish_closed_triple es E needRestart pr : compiled sn sel live cand -> ConfigEndpoints cand = Ok es -> covered_by es E ->
  triple (doubtful E (negb needRestart) (fun w => admits_live w /\ holds_candidate pr cand w))
    (publish_closed little wan cp mp sn sel cand needRestart pr) (@settled Report).
Proof.
  intros Hcomp Hes Hcov. unfold publish_closed. set (b := negb needRestart).
  assert (HF : framed (fun w => admits_live w /\ holds_candidate pr cand w)) by (apply framed_and; [apply core_framed, core_admits|apply framed_candidate]).
  eapply triple_attempt; [by apply close_triple| |].
  2:{ intros e. apply triple_ret. intros w Hw. by apply idle_refused. }
  intros u0. eapply (triple_attempt _ _ _ _ (fun _ => closed_off E b (fun w => linked w /\ holds_candidate pr cand w)) (fun _ => closed_off E b (fun _ => True))).
  { unfold configureLiveWG. eapply (triple_attempt _ _ _ _ (fun _ => closed_off E b (fun w => linked w /\ holds_candidate pr cand w)) (fun _ => closed_off E b (fun _ => True))).
    - eapply triple_weaken; [apply startWG_triple|done|]. intros [[]|e] w; apply closed_weaken; auto.
    - intros []. eapply triple_weaken; [apply sync_triple|done|]. intros [[]|e] w; [done|by apply closed_weaken].
    - intros e. by apply triple_ret. }
  2:{ intros e. apply closed_leave. }
  intros u1. eapply (triple_attempt _ _ _ _ (fun _ => closed_off E b (fun w => routed w /\ holds_candidate pr cand w)) (fun _ => closed_off E b (fun _ => True))).
  { eapply triple_weaken; [apply route_triple|done|]. intros [[]|e] w; apply closed_weaken; auto. }
  2:{ intros e. apply closed_leave. }
  intros u2. eapply triple_bind; [apply (Commit_triple E b routed cand es needRestart pr); [apply core_routed|done|done|]|].
  { intros ->. by left. }
  intros [[res err] pr']. cbn [fst snd]. destruct err as [e|]; [apply closed_leave|].
  eapply triple_bind; [by apply (publish_committed_triple es E)|]. intros r. by apply triple_ret.
Qed.

Lemma triple_exists {A X} (P : X -> World -> Prop) (p : prog A) Q : (forall x, triple (P x) p Q) -> triple (fun w => exists x, P x w) p Q.
Proof. intros Hp turns w Ht [x Hx]. by apply (Hp x). Qed.
Lemma staged_for_stable c : stable (staged_for c).
Proof. intros w h _ (E & es & Hst & Hes & Hcov). exists E, es. split; [by apply staged_happen|done]. Qed.

Definition doubt (w : World) : World := set_memory (MkMemory w.(w_memory).(me_base) w.(w_memory).(me_contents) w.(w_memory).(me_initialized) true w.(w_memory).(me_epoch)) w.
Lemma doubt_calm w : calm w (doubt w).
Proof. split; try done. by left. Qed.
Lemma doubt_idle : triple idle (set_uncertain true) (fun _ => idle).
Proof. eapply (ready_calm (fun _ => True) _ (fun _ _ => True)); [done| |done]. intros a w. split; [apply doubt_calm|done]. Qed.

Definition kept (pr : Prepared) (w : World) : Prop := admits_live w /\ holds_candidate pr cand w.
Lemma framed_kept pr : framed (kept pr).
Proof. apply framed_and; [apply core_framed, core_admits|apply framed_candidate]. Qed.

Lemma doubt_triple needRestart pr :
  triple (fun w => ready (fun w => kept pr w /\ (needRestart = false -> w.(w_memory).(me_uncertain) = false)) w /\ staged_for cand w)
    (set_uncertain true)
    (fun _ w => exists x : list Endpoint * list Endpoint, ConfigEndpoints cand = Ok x.2 /\ covered_by x.2 x.1 /\ doubtful x.1 (negb needRestart) (kept pr) w).
Proof.
  set (F := fun w => kept pr w /\ _). assert (HF : framed F).
  { apply framed_and; [apply framed_kept|]. intros w w' [_ [_ _ _ Hm _]] Hn Hr. rewrite Hm. auto. }
  apply triple_act.
  - intros w h Hp [Hr Hs]. split; [by apply ready_stable|by apply staged_for_stable].
  - by intros w [[? _ _ _] _].
  - intros a w [[Hs Hc Hl [Hk Hu]] (E & es & Hst & Hes & Hcov)]. exists (E, es). split; [done|]. split; [done|].
    change (doubtful E (negb needRestart) (kept pr) (doubt w)). split; try done.
    + eapply calm_safe; [apply doubt_calm|done].
    + by apply (aside_staged E w).
    + intros Hn%negb_true_iff. destruct (Hc (Hu Hn)) as (live' & c & Hsv). apply (serving_runs_disk _ _ _ _ _ Hsv).
Qed.

Lemma publish_prepared_triple repair publicUncertain pr : compiled sn sel live cand ->
  triple (ready (kept pr)) (publish_prepared little wan cp mp sn sel repair publicUncertain pr) (@settled Report).
Proof.
  intros Hcomp. unfold publish_prepared. eapply triple_bind; [apply ready_get, framed_kept|]. intros x. cbv beta zeta.
  set (same := negb (bool_decide (me_base (w_memory x) = sn)) || negb (bool_decide (me_contents (w_memory x) = sel))).
  set (needRestart := me_uncertain (w_memory x) || publicUncertain || Changed pr || same).
  assert (Hunc : forall w, same_frame x w -> needRestart = false -> w.(w_memory).(me_uncertain) = false).
  { intros w [_ [_ _ _ Hm _]] Hn. rewrite Hm. unfold needRestart in Hn. reflect_bools. done. }
  destruct (negb repair && negb needRestart) eqn:Hquiet.
  - apply andb_true_iff in Hquiet as [_ Hn%negb_true_iff]. assert (Hpr : pr.(pr_temporary) = None).
    { unfold needRestart, Changed in Hn. destruct (pr_temporary pr); [|done]. rewrite bool_decide_eq_true_2 in Hn by done. by rewrite orb_true_r in Hn. }
    unfold Gate.Commit. rewrite Hpr. cbn. apply triple_ret. intros w [Hs Hc Hl (Hk & Hsame & _)]. split; [by split|]. intros _. split; [by apply Hunc|].
    destruct Hsame as [_ [_ _ _ Hm _]]. rewrite Hm. unfold needRestart, same in Hn. reflect_bools. done.
  - set (F := fun w => kept pr w /\ (needRestart = false -> w.(w_memory).(me_uncertain) = false)).
    assert (HF : framed F).
    { apply framed_and; [apply framed_kept|]. intros w w' [_ [_ _ _ Hm _]] Hn Hr. rewrite Hm. auto. }
    eapply (triple_weaken (ready F)); [|intros w; apply ready_weaken; intros (? & ? & _); split; [done|by apply Hunc]|done].
    assert (Hleave : forall e (P : World -> Prop), (forall w, P w -> idle w) -> triple P (Ret (@Err Report e, pr)) settled).
    { intros e P HP. apply triple_ret. intros w Hw. by apply idle_refused, HP. }
    eapply (triple_attempt _ _ _ _ (fun _ => ready F) (fun _ => ready F)); [eapply triple_weaken; [apply (ready_check F _ (fun _ => F)); [done|by intros a w []]|done|by intros [] ?]| |].
    2:{ intros e. apply Hleave, ready_idle. }
    intros u1. eapply (triple_attempt _ _ _ _ (fun c => ready (fun w => F w /\ c = cand)) (fun _ => ready F)).
    { eapply triple_weaken; [apply (ready_check F _ (fun r w => F w /\ forall c, r = Ok c -> c = cand)); [done|]|done|].
      - intros a w [_ _ _ [[Ha Hh] Hu]]. split; [by split|]. intros c. destruct (an_ok a); [|done]. unfold ConfigData, holds_candidate, disk in *. cbn.
        destruct (pr_temporary pr); [rewrite Hh|cbn in Hh; rewrite Hh]; by intros [= ->].
      - intros [c|e] w; apply ready_weaken; [intros [? Hc]; split; [done|by apply Hc]|by intros []]. }
    2:{ intros e. apply Hleave, ready_idle. }
    intros c. eapply triple_pure; [by intros w [_ _ _ [_ Hc]]|]. intros ->.
    eapply (triple_weaken (ready F)); [|intros w; apply ready_weaken; by intros []|done].
    eapply (triple_attempt _ _ _ _ (fun _ w => ready F w /\ staged_for cand w) (fun _ => ready F)); [eapply triple_weaken; [by apply stage_triple|done|]| |].
    { intros [[]|e] w [Hr Hs]; [split; [done|by apply Hs]|done]. }
    + intros u2. eapply triple_bind; [apply doubt_triple|]. intros u3. apply triple_exists. intros [E es]. cbn [fst snd].
      eapply triple_pure; [by intros w (Hes & _); exact Hes|]. intros Hes. eapply triple_pure; [by intros w (_ & Hcov & _); exact Hcov|]. intros Hcov.
      eapply triple_weaken; [by apply (publish_closed_triple es E)|by intros w (_ & _ & ?)|done].
    + intros e. destruct (decide _); [apply Hleave, ready_idle|]. eapply triple_bind; [eapply triple_weaken; [apply doubt_idle|apply ready_idle|done]|].
      intros u3. eapply triple_bind; [apply (ready_guard (fun _ => True)), framed_true|]. intros r. apply triple_ret. intros w [Hr _]. by apply idle_refused.
Qed.
End publication.

(** ** Preparation *)
Lemma writeTemp_Ok p data d tmp d' : writeTemp p data d = (inr tmp, d') -> d'.(dk_config) = d.(dk_config) /\ d'.(dk_temps) !! tmp = Some data.
Proof.
  unfold writeTemp. destruct (pa_name p) as [name|]; [|done]. case_decide; [done|]. destruct (pa_partial p); [done|].
  intros [= <- <-]. split; [done|]. apply lookup_insert_eq.
Qed.
Lemma remove_config works name d : (remove works name d).(dk_config) = d.(dk_config).
Proof. by destruct works. Qed.
Lemma pass_compiled plain live fc more p sn d out d' :
  pass Marshal plain (Some live) fc more p sn d = (out, d') ->
  match out with
  | Finished (inl _) => True
  | Finished (inr pr) => d'.(dk_config) = d.(dk_config) /\ exists opts data, candidate Marshal plain (Some live) sn = Ok (opts, data) /\ ConfigData pr d' = Some data
  | Retry sn' => d'.(dk_config) = d.(dk_config) /\ exists id url, sn' = withoutPoolServer sn id url
  end.
Proof.
  unfold pass. destruct (candidate _ _ _ _) as [[opts data]|e] eqn:Hc; [|by intros [= <- <-]].
  destruct (sameOnDisk _ _ _) as [e|same] eqn:Hs; [by intros [= <- <-]|].
  assert (Hsame : same = true -> d.(dk_config) = Some data).
  { intros ->. unfold sameOnDisk in Hs. destruct (pa_unreadable p); [done|]. injection Hs as Hs. by apply bool_decide_eq_true_1 in Hs. }
  destruct (same && negb fc) eqn:Hsf.
  { intros [= <- <-]. apply andb_true_iff in Hsf as [Hsf _]. split; [done|]. exists opts, data. split; [done|]. by apply Hsame. }
  destruct (negb (pa_mkdir p)); [by intros [= <- <-]|]. destruct (writeTemp _ _ _) as [[e|tmp] d1] eqn:Hw; [by intros [= <- <-]|].
  apply writeTemp_Ok in Hw as [Hcfg Htmp]. destruct (Check_ _) as [text|].
  - cbv zeta. destruct (rejectedPoolMember _ _ _) as [rm|]; [|by intros [= <- <-]]. destruct more; [|by intros [= <- <-]].
    intros [= <- <-]. split; [by rewrite remove_config|]. by exists (rm_tunnel rm), (rm_url rm).
  - destruct same; intros [= <- <-].
    + split; [by rewrite remove_config|]. exists opts, data. split; [done|]. unfold ConfigData. cbn. rewrite remove_config, Hcfg. by apply Hsame.
    + split; [done|]. by exists opts, data.
Qed.
Lemma prepare_compiled plain live fuel fc md drop passes sn d pr d' :
  prepare_from Marshal plain (Some live) fuel fc md drop passes sn d = Some (inr pr, d') ->
  d'.(dk_config) = d.(dk_config) /\ exists sn' opts data, pruned sn sn' /\ candidate Marshal plain (Some live) sn' = Ok (opts, data) /\ ConfigData pr d' = Some data.
Proof.
  revert drop sn d. induction fuel as [|fuel IH]; intros drop sn d; [done|]. cbn [prepare_from].
  destruct (pass _ _ _ _ _ _ _ _) as [out d1] eqn:Hp. apply pass_compiled in Hp. destruct out as [[e|pr1]|sn1]; [done| |].
  - intros [= <- <-]. destruct Hp as (Hd & opts & data & Hc & Hdata). split; [done|]. exists sn, opts, data. split; [constructor|done].
  - intros Hx. destruct Hp as (Hd & id & url & ->). destruct (IH _ _ _ Hx) as (Hd' & sn' & opts & data & Hpr & Hc & Hdata).
    split; [by rewrite Hd'|]. exists sn', opts, data. split; [by econstructor|done].
Qed.

Lemma admission_triple sn : triple idle (runtime_admission public_of sn) (fun r => ready (fun w => forall live, r = Ok live -> admits_live live w)).
Proof.
  apply (ready_check (fun _ => True)); [done|]. intros a w Hw live. destruct (an_ok a); cbn [negb]; [|done].
  intros (rt & Hrt & Hx)%result_bind_Ok. destruct (negb _); [done|]. injection Hx as <-. intros u Hu. by eapply RealityRuntime_admitted.
Qed.
Lemma prepare_triple sn sel live force :
  triple (ready (admits_live live)) (prepare_candidate Marshal cp (frozenPlainLists sel) live force sn)
    (fun out w => match out with
                  | inl _ => idle w
                  | inr pr => exists cand, compiled sn sel live cand /\ ready (kept live cand pr) w end).
Proof.
  apply triple_act; [apply ready_stable, core_framed, core_admits|by intros w []|]. intros a w Hw.
  destruct (Apply.prepare _ _ _ _ _ _ _ _) as [[[e|pr] d]|] eqn:Hp; cbn [fst snd].
  - destruct Hw as [Hs Hc Hl _]. split; [|eapply calm_certain; [|exact Hc]|done..].
    + eapply calm_safe; [|exact Hs]. split; try done. by right.
    + split; try done. by right.
  - unfold Apply.prepare in Hp. apply prepare_compiled in Hp as (Hd & sn' & opts & data & Hpr & Hc & Hdata). exists data. split; [by exists sn', opts|].
    destruct Hw as [Hs Hce Hl Ha]. assert (Hcalm : calm w (set_temps (dk_temps d) w)) by (split; try done; by right).
    split; [by eapply calm_safe|by eapply calm_certain|done|]. split; [done|]. unfold holds_candidate, ConfigData in *.
    destruct (pr_temporary pr); [done|]. change (config_data (set_temps (dk_temps d) w)) with (config_data w). by rewrite <- Hdata, Hd.
  - by apply ready_idle in Hw.
Qed.
Lemma close_prepared_triple {A} sn (r : result A) pr : triple (published sn r) (close_prepared cp pr) (fun _ => published sn r).
Proof.
  apply triple_act.
  - intros w h Hp [Hi Hm]. split; [by apply ready_stable|]. by rewrite (sf_memory _ _ (happen_rest w h)).
  - by intros w [[? _ _ _] _].
  - intros a w [[Hs Hc Hl _] Hm]. cbn [fst snd]. destruct (pr_temporary pr) as [tmp|]; [|by split].
    assert (Hcalm : forall t, calm w (set_temps t w)) by (intros t; split; try done; by right).
    split; [|done]. split; [by eapply calm_safe|by eapply calm_certain|done..].
Qed.

(** ** Publication *)
Definition publishes {A} (sn : SnapshotT) (r : result A) (w : World) : Prop :=
  idle w /\ (is_ok r = true -> w.(w_memory).(me_uncertain) = false /\ copy_policy sn = Ok w.(w_memory).(me_base)).
Lemma idle_stable : stable idle.
Proof. by apply ready_stable. Qed.
Lemma idle_quit {A} (P : World -> Prop) sn e : (forall w, P w -> idle w) -> triple P (Ret (@Err A e)) (publishes sn).
Proof. intros HP. apply triple_ret. intros w Hw. split; [by apply HP|done]. Qed.
Lemma idle_check {A} (f : Answer -> World -> result A) : triple idle (check f) (fun _ => idle).
Proof. eapply triple_weaken; [apply (ready_check (fun _ => True) _ (fun _ _ => True)); done|done|by intros [] ?]. Qed.
Lemma calm_idle {X} (op : Answer -> World -> X * World) :
  (forall a w, calm w (op a w).2 /\ (op a w).2.(w_locked) = w.(w_locked)) -> triple idle (act op) (fun _ => idle).
Proof. intros Hop. by apply (ready_calm (fun _ => True) _ (fun _ _ => True)). Qed.
Lemma idle_get : triple idle get (fun _ => idle).
Proof. apply calm_idle. intros a w. split; [apply calm_refl|done]. Qed.
(** A check that only leaves the gate idle. *)
Lemma idle_gate {A B} (p : prog (result A)) (ok : A -> prog (result B)) sn :
  triple idle p (fun _ => idle) -> (forall a, triple idle (ok a) (publishes sn)) -> triple idle (attempt p ok (fun e => Ret (Err e))) (publishes sn).
Proof.
  intros Hp Hok. eapply (triple_attempt _ _ _ _ (fun _ => idle) (fun _ => idle)); [eapply triple_weaken; [exact Hp|done|by intros [] ?]|exact Hok|].
  intros e. by apply idle_quit.
Qed.

Lemma publish_policy_triple sn recovery repair : triple idle (publish_policy Marshal public_of little wan cp mp sn recovery repair) (publishes sn).
Proof.
  unfold publish_policy. apply triple_lift; [|intros e _; by apply idle_quit]. intros snc Hcopy.
  apply triple_lift; [|intros e _; by apply idle_quit]. intros u0 _.
  apply idle_gate; [apply idle_check|]. intros u1. eapply triple_bind; [apply idle_get|]. intros w1.
  apply idle_gate; [apply idle_check|]. intros sel.
  eapply (triple_attempt _ _ _ _ (fun live => ready (admits_live live)) (fun _ => idle)).
  { eapply triple_weaken; [apply admission_triple|done|]. intros [live|e] w; apply ready_weaken; auto. }
  2:{ intros e. by apply idle_quit. }
  intros live. eapply (triple_bind _ _ _ (fun _ => ready (admits_live live))).
  { eapply triple_weaken; [apply ready_get, core_framed, core_admits|done|]. intros x w. apply ready_weaken. by intros []. }
  intros w2. eapply triple_bind; [apply prepare_triple|]. intros [e|pr]; [by apply idle_quit|]. apply triple_exists. intros cand.
  eapply triple_pure; [by intros w [Hc _]; exact Hc|]. intros Hcomp.
  eapply (triple_weaken (ready (kept live cand pr))); [|by intros w [_ ?]|done].
  eapply triple_bind; [by apply (publish_prepared_triple snc sel live cand)|]. intros [r pr']. unfold settled. cbn [fst].
  eapply triple_bind; [apply close_prepared_triple|]. intros u3. apply triple_ret. intros w [Hi Hm]. split; [done|]. intros Hok. destruct (Hm Hok) as [? Hb].
  split; [done|]. by rewrite Hb.
Qed.

Lemma bump_idle : triple idle bump_epoch (fun _ => idle).
Proof. apply calm_idle. intros a w. split; [|done]. split; try done. by right. Qed.
Lemma guard_idle : triple idle (guard true) (fun _ => idle).
Proof. eapply triple_weaken; [apply (ready_guard (fun _ => True)), framed_true|done|by intros r w []]. Qed.

Lemma publish_triple sn recovery repair : triple idle (Gate.publish Marshal public_of little wan cp mp sn recovery repair) (publishes sn).
Proof.
  unfold Gate.publish. eapply triple_bind; [apply bump_idle|]. intros u0. eapply triple_bind; [apply idle_get|]. intros x.
  eapply (triple_attempt _ _ _ _ (fun _ => idle) (fun _ => idle)).
  - destruct (_ && _); [eapply triple_weaken; [apply idle_check|done|by intros [] ?]|by apply triple_ret].
  - intros u1. apply publish_policy_triple.
  - intros e. eapply triple_bind; [apply guard_idle|]. intros r1. eapply triple_bind; [by apply (emergency_triple (fun _ => True))|]. intros r2.
    eapply triple_bind; [apply doubt_idle|]. intros u2. by apply idle_quit.
Qed.

(** ** Transactions of the handlers *)
Lemma db_serving sn lists live c w d : keeps_users w.(w_db) d -> serving_policy sn lists live c w -> serving_policy sn lists live c (set_db d w).
Proof.
  intros [Hw Hk] [H0' H1' H2' H3' H4' H5' H6' H7' H8' H9']. split; try done. intros u Hu. by apply Hk, H8'.
Qed.
Lemma db_idle F w d : keeps_users w.(w_db) d -> ready F w -> idle (set_db d w).
Proof.
  intros Hk [[Hd [Ha Hor]] Hc Hl _]. split; [|intros Hu; destruct (Hc Hu) as (live & c & Hs); exists live, c; by apply db_serving|done..].
  split; [apply Hk|]. split; [done|]. destruct Hor as [|(sn & lists & live & c & Hs)]; [by left|]. right. exists sn, lists, live, c. by apply db_serving.
Qed.
Lemma db_same w : set_db w.(w_db) w = w.
Proof. by destruct w. Qed.

Definition read_only {A} (m : Tx A) : Prop := forall d, (run m d).2 = d.
Lemma tx_read_triple {A} F (m : Tx A) (G : result A -> World -> Prop) : framed F -> read_only m ->
  (forall w, ready F w -> G (run m w.(w_db)).1 w) -> (forall e w, ready F w -> G (Err e) w) ->
  triple (ready F) (tx m) (fun r => ready (G r)).
Proof.
  intros HF Hm HG He. apply triple_act; [by apply ready_stable|by intros w []|]. intros a w Hw. specialize (HG w Hw). specialize (Hm w.(w_db)).
  destruct Hw as [? ? ? ?]. destruct (an_ok a); [|cbn [fst snd]; split; try done; by apply He].
  destruct (run m _) as [r d]. cbn [fst snd] in *. subst d. rewrite db_same. by split.
Qed.
Lemma tx_read_idle {A} (m : Tx A) : read_only m -> triple idle (tx m) (fun _ => idle).
Proof. intros Hm. eapply triple_weaken; [by apply (tx_read_triple (fun _ => True) m (fun _ _ => True))|done|done]. Qed.
Lemma tx_write_triple {A} F (m : Tx A) : framed F -> (forall w, ready F w -> keeps_users w.(w_db) (run m w.(w_db)).2) ->
  triple (ready F) (tx m) (fun _ => idle).
Proof.
  intros HF Hm. apply triple_act; [by apply ready_stable|by intros w []|]. intros a w Hw. pose proof (Hm w Hw) as Hk.
  destruct (an_ok a); [|by eapply ready_idle]. destruct (run m _) as [r d]. cbn [fst snd] in *. by eapply db_idle.
Qed.
Lemma tx_closed_triple {A} E (m : Tx A) : (forall d, wf d -> step d (run m d).2) -> triple (closed_off E false (fun _ => True)) (tx m) (fun _ => idle).
Proof.
  intros Hm. eapply triple_weaken; [apply (closed_act E false (fun _ => True) _ (fun _ _ => True)); [done|]|done|by intros r w ?%closed_idle]. intros a w Hd Hu _. split; [|done].
  destruct (an_ok a); [|done]. pose proof (step_wf _ _ Hd (Hm _ Hd)) as Hw. destruct (run m _) as [r d]. by split.
Qed.

Lemma read_GetPeer id : read_only (GetPeer id).
Proof. intros d. unfold run, GetPeer. by destruct (peers d !! id). Qed.
Lemma read_settings : read_only settings.
Proof. intros d. unfold run, settings. by destruct (read_rows _ _). Qed.
Lemma read_Snapshot : read_only Snapshot.
Proof.
  intros d. unfold run. destruct (Snapshot d) as [[sn d']|] eqn:E; [|done]. unfold Snapshot in E. inv_tx. rename select (settings _ = _) into Hs. by apply settings_frame in Hs as ->.
Qed.
Lemma read_ValidatePatch p patch : read_only (ValidatePeerPatch p patch).
Proof.
  intros d. unfold run. destruct (ValidatePeerPatch p patch d) as [[u d']|] eqn:E; [|done]. unfold ValidatePeerPatch in E. inv_tx.
  rename select (validatePeerEgress _ _ = _) into Hv. by apply validatePeerEgress_Ok in Hv as [-> _].
Qed.

(** ** Revocation *)
Lemma doubt_closed b : triple (fun w => idle w /\ staged_for b w) (set_uncertain true) (fun _ w => exists E, doubtful E false (fun _ => True) w).
Proof.
  apply triple_act.
  - intros w h Hp [Hr Hs]. split; [by apply ready_stable|by apply staged_for_stable].
  - by intros w [[? _ _ _] _].
  - intros a w [[Hs Hc Hl _] (E & es & Hst & Hes & Hcov)]. exists E. change (doubtful E false (fun _ => True) (doubt w)). split; try done.
    + eapply calm_safe; [apply doubt_calm|done].
    + by apply (aside_staged E w).
Qed.
Definition revoked (r : result unit) (w : World) : Prop :=
  match r with Ok _ => exists E, closed_off E false (fun _ => True) w | Err _ => idle w end.
Lemma close_for_revocation : triple idle (closeForRevocation cp mp) revoked.
Proof.
  assert (Hquit : forall e, triple idle (Ret (Err e)) revoked) by (intros e; by apply triple_ret).
  unfold closeForRevocation. eapply triple_bind; [apply bump_idle|]. intros u0.
  eapply (triple_attempt _ _ _ _ (fun _ => idle) (fun _ => idle)); [eapply triple_weaken; [apply idle_check|done|by intros [] ?]| |intros e; apply Hquit].
  intros [b|]; [|apply Hquit].
  eapply (triple_attempt _ _ _ _ (fun _ w => idle w /\ staged_for b w) (fun _ => idle)); [eapply triple_weaken; [by apply (stage_triple (fun _ => True))|done|]| |intros e; apply Hquit].
  { intros [[]|e] w [Hr Hs]; [split; [done|by apply Hs]|done]. }
  intros u1. eapply triple_bind; [apply doubt_closed|]. intros u2. apply triple_exists. intros E.
  eapply triple_weaken; [by apply (close_triple E false (fun _ => True))|done|]. intros [[]|e] w Hw; [by exists E|done].
Qed.
Lemma reconcile_idle : triple idle (reconcileRevocation Marshal public_of little wan cp mp) (fun _ => idle).
Proof.
  unfold reconcileRevocation. eapply triple_bind; [apply idle_get|]. intros x.
  eapply (triple_attempt _ _ _ _ (fun _ => idle) (fun _ => idle)); [eapply triple_weaken; [apply publish_triple|done|by intros [] w []]| |]; intros; by apply triple_ret.
Qed.

(** ** The handlers *)
#[local] Abbreviation publish := (Gate.publish Marshal public_of little wan cp mp).
#[local] Abbreviation reconcile := (reconcileRevocation Marshal public_of little wan cp mp).
#[local] Abbreviation closing := (closeForRevocation cp mp).

Lemma idle_ret {A} (P : World -> Prop) (a : A) : (forall w, P w -> idle w) -> triple P (Ret a) (fun _ => idle).
Proof. intros HP. by apply triple_ret. Qed.
(** A step that only leaves the gate idle, with the rest of the program. *)
Lemma idle_step {A B} (P : World -> Prop) (p : prog (result A)) (R : A -> World -> Prop) (ok : A -> prog (result B)) :
  triple P p (fun r w => match r with Ok a => R a w | Err _ => idle w end) -> (forall a, triple (R a) (ok a) (fun _ => idle)) ->
  triple P (attempt p ok (fun e => Ret (Err e))) (fun _ => idle).
Proof. intros Hp Hok. eapply triple_attempt; [exact Hp|exact Hok|]. intros e. by apply idle_ret. Qed.
Lemma idle_then {A B} (p : prog (result A)) (ok : A -> prog (result B)) :
  triple idle p (fun _ => idle) -> (forall a, triple idle (ok a) (fun _ => idle)) -> triple idle (attempt p ok (fun e => Ret (Err e))) (fun _ => idle).
Proof. intros Hp. apply idle_step. eapply triple_weaken; [exact Hp|done|by intros [] ?]. Qed.
Lemma publish_idle sn recovery repair : triple idle (publish sn recovery repair) (fun _ => idle).
Proof. eapply triple_weaken; [apply publish_triple|done|by intros r w []]. Qed.

(** A handler that may have to close the entrance before it writes: behind the
    guards every write is allowed, otherwise it must keep the users. *)
Lemma revoking_triple {A B} F revoke (m : Tx A) (rest : A -> prog (result B)) : framed F ->
  (forall d, wf d -> step d (run m d).2) -> (revoke = false -> forall w, ready F w -> keeps_users w.(w_db) (run m w.(w_db)).2) ->
  (forall a, triple idle (rest a) (fun _ => idle)) ->
  triple (ready F) (attempt (if revoke : bool then closing else Ret (Ok tt)) (fun _ => attempt (tx m) rest (fun e => Ret (Err e))) (fun e => Ret (Err e))) (fun _ => idle).
Proof.
  intros HF Hstep Hkeep Hrest. destruct revoke.
  - apply idle_step with (R := fun _ w => exists E, closed_off E false (fun _ => True) w).
    + eapply triple_weaken; [apply close_for_revocation|apply ready_idle|]. by intros [] w.
    + intros u. apply triple_exists. intros E. apply idle_step with (R := fun _ => idle); [|exact Hrest].
      eapply triple_weaken; [by apply (tx_closed_triple E)|done|by intros []].
  - apply idle_step with (R := fun _ => ready F); [by apply triple_ret|]. intros u. apply idle_step with (R := fun _ => idle); [|exact Hrest].
    eapply triple_weaken; [apply (tx_write_triple F); [done|by apply Hkeep]|done|by intros []].
Qed.
Lemma reconcile_if {A} (revoke : bool) (r : result A) : triple idle (attempt (if revoke then reconcile else Ret (Ok tt)) (fun _ => Ret r) (fun e => Ret (Err e))) (fun _ => idle).
Proof.
  apply idle_then; [|intros u; by apply idle_ret]. destruct revoke; [apply reconcile_idle|by apply idle_ret].
Qed.

(** The access that a client had when a handler looked at it. *)
Definition has_bit (id : string) (b : bool) (w : World) : Prop := exists c, access w.(w_db) id = Some (b, c).
Lemma framed_bit id b : framed (has_bit id b).
Proof. intros w w' [[_ _ Ha] _] [c Hc]. exists c. by apply Ha. Qed.
Lemma bit_inv id b w : has_bit id b w -> exists p, peers w.(w_db) !! id = Some p /\ p.(p_enabled) && p.(p_reality) = b.
Proof. intros [c (p & Hp & [= -> _])%access_inv]. by exists p. Qed.
Lemma get_peer_triple id : triple idle (tx (GetPeer id))
  (fun r w => match r with Ok p => ready (has_bit id (p.(p_enabled) && p.(p_reality))) w | Err _ => idle w end).
Proof.
  eapply triple_weaken; [apply (tx_read_triple (fun _ => True) _ (fun r w => forall p, r = Ok p -> has_bit id (p.(p_enabled) && p.(p_reality)) w)); [done|apply read_GetPeer| |done]|done|].
  - intros w _ p Hr. unfold run, GetPeer in Hr. destruct (peers (w_db w) !! id) as [q|] eqn:Hq; [|done]. injection Hr as ->. eexists. by apply access_Some.
  - intros [p|e] w; [apply ready_weaken; auto|apply ready_idle].
Qed.

Lemma PatchPeer_triple newCred newUUID next id patch : newCred <> EmptyString -> id <> EmptyString ->
  triple idle (Gate.PatchPeer Marshal public_of little wan cp mp newCred newUUID next id patch) (fun _ => idle).
Proof.
  intros Hne Hid. unfold Gate.PatchPeer. eapply idle_step; [apply get_peer_triple|]. intros old. set (bit := old.(p_enabled) && old.(p_reality)).
  eapply idle_step with (R := fun _ => ready (has_bit id bit)).
  { eapply triple_weaken; [apply (tx_read_triple (has_bit id bit) _ (fun _ => has_bit id bit)); [apply framed_bit|apply read_ValidatePatch|by intros w []|by intros e w []]|done|].
    intros [] w; [done|apply ready_idle]. }
  intros u. apply revoking_triple; [apply framed_bit|by constructor| |].
  - intros Hr w Hw. destruct (bit_inv _ _ _ (rd_facts _ _ Hw)) as (p & Hp & Hbit). eapply PatchPeer_keeps; [apply Hw|done..|]. rewrite Hbit. unfold bit. intros Hon.
    unfold revokes in Hr. rewrite (andb_comm (p_reality old)), Hon in Hr. cbn in Hr. apply orb_false_iff in Hr as [H1'%bool_decide_eq_false_1 H2'%bool_decide_eq_false_1].
    unfold bit in Hbit; rewrite Hon in Hbit. apply andb_true_iff in Hbit as [He Hre]. destruct (pp_enabled patch) as [[]|], (pp_reality patch) as [[]|]; by rewrite ?He, ?Hre.
  - intros p. eapply (triple_bind _ _ _ (fun _ => idle)); [destruct (decide _); [apply bump_idle|by apply idle_ret]|]. intros v. apply reconcile_if.
Qed.
Lemma DeletePeer_triple id : triple idle (Gate.DeletePeer Marshal public_of little wan cp mp id) (fun _ => idle).
Proof.
  unfold Gate.DeletePeer. eapply idle_step; [apply get_peer_triple|]. intros p. apply revoking_triple; [apply framed_bit|by constructor| |].
  - intros Hr w Hw. destruct (bit_inv _ _ _ (rd_facts _ _ Hw)) as (q & Hq & Hbit). eapply DeletePeer_keeps; [apply Hw|exact Hq|]. by rewrite Hbit, andb_comm.
  - intros e. apply reconcile_if.
Qed.
Lemma RotateReality_triple newUUID id expected : triple idle (Gate.RotateReality Marshal public_of little wan cp mp newUUID id expected) (fun _ => idle).
Proof.
  unfold Gate.RotateReality. apply idle_then; [apply tx_read_idle, read_GetPeer|]. intros old. destruct (decide _); [by apply idle_ret|]. destruct (negb _); [by apply idle_ret|].
  apply (revoking_triple (fun _ => True) true); [done|by constructor|done|]. intros p. apply (reconcile_if true).
Qed.

Definition reality_is (b : bool) (w : World) : Prop := reality_on w.(w_db) = Some b.
Lemma framed_reality b : framed (reality_is b).
Proof. intros w w' [[_ Hr _] _]. apply Hr. Qed.
Lemma settings_triple : triple idle (tx settings) (fun r w => match r with Ok st => ready (reality_is st.(s_reality)) w | Err _ => idle w end).
Proof.
  eapply triple_weaken; [apply (tx_read_triple (fun _ => True) _ (fun r w => forall st, r = Ok st -> reality_is st.(s_reality) w)); [done|apply read_settings| |done]|done|].
  - intros w _ st Hr. unfold reality_is, reality_on. unfold run in Hr. destruct (settings (w_db w)) as [[st' d]|]; [|done]. by injection Hr as ->.
  - intros [p|e] w; [apply ready_weaken; auto|apply ready_idle].
Qed.
Lemma saveSettings_triple dw next : fits next -> triple idle (Gate.saveSettings Marshal public_of little wan cp mp dw next) (fun _ => idle).
Proof.
  intros Hf. unfold Gate.saveSettings. apply triple_lift; [|intros; by apply idle_ret]. intros u _. eapply idle_step; [apply settings_triple|]. intros old.
  apply revoking_triple; [apply framed_reality|by constructor| |].
  - intros Hr w Hw. eapply SaveSettings_keeps; [apply Hw|done|apply Hw|done].
  - intros []. destruct (_ && _); [apply reconcile_idle|by apply idle_ret].
Qed.
Lemma PatchSettings_triple dw merge : (forall st, fits (merge st)) -> triple idle (Gate.PatchSettings Marshal public_of little wan cp mp dw merge) (fun _ => idle).
Proof.
  intros Hf. unfold Gate.PatchSettings. apply idle_then; [apply tx_read_idle, read_settings|]. intros before.
  apply idle_then; [by apply saveSettings_triple|]. intros u. by apply idle_ret.
Qed.
Lemma ApplyCurrent_idle : triple idle (ApplyCurrent Marshal public_of little wan cp mp) (fun _ => idle).
Proof. unfold ApplyCurrent. apply idle_then; [apply tx_read_idle, read_Snapshot|]. intros sn. apply publish_idle. Qed.
Lemma refreshLists_idle : triple idle (refreshLists Marshal public_of little wan cp mp) (fun _ => idle).
Proof. unfold refreshLists. eapply triple_bind; [apply idle_get|]. intros w. destruct (negb _); [by apply idle_ret|apply publish_idle]. Qed.
Lemma applyPools_idle fresh : triple idle (applyPools Marshal public_of little wan cp mp fresh) (fun _ => idle).
Proof. unfold applyPools. eapply triple_bind; [apply idle_get|]. intros w. destruct (negb _); [by apply idle_ret|apply publish_idle]. Qed.
Lemma Pending_idle : triple idle (Pending mp) (fun _ => idle).
Proof.
  unfold Pending. apply idle_then; [apply tx_read_idle, read_Snapshot|]. intros sn. eapply triple_bind; [apply idle_get|]. intros w. cbv zeta.
  destruct (_ || _); [by apply idle_ret|]. apply triple_lift; [|intros; by apply idle_ret]. intros a _. apply triple_lift; [|intros; by apply idle_ret]. intros b _. by apply idle_ret.
Qed.

(** ** The start *)
Definition dubious (w : World) : Prop := w.(w_memory).(me_uncertain) = true.
Lemma framed_dubious : framed dubious.
Proof. intros w w' [_ [_ _ _ Hm _]]. unfold dubious. by rewrite Hm. Qed.
Lemma unit_idle {A} (p : prog (result A)) : triple idle p (fun _ => idle) -> triple idle (unit_result p) (fun _ => idle).
Proof. intros Hp. apply idle_then; [exact Hp|]. intros a. by apply idle_ret. Qed.
Lemma dubious_check {A} (f : Answer -> World -> result A) : triple (ready dubious) (check f) (fun _ => ready dubious).
Proof. apply (ready_check dubious _ (fun _ => dubious)); [apply framed_dubious|by intros a w []]. Qed.

Lemma recover_triple : triple (ready dubious) (recover Marshal public_of little wan cp mp) (fun _ => idle).
Proof.
  unfold recover. eapply (triple_attempt _ _ _ _ (fun _ => ready dubious) (fun _ => ready dubious)); [eapply triple_weaken; [apply dubious_check|done|by intros [] ?]| |].
  2:{ intros e. apply idle_ret, ready_idle. }
  intros [gen|]; [|apply idle_ret, ready_idle]. destruct (_ && _); [apply idle_ret, ready_idle|].
  eapply (triple_bind _ _ _ (fun _ => idle)).
  { apply triple_act; [apply ready_stable, framed_dubious|by intros w []|]. intros a w [Hs Hc Hl Hu].
    assert (Hcalm : calm w (set_memory (set_applied (gn_policy gen) (default ∅ (gn_lists gen)) (w_memory w)) w)) by (split; try done; by left).
    split; [by eapply calm_safe|by eapply calm_certain|done..]. }
  intros u1. eapply (triple_bind _ _ _ (fun _ => idle)).
  { apply calm_idle. intros a w. split; [|done]. split; try done. by right. }
  intros u2. apply unit_idle, publish_idle.
Qed.

(** The saved entrance and the clients are guarded before the interface. *)
Record shielded (w : World) : Prop := {
  sh_ready : ready dubious w; sh_guard : guard_on w; sh_shut : forall c, live_config w c -> shut (w_tables w) c }.
Lemma shielded_stable : stable shielded.
Proof.
  intros w h Hp [Hr Hg Hs]. split; [by apply (ready_stable dubious framed_dubious)|by apply guard_on_happen|by apply live_shut_happen].
Qed.
Lemma shielded_act {X} (op : Answer -> World -> X * World) :
  (forall a w, shielded w -> (op a w).2.(w_host) = w.(w_host) /\ (op a w).2.(w_runtime) = w.(w_runtime) /\ (op a w).2.(w_locked) = w.(w_locked) /\
     (op a w).2.(w_memory) = w.(w_memory) /\ wf (op a w).2.(w_db)) ->
  triple shielded (act op) (fun _ => shielded).
Proof.
  intros Hop. apply triple_act; [apply shielded_stable|by intros w [[] _ _]|]. intros a w Hw. destruct (Hop a w Hw) as (Hh & Hr & Hl & Hm & Hd).
  destruct Hw as [[[_ [Ha _]] _ Hlk Hdub] Hg Hs]. set (w' := (op a w).2) in *.
  assert (Hlive : forall c, live_config w' c -> live_config w c) by (intros c; unfold live_config, Gate.config_data, w_fs; by rewrite Hh, Hr).
  assert (Hg' : guard_on w') by (unfold guard_on, w_tables in *; by rewrite Hh).
  assert (Hs' : forall c, live_config w' c -> shut (w_tables w') c) by (intros c Hc; unfold w_tables; rewrite Hh; by apply Hs, Hlive).
  assert (Hdub' : dubious w') by (unfold dubious; by rewrite Hm).
  split; [|done..]. split; [|by apply uncertain_certain|by rewrite Hl|done]. split; [done|]. split; [|left; split; [by left|done]].
  intros c Hc. unfold w_fs. rewrite Hh. by apply Ha, Hlive.
Qed.

Lemma guardSavedPublic_triple : triple (ready dubious) (guardSavedPublic cp mp)
  (fun r w => ready dubious w /\ (r = Ok tt -> forall c, live_config w c -> shut (w_tables w) c)).
Proof.
  apply triple_act; [apply ready_stable, framed_dubious|by intros w []|]. intros a w [Hs Hc Hl Hu].
  destruct (GuardSavedIngress _ _ _ _) as [r h] eqn:Hg. cbn [fst snd]. pose proof (GuardSavedIngress_effect _ _ Hlong _ _ _ _ Hcp Hcl Hg) as He.
  assert (Hcfg : nd_data <$> fs_nodes (ho_fs h) !! cp = config_data w) by (unfold Gate.config_data, w_fs; by rewrite (se_files _ _ _ _ _ He)).
  assert (Hkeep : forall c, live_config w c -> shut (w_tables w) c -> shut h.(ho_tables) c).
  { intros c Hlc Hsh. destruct Hs as [_ [Ha _]]. destruct (Ha c Hlc) as (es & Hes & Hor).
    destruct (se_tables _ _ _ _ _ He) as [->|(na & m & Hm & Hset)]; [done|].
    destruct Hor as [->|(m' & Hm' & Hcov)]; [by apply empty_shut|]. unfold w_fs in Hm'. rewrite Hm in Hm'. injection Hm' as <-.
    destruct (Read_Ok _ _ _ Hm) as [Hok Hp]. by eapply cover_shuts; [apply manifest_list|..]. }
  split.
  - split; [|by apply host_certain|done|done].
    apply host_safe; [done|intros c _; by apply (allowed_effect (w_host w) h r)|by apply (guard_on_effect (w_host w) h r)|exact Hkeep|done].
  - intros Hok c Hlc. assert (Hlc' : live_config w c) by (revert Hlc; unfold live_config, Gate.config_data, w_fs; cbn; by rewrite Hcfg).
    destruct Hs as [_ [_ [[_ Hse]|(sn & ls & lv & c' & Hsv)]]]; [by apply Hkeep, Hse|].
    assert (Hd : config_data w = Some c) by (destruct Hlc' as [Hrun|[_ Hd]]; [by apply (serving_runs_disk _ _ _ _ _ Hsv)|done]).
    by destruct (se_ok _ _ _ _ _ He Hok c Hd).
Qed.

Lemma start_triple : triple safe (start Marshal public_of little wan cp mp) (fun _ => idle).
Proof.
  unfold start. eapply (triple_bind _ _ _ (fun _ => ready dubious)).
  { apply triple_act; [intros w h; apply safe_happen|done|]. intros a w Hs.
    assert (Hcalm : calm w (set_memory zero_memory (set_locked false w))) by (split; try done; by left).
    split; [by eapply calm_safe|by apply uncertain_certain|done..]. }
  intros u0. assert (Hquit : forall A (P : World -> Prop) e, (forall w, P w -> ready dubious w) -> triple P (Ret (@Err A e)) (fun _ => idle)).
  { intros A P e HP. apply idle_ret. intros w Hw. by eapply ready_idle, HP. }
  eapply (triple_attempt _ _ _ _ (fun _ w => ready dubious w /\ forall c, live_config w c -> shut (w_tables w) c) (fun _ => ready dubious)).
  { eapply triple_weaken; [apply guardSavedPublic_triple|done|]. intros [[]|e] w [Hr Hs]; [split; [done|by apply Hs]|done]. }
  2:{ intros e. by apply Hquit. }
  intros u1. eapply (triple_attempt _ _ _ _ (fun _ => shielded) (fun _ => ready dubious)).
  { apply triple_act.
    - intros w h Hp [Hr Hs]. split; [by apply (ready_stable dubious framed_dubious)|by apply live_shut_happen].
    - by intros w [[] _].
    - intros a w [[Hs Hc Hl Hu] Hsh]. destruct (SetClientGuard _ _ _) as [r T'] eqn:Hg. cbn [fst snd].
      pose proof (SetClientGuard_effect _ _ _ _ _ Hg) as (Hfail & Hon & _ & Hpub).
      assert (Hr : ready dubious (set_tables T' w)) by (split; [by eapply guard_true_safe|by apply host_certain|done..]).
      destruct r as [[]|e]; [|done]. split; [done|by apply Hon|]. intros c Hlc. eapply shut_same; [exact Hpub|by apply Hsh]. }
  2:{ intros e. by apply Hquit. }
  intros u2.
  assert (Hstep : forall A (p : prog (result A)) ok, triple shielded p (fun _ => shielded) -> (forall a, triple shielded (ok a) (fun _ => idle)) ->
    triple shielded (attempt p ok (fun e => Ret (Err e))) (fun _ : result unit => idle)).
  { intros A p ok Hp Hok. eapply (triple_attempt _ _ _ _ (fun _ => shielded) (fun _ => shielded)); [eapply triple_weaken; [exact Hp|done|by intros [] ?]|exact Hok|].
    intros e. apply Hquit. by intros w []. }
  assert (Hwf : forall w, shielded w -> wf w.(w_db)) by (by intros w [[[] _ _ _] _ _]).
  apply Hstep; [apply shielded_act; intros a w Hw; by split_and!; try apply Hwf|]. intros u3. apply Hstep.
  { unfold initialWGSettings. eapply (triple_attempt _ _ _ _ (fun _ => shielded) (fun _ => shielded)).
    - eapply triple_weaken; [apply shielded_act; intros a w Hw; by split_and!; try apply Hwf|done|by intros [] ?].
    - intros [gen|]; [by apply triple_ret|]. apply shielded_act. intros a w Hw. pose proof (read_settings (w_db w)) as Hro.
      destruct (an_ok a); [|by split_and!; try apply Hwf]. destruct (run settings _) as [r d]. cbn [fst snd] in *. subst d. rewrite db_same. by split_and!; try apply Hwf.
    - intros e. by apply triple_ret. }
  intros st. apply Hstep.
  { apply shielded_act. intros a w Hw. unfold setup_wg. destruct (WGConfigFromSettings st); [|by split_and!; try apply Hwf].
    pose proof (EnsureWGServerKey_keeps a.(an_key) _ (Hwf w Hw)) as Hk. destruct (run (EnsureWGServerKey _) _) as [[k|e] d]; [|by split_and!; try apply Hk].
    destruct (an_ok a); by split_and!; try apply Hk. }
  intros u4. eapply (triple_bind _ _ _ (fun _ => shielded)).
  { apply shielded_act. intros a w Hw. by split_and!; try exact (Hwf w Hw). }
  intros u5. eapply triple_weaken; [apply recover_triple|by intros w []|done].
Qed.

(** ** Sessions

    The daemon starts, answers calls and may die at any action; sing-box is
    restarted beside it; the machine may be switched off. *)
Inductive call :=
  | CallApply
  | CallRefresh
  | CallPools (fresh : SnapshotT)
  | CallPatchPeer (newCred newUUID : string) (next : string -> string) (id : string) (patch : PeerPatch)
  | CallDeletePeer (id : string)
  | CallRotate (newUUID id : string) (expected : Z)
  | CallSaveSettings (dw : SaveDraws) (next : Settings)
  | CallPatchSettings (dw : SaveDraws) (merge : Settings -> Settings)
  | CallPending.
Definition perform (c : call) : prog unit :=
  let run {A} (p : prog A) : prog unit := bind p (fun _ => Ret tt) in
  match c with
  | CallApply => run (ApplyCurrent Marshal public_of little wan cp mp)
  | CallRefresh => run (refreshLists Marshal public_of little wan cp mp)
  | CallPools fresh => run (applyPools Marshal public_of little wan cp mp fresh)
  | CallPatchPeer newCred newUUID next id patch => run (Gate.PatchPeer Marshal public_of little wan cp mp newCred newUUID next id patch)
  | CallDeletePeer id => run (Gate.DeletePeer Marshal public_of little wan cp mp id)
  | CallRotate newUUID id expected => run (Gate.RotateReality Marshal public_of little wan cp mp newUUID id expected)
  | CallSaveSettings dw next => run (Gate.saveSettings Marshal public_of little wan cp mp dw next)
  | CallPatchSettings dw merge => run (Gate.PatchSettings Marshal public_of little wan cp mp dw merge)
  | CallPending => run (Pending mp)
  end.
(** Identifiers are not empty, and Go's integers have 64 bits. *)
Definition proper_call (c : call) : Prop :=
  match c with
  | CallPatchPeer newCred _ _ id _ => newCred <> EmptyString /\ id <> EmptyString
  | CallSaveSettings _ next => fits next
  | CallPatchSettings _ merge => forall st, fits (merge st)
  | _ => True
  end.

Inductive life := Alive | Dead.
(** The lock of the manifest falls with the process. *)
Definition die (w : World) : World := set_locked false w.
Definition reboot (dev : device) (w : World) : World :=
  MkWorld w.(w_db) (MkHost (w_fs w) ∅) w.(w_temps) (MkRuntimeState None false) (MkNetwork WgDown dev false None) w.(w_authority) false w.(w_lists) w.(w_memory).

#[local] Abbreviation start := (Gate.start Marshal public_of little wan cp mp).
Inductive session_step : life * World -> life * World -> Prop :=
  | step_call c turns w r rest w' : proper_call c -> proper_turns turns -> exec (perform c) turns w = (Some r, rest, w') ->
      session_step (Alive, w) (Alive, w')
  | step_call_death c turns w rest w' : proper_call c -> proper_turns turns -> exec (perform c) turns w = (None, rest, w') ->
      session_step (Alive, w) (Dead, die w')
  | step_start turns w rest w' : proper_turns turns -> exec start turns w = (Some (Ok tt), rest, w') -> session_step (Dead, w) (Alive, w')
  | step_no_start turns w e rest w' : proper_turns turns -> exec start turns w = (Some (Err e), rest, w') -> session_step (Dead, w) (Dead, die w')
  | step_start_death turns w rest w' : proper_turns turns -> exec start turns w = (None, rest, w') -> session_step (Dead, w) (Dead, die w')
  | step_beside l w h : proper h -> session_step (l, w) (l, happen w h)
  | step_kill w : session_step (Alive, w) (Dead, die w)
  | step_reboot dev w : session_step (Dead, w) (Dead, reboot dev w).

Definition session_inv (s : life * World) : Prop := match s.1 with Alive => idle s.2 | Dead => safe s.2 end.

Lemma perform_idle c : proper_call c -> triple idle (perform c) (fun _ => idle).
Proof.
  intros Hc. assert (Hrun : forall A (p : prog A), triple idle p (fun _ => idle) -> triple idle (bind p (fun _ => Ret tt)) (fun _ => idle)).
  { intros A p Hp. eapply triple_bind; [exact Hp|]. intros a. by apply idle_ret. }
  destruct c; cbn [perform]; apply Hrun.
  - apply ApplyCurrent_idle.
  - apply refreshLists_idle.
  - apply applyPools_idle.
  - destruct Hc. by apply PatchPeer_triple.
  - apply DeletePeer_triple.
  - apply RotateReality_triple.
  - by apply saveSettings_triple.
  - by apply PatchSettings_triple.
  - apply Pending_idle.
Qed.
Lemma die_safe w : safe w -> safe (die w).
Proof. eapply calm_safe, calm_locked. Qed.
Lemma step_inv s s' : session_inv s -> session_step s s' -> session_inv s'.
Proof.
  intros Hi Hs. destruct Hs as [c turns w r rest w' Hc Ht Hx|c turns w rest w' Hc Ht Hx|turns w rest w' Ht Hx|turns w e rest w' Ht Hx|turns w rest w' Ht Hx|l w h Hp|w|dev w];
    unfold session_inv in *; cbn [fst snd] in *.
  - pose proof (perform_idle c Hc turns w Ht Hi) as Hpost. rewrite Hx in Hpost. by destruct Hpost.
  - pose proof (perform_idle c Hc turns w Ht Hi) as Hpost. rewrite Hx in Hpost. by apply die_safe.
  - pose proof (start_triple turns w Ht Hi) as Hpost. rewrite Hx in Hpost. by destruct Hpost.
  - pose proof (start_triple turns w Ht Hi) as Hpost. rewrite Hx in Hpost. destruct Hpost as [_ []]. by apply die_safe.
  - pose proof (start_triple turns w Ht Hi) as Hpost. rewrite Hx in Hpost. by apply die_safe.
  - destruct l; [by apply idle_stable|by apply safe_happen].
  - destruct Hi. by apply die_safe.
  - destruct Hi as [Hd _]. assert (Hno : forall c, ~ live_config (reboot dev w) c) by (intros c [|[? _]]; done).
    split; [done|]. split; [by intros c []%Hno|]. left. split; [by right|by intros c []%Hno].
Qed.
Lemma sessions_inv s s' : session_inv s -> rtc session_step s s' -> session_inv s'.
Proof. intros Hi Hs. induction Hs as [|s1 s2 s3 H12 _ IH]; [done|]. by eapply IH, step_inv. Qed.

(** A machine where nothing of the gateway runs. *)
Definition quiet_machine (w : World) : Prop := wf w.(w_db) /\ w.(w_runtime) = MkRuntimeState None false /\ w.(w_network).(nw_wg) = WgDown.
Lemma quiet_safe w : quiet_machine w -> safe w.
Proof.
  intros (Hd & Hr & Hn). assert (Hno : forall c, ~ live_config w c) by (intros c; unfold live_config; rewrite Hr; by intros [|[? _]]).
  split; [done|]. split; [by intros c []%Hno|]. left. split; [by right|by intros c []%Hno].
Qed.

(** What the gate remembers of a snapshot: everything as it was read, the
    parsed options of a tunnel up to the white space and the escapes of JSON. *)
Definition remembers (sn base : SnapshotT) : Prop :=
  base.(sn_settings) = sn.(sn_settings) /\ base.(sn_rules) = sn.(sn_rules) /\ base.(sn_peers) = sn.(sn_peers) /\
  base.(sn_identity) = sn.(sn_identity) /\ base.(sn_admissions) = sn.(sn_admissions) /\
  Forall2 (fun t t' => copy_raw t.(t_parsed) = Ok t'.(t_parsed) /\
    t' = MkTunnel t.(t_id) t.(t_name) t.(t_type) t.(t_source) t.(t_raw) t'.(t_parsed) t.(t_enabled) t.(t_created) t.(t_pool)
           t.(t_pool_updated) t.(t_builtin) t.(t_country)) sn.(sn_tunnels) base.(sn_tunnels).
Lemma copy_remembers sn base : copy_policy sn = Ok base -> remembers sn base.
Proof.
  intros (ts & Hm & [= <-])%result_bind_Ok. do 5 (split; [done|]). cbn [sn_tunnels].
  revert ts Hm. induction (sn_tunnels sn) as [|t l IH]; intros ts Hm; cbn in Hm; [injection Hm as <-; constructor|].
  apply result_bind_Ok in Hm as (t' & Ht & (ts' & Hl & [= <-])%result_bind_Ok). apply result_bind_Ok in Ht as (p & Hp & [= <-]).
  constructor; [done|by apply IH].
Qed.

(** A program that starts with a reading transaction and answers success. *)
Lemma exec_transaction {A B} (m : Tx A) (p : A -> prog (result B)) turns w r rest w' : read_only m ->
  exec (attempt (tx m) p (fun e => Ret (Err e))) turns w = (Some (Ok r), rest, w') ->
  exists hs a later x, turns = (hs, a) :: later /\ run m (foldl happen w hs).(w_db) = (Ok x, (foldl happen w hs).(w_db)) /\
    exec (p x) later (foldl happen w hs) = (Some (Ok r), rest, w').
Proof.
  intros Hm. unfold attempt, tx, act. destruct turns as [|[hs a] later]; cbn [bind Gate.exec]; [done|]. set (v := foldl happen w hs).
  specialize (Hm v.(w_db)). destruct (an_ok a); [|done]. destruct (run m v.(w_db)) as [[x|e] d] eqn:Hr; [|done]. cbn [snd] in Hm. subst d.
  rewrite db_same. intros Hx. exists hs, a, later, x. by split.
Qed.

(** ** Properties *)

(** C2: from any machine where nothing of the gateway runs, through any calls,
    refusals of the system, restarts of sing-box, deaths of the daemon at any
    action and reboots: the manifest always covers every configuration that
    sing-box runs or may read; and either the guard of the clients is on (or
    there is no interface) and every listener of such a configuration that is
    not private is closed by the kernel, or the machine serves one committed
    policy as a whole: its record on disk, its interface, route and packet
    filter, its configuration, and only users whose access still stands. *)
Theorem gate_never_exposed w0 l w : quiet_machine w0 -> rtc session_step (Dead, w0) (l, w) ->
  (forall c, live_config w c -> allowed mp (w_fs w) c) /\
  (((w_tables w !! ClientGuardTable = Some guard_table \/ w.(w_network).(nw_wg) = WgDown) /\ (forall c, live_config w c -> closed (w_tables w) c)) \/
   exists sn lists live c, serving_policy sn lists live c w).
Proof.
  intros Hq%quiet_safe Hs. assert (Hi : session_inv (l, w)) by (by apply (sessions_inv (Dead, w0))).
  assert (Hsafe : safe w) by (destruct l; [by destruct Hi|done]). destruct Hsafe as (_ & Ha & Hor). split; [exact Ha|].
  destruct Hor as [[Hg Hsh]|Hs']; [left|by right]. split; [exact Hg|]. intros c Hc. by apply shut_closed, Hsh.
Qed.

End spec.
