(* ===== verification/GateRun.v ===== *)
(** * A gateway runs

    A concrete machine on which the theorems of the gate are instantiated: the
    daemon starts, publishes a client with REALITY access, sing-box is restarted
    beside it, and the client is switched off. *)

From Stdlib Require Import Ascii.
From S2P Require Import Prelude GoStd GoJson JsonText Netip Model Db Wf SettingsStore PeersStore RealityStore StoreSpec PoolFilter SingBox Generate GenerateSpec Reality Apply Nft NftExpr Ingress IngressSpec Barrier Lists WgPeers Generation Admission Gate GateSpec.
From S2P Require NftPolicy.
#[local] Open Scope Z_scope.
#[local] Existing Instances ascii_unicode ascii_runes host_platform GenerateSpec.sample_source NftPolicy.merging_sets WgPeers.sample_keys.

Definition gate_settings : Settings :=
  MkSettings true 8443 "www.example.com" "www.example.com" 443 51820 "10.8.0.0/24" "10.8.0.1" "vpn.example.org" 1280 "1.1.1.1" "udp" ""
    (24 * hour) hour [] (2 * minute) "warn".
(** A client with REALITY access, a rule, and the settings of the entrance. *)
Definition gate_db1 : db :=
  (run (CreatePeer "alice" "cred" "uuid" 7 (MkPeer false true "" 0 None "" "Alice" "pub" "priv" "psk" "10.8.0.2" true zero_time)) empty_db).2.
Definition gate_db2 : db :=
  (run (RulesStore.CreateRule "r" (MkRule "" "ads" ActionBlock "" "" 0 true [] ["ads.example"] [] [] ScopeAll [] false)) gate_db1).2.
Definition gate_db : db := (run (SaveSettings (MkDraws (fun _ => "unused") "id-1" "key" "abcd") gate_settings) gate_db2).2.

Lemma gate_db_wf : wf gate_db.
Proof.
  unfold gate_db. apply (step_wf gate_db2); [|apply step_save_settings]. unfold gate_db2. apply (step_wf gate_db1); [|apply step_create_rule].
  unfold gate_db1. apply (step_wf empty_db); [apply wf_empty|by apply step_create_peer].
Qed.

(** The encoder keeps the public entrance. *)
Definition gate_marshal (o : RealityOptions) : result string :=
  Ok (encode (JObj [("inbounds", JArr
    match o.(ro_inbound) with
    | Some i => [JObj [("type", JStr "vless"); ("tag", JStr "reality-in"); ("listen", JStr (AddrString i.(rn_addr)));
                       ("listen_port", JNum (Itoa i.(rn_port))); ("tls", JObj [("enabled", JBool true); ("reality", JObj [("enabled", JBool true)])])]]
    | None => []
    end)]))%string.
Definition gate_public (key : string) : option string := Some ("public-" +:+ key).

Definition fresh_fs : FS := MkFS (delete config_path sample_fs.(fs_nodes)) 0.
Definition gate_world : World :=
  MkWorld gate_db (MkHost fresh_fs ∅) ∅ (MkRuntimeState None false) (MkNetwork WgDown (MkDevice ∅ ∅) false None)
    (MkAuthority None None []) false None zero_memory.

(** Everything works. *)
Definition good : Answer :=
  MkAnswer true true true Written (MkNetlink true true true) all_well (fun _ => MkPass false true (Some "config.json.tmp-1"%string) None true Apply.Accepted)
    (fun _ => true) ["203.0.113.9/24"%string] [] "server-key".
Definition good_turns : list Turn := replicate 60 ([], good).

#[local] Abbreviation gate_start := (start gate_marshal gate_public true "eth0" config_path manifest_path).
#[local] Abbreviation gate_call := (perform gate_marshal gate_public true "eth0" config_path manifest_path).
#[local] Abbreviation gate_exec := (exec config_path manifest_path).
#[local] Abbreviation gate_session := (session_step gate_marshal gate_public true "eth0" config_path manifest_path).
Definition world1 : World := (gate_exec gate_start good_turns gate_world).2.
Definition world2 : World := (gate_exec (gate_call CallApply) good_turns world1).2.

(** The service manager restarts sing-box. *)
Definition beside : list Happening := [ServiceStops; ServiceGuards all_well; ServiceStarts].
Definition world3 : World := foldl (happen config_path manifest_path) world2 beside.

(** The paths of the two files. *)
Lemma paths_ok : (1 < String.length manifest_path)%nat /\ config_path <> manifest_path /\ config_path <> lock_path manifest_path /\ ~ ancestor manifest_path config_path.
Proof.
  split_and!; [vm_compute; lia|discriminate|discriminate|].
  assert (Hroot : forall n, Nat.iter n Dir "/"%string = "/"%string) by (induction n as [|n IH]; [done|]; rewrite Nat.iter_succ_r; exact IH).
  intros [n Hn]. do 4 (destruct n as [|n]; [vm_compute in Hn; discriminate|]).
  assert (E : Nat.iter (S (S (S (S n)))) Dir (Dir manifest_path) = Nat.iter n Dir "/"%string) by (rewrite !Nat.iter_succ_r; reflexivity).
  rewrite E, Hroot in Hn. discriminate.
Qed.
Lemma good_proper : proper_turns good_turns.
Proof. apply Forall_replicate. constructor. Qed.
Lemma gate_quiet : quiet_machine gate_world.
Proof. split; [exact gate_db_wf|by split]. Qed.

Lemma answered {A B C} (x : A * B * C) a : x.1.1 = a -> x = (a, x.1.2, x.2).
Proof. intros <-. by destruct x as [[??]?]. Qed.
Lemma gate_starts : gate_exec gate_start good_turns gate_world = (Some (Ok tt), (gate_exec gate_start good_turns gate_world).1.2, world1).
Proof. unfold world1, world2. apply answered. vm_compute. reflexivity. Qed.
Lemma gate_applies : gate_exec (gate_call CallApply) good_turns world1 = (Some tt, (gate_exec (gate_call CallApply) good_turns world1).1.2, world2).
Proof. unfold world1, world2. apply answered. vm_compute. reflexivity. Qed.
Lemma gate_runs1 : rtc gate_session (Dead, gate_world) (Alive, world1).
Proof. apply rtc_once. eapply step_start; [exact good_proper|exact gate_starts]. Qed.
Lemma gate_runs2 : rtc gate_session (Dead, gate_world) (Alive, world2).
Proof. eapply rtc_r; [exact gate_runs1|]. eapply (step_call _ _ _ _ _ _ CallApply); [exact I|exact good_proper|exact gate_applies]. Qed.

Lemma gate_runs3 : rtc gate_session (Dead, gate_world) (Alive, world3).
Proof.
  unfold world3, beside. cbn [foldl]. do 3 (eapply rtc_r; [|by apply step_beside]). exact gate_runs2.
Qed.

(** The client is switched off: the entrance is closed, the policy published
    without it, and the guards opened again. *)
Definition switch_off : call := CallPatchPeer "cred2" "uuid2" (fun _ => "dead") "alice" (MkPatch None None None (Some false) false None).
Definition world4 : World := (gate_exec (gate_call switch_off) good_turns world3).2.
Lemma gate_switches : gate_exec (gate_call switch_off) good_turns world3 = (Some tt, (gate_exec (gate_call switch_off) good_turns world3).1.2, world4).
Proof. unfold world4. apply answered. vm_compute. reflexivity. Qed.
Lemma gate_runs4 : rtc gate_session (Dead, gate_world) (Alive, world4).
Proof.
  eapply rtc_r; [exact gate_runs3|]. eapply (step_call _ _ _ _ _ _ switch_off); [by split|exact good_proper|exact gate_switches].
Qed.

(** sing-box ran the entrance of the client and runs the configuration without
    it; no barrier is left and the interface is up: the machine serves. *)
Lemma gate_never_exposed_witness :
  world3.(w_runtime).(rt_running) <> world4.(w_runtime).(rt_running) /\ w_tables world4 !! ClientGuardTable = None /\
  exists sn lists live c, serving_policy gate_marshal true "eth0" config_path sn lists live c world4.
Proof.
  assert (Hn : w_tables world4 !! ClientGuardTable = None) by (vm_compute; reflexivity).
  assert (Hw : match world4.(w_network).(nw_wg) with WgDown => false | _ => true end = true) by (vm_compute; reflexivity).
  assert (Hr : bool_decide (world3.(w_runtime).(rt_running) = world4.(w_runtime).(rt_running)) = false) by (vm_compute; reflexivity).
  split; [exact (bool_decide_eq_false_1 _ Hr)|]. split; [exact Hn|].
  destruct paths_ok as (H1 & H2 & H3 & H4).
  destruct (gate_never_exposed gate_marshal gate_public true "eth0" config_path manifest_path H1 H2 H3 H4 gate_world Alive world4 gate_quiet gate_runs4)
    as [_ [[[Hg|Hg] _]|Hs]]; [rewrite Hn in Hg; discriminate Hg|rewrite Hg in Hw; discriminate Hw|exact Hs].
Defined.

#[local] Abbreviation gate_apply := (ApplyCurrent gate_marshal gate_public true "eth0" config_path manifest_path).
Definition apply_turns : list Turn := (gate_exec gate_apply good_turns world1).1.2.
Definition applied_world : World := (gate_exec gate_apply good_turns world1).2.
Definition apply_report : Report := (MkApplyResult true true, Some 0).
