(* ===== verification/GoText.v ===== *)
(** * Lemmas on the texts of [strings]

    How [Cut], [CutLast], [Split], [Join] and [TrimSpace] act on texts whose
    bytes are known: what the parsers and the writers of links and of
    configuration files share. *)

From Stdlib Require Import Ascii.
From S2P Require Import Prelude GoStd Netip.
#[local] Open Scope Z_scope.

(** ** Bytes of a text *)
Lemma all_bytes_app p a b : all_bytes p (a +:+ b) = all_bytes p a && all_bytes p b.
Proof. induction a as [|c a IH]; [done|]. rewrite append_cons. cbn [all_bytes]. by rewrite IH, andb_assoc. Qed.
Lemma all_bytes_impl (p p' : Z -> bool) s : (forall b, p b = true -> p' b = true) -> all_bytes p s = true -> all_bytes p' s = true.
Proof. intros Hp. induction s as [|c s IH]; [done|]. cbn [all_bytes]. intros [H1%Hp H2%IH]%andb_true_iff. by rewrite H1, H2. Qed.
(** A text of such bytes does not hold a byte that is none. *)
Lemma all_bytes_lacks p s c : all_bytes p s = true -> p (byte_of c) = false -> ContainsByte s c = false.
Proof.
  unfold ContainsByte. intros Hs Hc. induction s as [|x s IH]; [done|]. cbn [all_bytes Cut] in *.
  apply andb_true_iff in Hs as [Hx Hs]. rewrite decide_False by congruence. specialize (IH Hs). by destruct (Cut s c) as [[]|].
Qed.
Lemma contains_app_eq a b c : ContainsByte (a +:+ b) c = ContainsByte a c || ContainsByte b c.
Proof.
  unfold ContainsByte. induction a as [|x a IH]; [done|]. rewrite append_cons. cbn [Cut]. destruct (decide (x = c)); [done|].
  by destruct (Cut (a +:+ b) c) as [[]|], (Cut a c) as [[]|].
Qed.
Lemma contains_cons_eq x s c : ContainsByte (String x s) c = bool_decide (x = c) || ContainsByte s c.
Proof.
  unfold ContainsByte. cbn [Cut]. case_decide as E; [by rewrite bool_decide_eq_true_2|].
  rewrite bool_decide_eq_false_2 by done. by destruct (Cut s c) as [[]|].
Qed.

(** ** Cutting *)
Lemma Cut_lacks s c : ContainsByte s c = false -> Cut s c = None.
Proof. unfold ContainsByte. by destruct (Cut s c). Qed.
Lemma Cut_app a b c : ContainsByte a c = false -> Cut (a +:+ String c b) c = Some (a, b).
Proof.
  induction a as [|x a IH]; intros Ha; [change (Cut (String c b) c = Some (EmptyString, b)); cbn [Cut]; by rewrite decide_True|]. rewrite contains_cons_eq in Ha.
  apply orb_false_iff in Ha as [Hx Ha]. apply bool_decide_eq_false in Hx. rewrite append_cons. cbn [Cut].
  rewrite decide_False by done. by rewrite IH.
Qed.
Lemma Cut_join s c a b : Cut s c = Some (a, b) -> s = a +:+ String c b /\ ContainsByte a c = false.
Proof.
  revert a. induction s as [|x s IH]; intros a H; [done|]. cbn [Cut] in H. destruct (decide (x = c)) as [->|Hx].
  - by injection H as <- <-.
  - destruct (Cut s c) as [[a' b']|]; [|done]. injection H as <- <-. destruct (IH a' eq_refl) as [-> Ha].
    rewrite append_cons, contains_cons_eq, Ha, bool_decide_eq_false_2; done.
Qed.

Lemma str_rev_app_acc s acc : str_rev_app s acc = str_rev s +:+ acc.
Proof.
  unfold str_rev. revert acc. induction s as [|x s IH]; intros acc; [done|]. cbn. rewrite IH, (IH (String x "")), append_assoc. done.
Qed.
Lemma str_rev_cons x s : str_rev (String x s) = str_rev s +:+ String x EmptyString.
Proof. unfold str_rev at 1. cbn. apply str_rev_app_acc. Qed.
Lemma str_rev_append a b : str_rev (a +:+ b) = str_rev b +:+ str_rev a.
Proof.
  induction a as [|x a IH]; [change (str_rev b = str_rev b +:+ EmptyString); by rewrite append_nil|]. rewrite append_cons, !str_rev_cons, IH. apply append_assoc.
Qed.
Lemma str_rev_involutive s : str_rev (str_rev s) = s.
Proof. induction s as [|x s IH]; [done|]. rewrite str_rev_cons, str_rev_append, IH. done. Qed.
Lemma str_rev_lacks s c : ContainsByte (str_rev s) c = ContainsByte s c.
Proof.
  induction s as [|x s IH]; [done|]. rewrite str_rev_cons, contains_app_eq, IH, !contains_cons_eq.
  change (ContainsByte EmptyString c) with false. destruct (bool_decide _), (ContainsByte s c); done.
Qed.
Lemma append_length a b : String.length (a +:+ b) = (String.length a + String.length b)%nat.
Proof. induction a as [|c a IH]; [done|]. rewrite append_cons. cbn [String.length Nat.add]. by rewrite IH. Qed.
Lemma str_rev_length s : String.length (str_rev s) = String.length s.
Proof. induction s as [|x s IH]; [done|]. rewrite str_rev_cons, append_length, IH. cbn. lia. Qed.

Lemma CutLast_app a b c : ContainsByte b c = false -> CutLast (a +:+ String c b) c = Some (a, b).
Proof.
  intros Hb. unfold CutLast. rewrite str_rev_append, str_rev_cons, append_assoc.
  change (String c "" +:+ str_rev a) with (String c (str_rev a)). rewrite Cut_app by (by rewrite str_rev_lacks).
  by rewrite !str_rev_involutive.
Qed.
Lemma CutLast_lacks s c : ContainsByte s c = false -> CutLast s c = None.
Proof. intros Hs. unfold CutLast. by rewrite Cut_lacks by (by rewrite str_rev_lacks). Qed.
Lemma CutLast_join s c a b : CutLast s c = Some (a, b) -> s = a +:+ String c b /\ ContainsByte b c = false.
Proof.
  unfold CutLast. destruct (Cut (str_rev s) c) as [[x y]|] eqn:E; [|done]. intros [= <- <-]. apply Cut_join in E as [E Hx].
  rewrite str_rev_lacks. split; [|done]. rewrite <- (str_rev_involutive s), E, str_rev_append, str_rev_cons, append_assoc. done.
Qed.

(** ** Splitting *)
Lemma Split_Join_lacks sep l : l <> [] -> Forall (fun s => ContainsByte s sep = false) l ->
  Split (Join l (String sep EmptyString)) sep = l.
Proof.
  induction l as [|x [|y l] IH]; intros Hne Hl; [done| |].
  - apply Forall_cons in Hl as [Hx _]. by apply Split_none.
  - apply Forall_cons in Hl as [Hx Hl]. cbn [Join] in *. change (String sep "" +:+ ?s) with (String sep s).
    rewrite Split_app_sep, Split_none by done. cbn [app]. f_equal. by apply IH.
Qed.
Lemma Split_lacks s sep : Forall (fun x => ContainsByte x sep = false) (Split s sep).
Proof.
  induction s as [|c s IH]; cbn [Split]; [by repeat constructor|]. destruct (decide (c = sep)) as [->|Hc]; [by constructor|].
  destruct (Split s sep) as [|w ws]; inversion IH; subst; constructor; try done.
  - rewrite contains_cons_eq, bool_decide_eq_false_2; done.
  - rewrite contains_cons_eq, bool_decide_eq_false_2; done.
Qed.
Lemma Split_elem_lacks s sep x c : x ∈ Split s sep -> ContainsByte s c = false -> ContainsByte x c = false.
Proof.
  revert x. induction s as [|b s IH]; intros x; cbn [Split]; [by intros ->%list_elem_of_singleton|].
  rewrite contains_cons_eq. intros Hx [Hb Hs]%orb_false_iff. destruct (decide (b = sep)).
  - apply elem_of_cons in Hx as [->|Hx]; [done|by apply IH].
  - destruct (Split s sep) as [|w ws].
    + apply list_elem_of_singleton in Hx as ->. by rewrite contains_cons_eq, Hb.
    + apply elem_of_cons in Hx as [->|Hx]; [rewrite contains_cons_eq, Hb; apply IH; [by left|done]|apply IH; [by right|done]].
Qed.

(** ** Trimming *)
Lemma strip_prefix_app p s : strip_prefix p (p +:+ s) = Some s.
Proof. induction p as [|c p IH]; [done|]. rewrite append_cons. cbn [strip_prefix]. by rewrite decide_True. Qed.
Lemma strip_prefix_Some p s r : strip_prefix p s = Some r -> s = p +:+ r.
Proof.
  revert s. induction p as [|c p IH]; intros [|x s] H; cbn in H; try done; [by injection H as <-|by injection H as <-|].
  destruct (decide _) as [->|]; [|done]. rewrite append_cons. f_equal. by apply IH.
Qed.

(** A text is left alone when it neither begins nor ends with white space. *)
Definition trimmed (s : string) : Prop := strip_any space_runes s = None /\ strip_any (map str_rev space_runes) (str_rev s) = None.
Lemma trim_left_done runes fuel s : strip_any runes s = None -> trim_left_runes runes fuel s = s.
Proof. intros H. destruct fuel; [done|]. cbn. by rewrite H. Qed.
Lemma TrimSpace_trimmed s : trimmed s -> TrimSpace s = s.
Proof. intros [H1 H2]. unfold TrimSpace. rewrite (trim_left_done space_runes _ s H1), (trim_left_done _ _ _ H2). apply str_rev_involutive. Qed.

Lemma strip_any_Some ps s r : strip_any ps s = Some r -> exists p, p ∈ ps /\ s = p +:+ r.
Proof.
  induction ps as [|p ps IH]; [done|]. cbn. destruct (strip_prefix p s) as [x|] eqn:E.
  - intros [= ->]. exists p. split; [by left|by apply strip_prefix_Some].
  - intros (q & Hq & ->)%IH. exists q. split; [by right|done].
Qed.
Lemma strip_any_None ps s : strip_any ps s = None <-> forall p r, p ∈ ps -> s <> p +:+ r.
Proof.
  induction ps as [|p ps IH]; cbn; [split; [by intros _ p r ?%elem_of_nil|done]|]. destruct (strip_prefix p s) as [x|] eqn:E.
  - split; [done|]. intros H. exfalso. by apply (H p x); [left|apply strip_prefix_Some].
  - rewrite IH. split; intros H q r; [|intros Hq; by apply H; right]. intros [->|Hq]%elem_of_cons; [|by apply H].
    intros ->. by rewrite strip_prefix_app in E.
Qed.
Lemma strip_any_prefix ps s t : strip_any ps (s +:+ t) = None -> strip_any ps s = None.
Proof. rewrite !strip_any_None. intros H p r Hp ->. apply (H p (r +:+ t) Hp). apply append_assoc. Qed.
(** With enough fuel nothing is left to strip. *)
Lemma trim_left_complete runes fuel s : (forall p, p ∈ runes -> p <> EmptyString) -> (String.length s <= fuel)%nat ->
  strip_any runes (trim_left_runes runes fuel s) = None /\ exists a, s = a +:+ trim_left_runes runes fuel s.
Proof.
  intros Hne. revert s. induction fuel as [|fuel IH]; intros s Hf; cbn [trim_left_runes].
  - destruct s; [|cbn in Hf; lia]. split; [|by exists EmptyString]. apply strip_any_None. intros p r Hp Heq.
    apply (Hne p Hp). destruct p; [done|discriminate Heq].
  - destruct (strip_any runes s) as [r|] eqn:E; [|split; [done|by exists EmptyString]].
    apply strip_any_Some in E as (p & Hp & ->). rewrite append_length in Hf.
    assert (String.length p <> O) by (pose proof (Hne p Hp); by destruct p).
    destruct (IH r) as [H1 [a Ha]]; [lia|]. split; [done|]. exists (p +:+ a). rewrite Ha at 1. by rewrite append_assoc.
Qed.
Lemma space_runes_nonempty p : p ∈ space_runes -> p <> EmptyString.
Proof.
  assert (H : forallb (fun p => bool_decide (p <> EmptyString)) space_runes = true) by by vm_compute.
  rewrite forallb_forall in H. intros Hp%list_elem_of_In%H. by apply bool_decide_eq_true in Hp.
Qed.
Lemma TrimSpace_ok s : trimmed (TrimSpace s).
Proof.
  unfold TrimSpace. set (s1 := trim_left_runes space_runes (String.length s) s).
  destruct (trim_left_complete space_runes (String.length s) s space_runes_nonempty) as [H1 _]; [lia|]. fold s1 in H1.
  destruct (trim_left_complete (map str_rev space_runes) (String.length s1) (str_rev s1)) as [H2 [a Ha]].
  { intros p (q & -> & Hq%space_runes_nonempty)%list_elem_of_fmap Hp. apply Hq. rewrite <- (str_rev_involutive q), Hp. done. }
  { by rewrite str_rev_length. }
  split; [|by rewrite str_rev_involutive]. apply (strip_any_prefix _ _ (str_rev a)). rewrite <- str_rev_append, <- Ha.
  by rewrite str_rev_involutive.
Qed.
Lemma TrimSpace_idem s : TrimSpace (TrimSpace s) = TrimSpace s.
Proof. apply TrimSpace_trimmed, TrimSpace_ok. Qed.
(** A printing ASCII character is at neither end of a white space. *)
Definition graphic (c : ascii) : Prop := 33 <= byte_of c < 127.
Lemma space_runes_heads : forallb (fun p => match p with
  | String c _ => negb ((33 <=? byte_of c) && (byte_of c <? 127)) | EmptyString => false end) (space_runes ++ map str_rev space_runes) = true.
Proof. by vm_compute. Qed.
Lemma graphic_head c s runes : graphic c -> (forall p, p ∈ runes -> p ∈ space_runes ++ map str_rev space_runes) -> strip_any runes (String c s) = None.
Proof.
  intros Hc Hr. apply strip_any_None. intros p r Hp%Hr. pose proof space_runes_heads as H. rewrite forallb_forall in H.
  apply list_elem_of_In, H in Hp. destruct p as [|x p]; [done|]. intros [= <- _]. unfold graphic in Hc.
  apply negb_true_iff, andb_false_iff in Hp as [?%Z.leb_gt|?%Z.ltb_ge]; lia.
Qed.
Lemma trimmed_graphic c s d : graphic c -> graphic d -> trimmed (String c s +:+ String d EmptyString).
Proof.
  intros Hc Hd. split; [rewrite append_cons|rewrite str_rev_append].
  - apply graphic_head; [done|]. intros p Hp. apply elem_of_app. by left.
  - apply graphic_head; [done|]. intros p Hp. apply elem_of_app. by right.
Qed.
Lemma contains_prefix a b c : ContainsByte (a +:+ b) c = false -> ContainsByte a c = false /\ ContainsByte b c = false.
Proof. rewrite contains_app_eq. apply orb_false_iff. Qed.
(** Trimming only removes. *)
Lemma trim_left_suffix runes fuel s : exists a, s = a +:+ trim_left_runes runes fuel s.
Proof.
  revert s. induction fuel as [|fuel IH]; intros s; [by exists EmptyString|]. cbn [trim_left_runes].
  destruct (strip_any runes s) as [r|] eqn:E; [|by exists EmptyString]. apply strip_any_Some in E as (p & _ & ->).
  destruct (IH r) as [a Ha]. exists (p +:+ a). rewrite Ha at 1. by rewrite append_assoc.
Qed.
Lemma TrimSpace_lacks s c : ContainsByte s c = false -> ContainsByte (TrimSpace s) c = false.
Proof.
  intros Hs. unfold TrimSpace. destruct (trim_left_suffix space_runes (String.length s) s) as [a Ha]. rewrite Ha in Hs.
  apply contains_prefix in Hs as [_ Hs]. revert Hs. generalize (trim_left_runes space_runes (String.length s) s) as t. intros t Ht.
  destruct (trim_left_suffix (map str_rev space_runes) (String.length t) (str_rev t)) as [b Hb].
  rewrite <- str_rev_lacks, Hb in Ht. apply contains_prefix in Ht as [_ Ht]. by rewrite str_rev_lacks.
Qed.
Lemma all_bytes_rev p s : all_bytes p (str_rev s) = all_bytes p s.
Proof. induction s as [|c s IH]; [done|]. rewrite str_rev_cons, all_bytes_app, IH. cbn. by rewrite andb_true_r, andb_comm. Qed.
Definition graphic_byte (b : Z) : bool := (33 <=? b) && (b <? 127).
Lemma TrimSpace_graphic s : all_bytes graphic_byte s = true -> TrimSpace s = s.
Proof.
  intros Hs. apply TrimSpace_trimmed.
  assert (H : forall t runes, all_bytes graphic_byte t = true -> (forall p, p ∈ runes -> p ∈ space_runes ++ map str_rev space_runes) -> strip_any runes t = None).
  { intros [|c t] runes Ht Hr.
    - apply strip_any_None. intros p r Hp%Hr Heq. assert (p = EmptyString) as -> by (destruct p; [done|discriminate Heq]).
      apply elem_of_app in Hp as [Hp|Hp]; [by apply space_runes_nonempty in Hp|].
      apply list_elem_of_fmap in Hp as (q & Hq & Hp%space_runes_nonempty). apply Hp. rewrite <- (str_rev_involutive q), <- Hq. done.
    - cbn [all_bytes] in Ht. apply andb_true_iff in Ht as [Hc _]. apply graphic_head; [|done]. unfold graphic_byte in Hc. unfold graphic.
      apply andb_true_iff in Hc as [?%Z.leb_le ?%Z.ltb_lt]. lia. }
  split; apply H; rewrite ?all_bytes_rev; try done; intros p Hp; apply elem_of_app; auto.
Qed.
Lemma Join_snoc (l : list string) x sep : l <> [] -> Join (l ++ [x]) sep = Join l sep +:+ sep +:+ x.
Proof.
  induction l as [|y [|z l] IH]; intros Hne; [done|done|]. cbn [app Join] in *. rewrite IH by done. by rewrite !append_assoc.
Qed.
(** White space at the end goes. *)
Lemma TrimSpace_newline c s d : graphic c -> graphic d ->
  TrimSpace ((String c s +:+ String d EmptyString) +:+ String "010" EmptyString) = String c s +:+ String d EmptyString.
Proof.
  intros Hc Hd. pose proof (trimmed_graphic c s d Hc Hd) as [H1 H2]. unfold TrimSpace. rewrite (trim_left_done space_runes).
  - set (body := String c s +:+ String d EmptyString) in *. rewrite (str_rev_append body). change (str_rev (String "010" EmptyString)) with (String "010" EmptyString).
    rewrite append_length. cbn [String.length]. rewrite Nat.add_1_r. rewrite append_cons. change (EmptyString +:+ str_rev body) with (str_rev body).
    assert (Hs : forall n, trim_left_runes (map str_rev space_runes) (S n) (String "010" (str_rev body)) = trim_left_runes (map str_rev space_runes) n (str_rev body)) by done.
    rewrite Hs, trim_left_done by done. apply str_rev_involutive.
  - rewrite !append_cons. apply graphic_head; [done|]. intros p Hp. apply elem_of_app. by left.
Qed.
