(* ===== verification/PoolFilterSpec.v ===== *)
(** * What the pool filter admits

    The rules of the filter stated on the link and the title themselves: how a
    link shows its encryption, and what counts as a mention of a country.  The
    split of a pool refuses exactly by these rules. *)

From Stdlib Require Import Ascii.
From S2P Require Import Prelude GoStd Netip GoURL Base64 Model SettingsStore PoolFilter GoText.
#[local] Open Scope Z_scope.

Section spec.
Context `{UC : Unicode} `{RC : RuneClass}.

(** ** Links *)

(** The text up to the first [c] and the text after it. *)
Inductive parts (c : ascii) : string -> string -> string -> Prop :=
  | parts_cut h t : ContainsByte h c = false -> parts c (h +:+ String c t) h t
  | parts_whole s : ContainsByte s c = false -> parts c s s EmptyString.
(** The scheme ends at the first [://]. *)
Definition has_scheme (link scheme rest : string) : Prop :=
  exists raw, TrimSpace link = raw +:+ "://" +:+ rest /\ ToLower raw = scheme /\
    forall a b, TrimSpace link = a +:+ "://" +:+ b -> (String.length raw <= String.length a)%nat.
(** The address and the parameters of a link, without its fragment. *)
Definition link_parts (rest path query : string) : Prop :=
  exists body fragment, parts "#" rest body fragment /\ parts "?" body path query.

(** The first [security] parameter names a layer. *)
Definition secured (rest : string) : Prop :=
  exists path query values before v after, link_parts rest path query /\ ParseQuery query = Some values /\
    values = before ++ ("security"%string, v) :: after /\ "security"%string ∉ before.*1 /\
    ToLower (TrimSpace v) <> EmptyString /\ ToLower (TrimSpace v) <> "none"%string.

(** The credentials of Shadowsocks, as they are or in the first of the four
    alphabets (URL-safe or standard, without or with padding) that decodes
    them. *)
Definition alphabets : list (bool * bool) := [(true, false); (true, true); (false, false); (false, true)].
Definition first_decoded (u text : string) : Prop :=
  exists before x after, alphabets = before ++ x :: after /\
    Forall (fun e => Base64.decode_with e.1 e.2 u = None) before /\ Base64.decode_with x.1 x.2 u = Some text.
Definition credentials (user text : string) : Prop :=
  exists u, PathUnescape user = Some u /\
    (ContainsByte u ":" = true /\ text = u \/ ContainsByte u ":" = false /\ first_decoded u text).
(** A method of the runtime and one or two passwords. *)
Definition ss_encrypted (rest : string) : Prop :=
  exists path query user host text method passwords, link_parts rest path query /\ is_Some (ParseQuery query) /\
    path = user +:+ String "@" host /\ ContainsByte host "@" = false /\ credentials user text /\
    text = Join (method :: passwords) ":" /\ Forall (fun f => f <> EmptyString /\ ContainsByte f ":" = false) (method :: passwords) /\
    (length passwords = 1%nat \/ length passwords = 2%nat) /\ method ∈ shadowsocks_methods.

(** No encryption that could be verified; links of other schemes are not
    judged. *)
Definition unverified (link : string) : Prop :=
  exists scheme rest, has_scheme link scheme rest /\
    (scheme = "ss"%string /\ ~ ss_encrypted rest \/ (scheme = "vless"%string \/ scheme = "trojan"%string) /\ ~ secured rest).

(** ** Titles *)
(** An occurrence between the ends of the text or runes that are neither
    letters nor digits. *)
Definition word_in (text word : string) : Prop :=
  word <> EmptyString /\ exists before after, text = before +:+ word +:+ after /\
    (before = EmptyString \/ isWordRune (decode_last_rune (rev (String.list_ascii_of_string before))) = false) /\
    (after = EmptyString \/ isWordRune (decode_rune after).1 = false).
(** A flag is two regional indicators that stand at an even place of the
    indicators before them. *)
Definition paired (l : list Z) : Prop :=
  exists l0 run, l = l0 ++ run /\ Forall (fun z => is_Some (regional z)) run /\ Nat.even (length run) = true /\
    forall z, last l0 = Some z -> regional z = None.
Definition flag_in (l : list Z) (code : string) : Prop :=
  exists l1 a b l2 x y, l = l1 ++ a :: b :: l2 /\ regional a = Some x /\ regional b = Some y /\ code = byte_string [x; y] /\ paired l1.
Definition mentions (title code : string) : Prop :=
  flag_in (runes title) code \/ (exists name, name ∈ poolCountryAliases code /\ word_in (ToLower title) name) \/ word_in title code.
(** The first code of the list that the title mentions. *)
Definition first_mention (countries : list string) (title code : string) : Prop :=
  exists before raw after, countries = before ++ raw :: after /\ code = ToUpper (TrimSpace raw) /\ code <> EmptyString /\
    mentions title code /\ forall c, listed_code before c -> ~ mentions title c.

(** ** Lemmas on the links *)
Lemma CutOr_parts s c h t : CutOr s c = (h, t) <-> parts c s h t.
Proof.
  unfold CutOr. split.
  - destruct (Cut s c) as [[a b]|] eqn:E; intros [= <- <-].
    + apply Cut_join in E as [-> Ha]. by constructor.
    + constructor. unfold ContainsByte. by rewrite E.
  - intros [h' t' Hh|s' Hs]; [by rewrite Cut_app|by rewrite Cut_lacks].
Qed.
Lemma link_parts_cut rest path query : link_parts rest path query <-> CutOr (CutOr rest "#").1 "?" = (path, query).
Proof.
  unfold link_parts. setoid_rewrite <- CutOr_parts. destruct (CutOr rest "#") as [b f]. cbn [fst]. split.
  - by intros (? & ? & [= <- <-] & ?).
  - intros H. by exists b, f.
Qed.

Lemma cut_scheme_None s : cut_scheme s = None -> forall a b, s <> a +:+ "://" +:+ b.
Proof.
  induction s as [|c s IH]; intros Hs a b E; [by destruct a|]. cbn [cut_scheme] in Hs.
  destruct (strip_prefix "://" (String c s)) eqn:Hp; [done|]. destruct a as [|x a].
  - change (String c s = "://" +:+ b) in E. by rewrite E, strip_prefix_app in Hp.
  - rewrite append_cons in E. injection E as -> E. destruct (cut_scheme s) as [[]|]; [done|]. by apply (IH eq_refl a b).
Qed.
Lemma cut_scheme_Some s raw rest : cut_scheme s = Some (raw, rest) <->
  s = raw +:+ "://" +:+ rest /\ forall a b, s = a +:+ "://" +:+ b -> (String.length raw <= String.length a)%nat.
Proof.
  revert raw. induction s as [|c s IH]; intros raw; [split; [done|by intros [E _]; destruct raw]|]. cbn [cut_scheme].
  destruct (strip_prefix "://" (String c s)) as [r|] eqn:Hp.
  - apply strip_prefix_Some in Hp as Hs. split.
    + intros [= <- <-]. split; [exact Hs|]. intros a b _. cbn. lia.
    + intros [E Hm]. specialize (Hm EmptyString r Hs). destruct raw as [|x raw]; [|cbn in Hm; lia].
      change (String c s = "://" +:+ rest) in E. rewrite E, strip_prefix_app in Hp. by injection Hp as ->.
  - assert (Hno : forall b, String c s <> "://" +:+ b) by (intros b E; by rewrite E, strip_prefix_app in Hp).
    destruct raw as [|x raw].
    { split; [|intros [E _]; by destruct (Hno rest)]. by destruct (cut_scheme s) as [[]|]. }
    transitivity (c = x /\ cut_scheme s = Some (raw, rest)).
    { destruct (cut_scheme s) as [[]|]; cbn; split; [by intros [= -> -> ->]|by intros [-> [= -> ->]]|done|by intros [_ ?]]. }
    rewrite IH. split.
    + intros (<- & -> & Hm). split; [done|]. intros [|y a] b E; [by destruct (Hno b)|]. rewrite append_cons in E. injection E as _ E.
      cbn [String.length]. specialize (Hm a b E). lia.
    + intros [E Hm]. rewrite append_cons in E. injection E as -> ->. split; [done|]. split; [done|]. intros a b E.
      assert (Hle : (String.length (String x raw) <= String.length (String x a))%nat); [|cbn in Hle; lia].
      apply (Hm (String x a) b). exact (f_equal (String x) E).
Qed.
Lemma has_scheme_cut link scheme rest : has_scheme link scheme rest <->
  exists raw, cut_scheme (TrimSpace link) = Some (raw, rest) /\ ToLower raw = scheme.
Proof. unfold has_scheme. setoid_rewrite cut_scheme_Some. naive_solver. Qed.

Lemma query_get_first key l : query_get key l <> EmptyString -> exists before after, l = before ++ (key, query_get key l) :: after /\ key ∉ before.*1.
Proof.
  unfold query_get. destruct (list_find _ l) as [[i [k v]]|] eqn:Hf; [|done]. intros _. apply list_find_Some in Hf as (Hi & Hk & Hb). cbn in Hk. subst k.
  exists (take i l), (drop (S i) l). split; [by rewrite take_drop_middle|]. intros ([k v'] & Hk & [j Hj]%list_elem_of_lookup)%list_elem_of_fmap.
  cbn in Hk. subst k. apply lookup_take_Some in Hj as [Hj Hlt]. by apply (Hb j _ Hj Hlt).
Qed.
Lemma query_get_at key v before after : key ∉ before.*1 -> query_get key (before ++ (key, v) :: after) = v.
Proof.
  intros Hn. unfold query_get. rewrite list_find_app_r.
  - cbn [list_find]. by rewrite decide_True.
  - apply list_find_None, Forall_forall. intros p Hp E. apply Hn. rewrite <- E. by apply list_elem_of_fmap_2.
Qed.
Lemma secured_spec rest : secured rest <->
  exists values, ParseQuery (CutOr (CutOr rest "#").1 "?").2 = Some values /\
    ToLower (TrimSpace (query_get "security" values)) ∉ [EmptyString; "none"%string].
Proof.
  unfold secured. setoid_rewrite link_parts_cut. destruct (CutOr (CutOr rest "#").1 "?") as [path query]. cbn [snd]. split.
  - intros (? & ? & values & before & v & after & [= <- <-] & Hv & -> & Hb & H1 & H2). exists (before ++ ("security"%string, v) :: after).
    split; [done|]. rewrite query_get_at by done. rewrite !not_elem_of_cons. by split_and!; [..|apply not_elem_of_nil].
  - intros (values & Hv & Hs). rewrite !not_elem_of_cons in Hs. destruct Hs as (H1 & H2 & _).
    destruct (query_get_first "security" values) as (before & after & Hl & Hb).
    { intros E. rewrite E in H1. apply H1. exact (ToLower_ascii EmptyString eq_refl). }
    exists path, query, values, before, (query_get "security" values), after. by split_and!.
Qed.

Lemma first_decoded_spec u text : first_decoded u text <-> decode_userinfo u = Some text.
Proof.
  unfold first_decoded, decode_userinfo, alphabets. split.
  - intros (before & x & after & E & Hf & Hx).
    destruct before as [|p1 [|p2 [|p3 [|p4 before]]]]; injection E; intros; subst; repeat (apply Forall_cons in Hf as [? Hf]); cbn [fst snd] in *;
      repeat match goal with H : Base64.decode_with _ _ u = _ |- _ => rewrite H; clear H end; try done. by destruct before.
  - intros H. destruct (Base64.decode_with true false u) eqn:E1; [injection H as ->; by exists [], (true, false), [(true, true); (false, false); (false, true)]|].
    destruct (Base64.decode_with true true u) eqn:E2; [injection H as ->; exists [(true, false)], (true, true), [(false, false); (false, true)]; by repeat constructor|].
    destruct (Base64.decode_with false false u) eqn:E3; [injection H as ->; exists [(true, false); (true, true)], (false, false), [(false, true)]; by repeat constructor|].
    exists [(true, false); (true, true); (false, false)], (false, true), []. by repeat constructor.
Qed.
Lemma credentials_spec user text : credentials user text <->
  exists u, PathUnescape user = Some u /\ (if ContainsByte u ":" then Some u else decode_userinfo u) = Some text.
Proof.
  unfold credentials. setoid_rewrite first_decoded_spec. split.
  - intros (u & Hu & [[Hc ->]|[Hc Hd]]); exists u; by rewrite Hc.
  - intros (u & Hu & Hd). exists u. split; [done|]. destruct (ContainsByte u ":"); [left|right]; split; congruence.
Qed.
Lemma Join_Split s sep : Join (Split s sep) (String sep EmptyString) = s.
Proof.
  induction s as [|c s IH]; [done|]. cbn [Split]. destruct (decide (c = sep)) as [->|Hc].
  - destruct (Split s sep) as [|w ws] eqn:E; [by destruct s; cbn in E; repeat case_match|]. cbn [Join] in *. by rewrite IH.
  - destruct (Split s sep) as [|w [|w' ws]] eqn:E; cbn [Join] in *; rewrite ?append_cons, <- ?IH; done.
Qed.
Lemma ss_encrypted_spec rest : ss_encrypted rest <-> poolShadowsocksEncrypted rest = true.
Proof.
  unfold ss_encrypted, poolShadowsocksEncrypted. setoid_rewrite link_parts_cut. setoid_rewrite credentials_spec.
  destruct (CutOr rest "#") as [body fragment]. cbn [fst]. destruct (CutOr body "?") as [path query]. split.
  - intros (? & ? & user & host & text & m & ps & [= <- <-] & [values ->] & -> & Hh & (u & Hu & Hd) & -> & Hf & Hl & Hm).
    rewrite CutLast_app by done. rewrite Hu, Hd. cbv zeta. rewrite Split_Join_lacks; [|done|by eapply Forall_impl; [exact Hf|intros ? []]].
    rewrite !andb_true_iff, !bool_decide_eq_true. split_and!; [cbn [length]; lia| |exact Hm].
    intros Hin. rewrite Forall_forall in Hf. by destruct (Hf _ Hin).
  - destruct (ParseQuery query) as [values|] eqn:Hq; [|done]. destruct (CutLast path "@") as [[user host]|] eqn:Hc; [|done].
    apply CutLast_join in Hc as [-> Hh]. destruct (PathUnescape user) as [u|] eqn:Hu; [|done].
    destruct (if ContainsByte u ":" then Some u else decode_userinfo u) as [text|] eqn:Ht; [|done]. cbv zeta.
    rewrite !andb_true_iff, !bool_decide_eq_true. intros [[Hl Hne] Hm]. pose proof (Join_Split text ":") as Hj. pose proof (Split_lacks text ":") as Hs.
    destruct (Split text ":") as [|m ps]; [cbn in Hl; lia|]. cbn [head default length] in *.
    exists (user +:+ String "@" host), query, user, host, text, m, ps. split_and!; try done; [by exists u| |lia].
    rewrite Forall_forall in *. intros f Hin. split; [by intros ->|by apply Hs].
Qed.
Lemma unverified_spec link : unverified link <-> poolKeyUnencrypted link = true.
Proof.
  unfold unverified, poolKeyUnencrypted. setoid_rewrite has_scheme_cut. setoid_rewrite ss_encrypted_spec. setoid_rewrite secured_spec.
  destruct (cut_scheme (TrimSpace link)) as [[raw rest]|]; [|by split; [intros (? & ? & (? & ? & _) & _)|]]. cbv zeta.
  destruct (decide (ToLower raw = "ss"%string)) as [Hs|Hs].
  - split.
    + intros (scheme & rest' & (raw' & [= <- <-] & <-) & [[_ Hn]|[Hn _]]); [by apply negb_true_iff, not_true_is_false|].
      rewrite Hs in Hn. by destruct Hn.
    + intros Hn%negb_true_iff. exists "ss"%string, rest. split; [by exists raw|]. left. split; [done|]. by rewrite Hn.
  - destruct (CutOr rest "#") as [body fragment] eqn:Eb. destruct (CutOr body "?") as [path query] eqn:Eq.
    destruct (decide (ToLower raw = "vless"%string \/ ToLower raw = "trojan"%string)) as [Ht|Ht].
    + transitivity (~ exists values, ParseQuery query = Some values /\ ToLower (TrimSpace (query_get "security" values)) ∉ [EmptyString; "none"%string]).
      * split.
        { intros (scheme & rest' & (raw' & [= <- <-] & <-) & [[Hn _]|[_ Hn]]); [done|]. rewrite Eb in Hn. cbn [fst] in Hn. by rewrite Eq in Hn. }
        { intros Hn. exists (ToLower raw), rest. split; [by exists raw|]. right. split; [done|]. rewrite Eb. cbn [fst]. by rewrite Eq. }
      * destruct (ParseQuery query) as [values|]; [|split; [done|by intros _ (? & ? & _)]]. rewrite bool_decide_eq_true. split.
        { intros Hn. apply dec_stable. intros Hi. apply Hn. by exists values. }
        { intros Hi (v & [= <-] & Hv). done. }
    + split; [|done]. intros (scheme & rest' & (raw' & [= <- <-] & <-) & [[Hn _]|[Hn _]]); done.
Qed.

(** ** Lemmas on the titles *)
Lemma boundary_before b : boundaryBefore (rev (String.list_ascii_of_string b)) = true <->
  b = EmptyString \/ isWordRune (decode_last_rune (rev (String.list_ascii_of_string b))) = false.
Proof.
  unfold boundaryBefore. destruct b as [|c b]; [split; [by left|done]|]. destruct (rev (String.list_ascii_of_string (String c b))) as [|x l] eqn:E.
  - cbn in E. by destruct (rev (String.list_ascii_of_string b)).
  - rewrite negb_true_iff. split; [by right|by intros [|]].
Qed.
Lemma boundary_after a : boundaryAfter a = true <-> a = EmptyString \/ isWordRune (decode_rune a).1 = false.
Proof. destruct a; cbn [boundaryAfter]; [split; [by left|done]|]. rewrite negb_true_iff. split; [by right|by intros [|]]. Qed.
Lemma occurs_word_spec back hay word : word <> EmptyString -> occurs_word back hay word = true <->
  exists b a, hay = b +:+ word +:+ a /\ boundaryBefore (rev (String.list_ascii_of_string b) ++ back) = true /\ boundaryAfter a = true.
Proof.
  intros Hne. revert back. induction hay as [|c hay IH]; intros back; cbn [occurs_word].
  { split; [done|]. intros (b & a & E & _). by destruct b, word. }
  rewrite orb_true_iff, IH. split.
  - intros [Hh|(b & a & -> & Hb & Ha)].
    + destruct (strip_prefix word (String c hay)) as [a|] eqn:Hp; [|done]. apply strip_prefix_Some in Hp. apply andb_true_iff in Hh as [Hb Ha].
      exists EmptyString, a. by split_and!.
    + exists (String c b), a. split; [done|]. split; [|done]. cbn. by rewrite <- app_assoc.
  - intros (b & a & E & Hb & Ha). destruct b as [|x b].
    + left. change (String c hay = word +:+ a) in E. rewrite E, strip_prefix_app.
      change (boundaryBefore back = true) in Hb. by rewrite Hb, Ha.
    + right. rewrite append_cons in E. injection E as -> ->. exists b, a. split; [done|]. split; [|done]. cbn in Hb. by rewrite <- app_assoc in Hb.
Qed.
Lemma containsWord_spec text word : containsWord text word = true <-> word_in text word.
Proof.
  unfold containsWord, word_in. case_decide as Hw; [split; [done|by intros []]|]. rewrite occurs_word_spec by done.
  setoid_rewrite app_nil_r. setoid_rewrite boundary_before. setoid_rewrite boundary_after. tauto.
Qed.

Lemma paired_nil : paired [].
Proof. exists [], []. by split_and!. Qed.
(** Two indicators together, or one rune that is no first half, come before. *)
Lemma paired_pair a b l : is_Some (regional a) -> is_Some (regional b) -> paired (a :: b :: l) <-> paired l.
Proof.
  intros Ha Hb. split; intros (l0 & run & E & Hr & Hev & Hl).
  - destruct l0 as [|x [|y l0]].
    + destruct run as [|x [|y run]]; [done|done|]. injection E as -> -> ->. exists [], run. apply Forall_cons in Hr as [_ Hr]. apply Forall_cons in Hr as [_ Hr].
      by split_and!.
    + injection E as -> E. specialize (Hl x eq_refl). rewrite Hl in Ha. by destruct Ha.
    + injection E as -> -> ->. exists l0, run. split_and!; try done. intros z Hz. apply Hl. by destruct l0.
  - subst l. destruct (last l0) as [z|] eqn:Hz.
    + exists (a :: b :: l0), run. split_and!; try done. intros w Hw. apply Hl. rewrite <- Hz. by destruct l0.
    + apply last_None in Hz as ->. exists [], (a :: b :: run). split_and!; try done. by repeat constructor.
Qed.
Lemma paired_cons a l : regional a = None \/ (exists b l', l = b :: l' /\ regional b = None) -> paired (a :: l) <-> paired l.
Proof.
  intros Hab. split; intros (l0 & run & E & Hr & Hev & Hl).
  - destruct l0 as [|x l0].
    + cbn in E. subst run. apply Forall_cons in Hr as [Ha Hr]. destruct Hab as [Hn|(b & l' & -> & Hn)]; [rewrite Hn in Ha; by destruct Ha|].
      apply Forall_cons in Hr as [Hb _]. rewrite Hn in Hb. by destruct Hb.
    + injection E as -> ->. exists l0, run. split_and!; try done. intros z Hz. apply Hl. by destruct l0.
  - subst l. destruct l0 as [|x l0].
    + destruct Hab as [Hn|(b & l' & E & Hn)]; [exists [a], run; split_and!; try done; by intros z [= <-]|].
      cbn in E. subst run. apply Forall_cons in Hr as [Hb _]. rewrite Hn in Hb. by destruct Hb.
    + exists (a :: x :: l0), run. by split_and!.
Qed.
Lemma flag_in_pair a b l x y code : regional a = Some x -> regional b = Some y ->
  flag_in (a :: b :: l) code <-> code = byte_string [x; y] \/ flag_in l code.
Proof.
  intros Ha Hb. assert (Hp : forall k, paired (a :: b :: k) <-> paired k) by (intros k; apply paired_pair; by eexists). split.
  - intros (l1 & a' & b' & l2 & x' & y' & E & Ha' & Hb' & -> & Hl). destruct l1 as [|c [|d l1]].
    + injection E as <- <- _. left. congruence.
    + injection E as <- <- _. exfalso. destruct Hl as ([|z [|w l0]] & run & Er & Hr & Hev & Hl0); [destruct run as [|z [|]]; done| |done].
      injection Er as <- _. specialize (Hl0 a eq_refl). congruence.
    + injection E as <- <- ->. right. exists l1, a', b', l2, x', y'. split_and!; try done. by apply Hp.
  - intros [->|(l1 & a' & b' & l2 & x' & y' & -> & Ha' & Hb' & -> & Hl)].
    + exists [], a, b, l, x, y. split_and!; try done. apply paired_nil.
    + exists (a :: b :: l1), a', b', l2, x', y'. split_and!; try done. by apply Hp.
Qed.
Lemma flag_in_skip a b l code : regional a = None \/ regional b = None -> flag_in (a :: b :: l) code <-> flag_in (b :: l) code.
Proof.
  intros Hn. assert (Hc : forall l1 a' b' l2, b :: l = l1 ++ a' :: b' :: l2 -> is_Some (regional a') -> paired (a :: l1) <-> paired l1).
  { intros l1 a' b' l2 E Ha. apply paired_cons. destruct Hn as [Hn|Hn]; [by left|right]. destruct l1 as [|c l1].
    - injection E as <- _. rewrite Hn in Ha. by destruct Ha.
    - injection E as <- _. by exists b, l1. }
  split; intros (l1 & a' & b' & l2 & x & y & E & Ha & Hb & -> & Hl).
  - destruct l1 as [|c l1].
    + injection E as <- <- _. destruct Hn; congruence.
    + injection E as <- E. exists l1, a', b', l2, x, y. split_and!; try done. eapply Hc; [exact E|by eexists|exact Hl].
  - exists (a :: l1), a', b', l2, x, y. split_and!; try done; [by rewrite E|]. eapply Hc; [exact E|by eexists|exact Hl].
Qed.
Lemma flag_codes_spec l code : code ∈ flag_codes l <-> flag_in l code.
Proof.
  remember (length l) as n eqn:Hlen. revert l Hlen. induction n as [n IH] using lt_wf_ind. intros l ->.
  destruct l as [|a [|b l]].
  - split; [by intros ?%elem_of_nil|]. by intros ([|] & ? & ? & ? & ? & ? & E & _).
  - split; [by intros ?%elem_of_nil|]. by intros ([|? [|]] & ? & ? & ? & ? & ? & E & _).
  - rewrite flag_codes_cons. destruct (regional a) as [x|] eqn:Ha, (regional b) as [y|] eqn:Hb.
    + rewrite (flag_in_pair a b l x y) by done. rewrite elem_of_cons, (IH (length l)); [done|cbn; lia|done].
    + rewrite flag_in_skip by auto. apply (IH (length (b :: l))); [cbn; lia|done].
    + rewrite flag_in_skip by auto. apply (IH (length (b :: l))); [cbn; lia|done].
    + rewrite flag_in_skip by auto. apply (IH (length (b :: l))); [cbn; lia|done].
Qed.
Lemma country_matches_spec title code : country_matches title code = true <-> mentions title code.
Proof.
  unfold country_matches, mentions. rewrite !orb_true_iff, bool_decide_eq_true, existsb_exists, containsWord_spec. unfold poolFlagCountries.
  rewrite flag_codes_spec. setoid_rewrite containsWord_spec. setoid_rewrite <- list_elem_of_In. tauto.
Qed.

Lemma word_in_nil word : ~ word_in EmptyString word.
Proof. intros (Hne & b & a & E & _). by destruct b, word. Qed.
Lemma mentions_nil code : ~ mentions EmptyString code.
Proof.
  intros [(l1 & a & b & l2 & x & y & E & _)|[(name & _ & Hw)|Hw]]; [by destruct l1| |by apply word_in_nil in Hw].
  rewrite (ToLower_ascii EmptyString eq_refl) in Hw. by apply word_in_nil in Hw.
Qed.
(** The loop finds the first mention. *)
Lemma blocked_loop_first title l :
  match blocked_loop title l with
  | EmptyString => forall c, listed_code l c -> ~ mentions title c
  | code => first_mention l title code
  end.
Proof.
  induction l as [|raw l IH]; cbn [blocked_loop]; [by intros c (_ & x & ?%elem_of_nil & _)|]. set (code := ToUpper (TrimSpace raw)).
  assert (Hskip : (code <> EmptyString -> ~ mentions title code) -> match blocked_loop title l with
    | EmptyString => forall c, listed_code (raw :: l) c -> ~ mentions title c | code => first_mention (raw :: l) title code end).
  { intros Hno. assert (Hl : forall k c, listed_code (raw :: k) c -> c = code /\ c <> EmptyString \/ listed_code k c).
    { intros k c (Hc & r & [->|Hr]%elem_of_cons & ->); [by left|right]. split; [done|by exists r]. }
    destruct (blocked_loop title l) as [|x s].
    - intros c [[-> Hc]|Hc]%Hl; [by apply Hno|by apply IH].
    - destruct IH as (before & r & after & -> & Hx & Hne & Hm & Hb). exists (raw :: before), r, after. split_and!; try done.
      intros c [[-> Hc]|Hc]%Hl; [by apply Hno|by apply Hb]. }
  destruct (decide (code = EmptyString)) as [Hc|Hc]; [by apply Hskip|]. destruct (country_matches title code) eqn:Hm.
  - apply country_matches_spec in Hm. assert (Hf : first_mention (raw :: l) title code).
    { exists [], raw, l. split_and!; try done. by intros c (_ & r & ?%elem_of_nil & _). }
    destruct code; [done|exact Hf].
  - apply Hskip. intros _ Hx%country_matches_spec. congruence.
Qed.
Lemma blockedCountry_spec countries title code : code <> EmptyString ->
  blockedCountry countries title = code <-> first_mention countries title code.
Proof.
  intros Hne. assert (Heq : blockedCountry countries title = blocked_loop title countries).
  { unfold blockedCountry. case_decide as Ht; [|done]. subst title. pose proof (blocked_loop_first EmptyString countries) as Hb.
    destruct (blocked_loop _ _); [done|]. destruct Hb as (? & ? & ? & _ & _ & _ & Hm & _). by apply mentions_nil in Hm. }
  rewrite Heq. pose proof (blocked_loop_first title countries) as Hb. split.
  - intros <-. destruct (blocked_loop title countries); [done|exact Hb].
  - intros Hf. assert (Hone : forall c, first_mention countries title c -> c = code).
    { intros c (b1 & r1 & a1 & E1 & -> & Hn1 & Hm1 & Hb1). destruct Hf as (b2 & r2 & a2 & E2 & -> & Hn2 & Hm2 & Hb2). clear Hne Hb.
      rewrite E1 in E2. apply app_eq_inv in E2 as [([|x k] & E & E')|([|x k] & E & E')].
      - by injection E' as <- _.
      - injection E' as <- _. exfalso. apply (Hb1 (ToUpper (TrimSpace r2))); [|done]. split; [done|]. exists r2. split; [rewrite E; set_solver|done].
      - by injection E' as <- _.
      - injection E' as <- _. exfalso. apply (Hb2 (ToUpper (TrimSpace r1))); [|done]. split; [done|]. exists r1. split; [rewrite E; set_solver|done]. }
    destruct (blocked_loop title countries) as [|x s]; [|by apply Hone]. exfalso. destruct Hf as (b & r & a & -> & -> & Hn & Hm & _).
    apply (Hb (ToUpper (TrimSpace r))); [|done]. split; [done|]. exists r. split; [set_solver|done].
Qed.

Lemma Exclusion_spec countries s :
  (forall code, Exclusion countries s = Some (ReasonCountry code) <-> first_mention countries s.(ps_title) code) /\
  (Exclusion countries s = Some ReasonNoEncryption <->
     unverified s.(ps_url) /\ forall code, listed_code countries code -> ~ mentions s.(ps_title) code).
Proof.
  unfold Exclusion. rewrite unverified_spec. set (c := blockedCountry countries (ps_title s)).
  assert (Hnone : c = EmptyString <-> forall code, listed_code countries code -> ~ mentions s.(ps_title) code).
  { split.
    - intros Hc code Hl Hm. pose proof (blocked_loop_first (ps_title s) countries) as Hb. unfold c, blockedCountry in Hc. revert Hc. case_decide as Ht.
      + intros _. rewrite Ht in Hm. by apply mentions_nil in Hm.
      + intros Hc. rewrite Hc in Hb. by apply (Hb code).
    - intros Hno. destruct (decide (c = EmptyString)) as [|Hc]; [done|]. exfalso.
      destruct (proj1 (blockedCountry_spec countries (ps_title s) c Hc) eq_refl) as (b & r & a & -> & Hr & Hne & Hm & _).
      apply (Hno c); [|done]. split; [done|]. exists r. split; [set_solver|done]. }
  rewrite <- Hnone. split.
  - intros code. split.
    + case_decide as Hc; [|by destruct (poolKeyUnencrypted _)]. intros [= <-]. by apply blockedCountry_spec.
    + intros Hf. assert (Hne : code <> EmptyString) by (destruct Hf as (? & ? & ? & _ & _ & ? & _); done).
      apply blockedCountry_spec in Hf; [|done]. fold c in Hf. rewrite Hf. by rewrite decide_True.
  - case_decide as Hc; [split; [done|by intros [_ ?]]|]. destruct (poolKeyUnencrypted _); [by split|split; [done|by intros [? _]]].
Qed.

Lemma excluded_sublist pool countries : sublist (map fst (omap (fun s => pair s <$> Exclusion countries s) pool)) pool.
Proof.
  induction pool as [|s pool IH]; [constructor|]. cbn [omap list_omap]. destruct (Exclusion countries s); cbn [fmap option_fmap option_map map fst]; by constructor.
Qed.
Lemma first_mention_exists countries title code : listed_code countries code -> mentions title code -> exists c, first_mention countries title c.
Proof.
  intros Hl Hm. pose proof (blocked_loop_first title countries) as Hb. destruct (blocked_loop title countries); [|by eexists]. by destruct (Hb code).
Qed.

(** ** Properties *)

(** C21: the filter takes a pool apart into the servers it admits, in their
    order, and the ones it refuses, and loses none.  A server is refused for a
    country exactly when its title mentions a code of the list, by its flag, by
    one of the names of the country as a whole word, or by the code as a whole
    word, and the reason is the first such code.  Otherwise it is refused
    exactly when its link shows no verifiable encryption: a vless or trojan
    link whose first [security] parameter is missing, blank or none, or a
    Shadowsocks link without a method of the runtime and one or two passwords. *)
Theorem SplitPool_correct pool countries :
  let '(keep, excluded) := SplitPool pool countries in
  pool ≡ₚ keep ++ map fst excluded /\ sublist keep pool /\ sublist (map fst excluded) pool /\
  (forall s, s ∈ keep <-> s ∈ pool /\ (forall code, listed_code countries code -> ~ mentions s.(ps_title) code) /\ ~ unverified s.(ps_url)) /\
  (forall s code, (s, ReasonCountry code) ∈ excluded <-> s ∈ pool /\ first_mention countries s.(ps_title) code) /\
  (forall s, (s, ReasonNoEncryption) ∈ excluded <->
     s ∈ pool /\ unverified s.(ps_url) /\ forall code, listed_code countries code -> ~ mentions s.(ps_title) code).
Proof.
  pose proof (split_filter pool countries) as Hperm. destruct (SplitPool pool countries) as [keep excluded] eqn:Hsp. unfold SplitPool in Hsp. injection Hsp as <- <-.
  assert (Hex : forall s e, (s, e) ∈ omap (fun s => pair s <$> Exclusion countries s) pool <-> s ∈ pool /\ Exclusion countries s = Some e).
  { intros s e. rewrite list_elem_of_omap. split.
    - intros (s' & Hin & Hp). apply fmap_Some in Hp as (e' & He & [= -> ->]). done.
    - intros [Hin He]. exists s. by rewrite He. }
  split; [exact Hperm|]. split; [apply sublist_filter|]. split; [apply excluded_sublist|]. split; [|split].
  - intros s. rewrite list_elem_of_filter. destruct (Exclusion_spec countries s) as [Hc Hn]. split.
    + intros [He Hin]. split; [done|]. assert (Hno : forall code, listed_code countries code -> ~ mentions s.(ps_title) code).
      { intros code Hl Hm. destruct (first_mention_exists countries s.(ps_title) code Hl Hm) as [c Hf]. apply Hc in Hf. congruence. }
      split; [done|]. intros Hu. rewrite (proj2 Hn (conj Hu Hno)) in He. done.
    + intros (Hin & Hno & Hu). split; [|done]. destruct (Exclusion countries s) as [[code|]|] eqn:He; [|by destruct (proj1 Hn eq_refl)|done]. exfalso.
      destruct (proj1 (Hc code) eq_refl) as (b & r & a & -> & -> & Hne & Hm & _). apply (Hno (ToUpper (TrimSpace r))); [|done]. split; [done|].
      exists r. split; [set_solver|done].
  - intros s code. rewrite Hex. by rewrite (proj1 (Exclusion_spec countries s) code).
  - intros s. rewrite Hex. by rewrite (proj2 (Exclusion_spec countries s)).
Qed.
End spec.

(** ** Witnesses *)
#[local] Existing Instances ascii_unicode ascii_runes.
Definition naked_server : PoolServer := MkPoolServer "vless://k@h:443?security=None" "" "Frankfurt by X" 10 0.
Definition weak_server : PoolServer := MkPoolServer "ss://plain:secret@h:443" "" "Oslo" 10 0.
Definition good_server : PoolServer := MkPoolServer "vless://k@h:443?security=reality" "" "Frankfurt" 10 0.

Lemma SplitPool_correct_witness :
  SplitPool [flagged_server; naked_server; weak_server; good_server] ["RU"; "BY"]%string =
    ([good_server], [(flagged_server, ReasonCountry "RU"); (naked_server, ReasonNoEncryption); (weak_server, ReasonNoEncryption)]) /\
  mentions flagged_server.(ps_title) "RU" /\ unverified naked_server.(ps_url) /\ unverified weak_server.(ps_url) /\ ~ unverified good_server.(ps_url).
Proof.
  assert (E : SplitPool [flagged_server; naked_server; weak_server; good_server] ["RU"; "BY"]%string =
    ([good_server], [(flagged_server, ReasonCountry "RU"); (naked_server, ReasonNoEncryption); (weak_server, ReasonNoEncryption)])) by (vm_compute; reflexivity).
  split; [exact E|]. pose proof (SplitPool_correct [flagged_server; naked_server; weak_server; good_server] ["RU"; "BY"]%string) as H. rewrite E in H.
  destruct H as (_ & _ & _ & Hk & Hc & Hn). split; [|split; [|split]].
  - destruct (proj1 (Hc flagged_server "RU"%string)) as [_ (b & r & a & _ & _ & _ & Hm & _)]; [by left|exact Hm].
  - apply Hn. right. by left.
  - apply Hn. right. right. by left.
  - apply Hk. by left.
Defined.
