(* ===== verification/LinksSpec.v ===== *)
(** * Links and what they describe

    A writer of proxy links, which percent-encodes everything but letters and
    digits, and its inverse, the parser of [Links]: every outbound the parser
    can produce has a link that is parsed into it. *)

From Stdlib Require Import Ascii DecimalString.
From S2P Require Import Prelude GoStd Netip JsonText GoText GoURL Base64 Model PoolFilter Links.
#[local] Open Scope Z_scope.

(** ** Writing *)
Definition plain_byte (b : Z) : bool := (97 <=? b) && (b <=? 122) || (65 <=? b) && (b <=? 90) || (48 <=? b) && (b <=? 57).
Definition escape_char (c : ascii) : string :=
  if plain_byte (byte_of c) then String c EmptyString
  else String "%" (String (hex_char (byte_of c / 16)) (String (hex_char (byte_of c mod 16)) EmptyString)).
Fixpoint escape_text (s : string) : string :=
  match s with EmptyString => EmptyString | String c s => escape_char c +:+ escape_text s end.

Definition write_param (p : string * string) : string := escape_text p.1 +:+ String "=" (escape_text p.2).
Definition write_query (l : list (string * string)) : string := Join (map write_param l) "&".
Definition write_host (h : string) : string := if ContainsByte h ":" then String "[" (h +:+ String "]" EmptyString) else h.
Definition write_server (u : proxyURL) : string := write_host u.(pu_host) +:+ String ":" u.(pu_port).
Definition write_rest (u : proxyURL) : string :=
  ((escape_text u.(pu_userinfo) +:+ String "@" (write_server u)) +:+ String "?" (write_query u.(pu_query)))
  +:+ String "#" (escape_text u.(pu_fragment)).
Definition write_link (u : proxyURL) : string := u.(pu_scheme) +:+ "://" +:+ write_rest u.

(** What can be written: a scheme in lower case, a host without the marks that
    delimit it, the text of a port. *)
Definition lower_byte (b : Z) : bool := (97 <=? b) && (b <=? 122) || (48 <=? b) && (b <=? 57).
Definition host_byte (b : Z) : bool := negb (bool_decide (b ∈ [10; 35; 47; 63; 64; 91; 93])).
Definition port_byte (b : Z) : bool := (48 <=? b) && (b <=? 57) || bool_decide (b ∈ [44; 45]).
Record url_ok (u : proxyURL) : Prop := {
  uo_scheme : all_bytes lower_byte u.(pu_scheme) = true; uo_scheme_ne : u.(pu_scheme) <> EmptyString;
  uo_host : all_bytes host_byte u.(pu_host) = true; uo_host_ne : u.(pu_host) <> EmptyString;
  uo_port : all_bytes port_byte u.(pu_port) = true
}.

(** ** Reading what was written *)
Definition link_byte (b : Z) : bool := plain_byte b || (b =? 37).
Lemma escape_char_bytes c : all_bytes link_byte (escape_char c) = true.
Proof. by destruct c as [[] [] [] [] [] [] [] []]. Qed.
Lemma escape_bytes s : all_bytes link_byte (escape_text s) = true.
Proof. induction s as [|c s IH]; [done|]. cbn [escape_text]. by rewrite all_bytes_app, escape_char_bytes, IH. Qed.
Lemma escape_lacks s c : link_byte (byte_of c) = false -> ContainsByte (escape_text s) c = false.
Proof. apply all_bytes_lacks, escape_bytes. Qed.

Lemma unescape_char plus c r : GoURL.unescape plus (escape_char c +:+ r) = (x ← GoURL.unescape plus r; Some (String c x)).
Proof.
  destruct c as [[] [] [] [] [] [] [] []];
    match goal with |- context [escape_char ?c] => let e := eval vm_compute in (escape_char c) in change (escape_char c) with e end;
    rewrite !append_cons; change (EmptyString +:+ r) with r; cbn [GoURL.unescape];
    destruct (GoURL.unescape plus r); try (by destruct plus); reflexivity.
Qed.
Lemma unescape_escape plus s : GoURL.unescape plus (escape_text s) = Some s.
Proof. induction s as [|c s IH]; [done|]. cbn [escape_text]. by rewrite unescape_char, IH. Qed.
Lemma unescape_written s : Links.unescape (escape_text s) = s.
Proof. unfold Links.unescape, PathUnescape. by rewrite unescape_escape. Qed.

Lemma query_pair_written p : query_pair (write_param p) = Some [p].
Proof.
  unfold query_pair, write_param. destruct p as [k v]. cbn [fst snd].
  rewrite contains_app_eq, contains_cons_eq, !escape_lacks by done. cbn [bool_decide orb].
  rewrite decide_False by (by destruct (escape_text k)). unfold CutOr. rewrite Cut_app by (by apply escape_lacks).
  unfold QueryUnescape. by rewrite !unescape_escape.
Qed.
Lemma ParseQuery_written l : ParseQuery (write_query l) = Some l.
Proof.
  unfold ParseQuery, write_query. assert (Hm : forall l, mapM query_pair (map write_param l) = Some (map (fun p => [p]) l)).
  { clear l. intros l. induction l as [|p l IH]; [done|]. cbn [map mapM]. by rewrite query_pair_written, IH. }
  destruct l as [|p l]; [done|]. rewrite (Split_Join_lacks "&"); [|done|].
  - rewrite Hm. cbn [mbind option_bind]. f_equal. clear. induction (p :: l) as [|x k IH]; [done|]. cbn. by rewrite IH.
  - apply Forall_forall. intros x (y & -> & _)%list_elem_of_fmap. unfold write_param.
    by rewrite contains_app_eq, contains_cons_eq, !escape_lacks.
Qed.

Lemma host_lacks h c : all_bytes host_byte h = true -> host_byte (byte_of c) = false -> ContainsByte h c = false.
Proof. apply all_bytes_lacks. Qed.
Lemma port_lacks p c : all_bytes port_byte p = true -> port_byte (byte_of c) = false -> ContainsByte p c = false.
Proof. apply all_bytes_lacks. Qed.
Lemma server_lacks u c : url_ok u -> host_byte (byte_of c) = false -> port_byte (byte_of c) = false ->
  c <> ":"%char -> c <> "["%char -> c <> "]"%char -> ContainsByte (write_server u) c = false.
Proof.
  intros [_ _ Hh _ Hp] H1 H2 Hc Ho Hb. unfold write_server, write_host.
  destruct (ContainsByte _ ":"); repeat (rewrite ?contains_app_eq, ?contains_cons_eq, ?(host_lacks _ _ Hh H1), ?(port_lacks _ _ Hp H2)).
  all: by rewrite ?bool_decide_eq_false_2 by done.
Qed.
Lemma splitHostPort_written u : url_ok u -> splitHostPort (write_server u) = Ok (u.(pu_host), u.(pu_port)).
Proof.
  intros [_ _ Hh Hne Hp]. unfold write_server, write_host. destruct (ContainsByte _ ":") eqn:E.
  - rewrite append_cons. cbn [splitHostPort]. rewrite append_assoc.
    change (String "]" EmptyString +:+ ?x) with (String "]" x). rewrite Cut_app by (by eapply host_lacks).
    rewrite decide_False by done. done.
  - assert (Hb : ContainsByte (pu_host u) "[" = false) by (by eapply host_lacks).
    rewrite (surjective_pairing (default _ _)) || idtac.
    destruct (pu_host u) as [|c h]; [done|]. assert (c <> "["%char).
    { rewrite contains_cons_eq in Hb. apply orb_false_iff in Hb as [Hb _]. by apply bool_decide_eq_false in Hb. }
    assert (Hs : splitHostPort (String c h +:+ String ":" (pu_port u)) =
      let '(host, port) := default (String c h +:+ String ":" (pu_port u), EmptyString) (CutLast (String c h +:+ String ":" (pu_port u)) ":") in
      if decide (host = EmptyString) then no_host else Ok (host, port)).
    { rewrite append_cons. unfold splitHostPort. by destruct c as [[] [] [] [] [] [] [] []]. }
    rewrite Hs, CutLast_app by (by eapply port_lacks). cbn [default from_option id]. by rewrite decide_False.
Qed.

Lemma lower_scheme s : all_bytes lower_byte s = true -> all_bytes scheme_byte s = true /\ ToLowerASCII s = s.
Proof.
  induction s as [|c s IH]; [done|]. cbn [all_bytes ToLowerASCII map_string]. intros [Hc Hs]%andb_true_iff.
  destruct (IH Hs) as [H1 H2]. unfold ToLowerASCII in H2. rewrite H1, H2, andb_true_r. revert Hc.
  destruct c as [[] [] [] [] [] [] [] []]; vm_compute; try done; by intros [=].
Qed.
Lemma cut_scheme_app a r : all_bytes scheme_byte a = true -> cut_scheme (a +:+ "://" +:+ r) = Some (a, r).
Proof.
  induction a as [|c a IH]; [done|]. cbn [all_bytes]. intros [Hc Ha]%andb_true_iff. rewrite append_cons. cbn [cut_scheme].
  assert (Hn : strip_prefix "://" (String c (a +:+ "://" +:+ r)) = None).
  { cbn [strip_prefix]. rewrite decide_False; [done|]. by intros <-. }
  by rewrite Hn, IH.
Qed.

Lemma write_query_lacks l c : link_byte (byte_of c) = false -> c <> "="%char -> c <> "&"%char -> ContainsByte (write_query l) c = false.
Proof.
  intros Hc He Ha. unfold write_query.
  assert (Hp : forall p, ContainsByte (write_param p) c = false).
  { intros p. unfold write_param. rewrite contains_app_eq, contains_cons_eq, !escape_lacks by done. by rewrite bool_decide_eq_false_2. }
  induction l as [|p [|q l] IH]; [done|apply Hp|]. cbn [map Join] in *.
  change ("&" +:+ ?x) with (String "&" x). rewrite contains_app_eq, contains_cons_eq, Hp, IH. by rewrite bool_decide_eq_false_2.
Qed.

Lemma splitProxyURL_written u : url_ok u -> splitProxyURL (write_link u) = Ok u.
Proof.
  intros Hu. pose proof Hu as [Hs Hne _ _ _]. destruct (lower_scheme _ Hs) as [Hb Hl].
  assert (Hsch : schemeOf (write_link u) = u.(pu_scheme)).
  { unfold schemeOf, write_link. rewrite cut_scheme_app by done. by rewrite decide_False, Hb by done. }
  unfold splitProxyURL. rewrite Hsch, decide_False by done. unfold write_link. rewrite cut_scheme_app by done. cbv zeta.
  assert (Hserver : forall c, c ∈ ["#"; "?"; "@"; "/"]%char -> ContainsByte (write_server u) c = false).
  { intros c Hc. rewrite !elem_of_cons in Hc. destruct Hc as [->|[->|[->|[->|Hc%elem_of_nil]]]]; [..|done]; by apply server_lacks. }
  unfold write_rest. rewrite Cut_app.
  2: { rewrite !contains_app_eq, !contains_cons_eq, (escape_lacks (pu_userinfo u)), Hserver, write_query_lacks by (done || set_solver). done. }
  unfold CutOr. rewrite Cut_app.
  2: { rewrite contains_app_eq, contains_cons_eq, escape_lacks, Hserver by (done || set_solver). done. }
  rewrite CutLast_app by (apply Hserver; set_solver). rewrite (Cut_lacks (write_server u)) by (apply Hserver; set_solver).
  rewrite ParseQuery_written, splitHostPort_written by done. cbn [mbind result_bind]. rewrite !unescape_written. by destruct u.
Qed.

(** ** What the parser produces *)
Definition port_ok (p : Z) : Prop := 0 < p < 2 ^ 16.
Definition server_ok (sv : ServerOptions) : Prop := sv.(sv_server) <> EmptyString /\ port_ok sv.(sv_port).
Definition no_empty (o : option string) : Prop := o <> Some EmptyString.
(** An element of a list written with commas. *)
Definition item_ok (s : string) : Prop := s <> EmptyString /\ ContainsByte s "," = false /\ TrimSpace s = s.
(** reality needs uTLS; Hysteria2 has no TLS stack of its own to disguise. *)
Record tls_ok (hysteria : bool) (t : OutboundTLS) : Prop := {
  to_alpn : Forall item_ok t.(tls_alpn);
  to_utls : no_empty t.(tls_utls);
  to_key : forall k, t.(tls_reality) = Some k -> k.1 <> EmptyString;
  to_reality : is_Some t.(tls_reality) -> is_Some t.(tls_utls);
  to_hysteria : hysteria = true -> t.(tls_utls) = if t.(tls_reality) then Some "chrome"%string else None
}.
Definition optional_tls (hysteria : bool) (o : option OutboundTLS) : Prop := forall t, o = Some t -> tls_ok hysteria t.
Definition transport_ok (o : option Transport) : Prop :=
  match o with
  | Some (TransportWS _ host early) => no_empty host /\ 0 <= early < 2 ^ 32
  | Some (TransportHTTP _ host) => no_empty host
  | _ => True
  end.
Definition ports_text (s : string) : Prop :=
  exists lo hi, s = lo +:+ ":" +:+ hi /\ is_Some (parse_port lo) /\ is_Some (parse_port hi).
Definition outbound_ok (o : ProxyOptions) : Prop :=
  match o with
  | SOCKSOptions sv version username password =>
      server_ok sv /\ version ∈ ["4"; "4a"; "5"]%string /\ ContainsByte username ":" = false /\
      (version <> "5"%string -> username = EmptyString /\ password = EmptyString)
  | VLESSOptions sv uuid flow packet tls tr =>
      server_ok sv /\ uuid <> EmptyString /\ flow ∈ [EmptyString; "xtls-rprx-vision"%string] /\ no_empty packet /\
      optional_tls false tls /\ transport_ok tr
  | ShadowsocksOptions sv method password =>
      server_ok sv /\ ContainsByte method ":" = false /\ isPlainShadowsocksUserinfo (method +:+ String ":" password) = true
  | TrojanOptions sv password tls tr => server_ok sv /\ password <> EmptyString /\ optional_tls false tls /\ transport_ok tr
  | Hysteria2Options host port ports password obfs up down tls =>
      host <> EmptyString /\ (port_ok port /\ ports = [] \/ port = 0 /\ ports <> [] /\ Forall ports_text ports) /\
      password <> EmptyString /\ (forall k, obfs = Some k -> k.1 <> EmptyString /\ k.2 <> EmptyString) /\
      0 <= up <= max_int /\ 0 <= down <= max_int /\ optional_tls true tls
  end.

Lemma non_empty_ok s : no_empty (non_empty s).
Proof. unfold non_empty, no_empty. case_decide; [done|]. by intros [= ?]. Qed.
Lemma non_empty_Some s x : non_empty s = Some x -> s = x /\ x <> EmptyString.
Proof. unfold non_empty. case_decide; [done|]. by intros [= <-]. Qed.
Lemma ParseUint_bounds s bits n : ParseUint s bits = Some n -> 0 <= n < 2 ^ bits.
Proof.
  unfold ParseUint. destruct (all_bytes _ s) eqn:Hd; [|done]. destruct (option_map _ _) as [v|] eqn:E; cbn [mbind option_bind]; [|done].
  case_decide; [|done]. intros [= <-]. split; [|done].
  destruct (NilZero.int_of_string s) as [[u|u]|] eqn:Ei; cbn in E; [injection E as <-; cbn; apply N2Z.is_nonneg| |done].
  exfalso. destruct s as [|c s]; [done|]. cbn [all_bytes] in Hd. apply andb_true_iff in Hd as [Hc _].
  revert Ei Hc. clear. destruct c as [[] [] [] [] [] [] [] []]; cbn; try done; destruct (NilEmpty.uint_of_string s); done.
Qed.
Lemma parse_port_ok s n : parse_port s = Some n -> port_ok n.
Proof.
  unfold parse_port, port_ok. destruct (ParseUint s 16) as [m|] eqn:E; [|done]. apply ParseUint_bounds in E.
  case_decide; [done|]. intros [= <-]. lia.
Qed.
Lemma server_valid u sv : u.(pu_host) <> EmptyString -> server u = Ok sv -> server_ok sv.
Proof.
  intros Hh. unfold server, serverPort. case_decide; [done|]. destruct (parse_port _) as [n|] eqn:E; [|done].
  intros [= <-]. split; [done|]. by eapply parse_port_ok.
Qed.
Lemma splitComma_ok s : Forall item_ok (splitComma s).
Proof.
  unfold splitComma. case_decide; [constructor|]. apply Forall_forall. intros x [Hx (y & -> & Hy)%list_elem_of_fmap]%list_elem_of_filter.
  split; [done|]. split; [|apply TrimSpace_idem].
  pose proof (Split_lacks s ",") as Hl. rewrite Forall_forall in Hl. apply Hl in Hy. by apply TrimSpace_lacks.
Qed.
Lemma tls_valid u t : tls u = Ok t -> optional_tls (is_hysteria u) t.
Proof.
  unfold tls. cbv zeta.
  generalize (if bool_decide (param u "security" = EmptyString) && is_hysteria u then "tls"%string else param u "security") as security.
  intros security.
  case_decide; [intros [= <-] t' [=]|]. case_decide; [done|]. intros [= <-] t' [= <-].
  split; cbn [tls_alpn tls_utls tls_reality].
  - apply splitComma_ok.
  - pose proof (non_empty_ok (param u "fp")) as Hfp. unfold no_empty in *.
    destruct (non_empty (param u "pbk")), (is_hysteria u), (non_empty (param u "fp")); done.
  - intros k Hk. destruct (non_empty (param u "pbk")) as [pbk|] eqn:E; [|discriminate Hk]. injection Hk as <-. by apply non_empty_Some in E as [_ E].
  - intros [k Hk]. destruct (non_empty (param u "pbk")); [|done]. by destruct (is_hysteria u), (non_empty (param u "fp")).
  - intros ->. by destruct (non_empty (param u "pbk")).
Qed.
Lemma transport_valid u tr : transport u = Ok tr -> transport_ok tr.
Proof.
  unfold transport. cbv zeta. repeat (case_decide; [|try done]); intros; inv_result; try done; cbn [transport_ok]; try apply non_empty_ok.
  split; [apply non_empty_ok|]. destruct (non_empty (param u "ed")); inv_result; [|lia].
  destruct (ParseUint s 32) as [n|] eqn:En; [|done]. inv_result. by apply ParseUint_bounds in En.
Qed.

Lemma splitHostPort_host s host port : splitHostPort s = Ok (host, port) -> host <> EmptyString.
Proof.
  destruct s as [|c s]; [done|]. assert (Hgen : forall x, (let '(h, p) := x : string * string in
    if decide (h = EmptyString) then no_host else Ok (h, p)) = Ok (host, port) -> host <> EmptyString).
  { intros [h p]. case_decide; [done|]. by intros [= <- <-]. }
  destruct (decide (c = "["%char)) as [->|Hc].
  - cbn [splitHostPort]. destruct (Cut s "]") as [[h r]|]; [|done]. case_decide; [done|]. by intros [= <- <-].
  - intros H. apply (Hgen (default (String c s, EmptyString) (CutLast (String c s) ":"))). rewrite <- H.
    unfold splitHostPort. by destruct c as [[] [] [] [] [] [] [] []].
Qed.
Lemma splitProxyURL_host raw u : splitProxyURL raw = Ok u -> u.(pu_host) <> EmptyString /\ u.(pu_scheme) = schemeOf raw.
Proof.
  unfold splitProxyURL. case_decide; [done|]. cbv zeta.
  destruct (match Cut _ "#" with Some _ => _ | None => _ end) as [r1 fragment]. destruct (CutOr r1 "?") as [r2 q].
  destruct (match CutLast r2 "@" with Some _ => _ | None => _ end) as [userinfo r3]. destruct (CutOr r3 "/") as [r4 path].
  destruct (ParseQuery q) as [l|]; [|done]. intros H'. inv_result. destruct x as [host port]. inv_result.
  split; [|done]. by eapply splitHostPort_host.
Qed.

Lemma optionalMbps_range s n : optionalMbps s = Ok n -> 0 <= n <= max_int.
Proof.
  unfold optionalMbps. case_decide; [intros [= <-]; unfold max_int; lia|]. destruct (Atoi s) as [z|] eqn:E; [|done].
  case_decide; [done|]. intros [= <-]. split; [lia|]. revert E. unfold Atoi.
  destruct (match s with String "+" (String "-" _) => _ | _ => _ end) as [v|]; [|done].
  destruct (in_int64 v) eqn:Ei; [|done]. intros [= <-]. unfold in_int64 in Ei. apply andb_true_iff in Ei as [_ Ei%Z.leb_le]. done.
Qed.
Lemma isPlain_cut s a b : isPlainShadowsocksUserinfo s = true -> CutOr s ":" = (a, b) ->
  ContainsByte a ":" = false /\ isPlainShadowsocksUserinfo (a +:+ String ":" b) = true.
Proof.
  unfold CutOr. intros Hp. destruct (Cut s ":") as [[x y]|] eqn:E.
  - intros [= <- <-]. apply Cut_join in E as [<- Hx]. done.
  - exfalso. unfold isPlainShadowsocksUserinfo in Hp. rewrite Split_none in Hp by (unfold ContainsByte; by rewrite E).
    apply andb_true_iff in Hp as [Hp%bool_decide_eq_true _]. destruct Hp as [Hp|Hp]; discriminate Hp.
Qed.
Lemma shadowsocksUserinfo_plain s t : shadowsocksUserinfo s = Ok t -> isPlainShadowsocksUserinfo t = true.
Proof.
  unfold shadowsocksUserinfo. case_decide; [done|]. destruct (isPlainShadowsocksUserinfo s) eqn:E; [by intros [= <-]|].
  destruct (decode_userinfo s) as [d|]; [|done]. destruct (isPlainShadowsocksUserinfo d) eqn:Ed; [|done]. by intros [= <-].
Qed.
Lemma Cut_default_lacks s c : ContainsByte (CutOr s c).1 c = false.
Proof. unfold CutOr. destruct (Cut s c) as [[a b]|] eqn:E; [by apply Cut_join in E as [_ E]|]. unfold ContainsByte. cbn. by rewrite E. Qed.
Lemma port_range_ok item s : port_range item = Ok s -> ports_text s.
Proof.
  unfold port_range. cbv zeta. destruct (default _ _) as [lo hi]. destruct (parse_port lo) eqn:E1; [|done].
  destruct (parse_port hi) eqn:E2; [|done]. intros [= <-]. exists lo, hi. rewrite E1, E2. eauto.
Qed.
Lemma mapM_result_Forall {A B} (f : A -> result B) (P : B -> Prop) l k : (forall x y, f x = Ok y -> P y) -> mapM f l = Ok k -> Forall P k /\ length k = length l.
Proof.
  intros Hf. revert k. induction l as [|x l IH]; intros k H; [injection H as <-; by split; [constructor|]|].
  cbn [mapM] in H. destruct (f x) as [y|] eqn:E; [|done]. cbn [mbind result_bind] in H.
  destruct (mapM f l) as [k'|]; [|done]. injection H as <-. destruct (IH k' eq_refl) as [H2 H3].
  split; [constructor; [by eapply Hf|done]|]. cbn. by rewrite H3.
Qed.

(** Whatever is parsed is well formed. *)
Lemma outbound_valid u o : u.(pu_host) <> EmptyString -> outbound u = Ok o -> outbound_ok o.
Proof.
  intros Hh. unfold outbound.
  case_decide as Hs; [|case_decide as Hs2; [|case_decide as Hs3; [|case_decide as Hs4; [|case_decide as Hs5; [|done]]]]].
  - unfold socksOutbound. intros H'. inv_result. pose proof (server_valid _ _ Hh H) as Hsv.
    destruct (if _ && _ then _ else _) as [name pass] eqn:E. inv_result. split; [done|].
    rewrite !elem_of_cons in Hs. destruct Hs as [Hs|[Hs|[Hs|Hs%elem_of_nil]]]; [..|done]; rewrite Hs in *; cbn in E |- *.
    + injection E as <- <-. split; [set_solver|]. done.
    + injection E as <- <-. split; [set_solver|]. done.
    + split; [set_solver|]. split; [|done]. rewrite bool_decide_eq_true_2 in E by done.
      destruct (bool_decide (pu_userinfo u <> EmptyString)); cbn [andb] in E; [|by injection E as <- <-].
      pose proof (Cut_default_lacks (pu_userinfo u) ":") as Hl. by rewrite E in Hl.
  - unfold vlessOutbound. intros H'. inv_result. pose proof (server_valid _ _ Hh H) as Hsv.
    case_decide; [done|]. case_decide; [done|]. case_decide as Hf; [done|]. inv_result.
    rename select (tls _ = Ok _) into Ht. apply tls_valid in Ht. unfold is_hysteria in Ht. rewrite Hs2 in Ht.
    split; [done|]. split; [done|]. split; [done|]. split; [apply non_empty_ok|]. split; [done|by eapply transport_valid].
  - unfold shadowsocksOutbound. intros H'. inv_result. pose proof (server_valid _ _ Hh H) as Hsv.
    destruct (CutOr _ ":") as [method password] eqn:E. inv_result. rename select (shadowsocksUserinfo _ = Ok _) into Hi. apply shadowsocksUserinfo_plain in Hi.
    destruct (isPlain_cut _ _ _ Hi E). by split.
  - unfold trojanOutbound. intros H'. inv_result. pose proof (server_valid _ _ Hh H) as Hsv.
    case_decide; [done|]. inv_result. rename select (tls _ = Ok _) into Ht. apply tls_valid in Ht. unfold is_hysteria in Ht. rewrite Hs4 in Ht.
    split; [done|]. split; [done|]. split; [done|by eapply transport_valid].
  - unfold hysteria2Outbound. case_decide as Hu; [done|]. intros H'. inv_result. destruct x as [port ports]. inv_result.
    rename select (tls _ = Ok _) into Ht. apply tls_valid in Ht. unfold is_hysteria in Ht. rewrite bool_decide_eq_true_2 in Ht by done.
    split; [done|]. split; [|split; [done|split; [|by repeat split; try (by eapply optionalMbps_range); apply Ht]]].
    + destruct (isMultiPort _); inv_result.
      * right. split; [done|]. destruct (mapM_result_Forall _ ports_text _ _ port_range_ok H) as [Hf Hl]. split; [|done].
        intros ->. destruct (pu_port u) as [|c s]; [done|]. cbn [Split] in Hl. destruct (decide _); [done|]. by destruct (Split s ",").
      * left. split; [|done]. unfold serverPort in H. case_decide; [done|]. destruct (parse_port _) as [n|] eqn:E; inv_result. by eapply parse_port_ok.
    + destruct (non_empty (param u "obfs")) as [a|] eqn:Ea; [|by inv_result]. destruct (non_empty (param u "obfs-password")) as [b|] eqn:Eb; [|done].
      inv_result. apply non_empty_Some in Ea as [_ ?]. apply non_empty_Some in Eb as [_ ?]. by intros k [= <-].
Qed.

(** ** The link of an outbound *)
Definition tls_params (t : option OutboundTLS) : list (string * string) :=
  match t with
  | None => [("security", "none")]
  | Some t => [("security", "tls"); ("sni", t.(tls_server_name)); ("allowInsecure", if t.(tls_insecure) then "1" else "0");
               ("alpn", Join t.(tls_alpn) ","); ("fp", default EmptyString t.(tls_utls));
               ("pbk", from_option fst EmptyString t.(tls_reality)); ("sid", from_option snd EmptyString t.(tls_reality))]
  end%string.
Definition transport_params (t : option Transport) : list (string * string) :=
  match t with
  | None => [("type", "tcp")]
  | Some (TransportWS path host early) => [("type", "ws"); ("path", path); ("host", default EmptyString host); ("ed", Itoa early)]
  | Some (TransportGRPC serviceName) => [("type", "grpc"); ("serviceName", serviceName)]
  | Some (TransportHTTPUpgrade host path) => [("type", "httpupgrade"); ("host", host); ("path", path)]
  | Some (TransportHTTP path host) => [("type", "http"); ("path", path); ("host", default EmptyString host)]
  end%string.
(** A range of sing-box with the dash of a link. *)
Definition dash (c : ascii) : ascii := if decide (c = ":"%char) then "-"%char else c.
Definition link_of (o : ProxyOptions) (name : string) : proxyURL :=
  match o with
  | SOCKSOptions sv version username password =>
      MkURL ("socks" +:+ version) (if decide (username = EmptyString /\ password = EmptyString) then EmptyString else username +:+ String ":" password)
        sv.(sv_server) (Itoa sv.(sv_port)) [] name
  | VLESSOptions sv uuid flow packet tls tr =>
      MkURL "vless" uuid sv.(sv_server) (Itoa sv.(sv_port))
        (("encryption", "none") :: ("flow", flow) :: ("packetEncoding", default EmptyString packet) :: tls_params tls ++ transport_params tr) name
  | ShadowsocksOptions sv method password => MkURL "ss" (method +:+ String ":" password) sv.(sv_server) (Itoa sv.(sv_port)) [] name
  | TrojanOptions sv password tls tr => MkURL "trojan" password sv.(sv_server) (Itoa sv.(sv_port)) (tls_params tls ++ transport_params tr) name
  | Hysteria2Options host port ports password obfs up down tls =>
      MkURL "hysteria2" password host (if decide (ports = []) then Itoa port else Join (map (map_string dash) ports) ",")
        (("obfs", from_option fst EmptyString obfs) :: ("obfs-password", from_option snd EmptyString obfs) ::
         ("upmbps", Itoa up) :: ("downmbps", Itoa down) :: tls_params tls) name
  end%string.
Definition host_of (o : ProxyOptions) : string :=
  match o with
  | SOCKSOptions sv _ _ _ | VLESSOptions sv _ _ _ _ _ | ShadowsocksOptions sv _ _ | TrojanOptions sv _ _ _ => sv.(sv_server)
  | Hysteria2Options host _ _ _ _ _ _ _ => host
  end.

Lemma Itoa_bytes z : 0 <= z -> all_bytes (fun b => (48 <=? b) && (b <=? 57)) (Itoa z) = true /\ Itoa z <> EmptyString.
Proof.
  intros Hz%Itoa_number. unfold plain_number in Hz. destruct (Itoa z); [done|]. split; [|done]. by apply andb_true_iff in Hz as [Hz _].
Qed.
Lemma non_empty_default o : no_empty o -> non_empty (default EmptyString o) = o.
Proof. unfold no_empty, non_empty. destruct o as [s|]; cbn; [|done]. intros Hs. case_decide; [|done]. by subst. Qed.
Lemma splitComma_Join l : Forall item_ok l -> splitComma (Join l ",") = l.
Proof.
  intros Hl. destruct l as [|x l]; [done|]. unfold splitComma. rewrite decide_False.
  - rewrite (Split_Join_lacks ","); [|done|by eapply Forall_impl; [exact Hl|intros ? (_ & ? & _)]].
    induction Hl as [|y k (H1 & H2 & H3) Hk IH]; [done|]. cbn [map]. rewrite filter_cons, H3, decide_True by done. by rewrite IH.
  - apply Forall_cons in Hl as [(Hx & _) _]. destruct x as [|c x]; [done|]. by destruct l.
Qed.
Lemma tls_written u t : optional_tls (is_hysteria u) t ->
  (forall k, k ∈ ["security"; "sni"; "allowInsecure"; "insecure"; "alpn"; "fp"; "pbk"; "sid"]%string -> param u k = query_get k (tls_params t)) ->
  tls u = Ok t.
Proof.
  intros Ht Hp. unfold tls, insecure. rewrite !Hp by set_solver. destruct t as [t|]; [|done].
  destruct (Ht t eq_refl) as [Halpn Hutls Hkey Hreal Hhy]. set (l := tls_params (Some t)).
  change (query_get "security" l) with "tls"%string. change (query_get "sni" l) with (tls_server_name t).
  change (query_get "allowInsecure" l) with (if tls_insecure t then "1" else "0")%string. change (query_get "insecure" l) with EmptyString.
  change (query_get "alpn" l) with (Join (tls_alpn t) ","). change (query_get "fp" l) with (default EmptyString (tls_utls t)).
  change (query_get "pbk" l) with (from_option fst EmptyString (tls_reality t)).
  change (query_get "sid" l) with (from_option snd EmptyString (tls_reality t)). clear l.
  rewrite splitComma_Join, non_empty_default by done. cbv zeta. change (bool_decide ("tls"%string = EmptyString) && is_hysteria u) with false.
  cbv iota. rewrite decide_False by set_solver. rewrite decide_False by set_solver.
  destruct t as [sni insec alpn utls reality]. cbn [tls_insecure tls_utls tls_reality tls_alpn tls_server_name] in *.
  f_equal. f_equal. f_equal.
  - by destruct insec.
  - destruct reality as [[pbk sid]|]; cbn.
    + unfold non_empty. rewrite decide_False by (by apply (Hkey _ eq_refl)). destruct (is_hysteria u); [by rewrite Hhy|].
      destruct utls; [done|]. by destruct Hreal.
    + destruct (is_hysteria u); [by rewrite Hhy|done].
  - destruct reality as [[pbk sid]|]; [|done]. cbn. unfold non_empty. by rewrite decide_False by (by apply (Hkey _ eq_refl)).
Qed.
Lemma transport_written u t : transport_ok t ->
  (forall k, k ∈ ["type"; "path"; "host"; "ed"; "serviceName"]%string -> param u k = query_get k (transport_params t)) -> transport u = Ok t.
Proof.
  intros Ht Hp. unfold transport. rewrite !Hp by set_solver.
  destruct t as [[path host early| | |path host]|]; [|done..| |done]; set (l := transport_params _); cbv zeta.
  - destruct Ht as [Hh He]. change (query_get "type" l) with "ws"%string. rewrite decide_False, decide_True by set_solver.
    change (query_get "ed" l) with (Itoa early). change (query_get "host" l) with (default EmptyString host).
    rewrite non_empty_default by done. unfold non_empty. rewrite decide_False by (apply Itoa_bytes; lia). by rewrite ParseUint_Itoa.
  - change (query_get "type" l) with "http"%string. rewrite decide_False by set_solver. do 3 rewrite decide_False by done.
    rewrite decide_True by done. change (query_get "host" l) with (default EmptyString host). by rewrite non_empty_default.
Qed.

Abbreviation digit_byte := (fun b => (48 <=? b) && (b <=? 57)) (only parsing).
Lemma digit_port b : digit_byte b = true -> port_byte b = true.
Proof. intros Hb. unfold port_byte. by rewrite Hb. Qed.
Lemma port_graphic b : port_byte b = true -> graphic_byte b = true.
Proof.
  unfold port_byte, graphic_byte. intros [[H1%Z.leb_le H2%Z.leb_le]%andb_true_iff|H%bool_decide_eq_true]%orb_true_iff.
  - apply andb_true_iff. split; [apply Z.leb_le|apply Z.ltb_lt]; lia.
  - rewrite !elem_of_cons in H. destruct H as [->|[->|H%elem_of_nil]]; done.
Qed.
Lemma parse_port_digits s : is_Some (parse_port s) -> all_bytes digit_byte s = true /\ s <> EmptyString.
Proof.
  intros [n Hn]. unfold parse_port, ParseUint in Hn. destruct (all_bytes _ s) eqn:E; [|done]. split; [done|]. by intros ->.
Qed.
Lemma map_dash_digits s : all_bytes digit_byte s = true -> map_string dash s = s.
Proof.
  induction s as [|c s IH]; [done|]. cbn [all_bytes map_string]. intros [Hc Hs]%andb_true_iff. rewrite IH by done.
  unfold dash. rewrite decide_False; [done|]. by intros ->.
Qed.
Lemma map_string_append f a b : map_string f (a +:+ b) = map_string f a +:+ map_string f b.
Proof. induction a as [|c a IH]; [done|]. rewrite !append_cons. cbn [map_string]. rewrite IH. done. Qed.
Lemma ports_written s : ports_text s ->
  port_range (map_string dash s) = Ok s /\ all_bytes port_byte (map_string dash s) = true /\
  ContainsByte (map_string dash s) "," = false /\ ContainsByte (map_string dash s) "-" = true.
Proof.
  intros (lo & hi & -> & Hlo & Hhi). destruct (parse_port_digits _ Hlo) as [Hl _], (parse_port_digits _ Hhi) as [Hh _].
  rewrite !map_string_append, (map_dash_digits lo), (map_dash_digits hi) by done. change (map_string dash ":" +:+ hi) with (String "-" hi).
  assert (Hd : all_bytes port_byte (lo +:+ String "-" hi) = true).
  { rewrite all_bytes_app. cbn [all_bytes]. by rewrite !(all_bytes_impl _ _ _ digit_port) by done. }
  split; [|split; [exact Hd|split]].
  - unfold port_range. rewrite TrimSpace_graphic by (eapply all_bytes_impl; [apply port_graphic|exact Hd]). cbv zeta.
    rewrite Cut_app by (by eapply all_bytes_lacks). cbn [default from_option id]. destruct Hlo as [a Ha], Hhi as [b Hb]. by rewrite Ha, Hb.
  - by rewrite contains_app_eq, contains_cons_eq, (all_bytes_lacks _ lo _ Hl), (all_bytes_lacks _ hi _ Hh).
  - rewrite contains_app_eq, contains_cons_eq, bool_decide_eq_true_2 by done. apply orb_true_r.
Qed.
Lemma parseServerPorts_written l : l <> [] -> Forall ports_text l ->
  let text := Join (map (map_string dash) l) "," in
  isMultiPort text = true /\ parseServerPorts text = Ok l /\ all_bytes port_byte text = true.
Proof.
  intros Hne Hl text.
  assert (Hlacks : Forall (fun s => ContainsByte s "," = false) (map (map_string dash) l)).
  { apply Forall_forall. intros x (y & -> & Hy)%list_elem_of_fmap. rewrite Forall_forall in Hl. by apply ports_written, Hl. }
  split; [|split].
  - unfold isMultiPort, text. apply orb_true_iff. right. destruct l as [|x l]; [done|]. apply Forall_cons in Hl as [Hx _].
    apply ports_written in Hx as (_ & _ & _ & Hd). destruct l as [|y l]; [exact Hd|]. cbn [map Join]. by rewrite contains_app_eq, Hd.
  - unfold parseServerPorts, text. rewrite (Split_Join_lacks ",") by (done || by destruct l). clear Hne text Hlacks.
    induction Hl as [|x k Hx Hk IH]; [done|]. apply ports_written in Hx as (Hr & _). cbn [map mapM]. by rewrite Hr, IH.
  - unfold text. clear Hne text Hlacks. induction Hl as [|x k Hx Hk IH]; [done|]. apply ports_written in Hx as (_ & Hb & _).
    destruct k as [|y k]; [exact Hb|]. cbn [map Join] in *. change ("," +:+ ?t) with (String "," t). rewrite all_bytes_app. cbn [all_bytes].
    by rewrite Hb, IH.
Qed.

Lemma server_written u sv : u.(pu_host) = sv.(sv_server) -> u.(pu_port) = Itoa sv.(sv_port) -> server_ok sv -> server u = Ok sv.
Proof.
  intros Hh Hp [_ Ho]. unfold port_ok in Ho. unfold server, serverPort. rewrite Hh, Hp, decide_False by (apply Itoa_bytes; lia).
  unfold parse_port. rewrite ParseUint_Itoa by lia. rewrite decide_False by lia. by destruct sv.
Qed.
Lemma Mbps_written z : 0 <= z <= max_int -> optionalMbps (Itoa z) = Ok z.
Proof.
  intros Hz. unfold optionalMbps. rewrite decide_False by (apply Itoa_bytes; lia). rewrite Atoi_Itoa by (unfold min_int; lia).
  by rewrite decide_False by lia.
Qed.
(** A parameter of one section is not hidden by another section. *)
Ltac each_param := intros k Hk; rewrite !elem_of_cons, elem_of_nil in Hk; unfold param; cbn [link_of pu_query];
  repeat match goal with t : option OutboundTLS |- _ => destruct t end; repeat match goal with t : option Transport |- _ => destruct t as [[]|] end;
  repeat (destruct Hk as [->|Hk]; [reflexivity|]); done.

Lemma outbound_written o name : outbound_ok o -> outbound (link_of o name) = Ok o.
Proof.
  destruct o as [sv version username password|sv uuid flow packet tls tr|sv method password|sv password tls tr|host port ports password obfs up down tls];
    cbn [outbound_ok].
  - intros (Hsv & Hv & Hu & Hold). assert (Hw : socksOutbound (link_of (SOCKSOptions sv version username password) name) = Ok (SOCKSOptions sv version username password)).
    { unfold socksOutbound. rewrite (server_written _ sv) by done. cbn [mbind result_bind link_of pu_scheme pu_userinfo]. rewrite strip_prefix_app. cbn [default from_option id].
      rewrite !elem_of_cons in Hv. destruct Hv as [->|[->|[->|Hv%elem_of_nil]]]; [..|done].
      - by destruct Hold as [-> ->].
      - by destruct Hold as [-> ->].
      - rewrite bool_decide_eq_true_2 by done. cbn [andb]. case_decide as Hd; [by destruct Hd as [-> ->]|].
        rewrite bool_decide_eq_true_2 by (by destruct username). unfold CutOr. by rewrite Cut_app. }
    unfold outbound. rewrite decide_True; [done|]. cbn. rewrite !elem_of_cons in Hv. destruct Hv as [->|[->|[->|Hv%elem_of_nil]]]; set_solver.
  - intros (Hsv & Hu & Hf & Hp & Htls & Htr). unfold outbound. rewrite decide_False, decide_True by (done || set_solver).
    unfold vlessOutbound. rewrite (server_written _ sv) by done. cbn [mbind result_bind]. rewrite decide_False by done.
    rewrite decide_False by (intros Hn; apply Hn; by right; left). rewrite decide_False by (intros Hn; by apply Hn).
    rewrite (tls_written _ tls), (transport_written _ tr) by (done || each_param). cbn [mbind result_bind].
    change (param _ "packetEncoding") with (default EmptyString packet). by rewrite non_empty_default.
  - intros (Hsv & Hm & Hp). unfold outbound. do 2 rewrite decide_False by (done || set_solver). rewrite decide_True by done.
    unfold shadowsocksOutbound. rewrite (server_written _ sv) by done. cbn [mbind result_bind link_of pu_userinfo]. unfold shadowsocksUserinfo.
    rewrite decide_False by (by destruct method). rewrite Hp. cbn [mbind result_bind]. unfold CutOr. by rewrite Cut_app.
  - intros (Hsv & Hu & Htls & Htr). unfold outbound. do 3 rewrite decide_False by (done || set_solver). rewrite decide_True by done.
    unfold trojanOutbound. rewrite (server_written _ sv) by done. cbn [mbind result_bind]. rewrite decide_False by done.
    by rewrite (tls_written _ tls), (transport_written _ tr) by (done || each_param).
  - intros (Hh & Hport & Hpw & Hobfs & Hup & Hdown & Htls). unfold outbound. do 4 rewrite decide_False by (done || set_solver).
    rewrite decide_True by set_solver. unfold hysteria2Outbound. rewrite decide_False by done.
    set (u := link_of _ name). rewrite (tls_written u tls) by (done || (subst u; each_param)).
    change (param u "obfs") with (from_option fst EmptyString obfs). change (param u "obfs-password") with (from_option snd EmptyString obfs).
    change (param u "upmbps") with (Itoa up). change (param u "downmbps") with (Itoa down). rewrite !Mbps_written by done.
    assert (Hports : (if isMultiPort (pu_port u) then ports ← parseServerPorts (pu_port u); Ok (0, ports) else port ← serverPort u; Ok (port, [])) = Ok (port, ports)).
    { subst u. cbn [link_of pu_port]. destruct Hport as [[Hp ->]|(-> & Hne & Hall)].
      - rewrite decide_True by done. destruct (Itoa_bytes port) as [Hd Hn]; [unfold port_ok in Hp; lia|].
        assert (Hm : isMultiPort (Itoa port) = false) by (unfold isMultiPort; by rewrite !(all_bytes_lacks _ _ _ Hd)). rewrite Hm.
        unfold serverPort. cbn [pu_port]. rewrite decide_False by done. unfold parse_port, port_ok in *. rewrite ParseUint_Itoa by lia. by rewrite decide_False by lia.
      - rewrite decide_False by done. destruct (parseServerPorts_written ports Hne Hall) as (Hm & Hs & _). by rewrite Hm, Hs. }
    rewrite Hports. cbn [mbind result_bind]. destruct obfs as [[kind key]|]; [|done]. destruct (Hobfs _ eq_refl) as [Hk1 Hk2]. cbn [from_option fst snd] in *.
    unfold non_empty. rewrite !decide_False by done. done.
Qed.

Lemma link_of_ok o name : outbound_ok o -> all_bytes host_byte (host_of o) = true -> url_ok (link_of o name).
Proof.
  intros Ho Hh. assert (Hport : forall sv, server_ok sv -> all_bytes port_byte (Itoa (sv_port sv)) = true).
  { intros sv [_ Hp]. unfold port_ok in Hp. eapply all_bytes_impl; [apply digit_port|apply Itoa_bytes; lia]. }
  destruct o as [sv version ? ?|sv|sv|sv|host port ports]; cbn [outbound_ok host_of] in *; split; cbn [link_of pu_scheme pu_host pu_port]; try done;
    try (by apply Hport, Ho); try (by apply Ho).
  - destruct Ho as (_ & Hv & _). rewrite !elem_of_cons in Hv. by destruct Hv as [->|[->|[->|Hv%elem_of_nil]]].
  - destruct Ho as (_ & [[Hp ->]|(_ & Hne & Hall)] & _).
    + rewrite decide_True by done. unfold port_ok in Hp. eapply all_bytes_impl; [apply digit_port|apply Itoa_bytes; lia].
    + rewrite decide_False by done. by apply parseServerPorts_written.
Qed.

(** Reading the written link of an outbound gives the outbound and its name. *)
Lemma link_written o name : outbound_ok o -> all_bytes host_byte (host_of o) = true ->
  exists u, splitProxyURL (write_link (link_of o name)) = Ok u /\ outbound u = Ok o /\ u.(pu_fragment) = name /\
    u.(pu_scheme) = schemeOf (write_link (link_of o name)).
Proof.
  intros Ho Hh. pose proof (link_of_ok o name Ho Hh) as Hu. exists (link_of o name). pose proof (splitProxyURL_written _ Hu) as Hs.
  split; [done|]. split; [by apply outbound_written|]. split; [by destruct o|]. by apply splitProxyURL_host in Hs as [_ ?].
Qed.
