(* ===== verification/WgConf.v ===== *)
(** * Configuration files of WireGuard

    [internal/singbox/parse_wireguard.go]: the sections and values of a
    [wg-quick] file, and the endpoint of sing-box it describes. *)

From Stdlib Require Import Ascii.
From S2P Require Import Prelude GoStd Base64 Model Links.
#[local] Open Scope Z_scope.

Section conf.
Context `{Unicode}.

Definition hasInterfaceSection (s : string) : bool :=
  existsb (fun line => bool_decide (ToLowerASCII (TrimSpace line) = "[interface]"%string)) (Split s "010").

(** ** Sections *)
Record iniSection := MkSection { is_name : string; is_values : gmap string string }.
Definition get (key : string) (s : iniSection) : string := default EmptyString (s.(is_values) !! ToLower key).

Definition trim_suffix (suffix s : string) : string :=
  match strip_prefix (str_rev suffix) (str_rev s) with Some r => str_rev r | None => s end.
Definition has_suffix (s suffix : string) : bool := HasPrefix (str_rev s) (str_rev suffix).

(** One line; [sections] is the list so far, its last one first. *)
Definition ini_line (sections : list iniSection) (line : string) : result (list iniSection) :=
  let line := TrimSpace (trim_suffix (String "013" EmptyString) line) in
  match line with
  | EmptyString | String "#" _ | String ";" _ => Ok sections
  | String "[" inner =>
      if negb (has_suffix line "]") then fail ErrOther "section is not closed"
      else Ok (MkSection (ToLower (TrimSpace (trim_suffix "]" inner))) ∅ :: sections)
  | _ =>
      match Cut line "=" with
      | None => fail ErrOther "key = value expected"
      | Some (key, value) =>
          match sections with
          | [] => fail ErrOther "parameter outside of a section"
          | sec :: sections =>
              Ok (MkSection sec.(is_name) (<[ToLower (TrimSpace key) := TrimSpace value]> sec.(is_values)) :: sections)
          end
      end
  end.
Fixpoint ini_lines (sections : list iniSection) (l : list string) : result (list iniSection) :=
  match l with
  | [] => Ok sections
  | line :: l => sections ← ini_line sections line; ini_lines sections l
  end.
Definition parseINI (text : string) : result (list iniSection) :=
  sections ← ini_lines [] (Split text "010"); Ok (rev sections).

(** ** The endpoint *)
Record WGPeerOptions := MkWGPeer {
  wgp_address : string;
  wgp_port : Z;
  wgp_public_key : string;
  wgp_preshared_key : string;
  wgp_allowed : list Prefix;
  wgp_keepalive : Z;
  wgp_reserved : list Z
}.
Record WGOptions := MkWGOptions {
  wo_mtu : Z;
  wo_address : list Prefix;
  wo_private_key : string;
  wo_listen_port : Z;
  wo_peers : list WGPeerOptions
}.

(** [parsePrefixList]: a bare address is a host. *)
Definition parse_prefix_item (item : string) : result Prefix :=
  if ContainsByte item "/" then
    match ParsePrefix item with Some p => Ok p | None => fail ErrOther "subnet" end
  else match ParseAddr item with Some a => Ok (host_prefix a) | None => fail ErrOther "address" end.
Definition parsePrefixList (s : string) : result (list Prefix) :=
  mapM parse_prefix_item (filter (fun item => item <> EmptyString) (map TrimSpace (Split s ","))).

Definition optional_uint (bits : Z) (v label : string) : result Z :=
  if decide (v = EmptyString) then Ok 0
  else match ParseUint v bits with Some n => Ok n | None => fail ErrOther label end.

(** [fillInterface] *)
Definition fillInterface (opts : WGOptions) (sec : iniSection) : result WGOptions :=
  let key := get "PrivateKey" sec in
  if decide (key = EmptyString) then fail ErrOther "no PrivateKey"
  else
    addresses ← parsePrefixList (get "Address" sec);
    if decide (addresses = []) then fail ErrOther "no Address"
    else
      mtu ← optional_uint 32 (get "MTU" sec) "wrong MTU";
      port ← optional_uint 16 (get "ListenPort" sec) "wrong ListenPort";
      Ok (MkWGOptions mtu addresses key port opts.(wo_peers)).

Definition reservedLen : nat := 3.
Definition parseReservedNumbers (body : string) : result (list Z) :=
  let parts := Split body "," in
  if decide (length parts <> reservedLen) then fail ErrOther "Reserved needs three numbers"
  else mapM (fun part => match ParseUint (TrimSpace part) 8 with Some n => Ok n | None => fail ErrOther "Reserved number" end) parts.
Fixpoint bytes_of (s : string) : list Z := match s with EmptyString => [] | String c s => byte_of c :: bytes_of s end.
(** The encodings in their order; the first one that decodes counts. *)
Definition decode_reserved (body : string) : option string :=
  match Base64.decode_with false true body with
  | Some raw => Some raw
  | None => match Base64.decode_with false false body with
            | Some raw => Some raw
            | None => match Base64.decode_with true true body with
                      | Some raw => Some raw
                      | None => Base64.decode_with true false body
                      end
            end
  end.
Definition parseReservedBase64 (body : string) : result (list Z) :=
  match decode_reserved body with
  | None => fail ErrOther "Reserved is neither numbers nor base64"
  | Some raw => if decide (String.length raw <> reservedLen) then fail ErrOther "client ID has three bytes" else Ok (bytes_of raw)
  end.
Definition parseReserved (v : string) : result (list Z) :=
  let body := TrimSpace v in
  body ← match strip_prefix "[" body with
         | None => Ok body
         | Some b => let b := TrimSpace b in
                     if has_suffix b "]" then Ok (TrimSpace (trim_suffix "]" b)) else fail ErrOther "Reserved bracket"
         end;
  if ContainsByte body "," then parseReservedNumbers body else parseReservedBase64 body.

Definition all_traffic : list Prefix := [MkPrefix (V4 0) 0; MkPrefix (V6 0 EmptyString) 0].
(** [buildPeer] *)
Definition buildPeer (sec : iniSection) : result WGPeerOptions :=
  let key := get "PublicKey" sec in
  if decide (key = EmptyString) then fail ErrOther "no PublicKey"
  else
    let endpoint := get "Endpoint" sec in
    if decide (endpoint = EmptyString) then fail ErrOther "no Endpoint"
    else
      '(host, port) ← splitHostPort endpoint;
      match parse_port port with
      | None => fail ErrOther "wrong port of Endpoint"
      | Some n =>
          allowed ← parsePrefixList (get "AllowedIPs" sec);
          let allowed := if decide (allowed = []) then all_traffic else allowed in
          keepalive ← optional_uint 16 (get "PersistentKeepalive" sec) "wrong PersistentKeepalive";
          reserved ← (if decide (get "Reserved" sec = EmptyString) then Ok [] else parseReserved (get "Reserved" sec));
          Ok (MkWGPeer host n key (get "PresharedKey" sec) allowed keepalive reserved)
      end.

(** ** The file *)
Definition warpEndpointDomain : string := "cloudflareclient.com".
Definition isWARPHost (host : string) : bool :=
  let h := ToLower (trim_suffix "." (TrimSpace host)) in
  bool_decide (h = warpEndpointDomain) || has_suffix h ("." +:+ warpEndpointDomain).
Definition wireguardSource (opts : WGOptions) : string :=
  if existsb (fun p => isWARPHost p.(wgp_address)) opts.(wo_peers) then SourceWARP else SourceWGConf.

(** The body of the loop of [parseWireGuardConf]. *)
Definition conf_section (acc : bool * WGOptions) (sec : iniSection) : result (bool * WGOptions) :=
  let '(seen, opts) := acc in
  if decide (sec.(is_name) = "interface"%string) then
    if seen : bool then fail ErrOther "more than one Interface"
    else opts ← fillInterface opts sec; Ok (true, opts)
  else if decide (sec.(is_name) = "peer"%string) then
    peer ← buildPeer sec;
    Ok (seen, MkWGOptions opts.(wo_mtu) opts.(wo_address) opts.(wo_private_key) opts.(wo_listen_port) (opts.(wo_peers) ++ [peer]))
  else fail ErrOther "unknown section".
Fixpoint conf_sections (acc : bool * WGOptions) (l : list iniSection) : result (bool * WGOptions) :=
  match l with
  | [] => Ok acc
  | sec :: l => acc ← conf_section acc sec; conf_sections acc l
  end.
(** [parseWireGuardConf] up to the encoding of the endpoint. *)
Definition wireguardOptions (text : string) : result WGOptions :=
  sections ← parseINI text;
  '(_, opts) ← conf_sections (false, MkWGOptions 0 [] EmptyString 0 []) sections;
  if decide (opts.(wo_peers) = []) then fail ErrOther "no Peer" else Ok opts.
End conf.
