(* ===== verification/WgConfSpec.v ===== *)
(** * Importing what the panel issues

    The configuration file of a client ([WgPeers.ClientConfig]) is accepted by
    the importer of tunnels and describes the same client. *)

From Stdlib Require Import Ascii.
From S2P Require Import Prelude GoStd Netip JsonText GoText Model SettingsStore Links LinksSpec WgPeers WgConf.
#[local] Open Scope Z_scope.

(** ** Lines *)
Definition value_ok (v : string) : Prop := all_bytes graphic_byte v = true /\ v <> EmptyString.

Lemma last_byte s : s <> EmptyString -> exists w d, s = w +:+ String d EmptyString.
Proof.
  intros Hs. destruct (str_rev s) as [|d w] eqn:E.
  - exfalso. apply Hs. by rewrite <- (str_rev_involutive s), E.
  - exists (str_rev w), d. by rewrite <- (str_rev_involutive s), E, str_rev_cons.
Qed.
Lemma graphic_cons c s : all_bytes graphic_byte (String c s) = true -> graphic c /\ all_bytes graphic_byte s = true.
Proof. cbn [all_bytes]. unfold graphic_byte, graphic. intros [[H1%Z.leb_le H2%Z.ltb_lt]%andb_true_iff H3]%andb_true_iff. split; [lia|done]. Qed.
Lemma value_last v : value_ok v -> exists w d, v = w +:+ String d EmptyString /\ graphic d.
Proof.
  intros [Hv Hne]. destruct (last_byte v Hne) as (w & d & ->). exists w, d. split; [done|].
  rewrite all_bytes_app in Hv. apply andb_true_iff in Hv as [_ Hv]. by apply graphic_cons in Hv as [Hv _].
Qed.
(** A line that begins and ends with a printing character is used as it is. *)
Definition clean (v : string) : Prop := (exists w d, v = w +:+ String d EmptyString /\ graphic d) /\ TrimSpace (String " " v) = v.
Lemma line_as_is c a v : graphic c -> clean v -> TrimSpace (trim_suffix (String "013" EmptyString) (String c a +:+ v)) = String c a +:+ v.
Proof.
  intros Hc [(w & d & -> & Hd) _]. rewrite <- append_assoc, append_cons.
  assert (Ht : trim_suffix (String "013" EmptyString) (String c (a +:+ w) +:+ String d EmptyString) = String c (a +:+ w) +:+ String d EmptyString).
  { unfold trim_suffix. rewrite (str_rev_append _ (String d EmptyString)). change (str_rev (String d EmptyString)) with (String d EmptyString).
    rewrite append_cons. cbn [str_rev str_rev_app strip_prefix]. rewrite decide_False; [done|]. intros <-. exact (proj1 Hd eq_refl). }
  rewrite Ht. by apply TrimSpace_trimmed, trimmed_graphic.
Qed.
Lemma TrimSpace_value v : all_bytes graphic_byte v = true -> TrimSpace (String " " v) = v.
Proof.
  intros Hv. pose proof (TrimSpace_graphic v Hv) as Ht. unfold TrimSpace in *. cbn [String.length trim_left_runes].
  change (strip_any space_runes (String " " v)) with (Some v). exact Ht.
Qed.

Lemma value_clean v : value_ok v -> clean v.
Proof. intros Hv. split; [by apply value_last|]. by apply TrimSpace_value, Hv. Qed.

Lemma has_suffix_app s x : has_suffix (s +:+ x) x = true.
Proof. unfold has_suffix, HasPrefix. by rewrite str_rev_append, strip_prefix_app. Qed.
Lemma trim_suffix_app s x : trim_suffix x (s +:+ x) = s.
Proof. unfold trim_suffix. rewrite str_rev_append, strip_prefix_app. apply str_rev_involutive. Qed.

Section lines.
Context `{Unicode}.

Lemma ini_section c name rest sections : graphic c -> value_ok (String c name) -> ContainsByte (String c name) "]" = false ->
  ToLower (TrimSpace (String c name)) = rest ->
  ini_line sections (String "[" (String c name +:+ String "]" EmptyString)) = Ok (MkSection rest ∅ :: sections).
Proof.
  intros Hc Hv Hb <-. assert (Hl : String "[" (String c name +:+ String "]" EmptyString) = String "[" EmptyString +:+ (String c name +:+ String "]" EmptyString)) by done.
  unfold ini_line. cbv zeta. rewrite Hl, line_as_is; [|by unfold graphic|].
  2: { apply value_clean. split; [|done]. destruct Hv as [Hv _]. rewrite all_bytes_app, Hv. done. }
  rewrite append_cons. change (EmptyString +:+ ?x) with x. cbv iota.
  assert (Hs : has_suffix (String "[" (String c name +:+ String "]" EmptyString)) "]" = true) by apply (has_suffix_app (String "[" (String c name))).
  rewrite Hs. cbn [negb]. by rewrite trim_suffix_app.
Qed.
Lemma ini_value c key v sec sections : graphic c -> c ∉ ["#"; ";"; "["]%char -> ContainsByte (String c key) "=" = false -> clean v ->
  ini_line (sec :: sections) (String c key +:+ "= " +:+ v) =
  Ok (MkSection sec.(is_name) (<[ToLower (TrimSpace (String c key)) := v]> sec.(is_values)) :: sections).
Proof.
  intros Hc Hn Hk Hv. unfold ini_line. cbv zeta. rewrite <- append_assoc, append_cons. rewrite line_as_is by done.
  rewrite append_cons. assert (Hcut : Cut (String c ((key +:+ "= ") +:+ v)) "=" = Some (String c key, String " " v)).
  { rewrite append_assoc. change ("= " +:+ v) with (String "=" (String " " v)). rewrite <- append_cons. by apply Cut_app. }
  rewrite Hcut. rewrite !not_elem_of_cons in Hn. destruct Hn as (H1 & H2 & H3 & _). rewrite (proj2 Hv).
  by destruct c as [[] [] [] [] [] [] [] []].
Qed.
Lemma ini_blank sections : ini_line sections EmptyString = Ok sections.
Proof. done. Qed.
End lines.

(** ** The host of a validated endpoint *)
Definition addr_byte (b : Z) : bool := host_char b || (b =? 58).
Lemma ipv4_fields_bytes s acc val n pos ip : ipv4_fields s acc val n pos = Some ip -> all_bytes addr_byte s = true.
Proof.
  revert acc val n pos. induction s as [|c s IH]; intros acc val n pos; [done|]. cbn [ipv4_fields all_bytes]. cbv zeta.
  case_decide as Hd; [case_decide; [done|]; case_decide; [done|]; intros ->%IH|].
  - rewrite andb_true_r. unfold addr_byte, host_char. rewrite (bool_decide_eq_true_2 (48 <= _ <= 57)) by done. by rewrite !orb_true_r.
  - case_decide as Hp; [|done]. case_decide; [done|]. case_decide; [done|]. intros ->%IH. by rewrite Hp.
Qed.
Lemma hex_digit_addr c : is_Some (hex_digit c) -> addr_byte (byte_of c) = true.
Proof. destruct c as [[] [] [] [] [] [] [] []]; vm_compute; intros [x Hx]; (discriminate Hx || reflexivity). Qed.
Lemma hex_group_bytes s acc n v m rest : hex_group s acc n = Some (v, m, rest) -> exists p, s = p +:+ rest /\ all_bytes addr_byte p = true.
Proof.
  revert acc n. induction s as [|c s IH]; intros acc n; cbn [hex_group]; [intros [= _ _ <-]; by exists EmptyString|].
  destruct (hex_digit c) as [d|] eqn:E; [|intros [= _ _ <-]; by exists EmptyString]. case_decide; [done|].
  intros (p & -> & Hp)%IH. exists (String c p). rewrite append_cons. split; [done|]. cbn [all_bytes]. by rewrite Hp, hex_digit_addr by (by exists d).
Qed.
Lemma ipv6_groups_bytes fuel s acc ell r : ipv6_groups fuel s acc ell = Some r -> all_bytes addr_byte s = true.
Proof.
  revert s acc ell. induction fuel as [|fuel IH]; intros s acc ell H; cbn [ipv6_groups] in H.
  { case_decide; [by subst|done]. }
  destruct (hex_group s 0 0) as [[[v m] rest]|] eqn:Hg; [|done]. destruct m as [|m]; [done|].
  apply hex_group_bytes in Hg as (p & Hs & Hp).
  assert (Hrest : all_bytes addr_byte rest = true -> all_bytes addr_byte s = true) by (intros Hr; by rewrite Hs, all_bytes_app, Hp, Hr).
  destruct rest as [|c rest]; [by apply Hrest|].
  assert (Hdot : (if decide (ell = None /\ length acc <> 6%nat) then None else if decide (6 < length acc)%nat then None
     else match ipv4_fields s 0 0 0 0 with
          | None => None | Some v => Some (rev (v mod 65536 :: v / 65536 :: acc), ell) end) = Some r -> all_bytes addr_byte s = true).
  { destruct (decide _); [done|]. destruct (decide _); [done|]. destruct (ipv4_fields s 0 0 0 0) as [w|] eqn:Hw; [|done].
    intros _. by apply ipv4_fields_bytes in Hw. }
  destruct c as [[] [] [] [] [] [] [] []]; try done; try (by apply Hdot in H).
  destruct rest as [|d rest]; [done|].
  destruct d as [[] [] [] [] [] [] [] []]; try (by apply IH in H; apply Hrest; cbn [all_bytes] in *).
  destruct (decide (ell <> None)); [done|]. destruct (decide (rest = EmptyString)) as [->|]; [by apply Hrest|].
  apply IH in H. apply Hrest. cbn [all_bytes]. by rewrite H.
Qed.
Lemma ipv6_value_bytes s v : ipv6_value s = Some v -> all_bytes addr_byte s = true.
Proof.
  destruct (strip_prefix "::" s) as [t|] eqn:Hs.
  - apply strip_prefix_Some in Hs as ->. destruct t as [|c t]; [done|]. change (ipv6_value ("::" +:+ String c t)) with
      ('(g, ell) ← ipv6_groups 8 (String c t) [] (Some O); expand_groups g ell).
    destruct (ipv6_groups 8 (String c t) [] (Some O)) as [r|] eqn:E; [|done]. intros _. apply ipv6_groups_bytes in E. by rewrite all_bytes_app, E.
  - assert (ipv6_value s = ('(g, ell) ← ipv6_groups 8 s [] None; expand_groups g ell)) as ->.
    + destruct s as [|c s]; [reflexivity|]. destruct (decide (c = ":"%char)) as [->|Hc].
      * destruct s as [|d s]; [reflexivity|]. destruct (decide (d = ":"%char)) as [->|Hd]; [done|].
        destruct d as [[] [] [] [] [] [] [] []]; try reflexivity; by destruct Hd.
      * destruct c as [[] [] [] [] [] [] [] []]; try reflexivity; by destruct Hc.
    + destruct (ipv6_groups 8 s [] None) as [r|] eqn:E; [|done]. intros _. by apply ipv6_groups_bytes in E.
Qed.
Lemma ParseIP_bytes s : ParseIP s = true -> all_bytes addr_byte s = true.
Proof.
  unfold ParseIP, ParseAddr. destruct (addr_family s) as [c|]; [|done].
  assert (H4 : match V4 <$> ipv4_fields s 0 0 0 0 with Some (V4 _) => true | Some (V6 _ z) => bool_decide (z = EmptyString) | None => false end = true ->
    all_bytes addr_byte s = true).
  { destruct (ipv4_fields s 0 0 0 0) as [v|] eqn:E; [|done]. intros _. by apply ipv4_fields_bytes in E. }
  assert (H6 : match parseIPv6 s with Some (V4 _) => true | Some (V6 _ z) => bool_decide (z = EmptyString) | None => false end = true ->
    all_bytes addr_byte s = true).
  { unfold parseIPv6. destruct (Cut s "%") as [[s' zone]|].
    - case_decide; [done|]. destruct (ipv6_value s'); [|done]. by intros ?%bool_decide_eq_true.
    - destruct (ipv6_value s) as [v|] eqn:E; [|done]. intros _. by apply ipv6_value_bytes in E. }
  destruct c as [[] [] [] [] [] [] [] []]; done || by apply H4 || by apply H6.
Qed.
Lemma host_char_range b : host_char b = true -> 45 <= b <= 122 /\ b <> 47 /\ b <> 58 /\ b <> 63 /\ b <> 64 /\ b <> 91 /\ b <> 93.
Proof. unfold host_char. rewrite !orb_true_iff, !bool_decide_eq_true. lia. Qed.
Lemma addr_byte_range b : addr_byte b = true -> 45 <= b <= 122 /\ b <> 47 /\ b <> 63 /\ b <> 64 /\ b <> 91 /\ b <> 93.
Proof. unfold addr_byte. intros [H%host_char_range|H%Z.eqb_eq]%orb_true_iff; lia. Qed.
Definition valid_host (h : string) : Prop := h <> EmptyString /\ (ParseIP h = true \/ all_bytes host_char h = true).
Lemma valid_host_bytes h : valid_host h -> all_bytes addr_byte h = true.
Proof. intros [_ [H|H]]; [by apply ParseIP_bytes|]. eapply all_bytes_impl; [|exact H]. intros b Hb. unfold addr_byte. by rewrite Hb. Qed.

Lemma splitHostPort_joined h n : valid_host h -> 0 <= n ->
  splitHostPort (JoinHostPort h (Itoa n)) = Ok (h, Itoa n) /\ value_ok (JoinHostPort h (Itoa n)).
Proof.
  intros Hv Hn. pose proof (valid_host_bytes h Hv) as Hb. destruct (Itoa_bytes n Hn) as [Hd Hne].
  assert (Hhost : all_bytes host_byte h = true).
  { eapply all_bytes_impl; [|exact Hb]. intros b Hr%addr_byte_range. unfold host_byte. rewrite negb_true_iff, bool_decide_eq_false.
    rewrite !elem_of_cons, elem_of_nil. lia. }
  assert (Hg : all_bytes graphic_byte h = true).
  { eapply all_bytes_impl; [|exact Hb]. intros b Hr%addr_byte_range. unfold graphic_byte. apply andb_true_iff. split; [apply Z.leb_le|apply Z.ltb_lt]; lia. }
  assert (Hp : all_bytes port_byte (Itoa n) = true) by (eapply all_bytes_impl; [apply digit_port|exact Hd]).
  assert (Hgp : all_bytes graphic_byte (Itoa n) = true) by (eapply all_bytes_impl; [apply port_graphic|exact Hp]).
  assert (Hj : JoinHostPort h (Itoa n) = write_server (MkURL "x" EmptyString h (Itoa n) [] EmptyString)).
  { unfold JoinHostPort, write_server, write_host. cbn [pu_host pu_port].
    rewrite (all_bytes_lacks _ h "%" Hb) by done. rewrite orb_false_r. destruct (ContainsByte h ":"); [|done].
    symmetry. rewrite append_cons, append_assoc. done. }
  rewrite Hj. split; [apply (splitHostPort_written (MkURL "x" EmptyString h (Itoa n) [] EmptyString)); destruct Hv; by split|].
  rewrite <- Hj. unfold JoinHostPort. destruct (_ || _); split; try (by destruct h).
  - change ("[" +:+ h +:+ "]:" +:+ Itoa n) with (String "[" (h +:+ "]:" +:+ Itoa n)). cbn [all_bytes]. by rewrite all_bytes_app, Hg, all_bytes_app, Hgp.
  - change (":" +:+ Itoa n) with (String ":" (Itoa n)). rewrite all_bytes_app. cbn [all_bytes]. by rewrite Hg, Hgp.
Qed.

(** ** The client's file *)
Section client.
Context `{Unicode}.
Variables (p : Peer) (s : Settings) (key : string) (ip : Z).
Hypotheses (Hpriv : value_ok p.(p_private)) (Hpsk : value_ok p.(p_psk)) (Hkey : value_ok key) (Hdns : value_ok s.(s_wg_server)).
Hypotheses (Haddr : ParseAddr p.(p_address) = Some (V4 ip)) (Hhost : valid_host s.(s_endpoint)).
Hypotheses (Hport : 1 <= s.(s_wg_port) <= 65535) (Hmtu : MinClientMTU <= s.(s_mtu) <= MaxClientMTU).

(** The lines of the file; it ends with a line feed. *)
Definition client_lines : list string :=
  ["[Interface]";
   "PrivateKey = " +:+ p.(p_private);
   "Address    = " +:+ p.(p_address) +:+ "/32";
   "DNS        = " +:+ s.(s_wg_server);
   "MTU        = " +:+ Itoa s.(s_mtu);
   "";
   "[Peer]";
   "PublicKey           = " +:+ key;
   "PresharedKey        = " +:+ p.(p_psk);
   "Endpoint            = " +:+ JoinHostPort s.(s_endpoint) (Itoa s.(s_wg_port));
   "AllowedIPs          = " +:+ wgClientAllowedIPs]%string.
Definition client_body : string := Join (client_lines ++ ["PersistentKeepalive = 25"%string]) nl.
Lemma client_text : ClientConfig p s key = Some (client_body +:+ nl) /\ TrimSpace (client_body +:+ nl) = client_body.
Proof.
  unfold ClientConfig. rewrite decide_False by (intros [E|E]; [by apply Hkey|by apply Hhost]).
  split; [f_equal|].
  - change (Join (client_lines ++ ["PersistentKeepalive = 25"; EmptyString]%string) nl = client_body +:+ nl).
    rewrite (Join_snoc (client_lines ++ ["PersistentKeepalive = 25"%string]) EmptyString) by done. unfold client_body. by rewrite append_nil.
  - assert (exists r, Join client_lines nl = String "[" r) as [r Hr] by (eexists; reflexivity).
    assert (Hb : client_body = String "[" (r +:+ nl +:+ "PersistentKeepalive = 2") +:+ String "5" EmptyString).
    { unfold client_body. rewrite Join_snoc, Hr by done. rewrite !append_cons. f_equal. by rewrite !append_assoc. }
    rewrite Hb. by apply TrimSpace_newline.
Qed.

Definition interface_values : gmap string string :=
  <["mtu" := Itoa s.(s_mtu)]> (<["dns" := s.(s_wg_server)]> (<["address" := p.(p_address) +:+ "/32"]> (<["privatekey" := p.(p_private)]> ∅))).
Definition peer_values : gmap string string :=
  <["persistentkeepalive" := "25"]> (<["allowedips" := wgClientAllowedIPs]> (<["endpoint" := JoinHostPort s.(s_endpoint) (Itoa s.(s_wg_port))]>
    (<["presharedkey" := p.(p_psk)]> (<["publickey" := key]> ∅))))%string.

Lemma address_value : value_ok (p.(p_address) +:+ "/32") /\ ParsePrefix (p.(p_address) +:+ "/32") = Some (MkPrefix (V4 ip) 32).
Proof.
  assert (Hip : ParseIP p.(p_address) = true) by (unfold ParseIP; by rewrite Haddr).
  apply ParseIP_bytes in Hip. split; [split; [|by destruct (p_address p)]|].
  - rewrite all_bytes_app. apply andb_true_iff. split; [|done]. eapply all_bytes_impl; [|exact Hip]. intros b Hr%addr_byte_range.
    unfold graphic_byte. apply andb_true_iff. split; [apply Z.leb_le|apply Z.ltb_lt]; lia.
  - unfold ParsePrefix. change "/32"%string with (String "/" "32"). rewrite CutLast_app by done. rewrite Haddr. done.
Qed.
Lemma number_value n : 0 <= n -> value_ok (Itoa n).
Proof. intros Hn. destruct (Itoa_bytes n Hn) as [Hd Hne]. split; [|done]. eapply all_bytes_impl; [|exact Hd]. intros b Hb. by apply port_graphic, digit_port. Qed.
Lemma line_lacks v : value_ok v -> ContainsByte v "010" = false.
Proof. intros [Hv _]. by eapply all_bytes_lacks. Qed.

Lemma parseINI_client : parseINI client_body = Ok [MkSection "interface" interface_values; MkSection "peer" peer_values].
Proof.
  destruct address_value as [Ha _]. destruct (splitHostPort_joined _ (s_wg_port s) Hhost) as [_ He]; [lia|].
  pose proof (number_value (s_mtu s)) as Hm. specialize (Hm ltac:(unfold MinClientMTU in *; lia)).
  unfold parseINI, client_body, client_lines. cbn [app]. change nl with (String "010" EmptyString).
  assert (Hallowed : clean wgClientAllowedIPs).
  { split; [exists "0.0.0.0/0, ::/"%string, "0"%char; split; [done|by unfold graphic]|by vm_compute]. }
  rewrite (Split_Join_lacks "010"); [|done|].
  2: { repeat (apply Forall_cons; split); first [done|rewrite contains_app_eq; apply orb_false_intro; [done|by apply line_lacks]]. }
  assert (Hclean : forall v, value_ok v -> clean v) by exact value_clean.
  cbn [ini_lines]. change "[Interface]"%string with (String "[" (String "I" "nterface" +:+ String "]" EmptyString)).
  change "[Peer]"%string with (String "[" (String "P" "eer" +:+ String "]" EmptyString)).
  rewrite (ini_section "I" "nterface" "interface") by (try done; by rewrite ToLower_ascii). cbn [mbind result_bind].
  rewrite (ini_value "P" "rivateKey " (p_private p)) by (try done; try set_solver; by apply value_clean). cbn [mbind result_bind is_name is_values].
  rewrite (ini_value "A" "ddress    " (p_address p +:+ "/32")) by (try done; try set_solver; by apply value_clean). cbn [mbind result_bind is_name is_values].
  rewrite (ini_value "D" "NS        " (s_wg_server s)) by (try done; try set_solver; by apply value_clean). cbn [mbind result_bind is_name is_values].
  rewrite (ini_value "M" "TU        " (Itoa (s_mtu s))) by (try done; try set_solver; by apply value_clean). cbn [mbind result_bind is_name is_values].
  rewrite ini_blank. cbn [mbind result_bind].
  rewrite (ini_section "P" "eer" "peer") by (try done; by rewrite ToLower_ascii). cbn [mbind result_bind].
  rewrite (ini_value "P" "ublicKey           " key) by (try done; try set_solver; by apply value_clean). cbn [mbind result_bind is_name is_values].
  rewrite (ini_value "P" "resharedKey        " (p_psk p)) by (try done; try set_solver; by apply value_clean). cbn [mbind result_bind is_name is_values].
  rewrite (ini_value "E" "ndpoint            " (JoinHostPort (s_endpoint s) (Itoa (s_wg_port s)))) by (try done; try set_solver; by apply value_clean). cbn [mbind result_bind is_name is_values].
  rewrite (ini_value "A" "llowedIPs          " wgClientAllowedIPs) by (try done; try set_solver; by apply value_clean). cbn [mbind result_bind is_name is_values].
  rewrite (ini_value "P" "ersistentKeepalive " "25") by (try done; try set_solver; by apply value_clean). cbn [mbind result_bind is_name is_values].
  cbn [rev app]. unfold interface_values, peer_values.
  by rewrite !ToLower_ascii.
Qed.

Lemma get_lookup k l name values v : ToLower k = l -> values !! l = Some v -> get k (MkSection name values) = v.
Proof. intros Hk Hv. unfold get. cbn [is_values]. by rewrite Hk, Hv. Qed.
Lemma get_missing k l name values : ToLower k = l -> values !! l = None -> get k (MkSection name values) = EmptyString.
Proof. intros Hk Hv. unfold get. cbn [is_values]. by rewrite Hk, Hv. Qed.
Definition imported : WGOptions :=
  MkWGOptions s.(s_mtu) [MkPrefix (V4 ip) 32] p.(p_private) 0
    [MkWGPeer s.(s_endpoint) s.(s_wg_port) key p.(p_psk) all_traffic 25 []].
Lemma parse_item v q : value_ok v -> ContainsByte v "," = false -> parse_prefix_item v = Ok q -> parsePrefixList v = Ok [q].
Proof.
  intros [Hg Hne] Hc Hq. unfold parsePrefixList. rewrite Split_none by done. cbn [map]. rewrite TrimSpace_graphic by done.
  rewrite filter_cons, decide_True by done. cbn [filter list_filter mapM]. by rewrite Hq.
Qed.
Lemma wireguardOptions_client : wireguardOptions client_body = Ok imported.
Proof.
  destruct address_value as [Ha Hpre]. destruct (splitHostPort_joined _ (s_wg_port s) Hhost) as [Hsplit He]; [lia|].
  unfold wireguardOptions. rewrite parseINI_client. cbn [mbind result_bind conf_sections conf_section is_name].
  rewrite decide_True by done.
  assert (Hi : fillInterface (MkWGOptions 0 [] EmptyString 0 []) (MkSection "interface" interface_values) =
    Ok (MkWGOptions s.(s_mtu) [MkPrefix (V4 ip) 32] p.(p_private) 0 [])).
  { unfold fillInterface. rewrite (get_lookup "PrivateKey" "privatekey" _ _ (p_private p)) by (by rewrite ?ToLower_ascii).
    rewrite decide_False by apply Hpriv. rewrite (get_lookup "Address" "address" _ _ (p_address p +:+ "/32")) by (by rewrite ?ToLower_ascii).
    rewrite (parse_item _ (MkPrefix (V4 ip) 32)); [|done|..].
    - cbn [mbind result_bind]. rewrite decide_False by done. rewrite (get_lookup "MTU" "mtu" _ _ (Itoa (s_mtu s))) by (by rewrite ?ToLower_ascii).
      rewrite (get_missing "ListenPort" "listenport") by (by rewrite ?ToLower_ascii). unfold optional_uint.
      rewrite (decide_False (P := Itoa (s_mtu s) = EmptyString)) by (apply Itoa_bytes; unfold MinClientMTU in *; lia). rewrite ParseUint_Itoa by (unfold MinClientMTU, MaxClientMTU in *; lia). done.
    - apply (all_bytes_lacks (fun b => addr_byte b || (b =? 47))); [|done].
      assert (Hip : ParseIP (p_address p) = true) by (unfold ParseIP; by rewrite Haddr).
      rewrite all_bytes_app. apply andb_true_iff. split; [|done]. eapply all_bytes_impl; [|by apply ParseIP_bytes]. intros b ->. done.
    - unfold parse_prefix_item. rewrite contains_app_eq. change (ContainsByte "/32" "/") with true. by rewrite orb_true_r, Hpre. }
  rewrite Hi. cbn [mbind result_bind conf_sections conf_section is_name]. rewrite decide_False, decide_True by done.
  assert (Hb : buildPeer (MkSection "peer" peer_values) = Ok (MkWGPeer s.(s_endpoint) s.(s_wg_port) key p.(p_psk) all_traffic 25 [])).
  { unfold buildPeer. rewrite (get_lookup "PublicKey" "publickey" _ _ key) by (by rewrite ?ToLower_ascii). rewrite decide_False by apply Hkey.
    rewrite (get_lookup "Endpoint" "endpoint" _ _ (JoinHostPort (s_endpoint s) (Itoa (s_wg_port s)))) by (by rewrite ?ToLower_ascii).
    rewrite decide_False by apply He. rewrite Hsplit. cbn [mbind result_bind]. unfold parse_port. rewrite ParseUint_Itoa by lia. rewrite decide_False by lia.
    rewrite (get_lookup "AllowedIPs" "allowedips" _ _ wgClientAllowedIPs) by (by rewrite ?ToLower_ascii).
    change (parsePrefixList wgClientAllowedIPs) with (Ok all_traffic). cbn [mbind result_bind]. rewrite decide_False by done.
    rewrite (get_lookup "PersistentKeepalive" "persistentkeepalive" _ _ "25"%string) by (by rewrite ?ToLower_ascii).
    change (optional_uint 16 "25" "wrong PersistentKeepalive") with (Ok 25). cbn [mbind result_bind].
    rewrite (get_missing "Reserved" "reserved") by (by rewrite ?ToLower_ascii). rewrite decide_True by done.
    by rewrite (get_lookup "PresharedKey" "presharedkey" _ _ (p_psk p)) by (by rewrite ?ToLower_ascii). }
  rewrite Hb. cbn. done.
Qed.
End client.
