(* ===== verification/Import.v ===== *)
(** * Import of tunnels

    [internal/singbox/parse.go], [parse_catalog.go]: the form of what the user
    pasted, or of a key of a catalogue, decides its parser.  This is the parser
    behind the interface [PoolSource] of the generator; with it, what the filter
    of the pools lets through is never an outbound without encryption.

    The encoders of sing-box ([MarshalJSONContext]) and [url.Parse] are
    functions of the class [Encoders]. *)

From Stdlib Require Import Ascii.
From S2P Require Import Prelude GoStd GoURL GoJson Model PoolFilter SingBox Links WgConf.
#[local] Open Scope Z_scope.

(** [URLHost]: the host of a parsed URL and whether it has user information. *)
Class Encoders := {
  MarshalOutbound : ProxyOptions -> option string;
  MarshalEndpoint : WGOptions -> option string;
  URLHost : string -> option (string * bool)
}.

Record ParseResult := MkParsed {
  pr_type : string;
  pr_source : string;
  pr_name : string;
  pr_outbound : option ProxyOptions;
  pr_endpoint : option WGOptions;
  pr_parsed : string
}.

(** ** JSON *)
Definition tunnelTypeByJSONType (t : string) : string :=
  if decide (t ∈ [TunnelVLESS; TunnelShadowsocks; TunnelTrojan; TunnelHysteria2; TunnelSOCKS; TunnelWireGuard]) then t else TunnelRaw.
(** [json.Compact]: the white space outside of strings goes. *)
Fixpoint compactJSON (inside : bool) (s : string) : string :=
  match s with
  | EmptyString => EmptyString
  | String c s' =>
      if negb inside then if Json.is_ws c then compactJSON false s' else String c (compactJSON (bool_decide (byte_of c = 34)) s')
      else if decide (byte_of c = 92) then
        match s' with String e s'' => String c (String e (compactJSON true s'')) | EmptyString => String c EmptyString end
      else String c (compactJSON (negb (bool_decide (byte_of c = 34))) s')
  end.
(** The struct with the one field [type]: a [null] leaves it, another value
    that is no string is an error. *)
Definition probe_type (v : json) : option string :=
  match v with
  | JObj l => foldl (fun acc v => match acc, v with
                                  | Some t, JNull => Some t
                                  | Some _, JStr s => Some s
                                  | _, _ => None
                                  end) (Some EmptyString) (struct_field "type" l)
  | _ => None
  end.
Definition parseJSON (s : string) : result ParseResult :=
  match GoJson.parse s ≫= probe_type with
  | None => fail ErrOther "JSON"
  | Some t =>
      if decide (t = EmptyString) then fail ErrOther "JSON without a type"
      else Ok (MkParsed (tunnelTypeByJSONType t) SourceJSON EmptyString None None (compactJSON false s))
  end.

Section import.
Context `{Unicode} `{Encoders}.

(** ** Catalogues *)
Definition isCatalogURL (s : string) : bool := bool_decide (schemeOf s ∈ ["http"; "https"]%string).
Definition parseCatalogURL (s : string) : result ParseResult :=
  match URLHost s with
  | None => fail ErrOther "catalogue link"
  | Some (host, user) =>
      if decide (host = EmptyString) then fail ErrOther "catalogue link without an address"
      else if user : bool then fail ErrOther "catalogue link with a login"
      else Ok (MkParsed EmptyString SourcePool host None None EmptyString)
  end.

(** ** Links and configuration files *)
Definition parseProxyURL (raw : string) : result ParseResult :=
  u ← splitProxyURL raw;
  out ← outbound u;
  match MarshalOutbound out with
  | None => fail ErrOther "encode outbound"
  | Some parsed => Ok (MkParsed (tunnel_type out) SourceURL u.(pu_fragment) (Some out) None parsed)
  end.
Definition parseWireGuardConf (text : string) : result ParseResult :=
  opts ← wireguardOptions text;
  match MarshalEndpoint opts with
  | None => fail ErrOther "encode endpoint"
  | Some parsed => Ok (MkParsed TunnelWireGuard (wireguardSource opts) EmptyString None (Some opts) parsed)
  end.

Definition Parse (raw : string) : result ParseResult :=
  let s := TrimSpace raw in
  if decide (s = EmptyString) then fail ErrOther "empty configuration"
  else if HasPrefix s "{" then parseJSON s
  else if hasInterfaceSection s then parseWireGuardConf s
  else if isCatalogURL s then parseCatalogURL s
  else if decide (schemeOf s <> EmptyString) then parseProxyURL s
  else fail ErrOther "unknown form".

(** ** The interface of the generator *)

(** The TLS section of an outbound, and the outbound with certificates checked. *)
Definition tls_of (o : ProxyOptions) : option OutboundTLS :=
  match o with
  | VLESSOptions _ _ _ _ tls _ | TrojanOptions _ _ tls _ | Hysteria2Options _ _ _ _ _ _ _ tls => tls
  | _ => None
  end.
Definition verify_tls (t : OutboundTLS) : OutboundTLS :=
  MkTLS t.(tls_server_name) false t.(tls_alpn) t.(tls_utls) t.(tls_reality).
Definition verified (o : ProxyOptions) : ProxyOptions :=
  match o with
  | VLESSOptions sv uuid flow packet tls tr => VLESSOptions sv uuid flow packet (verify_tls <$> tls) tr
  | TrojanOptions sv password tls tr => TrojanOptions sv password (verify_tls <$> tls) tr
  | Hysteria2Options host port ports password obfs up down tls => Hysteria2Options host port ports password obfs up down (verify_tls <$> tls)
  | o => o
  end.
(** A member of a pool: the flag apart, the outbound is kept by its text. *)
Definition member_of (o : ProxyOptions) : Member :=
  MkMember (outbound_type o) (tls_insecure <$> tls_of o) (default EmptyString (MarshalOutbound (verified o))).
#[export] Instance import_source : PoolSource := {|
  SingBox.Parse raw := match Parse raw with Ok r => Some (member_of <$> r.(pr_outbound)) | Err _ => None end |}.

(** [poolKeyCheck] of the daemon: a key of a catalogue must become an outbound. *)
Definition poolKeyCheck (raw : string) : result unit :=
  r ← Parse raw;
  if decide (r.(pr_outbound) = None) then fail ErrOther "key without an outbound" else Ok tt.
End import.
