(* ===== verification/ImportSpec.v ===== *)
(** * What an import guarantees

    Links and files written by this program or by other clients are read as
    what they describe, whatever is read is well formed, and a member of a pool
    is an outbound with encryption. *)

From Stdlib Require Import Ascii.
From S2P Require Import Prelude GoStd Netip GoText GoURL Base64 Model SettingsStore PoolFilter SingBox Links LinksSpec WgPeers WgConf WgConfSpec Import.
#[local] Open Scope Z_scope.

Section spec.
Context `{Unicode} `{Encoders} `{RuneClass}.

(** ** The branch that is taken *)
Lemma Parse_link s : TrimSpace s = s -> schemeOf s <> EmptyString -> HasPrefix s "{" = false -> hasInterfaceSection s = false ->
  isCatalogURL s = false -> Parse s = parseProxyURL s.
Proof.
  intros Ht Hs Hj Hi Hc. unfold Parse. rewrite Ht, decide_False by (by intros ->). by rewrite Hj, Hi, Hc, decide_True.
Qed.
Lemma Parse_outbound raw r o : Parse raw = Ok r -> r.(pr_outbound) = Some o ->
  let s := TrimSpace raw in exists u, splitProxyURL s = Ok u /\ outbound u = Ok o /\ u.(pu_scheme) = schemeOf s.
Proof.
  unfold Parse. cbv zeta. case_decide; [done|]. destruct (HasPrefix _ "{").
  { unfold parseJSON. destruct (_ ≫= probe_type) as [t|]; [|done]. case_decide; [done|]. by intros [= <-]. }
  destruct (hasInterfaceSection _).
  { unfold parseWireGuardConf. intros Hr. inv_result. destruct (MarshalEndpoint _); by inv_result. }
  destruct (isCatalogURL _).
  { unfold parseCatalogURL. destruct (URLHost _) as [[h u]|]; [|done]. case_decide; [done|]. destruct u; [done|]. by intros [= <-]. }
  case_decide; [|done]. unfold parseProxyURL. intros Hr. inv_result. destruct (MarshalOutbound _); inv_result. intros [= <-].
  eexists. split; [done|]. split; [done|]. by eapply splitProxyURL_host.
Qed.

(** ** Links *)
Lemma write_link_text u : url_ok u ->
  exists c r d, write_link u = String c r +:+ String d EmptyString /\ lower_byte (byte_of c) = true /\ graphic d /\
    ContainsByte (write_link u) "010" = false.
Proof.
  intros Hu. pose proof Hu as [Hs Hne Hh _ Hp]. unfold write_link, write_rest.
  destruct (pu_scheme u) as [|c sch] eqn:Esch; [done|].
  assert (Hg : all_bytes graphic_byte (String "#" (escape_text (pu_fragment u))) = true).
  { cbn [all_bytes]. apply andb_true_iff. split; [done|]. eapply all_bytes_impl; [|apply escape_bytes]. intros b. unfold link_byte, plain_byte, graphic_byte.
    rewrite !orb_true_iff, !andb_true_iff, !Z.leb_le, Z.eqb_eq, Z.ltb_lt. lia. }
  destruct (value_last (String "#" (escape_text (pu_fragment u)))) as (w & d & Hw & Hd); [by split|].
  set (front := (escape_text (pu_userinfo u) +:+ String "@" (write_server u)) +:+ String "?" (write_query (pu_query u))).
  exists c, (sch +:+ "://" +:+ front +:+ w), d. split; [|split; [|split; [done|]]].
  - rewrite Hw. by rewrite !(append_cons c), !append_assoc.
  - cbn [all_bytes] in Hs. by apply andb_true_iff in Hs as [Hs _].
  - assert (Hl : all_bytes (fun b => negb (b =? 10)) (String c sch) = true).
    { eapply all_bytes_impl; [|exact Hs]. intros b. unfold lower_byte. rewrite orb_true_iff, !andb_true_iff, !Z.leb_le, negb_true_iff, Z.eqb_neq. lia. }
    rewrite contains_app_eq, (all_bytes_lacks _ _ "010"%char Hl) by done. unfold front.
    change ("://" +:+ ?x) with (String ":" (String "/" (String "/" x))).
    rewrite !contains_cons_eq, !contains_app_eq, !contains_cons_eq, !escape_lacks, server_lacks, write_query_lacks by done. done.
Qed.
Lemma lower_head c r : lower_byte (byte_of c) = true -> ToLowerASCII (String c r) <> "[interface]"%string /\ HasPrefix (String c r) "{" = false /\ graphic c.
Proof. destruct c as [[] [] [] [] [] [] [] []]; intros Hc; try discriminate Hc; unfold graphic; cbn; (split; [by intros [=]|split; [done|by split]]). Qed.

Lemma Parse_written o name parsed : outbound_ok o -> all_bytes host_byte (host_of o) = true -> MarshalOutbound o = Some parsed ->
  Parse (write_link (link_of o name)) = Ok (MkParsed (tunnel_type o) SourceURL name (Some o) None parsed).
Proof.
  intros Ho Hh Hm. pose proof (link_of_ok o name Ho Hh) as Hu. destruct (link_written o name Ho Hh) as (u & Hs & Hout & Hname & Hsch).
  destruct (write_link_text _ Hu) as (c & r & d & Htext & Hc & Hd & Hnl). destruct (lower_head c (r +:+ String d "") Hc) as (Hi & Hj & Hg).
  assert (Htrim : TrimSpace (write_link (link_of o name)) = write_link (link_of o name)).
  { rewrite Htext. by apply TrimSpace_trimmed, trimmed_graphic. }
  assert (Hscheme : schemeOf (write_link (link_of o name)) = pu_scheme (link_of o name)).
  { pose proof (splitProxyURL_written _ Hu) as Hw. rewrite Hw in Hs. injection Hs as <-. by rewrite <- Hsch. }
  rewrite Parse_link; [|done|..].
  - unfold parseProxyURL. rewrite Hs. cbn [mbind result_bind]. rewrite Hout. cbn [mbind result_bind]. by rewrite Hm, Hname.
  - rewrite Hscheme. apply Hu.
  - by rewrite Htext, append_cons.
  - unfold hasInterfaceSection. rewrite Split_none by done. cbn [existsb]. rewrite Htrim, orb_false_r, bool_decide_eq_false_2; [done|].
    by rewrite Htext, append_cons.
  - unfold isCatalogURL. rewrite Hscheme. apply bool_decide_eq_false. destruct o as [sv v|sv|sv|sv|h]; cbn [link_of pu_scheme]; [|set_solver..].
    destruct Ho as (_ & Hv & _). rewrite !elem_of_cons in Hv. destruct Hv as [->|[->|[->|Hv%elem_of_nil]]]; set_solver.
Qed.
Lemma Parse_valid raw r o : Parse raw = Ok r -> r.(pr_outbound) = Some o -> outbound_ok o.
Proof. intros Hr Ho. destruct (Parse_outbound _ _ _ Hr Ho) as (u & Hs & Hout & _). apply splitProxyURL_host in Hs as [Hh _]. by eapply outbound_valid. Qed.

(** ** The filter of the pools *)

(** An outbound that hides its traffic from the network it crosses. *)
Definition encrypted (o : ProxyOptions) : Prop :=
  match o with
  | VLESSOptions _ _ _ _ tls _ | TrojanOptions _ _ tls _ => is_Some tls
  | ShadowsocksOptions _ method _ => method ∈ shadowsocks_methods
  | SOCKSOptions _ _ _ _ | Hysteria2Options _ _ _ _ _ _ _ _ => False
  end.
Definition guarded_scheme (scheme : string) : Prop := scheme ∈ ["vless"; "ss"; "trojan"]%string.

Lemma schemeOf_cut s : schemeOf s <> EmptyString -> exists scheme rest, cut_scheme s = Some (scheme, rest) /\
  ToLower scheme = schemeOf s.
Proof.
  unfold schemeOf. destruct (cut_scheme s) as [[scheme rest]|]; [|done]. case_decide; [done|].
  destruct (all_bytes scheme_byte scheme) eqn:Hb; [|done]. intros _. exists scheme, rest. split; [done|].
  apply ToLower_ascii. eapply all_bytes_impl; [|exact Hb]. intros b. unfold scheme_byte.
  rewrite !orb_true_iff, !andb_true_iff, !Z.leb_le, bool_decide_eq_true, !elem_of_cons, elem_of_nil, Z.ltb_lt. lia.
Qed.
(** Both readers of a link cut it at the same places. *)
Lemma splitProxyURL_parts s u scheme rest : splitProxyURL s = Ok u -> cut_scheme s = Some (scheme, rest) ->
  let rest := (CutOr rest "#").1 in let front := (CutOr rest "?").1 in
  ParseQuery (CutOr rest "?").2 = Some u.(pu_query) /\
  u.(pu_userinfo) = match CutLast front "@" with Some (a, _) => unescape a | None => EmptyString end.
Proof.
  unfold splitProxyURL. case_decide; [done|]. intros Hs Hc. rewrite Hc in Hs. unfold CutOr in *.
  destruct (Cut rest "#") as [[a b]|]; cbn [fst snd] in *.
  - destruct (Cut a "?") as [[c d]|]; cbn [fst snd] in *; destruct (CutLast _ "@") as [[x y]|];
      destruct (Cut _ "/") as [[v w]|]; destruct (ParseQuery _) as [q|]; try done;
      destruct (splitHostPort _) as [[h p]|]; try done; by injection Hs as <-.
  - destruct (Cut rest "?") as [[c d]|]; cbn [fst snd] in *; destruct (CutLast _ "@") as [[x y]|];
      destruct (Cut _ "/") as [[v w]|]; destruct (ParseQuery _) as [q|]; try done;
      destruct (splitHostPort _) as [[h p]|]; try done; by injection Hs as <-.
Qed.
Lemma tls_none u : is_hysteria u = false -> tls u = Ok None -> param u "security" ∈ [EmptyString; "none"%string].
Proof. unfold tls. intros ->. rewrite andb_false_r. case_decide; [done|]. case_decide; [done|]. by intros [=]. Qed.

Lemma head_Split s c : default EmptyString (head (Split s c)) = (CutOr s c).1.
Proof.
  unfold CutOr. destruct (Cut s c) as [[a b]|] eqn:E.
  - apply Cut_join in E as [-> Ha]. by rewrite Split_app_sep, Split_none.
  - rewrite Split_none; [done|]. unfold ContainsByte. by rewrite E.
Qed.
(** The pair the filter reads in a shadowsocks link is the one that is used. *)
Lemma shadowsocks_method rest a u' : poolShadowsocksEncrypted rest = true ->
  (match CutLast (CutOr (CutOr rest "#").1 "?").1 "@" with Some (x, _) => unescape x | None => EmptyString end) = a ->
  shadowsocksUserinfo a = Ok u' -> (CutOr u' ":").1 ∈ shadowsocks_methods.
Proof.
  unfold poolShadowsocksEncrypted. destruct (CutOr rest "#") as [r1 fr]. cbn [fst]. destruct (CutOr r1 "?") as [r2 q]. cbn [fst].
  destruct (ParseQuery q); [|done]. destruct (CutLast r2 "@") as [[x y]|]; [|done]. unfold unescape.
  destruct (PathUnescape x) as [v|] eqn:Ev; [|done]. cbn [default from_option id]. intros Hf <-. unfold shadowsocksUserinfo.
  case_decide; [done|]. destruct (ContainsByte v ":") eqn:Ec.
  - apply andb_true_iff in Hf as [Hp Hm%bool_decide_eq_true]. unfold isPlainShadowsocksUserinfo. rewrite Hp. intros [= <-]. by rewrite <- head_Split.
  - assert (Hn : isPlainShadowsocksUserinfo v = false).
    { unfold isPlainShadowsocksUserinfo. rewrite Split_none by done. apply andb_false_iff. left. apply bool_decide_eq_false. by intros [|]. }
    rewrite Hn. destruct (decode_userinfo v) as [d|]; [|done]. apply andb_true_iff in Hf as [Hp Hm%bool_decide_eq_true].
    unfold isPlainShadowsocksUserinfo. rewrite Hp. intros [= <-]. by rewrite <- head_Split.
Qed.

(** A key that the filter does not call unencrypted becomes an encrypted
    outbound, for the protocols of the catalogues. *)
Lemma admitted_encrypted raw u o : poolKeyUnencrypted raw = false -> splitProxyURL (TrimSpace raw) = Ok u -> outbound u = Ok o ->
  guarded_scheme u.(pu_scheme) -> encrypted o.
Proof.
  intros Hf Hs Ho Hg. destruct (splitProxyURL_host _ _ Hs) as [_ Hsch].
  assert (Hne : schemeOf (TrimSpace raw) <> EmptyString) by (rewrite <- Hsch; by intros E; rewrite E in Hg; unfold guarded_scheme in Hg; set_solver).
  destruct (schemeOf_cut _ Hne) as (scheme & rest & Hc & Hl). destruct (splitProxyURL_parts _ _ _ _ Hs Hc) as [Hq Hu].
  unfold poolKeyUnencrypted in Hf. rewrite Hc, Hl, <- Hsch in Hf.
  assert (Htls : forall x, tls u = Ok x -> is_hysteria u = false -> (u.(pu_scheme) = "vless" \/ u.(pu_scheme) = "trojan")%string -> is_Some x).
  { intros [x|] Ht Hh Hv; [done|]. apply tls_none in Ht; [|done]. rewrite decide_False in Hf by (intros E; destruct Hv as [Hv|Hv]; rewrite Hv in E; discriminate E).
    rewrite decide_True in Hf by done.
    destruct (CutOr rest "#") as [r1 fr]. cbn [fst] in Hq. destruct (CutOr r1 "?") as [r2 q]. cbn [snd] in Hq. rewrite Hq in Hf.
    exfalso. apply bool_decide_eq_false in Hf. apply Hf. unfold param in Ht. rewrite !elem_of_cons in Ht.
    destruct Ht as [->|[->|Ht%elem_of_nil]]; [..|done]; [change (TrimSpace EmptyString) with EmptyString|change (TrimSpace "none") with "none"%string]; rewrite ToLower_ascii by done; set_solver. }
  unfold guarded_scheme in Hg. rewrite !elem_of_cons in Hg. unfold outbound in Ho. destruct Hg as [Hv|[Hv|[Hv|Hv%elem_of_nil]]]; [..|done]; rewrite Hv in Ho.
  - rewrite decide_False, decide_True in Ho by set_solver. unfold vlessOutbound in Ho. inv_result. do 3 (case_decide; [done|]). inv_result.
    eapply Htls; [done|by unfold is_hysteria; rewrite Hv|by left].
  - do 2 rewrite decide_False in Ho by set_solver. rewrite decide_True in Ho by done. unfold shadowsocksOutbound in Ho. inv_result.
    rewrite decide_True in Hf by done. apply negb_false_iff in Hf.
    rename select (shadowsocksUserinfo _ = Ok _) into Hi. pose proof (shadowsocks_method rest _ _ Hf (eq_sym Hu) Hi) as Hm.
    destruct (CutOr _ ":") as [method password]. inv_result. exact Hm.
  - do 3 rewrite decide_False in Ho by set_solver. rewrite decide_True in Ho by done. unfold trojanOutbound in Ho. inv_result. case_decide; [done|]. inv_result.
    eapply Htls; [done|by unfold is_hysteria; rewrite Hv|by right].
Qed.

Lemma select_loop_admitted countries pool seen uniq s : s ∈ select_loop countries pool seen uniq ->
  s ∈ uniq \/ s ∈ pool /\ FilterAllows countries s = true.
Proof.
  revert seen uniq. induction pool as [|x pool IH]; intros seen uniq Hs; [by left|]. cbn [select_loop] in Hs.
  assert (Hx : s ∈ uniq ++ [x] -> FilterAllows countries x = true -> s ∈ uniq \/ s ∈ x :: pool /\ FilterAllows countries s = true).
  { intros [?| ->%list_elem_of_singleton]%elem_of_app Ha; [by left|right]. split; [by left|done]. }
  case_decide as Hc; [apply IH in Hs as [?|[? ?]]; [by left|right; split; [by right|done]]|].
  assert (Ha : FilterAllows countries x = true) by (apply not_false_is_true; intros E; apply Hc; by do 2 right).
  case_decide; [by apply Hx|]. apply IH in Hs as [Hs|[? ?]]; [by apply Hx|right; split; [by right|done]].
Qed.
Lemma FilterAllows_spec countries s : FilterAllows countries s = true -> poolKeyUnencrypted s.(ps_url) = false.
Proof. unfold FilterAllows, Exclusion. case_decide; [done|]. by destruct (poolKeyUnencrypted _). Qed.
Lemma pool_group_members t countries outs ob m : buildPool t countries = Some outs -> ob ∈ outs -> ob.(ob_options) = OMember m ->
  exists s r o, s ∈ t.(t_pool) /\ Exclusion countries s = None /\ Parse s.(ps_url) = Ok r /\ r.(pr_outbound) = Some o /\ m = forceCertVerify (member_of o).
Proof.
  unfold buildPool. case_decide; [done|]. intros [= <-] [Hob|Hob%list_elem_of_singleton]%elem_of_app Hm; [|by subst ob].
  apply list_elem_of_omap in Hob as ([i s] & Hs & Hb). apply elem_of_enum in Hs as [_ Hs%list_elem_of_lookup_2].
  apply select_loop_admitted in Hs as [Hs%elem_of_nil|[Hs Ha]]; [done|]. unfold pool_member in Hb. cbn [snd fst SingBox.Parse import_source] in Hb.
  destruct (Parse (ps_url s)) as [r|] eqn:Hr; [|done]. destruct (pr_outbound r) as [o|] eqn:Ho; [|done]. cbn [fmap option_fmap option_map] in Hb.
  injection Hb as <-. cbn [ob_options] in Hm. injection Hm as <-. exists s, r, o. split; [done|]. split; [|done].
  unfold FilterAllows in Ha. by destruct (Exclusion countries s).
Qed.

(** ** Properties *)

(** C36: links round trip.  Every outbound the importer can produce has a link
    that it reads as that outbound, with its type and its name, whatever bytes
    its secrets, paths and names hold; and whatever is read from a link is well
    formed: ports in range, an enabled reality section with its key and a
    fingerprint, no empty secret, lists without empty elements. *)
Theorem links_roundtrip o name parsed : outbound_ok o -> all_bytes host_byte (host_of o) = true -> MarshalOutbound o = Some parsed ->
  Parse (write_link (link_of o name)) = Ok (MkParsed (tunnel_type o) SourceURL name (Some o) None parsed) /\
  forall raw r o', Parse raw = Ok r -> r.(pr_outbound) = Some o' -> outbound_ok o'.
Proof. intros Ho Hh Hm. split; [by apply Parse_written|]. intros raw r o'. apply Parse_valid. Qed.

(** C37: a pool never holds an outbound without encryption.  If the keys of a
    pool have the schemes of the catalogues, every member that its group gets
    comes from a key the filter admits, and is VLESS or Trojan with TLS, whose
    certificate is checked whatever the key asked for, or Shadowsocks with one
    of the listed methods. *)
Theorem pool_members_encrypted t countries outs ob m :
  buildPool t countries = Some outs -> (forall s, s ∈ t.(t_pool) -> guarded_scheme (schemeOf (TrimSpace s.(ps_url)))) ->
  ob ∈ outs -> ob.(ob_options) = OMember m ->
  exists s o, s ∈ t.(t_pool) /\ Exclusion countries s = None /\ outbound_ok o /\ encrypted o /\
    m.(mb_type) = outbound_type o /\ m.(mb_insecure) <> Some true /\ m.(mb_body) = default EmptyString (MarshalOutbound (verified o)) /\
    forall tls, tls_of (verified o) = Some tls -> tls.(tls_insecure) = false.
Proof.
  intros Hb Hg Hob Hm. destruct (pool_group_members _ _ _ _ _ Hb Hob Hm) as (s & r & o & Hs & Hx & Hr & Ho & ->).
  destruct (Parse_outbound _ _ _ Hr Ho) as (u & Hu & Hout & Hsch). exists s, o. split; [done|]. split; [done|]. split; [by eapply Parse_valid|].
  split; [|split; [|split; [|split]]].
  - eapply admitted_encrypted; [|done|done|rewrite Hsch; by apply Hg]. apply (FilterAllows_spec countries). unfold FilterAllows. by rewrite Hx.
  - unfold forceCertVerify. by destruct (mb_insecure _) as [[]|].
  - unfold forceCertVerify. destruct (mb_insecure (member_of o)) as [[]|] eqn:E; cbn [mb_insecure]; by rewrite ?E.
  - unfold forceCertVerify. by destruct (mb_insecure _) as [[]|].
  - intros tls. destruct o as [| ? ? ? ? [?|] ?| |? ? [?|] ?|? ? ? ? ? ? ? [?|]]; cbn; try done; by intros [= <-].
Qed.

(** C38: what the panel issues can be imported.  The configuration file of a
    client, pasted into the form for tunnels of another gateway, becomes the
    WireGuard endpoint with the keys, the address, the MTU and the peer of that
    client, all traffic, and no second peer. *)
Theorem ClientConfig_imports p s key ip parsed :
  value_ok p.(p_private) -> value_ok p.(p_psk) -> value_ok key -> value_ok s.(s_wg_server) ->
  ParseAddr p.(p_address) = Some (V4 ip) -> valid_host s.(s_endpoint) -> validate_wg s = Ok tt ->
  MarshalEndpoint (imported p s key ip) = Some parsed ->
  exists text, ClientConfig p s key = Some text /\
    Parse text = Ok (MkParsed TunnelWireGuard (if isWARPHost s.(s_endpoint) then SourceWARP else SourceWGConf) EmptyString None (Some (imported p s key ip)) parsed).
Proof.
  intros Hpriv Hpsk Hkey Hdns Haddr Hhost Hv Hm. unfold validate_wg in Hv. inv_result. repeat match goal with x : unit |- _ => destruct x end. reflect_bools.
  assert (Hport : 1 <= s.(s_wg_port) <= 65535) by lia. assert (Hmtu : MinClientMTU <= s.(s_mtu) <= MaxClientMTU) by lia.
  destruct (client_text p s key) as [Ht Htrim]; [done..|]. exists (client_body p s key +:+ nl). split; [done|].
  pose proof (wireguardOptions_client p s key ip) as Hw. specialize (Hw Hpriv Hpsk Hkey Hdns Haddr Hhost Hport Hmtu).
  unfold Parse. cbv zeta. rewrite Htrim. assert (exists r, client_body p s key = String "[" r) as [r Hr] by (eexists; reflexivity).
  rewrite decide_False by (by rewrite Hr). assert (Hj : HasPrefix (client_body p s key) "{" = false) by (by rewrite Hr). rewrite Hj.
  assert (Hi : hasInterfaceSection (client_body p s key) = true).
  { unfold hasInterfaceSection, client_body, client_lines. cbn [app Join]. change nl with (String "010" EmptyString).
    change ("[Interface]" +:+ String "010" EmptyString +:+ ?x) with ("[Interface]" +:+ String "010" x). rewrite Split_app_sep. done. }
  rewrite Hi. unfold parseWireGuardConf. rewrite Hw. cbn [mbind result_bind]. rewrite Hm. unfold wireguardSource, imported. cbn [wo_peers existsb wgp_address].
  by rewrite orb_false_r.
Qed.
End spec.

(** ** Witnesses *)
Definition import_encoders : Encoders :=
  {| MarshalOutbound := fun o => Some (outbound_type o); MarshalEndpoint := fun _ => Some "endpoint"%string; URLHost := fun _ => None |}.
#[local] Existing Instances ascii_unicode ascii_runes import_encoders.

Definition import_outbound : ProxyOptions :=
  VLESSOptions (MkServer "2001:db8::1" 443) "id/#?@1" "xtls-rprx-vision" (Some "xudp"%string)
    (Some (MkTLS "cdn.example" true ["h2"; "http/1.1"]%string (Some "firefox"%string) (Some ("K+y", "ab")%string)))
    (Some (TransportWS "/a?b=c&d" (Some "host.example"%string) 2048)).
Lemma import_outbound_ok : outbound_ok import_outbound.
Proof.
  split; [split; [done|vm_compute; split; reflexivity]|]. split; [done|]. split; [by right; left|]. split; [done|]. split; [|split; [done|vm_compute; split; [discriminate|reflexivity]]].
  intros t [= <-]. split; cbn [tls_alpn tls_utls tls_reality].
  - repeat (apply Forall_cons; split); [..|by apply Forall_nil]; (split; [done|split; vm_compute; reflexivity]).
  - done.
  - by intros k [= <-].
  - by eexists.
  - done.
Qed.
Lemma links_roundtrip_witness :
  write_link (link_of import_outbound "dc 1") =
    "vless://id%2f%23%3f%401@[2001:db8::1]:443?encryption=none&flow=xtls%2drprx%2dvision&packetEncoding=xudp&security=tls&sni=cdn%2eexample&allowInsecure=1&alpn=h2%2chttp%2f1%2e1&fp=firefox&pbk=K%2by&sid=ab&type=ws&path=%2fa%3fb%3dc%26d&host=host%2eexample&ed=2048#dc%201"%string /\
  Parse (write_link (link_of import_outbound "dc 1")) = Ok (MkParsed TunnelVLESS SourceURL "dc 1" (Some import_outbound) None "vless").
Proof.
  split; [vm_compute; reflexivity|]. destruct (links_roundtrip import_outbound "dc 1" "vless") as [Hp _]; [apply import_outbound_ok|vm_compute; reflexivity|vm_compute; reflexivity|].
  exact Hp.
Defined.

Definition import_pool : Tunnel :=
  MkTunnel "pool" "Pool" TunnelVLESS SourcePool "https://list" "" true 0
    [MkPoolServer "vless://a@h.example:443?security=none" "" "A" 40 0;
     MkPoolServer "trojan://b@h.example:443?security=tls&allowInsecure=1" "" "B" 50 0;
     MkPoolServer "ss://YWVzLTI1Ni1nY206cHc@h.example:8388" "" "C" 60 0] zero_time true "".
Definition import_group : list Outbound :=
  [MkOutbound "trojan" "tun-pool-0" (OMember (MkMember "trojan" (Some false) "trojan"));
   MkOutbound "shadowsocks" "tun-pool-1" (OMember (MkMember "shadowsocks" None "shadowsocks"));
   MkOutbound TypeURLTest "tun-pool" (OURLTest ["tun-pool-0"; "tun-pool-1"])]%string.
Lemma pool_members_encrypted_witness :
  buildPool import_pool ["RU"]%string = Some import_group /\
  exists s o, s ∈ import_pool.(t_pool) /\ Exclusion ["RU"]%string s = None /\ outbound_ok o /\ encrypted o /\ "trojan"%string = outbound_type o.
Proof.
  assert (Hb : buildPool import_pool ["RU"]%string = Some import_group) by (vm_compute; reflexivity). split; [exact Hb|].
  destruct (pool_members_encrypted import_pool ["RU"]%string import_group (MkOutbound "trojan" "tun-pool-0" (OMember (MkMember "trojan" (Some false) "trojan")))
    (MkMember "trojan" (Some false) "trojan") Hb) as (s & o & Hs & Hx & Ho & He & Ht & _); [|by left|reflexivity|].
  - intros s Hs. apply (bool_decide_eq_true_1 (guarded_scheme (schemeOf (TrimSpace s.(ps_url))))). cbn [import_pool t_pool] in Hs.
    rewrite !elem_of_cons, elem_of_nil in Hs.
    destruct Hs as [-> | [-> | [-> | []]]]; vm_compute; reflexivity.
  - exists s, o. exact (conj Hs (conj Hx (conj Ho (conj He Ht)))).
Defined.

Definition import_peer : Peer := MkPeer false false "" 0 None "alice" "Alice" "cHVi" "cHJpdg==" "cHNr" "10.8.0.2" true 0.
Definition import_settings : Settings :=
  MkSettings false 8443 "" "" 443 51820 "10.8.0.0/24" "10.8.0.1" "2001:db8::5" 1280 "1.1.1.1" "udp" ""
    (24 * hour) hour DefaultPoolCountryBlocklist (2 * minute) "warn".
Lemma ClientConfig_imports_witness :
  exists text, ClientConfig import_peer import_settings "c2VydmVy" = Some text /\
    Parse text = Ok (MkParsed TunnelWireGuard SourceWGConf EmptyString None (Some (imported import_peer import_settings "c2VydmVy" 0x0A080002)) "endpoint").
Proof.
  assert (Hw : isWARPHost import_settings.(s_endpoint) = false) by (vm_compute; reflexivity).
  assert (Hv : forall v, all_bytes graphic_byte v && bool_decide (v <> EmptyString) = true -> value_ok v)
    by (intros v [H1 H2%bool_decide_eq_true]%andb_true_iff; exact (conj H1 H2)).
  assert (Hne : import_settings.(s_endpoint) <> EmptyString) by discriminate.
  pose proof (ClientConfig_imports import_peer import_settings "c2VydmVy" 0x0A080002 "endpoint"
    (Hv import_peer.(p_private) ltac:(vm_compute; reflexivity)) (Hv import_peer.(p_psk) ltac:(vm_compute; reflexivity)) (Hv "c2VydmVy"%string ltac:(vm_compute; reflexivity)) (Hv import_settings.(s_wg_server) ltac:(vm_compute; reflexivity))
    ltac:(vm_compute; reflexivity) (conj Hne (or_introl (ltac:(vm_compute; reflexivity) : ParseIP import_settings.(s_endpoint) = true)))
    ltac:(vm_compute; reflexivity) ltac:(vm_compute; reflexivity)) as Hp.
  rewrite Hw in Hp. exact Hp.
Defined.
