(* ===== verification/NativeRegex.v ===== *)
(** * The budget of regular expressions

    [internal/lists/native_regex.go]: what the programs of the regular
    expressions of a rule set cost, computed with saturation before any of them
    is compiled.  The saturated estimate decides like the exact one, so the
    programs of everything that is admitted, loaded twice, stay in the budget. *)

From S2P Require Import Prelude GoStd.
#[local] Open Scope Z_scope.

Definition maxNativeRegexCount : Z := 1024.
Definition maxNativeRegexBytes : Z := 32 * 2 ^ 10.
Definition maxNativeRegexAST : Z := 64 * 2 ^ 10.
Definition maxNativeRegexInstructions : Z := 64 * 2 ^ 10.
Definition maxNativeRegexRunes : Z := 128 * 2 ^ 10.
Definition nativeRegexCostCeiling : Z := maxNativeRegexRunes + 1.

(** [syntax.Regexp]; the parser is that of the standard library. *)
Inductive RegexOp :=
  | OpNoMatch | OpEmptyMatch | OpLiteral | OpCharClass | OpAnyCharNotNL | OpAnyChar
  | OpBeginLine | OpEndLine | OpBeginText | OpEndText | OpWordBoundary | OpNoWordBoundary
  | OpCapture | OpStar | OpPlus | OpQuest | OpRepeat | OpConcat | OpAlternate | OpUnknown.
Inductive Regexp :=
  | Re (op : RegexOp) (runes : list Z) (sub : list Regexp) (min max : Z).

Record nativeRegexBudget := MkBudget { rb_count : Z; rb_bytes : Z; rb_ast : Z; rb_instructions : Z; rb_runes : Z }.
Record nativeRegexCost := MkCost { rc_ast : Z; rc_instructions : Z; rc_runes : Z }.

Definition regexCostAdd (a b : Z) : Z :=
  if decide (nativeRegexCostCeiling - b <= a) then nativeRegexCostCeiling else a + b.
Definition regexCostMultiply (a b : Z) : Z :=
  if decide (a <> 0 /\ nativeRegexCostCeiling `quot` a < b) then nativeRegexCostCeiling else a * b.

(** The number of the copies of a repetition, and the instructions beside them. *)
Definition repeat_copies (min max : Z) : Z * Z :=
  if decide (max < 0) then (if decide (min < 1) then 1 else min, 2) else (max, max - min).

(** The switch of [estimateNativeRegex], over the costs of the operands. *)
Definition op_cost (op : RegexOp) (runes : list Z) (children : list nativeRegexCost) (min max : Z) : result (Z * Z) :=
  let n := Z.of_nat (length runes) in
  let sum extra := (regexCostAdd (foldl (fun acc c => regexCostAdd acc c.(rc_instructions)) 0 children) extra,
                    foldl (fun acc c => regexCostAdd acc c.(rc_runes)) 0 children) in
  let plain_sum := (foldl (fun acc c => regexCostAdd acc c.(rc_instructions)) 0 children,
                    foldl (fun acc c => regexCostAdd acc c.(rc_runes)) 0 children) in
  match op with
  | OpNoMatch | OpEmptyMatch | OpBeginLine | OpEndLine | OpBeginText | OpEndText | OpWordBoundary | OpNoWordBoundary => Ok (1, 0)
  | OpLiteral => Ok (n, n)
  | OpCharClass => Ok (1, n)
  | OpAnyChar => Ok (1, 2)
  | OpAnyCharNotNL => Ok (1, 4)
  | OpCapture | OpStar => Ok (sum 2)
  | OpPlus | OpQuest => Ok (sum 1)
  | OpConcat => Ok plain_sum
  | OpAlternate => Ok (if decide (1 < Z.of_nat (length children)) then sum (Z.of_nat (length children) - 1) else plain_sum)
  | OpRepeat =>
      match children with
      | [c] => let '(copies, extra) := repeat_copies min max in
               Ok (regexCostAdd (regexCostMultiply copies c.(rc_instructions)) extra, regexCostMultiply copies c.(rc_runes))
      | _ => fail ErrOther "regex repeat structure"
      end
  | OpUnknown => fail ErrOther "regex operation"
  end.
Fixpoint estimateNativeRegex (re : Regexp) : result nativeRegexCost :=
  match re with
  | Re op runes sub min max =>
      children ← (fix estimate_all (l : list Regexp) : result (list nativeRegexCost) :=
                    match l with
                    | [] => Ok []
                    | r :: l => c ← estimateNativeRegex r; cs ← estimate_all l; Ok (c :: cs)
                    end) sub;
      let ast := foldl (fun acc c => regexCostAdd acc c.(rc_ast)) (regexCostAdd 1 (Z.of_nat (length runes))) children in
      '(instructions, nrunes) ← op_cost op runes children min max;
      Ok (MkCost ast (if decide (instructions < 1) then 1 else instructions) nrunes)
  end.

(** A repetition has a least number and, unless [max] is negative, a greatest
    one that is not below it. *)
Inductive re_ok : Regexp -> Prop :=
  | Re_ok op runes sub min max : 0 <= min -> max < 0 \/ min <= max -> Forall re_ok sub -> re_ok (Re op runes sub min max).
(** [syntax.Parse] and [regexp.Compile]. *)
Class RegexSyntax := {
  RegexParse : string -> option Regexp;
  RegexParse_ok s re : RegexParse s = Some re -> re_ok re;
  RegexCompiles : string -> bool
}.

Section patterns.
Context `{RegexSyntax}.

Definition admit_pattern (b : nativeRegexBudget) (pattern : string) : result nativeRegexBudget :=
  let size := Z.of_nat (String.length pattern) in
  if decide (maxNativeRegexCount <= b.(rb_count) \/ maxNativeRegexBytes - b.(rb_bytes) < size) then fail ErrOther "native regex complexity budget"
  else
    match RegexParse pattern with
    | None => fail ErrOther "invalid domain regex"
    | Some parsed =>
        cost ← estimateNativeRegex parsed;
        let ast := regexCostMultiply cost.(rc_ast) 2 in
        let instructions := regexCostMultiply (regexCostAdd cost.(rc_instructions) 2) 2 in
        let runes := regexCostMultiply cost.(rc_runes) 2 in
        if decide (maxNativeRegexAST - b.(rb_ast) < ast \/ maxNativeRegexInstructions - b.(rb_instructions) < instructions \/
                   maxNativeRegexRunes - b.(rb_runes) < runes)
        then fail ErrOther "native regex complexity budget"
        else Ok (MkBudget (b.(rb_count) + 1) (b.(rb_bytes) + size) (b.(rb_ast) + ast) (b.(rb_instructions) + instructions) (b.(rb_runes) + runes))
    end.
Fixpoint admit_all (b : nativeRegexBudget) (patterns : list string) : result nativeRegexBudget :=
  match patterns with
  | [] => Ok b
  | p :: patterns => b ← admit_pattern b p; admit_all b patterns
  end.
Definition no_budget : nativeRegexBudget := MkBudget 0 0 0 0 0.
End patterns.

(** ** The exact cost *)

(** The same numbers in unbounded arithmetic: nodes and runes of the tree, and
    instructions and runes of the program after repetitions are expanded. *)
Definition cost_total (f : nativeRegexCost -> Z) (l : list nativeRegexCost) : Z := foldl (fun acc c => acc + f c) 0 l.
Definition exact_op (op : RegexOp) (runes : list Z) (children : list nativeRegexCost) (min max : Z) : Z * Z :=
  let n := Z.of_nat (length runes) in
  let instructions := cost_total rc_instructions children in
  let nrunes := cost_total rc_runes children in
  match op with
  | OpLiteral => (n, n)
  | OpCharClass => (1, n)
  | OpAnyChar => (1, 2)
  | OpAnyCharNotNL => (1, 4)
  | OpCapture | OpStar => (instructions + 2, nrunes)
  | OpPlus | OpQuest => (instructions + 1, nrunes)
  | OpConcat => (instructions, nrunes)
  | OpAlternate => (instructions + Z.max 0 (Z.of_nat (length children) - 1), nrunes)
  | OpRepeat => let '(copies, extra) := repeat_copies min max in (copies * instructions + extra, copies * nrunes)
  | _ => (1, 0)
  end.
Fixpoint exact_cost (re : Regexp) : nativeRegexCost :=
  match re with
  | Re op runes sub min max =>
      let children := map exact_cost sub in
      let '(instructions, nrunes) := exact_op op runes children min max in
      MkCost (1 + Z.of_nat (length runes) + cost_total rc_ast children) (Z.max 1 instructions) nrunes
  end.

(** ** Saturation *)
Definition sat (x : Z) : Z := Z.min x nativeRegexCostCeiling.
Lemma ceiling_eq : nativeRegexCostCeiling = 131073.
Proof. done. Qed.
Ltac saturate := unfold sat in *; rewrite ?ceiling_eq in *; nia.

Lemma add_sat a b : sat (regexCostAdd a b) = sat (a + b).
Proof. unfold regexCostAdd. case_decide; saturate. Qed.
Lemma add_nonneg a b : 0 <= a -> 0 <= b -> 0 <= regexCostAdd a b.
Proof. unfold regexCostAdd. case_decide; rewrite ?ceiling_eq; lia. Qed.
Lemma mul_sat a b : 0 <= a -> 0 <= b -> sat (regexCostMultiply a b) = sat (a * b).
Proof.
  intros Ha Hb. unfold regexCostMultiply. rewrite ceiling_eq. case_decide as Hc.
  - destruct Hc as [Hn Hq]. assert (131073 < a * b) by (rewrite Z.quot_div_nonneg in Hq by lia; Z.to_euclidean_division_equations; nia). saturate.
  - done.
Qed.
Lemma mul_nonneg a b : 0 <= a -> 0 <= b -> 0 <= regexCostMultiply a b.
Proof. unfold regexCostMultiply. case_decide; rewrite ?ceiling_eq; nia. Qed.
Lemma sat_add a a' b b' : 0 <= a -> 0 <= a' -> 0 <= b -> 0 <= b' -> sat a = sat a' -> sat b = sat b' -> sat (a + b) = sat (a' + b').
Proof. intros. saturate. Qed.
Lemma sat_mul a b b' : 0 <= a -> 0 <= b -> 0 <= b' -> sat b = sat b' -> sat (a * b) = sat (a * b').
Proof. intros. unfold sat in *. rewrite ceiling_eq in *. destruct (decide (a = 0)) as [->|]; [lia|]. destruct (decide (b = b')) as [->|]; [done|]. nia. Qed.

(** An estimate agrees with the exact cost up to the ceiling. *)
Record cost_eq (c e : nativeRegexCost) : Prop := MkCostEq {
  ce_ast : sat c.(rc_ast) = sat e.(rc_ast);
  ce_instructions : sat c.(rc_instructions) = sat e.(rc_instructions);
  ce_runes : sat c.(rc_runes) = sat e.(rc_runes);
  ce_nonneg : 0 <= c.(rc_ast) /\ 0 <= c.(rc_instructions) /\ 0 <= c.(rc_runes) /\ 0 <= e.(rc_ast) /\ 0 <= e.(rc_instructions) /\ 0 <= e.(rc_runes)
}.

Lemma sum_sat f cs es a b : (forall c e, cost_eq c e -> sat (f c) = sat (f e) /\ 0 <= f c /\ 0 <= f e) -> Forall2 cost_eq cs es ->
  0 <= a -> 0 <= b -> sat a = sat b ->
  sat (foldl (fun acc c => regexCostAdd acc (f c)) a cs) = sat (foldl (fun acc c => acc + f c) b es) /\
  0 <= foldl (fun acc c => regexCostAdd acc (f c)) a cs /\ 0 <= foldl (fun acc c => acc + f c) b es.
Proof.
  intros Hf Hl. revert a b. induction Hl as [|c e cs es Hce Hl IH]; intros a b Ha Hb Hab; [done|]. cbn [foldl].
  destruct (Hf c e Hce) as (Hs & Hc & He). apply IH; [by apply add_nonneg|lia|]. rewrite add_sat. by apply sat_add.
Qed.
Lemma total_shift f l a : foldl (fun acc c => acc + f c) a l = a + cost_total f l.
Proof.
  unfold cost_total. revert a. induction l as [|c l IH]; intros a; cbn [foldl]; [lia|]. rewrite IH, (IH (0 + f c)). lia.
Qed.

Lemma op_cost_sat op runes cs es min max i r :
  Forall2 cost_eq cs es -> 0 <= min -> max < 0 \/ min <= max -> op_cost op runes cs min max = Ok (i, r) ->
  let e := exact_op op runes es min max in
  sat i = sat e.1 /\ sat r = sat e.2 /\ 0 <= i /\ 0 <= r /\ 0 <= e.1 /\ 0 <= e.2.
Proof.
  intros Hl Hmin Hmax Ho. cbv zeta.
  destruct (sum_sat rc_instructions cs es 0 0) as (Hi & Hi0 & Hi0'); [by intros c e [? ? ? (? & ? & ? & ? & ? & ?)]|done..|].
  destruct (sum_sat rc_runes cs es 0 0) as (Hr & Hr0 & Hr0'); [by intros c e [? ? ? (? & ? & ? & ? & ? & ?)]|done..|].
  pose proof (Forall2_length _ _ _ Hl) as Hlen. fold (cost_total rc_instructions es) in *. fold (cost_total rc_runes es) in *.
  assert (Hsum : forall x, 0 <= x -> let s := regexCostAdd (foldl (fun acc c => regexCostAdd acc (rc_instructions c)) 0 cs) x in
    sat s = sat (cost_total rc_instructions es + x) /\ 0 <= s).
  { intros x Hx. split; [rewrite add_sat; by apply sat_add|by apply add_nonneg]. }
  destruct op; cbn [op_cost exact_op fst snd] in Ho |- *; inv_result;
    try (repeat split; first [done|lia]; fail).
  - destruct (Hsum 2); [lia|]. repeat split; try done; lia.
  - destruct (Hsum 2); [lia|]. repeat split; try done; lia.
  - destruct (Hsum 1); [lia|]. repeat split; try done; lia.
  - destruct (Hsum 1); [lia|]. repeat split; try done; lia.
  - destruct Hl as [|c e cs es Hce [|]]; [done| |done]. destruct Hce as [_ Hci Hcr Hn].
    unfold repeat_copies in *.
    assert (Hgen : forall copies extra, 0 <= copies -> 0 <= extra ->
      i = regexCostAdd (regexCostMultiply copies (rc_instructions c)) extra -> r = regexCostMultiply copies (rc_runes c) ->
      let e' := (copies * cost_total rc_instructions [e] + extra, copies * cost_total rc_runes [e]) in
      sat i = sat e'.1 /\ sat r = sat e'.2 /\ 0 <= i /\ 0 <= r /\ 0 <= e'.1 /\ 0 <= e'.2).
    { intros copies extra Hc He -> ->. cbn [fst snd cost_total foldl]. rewrite add_sat.
      assert (0 <= regexCostMultiply copies (rc_instructions c)) by (apply mul_nonneg; lia).
      assert (0 <= regexCostMultiply copies (rc_runes c)) by (apply mul_nonneg; lia).
      split; [apply sat_add; try nia; rewrite mul_sat by lia; apply sat_mul; [lia..|by rewrite Z.add_0_l]|].
      split; [rewrite mul_sat by lia; apply sat_mul; [lia..|by rewrite Z.add_0_l]|]. split; [by apply add_nonneg|]. nia. }
    case_decide; injection Ho as <- <-; apply Hgen; try done; try case_decide; lia.
  - rewrite Hlen in *. case_decide; simplify_eq.
    + destruct (Hsum (Z.of_nat (length es) - 1)); [lia|]. rewrite Z.max_r by lia. repeat split; try done; lia.
    + rewrite Z.max_l by lia. rewrite Z.add_0_r. repeat split; try done; lia.
Qed.

Lemma Regexp_ind' (P : Regexp -> Prop) :
  (forall op runes sub min max, Forall P sub -> P (Re op runes sub min max)) -> forall re, P re.
Proof.
  intros Hstep. fix IH 1. intros [op runes sub min max]. apply Hstep. induction sub as [|r sub IHs]; constructor; [apply IH|exact IHs].
Qed.
(** The saturated estimate is the exact cost, cut at the ceiling. *)
Lemma estimate_sat re c : re_ok re -> estimateNativeRegex re = Ok c -> cost_eq c (exact_cost re).
Proof.
  revert c. induction re as [op runes sub min max IH] using Regexp_ind'. intros c Hre He. inversion Hre as [? ? ? ? ? Hmin Hmax Hsub]; subst.
  cbn [estimateNativeRegex] in He. apply result_bind_Ok in He as (cs & Hcs & He).
  assert (Hl : Forall2 cost_eq cs (map exact_cost sub)).
  { clear He Hmin Hmax Hre. revert cs Hcs. induction sub as [|r sub IHs]; intros cs Hcs; inv_result; [constructor|].
    apply Forall_cons in IH as [Hr IH]. apply Forall_cons in Hsub as [Hrok Hsub]. constructor; [by apply Hr|]. by apply IHs. }
  inv_result. destruct x as [i r]. inv_result. cbn [exact_cost].
  match goal with H : op_cost _ _ _ _ _ = _ |- _ => destruct (op_cost_sat _ _ _ _ _ _ _ _ Hl Hmin Hmax H) as (H1 & H2 & H3 & H4 & H5 & H6) end.
  destruct (exact_op op runes (map exact_cost sub) min max) as [ei er]. cbn [fst snd] in *.
  destruct (sum_sat rc_ast cs (map exact_cost sub) (regexCostAdd 1 (Z.of_nat (length runes))) (1 + Z.of_nat (length runes)))
    as (Ha & Ha0 & Ha0'); [by intros ? ? [? ? ? (? & ? & ? & ? & ? & ?)]|done|apply add_nonneg; lia|lia|apply add_sat|].
  rewrite total_shift in Ha, Ha0'. constructor; cbn [rc_ast rc_instructions rc_runes]; [done| |done|].
  - unfold sat in *. rewrite ceiling_eq in *. case_decide; lia.
  - case_decide; lia.
Qed.

(** ** The budget *)
Section budget.
Context `{RegexSyntax}.

(** The resources of the patterns, each program being loaded twice. *)
Definition pattern_cost (p : string) : nativeRegexCost := default (MkCost 0 0 0) (exact_cost <$> RegexParse p).
Definition loaded (f : nativeRegexCost -> Z) (patterns : list string) : Z := foldr (fun p acc => 2 * f (pattern_cost p) + acc) 0 patterns.
Definition bytes_all (patterns : list string) : Z := foldr (fun p acc => Z.of_nat (String.length p) + acc) 0 patterns.

Record within (b : nativeRegexBudget) : Prop := MkWithin {
  wi_count : b.(rb_count) <= maxNativeRegexCount;
  wi_bytes : b.(rb_bytes) <= maxNativeRegexBytes;
  wi_ast : 0 <= b.(rb_ast) <= maxNativeRegexAST;
  wi_instructions : 0 <= b.(rb_instructions) <= maxNativeRegexInstructions;
  wi_runes : 0 <= b.(rb_runes) <= maxNativeRegexRunes
}.
Lemma doubled a e : 0 <= a -> 0 <= e -> sat a = sat e ->
  regexCostMultiply a 2 <= maxNativeRegexRunes \/ 2 * e <= maxNativeRegexRunes -> regexCostMultiply a 2 = 2 * e.
Proof.
  intros Ha He Hs Hm. pose proof (mul_sat a 2 Ha ltac:(lia)) as Hq. revert Hs Hm Hq. unfold sat. change maxNativeRegexRunes with 131072.
  rewrite ceiling_eq. lia.
Qed.
Definition supported (p : string) : Prop := exists re c, RegexParse p = Some re /\ estimateNativeRegex re = Ok c.
Definition charged (b : nativeRegexBudget) (p : string) : nativeRegexBudget :=
  MkBudget (b.(rb_count) + 1) (b.(rb_bytes) + Z.of_nat (String.length p)) (b.(rb_ast) + 2 * (pattern_cost p).(rc_ast))
    (b.(rb_instructions) + 2 * ((pattern_cost p).(rc_instructions) + 2)) (b.(rb_runes) + 2 * (pattern_cost p).(rc_runes)).
Lemma admit_supported b p b' : admit_pattern b p = Ok b' -> supported p.
Proof.
  unfold admit_pattern. cbv zeta. case_decide; [done|]. destruct (RegexParse p) as [re|] eqn:Hp; [|done].
  intros (c & Hc & _)%result_bind_Ok. by exists re, c.
Qed.
Lemma pattern_nonneg p : supported p -> 0 <= (pattern_cost p).(rc_ast) /\ 0 <= (pattern_cost p).(rc_instructions) /\ 0 <= (pattern_cost p).(rc_runes).
Proof.
  intros (re & c & Hp & Hc). destruct (estimate_sat _ _ (RegexParse_ok _ _ Hp) Hc) as [_ _ _ Hn]. unfold pattern_cost. rewrite Hp. cbn. tauto.
Qed.
Lemma admit_step b p b' : within b -> supported p -> admit_pattern b p = Ok b' <-> within (charged b p) /\ b' = charged b p.
Proof.
  intros [Wc Wb Wa Wi Wr] (re & c & Hp & Hc). destruct (estimate_sat _ _ (RegexParse_ok _ _ Hp) Hc) as [Ea Ei Er (Ha0 & Hi0 & Hr0 & Ha0' & Hi0' & Hr0')].
  assert (E2 : sat (regexCostAdd (rc_instructions c) 2) = sat (rc_instructions (exact_cost re) + 2)) by (rewrite add_sat; apply sat_add; try done; lia).
  assert (Hn2 : 0 <= regexCostAdd (rc_instructions c) 2) by (apply add_nonneg; lia).
  pose proof (doubled _ _ Ha0 Ha0' Ea) as Da. pose proof (doubled _ _ Hn2 (Z.add_nonneg_nonneg _ _ Hi0' (ltac:(done) : 0 <= 2)) E2) as Di.
  pose proof (doubled _ _ Hr0 Hr0' Er) as Dr. unfold admit_pattern. rewrite Hp. cbn [mbind result_bind]. rewrite Hc. cbn [mbind result_bind]. cbv zeta.
  assert (Hpc : pattern_cost p = exact_cost re) by (unfold pattern_cost; by rewrite Hp). unfold charged. rewrite Hpc.
  change maxNativeRegexCount with 1024 in *. change maxNativeRegexBytes with 32768 in *.
  change maxNativeRegexAST with 65536 in *. change maxNativeRegexInstructions with 65536 in *. change maxNativeRegexRunes with 131072 in *.
  split.
  - case_decide as H1; [done|]. case_decide as H3; [done|]. specialize (Da ltac:(lia)). specialize (Di ltac:(lia)). specialize (Dr ltac:(lia)).
    rewrite Da, Di, Dr in *. intros [= <-]. split; [|done]. constructor; cbn [rb_count rb_bytes rb_ast rb_instructions rb_runes]; unfold maxNativeRegexCount, maxNativeRegexBytes, maxNativeRegexAST, maxNativeRegexInstructions, maxNativeRegexRunes; lia.
  - intros [[Vc Vb Va Vi Vr] ->]. cbn [rb_count rb_bytes rb_ast rb_instructions rb_runes] in *.
    change maxNativeRegexCount with 1024 in *. change maxNativeRegexBytes with 32768 in *.
    change maxNativeRegexAST with 65536 in *. change maxNativeRegexInstructions with 65536 in *. change maxNativeRegexRunes with 131072 in *.
    specialize (Da ltac:(lia)). specialize (Di ltac:(lia)). specialize (Dr ltac:(lia)). rewrite Da, Di, Dr. do 2 rewrite decide_False by lia. done.
Qed.

Record fits (b : nativeRegexBudget) (patterns : list string) : Prop := MkFits {
  fi_count : b.(rb_count) + Z.of_nat (length patterns) <= maxNativeRegexCount;
  fi_bytes : b.(rb_bytes) + bytes_all patterns <= maxNativeRegexBytes;
  fi_ast : b.(rb_ast) + loaded rc_ast patterns <= maxNativeRegexAST;
  fi_instructions : b.(rb_instructions) + loaded (fun c => c.(rc_instructions) + 2) patterns <= maxNativeRegexInstructions;
  fi_runes : b.(rb_runes) + loaded rc_runes patterns <= maxNativeRegexRunes
}.
Lemma loaded_nonneg patterns : Forall supported patterns -> 0 <= bytes_all patterns /\ 0 <= loaded rc_ast patterns /\
  0 <= loaded (fun c => c.(rc_instructions) + 2) patterns /\ 0 <= loaded rc_runes patterns.
Proof.
  induction 1 as [|p l Hp _ IH]; [done|]. apply pattern_nonneg in Hp. unfold bytes_all, loaded in *. cbn [foldr]. lia.
Qed.
Lemma admit_all_iff patterns b : within b -> (exists b', admit_all b patterns = Ok b') <-> Forall supported patterns /\ fits b patterns.
Proof.
  revert b. induction patterns as [|p l IH]; intros b Hb; cbn [admit_all].
  { split; [|by eexists]. intros _. split; [constructor|]. destruct Hb. constructor; unfold bytes_all, loaded; cbn [length foldr]; lia. }
  assert (Hstep : supported p -> within (charged b p) -> (exists b', admit_all (charged b p) l = Ok b') <-> Forall supported l /\ fits b (p :: l)).
  { intros Hp Hc. rewrite (IH _ Hc). apply and_iff_compat_l. unfold charged. split; intros []; constructor; unfold bytes_all, loaded in *; cbn [foldr length rb_count rb_bytes rb_ast rb_instructions rb_runes] in *; lia. }
  split.
  - intros [b' (b1 & H1 & H2)%result_bind_Ok]. pose proof (admit_supported _ _ _ H1) as Hp. apply admit_step in H1 as [Hc ->]; [|done..].
    destruct (proj1 (Hstep Hp Hc)) as [Hl Hf]; [by eexists|]. split; [by constructor|done].
  - intros [[Hp Hl]%Forall_cons Hf].
    assert (Hc : within (charged b p)).
    { pose proof (pattern_nonneg p Hp) as Hn. pose proof (loaded_nonneg l Hl) as Hn'. destruct Hb, Hf. unfold charged.
      constructor; unfold bytes_all, loaded in *; cbn [foldr length rb_count rb_bytes rb_ast rb_instructions rb_runes] in *; lia. }
    destruct (proj2 (Hstep Hp Hc) (conj Hl Hf)) as [b' Hb']. exists b'. apply result_bind_Ok. exists (charged b p).
    split; [by apply admit_step|done].
Qed.
End budget.

(** C40: the budget of regular expressions is exact.  Whatever the repetitions
    expand to, a sequence of patterns is admitted exactly when all are
    supported and, counting every program twice as it is loaded twice, they are
    at most 1024, hold at most 32 KiB of text, and the sizes of their trees,
    programs and rune tables, in unbounded arithmetic, stay within the limits:
    the saturating estimate never lets a larger one through and never refuses a
    smaller one. *)
Theorem regex_budget_exact `{RegexSyntax} patterns :
  (exists b, admit_all no_budget patterns = Ok b) <->
  Forall supported patterns /\ Z.of_nat (length patterns) <= 1024 /\ bytes_all patterns <= 32768 /\
  loaded rc_ast patterns <= 65536 /\ loaded (fun c => c.(rc_instructions) + 2) patterns <= 65536 /\ loaded rc_runes patterns <= 131072.
Proof.
  rewrite admit_all_iff by (by constructor). apply and_iff_compat_l. unfold no_budget. split.
  - intros []. cbn [rb_count rb_bytes rb_ast rb_instructions rb_runes] in *.
    change maxNativeRegexCount with 1024 in *. change maxNativeRegexBytes with 32768 in *.
    change maxNativeRegexAST with 65536 in *. change maxNativeRegexInstructions with 65536 in *. change maxNativeRegexRunes with 131072 in *. lia.
  - intros (? & ? & ? & ? & ?). constructor; cbn [rb_count rb_bytes rb_ast rb_instructions rb_runes]; unfold maxNativeRegexCount, maxNativeRegexBytes, maxNativeRegexAST, maxNativeRegexInstructions, maxNativeRegexRunes; lia.
Qed.
