(* ===== verification/Native.v ===== *)
(** * Rule sets of sing-box, compiled for interception

    [internal/lists/native.go]: a rule set is a tree of conditions on the name,
    the address and the transport of a connection; the packet filter only knows
    sets of IPv4 addresses and the resolver only names.  The compiler splits a
    set into a condition on names, a set of addresses, and a set of addresses
    that is used for TCP and UDP only, and refuses a set that it cannot split or
    whose address sets would be unbounded.

    [netipx.IPSet] is its sorted list of ranges ([Nft.IPSets]); complement,
    prefixes and [sort.Slice] are the class [IPSetOps].  The compiled forms
    [DomainMatcher] and [IPSet] of a rule, which the readers in use leave nil,
    are left out, and so is the recovery from a panic.  Every error of this file
    wraps [ErrUnsupportedNative]; only its label is kept. *)

From Stdlib Require Import Ascii.
From S2P Require Import Prelude GoStd Nft NativeRegex.
#[local] Open Scope Z_scope.

Definition maxNativeNodes : Z := 10000.
Definition maxNativeDepth : Z := 32.
Definition maxNativeValues : Z := 200000.
Definition maxNativeProjectionWork : Z := 4 * 2 ^ 20.

(** [DefaultHeadlessRule].  [dr_other]: a field that is not listed is set;
    [dr_empty_context]: network, port or port range is a list that is empty but
    not nil. *)
Record DefaultRule := MkDefault {
  dr_domain : list string;
  dr_suffix : list string;
  dr_keyword : list string;
  dr_regex : list string;
  dr_ip_cidr : list string;
  dr_network : list string;
  dr_port : list Z;
  dr_port_range : list string;
  dr_invert : bool;
  dr_other : bool;
  dr_empty_context : bool
}.
(** [HeadlessRule]: the type decides whether the default rule or the logical
    rule (mode, rules, invert) is meant. *)
Inductive HeadlessRule :=
  | Rule (type : string) (default : DefaultRule) (mode : string) (rules : list HeadlessRule) (invert : bool).
Definition no_default : DefaultRule := MkDefault [] [] [] [] [] [] [] [] false false false.

(** [nativeExpr]; a nil set is [None]. *)
Record nativeExpr := MkExpr {
  ne_domain : option HeadlessRule;
  ne_address : option (list IPRange);
  ne_empty : bool;
  ne_transport : option (list IPRange)
}.
Definition no_expr : nativeExpr := MkExpr None None false None.
Definition address_expr (a : option (list IPRange)) : nativeExpr := MkExpr None a false None.

(** The counters the compiler threads through the tree. *)
Record nativeWork := MkWork { nw_nodes : Z; nw_values : Z; nw_remaining : Z; nw_regex : nativeRegexBudget }.

Definition unsupported {A} (label : string) : result A := fail ErrOther label.

(** [bits.Len] of a positive number. *)
Definition bits_Len (n : Z) : Z := Z.log2 n + 1.
Definition charge_work (n : Z) (normalize : bool) (w : nativeWork) : result nativeWork :=
  let n := if normalize && bool_decide (0 < n) then n * (bits_Len n + 1) else n in
  if decide (w.(nw_remaining) < n) then unsupported "native projection work budget"
  else Ok (MkWork w.(nw_nodes) w.(nw_values) (w.(nw_remaining) - n) w.(nw_regex)).

(** ** Ranges *)

(** Inputs are sorted and disjoint: a merge. *)
Fixpoint intersectNativeRanges (a : list IPRange) : list IPRange -> list IPRange :=
  match a with
  | [] => fun _ => []
  | (a1, a2) :: a' =>
      fix step (b : list IPRange) : list IPRange :=
        match b with
        | [] => []
        | (b1, b2) :: b' =>
            let from := if decide (a1 < b1) then b1 else a1 in
            let to := if decide (b2 < a2) then b2 else a2 in
            let rest := if decide (a2 < b2) then intersectNativeRanges a' b else step b' in
            if decide (from <= to) then (from, to) :: rest else rest
        end
  end.

Definition whole_ipv4 : IPRange := (0, 2 ^ 32 - 1).

(** [RemoveSet] from all of IPv4, [IPSet.Prefixes] and [sort.Slice] by length. *)
Class IPSetOps `{IPS : IPSets} := {
  Complement : list IPRange -> list IPRange;
  Complement_in l ip : ranges_ok 0 l -> 0 <= ip < 2 ^ 32 -> in_ranges (Complement l) ip = negb (in_ranges l ip);
  Complement_ok l : ranges_ok 0 l -> ranges_ok 0 (Complement l);
  Prefixes : list IPRange -> list Prefix;
  Prefixes_ipv4 l p : ranges_ok 0 l -> p ∈ Prefixes l -> exists ip bits, p = MkPrefix (V4 ip) bits /\ 0 <= ip < 2 ^ 32 /\ 0 <= bits <= 32;
  Prefixes_in l ip : ranges_ok 0 l -> 0 <= ip < 2 ^ 32 -> existsb (fun p => Contains p (V4 ip)) (Prefixes l) = in_ranges l ip;
  Prefixes_whole l : ranges_ok 0 l -> (forall ip, 0 <= ip < 2 ^ 32 -> in_ranges l ip = true) -> Prefixes l = [MkPrefix (V4 0) 0];
  SortByLength : list (list IPRange) -> list (list IPRange);
  SortByLength_perm l : SortByLength l ≡ₚ l;
  SortByLength_sorted l : StronglySorted (fun a b => (length a <= length b)%nat) (SortByLength l)
}.
Arguments IPSetOps {IPS}.

Section native.
Context `{IPS : IPSets} `{!IPSetOps} `{RegexSyntax} (legacy : bool).

(** ** Inversion and combination *)
Definition invert_rule (r : HeadlessRule) : HeadlessRule :=
  let '(Rule type d mode rules invert) := r in
  if decide (type = "logical"%string) then Rule type d mode rules (negb invert)
  else Rule type (MkDefault d.(dr_domain) d.(dr_suffix) d.(dr_keyword) d.(dr_regex) d.(dr_ip_cidr) d.(dr_network) d.(dr_port)
                    d.(dr_port_range) (negb d.(dr_invert)) d.(dr_other) d.(dr_empty_context)) mode rules invert.
Definition invertNative (e : nativeExpr) (invert : bool) (w : nativeWork) : result (nativeExpr * nativeWork) :=
  if negb invert then Ok (e, w)
  else match e.(ne_domain), e.(ne_address) with
       | Some _, Some _ => unsupported "mixed domain/address inversion"
       | Some r, None => Ok (MkExpr (Some (invert_rule r)) None (negb e.(ne_empty)) e.(ne_transport), w)
       | None, Some rs =>
           w ← charge_work (Z.of_nat (length rs) + 1) true w;
           Ok (MkExpr None (Some (Complement rs)) e.(ne_empty) e.(ne_transport), w)
       | None, None => Ok (e, w)
       end.

Definition ModeAnd : string := "and".
Definition ModeOr : string := "or".
(** The intersection of the sets after the first one. *)
Fixpoint intersect_all (ranges : list IPRange) (next : list (list IPRange)) (w : nativeWork) : result (list IPRange * nativeWork) :=
  match next with
  | [] => Ok (ranges, w)
  | b :: next =>
      w ← charge_work (Z.of_nat (length ranges) + Z.of_nat (length b)) false w;
      let ranges := intersectNativeRanges ranges b in
      if decide (ranges = []) then Ok (ranges, w) else intersect_all ranges next w
  end.
(** The address sets of the operands as one set; [None] when there are none. *)
Definition combine_addresses (sets : list (list IPRange)) (mode : string) (w : nativeWork) : result (option (list IPRange) * nativeWork) :=
  if decide (sets = []) then Ok (None, w)
  else if decide (mode = ModeOr) then
    w ← charge_work (Z.of_nat (length (concat sets))) true w;
    Ok (Some (Ranges (concat sets)), w)
  else
    match SortByLength sets with
    | [] => Ok (None, w)
    | first :: next =>
        '(ranges, w) ← intersect_all first next w;
        w ← charge_work (Z.of_nat (length ranges)) true w;
        Ok (Some (Ranges ranges), w)
    end.
(** [combineNative] of operands without a transport set. *)
Definition combine_plain (ee : list nativeExpr) (mode : string) (invert : bool) (w : nativeWork) : result (nativeExpr * nativeWork) :=
  let allD := forallb (fun e => bool_decide (e.(ne_domain) <> None) && bool_decide (e.(ne_address) = None)) ee in
  let allA := forallb (fun e => bool_decide (e.(ne_domain) = None) && bool_decide (e.(ne_address) <> None)) ee in
  if bool_decide (mode = ModeAnd) && negb allD && negb allA then unsupported "mixed domain/address logical AND"
  else
    let dr := omap ne_domain ee in
    let empty := if decide (mode = ModeAnd) then forallb ne_empty ee else existsb ne_empty ee in
    '(addr, w) ← combine_addresses (omap ne_address ee) mode w;
    let domain := match dr with [] => None | [r] => Some r | _ => Some (Rule "logical" no_default mode dr false) end in
    invertNative (MkExpr domain addr empty None) invert w.
(** The envelope of one operand: all addresses it may hold. *)
Fixpoint merge_envelopes (ee : list nativeExpr) (w : nativeWork) : result (list nativeExpr * nativeWork) :=
  match ee with
  | [] => Ok ([], w)
  | e :: ee =>
      if decide (e.(ne_domain) <> None) then unsupported "domain/context logical AND"
      else
        '(merged, w) ← combine_plain [address_expr e.(ne_address); address_expr e.(ne_transport)] ModeOr false w;
        '(rest, w) ← merge_envelopes ee w;
        Ok (merged :: rest, w)
  end.
Definition combineNative (ee : list nativeExpr) (mode : string) (invert : bool) (w : nativeWork) : result (nativeExpr * nativeWork) :=
  if existsb (fun e => bool_decide (e.(ne_transport) <> None)) ee then
    if invert then unsupported "contextual inversion"
    else if decide (mode = ModeAnd) then
      '(envelopes, w) ← merge_envelopes ee w;
      '(envelope, w) ← combine_plain envelopes mode false w;
      if forallb (fun e => bool_decide (e.(ne_address) <> None)) ee then
        '(unconditional, w) ← combine_plain (map (fun e => address_expr e.(ne_address)) ee) mode false w;
        Ok (MkExpr None unconditional.(ne_address) false envelope.(ne_address), w)
      else Ok (MkExpr None None false envelope.(ne_address), w)
    else
      '(ordinary, w) ← combine_plain (map (fun e => MkExpr e.(ne_domain) e.(ne_address) e.(ne_empty) None) ee) mode false w;
      '(transport, w) ← combine_plain (map (fun t => address_expr (Some t)) (omap ne_transport ee)) mode false w;
      Ok (MkExpr ordinary.(ne_domain) ordinary.(ne_address) ordinary.(ne_empty) transport.(ne_address), w)
  else combine_plain ee mode invert w.

(** ** Compilation *)
Definition contextual (d : DefaultRule) : bool :=
  bool_decide (d.(dr_network) <> [] \/ d.(dr_port) <> [] \/ d.(dr_port_range) <> []).
Definition has_domain (d : DefaultRule) : bool :=
  bool_decide (d.(dr_domain) <> [] \/ d.(dr_suffix) <> [] \/ d.(dr_keyword) <> [] \/ d.(dr_regex) <> []).
(** A field outside of the whitelist. *)
Definition unknown_field (d : DefaultRule) : bool :=
  d.(dr_other) || (negb (contextual d) || legacy) && (contextual d || d.(dr_empty_context)).
Definition value_ok (v : string) : bool := bool_decide (v <> EmptyString /\ (String.length v <= 4096)%nat).
Definition rule_values (d : DefaultRule) : list string :=
  d.(dr_domain) ++ d.(dr_suffix) ++ d.(dr_keyword) ++ d.(dr_regex) ++ d.(dr_ip_cidr) ++ d.(dr_network) ++ d.(dr_port_range).
(** The ends of a port range. *)
Definition port_ends (ports : string) : option (Z * Z) :=
  match Split ports ":" with
  | [a; b] => lo ← ParseUint a 16; hi ← ParseUint b 16; if decide (hi < lo) then None else Some (lo, hi)
  | _ => None
  end.
(** A value of [ip_cidr]; an address is a host.  IPv6 adds nothing. *)
Definition cidr_prefix (v : string) : option Prefix :=
  match ParsePrefix v with
  | Some p => Some p
  | None => match ParseAddr v with Some a => Some (host_prefix a) | None => None end
  end.
Definition cidr_range (p : Prefix) : option IPRange :=
  match p with MkPrefix (V4 ip) bits => Some (prefix_range ip bits) | _ => None end.
(** The leaf's condition on names alone. *)
Definition domain_part (d : DefaultRule) : HeadlessRule :=
  Rule "default" (MkDefault d.(dr_domain) d.(dr_suffix) d.(dr_keyword) d.(dr_regex) [] d.(dr_network) d.(dr_port) d.(dr_port_range)
                    false d.(dr_other) d.(dr_empty_context)) EmptyString [] false.
(** A leaf, the node already counted. *)
Definition compile_default (d : DefaultRule) (w : nativeWork) : result (nativeExpr * nativeWork) :=
  if unknown_field d then unsupported "context-dependent or unknown field"
  else if negb (forallb value_ok (rule_values d)) then unsupported "empty or oversized value"
  else
    let values := w.(nw_values) + Z.of_nat (length (rule_values d)) + Z.of_nat (length d.(dr_port)) in
    if negb (forallb (fun n => bool_decide (n = "tcp" \/ n = "udp")%string) d.(dr_network)) then unsupported "unsupported network"
    else if negb (forallb (fun r => bool_decide (port_ends r <> None)) d.(dr_port_range)) then unsupported "invalid destination port range"
    else if contextual d && (d.(dr_invert) || has_domain d) then unsupported "domain/context mixing or contextual inversion"
    else if decide (maxNativeValues < values) then unsupported "predicate value budget"
    else
      regex ← admit_all w.(nw_regex) d.(dr_regex);
      if negb (forallb RegexCompiles d.(dr_regex)) then unsupported "invalid domain regex"
      else
        let w := MkWork w.(nw_nodes) values w.(nw_remaining) regex in
        let domain := if has_domain d then Some (domain_part d) else None in
        '(address, w) ← (if decide (d.(dr_ip_cidr) = []) then Ok (None, w)
                         else
                           w ← charge_work (Z.of_nat (length d.(dr_ip_cidr))) true w;
                           match mapM cidr_prefix d.(dr_ip_cidr) with
                           | None => unsupported "invalid address"
                           | Some ps => Ok (Some (Ranges (omap cidr_range ps)), w)
                           end);
        let e := if contextual d
                 then MkExpr domain None false (Some (default (Ranges [whole_ipv4]) address))
                 else MkExpr domain address false None in
        if decide (e.(ne_domain) = None /\ e.(ne_address) = None /\ e.(ne_transport) = None) then unsupported "empty default node"
        else invertNative e d.(dr_invert) w.
Fixpoint compileNative (r : HeadlessRule) (depth : Z) (w : nativeWork) : result (nativeExpr * nativeWork) :=
  let '(Rule type d mode rules invert) := r in
  let w := MkWork (w.(nw_nodes) + 1) w.(nw_values) w.(nw_remaining) w.(nw_regex) in
  if decide (maxNativeDepth < depth \/ maxNativeNodes < w.(nw_nodes)) then unsupported "AST complexity budget"
  else if decide (type = "logical"%string) then
    if decide (rules = [] \/ (mode <> ModeAnd /\ mode <> ModeOr)) then unsupported "empty or invalid logical node"
    else
      '(ee, w) ← (fix compile_all (l : list HeadlessRule) (w : nativeWork) : result (list nativeExpr * nativeWork) :=
                    match l with
                    | [] => Ok ([], w)
                    | r :: l => '(e, w) ← compileNative r (depth + 1) w; '(ee, w) ← compile_all l w; Ok (e :: ee, w)
                    end) rules w;
      combineNative ee mode invert w
  else if decide (type <> EmptyString /\ type <> "default"%string) then unsupported "rule type"
  else compile_default d w.
Fixpoint compile_rules (l : list HeadlessRule) (w : nativeWork) : result (list nativeExpr * nativeWork) :=
  match l with
  | [] => Ok ([], w)
  | r :: l => '(e, w) ← compileNative r 0 w; '(ee, w) ← compile_rules l w; Ok (e :: ee, w)
  end.

(** ** The projection *)

(** [NativeProjection]; the rule of the DNS part is its text in the source. *)
Record NativeProjection := MkProjection {
  np_dns : option HeadlessRule;
  np_subnets : list string;
  np_transport : list string
}.
(** The subnets of a set, refused when they are everything or too many. *)
Definition bounded_prefixes (label : string) (a : option (list IPRange)) : result (list string) :=
  match a with
  | None => Ok []
  | Some rs =>
      let ps := Prefixes rs in
      if decide (ps = [MkPrefix (V4 0) 0]) then unsupported label
      else if decide (maxNativeValues < Z.of_nat (length ps)) then unsupported "projection budget"
      else Ok (map PrefixString ps)
  end.
(** The prefixes together must leave something out as well. *)
Definition combined_bounded (e : nativeExpr) (w : nativeWork) : result unit :=
  match e.(ne_transport), e.(ne_address) with
  | Some t, Some a =>
      '(envelope, _) ← combineNative [address_expr (Some a); address_expr (Some t)] ModeOr false w;
      match Prefixes (default [] envelope.(ne_address)) with
      | [p] => if decide (p.(prefix_bits) = 0) then unsupported "unbounded combined IPv4 coverage" else Ok tt
      | _ => Ok tt
      end
  | _, _ => Ok tt
  end.
Definition start_work : nativeWork := MkWork 0 0 maxNativeProjectionWork no_budget.
(** [projectNativeVersion] of a decoded set. *)
Definition project_rules (rules : list HeadlessRule) : result NativeProjection :=
  if decide (rules = []) then unsupported "empty native set"
  else
    '(exprs, w) ← compile_rules rules start_work;
    '(e, w) ← combineNative exprs ModeOr false w;
    _ ← combined_bounded e w;
    if (e.(ne_empty) : bool) then unsupported "unbounded literal-IP domain coverage"
    else
      subnets ← bounded_prefixes "unbounded IPv4 coverage" e.(ne_address);
      transport ← bounded_prefixes "unbounded transport IPv4 coverage" e.(ne_transport);
      Ok (MkProjection e.(ne_domain) subnets transport).
End native.
