(* ===== verification/NativeSpec.v ===== *)
(** * What a compiled rule set covers

    The meaning of a rule set is that of the documentation of sing-box; the
    compiler is proved against it: every connection the set matches is
    intercepted, by its name or by its address, and nothing is taken for all
    protocols, or by name, that the set does not match. *)

From Stdlib Require Import Ascii.
From S2P Require Import Prelude GoStd Netip GoText Nft NftPolicy NativeRegex Native.
#[local] Open Scope Z_scope.

(** ** The meaning of a rule *)

(** A connection: the name it was opened by, if it is known, the IPv4
    destination, the network and, for TCP and UDP, the port. *)
Record Conn := MkConn { cn_name : option string; cn_dst : Z; cn_network : string; cn_port : option Z }.
Definition conn_tcp_udp (c : Conn) : Prop := (c.(cn_network) = "tcp" \/ c.(cn_network) = "udp")%string.
Definition conn_ok (c : Conn) : Prop := 0 <= c.(cn_dst) < 2 ^ 32 /\ (c.(cn_port) <> None -> conn_tcp_udp c).

(** The matching of names is that of sing-box, whatever it does. *)
Class NameMatching := { match_names : DefaultRule -> string -> bool;
  match_names_ext d d' s : d.(dr_domain) = d'.(dr_domain) -> d.(dr_suffix) = d'.(dr_suffix) -> d.(dr_keyword) = d'.(dr_keyword) ->
    d.(dr_regex) = d'.(dr_regex) -> match_names d s = match_names d' s }.

Section meaning.
Context `{NameMatching}.

Definition names_hold (c : Conn) (d : DefaultRule) : bool :=
  has_domain d && match c.(cn_name) with Some n => match_names d n | None => false end.
Definition ip_holds (dst : Z) (d : DefaultRule) : bool :=
  existsb (fun v => match cidr_prefix v with Some p => Contains p (V4 dst) | None => false end) d.(dr_ip_cidr).
Definition network_holds (c : Conn) (d : DefaultRule) : bool := bool_decide (d.(dr_network) = [] \/ c.(cn_network) ∈ d.(dr_network)).
Definition port_holds (c : Conn) (d : DefaultRule) : bool :=
  bool_decide (d.(dr_port) = [] /\ d.(dr_port_range) = []) ||
  match c.(cn_port) with
  | None => false
  | Some p => bool_decide (p ∈ d.(dr_port)) ||
              existsb (fun r => match port_ends r with Some (lo, hi) => bool_decide (lo <= p <= hi) | None => false end) d.(dr_port_range)
  end.
(** (names or addresses) and network and port, then the inversion. *)
Definition leaf_holds (c : Conn) (d : DefaultRule) : bool :=
  xorb d.(dr_invert)
    ((negb (has_domain d) && bool_decide (d.(dr_ip_cidr) = []) || names_hold c d || ip_holds c.(cn_dst) d) &&
     network_holds c d && port_holds c d).
Fixpoint holds (c : Conn) (r : HeadlessRule) : bool :=
  match r with
  | Rule type d mode rules invert =>
      if decide (type = "logical"%string) then
        xorb invert (if decide (mode = ModeAnd) then forallb (holds c) rules else existsb (holds c) rules)
      else leaf_holds c d
  end.
(** The set matches when one of its rules does. *)
Definition set_holds (c : Conn) (rules : list HeadlessRule) : bool := existsb (holds c) rules.
End meaning.

(** ** Ranges *)
Lemma in_ranges_app a b ip : in_ranges (a ++ b) ip = in_ranges a ip || in_ranges b ip.
Proof. apply existsb_app. Qed.
Lemma in_ranges_concat l ip : in_ranges (concat l) ip = existsb (fun rs => in_ranges rs ip) l.
Proof. induction l as [|rs l IH]; [done|]. cbn [concat existsb]. by rewrite in_ranges_app, IH. Qed.
Lemma in_ranges_cons r l ip : in_ranges (r :: l) ip = bool_decide (r.1 <= ip <= r.2) || in_ranges l ip.
Proof. done. Qed.
Lemma ranges_below low rs ip : ranges_ok low rs -> ip < low -> in_ranges rs ip = false.
Proof.
  revert low. induction rs as [|[a b] rs IH]; intros low Hok Hip; [done|]. cbn [ranges_ok fst snd] in Hok. rewrite in_ranges_cons. cbn [fst snd].
  rewrite bool_decide_eq_false_2 by lia. apply (IH (b + 2)); [tauto|lia].
Qed.
Definition proper (rs : list IPRange) : Prop := Forall (fun r => 0 <= r.1 <= r.2 /\ r.2 < 2 ^ 32) rs.
Lemma ranges_proper low rs : 0 <= low -> ranges_ok low rs -> proper rs.
Proof.
  revert low. induction rs as [|[a b] rs IH]; intros low Hl Hok; [constructor|]. cbn [ranges_ok fst snd] in Hok. constructor; [cbn; lia|].
  apply (IH (b + 2)); [lia|tauto].
Qed.

Lemma intersect_spec a : forall b la lb, 0 <= la -> 0 <= lb -> ranges_ok la a -> ranges_ok lb b ->
  ranges_ok (Z.max la lb) (intersectNativeRanges a b) /\ forall ip, in_ranges (intersectNativeRanges a b) ip = in_ranges a ip && in_ranges b ip.
Proof.
  induction a as [|[a1 a2] a IHa]; [done|].
  induction b as [|[b1 b2] b IHb]; intros la lb Hla Hlb Ha Hb; [split; [done|]; intros ip; by rewrite andb_false_r|].
  cbn [ranges_ok fst snd] in Ha, Hb. destruct Ha as (Ha1 & Ha2 & Ha). destruct Hb as (Hb1 & Hb2 & Hb).
  set (from := if decide (a1 < b1) then b1 else a1). set (to := if decide (b2 < a2) then b2 else a2).
  set (rest := if decide (a2 < b2) then intersectNativeRanges a ((b1, b2) :: b) else intersectNativeRanges ((a1, a2) :: a) b).
  assert (Hrest : (ranges_ok (to + 2) rest /\ ranges_ok (Z.max la lb) rest) /\ forall ip, in_ranges rest ip =
    if decide (a2 < b2) then in_ranges a ip && in_ranges ((b1, b2) :: b) ip else in_ranges ((a1, a2) :: a) ip && in_ranges b ip).
  { unfold rest, to. destruct (decide (a2 < b2)).
    - destruct (IHa ((b1, b2) :: b) (a2 + 2) lb) as [H1 H2]; [lia|done|done|cbn [ranges_ok fst snd]; tauto|]. split; [|done].
      split; (eapply ranges_ok_mono; [exact H1|]); try case_decide; lia.
    - destruct (IHb la (b2 + 2)) as [H1 H2]; [done|lia|cbn [ranges_ok fst snd]; tauto|done|]. split; [|done].
      split; (eapply ranges_ok_mono; [exact H1|]); try case_decide; lia. }
  change (intersectNativeRanges ((a1, a2) :: a) ((b1, b2) :: b)) with (if decide (from <= to) then (from, to) :: rest else rest).
  destruct Hrest as [[Hp Hp'] Hin].
  assert (Hgoal : forall ip, (bool_decide (from <= ip <= to) || in_ranges rest ip) = in_ranges ((a1, a2) :: a) ip && in_ranges ((b1, b2) :: b) ip).
  { intros ip. rewrite Hin. pose proof (ranges_below _ _ ip Ha) as Hba. pose proof (ranges_below _ _ ip Hb) as Hbb.
    rewrite !in_ranges_cons. cbn [fst snd]. unfold from, to. clear IHa IHb Hin Hp Hp'.
    destruct (decide (a1 <= ip <= a2)) as [Hx|Hx], (decide (b1 <= ip <= b2)) as [Hy|Hy];
      rewrite ?(bool_decide_eq_true_2 (a1 <= ip <= a2)), ?(bool_decide_eq_false_2 (a1 <= ip <= a2)),
        ?(bool_decide_eq_true_2 (b1 <= ip <= b2)), ?(bool_decide_eq_false_2 (b1 <= ip <= b2)) by done; cbn [orb andb].
    - rewrite bool_decide_eq_true_2; [done|]. repeat case_decide; lia.
    - rewrite bool_decide_eq_false_2 by (repeat case_decide; lia). cbn [orb]. case_decide.
      + by rewrite Hba, Hbb by lia.
      + done.
    - rewrite bool_decide_eq_false_2 by (repeat case_decide; lia). cbn [orb]. case_decide.
      + by rewrite andb_true_r.
      + by rewrite Hba, Hbb by lia.
    - rewrite bool_decide_eq_false_2 by (repeat case_decide; lia). cbn [orb]. by case_decide. }
  destruct (decide (from <= to)) as [Hft|Hft].
  - split; [cbn [ranges_ok fst snd]; split; [|split; [|done]]; unfold from, to in *; repeat case_decide; lia|]. intros ip. rewrite <- Hgoal. apply in_ranges_cons.
  - split; [done|]. intros ip. rewrite <- Hgoal. by rewrite bool_decide_eq_false_2 by lia.
Qed.

Lemma prefix_range_in ip bits dst : 0 <= bits <= 32 -> in_range dst (prefix_range ip bits) = Contains (MkPrefix (V4 ip) bits) (V4 dst).
Proof.
  intros Hb. unfold in_range, prefix_range, Contains, mask_value. cbn [fst snd prefix_addr prefix_bits BitLen Is4].
  set (n := 2 ^ (32 - bits)). assert (Hn : 0 < n) by (apply Z.pow_pos_nonneg; lia). apply bool_decide_ext.
  pose proof (Z.div_mod ip n ltac:(lia)). pose proof (Z.mod_pos_bound ip n Hn). pose proof (Z.div_mod dst n ltac:(lia)). pose proof (Z.mod_pos_bound dst n Hn).
  split; [intros Hd; assert (ip / n = dst / n) by nia; nia|intros Heq; nia].
Qed.
Lemma cidr_prefix_ok v ip bits : cidr_prefix v = Some (MkPrefix (V4 ip) bits) -> 0 <= ip < 2 ^ 32 /\ 0 <= bits <= 32.
Proof.
  unfold cidr_prefix. destruct (ParsePrefix v) as [p|] eqn:E.
  - intros [= ->]. unfold ParsePrefix in E. destruct (CutLast v "/") as [[a b]|]; [|done]. destruct (ParseAddr a) as [x|] eqn:Ha; [|done].
    destruct (_ || _); [done|]. destruct (Atoi b) as [n|]; [|done]. case_decide; [|done]. injection E as -> ->.
    split; [by eapply ParseAddr_V4_range|done].
  - destruct (ParseAddr v) as [[x|x z]|] eqn:Ha; [..|done]; intros [= <- <-]. split; [by eapply ParseAddr_V4_range|done].
Qed.
Lemma cidr_ranges vs ps dst : mapM cidr_prefix vs = Some ps ->
  proper (omap cidr_range ps) /\
  in_ranges (omap cidr_range ps) dst = existsb (fun v => match cidr_prefix v with Some p => Contains p (V4 dst) | None => false end) vs.
Proof.
  revert ps. induction vs as [|v vs IH]; intros ps Hm; [injection Hm as <-; by split; [constructor|]|].
  apply bind_Some in Hm as (p & Hp & Hm). apply bind_Some in Hm as (ps' & Hps & [= <-]). destruct (IH _ Hps) as [Hpr Hin].
  cbn [omap list_omap existsb]. rewrite Hp. destruct p as [[ip|x z] bits]; cbn [cidr_range]; [|by rewrite Hin].
  destruct (cidr_prefix_ok _ _ _ Hp) as [Hip Hb]. split; [constructor; [by apply prefix_range_ok|done]|].
  rewrite in_ranges_cons, Hin. f_equal. by apply prefix_range_in.
Qed.

(** ** What an expression covers *)
Section denotation.
Context `{IPS : IPSets} `{!IPSetOps} `{RegexSyntax} `{NameMatching} (legacy : bool).

Definition dom_of (e : nativeExpr) (c : Conn) : bool := match e.(ne_domain) with Some r => holds c r | None => false end.
Definition addr_of (a : option (list IPRange)) (ip : Z) : bool := match a with Some rs => in_ranges rs ip | None => false end.
(** What it covers for every protocol. *)
Definition plain_of (e : nativeExpr) (c : Conn) : bool := dom_of e c || addr_of e.(ne_address) c.(cn_dst).
Definition set_ok (a : option (list IPRange)) : Prop := forall rs, a = Some rs -> ranges_ok 0 rs.

(** The part on names depends on the name alone, and [ne_empty] is its value
    without one. *)
Record expr_ok (e : nativeExpr) : Prop := MkExprOk {
  eo_name : forall c c', c.(cn_name) = c'.(cn_name) -> dom_of e c = dom_of e c';
  eo_empty : forall c, c.(cn_name) = None -> dom_of e c = e.(ne_empty);
  eo_address : set_ok e.(ne_address);
  eo_transport : set_ok e.(ne_transport)
}.
Definition something (e : nativeExpr) : Prop := e.(ne_domain) <> None \/ e.(ne_address) <> None \/ e.(ne_transport) <> None.
(** The expression stands for the condition [P]: what it covers holds, and
    what holds is covered, if need be as TCP or UDP. *)
Record denotes (e : nativeExpr) (P : Conn -> bool) : Prop := MkDenotes {
  de_ok : expr_ok e;
  de_something : something e;
  de_exact c : conn_ok c -> plain_of e c = true -> P c = true;
  de_covers c : conn_ok c -> P c = true -> plain_of e c = true \/ conn_tcp_udp c /\ addr_of e.(ne_transport) c.(cn_dst) = true
}.

Lemma address_ok a : set_ok a -> expr_ok (address_expr a).
Proof. intros Ha. by constructor. Qed.
Lemma no_domain_empty e : expr_ok e -> e.(ne_domain) = None -> e.(ne_empty) = false.
Proof. intros [_ He _ _] Hd. specialize (He (MkConn None 0 "" None) eq_refl). unfold dom_of in He. by rewrite Hd in He. Qed.
Lemma no_domain e c : e.(ne_domain) = None -> plain_of e c = addr_of e.(ne_address) c.(cn_dst).
Proof. intros Hd. unfold plain_of, dom_of. by rewrite Hd. Qed.

Lemma invert_rule_holds r c : holds c (invert_rule r) = negb (holds c r).
Proof.
  destruct r as [type d mode rules invert]. cbn [invert_rule]. case_decide as Ht; cbn [holds]; destruct (decide (type = "logical"%string)); try done.
  - by destruct invert, (if decide _ then _ else _).
  - unfold leaf_holds, names_hold. cbn [dr_invert]. rewrite negb_xorb_l. f_equal. f_equal. f_equal.
    unfold has_domain. cbn. f_equal. f_equal. f_equal. destruct (cn_name c); [|done]. by apply match_names_ext.
Qed.
Lemma invert_ok e invert w e' w' : expr_ok e -> (invert = true -> e.(ne_domain) <> None \/ e.(ne_address) <> None) ->
  invertNative e invert w = Ok (e', w') ->
  expr_ok e' /\ e'.(ne_transport) = e.(ne_transport) /\ (forall c, conn_ok c -> plain_of e' c = xorb invert (plain_of e c)) /\
  (e.(ne_domain) <> None -> e'.(ne_domain) <> None) /\ (e.(ne_address) <> None -> e'.(ne_address) <> None) /\ (invert = false -> e' = e).
Proof.
  intros [Hn He Ha Ht] Hs. unfold invertNative. destruct invert; cbn [negb].
  2:{ intros Hi. inv_result. by repeat split. }
  destruct (ne_domain e) as [r|] eqn:Ed, (ne_address e) as [rs|] eqn:Ea; intros Hi; unfold unsupported in Hi; inv_result; [| |by destruct (Hs eq_refl)].
  - assert (Hd : forall c, dom_of (MkExpr (Some (invert_rule r)) None (negb (ne_empty e)) (ne_transport e)) c = negb (dom_of e c)).
    { intros c. unfold dom_of. rewrite Ed. apply invert_rule_holds. }
    repeat split; try done.
    + intros c c' Hc. rewrite !Hd. f_equal. by apply Hn.
    + intros c Hc. rewrite Hd. cbn [ne_empty]. f_equal. by apply He.
    + intros c _. unfold plain_of. rewrite Hd, Ea. cbn [addr_of ne_address]. by rewrite !orb_false_r.
  - repeat split; try done.
    + intros c Hc. cbn [ne_empty]. rewrite <- (He c Hc). unfold dom_of. by rewrite Ed.
    + intros rs' [= <-]. apply Complement_ok. by apply Ha.
    + intros c [Hc _]. unfold plain_of, dom_of. rewrite Ed, Ea. cbn [ne_domain addr_of ne_address orb]. apply Complement_in; [by apply Ha|done].
Qed.

Definition combine_bools (mode : string) (l : list bool) : bool := if decide (mode = ModeAnd) then forallb id l else existsb id l.
Lemma intersect_all_ok next ranges w out w' : ranges_ok 0 ranges -> Forall (ranges_ok 0) next -> intersect_all ranges next w = Ok (out, w') ->
  ranges_ok 0 out /\ forall ip, in_ranges out ip = in_ranges ranges ip && forallb (fun rs => in_ranges rs ip) next.
Proof.
  revert ranges w. induction next as [|b next IH]; intros ranges w Hr Hn Hi; cbn [intersect_all] in Hi; inv_result.
  { split; [done|]. intros ip. by rewrite andb_true_r. }
  apply Forall_cons in Hn as [Hb Hn]. destruct (intersect_spec ranges b 0 0) as [Hok Hin]; [done..|]. rewrite Z.max_id in Hok. case_decide as Hz.
  - inv_result. split; [done|]. intros ip. cbn [forallb]. by rewrite andb_assoc, <- Hin, Hz.
  - destruct (IH _ _ Hok Hn H3) as [Ho Hi]. split; [done|]. intros ip. rewrite Hi, Hin. cbn [forallb]. by rewrite andb_assoc.
Qed.
Lemma ranges_ok_proper rs : ranges_ok 0 rs -> proper rs.
Proof. by apply ranges_proper. Qed.
Lemma forallb_perm {A} (f : A -> bool) l l' : l ≡ₚ l' -> forallb f l = forallb f l'.
Proof. induction 1; cbn [forallb]; [done|by f_equal|by rewrite !andb_assoc, (andb_comm (f x))|congruence]. Qed.
Lemma combine_addresses_ok sets mode w a w' : mode = ModeAnd \/ mode = ModeOr -> Forall (ranges_ok 0) sets -> combine_addresses sets mode w = Ok (a, w') ->
  set_ok a /\ (a = None <-> sets = []) /\
  forall ip, addr_of a ip = bool_decide (sets <> []) && combine_bools mode (map (fun rs => in_ranges rs ip) sets).
Proof.
  intros Hm Hs. unfold combine_addresses. case_decide as Hz.
  { intros Hi. inv_result. by repeat split. }
  assert (Hne : bool_decide (sets <> []) = true) by by apply bool_decide_eq_true. case_decide as Ho.
  - intros Hi. inv_result. split; [|split; [done|]].
    + intros rs [= <-]. apply Ranges_ok. apply Forall_concat. eapply Forall_impl; [exact Hs|]. apply ranges_ok_proper.
    + intros ip. rewrite Hne. cbn [addr_of andb]. rewrite Ranges_in, in_ranges_concat. unfold combine_bools. rewrite decide_False by done.
      induction sets as [|rs l IHl]; [done|]. cbn [existsb map]. f_equal. clear. induction l as [|rs l IHl]; [done|]. cbn [existsb map]. by f_equal.
  - destruct Hm as [->|]; [|done]. pose proof (SortByLength_perm sets) as Hp. destruct (SortByLength sets) as [|first next]; [by apply Permutation_nil_l in Hp|].
    intros Hi. inv_result. assert (Hf : Forall (ranges_ok 0) (first :: next)) by by rewrite Hp. apply Forall_cons in Hf as [Hf Hn].
    destruct x as [out w1]. destruct (intersect_all_ok _ _ _ _ _ Hf Hn H2) as [Hok Hin]. inv_result. split; [|split; [done|]].
    + intros rs [= <-]. apply Ranges_ok. by apply ranges_ok_proper.
    + intros ip. rewrite Hne. cbn [addr_of andb]. rewrite Ranges_in, Hin. unfold combine_bools. rewrite decide_True by done.
      change (forallb (fun rs => in_ranges rs ip) (first :: next) = forallb id (map (fun rs => in_ranges rs ip) sets)).
      rewrite (forallb_perm _ _ _ Hp). clear. induction sets as [|rs l IHl]; [done|]. cbn [forallb map]. by f_equal.
Qed.

(** Operands that have a part, under "and" all of them or none. *)
Lemma combine_omap {A B} (f : A -> option B) (g : B -> bool) mode (l : list A) :
  l <> [] -> mode <> ModeAnd \/ (forall x, x ∈ l -> f x <> None) \/ (forall x, x ∈ l -> f x = None) ->
  bool_decide (omap f l <> []) && combine_bools mode (map g (omap f l)) =
  combine_bools mode (map (fun x => match f x with Some b => g b | None => false end) l).
Proof.
  intros Hne. unfold combine_bools. case_decide as Hm; intros Hc.
  - destruct Hc as [?|[Hall|Hall]]; [done|..].
    + destruct l as [|x l]; [done|]. rewrite bool_decide_eq_true_2.
      2:{ cbn. destruct (f x) eqn:E; [done|]. exfalso. apply (Hall x); [by left|done]. }
      revert Hall. generalize (x :: l). clear. intros l. induction l as [|x l IH]; intros Hall; [done|]. cbn [omap list_omap map].
      destruct (f x) as [b|] eqn:E; [|exfalso; apply (Hall x); [by left|done]]. cbn [map forallb]. cbn [andb] in IH. rewrite <- IH; [done|]. intros y Hy. apply Hall. by right.
    + assert (omap f l = []) as -> by (clear Hne; induction l as [|x l IH]; [done|]; cbn; rewrite Hall by left; apply IH; intros y Hy; apply Hall; by right).
      destruct l as [|x l]; [done|]. cbn [map forallb]. by rewrite Hall by left.
  - clear Hc Hne. induction l as [|x l IH]; [done|]. cbn [omap list_omap map existsb]. destruct (f x) as [b|] eqn:E.
    + cbn [map existsb]. rewrite bool_decide_eq_true_2 by done. cbn [andb id]. destruct (g b); [done|]. cbn [orb]. rewrite <- IH.
      destruct (omap f l); [done|]. by rewrite bool_decide_eq_true_2.
    + exact IH.
Qed.
Lemma combine_bools_orb {A} mode (f g : A -> bool) (l : list A) : mode <> ModeAnd ->
  combine_bools mode (map (fun x => f x || g x) l) = combine_bools mode (map f l) || combine_bools mode (map g l).
Proof.
  intros Hm. unfold combine_bools. rewrite !decide_False by done. induction l as [|x l IH]; [done|]. cbn [map existsb]. rewrite IH. unfold id.
  destruct (f x), (g x); cbn; rewrite ?orb_true_r; done.
Qed.
Lemma combine_bools_ext {A} mode (f g : A -> bool) (l : list A) : (forall x, x ∈ l -> f x = g x) -> combine_bools mode (map f l) = combine_bools mode (map g l).
Proof. intros Hf. f_equal. apply map_ext_in. intros x Hx. apply Hf. by apply list_elem_of_In. Qed.
Lemma combine_bools_false {A} mode (f : A -> bool) (l : list A) : l <> [] -> (forall x, x ∈ l -> f x = false) -> combine_bools mode (map f l) = false.
Proof.
  intros Hne Hf. rewrite (combine_bools_ext mode f (fun _ => false) l Hf). unfold combine_bools. case_decide; [by destruct l|]. clear. by induction l.
Qed.

(** The three admitted shapes of operands. *)
Definition separable (mode : string) (ee : list nativeExpr) : Prop :=
  mode <> ModeAnd \/ (forall e, e ∈ ee -> e.(ne_domain) <> None /\ e.(ne_address) = None) \/ (forall e, e ∈ ee -> e.(ne_domain) = None /\ e.(ne_address) <> None).
Lemma separable_domain mode ee : separable mode ee -> mode <> ModeAnd \/ (forall e, e ∈ ee -> e.(ne_domain) <> None) \/ (forall e, e ∈ ee -> e.(ne_domain) = None).
Proof. intros [?|[Hs|Hs]]; [by left|right; left|right; right]; intros e He; by apply Hs. Qed.
Lemma separable_address mode ee : separable mode ee -> mode <> ModeAnd \/ (forall e, e ∈ ee -> e.(ne_address) <> None) \/ (forall e, e ∈ ee -> e.(ne_address) = None).
Proof. intros [?|[Hs|Hs]]; [by left|right; right|right; left]; intros e He; by apply Hs. Qed.
Lemma separable_plain mode ee c : ee <> [] -> separable mode ee ->
  combine_bools mode (map (fun x => plain_of x c) ee) =
  combine_bools mode (map (fun x => dom_of x c) ee) || combine_bools mode (map (fun x => addr_of x.(ne_address) c.(cn_dst)) ee).
Proof.
  intros Hne Hs. destruct (decide (mode = ModeAnd)) as [Hm|Hm]; [|by apply combine_bools_orb]. destruct Hs as [?|[Hs|Hs]]; [done|..].
  - rewrite (combine_bools_false _ (fun x => addr_of _ _)); [|done|by intros x Hx; destruct (Hs x Hx) as [_ ->]]. rewrite orb_false_r.
    apply combine_bools_ext. intros x Hx. unfold plain_of. destruct (Hs x Hx) as [_ ->]. apply orb_false_r.
  - rewrite (combine_bools_false _ (fun x => dom_of x c)); [|done|]. 2:{ intros x Hx. unfold dom_of. by destruct (Hs x Hx) as [-> _]. }
    apply combine_bools_ext. intros x Hx. unfold plain_of, dom_of. by destruct (Hs x Hx) as [-> _].
Qed.
(** The condition on names of the combination. *)
Definition join_domain (mode : string) (dr : list HeadlessRule) : option HeadlessRule :=
  match dr with [] => None | [r] => Some r | _ => Some (Rule "logical" no_default mode dr false) end.
Lemma join_domain_holds mode dr c : match join_domain mode dr with Some r => holds c r | None => false end =
  bool_decide (dr <> []) && combine_bools mode (map (holds c) dr).
Proof.
  unfold combine_bools. destruct dr as [|r [|r2 dr]]; [done|cbn; case_decide; cbn; unfold id; by rewrite ?andb_true_r, ?orb_false_r|].
  cbn [join_domain]. generalize (r :: r2 :: dr) (ltac:(done) : r :: r2 :: dr <> []). clear. intros l Hl. cbn [holds]. rewrite decide_True by done.
  rewrite xorb_false_l, bool_decide_eq_true_2 by done. cbn [andb]. case_decide; clear Hl; (induction l as [|x l IH]; [done|]; cbn [forallb existsb map]; by f_equal).
Qed.
Lemma join_domain_none mode ee : join_domain mode (omap ne_domain ee) = None <-> forall x, x ∈ ee -> x.(ne_domain) = None.
Proof.
  assert (Hj : forall dr, join_domain mode dr = None <-> dr = []) by (intros [|? [|]]; done). rewrite Hj. split.
  - intros He x Hx. destruct (ne_domain x) as [r|] eqn:E; [|done]. assert (Hr : r ∈ omap ne_domain ee) by (apply list_elem_of_omap; by exists x). rewrite He in Hr. by apply elem_of_nil in Hr.
  - intros Hall. induction ee as [|x l IH]; [done|]. cbn. rewrite Hall by left. apply IH. intros y Hy. apply Hall. by right.
Qed.
Lemma combine_separable ee mode : bool_decide (mode = ModeAnd) &&
  negb (forallb (fun e => bool_decide (e.(ne_domain) <> None) && bool_decide (e.(ne_address) = None)) ee) &&
  negb (forallb (fun e => bool_decide (e.(ne_domain) = None) && bool_decide (e.(ne_address) <> None)) ee) = false -> separable mode ee.
Proof.
  intros [[Hm|Hd]%andb_false_iff|Ha]%andb_false_iff.
  - left. by apply bool_decide_eq_false in Hm.
  - right; left. intros e He. apply negb_false_iff in Hd. rewrite forallb_forall in Hd. apply list_elem_of_In, Hd in He. reflect_bools. done.
  - right; right. intros e He. apply negb_false_iff in Ha. rewrite forallb_forall in Ha. apply list_elem_of_In, Ha in He. reflect_bools. done.
Qed.
Lemma combine_plain_ok ee mode invert w e w' :
  mode = ModeAnd \/ mode = ModeOr -> Forall expr_ok ee -> ee <> [] ->
  (invert = true -> exists x, x ∈ ee /\ (x.(ne_domain) <> None \/ x.(ne_address) <> None)) ->
  combine_plain ee mode invert w = Ok (e, w') ->
  expr_ok e /\ e.(ne_transport) = None /\
  (forall c, conn_ok c -> plain_of e c = xorb invert (combine_bools mode (map (fun x => plain_of x c) ee))) /\
  ((exists x, x ∈ ee /\ (x.(ne_domain) <> None \/ x.(ne_address) <> None)) -> e.(ne_domain) <> None \/ e.(ne_address) <> None) /\
  ((forall x, x ∈ ee -> x.(ne_domain) = None) -> e.(ne_domain) = None).
Proof.
  intros Hm Hok Hne Hinv. unfold combine_plain. cbv zeta. destruct (_ && _ && _) eqn:Hsep; [done|]. apply combine_separable in Hsep.
  fold (join_domain mode (omap ne_domain ee)). intros Hr. apply result_bind_Ok in Hr as ([a w1] & Ha & Hr).
  apply combine_addresses_ok in Ha as (Hset & Hnone & Haddr); [|done|].
  2:{ apply Forall_forall. intros rs (x & Hx & Hrs)%list_elem_of_omap. rewrite Forall_forall in Hok. by apply (eo_address _ (Hok x Hx)). }
  match type of Hr with invertNative ?e _ _ = _ => set (e0 := e) in * end.
  assert (Hdom : forall c, dom_of e0 c = combine_bools mode (map (fun x => dom_of x c) ee)).
  { intros c. unfold dom_of at 1. unfold e0. cbn [ne_domain]. rewrite join_domain_holds. rewrite combine_omap; [done|done|by apply separable_domain]. }
  assert (Had : forall ip, addr_of e0.(ne_address) ip = combine_bools mode (map (fun x => addr_of x.(ne_address) ip) ee)).
  { intros ip. unfold e0. cbn [ne_address]. rewrite Haddr, combine_omap; [done|done|by apply separable_address]. }
  assert (Hpl : forall c, plain_of e0 c = combine_bools mode (map (fun x => plain_of x c) ee)).
  { intros c. unfold plain_of at 1. rewrite Hdom, Had. by rewrite separable_plain. }
  assert (Hsome : (exists x, x ∈ ee /\ (x.(ne_domain) <> None \/ x.(ne_address) <> None)) -> e0.(ne_domain) <> None \/ e0.(ne_address) <> None).
  { intros (x & Hx & [Hd|Hd]); [left|right]; unfold e0; cbn [ne_domain ne_address].
    - rewrite join_domain_none. intros Hall. by apply Hd, Hall.
    - rewrite Hnone. intros He. destruct (ne_address x) as [rs|] eqn:E; [|done]. assert (Hr' : rs ∈ omap ne_address ee) by (apply list_elem_of_omap; by exists x).
      rewrite He in Hr'. by apply elem_of_nil in Hr'. }
  assert (Hok0 : expr_ok e0).
  { constructor; [..|by unfold e0|done].
    - intros c c' Hc. rewrite !Hdom. apply combine_bools_ext. intros x Hx. rewrite Forall_forall in Hok. by apply (eo_name _ (Hok x Hx)).
    - intros c Hc. rewrite Hdom. unfold e0. cbn [ne_empty].
      transitivity (combine_bools mode (map ne_empty ee)).
      + apply combine_bools_ext. intros x Hx. rewrite Forall_forall in Hok. by apply (eo_empty _ (Hok x Hx)).
      + unfold combine_bools. case_decide; clear; (induction ee as [|x l IH]; [done|]; cbn [map forallb existsb]; by f_equal). }
  destruct (invert_ok _ _ _ _ _ Hok0 (fun Hi => Hsome (Hinv Hi)) Hr) as (Hk & Ht & Hp & Hdn & Han & Hsame). split; [done|]. split; [by rewrite Ht|].
  split; [intros c Hc; by rewrite Hp, Hpl|]. split.
  - intros [Hd|Hd]%Hsome; [left; by apply Hdn|right; by apply Han].
  - intros Hall. assert (Hd0 : ne_domain e0 = None) by (unfold e0; cbn [ne_domain]; by apply join_domain_none).
    unfold invertNative in Hr. rewrite Hd0 in Hr. destruct invert; cbn [negb] in Hr; [|by inv_result]. destruct (ne_address e0); by inv_result.
Qed.

(** Address sets alone. *)
Lemma combine_addresses_plain ee mode w e w' :
  mode = ModeAnd \/ mode = ModeOr -> Forall expr_ok ee -> ee <> [] -> (forall x, x ∈ ee -> x.(ne_domain) = None) ->
  combine_plain ee mode false w = Ok (e, w') ->
  expr_ok e /\ e.(ne_domain) = None /\ e.(ne_transport) = None /\ ((exists x, x ∈ ee /\ x.(ne_address) <> None) -> e.(ne_address) <> None) /\
  (forall ip, 0 <= ip < 2 ^ 32 -> addr_of e.(ne_address) ip = combine_bools mode (map (fun x => addr_of x.(ne_address) ip) ee)).
Proof.
  intros Hm Hok Hne Hd Hc. apply combine_plain_ok in Hc; [|done..]; destruct Hc as (He & Ht & Hp & Hs & Hn).
  specialize (Hn Hd). split; [done|]. split; [done|]. split; [done|]. split.
  - intros (x & Hx & Ha). destruct Hs as [?|?]; [exists x; split; [done|by right]|done|done].
  - intros ip Hip. specialize (Hp (MkConn None ip "" None) (conj Hip (fun H => False_ind _ (H eq_refl)))). rewrite no_domain in Hp by done. cbn [cn_dst] in Hp.
    rewrite Hp, xorb_false_l. apply combine_bools_ext. intros x Hx. rewrite no_domain by by apply Hd. done.
Qed.
Lemma merge_envelopes_ok ee w vs w' : Forall expr_ok ee -> merge_envelopes ee w = Ok (vs, w') ->
  Forall (fun e => e.(ne_domain) = None) ee /\ Forall (fun v => expr_ok v /\ v.(ne_domain) = None) vs /\
  Forall2 (fun e v => (something e -> v.(ne_address) <> None) /\
    forall ip, 0 <= ip < 2 ^ 32 -> addr_of v.(ne_address) ip = addr_of e.(ne_address) ip || addr_of e.(ne_transport) ip) ee vs.
Proof.
  revert w vs. induction ee as [|e ee IH]; intros w vs Hok Hm; cbn [merge_envelopes] in Hm; [injection Hm as <- _; repeat split; constructor|].
  apply Forall_cons in Hok as [He Hok]. case_decide as Hd; [done|]. apply result_bind_Ok in Hm as ([v w1] & Hv & Hm).
  apply result_bind_Ok in Hm as ([rest w2] & Hrest & Hm). inv_result. destruct (IH _ _ Hok Hrest) as (IH1 & IH2 & IH3).
  apply combine_addresses_plain in Hv as (Hvo & Hvd & _ & Hvs & Hva); [|by right|constructor; [apply address_ok, He|constructor; [apply address_ok, He|constructor]]|done|].
  2:{ intros x. rewrite !elem_of_cons. by intros [->|[->|[]%elem_of_nil]]. }
  split; [by constructor|]. split; [by constructor|]. constructor; [|done]. split.
  - intros [?|[Ha|Ht]]; [done|..]; apply Hvs; [exists (address_expr (ne_address e))|exists (address_expr (ne_transport e))]; (split; [set_solver|done]).
  - intros ip Hip. rewrite Hva by done. unfold combine_bools. rewrite decide_False by done. cbn [map existsb]. unfold id. by rewrite orb_false_r.
Qed.
Lemma denotes_plain e P c : denotes e P -> e.(ne_transport) = None -> conn_ok c -> P c = plain_of e c.
Proof.
  intros [_ _ Hx Hc] Ht Hok. specialize (Hx c Hok). specialize (Hc c Hok). rewrite Ht in Hc. destruct (P c), (plain_of e c); try done; [|by apply Hx].
  by destruct Hc as [|[_ [=]]].
Qed.
Lemma combine_bools_true mode (l : list bool) : mode = ModeAnd \/ mode = ModeOr ->
  combine_bools mode l = true <-> if decide (mode = ModeAnd) then Forall (fun b => b = true) l else Exists (fun b => b = true) l.
Proof.
  intros _. unfold combine_bools. case_decide.
  - rewrite forallb_forall, Forall_forall. setoid_rewrite list_elem_of_In. done.
  - rewrite existsb_exists, Exists_exists. setoid_rewrite list_elem_of_In. done.
Qed.

Lemma Forall2_elem {A B} (R : A -> B -> Prop) l k x : Forall2 R l k -> x ∈ l -> exists y, y ∈ k /\ R x y.
Proof. intros Hl [i Hi]%list_elem_of_lookup. destruct (Forall2_lookup_l _ _ _ _ _ Hl Hi) as (y & Hy & HR). exists y. split; [by eapply list_elem_of_lookup_2|done]. Qed.
Lemma Forall2_elem_r {A B} (R : A -> B -> Prop) l k y : Forall2 R l k -> y ∈ k -> exists x, x ∈ l /\ R x y.
Proof. intros Hl Hy. apply Forall2_flip in Hl. destruct (Forall2_elem _ _ _ _ Hl Hy) as (x & Hx & HR). by exists x. Qed.
Lemma all_true {A} (f : A -> bool) (l : list A) : combine_bools ModeAnd (map f l) = true <-> forall x, x ∈ l -> f x = true.
Proof.
  unfold combine_bools. rewrite decide_True by done. rewrite forallb_forall. setoid_rewrite <- list_elem_of_In. setoid_rewrite list_elem_of_fmap. naive_solver.
Qed.
Lemma some_true {A} mode (f : A -> bool) (l : list A) : mode <> ModeAnd -> combine_bools mode (map f l) = true <-> exists x, x ∈ l /\ f x = true.
Proof.
  intros Hm. unfold combine_bools. rewrite decide_False by done. rewrite existsb_exists. setoid_rewrite <- list_elem_of_In. setoid_rewrite list_elem_of_fmap. naive_solver.
Qed.

(** An expression of address sets stands for a conjunction: its plain set is the
    common part of plain sets, all there, and its envelope covers the operands. *)
Lemma and_denotes ee Ps (e0 : nativeExpr) : Forall2 denotes ee Ps -> (forall x, x ∈ ee -> x.(ne_domain) = None) ->
  e0.(ne_domain) = None -> e0.(ne_transport) <> None -> expr_ok e0 ->
  (forall c, conn_ok c -> (forall x, x ∈ ee -> addr_of x.(ne_address) c.(cn_dst) || addr_of x.(ne_transport) c.(cn_dst) = true) ->
     addr_of e0.(ne_transport) c.(cn_dst) = true) ->
  (forall c, conn_ok c -> addr_of e0.(ne_address) c.(cn_dst) = true <-> forall x, x ∈ ee -> x.(ne_address) <> None /\ addr_of x.(ne_address) c.(cn_dst) = true) ->
  denotes e0 (fun c => combine_bools ModeAnd (map (fun P => P c) Ps)).
Proof.
  intros Hl Hd Hd0 Ht0 Hok0 Hcover Ha0. constructor; [done|by right; right|..].
  - intros c Hcok. rewrite no_domain by done. rewrite Ha0 by done. intros Hall. apply all_true. intros P HP. destruct (Forall2_elem_r _ _ _ _ Hl HP) as (x & Hx & []).
    apply de_exact0; [done|]. rewrite no_domain by by apply Hd. by apply Hall.
  - intros c Hcok Hall. rewrite all_true in Hall. rewrite no_domain by done.
    assert (Hx : forall x, x ∈ ee -> addr_of x.(ne_address) c.(cn_dst) = true \/ conn_tcp_udp c /\ addr_of x.(ne_transport) c.(cn_dst) = true).
    { intros x Hx. destruct (Forall2_elem _ _ _ _ Hl Hx) as (P & HP & []). rewrite <- (no_domain x) by by apply Hd. apply de_covers0; [done|by apply Hall]. }
    destruct (decide (addr_of e0.(ne_address) c.(cn_dst) = true)) as [?|Hno]; [by left|right]. split.
    + rewrite Ha0 in Hno by done. destruct (decide (Exists (fun x => addr_of x.(ne_address) c.(cn_dst) <> true) ee)) as [(x & Hxe & Hf)%Exists_exists|Hf].
      * by destruct (Hx x Hxe) as [|[? _]].
      * exfalso. apply Hno. intros x Hxe. assert (Ht' : addr_of x.(ne_address) c.(cn_dst) = true).
        { apply dec_stable. intros Hf'. apply Hf, Exists_exists. by exists x. } split; [|done]. intros E. by rewrite E in Ht'.
    + apply Hcover; [done|]. intros x Hxe. destruct (Hx x Hxe) as [->|[_ ->]]; [done|]. by rewrite orb_true_r.
Qed.
(** "And" of operands with transport sets. *)
Lemma combine_and_ok ee Ps w e w' : Forall2 denotes ee Ps -> ee <> [] -> existsb (fun e => bool_decide (e.(ne_transport) <> None)) ee = true ->
  combineNative ee ModeAnd false w = Ok (e, w') -> denotes e (fun c => combine_bools ModeAnd (map (fun P => P c) Ps)).
Proof.
  intros Hl Hne Ht Hc. unfold combineNative in Hc. rewrite Ht in Hc. rewrite decide_True in Hc by done.
  assert (Hok : Forall expr_ok ee) by (apply Forall_forall; intros x Hx; destruct (Forall2_elem _ _ _ _ Hl Hx) as (P & _ & []); done).
  assert (Hsm : forall x, x ∈ ee -> something x) by (intros x Hx; destruct (Forall2_elem _ _ _ _ Hl Hx) as (P & _ & []); done).
  apply result_bind_Ok in Hc as ([vs w1] & Hv & Hc). apply result_bind_Ok in Hc as ([env w2] & Henv & Hc).
  destruct (merge_envelopes_ok _ _ _ _ Hok Hv) as (Hd & Hvs & Hva). rewrite Forall_forall in Hd.
  assert (Hvne : vs <> []) by (intros ->; by inversion Hva; subst).
  apply combine_addresses_plain in Henv as (Ho & _ & _ & Hsome & Hin); [|by left|by eapply Forall_impl; [exact Hvs|intros ? []]|done|by rewrite Forall_forall in Hvs; intros x Hx; apply Hvs].
  assert (Hcover : forall c, conn_ok c -> (forall x, x ∈ ee -> addr_of x.(ne_address) c.(cn_dst) || addr_of x.(ne_transport) c.(cn_dst) = true) -> addr_of env.(ne_address) c.(cn_dst) = true).
  { intros c [Hip _] Hall. rewrite Hin by done. apply all_true. intros v Hx. destruct (Forall2_elem_r _ _ _ _ Hva Hx) as (x & Hxe & _ & ->); [|done]. by apply Hall. }
  assert (Hsome' : ne_address env <> None).
  { apply Hsome. destruct Hva as [|x v ee' vs' [Hx _] _]; [done|]. exists v. split; [by left|]. apply Hx, Hsm. by left. }
  assert (Hcase : forall e0, e0.(ne_domain) = None -> e0.(ne_transport) = env.(ne_address) -> expr_ok e0 ->
    (forall c, conn_ok c -> addr_of e0.(ne_address) c.(cn_dst) = true <-> forall x, x ∈ ee -> x.(ne_address) <> None /\ addr_of x.(ne_address) c.(cn_dst) = true) ->
    denotes e0 (fun c => combine_bools ModeAnd (map (fun P => P c) Ps))).
  { intros e0 Hd0 Ht0 Hok0 Ha0. apply (and_denotes ee); try done; by rewrite Ht0. }
  destruct (forallb _ ee) eqn:Hall; [apply result_bind_Ok in Hc as ([un w3] & Hun & Hc)|]; injection Hc as <- _.
  - rewrite forallb_forall in Hall. setoid_rewrite <- list_elem_of_In in Hall.
    apply combine_addresses_plain in Hun as (Huo & _ & _ & Hus & Hui); [|by left|..].
    2:{ apply Forall_forall. intros x (y & -> & Hy)%list_elem_of_fmap. apply address_ok. rewrite Forall_forall in Hok. by apply Hok. }
    2:{ by destruct ee. }
    2:{ by intros x (y & -> & _)%list_elem_of_fmap. }
    apply Hcase; try done; cbn [ne_address ne_domain ne_transport].
    + constructor; [done..| |]; [apply Huo|apply Ho].
    + intros c [Hip _]. rewrite Hui by done. rewrite map_map, all_true. cbn [address_expr ne_address].
      split; [|naive_solver]. intros H3 x Hx. split; [|by apply H3]. specialize (Hall x Hx). by apply bool_decide_eq_true in Hall.
  - assert (Hex : exists x, x ∈ ee /\ x.(ne_address) = None).
    { destruct (decide (Exists (fun x => x.(ne_address) = None) ee)) as [Hx|Hx]; [by apply Exists_exists in Hx|]. exfalso. apply not_true_iff_false in Hall. apply Hall.
      apply forallb_forall. intros x Hxe%list_elem_of_In. apply bool_decide_eq_true. intros E. apply Hx, Exists_exists. by exists x. }
    apply Hcase; try done; cbn [ne_address ne_domain ne_transport].
    + constructor; [done..|apply Ho].
    + intros c _. split; [done|]. intros Hx. destruct Hex as (x & Hxe & E). by destruct (Hx x Hxe).
Qed.

(** "Or" of operands with transport sets. *)
Lemma combine_or_ok ee Ps w e w' : Forall2 denotes ee Ps -> ee <> [] -> existsb (fun e => bool_decide (e.(ne_transport) <> None)) ee = true ->
  combineNative ee ModeOr false w = Ok (e, w') -> denotes e (fun c => combine_bools ModeOr (map (fun P => P c) Ps)).
Proof.
  intros Hl Hne Ht Hc. unfold combineNative in Hc. rewrite Ht in Hc. rewrite decide_False in Hc by done.
  assert (Hok : Forall expr_ok ee) by (apply Forall_forall; intros x Hx; destruct (Forall2_elem _ _ _ _ Hl Hx) as (P & _ & []); done).
  rewrite Forall_forall in Hok. apply result_bind_Ok in Hc as ([or w1] & Hor & Hc). apply result_bind_Ok in Hc as ([tr w2] & Htr & Hc). injection Hc as <- _.
  set (ordinary e := MkExpr e.(ne_domain) e.(ne_address) e.(ne_empty) None) in Hor.
  apply combine_plain_ok in Hor as (Hoo & _ & Hop & _ & _); [|by right|..|by destruct ee|done].
  2:{ apply Forall_forall. intros x (y & -> & Hy)%list_elem_of_fmap. destruct (Hok y Hy) as [H3 H4 H5 H6]. by constructor. }
  apply existsb_exists in Ht as (y & Hy%list_elem_of_In & Hty%bool_decide_eq_true).
  destruct (ne_transport y) as [rs|] eqn:Ey; [|done]. assert (Hrs : rs ∈ omap ne_transport ee) by (apply list_elem_of_omap; by exists y).
  apply combine_addresses_plain in Htr as (Hto & _ & _ & Hts & Hti); [|by right|..].
  2:{ apply Forall_forall. intros x (t & -> & (z & Hz & Ez)%list_elem_of_omap)%list_elem_of_fmap. apply address_ok. intros rs' [= <-]. by apply (eo_transport _ (Hok z Hz)). }
  2:{ intros E. apply fmap_nil_inv in E. rewrite E in Hrs. by apply elem_of_nil in Hrs. }
  2:{ by intros x (t & -> & _)%list_elem_of_fmap. }
  assert (Hplain : forall c, conn_ok c -> plain_of (MkExpr or.(ne_domain) or.(ne_address) or.(ne_empty) tr.(ne_address)) c = true <->
    exists x, x ∈ ee /\ plain_of x c = true).
  { intros c Hc. change (plain_of or c = true <-> exists x, x ∈ ee /\ plain_of x c = true). rewrite Hop by done. rewrite xorb_false_l, map_map. by rewrite some_true. }
  constructor.
  - destruct Hoo as [H3 H4 H5 H6]. constructor; [done..|apply Hto].
  - right; right. apply Hts. exists (address_expr (Some rs)). split; [|done]. apply list_elem_of_fmap. by exists rs.
  - intros c Hc. rewrite Hplain by done. intros (x & Hx & Hp). destruct (Forall2_elem _ _ _ _ Hl Hx) as (P & HP & []).
    rewrite some_true by done. exists P. split; [done|]. by apply de_exact0.
  - intros c Hc. rewrite some_true by done. intros (P & HP & Hh). destruct (Forall2_elem_r _ _ _ _ Hl HP) as (x & Hx & []).
    rewrite Hplain by done. destruct (de_covers0 c Hc Hh) as [Hp|[Hn Hp]]; [left; by exists x|right]. split; [done|]. cbn [ne_transport]. rewrite Hti by apply Hc.
    rewrite map_map, some_true by done. unfold addr_of in Hp. destruct (ne_transport x) as [rs'|] eqn:Ex; [|done]. exists rs'. split; [|done].
    apply list_elem_of_omap. by exists x.
Qed.
Lemma combineNative_ok ee Ps mode invert w e w' : mode = ModeAnd \/ mode = ModeOr -> Forall2 denotes ee Ps -> ee <> [] ->
  combineNative ee mode invert w = Ok (e, w') -> denotes e (fun c => xorb invert (combine_bools mode (map (fun P => P c) Ps))).
Proof.
  intros Hm Hl Hne Hc. destruct (existsb (fun e => bool_decide (e.(ne_transport) <> None)) ee) eqn:Ht.
  - destruct invert; [unfold combineNative in Hc; by rewrite Ht in Hc|].
    destruct Hm as [-> | ->]; [by eapply combine_and_ok|by eapply combine_or_ok].
  - unfold combineNative in Hc. rewrite Ht in Hc.
    assert (Hn : forall x, x ∈ ee -> x.(ne_transport) = None).
    { intros x Hx. apply dec_stable. intros E. apply not_true_iff_false in Ht. apply Ht, existsb_exists. exists x. split; [by apply list_elem_of_In|by apply bool_decide_eq_true]. }
    assert (Hs : exists x, x ∈ ee /\ (x.(ne_domain) <> None \/ x.(ne_address) <> None)).
    { destruct Hl as [|x P ee' Ps' [_ Hsm _ _] _]; [done|]. exists x. split; [by left|]. destruct Hsm as [?|[?|E]]; [by left|by right|]. by rewrite Hn in E by left. }
    apply combine_plain_ok in Hc as (Ho & Htr & Hp & Hsm & _); [|done|..|done|done].
    2:{ apply Forall_forall. intros x Hx. by destruct (Forall2_elem _ _ _ _ Hl Hx) as (P & _ & []). }
    assert (Heq : forall c, conn_ok c -> plain_of e c = xorb invert (combine_bools mode (map (fun P => P c) Ps))).
    { intros c Hc. rewrite Hp by done. f_equal. f_equal. clear - Hl Hn Hc. induction Hl as [|x P ee Ps Hd Hl IH]; [done|]. cbn [map]. f_equal.
      - symmetry. apply denotes_plain; [done|apply Hn; by left|done].
      - apply IH. intros y Hy. apply Hn. by right. }
    constructor; [done|destruct (Hsm Hs) as [?|?]; [by left|by right; left]|intros c Hc; by rewrite Heq|intros c Hc; left; by rewrite Heq].
Qed.

(** ** Leaves and trees *)
Lemma domain_part_holds d c : contextual d = false -> has_domain d = true -> holds c (domain_part d) = names_hold c d.
Proof.
  intros Hc Hd. apply bool_decide_eq_false in Hc. unfold domain_part. cbn [holds]. rewrite decide_False by done.
  unfold leaf_holds, names_hold, ip_holds, network_holds, port_holds, has_domain. cbn [dr_domain dr_suffix dr_keyword dr_regex dr_ip_cidr dr_network dr_port dr_port_range dr_invert existsb].
  unfold has_domain in Hd. rewrite Hd. rewrite xorb_false_l. cbn [negb andb orb].
  rewrite (bool_decide_eq_true_2 (dr_network d = [] \/ _)) by (left; apply dec_stable; tauto).
  rewrite (bool_decide_eq_true_2 (dr_port d = [] /\ _)) by (split; apply dec_stable; tauto). rewrite orb_false_r, !andb_true_r.
  destruct (cn_name c); [|done]. by apply match_names_ext.
Qed.
Lemma has_domain_regex d : has_domain d = false -> d.(dr_regex) = [].
Proof. intros Hd%bool_decide_eq_false. apply dec_stable. tauto. Qed.
(** The address part of a leaf. *)
Lemma leaf_address d w a w' :
  (if decide (d.(dr_ip_cidr) = []) then Ok (None, w)
   else w ← charge_work (Z.of_nat (length d.(dr_ip_cidr))) true w;
        match mapM cidr_prefix d.(dr_ip_cidr) with None => unsupported "invalid address" | Some ps => Ok (Some (Ranges (omap cidr_range ps)), w) end) = Ok (a, w') ->
  set_ok a /\ (a = None <-> d.(dr_ip_cidr) = []) /\ forall dst, addr_of a dst = ip_holds dst d.
Proof.
  case_decide as Hz; intros Hi; inv_result; [split; [done|]; split; [done|]; intros dst; unfold ip_holds; by rewrite Hz|].
  destruct (mapM _ _) as [ps|] eqn:Hps; [|done]. inv_result. split; [intros rs [= <-]; apply Ranges_ok; by destruct (cidr_ranges _ _ 0 Hps)|].
  split; [done|]. intros dst. cbn [addr_of]. rewrite Ranges_in. by destruct (cidr_ranges _ _ dst Hps) as [_ ->].
Qed.

Lemma invert_denotes e P w e' w' invert : denotes e P -> e.(ne_transport) = None -> invertNative e invert w = Ok (e', w') ->
  denotes e' (fun c => xorb invert (P c)).
Proof.
  intros Hd Ht Hi. pose proof Hd as [Hok Hs _ _]. assert (Hda : e.(ne_domain) <> None \/ e.(ne_address) <> None) by (destruct Hs as [?|[?|?]]; [by left|by right|done]).
  destruct (invert_ok _ _ _ _ _ Hok (fun _ => Hda) Hi) as (Ho & Ht' & Hp & Hdn & Han & _).
  assert (Heq : forall c, conn_ok c -> plain_of e' c = xorb invert (P c)) by (intros c Hc; rewrite Hp by done; f_equal; symmetry; by apply denotes_plain).
  constructor; [done|destruct Hda as [?|?]; [left; by apply Hdn|right; left; by apply Han]|intros c Hc; by rewrite Heq|intros c Hc; left; by rewrite Heq].
Qed.
Lemma contextual_false d : contextual d = false -> d.(dr_network) = [] /\ d.(dr_port) = [] /\ d.(dr_port_range) = [].
Proof. intros Hc%bool_decide_eq_false. split_and!; apply dec_stable; tauto. Qed.
(** A leaf about names and addresses. *)
Lemma plain_leaf d a : contextual d = false -> set_ok a -> (a = None <-> d.(dr_ip_cidr) = []) -> (forall dst, addr_of a dst = ip_holds dst d) ->
  has_domain d = true \/ a <> None ->
  denotes (MkExpr (if has_domain d then Some (domain_part d) else None) a false None) (fun c => xorb d.(dr_invert) (leaf_holds c d)).
Proof.
  intros Hc Ha Hn Hin Hs.
  assert (Hdom : forall c, dom_of (MkExpr (if has_domain d then Some (domain_part d) else None) a false None) c = names_hold c d).
  { intros c. unfold dom_of. cbn [ne_domain]. destruct (has_domain d) eqn:E; [by apply domain_part_holds|]. unfold names_hold. by rewrite E. }
  assert (Heq : forall c, plain_of (MkExpr (if has_domain d then Some (domain_part d) else None) a false None) c = xorb d.(dr_invert) (leaf_holds c d)).
  { intros c. unfold plain_of. rewrite Hdom. cbn [ne_address]. rewrite Hin. unfold leaf_holds. rewrite <- xorb_assoc, xorb_nilpotent, xorb_false_l.
    destruct (contextual_false d Hc) as (En & Ep & Er). unfold network_holds, port_holds. rewrite En, Ep, Er.
    rewrite (bool_decide_eq_true_2 (_ \/ _)) by by left. rewrite (bool_decide_eq_true_2 (_ /\ _)) by done. rewrite orb_true_l, !andb_true_r.
    destruct (negb (has_domain d) && bool_decide (dr_ip_cidr d = [])) eqn:E; [|done]. exfalso. reflect_bools.
    destruct Hs as [?|Hs]; [congruence|]. by apply Hs, Hn. }
  constructor.
  - constructor; [..|done|done].
    + intros c c' Hcc. rewrite !Hdom. unfold names_hold. by rewrite Hcc.
    + intros c Hcc. rewrite Hdom. unfold names_hold. rewrite Hcc. by rewrite andb_false_r.
  - destruct Hs as [E|?]; [left; cbn [ne_domain]; by rewrite E|by right; left].
  - intros c _. by rewrite Heq.
  - intros c _. left. by rewrite Heq.
Qed.
(** A leaf about the transport. *)
Lemma context_leaf d a : contextual d = true -> d.(dr_invert) = false -> has_domain d = false -> set_ok a -> (a = None <-> d.(dr_ip_cidr) = []) ->
  (forall dst, addr_of a dst = ip_holds dst d) -> Forall (fun n => n = "tcp" \/ n = "udp")%string d.(dr_network) ->
  denotes (MkExpr None None false (Some (default (Ranges [whole_ipv4]) a))) (fun c => leaf_holds c d).
Proof.
  intros Hc Hi Hd Ha Hn Hin Hnet. constructor; [constructor; try done| |done|].
  - intros rs [= <-]. destruct a as [rs'|]; [by apply Ha|]. apply Ranges_ok. by repeat constructor.
  - by right; right.
  - intros c [Hip Hport] Hh. right. cbn [ne_transport]. unfold leaf_holds in Hh. rewrite Hi, xorb_false_l in Hh. apply andb_true_iff in Hh as [[Hh Hn1]%andb_true_iff Hp].
    split.
    + apply bool_decide_eq_true in Hn1. destruct (decide (dr_network d = [])) as [En|En].
      * unfold port_holds in Hp. destruct (cn_port c) as [p|] eqn:Ep; [by apply Hport|]. rewrite orb_false_r in Hp. apply bool_decide_eq_true in Hp as [E1 E2].
        apply bool_decide_eq_true in Hc. tauto.
      * destruct Hn1 as [?|Hn1]; [done|]. rewrite Forall_forall in Hnet. by apply Hnet.
    + unfold names_hold in Hh. rewrite Hd in Hh. cbn [negb andb orb] in Hh. destruct a as [rs|] eqn:Ea; cbn [default from_option id addr_of].
      * rewrite <- Hin in Hh. assert (E : dr_ip_cidr d <> []) by (intros E; by apply Hn in E). rewrite bool_decide_eq_false_2 in Hh by done. by rewrite orb_false_l in Hh.
      * rewrite Ranges_in, in_ranges_cons. unfold whole_ipv4. cbn [fst snd]. rewrite bool_decide_eq_true_2 by lia. done.
Qed.
Lemma compile_default_ok d w e w' : compile_default legacy d w = Ok (e, w') -> denotes e (fun c => leaf_holds c d).
Proof.
  unfold compile_default. destruct (unknown_field legacy d); [done|]. destruct (negb (forallb value_ok _)); [done|]. cbv zeta.
  destruct (negb (forallb _ (dr_network d))) eqn:Hnet; [done|]. destruct (negb (forallb _ (dr_port_range d))); [done|].
  destruct (contextual d && _) eqn:Hmix; [done|]. case_decide; [done|]. intros (rg & _ & Hc)%result_bind_Ok. destruct (negb (forallb RegexCompiles _)); [done|].
  apply result_bind_Ok in Hc as ([a w1] & Ha & Hc). apply leaf_address in Ha as (Hset & Hn & Hin). case_decide as Hne; [done|].
  destruct (contextual d) eqn:Hctx.
  - cbn [andb] in Hmix. apply orb_false_iff in Hmix as [Hi Hd]. rewrite Hd, Hi in Hc. cbn in Hc. injection Hc as <- _.
    apply context_leaf; try done. apply negb_false_iff in Hnet. rewrite forallb_forall in Hnet. apply Forall_forall. intros n Hn'%list_elem_of_In. apply Hnet in Hn'. by apply bool_decide_eq_true in Hn'.
  - assert (Hs : has_domain d = true \/ a <> None).
    { cbn [ne_domain ne_address ne_transport] in Hne. destruct (has_domain d); [by left|right]. intros ->. by apply Hne. }
    pose proof (plain_leaf d a Hctx Hset Hn Hin Hs) as Hp. eapply invert_denotes in Hc; [|exact Hp|done].
    destruct Hc as [Ho Hs' Hx Hv]. constructor; [done..| |]; intros c Hcc; specialize (Hx c Hcc); specialize (Hv c Hcc); rewrite <- xorb_assoc, xorb_nilpotent, xorb_false_l in *; done.
Qed.

Lemma HeadlessRule_ind' (P : HeadlessRule -> Prop) :
  (forall type d mode rules invert, Forall P rules -> P (Rule type d mode rules invert)) -> forall r, P r.
Proof.
  intros Hstep. fix IH 1. intros [type d mode rules invert]. apply Hstep. induction rules as [|r rules IHs]; constructor; [apply IH|exact IHs].
Qed.
Lemma compileNative_ok r depth w e w' : compileNative legacy r depth w = Ok (e, w') -> denotes e (fun c => holds c r).
Proof.
  revert depth w e w'. induction r as [type d mode rules invert IH] using HeadlessRule_ind'. intros depth w e w' Hc. cbn [compileNative] in Hc.
  case_decide; [done|]. case_decide as Ht.
  - case_decide as Hbad; [done|]. apply result_bind_Ok in Hc as ([ee w1] & Hee & Hc).
    assert (Hl : Forall2 denotes ee (map (fun r c => holds c r) rules)).
    { clear Hc Hbad. revert Hee. generalize (MkWork (nw_nodes w + 1) (nw_values w) (nw_remaining w) (nw_regex w)). revert ee w1. clear - IH.
      induction rules as [|r rules IHr]; intros ee w1 w Hee; [injection Hee as <- _; constructor|]. apply Forall_cons in IH as [Hr IH].
      apply result_bind_Ok in Hee as ([e1 w2] & H1' & Hee). apply result_bind_Ok in Hee as ([ee2 w3] & H2' & Hee). injection Hee as <- <-.
      constructor; [by eapply Hr|by eapply IHr]. }
    assert (Hne : ee <> []) by (intros ->; apply Forall2_nil_inv_l in Hl; apply fmap_nil_inv in Hl; tauto).
    assert (Hm : mode = ModeAnd \/ mode = ModeOr) by (destruct (decide (mode = ModeAnd)); [by left|right; apply dec_stable; tauto]).
    apply (combineNative_ok _ _ _ _ _ _ _ Hm Hl Hne) in Hc.
    assert (Heq : forall c, xorb invert (combine_bools mode (map (fun P : Conn -> bool => P c) (map (fun r c => holds c r) rules))) = holds c (Rule type d mode rules invert)).
    { intros c. cbn [holds]. rewrite decide_True by done. f_equal. rewrite map_map. unfold combine_bools.
      case_decide; clear; (induction rules as [|r l IHl]; [done|]; cbn [map forallb existsb]; by f_equal). }
    destruct Hc as [Ho Hs' Hx Hv]. constructor; [done..| |]; intros c Hcc; specialize (Hx c Hcc); specialize (Hv c Hcc); by rewrite Heq in *.
  - case_decide; [done|]. apply compile_default_ok in Hc. destruct Hc as [Ho Hs' Hx Hv].
    constructor; [done..| |]; intros c Hcc; cbn [holds]; rewrite decide_False by done; by auto.
Qed.
Lemma compile_rules_ok l w ee w' : compile_rules legacy l w = Ok (ee, w') -> Forall2 denotes ee (map (fun r c => holds c r) l).
Proof.
  revert w ee. induction l as [|r l IH]; intros w ee Hc; cbn [compile_rules] in Hc; [injection Hc as <- _; constructor|].
  apply result_bind_Ok in Hc as ([e w1] & He & Hc). apply result_bind_Ok in Hc as ([ee' w2] & Hee & Hc). injection Hc as <- <-.
  constructor; [by eapply compileNative_ok|by eapply IH].
Qed.

(** ** The projection *)
Definition line_byte (b : Z) : bool := (46 <=? b) && (b <=? 57).
Lemma ipv4_string_bytes ip : all_bytes line_byte (ipv4_string ip) = true.
Proof.
  unfold ipv4_string. cbn [map Join].
  assert (H8 : forall k, all_bytes line_byte (Itoa (ip / 2 ^ k mod 256)) = true).
  { intros k. pose proof (Z.mod_pos_bound (ip / 2 ^ k) 256 ltac:(lia)) as Hb. revert Hb. generalize (ip / 2 ^ k mod 256). intros b Hb.
    assert (Hall : forallb (fun b => all_bytes line_byte (Itoa b)) (seqZ 0 256) = true) by (vm_compute; reflexivity).
    rewrite forallb_forall in Hall. apply Hall, list_elem_of_In, elem_of_seqZ. lia. }
  rewrite !all_bytes_app, !H8. done.
Qed.
Lemma PrefixString_entry ip bits : 0 <= ip < 2 ^ 32 -> 0 <= bits <= 32 -> subnet_entry (PrefixString (MkPrefix (V4 ip) bits)) = Some (prefix_range ip bits).
Proof.
  intros Hip Hb. set (s := PrefixString (MkPrefix (V4 ip) bits)).
  assert (Hbits : forallb (fun b => all_bytes line_byte (Itoa b) && negb (ContainsByte (Itoa b) "/") && bool_decide (Atoi (Itoa b) = Some b) &&
      match Itoa b with String c (String _ _) => bool_decide (49 <= byte_of c <= 57) | _ => true end) (seqZ 0 33) = true) by (vm_compute; reflexivity).
  rewrite forallb_forall in Hbits. specialize (Hbits bits ltac:(apply list_elem_of_In, elem_of_seqZ; lia)).
  apply andb_true_iff in Hbits as [[[Hd Hl%negb_true_iff]%andb_true_iff Ha%bool_decide_eq_true]%andb_true_iff Hsign].
  assert (Hbytes : all_bytes line_byte s = true).
  { unfold s, PrefixString. cbn [prefix_addr prefix_bits AddrString]. by rewrite !all_bytes_app, ipv4_string_bytes, Hd. }
  assert (Ht : TrimSpace s = s).
  { apply TrimSpace_graphic. eapply all_bytes_impl; [|exact Hbytes]. intros b. unfold line_byte, graphic_byte. rewrite !andb_true_iff, !Z.leb_le, Z.ltb_lt. lia. }
  assert (Hc : CutLast s "/" = Some (ipv4_string ip, Itoa bits)).
  { unfold s, PrefixString. cbn [prefix_addr prefix_bits AddrString]. by apply CutLast_app. }
  assert (Hp : ParsePrefix s = Some (MkPrefix (V4 ip) bits)).
  { unfold ParsePrefix. rewrite Hc, ParseAddr_String_V4 by done. cbn [BitLen Is4]. rewrite Ha, decide_True by done. cbn [orb].
    destruct (Itoa bits) as [|c [|c2 r]]; [done..|]. apply bool_decide_eq_true in Hsign. by rewrite bool_decide_eq_false_2 by (intros E; by apply E). }
  unfold subnet_entry. rewrite Ht. apply CutLast_join in Hc as [Hs _].
  rewrite decide_False by (rewrite Hs; by destruct (ipv4_string ip)).
  assert (ContainsByte s "/" = true) as ->.
  { rewrite Hs, contains_app_eq, contains_cons_eq. by rewrite bool_decide_eq_true_2, orb_true_r. }
  by rewrite Hp.
Qed.
Lemma in_list_prefixes ps dst : (forall p, p ∈ ps -> exists ip bits, p = MkPrefix (V4 ip) bits /\ 0 <= ip < 2 ^ 32 /\ 0 <= bits <= 32) ->
  in_list (map PrefixString ps) dst = existsb (fun p => Contains p (V4 dst)) ps.
Proof.
  induction ps as [|p ps IH]; intros Hp; [done|]. cbn [map in_list existsb]. destruct (Hp p) as (ip & bits & -> & Hip & Hb); [by left|].
  rewrite PrefixString_entry, prefix_range_in by done. f_equal. apply IH. intros q Hq. apply Hp. by right.
Qed.
Lemma uncovered rs : ranges_ok 0 rs -> rs <> [whole_ipv4] -> exists dst, 0 <= dst < 2 ^ 32 /\ in_ranges rs dst = false.
Proof.
  intros Hok Hne. destruct rs as [|[a b] rs]; [by exists 0|]. cbn [ranges_ok fst snd] in Hok. destruct Hok as (Hab & Hb & Hok).
  destruct (decide (a = 0)) as [->|Ha].
  - assert (Hb' : b <> 2 ^ 32 - 1).
    { intros ->. apply Hne. unfold whole_ipv4. f_equal. destruct rs as [|[x y] rs]; [done|]. cbn [ranges_ok fst snd] in Hok. lia. }
    exists (b + 1). split; [lia|]. rewrite in_ranges_cons. cbn [fst snd]. rewrite bool_decide_eq_false_2 by lia. apply (ranges_below (b + 2)); [done|lia].
  - exists 0. split; [lia|]. rewrite in_ranges_cons. cbn [fst snd]. rewrite bool_decide_eq_false_2 by lia. apply (ranges_below (b + 2)); [done|lia].
Qed.
Lemma bounded_prefixes_ok label a l : set_ok a -> bounded_prefixes label a = Ok l ->
  (forall dst, 0 <= dst < 2 ^ 32 -> in_list l dst = addr_of a dst) /\ Z.of_nat (length l) <= maxNativeValues /\
  exists dst, 0 <= dst < 2 ^ 32 /\ addr_of a dst = false.
Proof.
  intros Ha. unfold bounded_prefixes. destruct a as [rs|]; [|intros [= <-]; split; [done|]; split; [done|]; exists 0; done].
  specialize (Ha rs eq_refl). case_decide as Hw; [done|]. case_decide; [done|]. intros [= <-]. split; [|split; [rewrite length_map; lia|]].
  - intros dst Hd. rewrite in_list_prefixes; [|intros p Hp; by eapply Prefixes_ipv4]. by apply Prefixes_in.
  - apply uncovered; [done|]. intros ->. apply Hw, Prefixes_whole; [done|]. intros ip Hip. rewrite in_ranges_cons. unfold whole_ipv4. cbn [fst snd].
    by rewrite bool_decide_eq_true_2 by lia.
Qed.

Lemma combined_bounded_ok e w : expr_ok e -> combined_bounded e w = Ok tt -> (forall a, e.(ne_address) = Some a -> a <> [whole_ipv4]) ->
  (forall a, e.(ne_transport) = Some a -> a <> [whole_ipv4]) ->
  exists dst, 0 <= dst < 2 ^ 32 /\ addr_of e.(ne_address) dst || addr_of e.(ne_transport) dst = false.
Proof.
  intros [_ _ Hsa Hst] Hc Ha Ht. unfold combined_bounded in Hc. destruct (ne_transport e) as [t|], (ne_address e) as [a|].
  - apply result_bind_Ok in Hc as ([env w1] & Henv & Hc). unfold combineNative in Henv. cbn [existsb address_expr ne_transport bool_decide] in Henv.
    apply combine_addresses_plain in Henv as (Ho & _ & _ & Hs & Hin); [|by right|..|done|].
    2:{ constructor; [by apply address_ok|constructor; [by apply address_ok|constructor]]. }
    2:{ intros x. rewrite !elem_of_cons. by intros [->|[->|[]%elem_of_nil]]. }
    assert (Hne : ne_address env <> None) by (apply Hs; exists (address_expr (Some a)); split; [by left|done]).
    destruct (ne_address env) as [rs|] eqn:Ers; [|done]. cbn [default from_option id] in Hc. pose proof (eo_address _ Ho rs Ers) as Hrs.
    destruct (uncovered rs Hrs) as (dst & Hd & Hf).
    { intros ->. rewrite (Prefixes_whole [whole_ipv4]) in Hc; [by cbn in Hc|done|]. intros ip Hip. rewrite in_ranges_cons. unfold whole_ipv4. cbn [fst snd].
      by rewrite bool_decide_eq_true_2 by lia. }
    exists dst. split; [done|]. specialize (Hin dst Hd). cbn [addr_of] in Hin. rewrite Hf in Hin. unfold combine_bools in Hin. rewrite decide_False in Hin by done.
    cbn [map existsb address_expr ne_address] in Hin. unfold id in Hin. by rewrite orb_false_r in Hin.
  - destruct (uncovered t) as (dst & Hd & Hf); [by apply Hst|by apply Ht|]. exists dst. cbn [addr_of]. by rewrite Hf.
  - destruct (uncovered a) as (dst & Hd & Hf); [by apply Hsa|by apply Ha|]. exists dst. cbn [addr_of]. by rewrite Hf.
  - by exists 0.
Qed.
Lemma bounded_not_whole label a l : set_ok a -> bounded_prefixes label a = Ok l -> forall rs, a = Some rs -> rs <> [whole_ipv4].
Proof.
  intros Ha Hb rs -> ->. destruct (bounded_prefixes_ok _ _ _ Ha Hb) as (_ & _ & dst & Hd & Hf). cbn [addr_of] in Hf. rewrite in_ranges_cons in Hf.
  unfold whole_ipv4 in Hf. cbn [fst snd] in Hf. by rewrite bool_decide_eq_true_2 in Hf by lia.
Qed.
End denotation.

(** ** Properties *)

(** C39: interception of a rule set.  When the compiler accepts a set, every
    connection the set matches is intercepted: its address is in the subnets of
    the packet filter, or it is TCP or UDP to one of the transport subnets, or
    its name matches the DNS part, which looks at the name alone; so no
    connection to a literal address escapes.  Nothing is taken too much: an
    address of the subnets and a name of the DNS part are in the set whatever
    the rest of the connection is.  There are at most 200000 subnets of each
    kind, and some address is in neither. *)
Theorem ProjectNative_intercepts `{IPS : IPSets} `{!IPSetOps} `{RegexSyntax} `{NameMatching} legacy rules out :
  project_rules legacy rules = Ok out ->
  (forall c, conn_ok c -> set_holds c rules = true ->
     in_list out.(np_subnets) c.(cn_dst) = true \/ conn_tcp_udp c /\ in_list out.(np_transport) c.(cn_dst) = true \/
     exists name r, c.(cn_name) = Some name /\ out.(np_dns) = Some r /\ holds c r = true) /\
  (forall c, conn_ok c -> in_list out.(np_subnets) c.(cn_dst) = true \/ (exists r, out.(np_dns) = Some r /\ holds c r = true) -> set_holds c rules = true) /\
  (forall r c c', out.(np_dns) = Some r -> c.(cn_name) = c'.(cn_name) -> holds c r = holds c' r) /\
  Z.of_nat (length out.(np_subnets)) <= maxNativeValues /\ Z.of_nat (length out.(np_transport)) <= maxNativeValues /\
  exists dst, 0 <= dst < 2 ^ 32 /\ in_list out.(np_subnets) dst = false /\ in_list out.(np_transport) dst = false.
Proof.
  unfold project_rules. case_decide as Hne; [done|]. intros ([ee w1] & Hee & Hp)%result_bind_Ok. apply result_bind_Ok in Hp as ([e w2] & He & Hp).
  apply result_bind_Ok in Hp as ([] & Hcb & Hp). destruct (ne_empty e) eqn:Hempty; [done|].
  apply result_bind_Ok in Hp as (subnets & Hs & Hp). apply result_bind_Ok in Hp as (transport & Ht & Hp). injection Hp as <-. cbn [np_dns np_subnets np_transport].
  apply compile_rules_ok in Hee as Hl. assert (Hne' : ee <> []) by (intros ->; apply Forall2_nil_inv_l in Hl; by apply fmap_nil_inv in Hl).
  apply (combineNative_ok _ _ _ _ _ _ _ (or_intror eq_refl) Hl Hne') in He.
  assert (Hset : forall c, xorb false (combine_bools ModeOr (map (fun P : Conn -> bool => P c) (map (fun r c => holds c r) rules))) = set_holds c rules).
  { intros c. rewrite xorb_false_l, map_map. unfold combine_bools. rewrite decide_False by done. unfold set_holds. clear.
    induction rules as [|r l IH]; [done|]. cbn [map existsb]. by f_equal. }
  pose proof (de_ok _ _ He) as Hok.
  destruct (bounded_prefixes_ok _ _ _ (eo_address _ Hok) Hs) as (Hsub & Hsl & _). destruct (bounded_prefixes_ok _ _ _ (eo_transport _ Hok) Ht) as (Htr & Htl & _).
  split; [|split; [|split; [|split; [done|split; [done|]]]]].
  - intros c Hc Hh. rewrite <- Hset in Hh. destruct Hc as [Hd Hport]. rewrite Hsub, Htr by done.
    destruct (de_covers _ _ He c (conj Hd Hport) Hh) as [[Hdom|Ha]%orb_true_iff|[Htu Ha]]; [right; right|by left|by right; left].
    destruct (cn_name c) as [name|] eqn:En; [|by rewrite (eo_empty _ Hok c En), Hempty in Hdom].
    unfold dom_of in Hdom. destruct (ne_domain e) as [r|]; [|done]. by exists name, r.
  - intros c Hc Hh. rewrite <- Hset. apply (de_exact _ _ He c Hc). unfold plain_of, dom_of. apply orb_true_iff. rewrite Hsub in Hh by apply Hc.
    destruct Hh as [Hh|(r & -> & Hh)]; [by right|by left].
  - intros r c c' Hr Hn. pose proof (eo_name _ Hok c c' Hn) as Hd. unfold dom_of in Hd. by rewrite Hr in Hd.
  - destruct (combined_bounded_ok e w2 Hok Hcb) as (dst & Hd & Hf); [by eapply bounded_not_whole, Hs; apply Hok|by eapply bounded_not_whole, Ht; apply Hok|].
    exists dst. split; [done|]. rewrite Hsub, Htr by done. by apply orb_false_iff.
Qed.

(** ** Witnesses *)
Fixpoint complement_from (low : Z) (rs : list IPRange) : list IPRange :=
  match rs with
  | [] => if decide (low < 2 ^ 32) then [(low, 2 ^ 32 - 1)] else []
  | (a, b) :: rs => if decide (low < a) then (low, a - 1) :: complement_from (b + 1) rs else complement_from (b + 1) rs
  end.
Lemma complement_from_ok low rs : 0 <= low -> ranges_ok low rs ->
  ranges_ok low (complement_from low rs) /\ forall ip, low <= ip < 2 ^ 32 -> in_ranges (complement_from low rs) ip = negb (in_ranges rs ip).
Proof.
  revert low. induction rs as [|[a b] rs IH]; intros low Hl Hok; cbn [complement_from].
  - case_decide; (split; [cbn [ranges_ok fst snd]; try (split; [lia|done]); done|]); intros ip Hip; [|lia].
    rewrite in_ranges_cons. cbn [fst snd]. by rewrite bool_decide_eq_true_2 by lia.
  - cbn [ranges_ok fst snd] in Hok. destruct Hok as (Hab & Hb & Hok).
    destruct (IH (b + 1)) as [IH1 IH2]; [lia|by eapply ranges_ok_mono; [|instantiate (1 := b + 2); lia]|].
    assert (Hin : forall ip, low <= ip < 2 ^ 32 -> ~ ip < a -> in_ranges (complement_from (b + 1) rs) ip = negb (in_ranges ((a, b) :: rs) ip)).
    { intros ip Hip Ha. rewrite in_ranges_cons. cbn [fst snd]. destruct (decide (ip <= b)).
      - rewrite bool_decide_eq_true_2 by lia. apply (ranges_below (b + 1)); [done|lia].
      - rewrite bool_decide_eq_false_2 by lia. apply IH2. lia. }
    assert (Hlow : forall ip, ip < a -> negb (in_ranges ((a, b) :: rs) ip) = true).
    { intros ip Ha. rewrite in_ranges_cons. cbn [fst snd]. rewrite bool_decide_eq_false_2 by lia. by rewrite (ranges_below (b + 2)) by (done || lia). }
    case_decide.
    + split.
      * cbn [ranges_ok fst snd]. split; [lia|]. split; [lia|]. eapply ranges_ok_mono; [|instantiate (1 := b + 1); lia].
        destruct (complement_from (b + 1) rs); done.
      * intros ip Hip. rewrite in_ranges_cons. cbn [fst snd]. destruct (decide (ip < a)); [rewrite bool_decide_eq_true_2 by lia; by rewrite Hlow|].
        rewrite bool_decide_eq_false_2 by lia. by apply Hin.
    + split; [by eapply ranges_ok_mono; [|instantiate (1 := b + 1); lia]|]. intros ip Hip. apply Hin; lia.
Qed.

(** The blocks of [2 ^ n] addresses from [base] on that cover the ranges. *)
Fixpoint cidr_blocks (n : nat) (base : Z) (rs : list IPRange) : list Prefix :=
  let last := base + 2 ^ Z.of_nat n - 1 in
  if existsb (fun r => bool_decide (r.1 <= base /\ last <= r.2)) rs then [MkPrefix (V4 base) (32 - Z.of_nat n)]
  else if forallb (fun r => bool_decide (r.2 < base \/ last < r.1)) rs then []
  else match n with
       | O => []
       | S n => cidr_blocks n base rs ++ cidr_blocks n (base + 2 ^ Z.of_nat n) rs
       end.
Definition cidr_block (n : nat) (base : Z) : Prop := exists k, base = k * 2 ^ Z.of_nat n /\ 0 <= k < 2 ^ (32 - Z.of_nat n).
Lemma block_halves n base : (n < 32)%nat -> cidr_block (S n) base -> cidr_block n base /\ cidr_block n (base + 2 ^ Z.of_nat n).
Proof.
  intros Hn (k & -> & Hk). assert (E : 2 ^ Z.of_nat (S n) = 2 * 2 ^ Z.of_nat n) by (rewrite Nat2Z.inj_succ, Z.pow_succ_r; lia).
  assert (E2 : 2 ^ (32 - Z.of_nat n) = 2 * 2 ^ (32 - Z.of_nat (S n))) by (rewrite <- Z.pow_succ_r by lia; f_equal; lia).
  split; [exists (2 * k)|exists (2 * k + 1)]; rewrite E, ?E2; split; lia.
Qed.
Lemma block_prefix n base dst : (n <= 32)%nat -> cidr_block n base ->
  0 <= base < 2 ^ 32 /\ Contains (MkPrefix (V4 base) (32 - Z.of_nat n)) (V4 dst) = bool_decide (base <= dst <= base + 2 ^ Z.of_nat n - 1).
Proof.
  intros Hn (k & -> & Hk). assert (Hp : 0 < 2 ^ Z.of_nat n) by (apply Z.pow_pos_nonneg; lia).
  assert (E : 2 ^ 32 = 2 ^ (32 - Z.of_nat n) * 2 ^ Z.of_nat n) by (rewrite <- Z.pow_add_r by lia; f_equal; lia).
  split; [nia|]. rewrite <- prefix_range_in by lia. unfold in_range, prefix_range. cbn [fst snd].
  replace (32 - (32 - Z.of_nat n)) with (Z.of_nat n) by lia. by rewrite Z.div_mul by lia.
Qed.
Lemma block_size n base : cidr_block (S n) base -> 2 ^ Z.of_nat (S n) = 2 ^ Z.of_nat n + 2 ^ Z.of_nat n /\ 0 < 2 ^ Z.of_nat n.
Proof. intros _. split; [rewrite Nat2Z.inj_succ, Z.pow_succ_r by lia; lia|apply Z.pow_pos_nonneg; lia]. Qed.
Lemma blocks_ok n base rs : (n <= 32)%nat -> cidr_block n base ->
  (forall p, p ∈ cidr_blocks n base rs -> exists ip bits, p = MkPrefix (V4 ip) bits /\ 0 <= ip < 2 ^ 32 /\ 0 <= bits <= 32) /\
  (forall dst, existsb (fun p => Contains p (V4 dst)) (cidr_blocks n base rs) = bool_decide (base <= dst <= base + 2 ^ Z.of_nat n - 1) && in_ranges rs dst).
Proof.
  revert base. induction n as [|n IH]; intros base Hn Hb; cbn [cidr_blocks]; cbv zeta.
  all: destruct (existsb _ rs) eqn:Hcov.
  1, 3: apply existsb_exists in Hcov as (r & Hr & Hc%bool_decide_eq_true); split;
    [intros p ->%list_elem_of_singleton; exists base; eexists; split; [done|]; destruct (block_prefix _ base 0 Hn Hb); split; [done|lia]|];
    intros dst; cbn [existsb]; rewrite orb_false_r; destruct (block_prefix _ base dst Hn Hb) as [_ ->];
    case_bool_decide as Hd; [|done]; symmetry; apply existsb_exists; exists r; split; [done|]; apply bool_decide_eq_true; lia.
  all: destruct (forallb _ rs) eqn:Hdis.
  1, 3: rewrite forallb_forall in Hdis; split; [by intros p ?%elem_of_nil|]; intros dst; cbn [existsb]; symmetry; case_bool_decide as Hd; [|done];
    cbn [andb]; apply not_true_iff_false; intros (r & Hr & Hc%bool_decide_eq_true)%existsb_exists; apply Hdis in Hr; apply bool_decide_eq_true in Hr; lia.
  - exfalso. change (2 ^ Z.of_nat 0) with 1 in *. apply not_true_iff_false in Hcov, Hdis. apply Hdis, forallb_forall. intros r Hr. apply bool_decide_eq_true.
    destruct (decide (r.1 <= base /\ base <= r.2)) as [Hc|]; [|lia]. exfalso. apply Hcov, existsb_exists. exists r. split; [done|]. apply bool_decide_eq_true. lia.
  - destruct (block_halves n base) as [H1 H2]; [lia|done|]. destruct (block_size n base Hb) as [E Hpos]. destruct (IH base ltac:(lia) H1) as [P1 C1].
    destruct (IH (base + 2 ^ Z.of_nat n) ltac:(lia) H2) as [P2 C2]. split.
    + intros p [Hp|Hp]%elem_of_app; [by apply P1|by apply P2].
    + intros dst. rewrite existsb_app, C1, C2, E. destruct (in_ranges rs dst); rewrite ?andb_false_r, ?andb_true_r; [|done].
      rewrite <- bool_decide_or. apply bool_decide_ext. lia.
Qed.
#[local] Existing Instance NftPolicy.merging_sets.
Definition by_length (a b : list IPRange) : Prop := (length a <= length b)%nat.
#[local] Instance by_length_dec : RelDecision by_length.
Proof. intros a b. unfold by_length. apply _. Defined.
#[local] Instance by_length_total : Total by_length.
Proof. intros a b. unfold by_length. lia. Qed.
#[local] Instance by_length_trans : Transitive by_length.
Proof. intros a b c. unfold by_length. lia. Qed.
#[local] Program Instance sample_ops : IPSetOps := {| Complement := complement_from 0; Prefixes := cidr_blocks 32 0; SortByLength := merge_sort by_length |}.
Next Obligation. intros l ip Hl Hip. by apply complement_from_ok. Qed.
Next Obligation. intros l Hl. by apply complement_from_ok. Qed.
Next Obligation. intros l p _. apply blocks_ok; [done|by exists 0]. Qed.
Next Obligation.
  intros l ip Hl Hip. destruct (blocks_ok 32 0 l) as [_ Hc]; [done|by exists 0|]. rewrite Hc. rewrite bool_decide_eq_true_2; [done|].
  change (2 ^ Z.of_nat 32) with (2 ^ 32). lia.
Qed.
Next Obligation.
  intros l Hl Hall. assert (l = [whole_ipv4]) as ->; [|vm_compute; reflexivity]. apply dec_stable. intros Hne.
  destruct (uncovered l Hl Hne) as (dst & Hd & Hf). by rewrite Hall in Hf.
Qed.
Next Obligation. intros l. apply merge_sort_Permutation. Qed.
Next Obligation. intros l. apply (StronglySorted_merge_sort by_length). Qed.
#[local] Program Instance sample_regex : RegexSyntax := {| RegexParse := fun _ => None; RegexCompiles := fun _ => false |}.
Next Obligation. done. Qed.
#[local] Program Instance exact_names : NameMatching := {| match_names := fun d s => bool_decide (s ∈ d.(dr_domain)) |}.
Next Obligation. intros d d' s Hd _ _ _. cbn. by rewrite Hd. Qed.

Definition sample_leaf (domain cidr network ports : list string) (invert : bool) : HeadlessRule :=
  Rule "" (MkDefault domain [] [] [] cidr network [] ports invert false false) "" [] false.
(** A name, a network without one of its parts, and the ports of a call. *)
Definition sample_set : list HeadlessRule :=
  [sample_leaf ["video.example"] [] [] [] false;
   Rule "logical" no_default "and" [sample_leaf [] ["10.0.0.0/8"] [] [] false; sample_leaf [] ["10.1.0.0/16"] [] [] true] false;
   sample_leaf [] ["203.0.113.0/24"; "2001:db8::/32"] ["udp"] ["3478:3481"] false]%string.
Definition sample_call : Conn := MkConn None (203 * 2 ^ 24 + 113 * 2 ^ 8 + 7) "udp" (Some 3480).
Lemma ProjectNative_intercepts_witness :
  exists out, project_rules false sample_set = Ok out /\
    out.(np_subnets) = ["10.0.0.0/16"; "10.2.0.0/15"; "10.4.0.0/14"; "10.8.0.0/13"; "10.16.0.0/12"; "10.32.0.0/11"; "10.64.0.0/10"; "10.128.0.0/9"]%string /\
    out.(np_transport) = ["203.0.113.0/24"]%string /\
    (in_list out.(np_subnets) sample_call.(cn_dst) = true \/ conn_tcp_udp sample_call /\ in_list out.(np_transport) sample_call.(cn_dst) = true \/
     exists name r, sample_call.(cn_name) = Some name /\ out.(np_dns) = Some r /\ holds sample_call r = true).
Proof.
  destruct (project_rules false sample_set) as [out|e] eqn:Hp; [|vm_compute in Hp; discriminate].
  exists out. pose proof (ProjectNative_intercepts false sample_set out Hp) as [Hcover _].
  split; [reflexivity|]. split; [vm_compute in Hp; injection Hp as <-; vm_compute; reflexivity|]. split; [vm_compute in Hp; injection Hp as <-; vm_compute; reflexivity|].
  apply Hcover; [split; [vm_compute; split; [discriminate|reflexivity]|right; reflexivity]|vm_compute; reflexivity].
Defined.
